(* ===== verification/_CoqProject ===== *)
-Q . S2P
Prelude.v
Money.v
Bands.v
Allocation.v
Clock.v
Segmentation.v
Text.v
Store.v
AuditTrail.v
Wallet.v
WalletAdmin.v
Topup.v
Pricing.v
Eligibility.v
Invoicing.v
InvoiceSpec.v
Notifications.v
Delivery.v
Closure.v
ClosureScan.v
Occupation.v
Monitoring.v
MeterUnits.v
JsonText.v
JsonTextSpec.v
Frames.v
Metering.v
MeteringSpec.v
WaterFilling.v
PowerSchedule.v
PowerControl.v
Access.v
Reservations.v
Identity.v
IdentitySpec.v
Catalogue.v
CatalogueSpec.v
Discovery.v
ReservationWorker.v
Privacy.v
PrivacySpec.v
ReservationSpec.v
ReservationRuns.v
Sessions.v
Control.v
ControlSpec.v
SessionSpec.v
Dispatcher.v
ReplyFrame.v
DispatcherSpec.v
PowerWorker.v
PowerWorkerSpec.v
Configuration.v
ConfigurationSpec.v
Accounting.v
AccountingSpec.v
Alerts.v
AlertsSpec.v
Transport.v
TransportSpec.v
