(* ===== verification/Prelude.v ===== *)
(** * CSMS: a verification library for a charging station management system

    The program under [src/] is the server of an operator of charging stations
    for electric vehicles, a modular monolith in Python over PostgreSQL.
    Chargers speak OCPP to it; drivers pay from a prepaid wallet. This library
    models the part of it that moves money, the events that decide how much, the
    power limits, the reservations, the conversation with the chargers, the
    accounts, the station catalogue and the checks operators rely on, and proves
    the properties operators and drivers count on.

    ** The parts and how they interact

    A charger reports connector states and meter readings. A session that has
    ended and whose cable has been unplugged is closed: an invoice is computed
    from the readings, from the occupation of the connector after charging and
    from the tariff versions in force on each local day; its total is debited on
    the driver's wallet through an append-only ledger. Wallets are filled by
    payment gateway callbacks and by administrators. Background workers recover
    sessions whose closure was missed, reconcile balances and mail
    notifications. The power engine splits a station's limit, which a schedule
    sets by date and minute, among sessions. A driver may reserve a connector;
    a worker tells the charger, and a no-show pays a fee from the wallet.

    A charger's calls pass through a dispatcher that stores every reply and
    repeats it when the call is repeated. The server's own calls (remote
    commands, power limits, configuration changes, reservations) go out at most
    once per request, and workers that die are taken over by a readback, not by
    sending again. An alert scan opens incidents for chargers that are silent or
    faulty, and a reconciliation run recomputes the invoices of a period.

    People reach all this through sessions opened by a login; every route
    declares a policy, and the routes of owners are offered again to operators,
    administrators and accountants with a scope of their own. Owners keep a
    catalogue of stations, chargers and connectors and open a station for
    charging; drivers search it. A person may ask to be forgotten: a review, a
    refund and a checkpointed executor lead there.

    ** Files

    Foundations:
    - [Prelude]: hint databases, list, sum and sorting lemmas, the state and
      exception monad [M] with its rules ([wp], [keeps], [bind_ok]).
    - [Clock]: instants, time zones, local dates. [Text]: Python's string
      operations, decimal and UUID texts.
    - [Store]: the tables as one record [Db], the exceptions [Exn], the monad
      [Tx] of the services, the settings and the tz database as the class
      [Deployment].

    Pure components:
    - [Money]: [billing/money.py], [billing/idle_fee.py].
    - [Bands]: [pricing/bands.py] and [stations/power_bands.py], one algorithm
      over the class [Band] with two instances.
    - [Allocation]: [stations/power_allocation_engine.py].
    - [Segmentation]: [billing/segmentation.py].
    - [MeterUnits]: [charging/meter_units.py], with Python's decimal arithmetic.
    - [WaterFilling]: [power/allocation.py].
    - [JsonText], [JsonTextSpec] and [Frames]: [ocpp/frames.py] over the JSON
      texts Python reads and writes.
    - [Access]: [identity/authorization.py], [policy_routing.py],
      [scoped_routes.py] and the checks of [dependencies.py].

    Services over the tables:
    - [AuditTrail]: [platform/audit/service.py].
    - [Wallet]: [wallet/service.py], [wallet/provisioning.py]. [WalletAdmin]:
      [wallet/reconciliation.py], [wallet/administration.py],
      [wallet/manual_topup.py]. [Topup]: [wallet/topup_webhook_service.py],
      [payments/contracts.py]. [Eligibility]: [wallet/eligibility.py].
    - [Pricing]: [pricing/service.py], [pricing/creation.py], the edit of
      [pricing/router.py].
    - [Invoicing] and [InvoiceSpec]: [billing/invoicing.py] and its contract.
    - [Notifications]: [driver_notifications/service.py]. [Delivery]:
      [driver_notifications/worker.py].
    - [Closure] and [ClosureScan]: [billing/closure.py], [lap_hoa_don].
    - [Occupation]: [charging/occupation.py]. [Monitoring]:
      [ocpp/monitoring.py], [stations/connector_status.py].
    - [Metering] and [MeteringSpec]: the samples, stops and recovery of
      [charging/service.py] and [charging/recovery.py].
    - [PowerSchedule]: [stations/power_schedule_service.py] and the write of
      its router. [PowerControl]: [power/service.py].
    - [Reservations]: [reservations/service.py], [fees.py], [policy.py] and
      [charging/driver_provisioning.py]. [ReservationWorker]:
      [reservations/worker.py]. [ReservationSpec]: the invariant, a small
      program logic and each operation's triple. [ReservationRuns]: the step
      relation and the theorems about every run.
    - [Sessions] and [SessionSpec]: [authorize] and [start_transaction] of
      [charging/service.py] with what they settle in [charging/driver.py].
      [Control] and [ControlSpec]: [ocpp/control.py] and the remote start of
      [charging/driver.py].
    - [Dispatcher]: [ocpp/dispatcher.py]. [ReplyFrame]: its handlers neither
      read nor write the stored replies. [DispatcherSpec]: the abstract machine
      it refines.
    - [PowerWorker] and [PowerWorkerSpec]: [power/worker.py] as a coroutine of
      transactions and exchanges, and the system of workers.
    - [Configuration] and [ConfigurationSpec]: [ocpp/configuration.py], its
      adapter, and the system of its workers.
    - [Accounting] and [AccountingSpec]: the run of [accounting/service.py].
    - [Alerts] and [AlertsSpec]: [alerts/service.py], [alerts/worker.py].
    - [Transport] and [TransportSpec]: [ocpp/connection_registry.py],
      [ocpp/transport.py], [ocpp/router.py]: sockets as shared objects, the
      registry, calls that wait for their reply.
    - [Identity] and [IdentitySpec]: [identity/service.py], [repository.py],
      [role_assignment.py], [admin_service.py] and their handlers; the abstract
      account machine they refine.
    - [Catalogue] and [CatalogueSpec]: [stations/repository.py], its routers
      and [operation_router.py]. [Discovery]: [stations/discovery.py] and its
      router.
    - [Privacy] and [PrivacySpec]: [privacy/service.py], [executor.py],
      [worker.py], the handlers, and the gates and stages of the migration
      [l170028a2026_privacy_execution.sql].

    Definitions keep the names of the source, including a leading underscore. A
    service function is a computation in [Tx], its guards in the order of the
    code; [begin_nested] is [savepoint], [except] is [try_except]. A record of a
    table has the columns the modelled code reads or writes.

    ** What the theorems show

    - Money: a posting keeps every balance equal to its ledger and is done once
      per reference, under interference by other transactions ([Wallet]); an
      order is credited exactly once however often the gateway calls
      ([Topup]); closing a session debits its invoice once or leaves the money
      alone, and repeating it never moves money ([Closure]); the recovery scan
      visits every open session and the queue never runs one twice
      ([ClosureScan]); reconciliation, repair and adjustment do precisely what
      they document ([WalletAdmin]).
    - Amounts: rounding, interpolation and the cut of a session conserve the
      metered energy and price each part by the band of its own local day; idle
      lines charge each started minute once; the invoice is their sum, and the
      estimate shown to the driver is that very sum ([Money], [Segmentation],
      [Invoicing], [InvoiceSpec], [Notifications]).
    - Tariffs: a schedule is accepted exactly when it tiles the day, and no
      sequence of edits reprices a past or present day ([Bands], [Pricing]).
    - Events: whatever order notifications arrive in, the occupation recorded
      can be invoiced and status notifications never fail ([Occupation],
      [Monitoring]); a notification is created once per event and two workers
      hold it only a lease apart ([Notifications], [Delivery]).
    - Power: the split respects the limit, is fair, pre-empts the newest
      sessions and no more than needed; with different minimums a served
      session can fall below its own ([Allocation]).
      Water filling ends and is the highest common level within the budget
      ([WaterFilling]); a saved schedule governs its days and no others
      ([PowerSchedule]); settings never overwrite what their author did not
      see ([PowerControl]).
    - Meters: stored readings never decrease unless the session is flagged, a
      stop leaves a record that can be invoiced or a review reason, decimal
      readings are stored exactly ([MeterUnits], [MeteringSpec]).
    - Reservations: a connector and a driver have at most one, a request is
      sent at most once, released ones stay released, and a no-show pays the
      agreed fee once ([ReservationRuns]). Two boundary cases in which the code
      departs from its intent are evaluated there.
    - Chargers: the dispatcher refines exactly-once processing with a memory of
      a week ([DispatcherSpec]); a start is turned away or leaves one open
      session and is accepted only for a valid card, a sufficient wallet and the
      holder of the reservation ([SessionSpec]); a command goes out once per
      request and gets a result by its deadline ([ControlSpec]).
    - Workers: however power workers, other transactions, crashes and replies
      interleave, the limits chargers may enforce stay within what the station
      has reserved ([PowerWorkerSpec]); a configuration change and its reset go
      out at most once and are called verified only after a readback showed the
      value ([ConfigurationSpec]).
    - Checks: a reconciliation run adds up, a session matches exactly when every
      check holds, and an invoice made by [Invoicing] and debited by its total
      always matches ([AccountingSpec]); a charger has one open incident at a
      time, and none is opened again before it recovered ([AlertsSpec]).
    - Wire: a frame without floats is read back as it was written, and every
      text decodes to a typed frame or a protocol error ([Frames]); a caller
      wakes at most once, with a reply that came in on its own socket under its
      own identifier ([TransportSpec]).
    - Accounts: guesses at a password are bounded, a revoked token never works
      again, an administrator remains, and every request is a step of the
      abstract account machine ([IdentitySpec]); the areas never widen what a
      request may see ([Access]).
    - Catalogue: codes stay unique and, once used, fixed; the time zone of a
      used station stays; owners never touch each other's stations; a station
      that opens has a connector, power and a tariff for every minute
      ([CatalogueSpec]); a search is a substring test and the alternatives
      offered can be booked ([Discovery]).
    - Privacy: the refund before an erasure is exact and made once, the gates of
      the database and the page agree, nothing is erased but behind the gates,
      and every pass ends ([PrivacySpec]).
    - The audit log holds no personal data ([AuditTrail]).

    ** Bounds, fuel and integers

    Amounts are unbounded [Z] with the range checks of the code ([MIN_VND],
    [MAX_VND]) and of the columns written out. Energies are integers of
    micro-watt-hours, the resolution of [Numeric(24,6)]; instants are
    microseconds. [preempt] and [distribute] take the number of sessions as fuel
    and each round removes one; [idle_loop] takes the number of minutes to
    charge and each round uses at least one; the recovery scan is proved to
    return for every fuel above the number of open sessions, and water filling
    for every fuel above the number of demands; the executor of erasures is
    proved to return with fuel 3, the number of its stages. The JSON reader
    takes the nesting depth the interpreter allows. The other loops are
    structural.

    Concurrency is modelled where the code handles it: the interference inside
    [ghi_so_cai_under], the two transactions of a delivery, the closure queue,
    the saves of power settings, reservations with their commands on the wire,
    the power and configuration workers (any number of them, interleaved at
    every transaction and every exchange, dying anywhere), the alert scan with
    its mail workers, the sockets with their calls, and the commits of others
    between the check and the insert of a charger's code ([others] in
    [Catalogue]).
    Row locks and advisory locks otherwise make transactions atomic steps.

    ** Parameters

    Code that is not under [src/] is an argument: SHA-256 ([tag_hash], [digest],
    [sha256]), [uuid5], the reader of ISO dates, what Pydantic makes of a
    charger's payload ([Schemas]), the set of live sockets ([Registry]), what a
    call on a socket came to ([Net]), whether an advisory lock was obtained and
    whether an SMTP conversation failed, the text Python gives a float, whether
    the database or a send fails under a socket, the names of the zone database
    and the digest of a creation request. Settings and the tz database are the
    class [Deployment]; Argon2 and the hash of a token are the class [AuthEnv],
    with the token drawn and the hash of a new password as arguments. The SQL
    statements that move a person's rows to an anonymous subject are the
    argument [redact] of the executor.

    ** Not modelled

    The read-only pages and CSV exports of reporting, accounting, monitoring and
    billing, whose queries only present what the modelled operations stored;
    station photos and the gateways' clients, which are input and output; the
    loops that repeat a modelled step after a sleep; SMTP itself, the user
    interface, the other migrations, the scripts and the simulator. *)

From stdpp Require Export prelude gmap strings list sorting.
From Stdlib Require Export ZArith Lia.

Open Scope Z_scope.

(** ** Hint databases *)

Create HintDb csms discriminated.
Create HintDb csms_keeps discriminated.
Create Rewrite HintDb csms_list.
Create Rewrite HintDb csms_wp.

(** ** Arithmetic helpers *)

Definition sumZ (l : list Z) : Z := foldr Z.add 0 l.

Lemma sumZ_app l1 l2 : sumZ (l1 ++ l2) = sumZ l1 + sumZ l2.
Proof. induction l1 as [|x l1 IH]; simpl; [done|]. rewrite IH. lia. Qed.

Lemma sumZ_cons x l : sumZ (x :: l) = x + sumZ l.
Proof. done. Qed.

Lemma sumZ_nonneg l : Forall (λ x, 0 ≤ x) l → 0 ≤ sumZ l.
Proof. induction 1; simpl; lia. Qed.

#[global] Instance sumZ_perm : Proper ((≡ₚ) ==> (=)) sumZ.
Proof. induction 1; simpl in *; lia. Qed.

Lemma sumZ_fmap_ext {A} (f g : A → Z) l :
  (∀ x, x ∈ l → f x = g x) → sumZ (f <$> l) = sumZ (g <$> l).
Proof.
  induction l as [|x l IH]; intros Hl; [done|].
  rewrite !fmap_cons, !sumZ_cons, IH by set_solver. rewrite (Hl x) by set_solver. done.
Qed.

Lemma sumZ_fmap_zero {A} (f : A → Z) l : (∀ x, x ∈ l → f x = 0) → sumZ (f <$> l) = 0.
Proof.
  induction l as [|x l IH]; intros Hl; [done|].
  rewrite fmap_cons, sumZ_cons, IH, (Hl x) by set_solver. done.
Qed.

Lemma sumZ_fmap_le {A} (f g : A → Z) l :
  (∀ x, x ∈ l → f x ≤ g x) → sumZ (f <$> l) ≤ sumZ (g <$> l).
Proof.
  induction l as [|x l IH]; intros Hl; [done|]. rewrite !fmap_cons, !sumZ_cons.
  specialize (IH ltac:(set_solver)). specialize (Hl x ltac:(set_solver)). lia.
Qed.

#[export] Hint Rewrite sumZ_app sumZ_cons : csms_list.

(** Python's [divmod] and [//] on integers round toward minus infinity, as
    [Z.div] and [Z.modulo] do; only positive divisors occur in the program. *)

Definition ceil_div (a b : Z) : Z := (a + b - 1) / b.

Lemma ceil_div_spec a b : 0 < b → b * (ceil_div a b - 1) < a ≤ b * ceil_div a b.
Proof.
  intros Hb. unfold ceil_div.
  pose proof (Z.div_mod (a + b - 1) b ltac:(lia)).
  pose proof (Z.mod_pos_bound (a + b - 1) b Hb). nia.
Qed.

Lemma ceil_div_unique a b q : 0 < b → b * (q - 1) < a ≤ b * q → ceil_div a b = q.
Proof. intros Hb Hq. pose proof (ceil_div_spec a b Hb). nia. Qed.

(** Signed 64-bit columns (PostgreSQL BIGINT). *)

Definition MIN_VND : Z := - 2 ^ 63.
Definition MAX_VND : Z := 2 ^ 63 - 1.

(** ** Stable sorting by an integer key, as Python's [sorted] with [key] *)

Section sort_by.
Context {A : Type} (key : A → Z).

Fixpoint insert_by (x : A) (l : list A) : list A :=
  match l with
  | [] => [x]
  | y :: l' => if key x <=? key y then x :: y :: l' else y :: insert_by x l'
  end.

Definition sort_by (l : list A) : list A := foldr insert_by [] l.

Definition key_le (x y : A) : Prop := key x ≤ key y.

Lemma insert_by_perm x l : insert_by x l ≡ₚ x :: l.
Proof.
  induction l as [|y l IH]; simpl; [done|].
  case_match; [done|]. rewrite IH. apply Permutation_swap.
Qed.

Lemma sort_by_perm l : sort_by l ≡ₚ l.
Proof. induction l as [|x l IH]; simpl; [done|]. by rewrite insert_by_perm, IH. Qed.

Lemma insert_by_sorted x l :
  StronglySorted key_le l → StronglySorted key_le (insert_by x l).
Proof.
  induction 1 as [|y l Hl IH Hy]; simpl; [repeat constructor|].
  case_match eqn:E.
  - apply Z.leb_le in E. constructor; [by constructor|].
    constructor; [done|]. eapply Forall_impl; [exact Hy|]. unfold key_le. lia.
  - apply Z.leb_gt in E. constructor; [done|].
    rewrite insert_by_perm. constructor; [unfold key_le; lia|done].
Qed.

Lemma sort_by_sorted l : StronglySorted key_le (sort_by l).
Proof. induction l; simpl; [constructor|]. by apply insert_by_sorted. Qed.

Lemma elem_of_sort_by x l : x ∈ sort_by l ↔ x ∈ l.
Proof. by rewrite sort_by_perm. Qed.
End sort_by.

(** [sorted(set(xs))] on integers. *)

Definition sorted_set (l : list Z) : list Z := sort_by id (remove_dups l).

Lemma elem_of_sorted_set x l : x ∈ sorted_set l ↔ x ∈ l.
Proof. unfold sorted_set. by rewrite elem_of_sort_by, elem_of_remove_dups. Qed.

Lemma sorted_set_strict l : StronglySorted Z.lt (sorted_set l).
Proof.
  assert (Hs := sort_by_sorted id (remove_dups l)).
  assert (Hn : NoDup (sorted_set l)).
  { unfold sorted_set. rewrite sort_by_perm. apply NoDup_remove_dups. }
  unfold sorted_set in *. induction Hs as [|x l' Hs IH Hx]; [constructor|].
  apply NoDup_cons in Hn as [Hnx Hn]. constructor; [by apply IH|].
  rewrite Forall_forall in Hx |- *. intros y Hy. specialize (Hx y Hy).
  unfold key_le, id in Hx. assert (x ≠ y) by (intros ->; done). lia.
Qed.

(** ** Adjacent pairs, as [itertools.pairwise] *)

Fixpoint pairwise {A} (l : list A) : list (A * A) :=
  match l with
  | x :: ((y :: _) as l') => (x, y) :: pairwise l'
  | _ => []
  end.

Lemma elem_of_pairwise_1 {A} (l : list A) x y : (x, y) ∈ pairwise l → x ∈ l ∧ y ∈ l.
Proof.
  induction l as [|a [|b l] IH]; simpl in *; try (by intros ?%elem_of_nil).
  intros [[= -> ->]|H]%elem_of_cons; [set_solver|]. apply IH in H. set_solver.
Qed.

Lemma StronglySorted_weaken {A} (R S : relation A) l :
  (∀ x y, R x y → S x y) → StronglySorted R l → StronglySorted S l.
Proof. intros HRS. induction 1; constructor; [done|]. eapply Forall_impl; eauto. Qed.

Lemma pairwise_related {A} (R : relation A) l x y :
  StronglySorted R l → (x, y) ∈ pairwise l → R x y.
Proof.
  induction 1 as [|a l Hl IH Ha]; simpl; [by intros ?%elem_of_nil|].
  destruct l as [|b l]; [by intros ?%elem_of_nil|].
  intros [[= -> ->]|H]%elem_of_cons; [by inversion Ha|]. by apply IH.
Qed.

Lemma pairwise_sorted_lt l x y :
  StronglySorted Z.lt l → (x, y) ∈ pairwise l → x < y.
Proof. apply pairwise_related. Qed.

(** Adjacent entries of a strictly sorted list have no entry strictly between. *)
Lemma pairwise_adjacent_key {A} (f : A → Z) l x y z :
  StronglySorted (λ a b, f a < f b) l → (x, y) ∈ pairwise l → z ∈ l → f z ≤ f x ∨ f y ≤ f z.
Proof.
  induction 1 as [|a l Hl IH Ha]; simpl; [by intros ?%elem_of_nil|].
  destruct l as [|b l]; [by intros ?%elem_of_nil|].
  intros [[= -> ->]|H]%elem_of_cons [->|Hz]%elem_of_cons.
  - left; lia.
  - right. apply elem_of_cons in Hz as [->|Hz]; [lia|].
    inversion Hl as [|?? _ Hb]; subst. rewrite Forall_forall in Hb.
    specialize (Hb _ Hz). lia.
  - left. apply elem_of_pairwise_1 in H as [Hx _].
    rewrite Forall_forall in Ha. specialize (Ha _ Hx). lia.
  - by apply IH.
Qed.

Lemma pairwise_adjacent l x y z :
  StronglySorted Z.lt l → (x, y) ∈ pairwise l → z ∈ l → z ≤ x ∨ y ≤ z.
Proof. apply (pairwise_adjacent_key id). Qed.

(** Adjacent entries related by a transitive relation make the list sorted. *)
Lemma pairwise_StronglySorted {A} (R : relation A) `{!Transitive R} l :
  (∀ x y, (x, y) ∈ pairwise l → R x y) → StronglySorted R l.
Proof.
  induction l as [|x [|y l] IH]; intros Hl; [constructor|repeat constructor|].
  assert (StronglySorted R (y :: l)) as Hs by (apply IH; intros a b Hab; apply Hl; by right).
  constructor; [done|]. assert (R x y) as Hxy by (apply Hl; by left).
  constructor; [done|]. inversion Hs as [|?? _ Hy]; subst. eapply Forall_impl; [exact Hy|].
  intros z Hz. by etrans.
Qed.

(** Two entries of a sorted list are equal or related one way. *)
Lemma StronglySorted_trichotomy {A} (R : relation A) l x y :
  StronglySorted R l → x ∈ l → y ∈ l → x = y ∨ R x y ∨ R y x.
Proof.
  induction 1 as [|a l Hl IH Ha]; [by intros ?%elem_of_nil|]. rewrite Forall_forall in Ha.
  intros [->|Hx]%elem_of_cons [->|Hy]%elem_of_cons; auto.
Qed.

(** Every point of the range spanned by a strictly sorted list lies in exactly
    one of its half-open gaps. *)
Lemma pairwise_cover l a b z :
  StronglySorted Z.lt l → head l = Some a → last l = Some b → a ≤ z < b →
  ∃ x y, (x, y) ∈ pairwise l ∧ x ≤ z < y.
Proof.
  intros Hs. revert a. induction Hs as [|c l Hl IH Hc]; [done|].
  intros a [= ->] Hlast Hz. destruct l as [|d l]; simpl in *.
  { injection Hlast as ->. lia. }
  destruct (decide (z < d)).
  - exists a, d. split; [by left|lia].
  - destruct (IH d) as (x & y & Hxy & ?); [done|done|lia|].
    exists x, y. split; [by right|done].
Qed.

(** ** Pure computations that may raise: [inl] is the exception *)

#[export] Instance sum_ret {E} : MRet (sum E) := λ A a, inr a.
#[export] Instance sum_bind {E} : MBind (sum E) := λ A B k m,
  match m with inl e => inl e | inr a => k a end.

Lemma sum_bind_ok {E A B} (m : E + A) (k : A → E + B) b :
  m ≫= k = inr b ↔ ∃ a, m = inr a ∧ k a = inr b.
Proof. destruct m; simpl; naive_solver. Qed.

Definition from_option_err {E A} (e : E) (o : option A) : E + A :=
  match o with Some a => inr a | None => inl e end.

(** ** State and exceptions

    A transaction body is a function from the database to a result and the
    database at the point where it returned or raised, as a Python coroutine
    working on an open [AsyncSession]. [inl] is a raised exception. *)

Definition M (St E A : Type) : Type := St → (E + A) * St.

Section monad.
Context {St E : Type}.

#[global] Instance M_ret : MRet (M St E) := λ A a s, (inr a, s).
#[global] Instance M_bind : MBind (M St E) := λ A B k m s,
  match m s with
  | (inl e, s') => (inl e, s')
  | (inr a, s') => k a s'
  end.

Definition raise {A} (e : E) : M St E A := λ s, (inl e, s).
Definition gets {A} (f : St → A) : M St E A := λ s, (inr (f s), s).
Definition modify (f : St → St) : M St E () := λ s, (inr (), f s).

(** [if cond: raise e] *)
Definition raise_if (b : bool) (e : E) : M St E () := if b then raise e else mret ().
Definition when (b : bool) (m : M St E ()) : M St E () := if b then m else mret ().

(** [x = ...; if x is None: raise e] *)
Definition some_or {A} (o : option A) (e : E) : M St E A :=
  match o with Some a => mret a | None => raise e end.

(** [async with session.begin_nested()]: a savepoint. Leaving it by an
    exception restores the database and re-raises. [SessionFactory.begin()]
    around a whole request has the same effect. *)
Definition savepoint {A} (m : M St E A) : M St E A := λ s,
  match m s with
  | (inl e, _) => (inl e, s)
  | (inr a, s') => (inr a, s')
  end.

(** [try: m except e: h e] where [h] is partial: [None] re-raises. *)
Definition try_except {A} (m : M St E A) (h : E → option (M St E A)) : M St E A := λ s,
  match m s with
  | (inl e, s') => match h e with Some k => k s' | None => (inl e, s') end
  | (inr a, s') => (inr a, s')
  end.

Fixpoint for_each {A} (l : list A) (body : A → M St E ()) : M St E () :=
  match l with
  | [] => mret ()
  | x :: l' => body x;; for_each l' body
  end.

(** Weakest precondition: [Q] holds of the outcome and the final state. *)
Definition wp {A} (m : M St E A) (Q : E + A → St → Prop) (s : St) : Prop :=
  Q (m s).1 (m s).2.

Definition on_ok {A} (Q : A → St → Prop) : E + A → St → Prop :=
  λ r s, match r with inl _ => True | inr a => Q a s end.

Lemma wp_ret {A} (a : A) Q s : wp (mret a) Q s = Q (inr a) s.
Proof. done. Qed.
Lemma wp_raise {A} (e : E) (Q : E + A → St → Prop) s : wp (raise e) Q s = Q (inl e) s.
Proof. done. Qed.
Lemma wp_gets {A} (f : St → A) Q s : wp (gets f) Q s = Q (inr (f s)) s.
Proof. done. Qed.
Lemma wp_modify f Q s : wp (modify f) Q s = Q (inr ()) (f s).
Proof. done. Qed.
Lemma wp_bind {A B} (m : M St E A) (k : A → M St E B) Q s :
  wp (m ≫= k) Q s ↔
  wp m (λ r s', match r with inl e => Q (inl e) s' | inr a => wp (k a) Q s' end) s.
Proof.
  unfold wp, mbind, M_bind. destruct (m s) as [[e|a] s']; done.
Qed.
Lemma wp_savepoint {A} (m : M St E A) Q s :
  wp (savepoint m) Q s ↔
  wp m (λ r s', match r with inl e => Q (inl e) s | inr a => Q (inr a) s' end) s.
Proof. unfold wp, savepoint. by destruct (m s) as [[e|a] s']. Qed.
Lemma wp_mono {A} (m : M St E A) (Q Q' : E + A → St → Prop) s :
  wp m Q s → (∀ r s', Q r s' → Q' r s') → wp m Q' s.
Proof. unfold wp. auto. Qed.

(** [m] keeps [I] whether it returns or raises. *)
Definition keeps {A} (I : St → Prop) (m : M St E A) : Prop := ∀ s, I s → I (m s).2.

Lemma keeps_ret {A} I (a : A) : keeps I (mret a).
Proof. by intros s Hs. Qed.
Lemma keeps_raise {A} I e : keeps I (raise (A := A) e).
Proof. by intros s Hs. Qed.
Lemma keeps_gets {A} I (f : St → A) : keeps I (gets f).
Proof. by intros s Hs. Qed.
Lemma keeps_raise_if I b e : keeps I (raise_if b e).
Proof. intros s Hs. by destruct b. Qed.
Lemma keeps_some_or {A} I (o : option A) e : keeps I (some_or o e).
Proof. intros s Hs. by destruct o. Qed.
Lemma keeps_modify (I : St → Prop) f : (∀ s, I s → I (f s)) → keeps I (modify f).
Proof. intros Hf s Hs. by apply Hf. Qed.
Lemma bind_assoc {A B C} (m : M St E A) (f : A → M St E B) (g : B → M St E C) s :
  ((m ≫= f) ≫= g) s = (m ≫= (λ a, f a ≫= g)) s.
Proof. unfold mbind, M_bind. by destruct (m s) as [[e|a] s']. Qed.
Lemma keeps_bind {A B} I (m : M St E A) (k : A → M St E B) :
  keeps I m → (∀ a, keeps I (k a)) → keeps I (m ≫= k).
Proof.
  intros Hm Hk s Hs. unfold mbind, M_bind. specialize (Hm s Hs).
  destruct (m s) as [[e|a] s']; [done|]. by apply Hk.
Qed.
Lemma keeps_savepoint {A} I (m : M St E A) : keeps I m → keeps I (savepoint m).
Proof. intros Hm s Hs. unfold savepoint. specialize (Hm s Hs). by destruct (m s) as [[e|a] s']. Qed.
Lemma keeps_for_each {A} I (l : list A) body : (∀ x, keeps I (body x)) → keeps I (for_each l body).
Proof. intros Hb. induction l; simpl; [apply keeps_ret|]. by apply keeps_bind. Qed.
Lemma keeps_when I b m : keeps I m → keeps I (when b m).
Proof. intros Hm. destruct b; [done|apply keeps_ret]. Qed.
Lemma keeps_try {A} I (m : M St E A) h :
  keeps I m → (∀ e k, h e = Some k → keeps I k) → keeps I (try_except m h).
Proof.
  intros Hm Hh s Hs. unfold try_except. specialize (Hm s Hs). destruct (m s) as [[e|a] s']; [|done].
  destruct (h e) as [k|] eqn:E'; [|done]. by apply (Hh e k E').
Qed.
(** From one state, then the rest by the invariant. *)
Lemma keeps_after {A B} I (m : M St E A) (k : A → M St E B) s :
  I (m s).2 → (∀ a, keeps I (k a)) → I ((m ≫= k) s).2.
Proof. unfold mbind, M_bind. intros Hm Hk. destruct (m s) as [[e|a] s']; [done|]. by apply Hk. Qed.
Lemma keeps_run {A} I (m : M St E A) s r s' : keeps I m → I s → m s = (r, s') → I s'.
Proof. intros Hm Hs H. specialize (Hm s Hs). by rewrite H in Hm. Qed.

(** A projection of the state that [m] keeps. *)
Lemma run_frame {A B} (f : St → B) (m : M St E A) s r s' :
  m s = (r, s') → (∀ x, keeps (λ s, f s = x) m) → f s' = f s.
Proof. intros H Hm. by apply (keeps_run _ m s r s' (Hm (f s))). Qed.

Lemma bind_ok {A B} (m : M St E A) (k : A → M St E B) s b s' :
  (m ≫= k) s = (inr b, s') ↔ ∃ a s1, m s = (inr a, s1) ∧ k a s1 = (inr b, s').
Proof.
  unfold mbind, M_bind. destruct (m s) as [[e|a] s1]; naive_solver.
Qed.

Lemma savepoint_ok {A} (m : M St E A) s a s' : savepoint m s = (inr a, s') → m s = (inr a, s').
Proof. unfold savepoint. destruct (m s) as [[e|b] s1]; naive_solver. Qed.

Lemma savepoint_cases {A} (m : M St E A) s r s' :
  savepoint m s = (r, s') → (∃ e, r = inl e ∧ s' = s) ∨ (∃ a, r = inr a ∧ m s = (inr a, s')).
Proof. unfold savepoint. destruct (m s) as [[e|b] s1]; intros [= <- <-]; eauto. Qed.

(** A run whose value is known, as when it was evaluated. *)
Lemma ran {A} (p : (E + A) * St) a : p.1 = inr a → p = (inr a, p.2).
Proof. destruct p. simpl. by intros ->. Qed.

(** The handler only re-raises. *)
Lemma try_ok {A} (m : M St E A) h s a s' :
  (∀ e k s1, h e = Some k → ∃ e', k s1 = (inl e', s1)) →
  try_except m h s = (inr a, s') → m s = (inr a, s').
Proof.
  intros Hh. unfold try_except. destruct (m s) as [[e|b] s1]; [|done].
  destruct (h e) as [k|] eqn:Hk; [|done]. destruct (Hh e k s1 Hk) as [e' ->]. done.
Qed.

Lemma raise_if_inr b (e : E) s u s' : raise_if b e s = (inr u, s') → b = false ∧ s' = s.
Proof. destruct b; by intros [=]. Qed.

Lemma some_or_inr {A} (o : option A) (e : E) s a s' : some_or o e s = (inr a, s') → o = Some a ∧ s' = s.
Proof. destruct o; by intros [=]; subst. Qed.

Lemma bind_gets {A B} (f : St → A) (k : A → M St E B) s : (gets f ≫= k) s = k (f s) s.
Proof. done. Qed.
Lemma bind_ok_step {A B} (m : M St E A) (k : A → M St E B) s a s1 :
  m s = (inr a, s1) → (m ≫= k) s = k a s1.
Proof. unfold mbind, M_bind. by intros ->. Qed.

Lemma bind_err_step {A B} (m : M St E A) (k : A → M St E B) s e s1 :
  m s = (inl e, s1) → (m ≫= k) s = (inl e, s1).
Proof. unfold mbind, M_bind. by intros ->. Qed.
End monad.

#[export] Hint Rewrite @wp_ret @wp_raise @wp_gets @wp_modify @wp_bind @wp_savepoint : csms_wp.

#[export] Hint Resolve keeps_ret keeps_raise keeps_gets keeps_raise_if keeps_some_or keeps_bind
  keeps_savepoint keeps_for_each keeps_when : csms_keeps.

Lemma alter_as_insert {A} (f : A → A) k x (m : gmap Z A) : m !! k = Some x → alter f k m = <[k := f x]> m.
Proof.
  intros Hk. apply map_eq. intros j. destruct (decide (j = k)) as [->|].
  - by rewrite lookup_alter_eq, lookup_insert_eq, Hk.
  - by rewrite lookup_alter_ne, lookup_insert_ne by done.
Qed.

(** ** Sorting facts used by several components *)

Lemma sort_by_id {A} (key : A → Z) l : StronglySorted (key_le key) l → sort_by key l = l.
Proof.
  induction 1 as [|x l Hl IH Hx]; simpl; [done|]. rewrite IH.
  destruct Hx as [|y l Hy _]; simpl; [done|].
  unfold key_le in Hy. by rewrite (proj2 (Z.leb_le _ _) Hy).
Qed.

Lemma StronglySorted_head_min l a :
  StronglySorted Z.lt l → a ∈ l → (∀ y, y ∈ l → a ≤ y) → head l = Some a.
Proof.
  intros Hs Ha Hmin. destruct Hs as [|y l Hl Hy]; [set_solver|]. simpl. f_equal.
  apply elem_of_cons in Ha as [->|Ha]; [done|].
  rewrite Forall_forall in Hy. specialize (Hy _ Ha).
  specialize (Hmin y ltac:(set_solver)). lia.
Qed.

Lemma StronglySorted_last_max l a :
  StronglySorted Z.lt l → a ∈ l → (∀ y, y ∈ l → y ≤ a) → last l = Some a.
Proof.
  induction 1 as [|y l Hl IH Hy]; [set_solver|]. intros Ha Hmax.
  destruct l as [|z l]; [set_solver|]. rewrite last_cons_cons. apply IH.
  - apply elem_of_cons in Ha as [->|Ha]; [|done].
    inversion Hy; subst. specialize (Hmax z ltac:(set_solver)). lia.
  - intros w Hw. apply Hmax. set_solver.
Qed.

Lemma sorted_lt_bounds l a b x :
  StronglySorted Z.lt l → head l = Some a → last l = Some b → x ∈ l → a ≤ x ≤ b.
Proof.
  intros Hs. revert a x. induction Hs as [|y l Hl IH Hy]; [done|]. intros a x [= ->] Hlast Hx.
  rewrite Forall_forall in Hy. destruct l as [|z l].
  { injection Hlast as ->. apply list_elem_of_singleton in Hx as ->. lia. }
  rewrite last_cons_cons in Hlast. pose proof (Hy z ltac:(set_solver)).
  pose proof (IH z z eq_refl Hlast ltac:(set_solver)).
  apply elem_of_cons in Hx as [->|Hx]; [lia|]. specialize (IH z x eq_refl Hlast Hx). lia.
Qed.

Lemma list_filter_fmap {A C} (f : A → C) (P : C → Prop) `{!∀ x, Decision (P x)} (l : list A) :
  filter P (f <$> l) = f <$> filter (λ x, P (f x)) l.
Proof.
  induction l as [|x l IH]; [done|].
  rewrite fmap_cons, !filter_cons. case_decide; rewrite IH; done.
Qed.

Lemma list_filter_all {A} (P : A → Prop) `{!∀ x, Decision (P x)} (l : list A) :
  (∀ x, x ∈ l → P x) → filter P l = l.
Proof.
  induction l as [|x l IH]; [done|]. intros Hl. rewrite filter_cons.
  case_decide as Hx; [rewrite IH by set_solver; done|]. exfalso. apply Hx, Hl. set_solver.
Qed.

Lemma list_filter_none {A} (P : A → Prop) `{!∀ x, Decision (P x)} (l : list A) :
  (∀ x, x ∈ l → ¬ P x) → filter P l = [].
Proof.
  induction l as [|x l IH]; [done|]. intros Hl. rewrite filter_cons.
  case_decide as Hx; [|apply IH; set_solver]. exfalso. apply (Hl x); [set_solver|done].
Qed.

Lemma list_filter_within {A} (P Q : A → Prop) `{!∀ x, Decision (P x), !∀ x, Decision (Q x)} (l : list A) :
  (∀ x, P x → Q x) → filter P (filter Q l) = filter P l.
Proof.
  intros HPQ. induction l as [|x l IH]; [done|]. rewrite !filter_cons. case_decide as HQ.
  - rewrite filter_cons, IH. done.
  - rewrite decide_False by naive_solver. done.
Qed.

Lemma list_filter_ext {A} (P Q : A → Prop) `{!∀ x, Decision (P x), !∀ x, Decision (Q x)} (l : list A) :
  (∀ x, x ∈ l → P x ↔ Q x) → filter P l = filter Q l.
Proof.
  induction l as [|x l IH]; [done|]. intros Hl. rewrite !filter_cons.
  rewrite IH by set_solver. specialize (Hl x ltac:(set_solver)).
  case_decide; case_decide; naive_solver.
Qed.

Lemma StronglySorted_key_fmap {A C} (key : C → Z) (f : A → C) l :
  StronglySorted (key_le key) (f <$> l) → StronglySorted (key_le (key ∘ f)) l.
Proof.
  induction l as [|x l IH]; [constructor|]. rewrite fmap_cons. intros H.
  inversion H as [|?? Hl Hx]; subst. constructor; [by apply IH|]. rewrite Forall_fmap in Hx. exact Hx.
Qed.

Lemma StronglySorted_filter {A} (R : relation A) (P : A → Prop) `{!∀ x, Decision (P x)} l :
  StronglySorted R l → StronglySorted R (filter P l).
Proof.
  induction 1 as [|x l Hl IH Hx]; [constructor|]. rewrite filter_cons. case_decide; [|done].
  constructor; [done|]. rewrite Forall_forall in Hx |- *. intros y [_ Hy]%list_elem_of_filter. auto.
Qed.

Lemma NoDup_fmap_filter {A B} (f : A → B) (P : A → Prop) `{!∀ x, Decision (P x)} l :
  NoDup (f <$> l) → NoDup (f <$> filter P l).
Proof.
  induction l as [|x l IH]; [done|]. rewrite fmap_cons, filter_cons. intros [Hx Hl]%NoDup_cons.
  case_decide; [|auto]. rewrite fmap_cons. apply NoDup_cons. split; [|auto]. intros Hin. apply Hx.
  apply list_elem_of_fmap in Hin as (y & -> & [_ Hy]%list_elem_of_filter). by apply list_elem_of_fmap_2.
Qed.

Lemma sorted_lt_ext l1 l2 :
  StronglySorted Z.lt l1 → StronglySorted Z.lt l2 → (∀ k, k ∈ l1 ↔ k ∈ l2) → l1 = l2.
Proof.
  intros H1 H2 Heq. assert (AntiSymm (=) Z.lt) by (intros x y ? ?; lia).
  apply (StronglySorted_unique Z.lt); [done|done|].
  assert (∀ l, StronglySorted Z.lt l → NoDup l) as Hnd.
  { induction 1 as [|x l Hl IH Hx]; [constructor|]. constructor; [|done]. intros Hin. rewrite Forall_forall in Hx.
    specialize (Hx x Hin). lia. }
  apply NoDup_Permutation; auto.
Qed.
