(* ===== verification/Money.v ===== *)
(** * Money: exact rounding of energy amounts and idle fees

    Models [src/src/modules/billing/money.py] and
    [src/src/modules/billing/idle_fee.py]. Amounts are whole Vietnamese dong,
    energies are exact decimals, instants are microseconds since the epoch. *)

From S2P Require Import Prelude.

(** ** Python values the two functions inspect with [isinstance] *)

(** A finite [Decimal] is [coef * 10 ^ exp]. *)
Record Decimal := mkDecimal { coef : Z; exp : Z }.

Inductive PyNum :=
  | PyInt (n : Z)
  | PyDecimal (d : Decimal)
  | PyNonFinite            (** [Decimal('NaN')], [Decimal('Infinity')] *)
  | PyBool (b : bool)
  | PyFloat.

(** A [datetime] with [utcoffset()] is an instant; without, it is naive. *)
Inductive PyDatetime :=
  | Aware (utc_us : Z)
  | Naive.

Inductive PyErr := TypeError | ValueError.

(** [Decimal.as_integer_ratio]: the value as a fraction in lowest terms. *)
Definition as_integer_ratio (d : Decimal) : Z * Z :=
  if 0 <=? exp d then (coef d * 10 ^ exp d, 1)
  else let den := 10 ^ (- exp d) in
       let g := Z.gcd (coef d) den in (coef d / g, den / g).

(** ** [tien_dong] *)

(** [divmod(abs(n), d)] followed by the half-up carry and the sign. *)
Definition round_half_up (numerator denominator : Z) : Z :=
  let whole := Z.abs numerator / denominator in
  let remainder := Z.abs numerator mod denominator in
  let amount := whole + (if denominator <=? 2 * remainder then 1 else 0) in
  if numerator <? 0 then - amount else amount.

Definition tien_dong (energy_wh price_vnd_per_kwh : PyNum) : PyErr + Z :=
  let with_price (numerator denominator : Z) :=
    match price_vnd_per_kwh with
    | PyInt price => inr (round_half_up (numerator * price) (denominator * 1000))
    | _ => inl TypeError
    end in
  match energy_wh with
  | PyBool _ | PyFloat => inl TypeError
  | PyInt n => with_price n 1
  | PyNonFinite =>
      match price_vnd_per_kwh with PyInt _ => inl ValueError | _ => inl TypeError end
  | PyDecimal d => let '(n, m) := as_integer_ratio d in with_price n m
  end.

(** ** [tinh_phi_chiem_tru] *)

Definition minute_us : Z := 60000000.

Definition nonnegative_int (v : PyNum) : PyErr + Z :=
  match v with
  | PyInt n => if n <? 0 then inl ValueError else inr n
  | _ => inl TypeError
  end.

Definition tinh_phi_chiem_tru (idle_since : option PyDatetime) (session_end : PyDatetime)
    (grace_minutes idle_rate_vnd_per_minute : PyNum) : PyErr + (Z * Z) :=
  match nonnegative_int grace_minutes, nonnegative_int idle_rate_vnd_per_minute with
  | inl e, _ => inl e
  | _, inl e => inl e
  | inr grace, inr rate =>
      match session_end, idle_since with
      | Naive, _ => inl ValueError
      | Aware _, None => inr (0, 0)
      | Aware _, Some Naive => inl ValueError
      | Aware e, Some (Aware i) =>
          let elapsed := e - i in
          if elapsed <? 0 then inl ValueError
          else
            let excess_us := elapsed - grace * minute_us in
            let billable_minutes := Z.max 0 ((excess_us + minute_us - 1) / minute_us) in
            inr (billable_minutes, billable_minutes * rate)
      end
  end.

(** ** Rounding *)

Lemma round_half_up_scale k n d :
  0 < k → 0 < d → round_half_up (k * n) (k * d) = round_half_up n d.
Proof.
  intros Hk Hd. unfold round_half_up.
  rewrite Z.abs_mul, (Z.abs_eq k) by lia.
  rewrite Z.div_mul_cancel_l, Z.mul_mod_distr_l by lia.
  replace (k * d <=? 2 * (k * (Z.abs n mod d))) with (d <=? 2 * (Z.abs n mod d)).
  2: { apply eq_true_iff_eq. rewrite !Z.leb_le. nia. }
  replace (k * n <? 0) with (n <? 0).
  2: { apply eq_true_iff_eq. rewrite !Z.ltb_lt. nia. }
  done.
Qed.

(** The rounded value is the nearest integer, ties going away from zero. *)
Lemma round_half_up_nearest n d :
  0 < d →
  let a := round_half_up n d in
  d * (2 * Z.abs a - 1) ≤ 2 * Z.abs n < d * (2 * Z.abs a + 1) ∧
  (0 ≤ n → 0 ≤ a) ∧ (n ≤ 0 → a ≤ 0).
Proof.
  intros Hd. unfold round_half_up. simpl.
  pose proof (Z.div_mod (Z.abs n) d ltac:(lia)) as Hdm.
  pose proof (Z.mod_pos_bound (Z.abs n) d Hd) as Hm.
  assert (0 ≤ Z.abs n / d) by (apply Z.div_pos; lia).
  set (q := Z.abs n / d) in *. set (r := Z.abs n mod d) in *.
  assert (n = 0 → q = 0 ∧ r = 0) as Hz by (intros ->; split; nia).
  destruct (Z.leb_spec d (2 * r)), (Z.ltb_spec n 0);
    (split; [|split; intros]); try lia; rewrite ?Z.abs_opp, ?Z.abs_eq by lia; nia.
Qed.

Lemma round_half_up_unique n d a :
  0 < d →
  d * (2 * Z.abs a - 1) ≤ 2 * Z.abs n < d * (2 * Z.abs a + 1) →
  (0 ≤ n → 0 ≤ a) → (n ≤ 0 → a ≤ 0) → a = round_half_up n d.
Proof.
  intros Hd Ha Hp Hn.
  destruct (round_half_up_nearest n d Hd) as (Hb & Hp' & Hn').
  assert (Z.abs a = Z.abs (round_half_up n d)) by nia. lia.
Qed.

Lemma round_half_up_nonneg n d : 0 < d → 0 ≤ n → 0 ≤ round_half_up n d.
Proof. intros Hd Hn. destruct (round_half_up_nearest n d Hd) as (_ & H & _). auto. Qed.

Lemma round_half_up_mono n m d :
  0 < d → n ≤ m → round_half_up n d ≤ round_half_up m d.
Proof.
  intros Hd Hnm.
  destruct (round_half_up_nearest n d Hd) as (Hb & Hp & Hn).
  destruct (round_half_up_nearest m d Hd) as (Hb' & Hp' & Hn').
  nia.
Qed.

#[export] Hint Resolve round_half_up_nonneg : csms.

Lemma as_integer_ratio_spec d :
  let '(n, m) := as_integer_ratio d in
  0 < m ∧ n * 10 ^ Z.max 0 (- exp d) = m * (coef d * 10 ^ Z.max 0 (exp d)).
Proof.
  unfold as_integer_ratio. destruct (Z.leb_spec 0 (exp d)).
  - rewrite (Z.max_l 0 (- exp d)), (Z.max_r 0 (exp d)) by lia. lia.
  - rewrite (Z.max_r 0 (- exp d)), (Z.max_l 0 (exp d)) by lia.
    set (den := 10 ^ (- exp d)). assert (0 < den) by (apply Z.pow_pos_nonneg; lia).
    destruct (Z.gcd_divide_l (coef d) den) as [x Hx].
    destruct (Z.gcd_divide_r (coef d) den) as [y Hy].
    pose proof (Z.gcd_nonneg (coef d) den). set (g := Z.gcd (coef d) den) in *.
    assert (0 < g) by (destruct (decide (g = 0)) as [E|]; [rewrite E in Hy|]; lia).
    assert (coef d / g = x) as -> by (rewrite Hx; apply Z.div_mul; lia).
    assert (den / g = y) as -> by (rewrite Hy; apply Z.div_mul; lia).
    rewrite Z.pow_0_r. nia.
Qed.

Lemma tien_dong_decimal d price :
  tien_dong (PyDecimal d) (PyInt price) =
  inr (round_half_up (coef d * 10 ^ Z.max 0 (exp d) * price)
                     (1000 * 10 ^ Z.max 0 (- exp d))).
Proof.
  unfold tien_dong. pose proof (as_integer_ratio_spec d) as H.
  destruct (as_integer_ratio d) as [n m]. destruct H as [Hm H]. f_equal.
  set (p := 10 ^ Z.max 0 (- exp d)) in *.
  assert (0 < p) by (apply Z.pow_pos_nonneg; lia).
  rewrite <- (round_half_up_scale p) by lia.
  rewrite <- (round_half_up_scale m (coef d * _ * _)) by lia.
  f_equal; [|ring]. transitivity (n * p * price); [ring|]. rewrite H. ring.
Qed.

(** [tien_dong] on a finite decimal energy and an integer price never
    raises, and its result is the whole number of dong nearest to
    [energy * price / 1000], an exact half going away from zero: the distance
    bound holds for the exact rational amount, whatever the size and scale of
    the decimal, and the sign is that of the product. *)
Theorem tien_dong_half_up d price :
  ∃ a, tien_dong (PyDecimal d) (PyInt price) = inr a ∧
    let N := coef d * 10 ^ Z.max 0 (exp d) * price in
    let D := 1000 * 10 ^ Z.max 0 (- exp d) in
    D * (2 * Z.abs a - 1) ≤ 2 * Z.abs N < D * (2 * Z.abs a + 1) ∧
    (0 ≤ N → 0 ≤ a) ∧ (N ≤ 0 → a ≤ 0).
Proof.
  eexists. split; [apply tien_dong_decimal|]. apply round_half_up_nearest.
  pose proof (Z.pow_pos_nonneg 10 (Z.max 0 (- exp d))). lia.
Qed.

Example tien_dong_ex1 : tien_dong (PyDecimal (mkDecimal 1234567 (-3))) (PyInt 3858) = inr 4763.
Proof. vm_compute. reflexivity. Qed.
Example tien_dong_ex2 : tien_dong (PyInt 500) (PyInt 1) = inr 1.
Proof. vm_compute. reflexivity. Qed.
Example tien_dong_ex3 : tien_dong (PyBool true) (PyInt 1) = inl TypeError.
Proof. reflexivity. Qed.

(** ** Idle fee *)

Lemma billable_minutes_spec excess :
  let m := Z.max 0 ((excess + minute_us - 1) / minute_us) in
  0 ≤ m ∧ (m = 0 ↔ excess ≤ 0) ∧ (0 < m → minute_us * (m - 1) < excess ≤ minute_us * m).
Proof.
  pose proof (ceil_div_spec excess minute_us ltac:(done)) as H.
  unfold ceil_div in H. unfold minute_us in *. simpl. lia.
Qed.

(** The idle fee charges every started minute after the grace period and
    no other: with an aware end not before the idle start and nonnegative
    integer settings the call returns [m] minutes at the rate, [m] is zero
    exactly when the occupation fits in the grace, and otherwise [m] is the
    number of minutes started after it; in every other case the call raises,
    and only a missing idle start makes it return a zero fee unconditionally. *)
Theorem tinh_phi_chiem_tru_spec idle_since session_end grace rate :
  match tinh_phi_chiem_tru idle_since session_end grace rate with
  | inr (m, fee) =>
      ∃ g r e, grace = PyInt g ∧ 0 ≤ g ∧ rate = PyInt r ∧ 0 ≤ r ∧
        session_end = Aware e ∧ fee = m * r ∧ 0 ≤ m ∧
        match idle_since with
        | None => m = 0
        | Some Naive => False
        | Some (Aware i) =>
            i ≤ e ∧ (m = 0 ↔ e - i ≤ g * minute_us) ∧
            (0 < m → (g + m - 1) * minute_us < e - i ≤ (g + m) * minute_us)
        end
  | inl err =>
      nonnegative_int grace = inl err ∨ nonnegative_int rate = inl err ∨
      (err = ValueError ∧
        (session_end = Naive ∨ idle_since = Some Naive ∨
         ∃ i e, idle_since = Some (Aware i) ∧ session_end = Aware e ∧ e < i))
  end.
Proof.
  unfold tinh_phi_chiem_tru.
  destruct (nonnegative_int grace) as [e1|g] eqn:Hg; [naive_solver|].
  destruct (nonnegative_int rate) as [e2|r] eqn:Hr; [naive_solver|].
  assert (grace = PyInt g ∧ 0 ≤ g) as [-> ?].
  { destruct grace as [n| | | |]; simpl in Hg; try done.
    destruct (Z.ltb_spec n 0); naive_solver. }
  assert (rate = PyInt r ∧ 0 ≤ r) as [-> ?].
  { destruct rate as [n| | | |]; simpl in Hr; try done.
    destruct (Z.ltb_spec n 0); naive_solver. }
  destruct session_end as [e|]; [|naive_solver].
  destruct idle_since as [[i|]|]; [|naive_solver|].
  - destruct (Z.ltb_spec (e - i) 0); [right; right; split; [done|]|].
    { right; right. exists i, e. repeat split; lia. }
    pose proof (billable_minutes_spec (e - i - g * minute_us)) as (Hm0 & Hm1 & Hm2).
    exists g, r, e. repeat split; try done; lia.
  - exists g, r, e. repeat split; lia.
Qed.

Example idle_ex1 :
  tinh_phi_chiem_tru (Some (Aware 0)) (Aware (15 * minute_us + 1)) (PyInt 10) (PyInt 500)
  = inr (6, 3000).
Proof. vm_compute. reflexivity. Qed.
