(* ===== verification/Bands.v ===== *)
(** * Bands: daily schedules of a station

    Models the two validators of daily bands, [kiem_khung_gio] in
    [src/src/modules/pricing/bands.py] (energy prices) and
    [kiem_khung_gio_cong_suat] in [src/src/modules/stations/power_bands.py]
    (power limits). The code has the same body twice; here it is written once
    over the class [Band] and instantiated at the two band types. *)

From S2P Require Import Prelude.

(** ** Data *)

(** A validation issue; [code] and [message] are the strings of the source. *)
Record BandIssue := mkIssue {
  code : string;
  message : string;
  input_indices : list Z;
  issue_start : option Z;
  issue_end : option Z;
}.

(** What a validator needs of its band type: the two minutes, the rebuilt band
    of an overnight split, and the issues of the remaining fields. *)
Class Band (B : Type) := {
  start_min : B → Z;
  end_min : B → Z;
  with_minutes : B → Z → Z → B;
  field_issues : B → list (string * string);
  with_minutes_start : ∀ b s e, start_min (with_minutes b s e) = s;
  with_minutes_end : ∀ b s e, end_min (with_minutes b s e) = e;
  with_minutes_id : ∀ b, with_minutes b (start_min b) (end_min b) = b;
  with_minutes_again : ∀ b s e s' e',
    with_minutes (with_minutes b s e) s' e' = with_minutes b s' e';
  field_issues_minutes : ∀ b s e, field_issues (with_minutes b s e) = field_issues b;
}.

(** [f"{minute // 60:02d}:{minute % 60:02d}"] *)
Definition digit (n : Z) : string :=
  String (Ascii.ascii_of_nat (48 + Z.to_nat n)) EmptyString.
Definition two_digits (n : Z) : string := (digit (n / 10) +:+ digit (n mod 10))%string.
Definition _clock (minute : Z) : string :=
  (two_digits (minute / 60) +:+ ":" +:+ two_digits (minute mod 60))%string.

(** ** The validator *)

Section validator.
Context {B : Type} `{Band B}.

Definition time_ok (b : B) : bool :=
  (0 <=? start_min b) && (start_min b <? 1440) &&
  (0 <=? end_min b) && (end_min b <=? 1440) &&
  negb (start_min b =? end_min b).

(** The issues of one input row, in the order the source appends them. *)
Definition row_issues (index : Z) (b : B) : list BandIssue :=
  (if time_ok b then []
   else [mkIssue "invalid_time" "Mốc giờ không hợp lệ" [index] None None]) ++
  ((λ '(c, m), mkIssue c m [index] None None) <$> field_issues b).

(** One interval, or the two halves of an overnight band. *)
Definition split_overnight (b : B) : list B :=
  if start_min b <? end_min b then [b]
  else with_minutes b (start_min b) 1440 ::
       (if 0 <? end_min b then [with_minutes b 0 (end_min b)] else []).

(** The first loop: issues and normalized rows with their input index. *)
Fixpoint scan_rows (index : Z) (bands : list B) : list BandIssue * list (B * Z) :=
  match bands with
  | [] => ([], [])
  | b :: bands' =>
      let '(issues, normalized) := scan_rows (index + 1) bands' in
      match row_issues index b with
      | [] => (issues, ((λ p, (p, index)) <$> split_overnight b) ++ normalized)
      | found => (found ++ issues, normalized)
      end
  end.

Definition covers (b : B) (m : Z) : bool := (start_min b <=? m) && (m <? end_min b).

Definition owners_at (normalized : list (B * Z)) (m : Z) : list Z :=
  sort_by id (snd <$> filter (λ r, covers r.1 m = true) normalized).

(** One step of the second loop; the accumulator holds the issues, last first. *)
Definition check_gap (normalized : list (B * Z)) (issues : list BandIssue)
    (gap : Z * Z) : list BandIssue :=
  let '(start, stop) := gap in
  let owners := owners_at normalized start in
  if decide (length owners = 1%nat) then issues
  else
    let c := if decide (owners = []) then "gap" else "overlap" in
    let title := if decide (owners = []) then "Khoảng hở" else "Khoảng chồng" in
    let '(start', kept) :=
      match issues with
      | last_issue :: rest =>
          if decide (code last_issue = c ∧ input_indices last_issue = owners ∧
                     issue_end last_issue = Some start)
          then (default 0 (issue_start last_issue), rest)
          else (start, issues)
      | [] => (start, [])
      end in
    mkIssue c (title +:+ " " +:+ _clock start' +:+ "–" +:+ _clock stop)%string
      owners (Some start') (Some stop) :: kept.

Definition boundaries (normalized : list (B * Z)) : list Z :=
  sorted_set (0 :: 1440 :: (normalized ≫= λ '(b, _), [start_min b; end_min b])).

Definition gap_issues (normalized : list (B * Z)) : list BandIssue :=
  foldl (check_gap normalized) [] (pairwise (boundaries normalized)).

Definition check_bands (bands : list B) : list BandIssue + list B :=
  match scan_rows 0 bands with
  | ([], normalized) =>
      match gap_issues normalized with
      | [] => inr (fst <$> sort_by (λ r, start_min r.1) normalized)
      | issues => inl (reverse issues)
      end
  | (issues, _) => inl issues
  end.
End validator.

(** ** Instances: tariff bands and power bands *)

Record BandInput := mkBandInput {
  band_start_min : Z;
  band_end_min : Z;
  energy_rate_vnd_per_kwh : Z;
  label : string;
}.

Definition tariff_field_issues (b : BandInput) : list (string * string) :=
  (if (0 <=? energy_rate_vnd_per_kwh b) && (energy_rate_vnd_per_kwh b <=? 2 ^ 63 - 1)
   then [] else [("invalid_rate", "Đơn giá phải là đồng nguyên không âm")]) ++
  (if (Z.of_nat (String.length (label b)) <=? 100)
   then [] else [("invalid_label", "Nhãn tối đa 100 ký tự")]).

#[export] Instance tariff_band : Band BandInput.
Proof.
  refine {| start_min := band_start_min; end_min := band_end_min;
    with_minutes := λ b s e, mkBandInput s e (energy_rate_vnd_per_kwh b) (label b);
    field_issues := tariff_field_issues |}; by intros [].
Defined.

Definition kiem_khung_gio (bands : list BandInput) : list BandIssue + list BandInput :=
  check_bands bands.

Record PowerBandInput := mkPowerBandInput {
  power_start_min : Z;
  power_end_min : Z;
  power_limit_w : Z;
}.

Definition power_field_issues (b : PowerBandInput) : list (string * string) :=
  if (0 <? power_limit_w b) && (power_limit_w b <=? 2 ^ 63 - 1)
  then [] else [("invalid_power_limit", "Hạn mức công suất phải là số nguyên dương (Watt > 0)")].

#[export] Instance power_band : Band PowerBandInput.
Proof.
  refine {| start_min := power_start_min; end_min := power_end_min;
    with_minutes := λ b s e, mkPowerBandInput s e (power_limit_w b);
    field_issues := power_field_issues |}; by intros [].
Defined.

Definition kiem_khung_gio_cong_suat (bands : list PowerBandInput)
  : list BandIssue + list PowerBandInput := check_bands bands.

Example khung_gio_ex1 :
  kiem_khung_gio [mkBandInput 1320 360 1000 "dem"; mkBandInput 360 1320 3000 "ngay"] =
  inr [mkBandInput 0 360 1000 "dem"; mkBandInput 360 1320 3000 "ngay";
       mkBandInput 1320 1440 1000 "dem"].
Proof. vm_compute. reflexivity. Qed.

Example khung_gio_ex2 :
  kiem_khung_gio [mkBandInput 0 600 1000 ""; mkBandInput 540 1200 3000 ""] =
  inl [mkIssue "overlap" "Khoảng chồng 09:00–10:00" [0; 1] (Some 540) (Some 600);
       mkIssue "gap" "Khoảng hở 20:00–24:00" [] (Some 1200) (Some 1440)].
Proof. vm_compute. reflexivity. Qed.

(** ** What an accepted schedule means *)

Section spec.
Context {B : Type} `{Band B}.
Implicit Types (b p : B) (bands : list B) (norm : list (B * Z)).

Definition row_valid b : Prop := time_ok b = true ∧ field_issues b = [].

(** The minutes of the day a band applies to, an overnight band wrapping. *)
Definition in_band (m : Z) b : bool :=
  if start_min b <? end_min b then covers b m
  else (start_min b <=? m) || (m <? end_min b).

(** The number of input bands that claim minute [m]. *)
Definition claims bands (m : Z) : nat := length (filter (λ b, in_band m b = true) bands).

(** A schedule that tiles [[s, e)] without hole or overlap, in order. *)
Fixpoint tiles (s e : Z) (l : list B) : Prop :=
  match l with
  | [] => s = e
  | b :: l' => start_min b = s ∧ s < end_min b ∧ tiles (end_min b) e l'
  end.

Fixpoint pieces (index : Z) bands : list (B * Z) :=
  match bands with
  | [] => []
  | b :: bands' => ((λ p, (p, index)) <$> split_overnight b) ++ pieces (index + 1) bands'
  end.

Definition piece_ok (r : B * Z) : Prop :=
  0 ≤ start_min r.1 ∧ start_min r.1 < end_min r.1 ∧ end_min r.1 ≤ 1440.

Lemma time_ok_spec b :
  time_ok b = true ↔ 0 ≤ start_min b < 1440 ∧ 0 ≤ end_min b ≤ 1440 ∧ start_min b ≠ end_min b.
Proof. unfold time_ok. lia. Qed.

Lemma covers_spec b m : covers b m = true ↔ start_min b ≤ m < end_min b.
Proof. unfold covers. lia. Qed.

Lemma row_issues_nil index b : row_issues index b = [] ↔ row_valid b.
Proof.
  unfold row_issues, row_valid. destruct (time_ok b); simpl.
  - destruct (field_issues b); naive_solver.
  - naive_solver.
Qed.

Lemma scan_rows_spec index bands :
  match scan_rows index bands with
  | ([], norm) => Forall row_valid bands ∧ norm = pieces index bands
  | (_ :: _, _) => ¬ Forall row_valid bands
  end.
Proof.
  revert index. induction bands as [|b bands IH]; intros index; simpl; [done|].
  specialize (IH (index + 1)). destruct (scan_rows (index + 1) bands) as [issues norm].
  destruct (row_issues index b) as [|i found] eqn:Hi; simpl.
  - apply row_issues_nil in Hi. destruct issues; rewrite Forall_cons; naive_solver.
  - rewrite Forall_cons, <- (row_issues_nil index), Hi. naive_solver.
Qed.

Lemma split_overnight_ok b p :
  time_ok b = true → p ∈ split_overnight b →
  0 ≤ start_min p ∧ start_min p < end_min p ∧ end_min p ≤ 1440 ∧
  p = with_minutes b (start_min p) (end_min p).
Proof.
  rewrite time_ok_spec. unfold split_overnight. intros Hb.
  destruct (Z.ltb_spec (start_min b) (end_min b)); [|destruct (Z.ltb_spec 0 (end_min b))];
    rewrite ?elem_of_cons, elem_of_nil; intros Hp; destruct_or!; subst; try done;
    rewrite ?with_minutes_start, ?with_minutes_end, ?with_minutes_id; repeat split; lia.
Qed.

Lemma split_overnight_count b m :
  time_ok b = true → 0 ≤ m < 1440 →
  length (filter (λ p, covers p m = true) (split_overnight b)) = (if in_band m b then 1 else 0)%nat.
Proof.
  rewrite time_ok_spec. unfold split_overnight, in_band. intros Hb Hm.
  destruct (Z.ltb_spec (start_min b) (end_min b)); [|destruct (Z.ltb_spec 0 (end_min b))];
    rewrite ?filter_cons, ?filter_nil; repeat case_decide;
    repeat match goal with H : context [covers (with_minutes _ _ _) _] |- _ =>
      unfold covers in H; rewrite ?with_minutes_start, ?with_minutes_end in H end;
    case_match; simpl; lia || congruence.
Qed.

Lemma pieces_ok index bands : Forall row_valid bands → Forall piece_ok (pieces index bands).
Proof.
  intros Hv. revert index. induction Hv as [|b bands [Hb _] Hv IH]; intros index; simpl; [done|].
  apply Forall_app. split; [|done]. rewrite Forall_fmap, Forall_forall. intros p Hp.
  apply split_overnight_ok in Hp as (? & ? & ? & _); done.
Qed.

Lemma elem_of_pieces index bands p i :
  (p, i) ∈ pieces index bands → ∃ b, b ∈ bands ∧ p ∈ split_overnight b.
Proof.
  revert index. induction bands as [|b bands IH]; intros index; simpl; [set_solver|].
  rewrite elem_of_app, list_elem_of_fmap. intros [(q & [= -> ->] & Hq)|Hp%IH]; set_solver.
Qed.

(** The pieces that cover a minute are as many as the bands that claim it. *)
Lemma pieces_count index bands m :
  Forall row_valid bands → 0 ≤ m < 1440 →
  length (owners_at (pieces index bands) m) = claims bands m.
Proof.
  intros Hv Hm. unfold owners_at, claims. rewrite sort_by_perm, length_fmap. revert index.
  induction Hv as [|b bands [Hb _] Hv IH]; intros index; simpl; [done|].
  rewrite filter_app, length_app, IH, filter_cons.
  assert (length (filter (λ r : B * Z, covers r.1 m = true) ((λ p, (p, index)) <$> split_overnight b))
    = length (filter (λ p, covers p m = true) (split_overnight b))) as ->.
  { by rewrite list_filter_fmap, length_fmap. }
  rewrite split_overnight_count by done. case_match; case_decide; simpl; congruence || done.
Qed.

(** *** The boundary scan *)

Lemma boundaries_range norm x :
  Forall piece_ok norm → x ∈ boundaries norm → 0 ≤ x ≤ 1440.
Proof.
  rewrite Forall_forall. unfold boundaries. rewrite elem_of_sorted_set.
  intros Hok. rewrite !elem_of_cons, list_elem_of_bind. intros [->|[->|([b i] & Hx & Hb)]]; try lia.
  specialize (Hok _ Hb). unfold piece_ok in Hok. simpl in Hok. set_unfold. lia.
Qed.

Lemma boundaries_head norm : Forall piece_ok norm → head (boundaries norm) = Some 0.
Proof.
  intros Hok. apply StronglySorted_head_min; [apply sorted_set_strict| |].
  - unfold boundaries. rewrite elem_of_sorted_set. set_solver.
  - intros y Hy%boundaries_range; [lia|done].
Qed.

Lemma boundaries_last norm : Forall piece_ok norm → last (boundaries norm) = Some 1440.
Proof.
  intros Hok. apply StronglySorted_last_max; [apply sorted_set_strict| |].
  - unfold boundaries. rewrite elem_of_sorted_set. set_solver.
  - intros y Hy%boundaries_range; [lia|done].
Qed.

(** Between two neighbouring boundaries the owners do not change. *)
Lemma owners_constant norm x y m :
  (x, y) ∈ pairwise (boundaries norm) → x ≤ m < y → owners_at norm m = owners_at norm x.
Proof.
  intros Hxy Hm. unfold owners_at. do 2 f_equal. apply list_filter_ext. intros [b i] Hb.
  simpl. rewrite !covers_spec.
  assert (∀ z, z ∈ [start_min b; end_min b] → z ≤ x ∨ y ≤ z) as Hadj.
  { intros z Hz. eapply pairwise_adjacent; [apply sorted_set_strict|exact Hxy|].
    unfold boundaries. rewrite elem_of_sorted_set, !elem_of_cons, list_elem_of_bind.
    right; right. by exists (b, i). }
  pose proof (Hadj (start_min b) ltac:(set_solver)).
  pose proof (Hadj (end_min b) ltac:(set_solver)). lia.
Qed.

(** An issue reports a run of minutes and the rows that own each of them. *)
Definition issue_exact norm (i : BandIssue) : Prop :=
  ∃ s e, issue_start i = Some s ∧ issue_end i = Some e ∧ 0 ≤ s < e ∧ e ≤ 1440 ∧
    length (input_indices i) ≠ 1%nat ∧
    code i = (if decide (input_indices i = []) then "gap" else "overlap")%string ∧
    ∀ m, s ≤ m < e → owners_at norm m = input_indices i.

Definition reports (m : Z) (i : BandIssue) : Prop :=
  ∃ s e, issue_start i = Some s ∧ issue_end i = Some e ∧ s ≤ m < e.

(** The issues found so far describe exactly the minutes before [c]. *)
Definition scan_inv norm (issues : list BandIssue) (c : Z) : Prop :=
  Forall (issue_exact norm) issues ∧
  (∀ m, 0 ≤ m < c → length (owners_at norm m) ≠ 1%nat → ∃ i, i ∈ issues ∧ reports m i).

Lemma check_gap_inv norm issues x y :
  0 ≤ x < y → y ≤ 1440 → (∀ m, x ≤ m < y → owners_at norm m = owners_at norm x) →
  scan_inv norm issues x → scan_inv norm (check_gap norm issues (x, y)) y.
Proof.
  intros Hxy Hy Hconst [Hex Hall]. unfold check_gap. case_decide as Hone.
  { split; [done|]. intros m Hm Hne. destruct (decide (m < x)); [apply Hall; [lia|done]|].
    rewrite Hconst in Hne by lia. done. }
  set (owners := owners_at norm x) in *.
  assert (∀ c t kept s, 0 ≤ s < y → Forall (issue_exact norm) kept →
    c = (if decide (owners = []) then "gap" else "overlap")%string →
    (∀ m, s ≤ m < y → owners_at norm m = owners) →
    (∀ m, 0 ≤ m < s → length (owners_at norm m) ≠ 1%nat → ∃ i, i ∈ kept ∧ reports m i) →
    scan_inv norm (mkIssue c t owners (Some s) (Some y) :: kept) y) as Hpush.
  { intros c t kept s Hs Hkept Hc Hown Hrep. split.
    - constructor; [|done]. by exists s, y.
    - intros m Hm Hne. destruct (decide (m < s)) as [Hlt|Hge].
      + destruct (Hrep m) as (i & Hi & Hri); [lia|done|]. exists i. split; [by right|done].
      + eexists. split; [by left|]. exists s, y. simpl. repeat split; lia. }
  destruct issues as [|i0 rest]; [by apply Hpush|].
  match goal with |- context [decide (?a ∧ ?b)] =>
    destruct (decide (a ∧ b)) as [Hmerge|]; [|by apply Hpush] end.
  destruct Hmerge as (Hcode & Hind & Hend).
  inversion Hex as [|?? (s & e & Hs & He & Hse & Hle & Hlen & Hc & Hown) Hrest]; subst.
  rewrite Hs. simpl. assert (e = x) as -> by congruence. apply Hpush; [lia|done|done| |].
  - intros m Hm. destruct (decide (m < x)); [rewrite Hown; [done|lia]|apply Hconst; lia].
  - intros m Hm Hne. destruct (Hall m) as (i & Hi & Hri); [lia|done|].
    apply elem_of_cons in Hi as [->|Hi]; [|by exists i].
    destruct Hri as (s' & e' & Hs' & _ & Hm'). rewrite Hs in Hs'. simplify_eq. lia.
Qed.

Lemma gap_scan_inv norm l issues c d :
  StronglySorted Z.lt l → head l = Some c → last l = Some d → 0 ≤ c → Forall (λ x, x ≤ 1440) l →
  (∀ x y, (x, y) ∈ pairwise l → ∀ m, x ≤ m < y → owners_at norm m = owners_at norm x) →
  scan_inv norm issues c → scan_inv norm (foldl (check_gap norm) issues (pairwise l)) d.
Proof.
  intros Hs. revert c issues. induction Hs as [|a l Hl IH Ha]; [done|].
  intros c issues [= ->] Hlast Hc Hle Hconst Hinv. destruct l as [|b l]; simpl in *.
  { by injection Hlast as ->. }
  inversion Ha as [|?? Hab _]; subst. apply Forall_cons in Hle as [_ Hle].
  assert (b ≤ 1440) by by inversion Hle.
  apply (IH b); [done|done|lia|done| |].
  - intros x y Hxy. apply Hconst. by right.
  - apply check_gap_inv; [lia|done| |done]. apply Hconst. by left.
Qed.

Lemma gap_issues_inv norm : Forall piece_ok norm → scan_inv norm (gap_issues norm) 1440.
Proof.
  intros Hok. eapply gap_scan_inv.
  - apply sorted_set_strict.
  - by apply boundaries_head.
  - by apply boundaries_last.
  - lia.
  - apply Forall_forall. intros x Hx%boundaries_range; [lia|done].
  - intros x y Hxy m. by apply owners_constant.
  - split; [done|]. intros m Hm. lia.
Qed.

Lemma gap_issues_nil norm :
  Forall piece_ok norm →
  gap_issues norm = [] ↔ ∀ m, 0 ≤ m < 1440 → length (owners_at norm m) = 1%nat.
Proof.
  intros Hok. destruct (gap_issues_inv norm Hok) as [Hex Hall]. split.
  - intros Hnil m Hm. destruct (decide (length (owners_at norm m) = 1%nat)) as [|Hne]; [done|].
    destruct (Hall m Hm Hne) as (i & Hi & _). rewrite Hnil in Hi. set_solver.
  - intros Hone. destruct (gap_issues norm) as [|i issues]; [done|].
    inversion Hex as [|?? (s & e & _ & _ & Hse & Hle & Hlen & _ & Hown) _]; subst.
    rewrite <- (Hown s) in Hlen by lia. by rewrite Hone in Hlen by lia.
Qed.

(** *** From one owner per minute to a tiling *)

Definition start_key (r : B * Z) : Z := start_min r.1.

Definition cover_count norm (m : Z) : nat := length (filter (λ r, covers r.1 m = true) norm).

Lemma owners_count norm m : length (owners_at norm m) = cover_count norm m.
Proof. unfold owners_at, cover_count. by rewrite sort_by_perm, length_fmap. Qed.

Lemma cover_count_pos norm r m : r ∈ norm → covers r.1 m = true → (1 ≤ cover_count norm m)%nat.
Proof.
  intros Hr Hc. unfold cover_count.
  assert (r ∈ filter (λ r, covers r.1 m = true) norm) as Hin by by apply list_elem_of_filter.
  destruct (filter _ norm); simpl; [set_solver|lia].
Qed.

Lemma sorted_tiles norm s e :
  StronglySorted (key_le start_key) norm → s ≤ e →
  Forall (λ r, s ≤ start_min r.1 ∧ start_min r.1 < end_min r.1 ∧ end_min r.1 ≤ e) norm →
  (∀ m, s ≤ m < e → cover_count norm m = 1%nat) →
  tiles s e (fst <$> norm).
Proof.
  intros Hs. revert s. induction Hs as [|[b i] norm Hs IH Hb]; simpl; intros s Hse Hok Hone.
  { destruct (decide (s = e)); [done|]. specialize (Hone s ltac:(lia)). done. }
  apply Forall_cons in Hok as [(Hb1 & Hb2 & Hb3) Hok]. simpl in *.
  rewrite Forall_forall in Hb, Hok.
  assert (∀ m, cover_count ((b, i) :: norm) m =
    ((if covers b m then 1 else 0) + cover_count norm m)%nat) as Hcount.
  { intros m. unfold cover_count. rewrite filter_cons. simpl.
    case_decide; case_match; simpl; congruence || done. }
  assert (start_min b = s) as Hbs.
  { destruct (decide (start_min b = s)) as [|Hne]; [done|exfalso].
    specialize (Hone s ltac:(lia)). rewrite Hcount in Hone.
    destruct (covers b s) eqn:E; [apply covers_spec in E; lia|].
    unfold cover_count in Hone. destruct (filter _ norm) as [|r rest] eqn:F; [done|].
    assert (r ∈ filter (λ r, covers r.1 s = true) norm) as Hr by (rewrite F; by left).
    apply list_elem_of_filter in Hr as [Hr1 Hr2]. apply covers_spec in Hr1.
    specialize (Hb _ Hr2). unfold key_le, start_key in Hb. simpl in Hb. lia. }
  split_and!; [done|lia|]. apply IH; [lia| |].
  - apply Forall_forall. intros r Hr. destruct (Hok r Hr) as (H1 & H2 & H3).
    split_and!; [|done|done].
    destruct (decide (end_min b ≤ start_min r.1)) as [|Hlt]; [done|exfalso].
    remember (start_min r.1) as m0 eqn:Hm0. specialize (Hone m0 ltac:(lia)).
    rewrite Hcount in Hone. pose proof (cover_count_pos norm r m0 Hr) as Hpos.
    rewrite covers_spec in Hpos.
    assert (covers b m0 = true) as E by (apply covers_spec; lia).
    rewrite E in Hone. specialize (Hpos ltac:(lia)). lia.
  - intros m Hm. specialize (Hone m ltac:(lia)). rewrite Hcount in Hone.
    destruct (covers b m) eqn:E; [apply covers_spec in E; lia|done].
Qed.

(** *** The validator as a whole *)

Definition exact_cover bands : Prop := ∀ m, 0 ≤ m < 1440 → claims bands m = 1%nat.

Lemma check_bands_cases bands :
  match check_bands bands with
  | inr out =>
      Forall row_valid bands ∧ exact_cover bands ∧
      out = fst <$> sort_by start_key (pieces 0 bands)
  | inl issues => ¬ (Forall row_valid bands ∧ exact_cover bands)
  end.
Proof.
  unfold check_bands. pose proof (scan_rows_spec 0 bands) as Hscan.
  destruct (scan_rows 0 bands) as [[|i issues] norm]; [|naive_solver].
  destruct Hscan as [Hv ->]. pose proof (pieces_ok 0 _ Hv) as Hok.
  assert (gap_issues (pieces 0 bands) = [] ↔ exact_cover bands) as Hgap.
  { rewrite gap_issues_nil by done. unfold exact_cover.
    split; intros Hm m Hr; specialize (Hm m Hr); by rewrite pieces_count in * by done. }
  destruct (gap_issues (pieces 0 bands)) as [|i issues]; [naive_solver|].
  intros [_ Hex]. apply Hgap in Hex. done.
Qed.

Lemma check_bands_ok bands out :
  check_bands bands = inr out →
  Forall row_valid bands ∧ exact_cover bands ∧ out = fst <$> sort_by start_key (pieces 0 bands).
Proof. intros E. pose proof (check_bands_cases bands) as Hc. by rewrite E in Hc. Qed.

Lemma check_bands_accepts_iff bands :
  (∃ out, check_bands bands = inr out) ↔ Forall row_valid bands ∧ exact_cover bands.
Proof. pose proof (check_bands_cases bands) as Hc. case_match; naive_solver. Qed.

Lemma check_bands_tiles bands out : check_bands bands = inr out → tiles 0 1440 out.
Proof.
  intros (Hv & Hex & ->)%check_bands_ok. apply sorted_tiles; [apply sort_by_sorted|lia| |].
  - rewrite sort_by_perm. eapply Forall_impl; [by apply pieces_ok|]. done.
  - intros m Hm. unfold cover_count. rewrite sort_by_perm.
    rewrite <- (Hex m Hm), <- (pieces_count 0) by done. by rewrite owners_count.
Qed.

(** Every output interval is a piece of an input band with the same fields. *)
Lemma check_bands_source bands out p :
  check_bands bands = inr out → p ∈ out →
  ∃ b, b ∈ bands ∧ p = with_minutes b (start_min p) (end_min p) ∧
    ∀ m, start_min p ≤ m < end_min p → in_band m b = true.
Proof.
  intros (Hv & Hex & ->)%check_bands_ok Hp.
  apply list_elem_of_fmap in Hp as ([q i] & -> & Hq). rewrite elem_of_sort_by in Hq.
  apply elem_of_pieces in Hq as (b & Hb & Hq). rewrite Forall_forall in Hv.
  destruct (Hv b Hb) as [Ht _]. exists b. split; [done|].
  destruct (split_overnight_ok b q Ht Hq) as (H1 & H2 & H3 & Heq). split; [done|].
  intros m Hm. simpl in Hm. pose proof (split_overnight_count b m Ht ltac:(lia)) as Hc.
  assert (q ∈ filter (λ p, covers p m = true) (split_overnight b)) as Hin.
  { apply list_elem_of_filter. split; [apply covers_spec; lia|done]. }
  destruct (in_band m b); [done|]. destruct (filter _ (split_overnight b)); [set_solver|done].
Qed.

Lemma tiles_cover s e l m : tiles s e l → s ≤ m < e → ∃ p, p ∈ l ∧ start_min p ≤ m < end_min p.
Proof.
  revert s. induction l as [|b l IH]; simpl; intros s; [lia|].
  intros (Hs & Hlt & Ht) Hm. destruct (decide (m < end_min b)).
  - exists b. split; [by left|lia].
  - destruct (IH _ Ht ltac:(lia)) as (p & Hp & ?). exists p. split; [by right|done].
Qed.

Lemma tiles_bounds s e l p : tiles s e l → p ∈ l → s ≤ start_min p ∧ start_min p < end_min p ∧ end_min p ≤ e.
Proof.
  assert (∀ l s, tiles s e l → s ≤ e) as Hle.
  { clear l s p. induction l as [|b l IH]; simpl; intros s; [lia|].
    intros (? & ? & Ht). apply IH in Ht. lia. }
  revert s. induction l as [|b l IH]; simpl; intros s; [set_solver|].
  intros (Hs & Hlt & Ht) [->|Hp]%elem_of_cons.
  - apply Hle in Ht. lia.
  - specialize (IH _ Ht Hp). lia.
Qed.

Lemma tiles_sorted s e l : tiles s e l → StronglySorted (key_le start_min) l.
Proof.
  revert s. induction l as [|b l IH]; simpl; intros s; [constructor|].
  intros (Hs & Hlt & Ht). constructor; [by eapply IH|]. apply Forall_forall. intros p Hp.
  apply (tiles_bounds _ _ _ _ Ht) in Hp. unfold key_le. lia.
Qed.

(** *** Accepted schedules are fixed points *)

Lemma claims_cons b l m : claims (b :: l) m = ((if in_band m b then 1 else 0) + claims l m)%nat.
Proof.
  unfold claims. rewrite filter_cons. destruct (in_band m b); case_decide; done.
Qed.

Lemma tiles_claims s e l m :
  tiles s e l → claims l m = if decide (s ≤ m < e) then 1%nat else 0%nat.
Proof.
  revert s. induction l as [|b l IH]; simpl; intros s Ht.
  { subst. unfold claims. case_decide; [lia|done]. }
  destruct Ht as (Hs & Hlt & Ht). assert (end_min b ≤ e) as Hle.
  { destruct l as [|c l]; simpl in Ht; [lia|].
    pose proof (tiles_bounds (end_min b) e (c :: l) c Ht ltac:(set_solver)). lia. }
  rewrite claims_cons, (IH _ Ht). unfold in_band, covers.
  destruct (Z.ltb_spec (start_min b) (end_min b)); [|lia].
  repeat case_decide; case_match; lia.
Qed.

Lemma pieces_increasing index l :
  Forall (λ b, start_min b < end_min b) l → fst <$> pieces index l = l.
Proof.
  intros Hl. revert index. induction Hl as [|b l Hb Hl IH]; intros index; simpl; [done|].
  unfold split_overnight. rewrite (proj2 (Z.ltb_lt _ _) Hb). simpl. by rewrite IH.
Qed.

Lemma check_bands_tiled l : tiles 0 1440 l → Forall row_valid l → check_bands l = inr l.
Proof.
  intros Ht Hv. destruct (proj2 (check_bands_accepts_iff l)) as [out Hout].
  { split; [done|]. intros m Hm. rewrite (tiles_claims _ _ _ _ Ht). by case_decide. }
  rewrite Hout. f_equal. apply check_bands_ok in Hout as (_ & _ & ->).
  assert (fst <$> pieces 0 l = l) as Hp.
  { apply pieces_increasing, Forall_forall. intros b Hb. eapply tiles_bounds in Hb; naive_solver. }
  rewrite sort_by_id; [done|]. apply tiles_sorted in Ht. rewrite <- Hp in Ht.
  by apply StronglySorted_key_fmap in Ht.
Qed.

Lemma check_bands_valid bands out : check_bands bands = inr out → Forall row_valid out.
Proof.
  intros E. apply Forall_forall. intros p Hp.
  destruct (check_bands_source _ _ _ E Hp) as (b & Hb & Heq & _).
  apply check_bands_tiles in E as Ht. apply check_bands_ok in E as (Hv & _ & _).
  rewrite Forall_forall in Hv. destruct (Hv b Hb) as [_ Hf]. split.
  - apply time_ok_spec. apply (tiles_bounds _ _ _ _ Ht) in Hp. lia.
  - by rewrite Heq, field_issues_minutes.
Qed.
End spec.

(** ** Properties of the two validators *)

(** The tariff validator accepts a list of bands exactly when every row is
    well formed and every minute of the day is claimed by exactly one band,
    where a band whose start is after its end runs over midnight. *)
Theorem kiem_khung_gio_accepts_iff bands :
  (∃ out, kiem_khung_gio bands = inr out) ↔
  Forall row_valid bands ∧ ∀ m, 0 ≤ m < 1440 → claims bands m = 1%nat.
Proof. apply check_bands_accepts_iff. Qed.

(** An accepted tariff schedule comes out as consecutive intervals that
    tile the day from 00:00 to 24:00, and at every minute the price and the
    label of the interval are those of an input band claiming that minute
   : normalization never reprices a minute. *)
Theorem kiem_khung_gio_partition bands out :
  kiem_khung_gio bands = inr out →
  tiles 0 1440 out ∧
  ∀ m, 0 ≤ m < 1440 → ∃ b p,
    b ∈ bands ∧ in_band m b = true ∧ p ∈ out ∧ covers p m = true ∧
    energy_rate_vnd_per_kwh p = energy_rate_vnd_per_kwh b ∧ label p = label b.
Proof.
  intros E. apply check_bands_tiles in E as Ht. split; [done|]. intros m Hm.
  destruct (tiles_cover _ _ _ _ Ht Hm) as (p & Hp & Hpm).
  destruct (check_bands_source _ _ _ E Hp) as (b & Hb & Heq & Hin).
  exists b, p. rewrite covers_spec. split_and!; auto; try lia; rewrite Heq; reflexivity.
Qed.

Lemma kiem_khung_gio_partition_witness :
  ∃ p, p ∈ [mkBandInput 0 360 1000 "dem"; mkBandInput 360 1320 3000 "ngay";
            mkBandInput 1320 1440 1000 "dem"] ∧ covers p 1439 = true.
Proof.
  destruct (kiem_khung_gio_partition
    [mkBandInput 1320 360 1000 "dem"; mkBandInput 360 1320 3000 "ngay"]
    [mkBandInput 0 360 1000 "dem"; mkBandInput 360 1320 3000 "ngay";
     mkBandInput 1320 1440 1000 "dem"]) as [_ H]; [vm_compute; reflexivity|].
  destruct (H 1439) as (b & p & _ & _ & Hp & Hc & _); [lia|]. exists p. split; assumption.
Defined.

(** Revalidating a stored schedule changes nothing: the bands written by
    tariff creation are accepted again, unchanged, when an invoice reads them,
    so a tariff created through the API never makes an invoice invalid. *)
Theorem kiem_khung_gio_stable bands out :
  kiem_khung_gio bands = inr out → kiem_khung_gio out = inr out.
Proof.
  intros E. apply check_bands_tiled; [by eapply check_bands_tiles|by eapply check_bands_valid].
Qed.

Lemma kiem_khung_gio_stable_witness :
  kiem_khung_gio [mkBandInput 0 360 1000 ""; mkBandInput 360 1440 3000 ""] =
  inr [mkBandInput 0 360 1000 ""; mkBandInput 360 1440 3000 ""].
Proof.
  apply (kiem_khung_gio_stable [mkBandInput 360 0 3000 ""; mkBandInput 0 360 1000 ""]).
  vm_compute. reflexivity.
Defined.

(** When the rows are well formed but the day is not tiled, the reported
    issues are exact: a minute has a number of owners other than one if and
    only if it lies in a reported run, each run lists precisely the input rows
    that own each of its minutes, and it is called a gap when there is none
    and an overlap otherwise. *)
Theorem kiem_khung_gio_issues_exact bands issues :
  Forall row_valid bands → kiem_khung_gio bands = inl issues →
  Forall (issue_exact (pieces 0 bands)) issues ∧
  ∀ m, 0 ≤ m < 1440 → claims bands m ≠ 1%nat ↔ ∃ i, i ∈ issues ∧ reports m i.
Proof.
  intros Hv. unfold kiem_khung_gio, check_bands. pose proof (scan_rows_spec 0 bands) as Hs.
  destruct (scan_rows 0 bands) as [[|i0 is0] norm]; [|done]. destruct Hs as [_ ->].
  destruct (gap_issues_inv _ (pieces_ok 0 _ Hv)) as [Hex Hall].
  destruct (gap_issues (pieces 0 bands)) as [|i0 is0] eqn:E; [done|]. rewrite <- E in *.
  intros [= <-]. split; [by apply Forall_reverse|]. intros m Hm.
  rewrite <- (pieces_count 0) by done. setoid_rewrite elem_of_reverse. split; [by apply Hall|].
  intros (i & Hi & s & e & Hs & He & Hse). rewrite Forall_forall in Hex.
  destruct (Hex i Hi) as (s' & e' & ? & ? & _ & _ & Hlen & _ & Hown). simplify_eq.
  by rewrite Hown by lia.
Qed.

Lemma kiem_khung_gio_issues_exact_witness :
  ∃ i, i ∈ [mkIssue "gap" "Khoảng hở 20:00–24:00" [] (Some 1200) (Some 1440)] ∧ reports 1300 i.
Proof.
  pose (bands := [mkBandInput 0 600 1000 ""; mkBandInput 600 1200 3000 ""]).
  destruct (kiem_khung_gio_issues_exact bands
    [mkIssue "gap" "Khoảng hở 20:00–24:00" [] (Some 1200) (Some 1440)]) as [_ H].
  - repeat constructor.
  - vm_compute. reflexivity.
  - apply (H 1300); [lia|]. vm_compute. discriminate.
Defined.

(** The power-schedule validator has the same contract: it accepts exactly
    the well-formed rows that give one limit to every minute, and then returns
    a tiling of the day whose limit at each minute is that of an input band
    claiming the minute. *)
Theorem kiem_khung_gio_cong_suat_spec bands :
  match kiem_khung_gio_cong_suat bands with
  | inr out =>
      Forall row_valid bands ∧ (∀ m, 0 ≤ m < 1440 → claims bands m = 1%nat) ∧
      tiles 0 1440 out ∧
      ∀ m, 0 ≤ m < 1440 → ∃ b p,
        b ∈ bands ∧ in_band m b = true ∧ p ∈ out ∧ covers p m = true ∧
        power_limit_w p = power_limit_w b ∧ 0 < power_limit_w p
  | inl issues =>
      ¬ (Forall row_valid bands ∧ ∀ m, 0 ≤ m < 1440 → claims bands m = 1%nat)
  end.
Proof.
  pose proof (check_bands_cases bands) as Hc.
  destruct (kiem_khung_gio_cong_suat bands) as [issues|out] eqn:E;
    unfold kiem_khung_gio_cong_suat in E; rewrite E in Hc; [done|].
  destruct Hc as (Hv & Hex & _). apply check_bands_tiles in E as Ht.
  split_and!; [done|done|done|]. intros m Hm.
  destruct (tiles_cover _ _ _ _ Ht Hm) as (p & Hp & Hpm).
  destruct (check_bands_source _ _ _ E Hp) as (b & Hb & Heq & Hin).
  exists b, p. rewrite covers_spec. rewrite Forall_forall in Hv. destruct (Hv b Hb) as [_ Hf].
  assert (0 < power_limit_w b) as Hpos.
  { simpl in Hf. unfold power_field_issues in Hf. case_match eqn:F; [lia|done]. }
  split_and!; auto; try lia; rewrite Heq; done.
Qed.
