(* ===== verification/Allocation.v ===== *)
(** * Allocation: sharing a station's power limit among charging sessions

    Models [phan_bo_cong_suat] of
    [src/src/modules/stations/power_allocation_engine.py]: preemption of the
    newest sessions until the minimum powers fit, then rounds of equal shares
    capped at each session's nominal power, then the split of the targets into
    decreases and increases. The two [while] loops are written with fuel equal
    to the number of sessions. Each iteration removes a session, so that is
    enough: [preempt_spec] and [distribute_spec] establish, for that fuel, the
    conditions on which the loops exit. *)

From stdpp Require Import pretty.
From S2P Require Import Prelude.

(** ** Data *)

Record SessionDemand := mkDemand {
  session_id : Z;
  started_at : Z;
  current_w : Z;
  nominal_w : Z;
  min_w : Z;
}.

#[export] Instance session_demand_eq_dec : EqDecision SessionDemand.
Proof. solve_decision. Defined.

Record AllocationResult := mkAllocation {
  to_decrease : gmap Z Z;
  to_increase : gmap Z Z;
  unchanged : gmap Z Z;
  to_preempt : list Z;
  preemption_reason : string;
  allocated_total_w : Z;
  is_degraded : bool;
}.

(** ** Preemption *)

(** The tuple key [(started_at, session_id)], compared lexicographically. *)
Definition newer_or_same (a b : SessionDemand) : bool :=
  (started_at b <? started_at a) ||
  ((started_at b =? started_at a) && (session_id b <=? session_id a)).

(** [max(active, key=...)]: the first element with the largest key. *)
Fixpoint newest (best : SessionDemand) (l : list SessionDemand) : SessionDemand :=
  match l with
  | [] => best
  | s :: l' => newest (if newer_or_same best s then best else s) l'
  end.

(** [active.remove(x)]: drop the first element equal to [x]. *)
Fixpoint remove_first (x : SessionDemand) (l : list SessionDemand) : list SessionDemand :=
  match l with
  | [] => []
  | y :: l' => if decide (y = x) then l' else y :: remove_first x l'
  end.

Definition sum_min (l : list SessionDemand) : Z := sumZ (min_w <$> l).

(** [while active and sum(min_w) > limit_w]; dropped sessions come out in the
    order they are dropped. *)
Fixpoint preempt (fuel : nat) (limit_w : Z) (active : list SessionDemand)
  : list SessionDemand * list SessionDemand :=
  match fuel, active with
  | S fuel', first :: rest =>
      if limit_w <? sum_min active then
        let drop := newest first rest in
        let '(dropped, kept) := preempt fuel' limit_w (remove_first drop active) in
        (drop :: dropped, kept)
      else ([], active)
  | _, _ => ([], active)
  end.

(** [sorted(sessions, key=..., reverse=True)]: stable, newest first. *)
Fixpoint insert_newest (s : SessionDemand) (l : list SessionDemand) : list SessionDemand :=
  match l with
  | [] => [s]
  | t :: l' => if newer_or_same s t then s :: t :: l' else t :: insert_newest s l'
  end.

Definition newest_first (l : list SessionDemand) : list SessionDemand :=
  foldr insert_newest [] l.

(** ** Distribution *)

(** One pass of the inner [for]: sessions whose nominal power fits the share
    are settled, the others stay unassigned. *)
Fixpoint share_round (equal_share : Z) (unassigned : list SessionDemand)
    (allocated : gmap Z Z) (budget : Z) : gmap Z Z * Z * list SessionDemand :=
  match unassigned with
  | [] => (allocated, budget, [])
  | s :: rest =>
      if nominal_w s <=? equal_share
      then share_round equal_share rest (<[session_id s := nominal_w s]> allocated)
             (budget - nominal_w s)
      else
        let '(allocated', budget', still) := share_round equal_share rest allocated budget in
        (allocated', budget', s :: still)
  end.

Definition assign_all (w : Z) (l : list SessionDemand) (allocated : gmap Z Z) : gmap Z Z :=
  foldl (λ m s, <[session_id s := w]> m) allocated l.

(** [for s in unassigned: allocated[id] = allocated.get(id, 0)] *)
Definition keep_or_zero (l : list SessionDemand) (allocated : gmap Z Z) : gmap Z Z :=
  foldl (λ m s, <[session_id s := default 0 (m !! session_id s)]> m) allocated l.

Fixpoint distribute (fuel : nat) (unassigned : list SessionDemand)
    (allocated : gmap Z Z) (budget : Z) : gmap Z Z :=
  match fuel, unassigned with
  | S fuel', _ :: _ =>
      if 0 <? budget then
        let equal_share := budget / Z.of_nat (length unassigned) in
        if equal_share =? 0 then
          keep_or_zero unassigned allocated
        else
          let '(allocated', budget', still) :=
            share_round equal_share unassigned allocated budget in
          if decide (length still = length unassigned)
          then assign_all equal_share still allocated'
          else distribute fuel' still allocated' budget'
      else allocated
  | _, _ => allocated
  end.

(** Sessions the loop left out get zero. *)
Definition fill_missing (active : list SessionDemand) (allocated : gmap Z Z) : gmap Z Z :=
  foldl (λ m s, match m !! session_id s with
                | Some _ => m | None => <[session_id s := 0]> m end) allocated active.

(** ** Classification *)

Definition classify (active : list SessionDemand) (allocated : gmap Z Z)
  : gmap Z Z * gmap Z Z * gmap Z Z :=
  foldl (λ '(dec, inc, unch) s,
    let target := default 0 (allocated !! session_id s) in
    if target <? current_w s then (<[session_id s := target]> dec, inc, unch)
    else if current_w s <? target then (dec, <[session_id s := target]> inc, unch)
    else (dec, inc, <[session_id s := target]> unch)) (∅, ∅, ∅) active.

(** [sum(allocated.values())] *)
Definition map_sum (m : gmap Z Z) : Z := sumZ (snd <$> map_to_list m).

Definition allocate (limit_w : Z) (active : list SessionDemand) : gmap Z Z :=
  fill_missing active (distribute (length active) active ∅ limit_w).

Definition preemption_text (n : nat) (limit_w : Z) : string :=
  ("Dừng " +:+ pretty n +:+ " phiên sạc mới nhất do hạ hạn mức giờ cao điểm (hạn mức " +:+
   pretty limit_w +:+ "W không đủ tải tối thiểu)")%string.

Definition phan_bo_cong_suat (limit_w : Z) (sessions : list SessionDemand)
  : AllocationResult :=
  match sessions with
  | [] => mkAllocation ∅ ∅ ∅ [] "" 0 false
  | _ :: _ =>
      if limit_w <=? 0 then
        mkAllocation ∅ ∅ ∅ (session_id <$> newest_first sessions)
          "Hạn mức trạm bằng hoặc nhỏ hơn 0W" 0 true
      else
        let '(dropped, active) := preempt (length sessions) limit_w sessions in
        match active with
        | [] =>
            mkAllocation ∅ ∅ ∅ (session_id <$> dropped)
              "Hạn mức không đủ duy trì mức sạc tối thiểu cho bất kỳ xe nào" 0 true
        | _ :: _ =>
            let allocated := allocate limit_w active in
            let '(dec, inc, unch) := classify active allocated in
            mkAllocation dec inc unch (session_id <$> dropped)
              (if decide (dropped = []) then "" else preemption_text (length dropped) limit_w)
              (map_sum allocated) false
        end
  end.

Definition target_of (r : AllocationResult) (sid : Z) : option Z :=
  match to_decrease r !! sid with
  | Some w => Some w
  | None => match to_increase r !! sid with
            | Some w => Some w | None => unchanged r !! sid end
  end.

Example phan_bo_ex1 :
  let r := phan_bo_cong_suat 20000
    [mkDemand 1 100 7000 7000 1380; mkDemand 2 200 0 22000 1380; mkDemand 3 300 6500 11000 1380] in
  (target_of r 1, target_of r 2, target_of r 3, allocated_total_w r, to_preempt r) =
  (Some 6666, Some 6666, Some 6666, 19998, []).
Proof. vm_compute. reflexivity. Qed.

Example phan_bo_ex2 :
  let r := phan_bo_cong_suat 3000
    [mkDemand 1 100 7000 7000 1380; mkDemand 2 200 0 22000 1380; mkDemand 3 300 6500 11000 1380] in
  (target_of r 1, target_of r 2, to_preempt r) = (Some 1500, Some 1500, [3]).
Proof. vm_compute. reflexivity. Qed.

(** ** Preemption: newest first, no further than needed *)

Lemma newer_refl a : newer_or_same a a = true.
Proof. unfold newer_or_same. lia. Qed.

Lemma newer_total a b : newer_or_same a b = true ∨ newer_or_same b a = true.
Proof. unfold newer_or_same. lia. Qed.

Lemma newer_trans a b c :
  newer_or_same a b = true → newer_or_same b c = true → newer_or_same a c = true.
Proof. unfold newer_or_same. lia. Qed.

#[local] Hint Resolve newer_refl : csms.

Definition newer (a b : SessionDemand) : Prop := newer_or_same a b = true.

Lemma newest_spec best l :
  newest best l ∈ best :: l ∧ Forall (newer (newest best l)) (best :: l).
Proof.
  revert best. induction l as [|s l IH]; intros best; simpl.
  { split; [by left|]. constructor; [apply newer_refl|constructor]. }
  destruct (newer_or_same best s) eqn:E.
  - destruct (IH best) as [Hin Hall]. apply Forall_cons in Hall as [Hb Hl].
    split; [set_solver|]. repeat constructor; [done| |done]. by eapply newer_trans.
  - destruct (IH s) as [Hin Hall]. apply Forall_cons in Hall as [Hs Hl].
    split; [set_solver|]. repeat constructor; [|done|done].
    eapply newer_trans; [exact Hs|]. destruct (newer_total best s); [congruence|done].
Qed.

Lemma remove_first_perm x l : x ∈ l → x :: remove_first x l ≡ₚ l.
Proof.
  induction l as [|y l IH]; simpl; [set_solver|]. case_decide as E; [by subst|].
  intros [->|H]%elem_of_cons; [done|]. rewrite Permutation_swap. by rewrite IH.
Qed.

Lemma sum_min_perm l k : l ≡ₚ k → sum_min l = sum_min k.
Proof. unfold sum_min. by intros ->. Qed.

(** The dropped sessions are newest first and newer than the kept ones, the
    kept ones fit, and no dropped session could have been kept together with
    everything older. *)
Definition lifo (limit : Z) (dropped kept : list SessionDemand) : Prop :=
  StronglySorted newer dropped ∧
  Forall (λ d, Forall (newer d) kept) dropped ∧
  (kept = [] ∨ sum_min kept ≤ limit) ∧
  ∀ before d after, dropped = before ++ d :: after → limit < sum_min (d :: after ++ kept).

Lemma preempt_spec fuel limit active :
  (length active ≤ fuel)%nat →
  let '(dropped, kept) := preempt fuel limit active in
  dropped ++ kept ≡ₚ active ∧ lifo limit dropped kept.
Proof.
  unfold lifo. revert active.
  induction fuel as [|fuel IH]; intros [|s active] Hlen; simpl in *; try lia.
  1,2: split_and!; [done|constructor|constructor|by left|by intros [|??]].
  destruct (Z.ltb_spec limit (sum_min (s :: active))) as [Hlt|Hge].
  2: split_and!; [done|constructor|constructor|by right|by intros [|??]].
  destruct (newest_spec s active) as [Hin Hall].
  set (drop := newest s active) in *.
  pose proof (remove_first_perm drop (s :: active) Hin) as Hperm. simpl in Hperm.
  specialize (IH (if decide (s = drop) then active else s :: remove_first drop active)).
  destruct (preempt fuel limit _) as [dropped kept].
  destruct IH as (Hp & Hs & Hk & Hfit & Hneed).
  { apply Permutation_length in Hperm. simpl in Hperm. lia. }
  assert (drop :: dropped ++ kept ≡ₚ s :: active) as Hp' by by rewrite Hp.
  rewrite <- Hp', Forall_cons, Forall_app in Hall. destruct Hall as (_ & Hd & Hk').
  split_and!; [done|by constructor|by constructor|done|].
  intros [|b before] d after [= <- Hdrop]; [subst after|by eapply Hneed].
  erewrite sum_min_perm; [exact Hlt|]. done.
Qed.

Lemma insert_newest_perm s l : insert_newest s l ≡ₚ s :: l.
Proof.
  induction l as [|t l IH]; simpl; [done|]. case_match; [done|].
  rewrite IH. apply Permutation_swap.
Qed.

Lemma newest_first_perm l : newest_first l ≡ₚ l.
Proof. induction l as [|s l IH]; simpl; [done|]. by rewrite insert_newest_perm, IH. Qed.

Lemma newest_first_sorted l : StronglySorted newer (newest_first l).
Proof.
  induction l as [|s l IH]; simpl; [constructor|]. revert IH. generalize (newest_first l).
  induction 1 as [|t k Hk IH Ht]; simpl; [repeat constructor|]. destruct (newer_or_same s t) eqn:E.
  - constructor; [by constructor|]. constructor; [done|].
    eapply Forall_impl; [exact Ht|]. intros x Hx. by eapply newer_trans.
  - constructor; [done|]. rewrite insert_newest_perm. constructor; [|done].
    destruct (newer_total s t); [congruence|done].
Qed.

(** ** Distribution: within the limit, capped, fair and work conserving *)

Section distribution.
Implicit Types (m : gmap Z Z) (l u : list SessionDemand).

Definition ids (l : list SessionDemand) : list Z := session_id <$> l.

(** What a map gives to a session and to a list of sessions. *)
Definition power_of m (s : SessionDemand) : Z := default 0 (m !! session_id s).
Definition total_power m l : Z := sumZ (power_of m <$> l).

Definition settled (share : Z) l := filter (λ s, nominal_w s ≤ share) l.
Definition unsettled (share : Z) l := filter (λ s, ¬ nominal_w s ≤ share) l.

Lemma settled_perm share l : settled share l ++ unsettled share l ≡ₚ l.
Proof.
  unfold settled, unsettled. induction l as [|s l IH]; simpl; [done|].
  rewrite !filter_cons. case_decide; case_decide; try done; simpl.
  - by rewrite IH.
  - by rewrite <- Permutation_middle, IH.
Qed.

Lemma power_of_ext m m' l :
  (∀ s, s ∈ l → m' !! session_id s = m !! session_id s) → total_power m' l = total_power m l.
Proof.
  intros Hm. unfold total_power. f_equal. apply list_fmap_ext.
  intros i s Hs%list_elem_of_lookup_2. unfold power_of. by rewrite Hm.
Qed.

Lemma total_power_app m l k : total_power m (l ++ k) = total_power m l + total_power m k.
Proof. unfold total_power. by rewrite fmap_app, sumZ_app. Qed.

Lemma share_round_spec share u m b :
  NoDup (ids u) →
  let '(m', b', still) := share_round share u m b in
  still = unsettled share u ∧
  b' = b - sumZ (nominal_w <$> settled share u) ∧
  (∀ s, s ∈ settled share u → m' !! session_id s = Some (nominal_w s)) ∧
  (∀ k, k ∉ ids (settled share u) → m' !! k = m !! k).
Proof.
  revert m b. induction u as [|s u IH]; intros m b Hnd; simpl.
  { split_and!; [done|symmetry; apply Z.sub_0_r|set_solver|done]. }
  apply NoDup_cons in Hnd as [Hs Hnd]. unfold settled, unsettled in *. rewrite !filter_cons.
  destruct (Z.leb_spec (nominal_w s) share) as [Hle|Hgt].
  - do 2 (case_decide; try (exfalso; lia)).
    specialize (IH (<[session_id s:=nominal_w s]> m) (b - nominal_w s) Hnd).
    destruct (share_round share u _ _) as [[m' b'] still].
    destruct IH as (-> & -> & Hset & Hrest).
    assert (session_id s ∉ ids (filter (λ s0, nominal_w s0 ≤ share) u)) as Hs'.
    { intros Hin. apply Hs. unfold ids in *. apply list_elem_of_fmap in Hin as (t & -> & Ht).
      apply list_elem_of_filter in Ht as [_ Ht]. apply list_elem_of_fmap. eauto. }
    split_and!; [done|rewrite fmap_cons, sumZ_cons; lia| |].
    + intros t [->|Ht]%elem_of_cons; [|by apply Hset]. by rewrite Hrest, lookup_insert_eq.
    + intros k Hk. simpl in Hk. rewrite Hrest by set_solver. rewrite lookup_insert_ne; set_solver.
  - do 2 (case_decide; try (exfalso; lia)). specialize (IH m b Hnd).
    destruct (share_round share u m b) as [[m' b'] still]. naive_solver.
Qed.

Lemma assign_all_snoc w u s m :
  assign_all w (u ++ [s]) m = <[session_id s := w]> (assign_all w u m).
Proof. unfold assign_all. by rewrite foldl_app. Qed.

Lemma assign_all_spec w u m :
  (∀ s, s ∈ u → assign_all w u m !! session_id s = Some w) ∧
  (∀ k, k ∉ ids u → assign_all w u m !! k = m !! k).
Proof.
  induction u as [|s u [H1 H2]] using rev_ind; [set_solver|].
  unfold ids in *. rewrite fmap_app, assign_all_snoc. split.
  - intros t [Ht| ->%list_elem_of_singleton]%elem_of_app; [|by rewrite lookup_insert_eq].
    rewrite lookup_insert. case_decide; [done|by apply H1].
  - intros k Hk. rewrite lookup_insert_ne by set_solver. apply H2. set_solver.
Qed.

Lemma keep_or_zero_spec u m k :
  default 0 (keep_or_zero u m !! k) = default 0 (m !! k) ∧
  (k ∉ ids u → keep_or_zero u m !! k = m !! k).
Proof.
  unfold keep_or_zero. induction u as [|s u [H1 H2]] using rev_ind; [done|].
  rewrite foldl_app. unfold ids in *. rewrite fmap_app. simpl. rewrite lookup_insert.
  case_decide as E; [subst; simpl; split; [done|set_solver]|].
  split; [done|]. intros Hk. apply H2. set_solver.
Qed.

Lemma sum_le_scale (f : SessionDemand → Z) c l :
  (∀ s, s ∈ l → f s ≤ c) → sumZ (f <$> l) ≤ c * Z.of_nat (length l).
Proof.
  induction l as [|s l IH]; intros Hl; [simpl; lia|]. rewrite fmap_cons, sumZ_cons. cbn [length].
  specialize (IH ltac:(set_solver)). specialize (Hl s ltac:(set_solver)). lia.
Qed.

Lemma total_power_const m w l :
  (∀ s, s ∈ l → m !! session_id s = Some w) → total_power m l = w * Z.of_nat (length l).
Proof.
  intros Hl. unfold total_power, power_of. induction l as [|s l IH]; [simpl; lia|].
  rewrite fmap_cons, sumZ_cons, (Hl s), IH by set_solver. simpl. lia.
Qed.

Lemma total_power_nominal m l :
  (∀ s, s ∈ l → m !! session_id s = Some (nominal_w s)) → total_power m l = sumZ (nominal_w <$> l).
Proof.
  intros Hl. unfold total_power, power_of. induction l as [|s l IH]; [done|].
  rewrite !fmap_cons, !sumZ_cons, (Hl s), IH by set_solver. done.
Qed.

(** The outcome of a distribution of [budget] among [u]. *)
Definition fair_split (budget : Z) u m m' : Prop :=
  (∀ k, k ∉ ids u → m' !! k = m !! k) ∧
  (∀ s, s ∈ u → 0 ≤ power_of m' s ≤ nominal_w s ∧
     Z.min (nominal_w s) (budget / Z.of_nat (length u)) ≤ power_of m' s) ∧
  total_power m' u ≤ budget ∧
  ((∀ s, s ∈ u → power_of m' s = nominal_w s) ∨
   budget - total_power m' u < Z.of_nat (length u)).

Lemma share_round_split share u m b m' b' still :
  NoDup (ids u) → (∀ s, s ∈ u → 0 ≤ nominal_w s) → 0 ≤ share → share * Z.of_nat (length u) ≤ b →
  share_round share u m b = (m', b', still) →
  still = unsettled share u ∧ still ⊆ u ∧ NoDup (ids still) ∧
  b' + total_power m' (settled share u) = b ∧
  share * Z.of_nat (length still) ≤ b' ∧
  (∀ s, s ∈ settled share u → m' !! session_id s = Some (nominal_w s)) ∧
  (∀ k, k ∉ ids (settled share u) → m' !! k = m !! k).
Proof.
  intros Hnd Hnom Hsh Hb E. pose proof (share_round_spec share u m b Hnd) as Hs. rewrite E in Hs.
  destruct Hs as (-> & -> & Hset & Hrest). rewrite (total_power_nominal m' _ Hset).
  pose proof (settled_perm share u) as Hperm.
  split_and!; [done| | |lia| |done|done].
  - intros s Hs. rewrite <- Hperm. set_solver.
  - assert (NoDup (ids (settled share u ++ unsettled share u))) as Hn.
    { unfold ids. by rewrite Hperm. }
    unfold ids in Hn. rewrite fmap_app in Hn. by apply NoDup_app in Hn as (_ & _ & ?).
  - assert (sumZ (nominal_w <$> settled share u) ≤ share * Z.of_nat (length (settled share u))).
    { apply sum_le_scale. intros s Hs. apply list_elem_of_filter in Hs as [Hs _]. exact Hs. }
    apply Permutation_length in Hperm. rewrite length_app in Hperm. nia.
Qed.

Lemma div_share b n : 0 < n → b / n * n ≤ b < (b / n + 1) * n.
Proof.
  intros Hn. pose proof (Z.div_mod b n ltac:(lia)). pose proof (Z.mod_pos_bound b n Hn). nia.
Qed.

Lemma total_power_zero m l : (∀ s, s ∈ l → power_of m s = 0) → total_power m l = 0.
Proof.
  intros Hl. unfold total_power. induction l as [|s l IH]; [done|].
  rewrite fmap_cons, sumZ_cons, (Hl s), IH by set_solver. done.
Qed.

Lemma ids_disjoint u l k s :
  NoDup (ids u) → l ++ k ≡ₚ u → s ∈ k → session_id s ∉ ids l.
Proof.
  intros Hnd Hp Hs Hin. unfold ids in *. rewrite <- Hp, fmap_app in Hnd.
  apply NoDup_app in Hnd as (_ & Hd & _). apply (Hd _ Hin). apply list_elem_of_fmap. eauto.
Qed.

(** No session fits the share: everybody gets it. *)
Lemma nothing_settled share u m m1 b still :
  let n := Z.of_nat (length u) in
  b / n = share → 0 ≤ share → share * n ≤ b < (share + 1) * n →
  still = unsettled share u → settled share u ++ still ≡ₚ u → length still = length u →
  (∀ k, k ∉ ids (settled share u) → m1 !! k = m !! k) →
  fair_split b u m (assign_all share still m1).
Proof.
  intros n Hdiv Hsh Hb Hstill Hperm Hlen Hrest.
  assert (settled share u = []) as Hnil.
  { apply Permutation_length in Hperm. rewrite length_app in Hperm. apply nil_length_inv. lia. }
  rewrite Hnil in *. simpl in Hperm. destruct (assign_all_spec share still m1) as [Ha Hout].
  assert (∀ s, s ∈ u → assign_all share still m1 !! session_id s = Some share) as Hu.
  { intros s. rewrite <- Hperm. apply Ha. }
  pose proof (total_power_const _ _ _ Hu) as Ht. fold n in Ht.
  split_and!; [| |rewrite Ht; lia|right; rewrite Ht; fold n; lia].
  - intros k Hk. rewrite Hout, Hrest; [done|set_solver|].
    intros Hin. apply Hk. unfold ids. rewrite <- Hperm. done.
  - intros s Hs. unfold power_of. rewrite (Hu s Hs). simpl. fold n. rewrite Hdiv.
    rewrite <- Hperm, Hstill in Hs. unfold unsettled in Hs.
    apply list_elem_of_filter in Hs as [Hs _]. lia.
Qed.

(** Some sessions are settled at their nominal power, the rest share what is left. *)
Lemma some_settled share u m m1 m' b b1 still :
  let n := Z.of_nat (length u) in
  b / n = share → NoDup (ids u) → (∀ s, s ∈ u → 0 ≤ nominal_w s) →
  settled share u ++ still ≡ₚ u →
  b1 + total_power m1 (settled share u) = b → share * Z.of_nat (length still) ≤ b1 →
  (∀ s, s ∈ settled share u → m1 !! session_id s = Some (nominal_w s)) →
  (∀ k, k ∉ ids (settled share u) → m1 !! k = m !! k) →
  fair_split b1 still m1 m' → fair_split b u m m'.
Proof.
  intros n Hdiv Hnd Hnom Hperm Hb1 Hshare Hset Hrest (Hout & Hbnd & Htot & Hcons).
  assert (∀ s, s ∈ settled share u → m' !! session_id s = m1 !! session_id s) as Hsame.
  { intros s Hs. apply Hout. apply (ids_disjoint u still (settled share u)); [done| |done].
    by rewrite Permutation_app_comm. }
  assert (∀ s, s ∈ settled share u → power_of m' s = nominal_w s) as Hnomset.
  { intros s Hs. unfold power_of. by rewrite Hsame, Hset. }
  assert (total_power m' u = total_power m1 (settled share u) + total_power m' still) as Hsum.
  { unfold total_power. rewrite <- Hperm at 1. rewrite fmap_app, sumZ_app. f_equal.
    by apply power_of_ext. }
  apply Permutation_length in Hperm as Hlen. rewrite length_app in Hlen.
  split_and!.
  - intros k Hk. assert ((k ∉ ids (settled share u)) ∧ (k ∉ ids still)) as [? ?].
    { unfold ids in *. rewrite <- Hperm, fmap_app in Hk. set_solver. }
    by rewrite Hout, Hrest.
  - intros s Hs. rewrite <- Hperm in Hs. apply elem_of_app in Hs as [Hs|Hs].
    + rewrite Hnomset by done. assert (0 ≤ nominal_w s); [|lia].
      apply Hnom. rewrite <- Hperm. set_solver.
    + destruct (Hbnd s Hs) as [Hr Hm]. split; [done|]. fold n. rewrite Hdiv.
      assert (share ≤ b1 / Z.of_nat (length still)); [|lia].
      destruct still; [set_solver|]. apply Z.div_le_lower_bound; simpl in *; lia.
  - lia.
  - destruct Hcons as [Hall|Hlt]; [left|right; fold n; lia].
    intros s Hs. rewrite <- Hperm in Hs. apply elem_of_app in Hs as [Hs|Hs]; auto.
Qed.

Lemma distribute_step fuel u m b :
  u ≠ [] →
  distribute (S fuel) u m b =
  (if 0 <? b then
     let equal_share := b / Z.of_nat (length u) in
     if equal_share =? 0 then keep_or_zero u m
     else
       let '(m', b', still) := share_round equal_share u m b in
       if decide (length still = length u) then assign_all equal_share still m'
       else distribute fuel still m' b'
   else m).
Proof. by destruct u. Qed.

Lemma distribute_spec fuel u m b :
  (length u ≤ fuel)%nat → NoDup (ids u) → (∀ s, s ∈ u → 0 ≤ nominal_w s) → 0 ≤ b →
  (∀ s, s ∈ u → m !! session_id s = None) →
  fair_split b u m (distribute fuel u m b).
Proof.
  revert u m b. induction fuel as [|fuel IH]; intros u m b Hf Hnd Hnom Hb Hm.
  { destruct u; simpl in Hf; [|lia]. split_and!; [done|set_solver|done|left; set_solver]. }
  destruct u as [|s0 u0]; [split_and!; [done|set_solver|done|left; set_solver]|].
  set (u := s0 :: u0) in *. set (n := Z.of_nat (length u)).
  assert (0 < n) as Hn by (subst n u; simpl; lia).
  pose proof (div_share b n Hn) as Hdiv. set (share := b / n) in *.
  assert (0 ≤ share) as Hsh by (apply Z.div_pos; lia).
  assert (∀ m', (∀ k, k ∉ ids u → m' !! k = m !! k) → (∀ s, s ∈ u → power_of m' s = 0) →
    share = 0 → fair_split b u m m') as Hzero.
  { intros m' Hout Hz Hs0. pose proof (total_power_zero m' u Hz) as Ht.
    split_and!; [done| |lia|right; fold n; lia].
    intros s Hs. rewrite (Hz s Hs). specialize (Hnom s Hs). fold n share. lia. }
  rewrite distribute_step by done. cbn zeta. fold n share. destruct (Z.ltb_spec 0 b) as [Hpos|Hneg].
  2: { apply Hzero; [done| |subst share; replace b with 0 by lia; done].
       intros s Hs. unfold power_of. by rewrite Hm. }
  destruct (Z.eqb_spec share 0) as [Hs0|Hs0].
  { pose proof (keep_or_zero_spec u m) as Hk. apply Hzero; [| |done].
    - intros k Hout. by apply Hk.
    - intros s Hs. unfold power_of. rewrite (proj1 (Hk (session_id s))). by rewrite Hm. }
  destruct (share_round share u m b) as [[m1 b1] still] eqn:E.
  apply share_round_split in E; [|done|done|done|fold n; lia].
  destruct E as (Hstill & Hsub & Hnd' & Hb1 & Hshare & Hset & Hrest).
  pose proof (settled_perm share u) as Hperm. rewrite <- Hstill in Hperm.
  case_decide as Hlen.
  - eapply nothing_settled; eauto; fold n; lia.
  - eapply some_settled; eauto. apply IH; [|done| |lia|].
    + apply Permutation_length in Hperm. rewrite length_app in Hperm. subst u. simpl in *. lia.
    + intros s Hs. apply Hnom. by apply Hsub.
    + intros s Hs. rewrite Hrest; [apply Hm; by apply Hsub|].
      by apply (ids_disjoint u _ still).
Qed.

Lemma fill_missing_spec l m k :
  fill_missing l m !! k =
  match m !! k with Some w => Some w | None => if decide (k ∈ ids l) then Some 0 else None end.
Proof.
  unfold fill_missing, ids.
  induction l as [|s l IH] using rev_ind.
  { change (foldl _ m []) with m. destruct (m !! k); [done|]. case_decide; [set_solver|done]. }
  rewrite foldl_app, fmap_app. simpl. set (m' := foldl _ m l) in *.
  destruct (m' !! session_id s) as [w|] eqn:Es.
  - rewrite IH. destruct (m !! k) eqn:Ek; [done|]. repeat case_decide; set_solver.
  - destruct (decide (session_id s = k)) as [<-|Hne].
    + rewrite lookup_insert_eq. rewrite Es in IH. destruct (m !! session_id s); [done|].
      clear IH. case_decide; set_solver.
    + rewrite lookup_insert_ne, IH by done. destruct (m !! k); [done|].
      repeat case_decide; set_solver.
Qed.

Lemma map_sum_total m l :
  NoDup (ids l) → (∀ k, is_Some (m !! k) ↔ k ∈ ids l) → map_sum m = total_power m l.
Proof.
  intros Hnd Hdom. unfold map_sum, total_power.
  set (kv := (λ s, (session_id s, power_of m s)) <$> l).
  assert (kv.*1 = ids l) as Hfst by (unfold kv, ids; by rewrite <- list_fmap_compose).
  assert (m = list_to_map kv) as Hm.
  { apply map_eq. intros k. apply option_eq. intros w.
    rewrite <- elem_of_list_to_map by by rewrite Hfst. unfold kv. rewrite list_elem_of_fmap. split.
    - intros Hk. pose proof (proj1 (Hdom k) (mk_is_Some _ _ Hk)) as Hin.
      unfold ids in Hin. apply list_elem_of_fmap in Hin as (s & -> & Hs).
      exists s. unfold power_of. by rewrite Hk.
    - intros (s & [= -> ->] & Hs). unfold power_of.
      destruct (proj2 (Hdom (session_id s))) as [w ->]; [|done].
      unfold ids. apply list_elem_of_fmap. eauto. }
  assert (map_to_list m ≡ₚ kv) as ->.
  { etransitivity; [|apply map_to_list_to_map; by rewrite Hfst]. by rewrite <- Hm. }
  unfold kv. by rewrite <- list_fmap_compose.
Qed.

(** The map handed to the classification. *)
Lemma allocate_spec limit l :
  NoDup (ids l) → (∀ s, s ∈ l → 0 ≤ nominal_w s) → 0 < limit →
  fair_split limit l ∅ (allocate limit l) ∧
  (∀ k, is_Some (allocate limit l !! k) ↔ k ∈ ids l).
Proof.
  intros Hnd Hnom Hl. unfold allocate.
  destruct (distribute_spec (length l) l ∅ limit) as (Hout & Hb & Ht & Hc); [lia|done|done|lia|done|].
  set (m := distribute _ _ _ _) in *.
  assert (∀ s, power_of (fill_missing l m) s = power_of m s) as Hp.
  { intros s. unfold power_of. rewrite fill_missing_spec.
    destruct (m !! session_id s); [done|]. by case_decide. }
  assert (total_power (fill_missing l m) l = total_power m l) as Htot.
  { unfold total_power. f_equal. apply list_fmap_ext. auto. }
  split; [split_and!|].
  - intros k Hk. rewrite fill_missing_spec, Hout by done. rewrite lookup_empty. by rewrite decide_False.
  - intros s Hs. rewrite Hp. auto.
  - by rewrite Htot.
  - rewrite Htot. destruct Hc; [left; intros s Hs; rewrite Hp; auto|by right].
  - intros k. rewrite fill_missing_spec. split.
    + destruct (decide (k ∈ ids l)); [done|]. rewrite Hout by done.
      rewrite lookup_empty. by intros [].
    + intros Hk. destruct (m !! k); [done|]. by rewrite decide_True.
Qed.

(** *** Classification *)

Definition target_in (t : gmap Z Z * gmap Z Z * gmap Z Z) (k : Z) : option Z :=
  let '(dec, inc, unch) := t in
  match dec !! k with Some w => Some w | None =>
    match inc !! k with Some w => Some w | None => unch !! k end end.

Definition classified m l (t : gmap Z Z * gmap Z Z * gmap Z Z) : Prop :=
  let '(dec, inc, unch) := t in
  (∀ k w, dec !! k = Some w → ∃ s, s ∈ l ∧ session_id s = k ∧ w = power_of m s ∧ w < current_w s) ∧
  (∀ k w, inc !! k = Some w → ∃ s, s ∈ l ∧ session_id s = k ∧ w = power_of m s ∧ current_w s < w) ∧
  (∀ k w, unch !! k = Some w → ∃ s, s ∈ l ∧ session_id s = k ∧ w = power_of m s ∧ w = current_w s) ∧
  (∀ s, s ∈ l → is_Some (target_in t (session_id s))).

Lemma classify_spec m l : classified m l (classify l m).
Proof.
  unfold classify. induction l as [|s l IH] using rev_ind.
  { simpl. split_and!; try (intros ??; by rewrite lookup_empty). set_solver. }
  rewrite foldl_app. simpl. destruct (foldl _ (∅, ∅, ∅) l) as [[dec inc] unch].
  destruct IH as (Hd & Hi & Hu & Ht). change (default 0 (m !! session_id s)) with (power_of m s).
  assert (∀ (P : SessionDemand → Z → Prop) (x : gmap Z Z),
    (∀ k w, x !! k = Some w → ∃ t, t ∈ l ∧ session_id t = k ∧ w = power_of m t ∧ P t w) →
    (∀ k w, x !! k = Some w → ∃ t, t ∈ l ++ [s] ∧ session_id t = k ∧ w = power_of m t ∧ P t w) ∧
    (P s (power_of m s) → ∀ k w, <[session_id s := power_of m s]> x !! k = Some w →
      ∃ t, t ∈ l ++ [s] ∧ session_id t = k ∧ w = power_of m t ∧ P t w)) as Hgrow.
  { intros P x Hx. split.
    - intros k w Hk. destruct (Hx k w Hk) as (t & ? & ? & ? & ?). exists t. set_solver.
    - intros Ps k w. rewrite lookup_insert. case_decide.
      + intros [= <-]. exists s. set_solver.
      + intros Hk. destruct (Hx k w Hk) as (t & ? & ? & ? & ?). exists t. set_solver. }
  pose proof (Hgrow (λ t w, w < current_w t) dec Hd) as [Hd1 Hd2].
  pose proof (Hgrow (λ t w, current_w t < w) inc Hi) as [Hi1 Hi2].
  pose proof (Hgrow (λ t w, w = current_w t) unch Hu) as [Hu1 Hu2].
  simpl in *.
  assert (∀ t' : gmap Z Z * gmap Z Z * gmap Z Z,
    (∀ k, k ≠ session_id s → target_in t' k = target_in (dec, inc, unch) k) →
    is_Some (target_in t' (session_id s)) →
    ∀ t, t ∈ l ++ [s] → is_Some (target_in t' (session_id t))) as Hall.
  { intros t' Hne Hs t [Hin| ->%list_elem_of_singleton]%elem_of_app; [|done].
    destruct (decide (session_id t = session_id s)) as [->|]; [done|]. rewrite Hne by done. by apply Ht. }
  destruct (Z.ltb_spec (power_of m s) (current_w s)); [|destruct (Z.ltb_spec (current_w s) (power_of m s))];
    (split_and!; [by auto|by auto| |]); try (by auto).
  all: try (apply Hu2; lia).
  all: apply Hall; [intros k Hk; simpl; by rewrite lookup_insert_ne|simpl; rewrite lookup_insert_eq].
  all: repeat case_match; done.
Qed.
End distribution.

(** ** The engine as a whole *)

Definition well_formed (sessions : list SessionDemand) : Prop :=
  NoDup (ids sessions) ∧ ∀ s, s ∈ sessions → 0 ≤ nominal_w s.

Lemma ids_inj l s t : NoDup (ids l) → s ∈ l → t ∈ l → session_id s = session_id t → s = t.
Proof.
  intros Hnd Hs Ht Heq. apply list_elem_of_lookup in Hs as [i Hi], Ht as [j Hj].
  assert (i = j) as ->; [|congruence]. unfold ids in Hnd. eapply NoDup_lookup; [exact Hnd| |].
  - rewrite list_lookup_fmap, Hi. done.
  - rewrite list_lookup_fmap, Hj. simpl. by rewrite Heq.
Qed.

Lemma ids_elem s l : s ∈ l → session_id s ∈ ids l.
Proof. intros Hs. unfold ids. apply list_elem_of_fmap. eauto. Qed.

#[local] Hint Resolve ids_elem : csms.

Lemma classified_target m l t k :
  NoDup (ids l) → classified m l t → (∀ k, is_Some (m !! k) ↔ k ∈ ids l) →
  target_in t k = m !! k.
Proof.
  destruct t as [[dec inc] unch]. intros Hnd (Hd & Hi & Hu & Hs) Hdom.
  assert (∀ w, target_in (dec, inc, unch) k = Some w →
    ∃ s, s ∈ l ∧ session_id s = k ∧ w = power_of m s) as Hval.
  { intros w. simpl. destruct (dec !! k) eqn:Ed; [intros [= ->]; naive_solver|].
    destruct (inc !! k) eqn:Ei; [intros [= ->]; naive_solver|]. naive_solver. }
  destruct (target_in _ k) as [w|] eqn:E.
  - destruct (Hval w eq_refl) as (s & Hin & <- & ->). unfold power_of.
    destruct (proj2 (Hdom (session_id s))) as [w Hw]; [by apply ids_elem|]. by rewrite Hw.
  - destruct (m !! k) as [w|] eqn:Em; [|done].
    pose proof (proj1 (Hdom k) (mk_is_Some _ _ Em)) as Hin. unfold ids in Hin.
    apply list_elem_of_fmap in Hin as (s & -> & Hin).
    destruct (Hs s Hin) as [w' Hw]. congruence.
Qed.

(** The sessions split into preempted and served ones, and the targets are the
    fair split of the limit among the served ones. *)
Definition outcome (limit : Z) (sessions D K : list SessionDemand) (m : gmap Z Z)
    (r : AllocationResult) : Prop :=
  D ++ K ≡ₚ sessions ∧ to_preempt r = ids D ∧
  (∀ k, target_of r k = m !! k) ∧ (∀ k, is_Some (m !! k) ↔ k ∈ ids K) ∧
  allocated_total_w r = total_power m K ∧
  (K ≠ [] → 0 < limit ∧ fair_split limit K ∅ m ∧
     classified m K (to_decrease r, to_increase r, unchanged r)) ∧
  (is_degraded r = false → sessions ≠ [] → K ≠ []) ∧
  (0 < limit → lifo limit D K).

Lemma phan_bo_outcome limit sessions :
  well_formed sessions →
  ∃ D K m, outcome limit sessions D K m (phan_bo_cong_suat limit sessions).
Proof.
  intros [Hnd Hnom].
  assert (∀ D r, D ≡ₚ sessions → to_preempt r = ids D → to_decrease r = ∅ → to_increase r = ∅ →
    unchanged r = ∅ → allocated_total_w r = 0 → (is_degraded r = false → sessions = []) →
    (0 < limit → lifo limit D []) → outcome limit sessions D [] ∅ r) as Hnone.
  { intros D r Hp Hpre Hd Hi Hu Ht Hdeg Hl. split_and!; try done.
    - by rewrite app_nil_r.
    - intros k. unfold target_of. by rewrite Hd, Hi, Hu.
    - intros k. rewrite lookup_empty. split; [by intros []|set_solver].
    - intros Hf Hne. by rewrite Hdeg in Hne. }
  unfold phan_bo_cong_suat. destruct sessions as [|s0 ss].
  { exists [], [], ∅. apply Hnone; try done. intros _. split_and!; [constructor|done|by left|by intros [|??]]. }
  set (sessions := s0 :: ss) in *. destruct (Z.leb_spec limit 0) as [Hle|Hpos].
  { exists (newest_first sessions), [], ∅. apply Hnone; try done; [apply newest_first_perm|lia]. }
  pose proof (preempt_spec (length sessions) limit sessions ltac:(done)) as Hpre.
  destruct (preempt _ limit sessions) as [D [|k0 K0]].
  { destruct Hpre as [Hp Hl]. rewrite app_nil_r in Hp.
    exists D, [], ∅. by apply Hnone. }
  set (K := k0 :: K0) in *. destruct Hpre as [Hp Hl].
  assert (NoDup (ids K)) as HndK.
  { unfold ids in *. rewrite <- Hp, fmap_app in Hnd. by apply NoDup_app in Hnd as (_ & _ & ?). }
  assert (∀ s, s ∈ K → 0 ≤ nominal_w s) as HnomK.
  { intros s Hs. apply Hnom. rewrite <- Hp. set_solver. }
  destruct (allocate_spec limit K HndK HnomK Hpos) as [Hfair Hdom].
  pose proof (classify_spec (allocate limit K) K) as Hcl.
  destruct (classify K (allocate limit K)) as [[dec inc] unch] eqn:Ec.
  exists D, K, (allocate limit K). split_and!; try done.
  - intros k. by apply (classified_target _ K (dec, inc, unch)).
  - by apply map_sum_total.
Qed.

(** Closes [well_formed] on a literal list of sessions. *)
Ltac literal_sessions :=
  split; [vm_compute; repeat constructor; set_solver|];
  let s := fresh in let Hs := fresh in intros s Hs;
  repeat (apply elem_of_cons in Hs as [->|Hs]; [vm_compute; discriminate|]);
  by apply elem_of_nil in Hs.

(** The engine never hands out more than the station's limit: for sessions
    with distinct identifiers and nonnegative nominal powers, every session is
    either preempted or given one target between zero and its nominal power,
    never both, and the reported total is the sum of the targets and at most
    the limit. *)
Theorem phan_bo_safe limit sessions :
  well_formed sessions →
  let r := phan_bo_cong_suat limit sessions in
  allocated_total_w r = sumZ ((λ s, default 0 (target_of r (session_id s))) <$> sessions) ∧
  allocated_total_w r ≤ Z.max 0 limit ∧
  ∀ s, s ∈ sessions →
    match target_of r (session_id s) with
    | Some w => 0 ≤ w ≤ nominal_w s ∧ session_id s ∉ to_preempt r
    | None => session_id s ∈ to_preempt r
    end.
Proof.
  intros Hwf r. destruct (phan_bo_outcome limit sessions Hwf)
    as (D & K & m & Hp & Hpre & Htgt & Hdom & Htot & HK & _).
  fold r in Hpre, Htgt, Htot, HK. destruct Hwf as [Hnd Hnom].
  assert (∀ s, s ∈ D → m !! session_id s = None) as HD.
  { intros s Hs. apply eq_None_not_Some. rewrite Hdom.
    apply (ids_disjoint sessions K D); [done|by rewrite Permutation_app_comm|done]. }
  split_and!.
  - rewrite <- Hp, fmap_app, sumZ_app, Htot. unfold total_power, power_of.
    rewrite (sumZ_fmap_zero _ D) by (intros s Hs; by rewrite Htgt, HD). simpl.
    symmetry. apply sumZ_fmap_ext. intros s _. by rewrite Htgt.
  - rewrite Htot. destruct K as [|k K]; [unfold total_power; simpl; lia|].
    destruct HK as (? & (_ & _ & ? & _) & _); [done|lia].
  - intros s Hs. rewrite Htgt. rewrite <- Hp in Hs. apply elem_of_app in Hs as [Hs|Hs].
    + rewrite HD, Hpre by done. by apply ids_elem.
    + destruct (proj2 (Hdom (session_id s))) as [w Hw]; [by apply ids_elem|]. rewrite Hw.
      destruct HK as (_ & (_ & Hb & _) & _); [intros ->; by apply elem_of_nil in Hs|].
      destruct (Hb s Hs) as [Hr _]. unfold power_of in Hr. rewrite Hw in Hr. split; [done|].
      rewrite Hpre. by apply (ids_disjoint sessions D K).
Qed.

Lemma phan_bo_safe_witness :
  allocated_total_w (phan_bo_cong_suat 3000
    [mkDemand 1 100 7000 7000 1380; mkDemand 2 200 0 22000 1380; mkDemand 3 300 6500 11000 1380])
  ≤ Z.max 0 3000.
Proof.
  apply phan_bo_safe. literal_sessions.
Defined.

(** The split is fair and wastes nothing: when the engine is not degraded,
    each served session gets at least the smaller of its nominal power and an
    equal share of the whole limit among the served sessions, and either every
    served session is at its nominal power or less than one watt per served
    session is left unassigned. *)
Theorem phan_bo_fair limit sessions :
  well_formed sessions →
  let r := phan_bo_cong_suat limit sessions in
  let served := Z.of_nat (length sessions) - Z.of_nat (length (to_preempt r)) in
  is_degraded r = false →
  (∀ s w, s ∈ sessions → target_of r (session_id s) = Some w →
     Z.min (nominal_w s) (limit / served) ≤ w) ∧
  ((∀ s w, s ∈ sessions → target_of r (session_id s) = Some w → w = nominal_w s) ∨
   limit - allocated_total_w r < served).
Proof.
  intros Hwf r served Hdeg. destruct (phan_bo_outcome limit sessions Hwf)
    as (D & K & m & Hp & Hpre & Htgt & Hdom & Htot & HK & Hne & _).
  fold r in Hpre, Htgt, Htot, HK, Hne. destruct sessions as [|s0 ss].
  { split; [set_solver|]. left; set_solver. }
  destruct HK as (_ & (_ & Hb & _ & Hc) & _); [by apply Hne|].
  assert (served = Z.of_nat (length K)) as Hserved.
  { unfold served. rewrite Hpre. apply Permutation_length in Hp. unfold ids.
    rewrite length_app in Hp. rewrite length_fmap. lia. }
  assert (∀ s w, s ∈ s0 :: ss → target_of r (session_id s) = Some w → s ∈ K ∧ w = power_of m s) as Hin.
  { intros s w Hs Hw. rewrite Htgt in Hw. unfold power_of. rewrite Hw. split; [|done].
    pose proof (proj1 (Hdom _) (mk_is_Some _ _ Hw)) as Hk. unfold ids in Hk.
    apply list_elem_of_fmap in Hk as (t & Ht & HtK).
    rewrite (ids_inj (s0 :: ss) s t); [done|apply Hwf|done| |done]. rewrite <- Hp. set_solver. }
  rewrite Hserved. split.
  - intros s w Hs Hw. destruct (Hin s w Hs Hw) as [HsK ->]. by apply Hb.
  - rewrite Htot. destruct Hc as [Hall|Hlt]; [left|by right].
    intros s w Hs Hw. destruct (Hin s w Hs Hw) as [HsK ->]. by apply Hall.
Qed.

Lemma phan_bo_fair_witness :
  let r := phan_bo_cong_suat 20000 [mkDemand 1 100 7000 3000 1380; mkDemand 2 200 0 22000 1380] in
  target_of r 2 = Some 17000 ∧ Z.min 22000 (20000 / 2) ≤ 17000.
Proof.
  split; [vm_compute; reflexivity|].
  apply (proj1 (phan_bo_fair 20000 [mkDemand 1 100 7000 3000 1380; mkDemand 2 200 0 22000 1380]
    ltac:(literal_sessions) ltac:(vm_compute; reflexivity))
    (mkDemand 2 200 0 22000 1380)); [set_solver|vm_compute; reflexivity].
Defined.

(** With one minimum power common to all sessions, and nominal powers not
    below it, no served session is ever squeezed below that minimum. *)
Theorem phan_bo_uniform_minimum limit sessions q :
  well_formed sessions → 0 < limit →
  (∀ s, s ∈ sessions → min_w s = q ∧ q ≤ nominal_w s) →
  ∀ s w, s ∈ sessions → target_of (phan_bo_cong_suat limit sessions) (session_id s) = Some w →
  q ≤ w.
Proof.
  intros Hwf Hl Hq s w Hs Hw. destruct (phan_bo_outcome limit sessions Hwf)
    as (D & K & m & Hp & _ & Htgt & Hdom & _ & HK & _ & Hlifo).
  rewrite Htgt in Hw. pose proof (proj1 (Hdom _) (mk_is_Some _ _ Hw)) as Hk.
  unfold ids in Hk. apply list_elem_of_fmap in Hk as (t & Ht & HtK).
  assert (t ∈ sessions) as HtS by (rewrite <- Hp; set_solver).
  assert (K ≠ []) as Hne by (intros ->; by apply elem_of_nil in HtK).
  destruct (HK Hne) as (_ & (_ & Hb & _) & _). destruct (Hb t HtK) as [_ Hmin].
  unfold power_of in Hmin. rewrite <- Ht, Hw in Hmin. simpl in Hmin.
  destruct (Hlifo Hl) as (_ & _ & Hfit & _). destruct Hfit as [|Hfit]; [done|].
  assert (sum_min K = q * Z.of_nat (length K)) as Hsum.
  { unfold sum_min. clear - Hq Hp.
    assert (∀ x, x ∈ K → min_w x = q) as HqK.
    { intros x Hx. apply Hq. rewrite <- Hp. set_solver. }
    clear Hp Hq. induction K as [|x K IH]; [simpl; lia|].
    rewrite fmap_cons, sumZ_cons, (HqK x), IH by set_solver. simpl. lia. }
  assert (q ≤ limit / Z.of_nat (length K)); [|specialize (Hq t HtS); lia].
  destruct K; [done|]. apply Z.div_le_lower_bound; simpl in *; lia.
Qed.

Lemma phan_bo_uniform_minimum_witness : 1380 ≤ 1500.
Proof.
  apply (phan_bo_uniform_minimum 3000
    [mkDemand 1 100 7000 7000 1380; mkDemand 2 200 0 22000 1380; mkDemand 3 300 6500 11000 1380]
    1380) with (s := mkDemand 1 100 7000 7000 1380).
  - literal_sessions.
  - lia.
  - intros s Hs; repeat (apply elem_of_cons in Hs as [->|Hs]; [split; vm_compute; congruence|]);
      by apply elem_of_nil in Hs.
  - set_solver.
  - vm_compute. reflexivity.
Defined.

(** Preemption is last in, first out and no wider than needed: under a
    positive limit the sessions split into a preempted and a served part, the
    preempted ones are listed newest first and each is at least as recent as
    every served one, the served minimums fit the limit, and keeping any
    preempted session together with all the older ones would exceed it. *)
Theorem phan_bo_lifo limit sessions :
  well_formed sessions → 0 < limit →
  ∃ dropped kept,
    dropped ++ kept ≡ₚ sessions ∧
    to_preempt (phan_bo_cong_suat limit sessions) = session_id <$> dropped ∧
    StronglySorted newer dropped ∧
    Forall (λ d, Forall (newer d) kept) dropped ∧
    (kept = [] ∨ sum_min kept ≤ limit) ∧
    ∀ before d after, dropped = before ++ d :: after → limit < sum_min (d :: after ++ kept).
Proof.
  intros Hwf Hl. destruct (phan_bo_outcome limit sessions Hwf)
    as (D & K & m & Hp & Hpre & _ & _ & _ & _ & _ & Hlifo).
  exists D, K. destruct (Hlifo Hl) as (? & ? & ? & ?). split_and!; done.
Qed.

Lemma phan_bo_lifo_witness :
  ∃ dropped kept : list SessionDemand,
    dropped ++ kept ≡ₚ [mkDemand 1 100 7000 7000 1380; mkDemand 2 200 0 22000 1380] ∧
    [2] = session_id <$> dropped ∧ (kept = [] ∨ sum_min kept ≤ 2000).
Proof.
  destruct (phan_bo_lifo 2000 [mkDemand 1 100 7000 7000 1380; mkDemand 2 200 0 22000 1380])
    as (D & K & Hp & Hpre & _ & _ & Hfit & _).
  - literal_sessions.
  - lia.
  - exists D, K. split; [exact Hp|]. split; [|exact Hfit]. rewrite <- Hpre. vm_compute. reflexivity.
Defined.

(** The targets are classified by the direction of the change, so that
    reductions can be applied before any increase: a target listed as a
    decrease is below the session's current power, one listed as an increase
    is above it, one listed as unchanged equals it, and no session is listed
    twice. *)
Theorem phan_bo_classified limit sessions s w :
  well_formed sessions → s ∈ sessions →
  let r := phan_bo_cong_suat limit sessions in
  (to_decrease r !! session_id s = Some w →
     w < current_w s ∧ to_increase r !! session_id s = None ∧ unchanged r !! session_id s = None) ∧
  (to_increase r !! session_id s = Some w →
     current_w s < w ∧ to_decrease r !! session_id s = None ∧ unchanged r !! session_id s = None) ∧
  (unchanged r !! session_id s = Some w →
     w = current_w s ∧ to_decrease r !! session_id s = None ∧ to_increase r !! session_id s = None).
Proof.
  intros Hwf Hs r. destruct (phan_bo_outcome limit sessions Hwf)
    as (D & K & m & Hp & _ & Htgt & Hdom & _ & HK & _).
  fold r in Htgt, HK. assert (K = [] → target_of r (session_id s) = None) as Hnil.
  { intros ->. rewrite Htgt. apply eq_None_not_Some. rewrite Hdom. set_solver. }
  destruct K as [|k0 K0].
  { specialize (Hnil eq_refl). unfold target_of in Hnil. repeat case_match; naive_solver. }
  destruct (HK ltac:(done)) as (_ & _ & Hd & Hi & Hu & _).
  assert (∀ t, t ∈ k0 :: K0 → session_id t = session_id s → t = s) as Hinj.
  { intros t Ht Heq. apply (ids_inj sessions); [apply Hwf| |done|done]. rewrite <- Hp. set_solver. }
  assert (∀ w', to_decrease r !! session_id s = Some w' → w' = power_of m s ∧ w' < current_w s) as H1.
  { intros w' Hw. destruct (Hd _ _ Hw) as (t & Ht & Heq & -> & Hlt).
    by apply Hinj in Heq as ->. }
  assert (∀ w', to_increase r !! session_id s = Some w' → w' = power_of m s ∧ current_w s < w') as H2.
  { intros w' Hw. destruct (Hi _ _ Hw) as (t & Ht & Heq & -> & Hlt).
    by apply Hinj in Heq as ->. }
  assert (∀ w', unchanged r !! session_id s = Some w' → w' = power_of m s ∧ w' = current_w s) as H3.
  { intros w' Hw. destruct (Hu _ _ Hw) as (t & Ht & Heq & -> & Hlt).
    by apply Hinj in Heq as ->. }
  destruct (to_decrease r !! session_id s) as [a|] eqn:Ea,
    (to_increase r !! session_id s) as [b|] eqn:Eb,
    (unchanged r !! session_id s) as [c|] eqn:Ec;
    try specialize (H1 _ eq_refl); try specialize (H2 _ eq_refl); try specialize (H3 _ eq_refl).
  all: split_and!; intros; simplify_eq; destruct_and?; split_and?; done || lia.
Qed.

Lemma phan_bo_classified_witness : 6666 < 7000.
Proof.
  pose (ss := [mkDemand 1 100 7000 7000 1380; mkDemand 2 200 0 22000 1380; mkDemand 3 300 6500 11000 1380]).
  apply (proj1 (phan_bo_classified 20000 ss (mkDemand 1 100 7000 7000 1380) 6666
    ltac:(literal_sessions) ltac:(set_solver))).
  vm_compute. reflexivity.
Defined.

