(* ===== verification/Clock.v ===== *)
(** * Clock: instants, station time zones and calendar dates

    An aware [datetime] is an instant: microseconds since the epoch. A calendar
    date is the number of days since the epoch. The tz database behind
    [zoneinfo.ZoneInfo] is data outside the repository, so a zone is a
    parameter: the offset in force at an instant ([utcoffset]) and the instant
    of a wall-clock time ([local_instant], what
    [datetime.combine(..., tzinfo=tz)] denotes).

    Comparisons and differences are those of instants. Python does this between
    datetimes of different zones; between two datetimes of the same zone it
    compares and subtracts wall clocks, which is the same thing when the zone
    keeps one offset. Theorems that depend on the zone assume that
    ([fixed_offset], as for the default station zone Asia/Ho_Chi_Minh). *)

From S2P Require Import Prelude.

Record Zone := mkZone {
  utcoffset : Z → Z;
  local_instant : Z → Z;
}.

Definition second_us : Z := 1000000.
Definition day_us : Z := 86400 * second_us.

(** [at.astimezone(tz).date()] *)
Definition local_date (tz : Zone) (t : Z) : Z := (t + utcoffset tz t) / day_us.

(** [datetime.combine(d, time(...), tzinfo=tz)], the time in microseconds *)
Definition combine (tz : Zone) (d us : Z) : Z := local_instant tz (d * day_us + us).

(** The zone keeps one offset. *)
Record fixed_offset (tz : Zone) (o : Z) : Prop := mkFixed {
  fixed_utcoffset : ∀ t, utcoffset tz t = o;
  fixed_local_instant : ∀ w, local_instant tz w = w - o;
}.

Definition ho_chi_minh : Zone :=
  mkZone (λ _, 7 * 3600 * second_us) (λ w, w - 7 * 3600 * second_us).

Lemma ho_chi_minh_fixed : fixed_offset ho_chi_minh (7 * 3600 * second_us).
Proof. by split. Qed.

Section zone.
Context (tz : Zone) (o : Z) (Hz : fixed_offset tz o).

Lemma combine_fixed d us : combine tz d us = d * day_us + us - o.
Proof. unfold combine. by rewrite (fixed_local_instant _ _ Hz). Qed.

Lemma local_date_fixed t : local_date tz t = (t + o) / day_us.
Proof. unfold local_date. by rewrite (fixed_utcoffset _ _ Hz). Qed.

Lemma local_date_iff t d : local_date tz t = d ↔ combine tz d 0 ≤ t < combine tz (d + 1) 0.
Proof.
  rewrite local_date_fixed, !combine_fixed.
  change day_us with 86400000000. split.
  - intros <-. pose proof (Z.div_mod (t + o) 86400000000 ltac:(lia)).
    pose proof (Z.mod_pos_bound (t + o) 86400000000 ltac:(lia)). lia.
  - intros H. symmetry. apply Z.div_unique_pos with (t + o - d * 86400000000); lia.
Qed.

Lemma local_date_mono t t' : t ≤ t' → local_date tz t ≤ local_date tz t'.
Proof. intros H. rewrite !local_date_fixed. apply Z.div_le_mono; unfold day_us, second_us; lia. Qed.
End zone.
