(* ===== verification/Segmentation.v ===== *)
(** * Segmentation: cutting a charging session at tariff boundaries

    Models [src/src/modules/billing/segmentation.py]. A meter reading is an
    exact number of micro-watt-hours, the resolution of the [Numeric(24,6)]
    columns it comes from, so a Python [Decimal] reading [x] is [x * 10^6]. *)

From S2P Require Import Prelude Money Bands Clock.

(** ** Data *)

Record MeterValue := mkMeter { mv_timestamp : Z; energy_uwh : Z }.

Record TariffFrame := mkFrame {
  start_time : string;
  end_time : string;
  price_vnd_per_kwh : Z;
  tariff_version : string;
  frame_label : string;
}.

Record Segment := mkSegment {
  seg_local_date : Z;
  seg_start : Z;
  seg_end : Z;
  energy_consumed_uwh : Z;
  seg_price : Z;
  amount_vnd : Z;
  seg_tariff_version : string;
  seg_frame_label : string;
  start_interpolated : bool;
  end_interpolated : bool;
}.

(** Each is a [ValueError] (or an [IndexError], for a time without a colon). *)
Inductive SegErr :=
  | EmptyReadings | OutsideReadings | ReadingDecreased | NotInterpolated
  | SegmentDecreased | BadTime | AmountError.

(** ** Interpolation *)

Definition uwh_per_wh : Z := 1000000.

(** The linear interpolation between two readings, rounded to whole Wh half
    away from zero and kept inside the interval of the readings. *)
Definition interpolate_between (a b : MeterValue) (target_time : Z) : Z :=
  let elapsed := target_time - mv_timestamp a in
  let duration := mv_timestamp b - mv_timestamp a in
  let numerator := energy_uwh a * duration + (energy_uwh b - energy_uwh a) * elapsed in
  let rounded := round_half_up numerator (uwh_per_wh * duration) in
  Z.min (energy_uwh b) (Z.max (energy_uwh a) (rounded * uwh_per_wh)).

(** The loop over [enumerate(meter_values)]; [prev] is [meter_values[i - 1]]. *)
Fixpoint scan_readings (target_time : Z) (prev : MeterValue) (l : list MeterValue)
  : SegErr + (Z * bool) :=
  match l with
  | [] => inl NotInterpolated
  | mv :: rest =>
      if mv_timestamp mv =? target_time then inr (energy_uwh mv, false)
      else if target_time <? mv_timestamp mv then
        if energy_uwh mv <? energy_uwh prev then inl ReadingDecreased
        else inr (interpolate_between prev mv target_time, true)
      else scan_readings target_time mv rest
  end.

Definition interpolate_meter_value (target_time : Z) (meter_values : list MeterValue)
  : SegErr + (Z * bool) :=
  match meter_values, last meter_values with
  | first :: _, Some final =>
      if (target_time <? mv_timestamp first) || (mv_timestamp final <? target_time)
      then inl OutsideReadings
      else scan_readings target_time first meter_values
  | _, _ => inl EmptyReadings
  end.

(** ** Frame times *)

Definition is_digit (c : Ascii.ascii) : option Z :=
  let n := Z.of_nat (Ascii.nat_of_ascii c) in
  if (48 <=? n) && (n <=? 57) then Some (n - 48) else None.

(** [list(map(int, s.split(":")))] on decimal digits. *)
Fixpoint parse_parts (s : string) (acc : option Z) : option (list Z) :=
  match s with
  | EmptyString => match acc with Some n => Some [n] | None => None end
  | String c s' =>
      if decide (c = Ascii.ascii_of_nat 58)
      then match acc, parse_parts s' None with
           | Some n, Some l => Some (n :: l) | _, _ => None end
      else match is_digit c with
           | Some d => parse_parts s' (Some (default 0 acc * 10 + d))
           | None => None
           end
  end.

Definition parse_hms (s : string) : SegErr + (Z * Z * Z) :=
  match parse_parts s None with
  | Some (h :: m :: rest) => inr (h, m, default 0 (head rest))
  | _ => inl BadTime
  end.

(** [time(h, m, s)] *)
Definition time_us (h m s : Z) : SegErr + Z :=
  if (h <? 24) && (m <? 60) && (s <? 60)
  then inr ((h * 3600 + m * 60 + s) * second_us) else inl BadTime.

Definition frame_start (tz : Zone) (d : Z) (tf : TariffFrame) : SegErr + Z :=
  '(h, m, s) ← parse_hms (start_time tf);
  us ← time_us h m s;
  mret (combine tz d us).

Definition frame_end (tz : Zone) (d : Z) (tf : TariffFrame) : SegErr + Z :=
  '(h, m, s) ← parse_hms (end_time tf);
  if h =? 24 then mret (combine tz (d + 1) 0)
  else us ← time_us h m s; mret (combine tz d us).

Definition frame_bounds (tz : Zone) (d : Z) (tf : TariffFrame) : SegErr + (Z * Z) :=
  st ← frame_start tz d tf; et ← frame_end tz d tf; mret (st, et).

(** ** Cut points *)

Definition inside (session_start session_end t : Z) : list Z :=
  if (session_start <? t) && (t <? session_end) then [t] else [].

Fixpoint frame_cuts (tz : Zone) (session_start session_end d : Z) (frames : list TariffFrame)
  : SegErr + list Z :=
  match frames with
  | [] => mret []
  | tf :: rest =>
      '(st, et) ← frame_bounds tz d tf;
      cuts ← frame_cuts tz session_start session_end d rest;
      mret (inside session_start session_end st ++ inside session_start session_end et ++ cuts)
  end.

(** [while current_date <= end_date]: [n] days starting at [d]. *)
Fixpoint day_cuts (tz : Zone) (daily_tariffs : gmap Z (list TariffFrame))
    (session_start session_end d : Z) (n : nat) : SegErr + list Z :=
  match n with
  | O => mret []
  | S n' =>
      cuts ← frame_cuts tz session_start session_end d (default [] (daily_tariffs !! d));
      more ← day_cuts tz daily_tariffs session_start session_end (d + 1) n';
      mret (inside session_start session_end (combine tz d 0) ++ cuts ++ more)
  end.

(** ** Segments *)

(** [(b - a) / 2] on [timedelta]: to the microsecond, halves to even. *)
Definition half_even (d : Z) : Z :=
  let q := d / 2 in
  if Z.even d then q else if Z.even q then q else q + 1.

Fixpoint find_frame (tz : Zone) (d mid_point : Z) (frames : list TariffFrame)
  : SegErr + option TariffFrame :=
  match frames with
  | [] => mret None
  | tf :: rest =>
      '(st, et) ← frame_bounds tz d tf;
      if (st <=? mid_point) && (mid_point <? et) then mret (Some tf)
      else find_frame tz d mid_point rest
  end.

Definition price_segment (energy_uwh price : Z) : SegErr + Z :=
  match tien_dong (PyDecimal (mkDecimal energy_uwh (-6))) (PyInt price) with
  | inr a => inr a
  | inl _ => inl AmountError
  end.

Definition make_segment (tz : Zone) (meter_values : list MeterValue)
    (daily_tariffs : gmap Z (list TariffFrame)) (s e : Z) : SegErr + list Segment :=
  let mid_point := s + half_even (e - s) in
  let d := local_date tz mid_point in
  applied ← find_frame tz d mid_point (default [] (daily_tariffs !! d));
  match applied with
  | None => mret []
  | Some tf =>
      '(start_wh, start_interp) ← interpolate_meter_value s meter_values;
      '(end_wh, end_interp) ← interpolate_meter_value e meter_values;
      let consumed := end_wh - start_wh in
      if consumed <? 0 then inl SegmentDecreased
      else if consumed =? 0 then mret []
      else
        amount ← price_segment consumed (price_vnd_per_kwh tf);
        mret [mkSegment d s e consumed (price_vnd_per_kwh tf) amount
                (tariff_version tf) (frame_label tf) start_interp end_interp]
  end.

Fixpoint make_segments (tz : Zone) (meter_values : list MeterValue)
    (daily_tariffs : gmap Z (list TariffFrame)) (gaps : list (Z * Z)) : SegErr + list Segment :=
  match gaps with
  | [] => mret []
  | (s, e) :: rest =>
      seg ← make_segment tz meter_values daily_tariffs s e;
      more ← make_segments tz meter_values daily_tariffs rest;
      mret (seg ++ more)
  end.

Definition session_cuts (tz : Zone) (daily_tariffs : gmap Z (list TariffFrame))
    (session_start session_end : Z) : SegErr + list Z :=
  let first := local_date tz session_start in
  let final := local_date tz session_end in
  cuts ← day_cuts tz daily_tariffs session_start session_end first (Z.to_nat (final - first + 1));
  mret (sorted_set (session_start :: session_end :: cuts)).

Definition chia_doan (session_start session_end : Z) (meter_values : list MeterValue)
    (daily_tariffs : gmap Z (list TariffFrame)) (tz : Zone) : SegErr + list Segment :=
  if session_end <=? session_start then mret []
  else
    points ← session_cuts tz daily_tariffs session_start session_end;
    make_segments tz meter_values daily_tariffs (pairwise points).

(** ** Totals by local day *)

Record DayGroup := mkDay {
  day_date : Z;
  day_segments : list Segment;
  total_energy_uwh : Z;
  total_amount_vnd : Z;
}.

Definition add_to_day (result : gmap Z DayGroup) (seg : Segment) : gmap Z DayGroup :=
  let d := seg_local_date seg in
  let g := default (mkDay d [] 0 0) (result !! d) in
  <[d := mkDay (day_date g) (day_segments g ++ [seg])
           (total_energy_uwh g + energy_consumed_uwh seg)
           (total_amount_vnd g + amount_vnd seg)]> result.

Definition tinh_tien_theo_ngay (session_start session_end : Z) (meter_values : list MeterValue)
    (daily_tariffs : gmap Z (list TariffFrame)) (tz : Zone) : SegErr + gmap Z DayGroup :=
  segments ← chia_doan session_start session_end meter_values daily_tariffs tz;
  mret (foldl add_to_day ∅ segments).

Definition demo_tariffs : gmap Z (list TariffFrame) :=
  {[ 0 := [mkFrame "00:00" "06:00" 1000 "t" "dem"; mkFrame "06:00" "24:00" 3000 "t" "ngay"];
     1 := [mkFrame "00:00" "06:00" 1000 "t" "dem"; mkFrame "06:00" "24:00" 3000 "t" "ngay"] ]}.

Definition hours (h : Z) : Z := h * 3600 * second_us.

Example chia_doan_ex1 :
  match chia_doan (hours (-2)) (hours 1)
    [mkMeter (hours (-2)) 0; mkMeter (hours 1) 3000000] demo_tariffs ho_chi_minh with
  | inr l => (λ s, (seg_local_date s, energy_consumed_uwh s, amount_vnd s)) <$> l
  | inl _ => []
  end = [(0, 1000000, 1); (0, 2000000, 6)].
Proof. vm_compute. reflexivity. Qed.

(** ** Readings that grow with time *)

Definition earlier (a b : MeterValue) : Prop :=
  mv_timestamp a < mv_timestamp b ∧ energy_uwh a ≤ energy_uwh b.

Definition readings_ok (l : list MeterValue) : Prop := StronglySorted earlier l.

(** The value of the piecewise linear, rounded reading at an instant. *)
Definition value_at (l : list MeterValue) (t v : Z) : Prop :=
  (∃ m, m ∈ l ∧ mv_timestamp m = t ∧ v = energy_uwh m) ∨
  (∃ a b, (a, b) ∈ pairwise l ∧ mv_timestamp a < t < mv_timestamp b ∧
     v = interpolate_between a b t).

Lemma interpolate_between_bounds a b t :
  energy_uwh a ≤ energy_uwh b → energy_uwh a ≤ interpolate_between a b t ≤ energy_uwh b.
Proof. unfold interpolate_between. lia. Qed.

Lemma interpolate_between_mono a b t t' :
  earlier a b → t ≤ t' → interpolate_between a b t ≤ interpolate_between a b t'.
Proof.
  intros [Ht He] Htt. unfold interpolate_between.
  assert (∀ x y, x ≤ y → Z.min (energy_uwh b) (Z.max (energy_uwh a) (x * uwh_per_wh)) ≤
    Z.min (energy_uwh b) (Z.max (energy_uwh a) (y * uwh_per_wh))) as Hclamp.
  { intros x y. unfold uwh_per_wh. lia. }
  apply Hclamp, round_half_up_mono; unfold uwh_per_wh; nia.
Qed.

Lemma readings_sorted_time l :
  readings_ok l → StronglySorted (λ a b, mv_timestamp a < mv_timestamp b) l.
Proof. apply StronglySorted_weaken. by intros x y []. Qed.

Lemma readings_energy_mono l a b :
  readings_ok l → a ∈ l → b ∈ l → mv_timestamp a ≤ mv_timestamp b → energy_uwh a ≤ energy_uwh b.
Proof.
  intros Hl Ha Hb Hab. destruct (StronglySorted_trichotomy _ _ _ _ Hl Ha Hb)
    as [->|[[? ?]|[? ?]]]; lia.
Qed.

(** Two adjacent pairs are the same pair or do not overlap. *)
Lemma pairs_separate l a b c d :
  readings_ok l → (a, b) ∈ pairwise l → (c, d) ∈ pairwise l →
  (a = c ∧ b = d) ∨ mv_timestamp b ≤ mv_timestamp c ∨ mv_timestamp d ≤ mv_timestamp a.
Proof.
  intros Hl Hab Hcd. pose proof (readings_sorted_time l Hl) as Ht.
  destruct (elem_of_pairwise_1 _ _ _ Hab) as [Ha Hb].
  destruct (elem_of_pairwise_1 _ _ _ Hcd) as [Hc Hd].
  pose proof (pairwise_related _ _ _ _ Ht Hab). pose proof (pairwise_related _ _ _ _ Ht Hcd).
  pose proof (pairwise_adjacent_key _ _ _ _ c Ht Hab Hc).
  pose proof (pairwise_adjacent_key _ _ _ _ d Ht Hab Hd).
  pose proof (pairwise_adjacent_key _ _ _ _ a Ht Hcd Ha).
  pose proof (pairwise_adjacent_key _ _ _ _ b Ht Hcd Hb).
  destruct (StronglySorted_trichotomy _ _ _ _ Ht Ha Hc) as [->|[?|?]]; [|lia|lia].
  destruct (StronglySorted_trichotomy _ _ _ _ Ht Hb Hd) as [->|[?|?]]; [auto|lia|lia].
Qed.

Lemma value_at_mono l t t' v v' :
  readings_ok l → value_at l t v → value_at l t' v' → t ≤ t' → v ≤ v'.
Proof.
  intros Hl Hv Hv' Htt. pose proof (readings_sorted_time l Hl) as Hs.
  assert (∀ a b u, (a, b) ∈ pairwise l → energy_uwh a ≤ interpolate_between a b u ≤ energy_uwh b) as Hb.
  { intros a b u Hab. apply interpolate_between_bounds.
    by apply (pairwise_related _ _ _ _ Hl) in Hab as [_ ?]. }
  destruct Hv as [(m & Hm & Ht & ->)|(a & b & Hab & Ht & ->)],
    Hv' as [(m' & Hm' & Ht' & ->)|(a' & b' & Hab' & Ht' & ->)].
  - apply (readings_energy_mono l); [done|done|done|lia].
  - pose proof (pairwise_adjacent_key _ _ _ _ m Hs Hab' Hm). specialize (Hb a' b' t' Hab').
    destruct (elem_of_pairwise_1 _ _ _ Hab') as [Ha' _].
    assert (energy_uwh m ≤ energy_uwh a') by (apply (readings_energy_mono l); [done|done|done|lia]). lia.
  - pose proof (pairwise_adjacent_key _ _ _ _ m' Hs Hab Hm'). specialize (Hb a b t Hab).
    destruct (elem_of_pairwise_1 _ _ _ Hab) as [_ Hb'].
    assert (energy_uwh b ≤ energy_uwh m') by (apply (readings_energy_mono l); [done|done|done|lia]). lia.
  - destruct (pairs_separate l a b a' b' Hl Hab Hab') as [[-> ->]|[Hlt|Hlt]]; [|specialize (Hb a b t Hab) as Hb1; specialize (Hb a' b' t' Hab')|lia].
    + apply interpolate_between_mono; [|done]. by apply (pairwise_related _ _ _ _ Hl).
    + destruct (elem_of_pairwise_1 _ _ _ Hab) as [_ Hbl], (elem_of_pairwise_1 _ _ _ Hab') as [Hal _].
      assert (energy_uwh b ≤ energy_uwh a') by (apply (readings_energy_mono l); [done|done|done|lia]). lia.
Qed.

Lemma value_at_cons a l t v : value_at l t v → value_at (a :: l) t v.
Proof.
  intros [(m & ? & ? & ?)|(x & y & Hxy & ? & ?)]; [left; exists m; set_solver|].
  right. exists x, y. split_and!; try done; try lia. destruct l; [set_solver|]. by right.
Qed.

Lemma scan_readings_spec t prev l final :
  readings_ok (prev :: l) → mv_timestamp prev < t →
  last (prev :: l) = Some final → t ≤ mv_timestamp final →
  ∃ v i, scan_readings t prev l = inr (v, i) ∧ value_at (prev :: l) t v.
Proof.
  revert prev. induction l as [|mv l IH]; intros prev Hl Hlt Hlast Hle.
  { injection Hlast as ->. lia. }
  inversion Hl as [|?? Hl' Hp]; subst. inversion Hp as [|?? [Htp Hep] _]; subst.
  cbn [scan_readings]. destruct (Z.eqb_spec (mv_timestamp mv) t) as [Heq|Hne].
  { eexists _, _. split; [done|]. left. exists mv. set_solver. }
  destruct (Z.ltb_spec t (mv_timestamp mv)).
  { rewrite (proj2 (Z.ltb_ge _ _) Hep). eexists _, _. split; [done|]. right.
    exists prev, mv. split_and!; [by left|lia|lia|done]. }
  destruct (IH mv Hl' ltac:(lia)) as (v & i & Hv & Hat); [done|done|].
  exists v, i. split; [done|]. by apply value_at_cons.
Qed.

(** Within the readings, interpolation succeeds with the piecewise value. *)
Lemma interpolate_total l first final t :
  readings_ok l → head l = Some first → last l = Some final →
  mv_timestamp first ≤ t ≤ mv_timestamp final →
  ∃ v i, interpolate_meter_value t l = inr (v, i) ∧ value_at l t v.
Proof.
  intros Hl Hfirst Hfinal Ht. destruct l as [|a l]; [done|]. injection Hfirst as ->.
  unfold interpolate_meter_value. rewrite Hfinal.
  destruct (Z.ltb_spec t (mv_timestamp first)), (Z.ltb_spec (mv_timestamp final) t); try lia.
  simpl. destruct (Z.eqb_spec (mv_timestamp first) t) as [Heq|Hne].
  { eexists _, _. split; [done|]. left. exists first. set_solver. }
  destruct (Z.ltb_spec t (mv_timestamp first)); [lia|].
  apply scan_readings_spec with final; done || lia.
Qed.

(** The reading at an instant, as a function. *)
Definition meter_at (l : list MeterValue) (t : Z) : Z :=
  match interpolate_meter_value t l with inr (v, _) => v | inl _ => 0 end.

Lemma value_at_reading l m : readings_ok l → m ∈ l → value_at l (mv_timestamp m) (energy_uwh m).
Proof. intros Hl Hm. left. by exists m. Qed.

Lemma value_at_unique l t v v' : readings_ok l → value_at l t v → value_at l t v' → v = v'.
Proof. intros Hl H1 H2. apply Z.le_antisymm; eapply value_at_mono; eauto; lia. Qed.

(** Interpolated readings are monotone and stay inside the source
    readings: for readings sorted by time with nondecreasing energy, any two
    instants between the first and the last reading get values in the order of
    the instants, between the first and the last energy, and an instant that
    carries a reading gets exactly that reading. *)
Theorem interpolate_meter_value_monotone l first final t t' :
  readings_ok l → head l = Some first → last l = Some final →
  mv_timestamp first ≤ t → t ≤ t' → t' ≤ mv_timestamp final →
  ∃ v i v' i',
    interpolate_meter_value t l = inr (v, i) ∧ interpolate_meter_value t' l = inr (v', i') ∧
    energy_uwh first ≤ v ≤ v' ∧ v' ≤ energy_uwh final ∧
    (∀ m, m ∈ l → mv_timestamp m = t → v = energy_uwh m).
Proof.
  intros Hl Hf Hlast H1 H2 H3.
  destruct (interpolate_total l first final t) as (v & i & Hv & Hat); [done|done|done|lia|].
  destruct (interpolate_total l first final t') as (v' & i' & Hv' & Hat'); [done|done|done|lia|].
  exists v, i, v', i'. assert (first ∈ l) by (by apply head_Some_elem_of).
  assert (final ∈ l) by (by apply last_Some_elem_of).
  pose proof (value_at_reading l first Hl ltac:(done)). pose proof (value_at_reading l final Hl ltac:(done)).
  split_and!; [done|done|eapply value_at_mono; eauto|eapply value_at_mono; eauto|eapply value_at_mono; eauto|].
  intros m Hm <-. eapply value_at_unique; eauto. by apply value_at_reading.
Qed.

Lemma interpolate_meter_value_monotone_witness :
  ∃ v i v' i',
    interpolate_meter_value 10 [mkMeter 0 0; mkMeter 30 7000000; mkMeter 60 7000000] = inr (v, i) ∧
    interpolate_meter_value 40 [mkMeter 0 0; mkMeter 30 7000000; mkMeter 60 7000000] = inr (v', i') ∧
    v ≤ v'.
Proof.
  destruct (interpolate_meter_value_monotone [mkMeter 0 0; mkMeter 30 7000000; mkMeter 60 7000000]
    (mkMeter 0 0) (mkMeter 60 7000000) 10 40) as (v & i & v' & i' & H1 & H2 & [_ H3] & _).
  - repeat constructor; simpl; lia.
  - reflexivity.
  - reflexivity.
  - simpl. lia.
  - lia.
  - simpl. lia.
  - exists v, i, v', i'. split; [exact H1|]. split; [exact H2|exact H3].
Defined.

(** ** Frames that tile the day *)

(** [parse_hms] reads back every minute that [_clock] prints. *)
Lemma parse_clock m : 0 ≤ m ≤ 1440 → parse_hms (_clock m) = inr (m / 60, m mod 60, 0).
Proof.
  intros Hm.
  assert (forallb (λ m, match parse_hms (_clock m) with
    | inr (h, n, r) => (h =? m / 60) && (n =? m mod 60) && (r =? 0)
    | inl _ => false end) (seqZ 0 1441) = true) as Hall by (vm_compute; reflexivity).
  rewrite forallb_forall in Hall. specialize (Hall m).
  rewrite <- list_elem_of_In, elem_of_seqZ in Hall. specialize (Hall ltac:(lia)).
  destruct (parse_hms (_clock m)) as [|[[h n] r]]; [done|]. do 3 f_equal; lia.
Qed.

(** The frames written for one day: consecutive, from minute [s] to [e]. *)
Fixpoint frames_tile (s e : Z) (frames : list TariffFrame) : Prop :=
  match frames with
  | [] => s = e
  | tf :: rest => ∃ m, start_time tf = _clock s ∧ end_time tf = _clock m ∧
                       0 ≤ s < m ∧ m ≤ 1440 ∧ frames_tile m e rest
  end.

Section tiling.
Context (tz : Zone) (o : Z) (Hz : fixed_offset tz o).

Definition minute_instant (d m : Z) : Z := combine tz d (m * minute_us).

Lemma minute_instant_fixed d m : minute_instant d m = d * day_us + m * minute_us - o.
Proof. unfold minute_instant. by rewrite (combine_fixed tz o Hz). Qed.

Lemma frame_bounds_clock d tf s m :
  start_time tf = _clock s → end_time tf = _clock m → 0 ≤ s < m → m ≤ 1440 →
  frame_bounds tz d tf = inr (minute_instant d s, minute_instant d m).
Proof.
  intros Hs Hm H1 H2. unfold frame_bounds, frame_start, frame_end.
  rewrite Hs, Hm, !parse_clock by lia. unfold mbind, sum_bind, mret, sum_ret, time_us.
  assert (∀ k, 0 ≤ k → 0 ≤ k mod 60 < 60 ∧ k = 60 * (k / 60) + k mod 60) as Hdm.
  { intros k Hk. pose proof (Z.mod_pos_bound k 60). pose proof (Z.div_mod k 60). lia. }
  destruct (Hdm s ltac:(lia)) as [? Hs']. destruct (Hdm m ltac:(lia)) as [? Hm'].
  assert (s / 60 < 24) by lia.
  rewrite (proj2 (Z.ltb_lt (s / 60) 24)), (proj2 (Z.ltb_lt (s mod 60) 60)) by lia. simpl.
  assert ((s / 60 * 3600 + s mod 60 * 60 + 0) * second_us = s * minute_us) as ->.
  { unfold second_us, minute_us. lia. }
  destruct (Z.eqb_spec (m / 60) 24) as [E|E].
  - assert (m = 1440) as -> by lia. do 2 f_equal. rewrite minute_instant_fixed, (combine_fixed tz o Hz).
    unfold day_us, minute_us, second_us. lia.
  - rewrite (proj2 (Z.ltb_lt (m / 60) 24)), (proj2 (Z.ltb_lt (m mod 60) 60)) by lia. simpl.
    do 2 f_equal. unfold minute_instant. f_equal. unfold second_us, minute_us. lia.
Qed.

(** Where a tiling of [[s, e)] puts an instant, [find_frame] finds its frame. *)
Lemma find_frame_tiled d frames s e t :
  frames_tile s e frames → minute_instant d s ≤ t < minute_instant d e →
  ∃ tf st et, find_frame tz d t frames = inr (Some tf) ∧ tf ∈ frames ∧
    frame_bounds tz d tf = inr (st, et) ∧ st ≤ t < et.
Proof.
  revert s. induction frames as [|tf rest IH]; intros s; simpl.
  { intros -> ?. lia. }
  intros (m & Hs & Hm & H1 & H2 & Hrest) Ht.
  pose proof (frame_bounds_clock d tf s m Hs Hm H1 H2) as Hb. rewrite Hb. simpl.
  destruct (Z.leb_spec (minute_instant d s) t), (Z.ltb_spec t (minute_instant d m)); try lia; simpl.
  - exists tf, (minute_instant d s), (minute_instant d m). split_and!; [done|by left|done|lia|lia].
  - destruct (IH m Hrest ltac:(lia)) as (tf' & st & et & Hf & Hin & Hb' & Ht').
    exists tf', st, et. split_and!; try done; try lia. by right.
Qed.

Lemma frame_cuts_tiled a b d frames s e :
  frames_tile s e frames →
  ∃ cuts, frame_cuts tz a b d frames = inr cuts ∧
    (∀ t, t ∈ cuts → a < t < b) ∧
    ∀ tf st et, tf ∈ frames → frame_bounds tz d tf = inr (st, et) →
      (a < st < b → st ∈ cuts) ∧ (a < et < b → et ∈ cuts).
Proof.
  assert (∀ t, t ∈ inside a b t ↔ a < t < b) as Hin.
  { intros t. unfold inside. destruct (Z.ltb_spec a t), (Z.ltb_spec t b); simpl; set_solver by lia. }
  assert (∀ t u, u ∈ inside a b t → a < u < b) as Hin'.
  { intros t u. unfold inside. destruct (Z.ltb_spec a t), (Z.ltb_spec t b); simpl; set_solver by lia. }
  revert s. induction frames as [|tf rest IH]; intros s; simpl.
  { intros _. exists []. set_solver. }
  intros (m & Hs & Hm & H1 & H2 & Hrest). pose proof (frame_bounds_clock d tf s m Hs Hm H1 H2) as Hb.
  rewrite Hb. destruct (IH m Hrest) as (cuts & Hc & Hr & Hall). simpl. rewrite Hc. simpl.
  eexists. split; [reflexivity|]. split.
  - intros t. rewrite !elem_of_app. naive_solver.
  - intros tf' st et [->|Htf]%elem_of_cons Hb'; rewrite !elem_of_app.
    + rewrite Hb in Hb'. injection Hb' as <- <-. rewrite !Hin. naive_solver.
    + destruct (Hall tf' st et Htf Hb'). naive_solver.
Qed.

Context (T : gmap Z (list TariffFrame)).
Context (HT : ∀ d frames, T !! d = Some frames → frames_tile 0 1440 frames).

Lemma elem_of_inside a b t u : u ∈ inside a b t ↔ u = t ∧ a < t < b.
Proof. unfold inside. destruct (Z.ltb_spec a t), (Z.ltb_spec t b); simpl; set_solver by lia. Qed.

Lemma day_cuts_tiled a b d n :
  ∃ cuts, day_cuts tz T a b d n = inr cuts ∧ (∀ t, t ∈ cuts → a < t < b) ∧
    ∀ d' frames tf st et, d ≤ d' < d + Z.of_nat n → T !! d' = Some frames → tf ∈ frames →
      frame_bounds tz d' tf = inr (st, et) →
      (a < st < b → st ∈ cuts) ∧ (a < et < b → et ∈ cuts).
Proof.
  revert d. induction n as [|n IH]; intros d; simpl.
  { exists []. split_and!; [done|set_solver|lia]. }
  assert (∃ cuts, frame_cuts tz a b d (default [] (T !! d)) = inr cuts ∧ (∀ t, t ∈ cuts → a < t < b) ∧
    ∀ frames tf st et, T !! d = Some frames → tf ∈ frames → frame_bounds tz d tf = inr (st, et) →
      (a < st < b → st ∈ cuts) ∧ (a < et < b → et ∈ cuts)) as (cuts & Hc & Hr & Hall).
  { destruct (T !! d) as [frames|] eqn:E; simpl; [|exists []; set_solver].
    destruct (frame_cuts_tiled a b d frames 0 1440 (HT _ _ E)) as (cuts & ? & ? & Hf).
    exists cuts. split_and!; [done|done|]. intros ???? [= <-]. apply Hf. }
  destruct (IH (d + 1)) as (more & Hm & Hr' & Hall'). rewrite Hc. simpl. rewrite Hm. simpl.
  eexists. split; [reflexivity|]. split.
  - intros t. rewrite !elem_of_app, elem_of_inside. naive_solver.
  - intros d' frames tf st et Hd Hf Htf Hb. rewrite !elem_of_app.
    destruct (decide (d' = d)) as [->|Hne].
    + destruct (Hall frames tf st et Hf Htf Hb). naive_solver.
    + destruct (Hall' d' frames tf st et ltac:(lia) Hf Htf Hb). naive_solver.
Qed.

Lemma price_segment_total e p :
  ∃ a, price_segment e p = inr a ∧ tien_dong (PyDecimal (mkDecimal e (-6))) (PyInt p) = inr a.
Proof. eexists. unfold price_segment. rewrite tien_dong_decimal. by split. Qed.

Lemma half_even_bounds d : 0 < d → 0 ≤ half_even d < d.
Proof.
  intros Hd. unfold half_even. pose proof (Z.div_mod d 2 ltac:(lia)) as Hdm.
  rewrite Zmod_even in Hdm. destruct (Z.even d); [lia|].
  destruct (Z.even (d / 2)) eqn:E; [lia|]. destruct (decide (d / 2 = 0)) as [Hq|]; [|lia].
  by rewrite Hq in E.
Qed.

(** A segment lies inside one tariff frame of its local day and is charged at
    that frame's price. *)
Definition segment_priced (seg : Segment) : Prop :=
  ∃ frames tf st et,
    T !! seg_local_date seg = Some frames ∧ tf ∈ frames ∧
    frame_bounds tz (seg_local_date seg) tf = inr (st, et) ∧
    st ≤ seg_start seg ∧ seg_start seg < seg_end seg ∧ seg_end seg ≤ et ∧
    seg_price seg = price_vnd_per_kwh tf ∧ seg_tariff_version seg = tariff_version tf ∧
    seg_frame_label seg = frame_label tf ∧ 0 < energy_consumed_uwh seg ∧
    tien_dong (PyDecimal (mkDecimal (energy_consumed_uwh seg) (-6)))
      (PyInt (price_vnd_per_kwh tf)) = inr (amount_vnd seg).

Context (l : list MeterValue) (first final : MeterValue).
Context (Hl : readings_ok l) (Hfirst : head l = Some first) (Hfinal : last l = Some final).

Lemma meter_at_mono t t' :
  mv_timestamp first ≤ t → t ≤ t' → t' ≤ mv_timestamp final → meter_at l t ≤ meter_at l t'.
Proof.
  intros H1 H2 H3. unfold meter_at.
  destruct (interpolate_total l first final t) as (v & i & -> & Hv); [done|done|done|lia|].
  destruct (interpolate_total l first final t') as (v' & i' & -> & Hv'); [done|done|done|lia|].
  eapply value_at_mono; eauto.
Qed.

Lemma meter_at_ends :
  mv_timestamp first ≤ mv_timestamp final →
  meter_at l (mv_timestamp first) = energy_uwh first ∧ meter_at l (mv_timestamp final) = energy_uwh final.
Proof.
  intros Hle. unfold meter_at.
  destruct (interpolate_total l first final (mv_timestamp first)) as (v & i & -> & Hv); [done|done|done|lia|].
  destruct (interpolate_total l first final (mv_timestamp final)) as (v' & i' & -> & Hv'); [done|done|done|lia|].
  split; eapply value_at_unique; eauto; apply value_at_reading; eauto using head_Some_elem_of, last_Some_elem_of.
Qed.

Lemma make_segment_ok s e :
  s < e → mv_timestamp first ≤ s → e ≤ mv_timestamp final →
  (∀ t, s ≤ t < e → is_Some (T !! local_date tz t)) →
  (∀ d frames tf st et, (∃ t, s ≤ t < e ∧ local_date tz t = d) → T !! d = Some frames → tf ∈ frames →
     frame_bounds tz d tf = inr (st, et) → (st ≤ s ∨ e ≤ st) ∧ (et ≤ s ∨ e ≤ et)) →
  ∃ segs, make_segment tz l T s e = inr segs ∧
    sumZ (energy_consumed_uwh <$> segs) = meter_at l e - meter_at l s ∧
    Forall (λ g, seg_start g = s ∧ seg_end g = e ∧ segment_priced g) segs.
Proof.
  intros Hse H1 H2 Hcov Hcut. unfold make_segment.
  pose proof (half_even_bounds (e - s) ltac:(lia)) as Hh.
  set (mid := s + half_even (e - s)). set (d := local_date tz mid).
  destruct (Hcov mid ltac:(lia)) as [frames Hf]. fold d in Hf. rewrite Hf. cbn [from_option]. unfold id.
  assert (minute_instant d 0 ≤ mid < minute_instant d 1440) as Hday.
  { pose proof (proj1 (local_date_iff tz o Hz mid d) eq_refl) as Hd. revert Hd.
    rewrite !minute_instant_fixed, !(combine_fixed tz o Hz).
    change day_us with 86400000000. change minute_us with 60000000. lia. }
  destruct (find_frame_tiled d frames 0 1440 mid (HT _ _ Hf) Hday) as (tf & st & et & Hfind & Htf & Hb & Hin).
  rewrite Hfind. cbn [mbind sum_bind].
  destruct (Hcut d frames tf st et) as [Hst Het]; [exists mid; split; [lia|done]|done|done|done|].
  pose proof (meter_at_mono s e H1 ltac:(lia) H2) as Hm. unfold meter_at in *.
  destruct (interpolate_total l first final s) as (v & i & Hv & _); [done|done|done|lia|].
  destruct (interpolate_total l first final e) as (v' & i' & Hv' & _); [done|done|done|lia|].
  rewrite Hv, Hv' in *. cbn [mbind sum_bind]. destruct (Z.ltb_spec (v' - v) 0); [lia|].
  destruct (Z.eqb_spec (v' - v) 0) as [Hzero|Hnz].
  { exists []. split_and!; [done|simpl; lia|done]. }
  destruct (price_segment_total (v' - v) (price_vnd_per_kwh tf)) as (a & Hp & Ha).
  rewrite Hp. simpl. eexists. split_and!; [reflexivity|simpl; lia|].
  repeat constructor. exists frames, tf, st, et. simpl. split_and!; try done; lia.
Qed.

Lemma make_segment_short s e seg : make_segment tz l T s e = inr seg → seg = [] ∨ ∃ g, seg = [g].
Proof.
  unfold make_segment. rewrite sum_bind_ok. intros ([tf|] & _ & Hk); [|injection Hk; auto].
  apply sum_bind_ok in Hk as ([v i] & _ & Hk). apply sum_bind_ok in Hk as ([v' i'] & _ & Hk).
  case_match; [done|]. case_match; [injection Hk; auto|].
  apply sum_bind_ok in Hk as (a & _ & Hk). injection Hk as <-. eauto.
Qed.

Lemma make_segments_ok pts a b :
  StronglySorted Z.lt pts → head pts = Some a → last pts = Some b →
  mv_timestamp first ≤ a → b ≤ mv_timestamp final →
  (∀ t, a ≤ t < b → is_Some (T !! local_date tz t)) →
  (∀ s e d frames tf st et, (s, e) ∈ pairwise pts → (∃ t, s ≤ t < e ∧ local_date tz t = d) →
     T !! d = Some frames → tf ∈ frames → frame_bounds tz d tf = inr (st, et) →
     (st ≤ s ∨ e ≤ st) ∧ (et ≤ s ∨ e ≤ et)) →
  ∃ segs, make_segments tz l T (pairwise pts) = inr segs ∧
    sumZ (energy_consumed_uwh <$> segs) = meter_at l b - meter_at l a ∧
    Forall (λ g, a ≤ seg_start g ∧ seg_end g ≤ b ∧ segment_priced g) segs ∧
    StronglySorted (λ g h, seg_end g ≤ seg_start h) segs.
Proof.
  intros Hs. revert a. induction Hs as [|x pts Hs IH Hx]; [done|].
  intros a [= ->] Hlast H1 H2 Hcov Hcut. destruct pts as [|y pts].
  { injection Hlast as ->. exists []. split_and!; [done|simpl; lia|done|constructor]. }
  inversion Hx as [|?? Hay Hxs]; subst. rewrite last_cons_cons in Hlast.
  assert (y ≤ b) as Hyb.
  { apply last_Some_elem_of in Hlast. apply elem_of_cons in Hlast as [->|Hb]; [lia|].
    inversion Hs as [|?? _ Hy]; subst. rewrite Forall_forall in Hy. specialize (Hy _ Hb). lia. }
  destruct (IH y) as (segs & Hsegs & Hsum & Hall & Hord); [done|done|lia|done| | |].
  { intros t Ht. apply Hcov. lia. }
  { intros s e d frames tf st et Hp. apply Hcut. by right. }
  destruct (make_segment_ok a y) as (seg & Hseg & Hsum' & Hone); [lia|lia|lia| | |].
  { intros t Ht. apply Hcov. lia. }
  { intros d frames tf st et. apply Hcut. by left. }
  cbn [pairwise make_segments]. rewrite Hseg. simpl in *. rewrite Hsegs. simpl.
  eexists. split_and!; [reflexivity|rewrite fmap_app, sumZ_app; lia| |].
  - apply Forall_app. split; eapply Forall_impl; eauto; simpl; naive_solver lia.
  - apply StronglySorted_app_2; [| |done].
    + intros g h Hg Hh. rewrite Forall_forall in Hone, Hall.
      destruct (Hone _ Hg) as (_ & -> & _), (Hall _ Hh) as (? & _). done.
    + by destruct (make_segment_short _ _ _ Hseg) as [->|[g ->]]; repeat constructor.
Qed.

(** The cut points of a session: strictly increasing, from its start to its
    end, with every frame boundary inside the session among them. *)
Lemma session_cuts_tiled a b :
  a < b →
  ∃ pts, session_cuts tz T a b = inr pts ∧ StronglySorted Z.lt pts ∧
    head pts = Some a ∧ last pts = Some b ∧
    ∀ d frames tf st et, local_date tz a ≤ d ≤ local_date tz b → T !! d = Some frames → tf ∈ frames →
      frame_bounds tz d tf = inr (st, et) → (a < st < b → st ∈ pts) ∧ (a < et < b → et ∈ pts).
Proof.
  intros Hab. unfold session_cuts.
  pose proof (local_date_mono tz o Hz a b ltac:(lia)) as Hd.
  destruct (day_cuts_tiled a b (local_date tz a) (Z.to_nat (local_date tz b - local_date tz a + 1)))
    as (cuts & -> & Hr & Hall).
  exists (sorted_set (a :: b :: cuts)). split_and!; [done|apply sorted_set_strict| | |].
  - apply StronglySorted_head_min; [apply sorted_set_strict|apply elem_of_sorted_set; set_solver|].
    intros y. rewrite elem_of_sorted_set, !elem_of_cons. naive_solver lia.
  - apply StronglySorted_last_max; [apply sorted_set_strict|apply elem_of_sorted_set; set_solver|].
    intros y. rewrite elem_of_sorted_set, !elem_of_cons. naive_solver lia.
  - intros d frames tf st et Hdd Hf Htf Hb. rewrite !elem_of_sorted_set, !elem_of_cons.
    destruct (Hall d frames tf st et ltac:(lia) Hf Htf Hb). naive_solver.
Qed.

Lemma chia_doan_tiled :
  mv_timestamp first < mv_timestamp final →
  (∀ t, mv_timestamp first ≤ t < mv_timestamp final → is_Some (T !! local_date tz t)) →
  ∃ segs, chia_doan (mv_timestamp first) (mv_timestamp final) l T tz = inr segs ∧
    sumZ (energy_consumed_uwh <$> segs) = energy_uwh final - energy_uwh first ∧
    Forall (λ g, mv_timestamp first ≤ seg_start g ∧ seg_end g ≤ mv_timestamp final ∧ segment_priced g) segs ∧
    StronglySorted (λ g h, seg_end g ≤ seg_start h) segs.
Proof.
  intros Hlt Hcov. unfold chia_doan. rewrite (proj2 (Z.leb_gt _ _) Hlt).
  destruct (session_cuts_tiled _ _ Hlt) as (pts & -> & Hs & Hh & Hlast & Hall).
  destruct (make_segments_ok pts _ _ Hs Hh Hlast) as (segs & Hsegs & Hsum & Hrest); [lia|lia|done| |].
  { intros s e d frames tf st et Hp (t & Ht & <-) Hf Htf Hb.
    destruct (elem_of_pairwise_1 _ _ _ Hp) as [Hsin Hein].
    pose proof (sorted_lt_bounds _ _ _ _ Hs Hh Hlast Hsin). pose proof (sorted_lt_bounds _ _ _ _ Hs Hh Hlast Hein).
    destruct (Hall (local_date tz t) frames tf st et) as [Hst Het]; [|done|done|done|].
    { split; apply (local_date_mono tz o Hz); lia. }
    assert (∀ c, (mv_timestamp first < c < mv_timestamp final → c ∈ pts) → c ≤ s ∨ e ≤ c) as Hc.
    { intros c Hc. destruct (decide (mv_timestamp first < c < mv_timestamp final)) as [Hin|]; [|lia].
      apply (pairwise_adjacent pts); auto. }
    auto. }
  destruct meter_at_ends as [H1 H2]; [lia|]. rewrite H1, H2 in Hsum. by exists segs.
Qed.
End tiling.

(** ** The session as a whole *)

Definition tariffs_tile (T : gmap Z (list TariffFrame)) : Prop :=
  ∀ d frames, T !! d = Some frames → frames_tile 0 1440 frames.

(** Every local day the session touches has its tariff. *)
Definition tariffs_cover (tz : Zone) (T : gmap Z (list TariffFrame)) (a b : Z) : Prop :=
  ∀ t, a ≤ t < b → is_Some (T !! local_date tz t).

(** No metered energy is lost or invented by the cut: in a zone of one
    offset, with a tiled tariff for every local day the session touches and
    readings from its start to its end, [chia_doan] succeeds and the energies
    of its segments add up to the difference of the last and first reading. *)
Theorem chia_doan_conserves tz o T l first final :
  fixed_offset tz o → tariffs_tile T → readings_ok l →
  head l = Some first → last l = Some final → mv_timestamp first < mv_timestamp final →
  tariffs_cover tz T (mv_timestamp first) (mv_timestamp final) →
  ∃ segs, chia_doan (mv_timestamp first) (mv_timestamp final) l T tz = inr segs ∧
    sumZ (energy_consumed_uwh <$> segs) = energy_uwh final - energy_uwh first.
Proof.
  intros Hz HT Hl Hf Hn Hlt Hcov.
  destruct (chia_doan_tiled tz o Hz T HT l first final Hl Hf Hn Hlt Hcov) as (segs & H1 & H2 & _). eauto.
Qed.

(** The right price for every part of the session: under the same
    conditions each segment lies inside one tariff frame of its own local day,
    carries that frame's price and version, has positive energy and the amount
    [tien_dong] gives for it, and the segments are disjoint and in time order. *)
Theorem chia_doan_priced tz o T l first final segs :
  fixed_offset tz o → tariffs_tile T → readings_ok l →
  head l = Some first → last l = Some final → mv_timestamp first < mv_timestamp final →
  tariffs_cover tz T (mv_timestamp first) (mv_timestamp final) →
  chia_doan (mv_timestamp first) (mv_timestamp final) l T tz = inr segs →
  Forall (λ g, mv_timestamp first ≤ seg_start g ∧ seg_end g ≤ mv_timestamp final ∧
    segment_priced tz T g) segs ∧
  StronglySorted (λ g h, seg_end g ≤ seg_start h) segs.
Proof.
  intros Hz HT Hl Hf Hn Hlt Hcov Hs.
  destruct (chia_doan_tiled tz o Hz T HT l first final Hl Hf Hn Hlt Hcov) as (segs' & H1 & _ & H2).
  rewrite Hs in H1. by injection H1 as <-.
Qed.

Lemma demo_tariffs_tile : tariffs_tile demo_tariffs.
Proof.
  intros d frames. unfold demo_tariffs. rewrite lookup_insert_Some. intros [[<- <-]|[_ H]].
  - exists 360. split_and!; try reflexivity; try lia. exists 1440. split_and!; reflexivity || lia.
  - apply lookup_singleton_Some in H as [<- <-].
    exists 360. split_and!; try reflexivity; try lia. exists 1440. split_and!; reflexivity || lia.
Defined.

Lemma demo_tariffs_cover : tariffs_cover ho_chi_minh demo_tariffs (hours (-2)) (hours 25).
Proof.
  intros t Ht. unfold local_date, ho_chi_minh, hours, day_us, second_us in *. cbn [utcoffset].
  assert ((t + 7 * 3600 * 1000000) / (86400 * 1000000) = 0 ∨
          (t + 7 * 3600 * 1000000) / (86400 * 1000000) = 1) as [-> | ->].
  { pose proof (Z.div_mod (t + 7 * 3600 * 1000000) (86400 * 1000000) ltac:(lia)).
    pose proof (Z.mod_pos_bound (t + 7 * 3600 * 1000000) (86400 * 1000000) ltac:(lia)). lia. }
  all: eexists; vm_compute; reflexivity.
Defined.

Definition demo_readings : list MeterValue :=
  [mkMeter (hours (-2)) 0; mkMeter (hours 3) 7000000; mkMeter (hours 25) 40000000].

Lemma demo_readings_ok : readings_ok demo_readings.
Proof. repeat constructor; vm_compute; congruence. Defined.

Lemma chia_doan_conserves_witness :
  ∃ segs, chia_doan (hours (-2)) (hours 25) demo_readings demo_tariffs ho_chi_minh = inr segs ∧
    sumZ (energy_consumed_uwh <$> segs) = 40000000.
Proof.
  apply (chia_doan_conserves ho_chi_minh _ demo_tariffs demo_readings
    (mkMeter (hours (-2)) 0) (mkMeter (hours 25) 40000000)
    ho_chi_minh_fixed demo_tariffs_tile demo_readings_ok eq_refl eq_refl eq_refl demo_tariffs_cover).
Defined.

Lemma chia_doan_priced_witness :
  ∃ segs, chia_doan (hours (-2)) (hours 25) demo_readings demo_tariffs ho_chi_minh = inr segs ∧
    length segs = 4%nat ∧ StronglySorted (λ g h, seg_end g ≤ seg_start h) segs.
Proof.
  eexists. split; [vm_compute; reflexivity|]. split; [reflexivity|].
  apply (chia_doan_priced ho_chi_minh _ demo_tariffs demo_readings
    (mkMeter (hours (-2)) 0) (mkMeter (hours 25) 40000000) _
    ho_chi_minh_fixed demo_tariffs_tile demo_readings_ok eq_refl eq_refl eq_refl demo_tariffs_cover).
  vm_compute. reflexivity.
Defined.

(** ** Day totals *)

Definition on_day (d : Z) (segs : list Segment) : list Segment :=
  filter (λ s, seg_local_date s = d) segs.

(** The group of a day as the specification has it. *)
Definition day_group (d : Z) (segs : list Segment) : option DayGroup :=
  match on_day d segs with
  | [] => None
  | l => Some (mkDay d l (sumZ (energy_consumed_uwh <$> l)) (sumZ (amount_vnd <$> l)))
  end.

Lemma day_group_snoc d segs seg :
  day_group d (segs ++ [seg]) =
  if decide (seg_local_date seg = d)
  then let g := default (mkDay d [] 0 0) (day_group d segs) in
       Some (mkDay (day_date g) (day_segments g ++ [seg])
               (total_energy_uwh g + energy_consumed_uwh seg) (total_amount_vnd g + amount_vnd seg))
  else day_group d segs.
Proof.
  unfold day_group, on_day. rewrite filter_app, filter_cons, filter_nil.
  case_decide; [|by rewrite app_nil_r].
  destruct (filter _ segs) as [|x l]; [cbn; by rewrite !Z.add_0_r|].
  cbn [default from_option app]. unfold id. cbn [day_date day_segments total_energy_uwh total_amount_vnd].
  rewrite app_comm_cons, !fmap_app, !sumZ_app. 
  change (sumZ (?f <$> [seg])) with (f seg + 0). by rewrite !Z.add_0_r.
Qed.

(** The bill by local day: whenever the cut succeeds so does
    [tinh_tien_theo_ngay], and each day's group holds exactly the segments of
    that local day in order, with their summed energy and amount; a day without
    segments has no group. *)
Theorem tinh_tien_theo_ngay_groups a b l T tz segs :
  chia_doan a b l T tz = inr segs →
  ∃ days, tinh_tien_theo_ngay a b l T tz = inr days ∧ ∀ d, days !! d = day_group d segs.
Proof.
  intros H. unfold tinh_tien_theo_ngay. rewrite H. eexists. split; [reflexivity|]. clear H.
  induction segs as [|seg segs IH] using rev_ind; intros d; [done|].
  rewrite foldl_app, day_group_snoc. cbn [foldl]. unfold add_to_day.
  rewrite lookup_insert, !IH. case_decide; [by subst|done].
Qed.

Lemma tinh_tien_theo_ngay_groups_witness :
  ∃ segs days, chia_doan (hours (-2)) (hours 25) demo_readings demo_tariffs ho_chi_minh = inr segs ∧
    tinh_tien_theo_ngay (hours (-2)) (hours 25) demo_readings demo_tariffs ho_chi_minh = inr days ∧
    total_energy_uwh <$> days !! 1 = Some 12000000.
Proof.
  eexists. destruct (tinh_tien_theo_ngay_groups (hours (-2)) (hours 25) demo_readings demo_tariffs
    ho_chi_minh _ ltac:(vm_compute; reflexivity)) as (days & H1 & H2).
  exists days. split; [vm_compute; reflexivity|]. split; [exact H1|].
  rewrite H2. vm_compute. reflexivity.
Defined.
