(* ===== verification/Text.v ===== *)
(** * Text: the string operations the services use

    A string the program computes with is a sequence of code points below 256,
    one [ascii] each; [strip], [casefold] and [isalnum] follow Python's classes on
    that range. Fixed Vietnamese texts of the source appear as their UTF-8 bytes
    and are only stored. *)

From S2P Require Import Prelude.
From stdpp Require Export pretty.
From Stdlib Require Import Ascii.

Open Scope Z_scope.

Definition chars (s : string) : list ascii := String.list_ascii_of_string s.
Definition of_chars (l : list ascii) : string := String.string_of_list_ascii l.
Definition code (c : ascii) : Z := Z.of_nat (nat_of_ascii c).
Definition chr (n : Z) : ascii := ascii_of_nat (Z.to_nat n).

(** [str.isspace]: tab to carriage return, the separators 28-31, space, NEL, NBSP *)
Definition is_space (c : ascii) : bool :=
  let n := code c in
  ((9 <=? n) && (n <=? 13)) || ((28 <=? n) && (n <=? 32)) || (n =? 133) || (n =? 160).

Fixpoint drop_spaces (l : list ascii) : list ascii :=
  match l with
  | c :: l' => if is_space c then drop_spaces l' else l
  | [] => []
  end.

Definition strip (s : string) : string :=
  of_chars (reverse (drop_spaces (reverse (drop_spaces (chars s))))).

(** [str.lower] on ASCII letters, the ones of charger codes and e-mail addresses *)
Definition lower_char (c : ascii) : ascii :=
  if (65 <=? code c) && (code c <=? 90) then chr (code c + 32) else c.
Definition lower (s : string) : string := of_chars (lower_char <$> chars s).

(** [btrim(s) = '']: PostgreSQL's [btrim] removes spaces only. *)
Definition blank (s : string) : bool := forallb (λ c, code c =? 32) (chars s).

(** A text is its UTF-8 bytes: a character is a byte that continues no other and
    those that follow. [text_len] counts them, [text_take] is [s[:n]]. *)
Definition continues (c : ascii) : bool := Z.land (code c) 192 =? 128.
Definition text_len (s : string) : Z := Z.of_nat (length (filter (λ c, continues c = false) (chars s))).

Fixpoint take_points (n : nat) (l : list ascii) : list ascii :=
  match l with
  | [] => []
  | c :: r => if continues c then c :: take_points n r else match n with O => [] | S k => c :: take_points k r end
  end.
Definition text_take (n : nat) (s : string) : string := of_chars (take_points n (chars s)).

(** [str(n)] *)
Definition str_int (n : Z) : string := pretty n.

(** ** UUIDs *)

Definition hex_digit (d : Z) : ascii := chr (if d <? 10 then 48 + d else 87 + d).

(** The [n] low hexadecimal digits of [u], most significant first. *)
Fixpoint hex_digits (n : nat) (u : Z) : list ascii :=
  match n with
  | O => []
  | S n' => hex_digits n' (u / 16) ++ [hex_digit (u mod 16)]
  end.

(** [uuid.hex] *)
Definition uuid_hex (u : Z) : string := of_chars (hex_digits 32 u).

(** [str(uuid)] *)
Definition uuid_str (u : Z) : string :=
  let h := hex_digits 32 u in
  let dash := ["-"%char] in
  of_chars (take 8 h ++ dash ++ take 4 (drop 8 h) ++ dash ++ take 4 (drop 12 h) ++ dash ++
            take 4 (drop 16 h) ++ dash ++ drop 20 h).

Definition hex_value (c : ascii) : option Z :=
  let n := code c in
  if (48 <=? n) && (n <=? 57) then Some (n - 48)
  else if (97 <=? n) && (n <=? 102) then Some (n - 87) else None.

Definition hex_number (l : list ascii) : option Z :=
  foldl (λ acc c, a ← acc; d ← hex_value c; Some (16 * a + d)) (Some 0) l.

(** [UUID(s)] for a reference that must be canonical: every [s] for which
    [UUID(s)] raises, or is printed back differently, is [None]. *)
Definition canonical_uuid (s : string) : option Z :=
  let digits := filter (λ c, c ≠ "-"%char) (chars s) in
  if decide (length digits = 32%nat)
  then u ← hex_number digits; if decide (uuid_str u = s) then Some u else None
  else None.

(** ** Facts *)

Lemma chars_of_chars l : chars (of_chars l) = l.
Proof. apply String.list_ascii_of_string_of_list_ascii. Qed.
Lemma of_chars_chars s : of_chars (chars s) = s.
Proof. apply String.string_of_list_ascii_of_string. Qed.

#[global] Instance of_chars_inj : Inj (=) (=) of_chars.
Proof. intros l l' H. by rewrite <- (chars_of_chars l), H, chars_of_chars. Qed.

Definition no_space (l : list ascii) : Prop := Forall (λ c, is_space c = false) l.

Lemma drop_spaces_id l : no_space l → drop_spaces l = l.
Proof. destruct 1 as [|c l Hc Hl]; [done|]. simpl. by rewrite Hc. Qed.

Lemma strip_no_space s : no_space (chars s) → strip s = s.
Proof.
  intros H. unfold strip. rewrite (drop_spaces_id (chars s)) by done.
  rewrite drop_spaces_id, reverse_involutive; [apply of_chars_chars|by apply Forall_reverse].
Qed.

Lemma blank_strip s : blank s = true → strip s = ""%string.
Proof.
  unfold blank, strip. intros H. replace (drop_spaces (chars s)) with (@nil ascii); [done|].
  induction (chars s) as [|c l IH]; [done|]. simpl in *. apply andb_true_iff in H as [Hc Hl].
  assert (is_space c = true) as -> by (unfold is_space; apply Z.eqb_eq in Hc; by rewrite Hc). auto.
Qed.

Lemma drop_spaces_head l : match drop_spaces l with c :: _ => is_space c = false | [] => True end.
Proof. induction l as [|c l IH]; simpl; [done|]. by destruct (is_space c) eqn:E. Qed.

Lemma drop_spaces_fixed l :
  match l with c :: _ => is_space c = false | [] => True end → drop_spaces l = l.
Proof. destruct l as [|c l]; simpl; [done|]. by intros ->. Qed.

Lemma drop_spaces_suffix l : ∃ p, l = p ++ drop_spaces l.
Proof.
  induction l as [|c l [p IH]]; simpl; [by exists []|].
  destruct (is_space c); [exists (c :: p); simpl; by rewrite <- IH|by exists []].
Qed.

(** Stripping twice is stripping once. *)
Lemma strip_idemp s : strip (strip s) = strip s.
Proof.
  unfold strip. rewrite chars_of_chars. f_equal. set (a := drop_spaces (chars s)).
  set (b := drop_spaces (reverse a)).
  assert (drop_spaces (reverse b) = reverse b) as ->.
  { apply drop_spaces_fixed. destruct (drop_spaces_suffix (reverse a)) as [p Hp]. fold b in Hp.
    destruct (reverse b) as [|c r] eqn:E; [done|].
    assert (a = (c :: r) ++ reverse p) as Ha.
    { rewrite <- E, <- reverse_app, <- Hp. by rewrite reverse_involutive. }
    pose proof (drop_spaces_head (chars s)) as H. fold a in H. by rewrite Ha in H. }
  rewrite reverse_involutive. f_equal. apply drop_spaces_fixed, drop_spaces_head.
Qed.

(** Every character of a decimal text is a digit, but for a leading minus. *)
Lemma Forall_pretty_N (P : ascii → Prop) (n : N) : (∀ d, P (pretty_N_char d)) → Forall P (chars (pretty n)).
Proof.
  intros HP. unfold pretty, pretty_N. case_decide; [constructor; [apply (HP 0%N)|constructor]|].
  assert (∀ n s, Forall P (chars s) → Forall P (chars (pretty_N_go n s))) as Hgo.
  { intros m. induction (N.lt_wf_0 m) as [m _ IH]. intros s Hs.
    destruct (decide (m = 0)%N) as [->|Hm]; [by rewrite pretty_N_go_0|].
    rewrite pretty_N_go_step by lia. apply IH; [by apply N.div_lt; lia|]. simpl. by constructor. }
  apply Hgo. constructor.
Qed.

Lemma Forall_str_int (P : ascii → Prop) n : P "-"%char → (∀ d, P (pretty_N_char d)) → Forall P (chars (str_int n)).
Proof.
  intros Hm HP. unfold str_int, pretty, pretty_Z. destruct n; [constructor; [apply (HP 0%N)|constructor]|by apply Forall_pretty_N|].
  simpl. constructor; [done|by apply Forall_pretty_N].
Qed.

Lemma no_space_pretty_N (n : N) : no_space (chars (pretty n)).
Proof. apply Forall_pretty_N. intros d. unfold pretty_N_char. by repeat case_match. Qed.

Lemma str_int_strip n : strip (str_int n) = str_int n.
Proof. apply strip_no_space, Forall_str_int; [done|]. intros d. unfold pretty_N_char. by repeat case_match. Qed.

#[global] Instance str_int_inj : Inj (=) (=) str_int.
Proof. unfold str_int. apply _. Qed.

Lemma pretty_N_nonempty (n : N) : pretty n ≠ ""%string.
Proof.
  unfold pretty, pretty_N. case_decide as Hn; [done|].
  assert (∀ m s, s ≠ ""%string → pretty_N_go m s ≠ ""%string) as Hgo.
  { intros m. induction (N.lt_wf_0 m) as [m _ IH]. intros s Hs.
    destruct (decide (m = 0)%N) as [->|Hm]; [by rewrite pretty_N_go_0|].
    rewrite pretty_N_go_step by lia. apply IH; [by apply N.div_lt; lia|done]. }
  rewrite pretty_N_go_step by lia. by apply Hgo.
Qed.

Lemma str_int_nonempty n : str_int n ≠ ""%string.
Proof. unfold str_int, pretty, pretty_Z. destruct n; [done|apply pretty_N_nonempty|done]. Qed.

(** ** Round trip of canonical UUIDs *)

Lemma hex_digits_length n u : length (hex_digits n u) = n.
Proof. revert u. induction n; intros u; simpl; [done|]. rewrite length_app, IHn. simpl. lia. Qed.

(** The sixteen digits, checked one by one. *)
Lemma hex_digit_value d :
  0 ≤ d < 16 → hex_value (hex_digit d) = Some d ∧ hex_digit d ≠ "-"%char.
Proof.
  intros Hd. assert (forallb (λ d, bool_decide (hex_value (hex_digit d) = Some d ∧
    hex_digit d ≠ "-"%char)) (seqZ 0 16) = true) as H by (vm_compute; reflexivity).
  rewrite forallb_forall in H. specialize (H d). rewrite <- list_elem_of_In, elem_of_seqZ in H.
  apply (bool_decide_eq_true_1 _), H. lia.
Qed.

Lemma hex_digits_number n u : 0 ≤ u < 16 ^ Z.of_nat n → hex_number (hex_digits n u) = Some u.
Proof.
  unfold hex_number. revert u. induction n as [|n IH]; intros u Hu; simpl.
  { f_equal. simpl in Hu. lia. }
  rewrite Nat2Z.inj_succ, Z.pow_succ_r in Hu by lia.
  pose proof (Z.mod_pos_bound u 16 ltac:(lia)). pose proof (Z.div_mod u 16 ltac:(lia)).
  rewrite foldl_app, IH by lia. simpl. rewrite (proj1 (hex_digit_value (u mod 16) ltac:(lia))).
  simpl. f_equal. lia.
Qed.

Lemma hex_digits_no_dash n u : Forall (λ c, c ≠ "-"%char) (hex_digits n u).
Proof.
  revert u. induction n as [|n IH]; intros u; simpl; [constructor|].
  apply Forall_app. split; [apply IH|]. repeat constructor.
  apply hex_digit_value, Z.mod_pos_bound. lia.
Qed.

Lemma filter_no_dash l : Forall (λ c, c ≠ "-"%char) l → filter (λ c, c ≠ "-"%char) l = l.
Proof. induction 1 as [|c l Hc Hl IH]; [done|]. rewrite filter_cons. case_decide; [by rewrite IH|done]. Qed.

Lemma uuid_str_digits u : filter (λ c, c ≠ "-"%char) (chars (uuid_str u)) = hex_digits 32 u.
Proof.
  unfold uuid_str. rewrite chars_of_chars, !filter_app.
  pose proof (hex_digits_no_dash 32 u) as H. set (h := hex_digits 32 u) in *.
  assert (∀ k, Forall (λ c, c ≠ "-"%char) (drop k h)) as Hd by (intros; by apply Forall_drop).
  assert (∀ k l, Forall (λ c, c ≠ "-"%char) l → Forall (λ c, c ≠ "-"%char) (take k l)) as Ht
    by (intros; by apply Forall_take).
  rewrite (filter_no_dash (take 8 h)), (filter_no_dash (take 4 (drop 8 h))),
    (filter_no_dash (take 4 (drop 12 h))), (filter_no_dash (take 4 (drop 16 h))),
    (filter_no_dash (drop 20 h)) by auto.
  change (filter _ ["-"%char]) with (@nil ascii). rewrite !app_nil_l.
  replace (drop 20 h) with (drop 4 (drop 16 h)) by (by rewrite drop_drop).
  rewrite (take_drop 4 (drop 16 h)).
  replace (drop 16 h) with (drop 4 (drop 12 h)) by (by rewrite drop_drop).
  rewrite (take_drop 4 (drop 12 h)).
  replace (drop 12 h) with (drop 4 (drop 8 h)) by (by rewrite drop_drop).
  by rewrite (take_drop 4 (drop 8 h)), take_drop.
Qed.

Lemma canonical_uuid_str u : 0 ≤ u < 2 ^ 128 → canonical_uuid (uuid_str u) = Some u.
Proof.
  intros Hu. unfold canonical_uuid. rewrite uuid_str_digits, hex_digits_length, hex_digits_number by done.
  case_decide as H32; [|done]. unfold mbind, option_bind. by case_decide.
Qed.

Lemma canonical_uuid_Some s u : canonical_uuid s = Some u → uuid_str u = s.
Proof.
  unfold canonical_uuid. case_decide; [|done]. destruct (hex_number _) as [u'|]; simpl; [|done].
  case_decide; [|done]. congruence.
Qed.

Lemma uuid_str_strip u : strip (uuid_str u) = uuid_str u.
Proof.
  apply strip_no_space, Forall_forall. intros c Hc. destruct (decide (c = "-"%char)) as [->|Hne]; [done|].
  assert (c ∈ hex_digits 32 u) as Hin by (rewrite <- uuid_str_digits; by apply list_elem_of_filter).
  clear Hc. revert u Hin. generalize 32%nat. intros n. induction n as [|n IH]; intros u; simpl; [set_solver|].
  rewrite elem_of_app, list_elem_of_singleton. intros [H| ->]; [by apply (IH (u / 16))|].
  assert (forallb (λ d, negb (is_space (hex_digit d))) (seqZ 0 16) = true) as H by (vm_compute; reflexivity).
  rewrite forallb_forall in H. specialize (H (u mod 16)). rewrite <- list_elem_of_In, elem_of_seqZ in H.
  pose proof (Z.mod_pos_bound u 16 ltac:(lia)). by apply negb_true_iff, H.
Qed.

(** A text of ASCII characters has as many characters as bytes. *)
Lemma text_len_ascii s : Forall (λ c, continues c = false) (chars s) → text_len s = Z.of_nat (length (chars s)).
Proof.
  intros H. unfold text_len. f_equal. f_equal. induction H as [|c l Hc Hl IH]; [done|]. rewrite filter_cons, decide_True by done. by rewrite IH.
Qed.

Lemma str_int_len n : text_len (str_int n) = Z.of_nat (length (chars (str_int n))).
Proof. apply text_len_ascii, Forall_str_int; [done|]. intros d. unfold pretty_N_char. by repeat case_match. Qed.

Lemma continues_digits n u : Forall (λ c, continues c = false) (hex_digits n u).
Proof.
  revert u. induction n as [|n IH]; intros u; simpl; [constructor|]. apply Forall_app. split; [apply IH|]. constructor; [|constructor].
  assert (forallb (λ d, negb (continues (hex_digit d))) (seqZ 0 16) = true) as H by (vm_compute; reflexivity).
  rewrite forallb_forall in H. specialize (H (u mod 16)). rewrite <- list_elem_of_In, elem_of_seqZ in H.
  pose proof (Z.mod_pos_bound u 16 ltac:(lia)). by apply negb_true_iff, H.
Qed.

Lemma uuid_str_len u : text_len (uuid_str u) = 36.
Proof.
  rewrite text_len_ascii; unfold uuid_str; rewrite chars_of_chars.
  - rewrite !length_app, !length_take, !length_drop, hex_digits_length. reflexivity.
  - repeat (apply Forall_app; split); try (by repeat constructor); auto using Forall_take, Forall_drop, continues_digits.
Qed.
