(* ===== verification/Store.v ===== *)
(** * Store: the database the services work on

    The SQLAlchemy models of [wallet/models.py], [wallet/topup_models.py],
    [platform/audit/models.py], [identity/models.py], [stations/models.py],
    [pricing/models.py], [charging/models.py], [billing/models.py] and
    [driver_notifications/models.py], with the columns the modelled operations
    read or write. A table looked up by primary key is a [gmap]; a table that is
    only appended to and scanned is a list in insertion order. [CHECK]
    constraints over fixed word lists are inductive types. UUIDs and identity
    columns are integers drawn from [next_id]; [db_now] is the clock of the
    running transaction. A service is a computation in [M Db Exn]; a coroutine
    that raises leaves the database as it was at that point, and the
    surrounding [savepoint] or request transaction restores it. *)

From S2P Require Import Prelude Clock.

(** ** Words *)

Inductive WalletStatus := active | locked.
Inductive EntryType :=
  | gateway_topup | manual_topup | charging_debit | adjustment | reservation_fee.
Inductive AuditAction := cache_repaired | adjustment_authorized.
Inductive TopupStatus := pending | succeeded | failed | cancelled | needs_review.
Inductive SettlementReason := debited | zero_invoice | legacy_exempt.
Inductive LineType := energy_line | idle_line.
Inductive NotifyKind := notify_stop | notify_idle | notify_invoice.
Inductive EmailStatus := email_pending | email_sending | email_sent.
Inductive PowerState :=
  | pw_disabled | pw_bootstrap | pw_ready | pw_applying | pw_degraded | pw_disable_pending.
(** [ck_reservation_status] *)
Inductive RStatus :=
  | rv_pending | rv_uncertain | rv_active | rv_cancel_pending | rv_expiry_release_pending
  | rv_consumed | rv_cancelled | rv_rejected | rv_expired.
Inductive FeeDecision := fee_pending | fee_legacy_exempt | fee_waived | fee_charged | fee_review.
Inductive RAction := ReserveNow | CancelReservation.
Inductive AlertStatus := alert_open | alert_acknowledged | alert_closed.
Inductive AlertEmailStatus := ae_pending | ae_sending | ae_retry | ae_sent | ae_failed.
Inductive RCommandStatus := rm_queued | rm_sending | rm_done | rm_uncertain | rm_suppressed.

#[export] Instance WalletStatus_dec : EqDecision WalletStatus.
Proof. solve_decision. Defined.
#[export] Instance EntryType_dec : EqDecision EntryType.
Proof. solve_decision. Defined.
#[export] Instance AuditAction_dec : EqDecision AuditAction.
Proof. solve_decision. Defined.
#[export] Instance TopupStatus_dec : EqDecision TopupStatus.
Proof. solve_decision. Defined.
#[export] Instance SettlementReason_dec : EqDecision SettlementReason.
Proof. solve_decision. Defined.
#[export] Instance LineType_dec : EqDecision LineType.
Proof. solve_decision. Defined.
#[export] Instance EmailStatus_dec : EqDecision EmailStatus.
Proof. solve_decision. Defined.
#[export] Instance PowerState_dec : EqDecision PowerState.
Proof. solve_decision. Defined.
#[export] Instance RStatus_dec : EqDecision RStatus.
Proof. solve_decision. Defined.
#[export] Instance FeeDecision_dec : EqDecision FeeDecision.
Proof. solve_decision. Defined.
#[export] Instance RAction_dec : EqDecision RAction.
Proof. solve_decision. Defined.
#[export] Instance AlertStatus_dec : EqDecision AlertStatus.
Proof. solve_decision. Defined.
#[export] Instance AlertEmailStatus_dec : EqDecision AlertEmailStatus.
Proof. solve_decision. Defined.
#[export] Instance RCommandStatus_dec : EqDecision RCommandStatus.
Proof. solve_decision. Defined.
#[export] Instance NotifyKind_dec : EqDecision NotifyKind.
Proof. solve_decision. Defined.

(** The values a payload can hold: [JFloat m e] is the finite float [m * 2 ^ e],
    [JOther] a Python value of any type that JSON does not have. *)
Inductive Json :=
  | JNull | JBool (b : bool) | JInt (n : Z) | JFloat (m e : Z) | JStr (s : string)
  | JList (l : list Json) | JObj (fields : list (string * Json)) | JOther.

(** A reply to a charger's call ([ocpp/frames.py]): its payload, or an error code. *)
Inductive Reply :=
  | CallResult (message_id : string) (payload : list (string * Json))
  | CallError (message_id code description : string).

(** ** Exceptions the services raise *)

Inductive Exn :=
  | ValueError | TypeError | LookupError | AssertionError | KeyError
  | IntegrityError (constraint : string)
  | WalletNotFoundError | WalletLockedError | WalletOwnershipError
  | WalletLedgerConflictError | ManualTopupRequestConflictError | WalletAmountError
  | WalletAdjustmentAuditError | WalletAdminRequiredError
  | WalletReconciliationError (checks : list string)
  | WalletDriverRequiredError | ManualTopupReasonError
  | TariffNotFoundError | TariffEffectiveDateError | TariffDuplicateDateError
  | TariffImmutableError | TariffBandsError | PowerBandsError | StationOwnershipDeniedError
  | InvalidInvoice (reason : string) | InvoiceSessionNotFoundError
  | DecimalOverflow | DataError | OperationalError | HTTPException (status_code : Z) | RuntimeError
  | InvalidCredentialsError | LoginLockedError
  | StationTimezoneLockedError | StationIdempotencyConflictError | ChargePointCodeAlreadyExistsError | ChargePointCodeLockedError
  | ChargePointOwnershipDeniedError | ConnectorConfigurationNotFoundError.

(** Subclasses of [WalletError]. *)
Definition is_wallet_error (e : Exn) : bool :=
  match e with
  | WalletNotFoundError | WalletLockedError | WalletOwnershipError
  | WalletLedgerConflictError | ManualTopupRequestConflictError | WalletAmountError
  | WalletAdjustmentAuditError | WalletAdminRequiredError | WalletReconciliationError _
  | WalletDriverRequiredError => true
  | _ => false
  end.

(** ** Rows *)

(** Identity User joined with the codes of its roles (UserRole, Role). *)
Record UserRow := mkUser {
  u_status : string; u_roles : list string; u_email : string; u_password_hash : string;
  u_failed_login_count : Z; u_locked_until : option Z; u_updated_at : Z; u_default_role :
  option string; u_created_at : Z
}.

Definition set_u_status (v : string) (r : UserRow) : UserRow :=
  mkUser v (u_roles r) (u_email r) (u_password_hash r) (u_failed_login_count r)
  (u_locked_until r) (u_updated_at r) (u_default_role r) (u_created_at r).

Definition set_u_roles (v : list string) (r : UserRow) : UserRow :=
  mkUser (u_status r) v (u_email r) (u_password_hash r) (u_failed_login_count r)
  (u_locked_until r) (u_updated_at r) (u_default_role r) (u_created_at r).

Definition set_u_password_hash (v : string) (r : UserRow) : UserRow :=
  mkUser (u_status r) (u_roles r) (u_email r) v (u_failed_login_count r) (u_locked_until r)
  (u_updated_at r) (u_default_role r) (u_created_at r).

Definition set_u_failed_login_count (v : Z) (r : UserRow) : UserRow :=
  mkUser (u_status r) (u_roles r) (u_email r) (u_password_hash r) v (u_locked_until r)
  (u_updated_at r) (u_default_role r) (u_created_at r).

Definition set_u_locked_until (v : option Z) (r : UserRow) : UserRow :=
  mkUser (u_status r) (u_roles r) (u_email r) (u_password_hash r) (u_failed_login_count r) v
  (u_updated_at r) (u_default_role r) (u_created_at r).

Definition set_u_updated_at (v : Z) (r : UserRow) : UserRow :=
  mkUser (u_status r) (u_roles r) (u_email r) (u_password_hash r) (u_failed_login_count r)
  (u_locked_until r) v (u_default_role r) (u_created_at r).

Definition set_u_default_role (v : option string) (r : UserRow) : UserRow :=
  mkUser (u_status r) (u_roles r) (u_email r) (u_password_hash r) (u_failed_login_count r)
  (u_locked_until r) (u_updated_at r) v (u_created_at r).

Record Wallet := mkWallet {
  w_id : Z; w_driver_id : Z; w_balance_vnd : Z; w_status : WalletStatus
}.

Definition set_w_balance_vnd (v : Z) (r : Wallet) : Wallet :=
  mkWallet (w_id r) (w_driver_id r) v (w_status r).

Definition set_w_status (v : WalletStatus) (r : Wallet) : Wallet :=
  mkWallet (w_id r) (w_driver_id r) (w_balance_vnd r) v.

Record WalletLedger := mkLedger {
  l_id : Z; l_wallet_id : Z; l_entry_type : EntryType; l_amount_vnd : Z; l_balance_after_vnd :
  Z; l_reference_type : string; l_reference_id : string; l_actor_id : option Z; l_created_at :
  Z
}.

Record WalletAudit := mkWalletAudit {
  wa_id : Z; wa_wallet_id : Z; wa_actor_id : Z; wa_action : AuditAction; wa_before_balance_vnd
  : Z; wa_after_balance_vnd : Z; wa_amount_vnd : option Z; wa_reason : string
}.

Record WalletTopup := mkTopup {
  t_id : Z; t_driver_id : Z; t_amount_vnd : Z; t_status : TopupStatus; t_order_id : string;
  t_gateway_transaction_id : option string; t_reason : option string
}.

Definition set_t_status (v : TopupStatus) (r : WalletTopup) : WalletTopup :=
  mkTopup (t_id r) (t_driver_id r) (t_amount_vnd r) v (t_order_id r) (t_gateway_transaction_id
  r) (t_reason r).

Definition set_t_gateway_transaction_id (v : option string) (r : WalletTopup) : WalletTopup :=
  mkTopup (t_id r) (t_driver_id r) (t_amount_vnd r) (t_status r) (t_order_id r) v (t_reason r).

Definition set_t_reason (v : option string) (r : WalletTopup) : WalletTopup :=
  mkTopup (t_id r) (t_driver_id r) (t_amount_vnd r) (t_status r) (t_order_id r)
  (t_gateway_transaction_id r) v.

Record AuditLog := mkAuditLog {
  al_id : Z; al_actor_id : option Z; al_action : string; al_object_type : string; al_object_id
  : string; al_data : list (string * Json); al_permission : option string; al_actor_roles :
  option (list string)
}.

(** Coordinates in millionths of a degree. *)
Record Station := mkStation {
  st_id : Z; st_owner_id : Z; st_name : string; st_status : string; st_timezone : string;
  st_archived_at : option Z; st_address : string; st_latitude : Z; st_longitude : Z;
  st_status_version : Z; st_created_at : Z
}.

Definition set_st_name (v : string) (r : Station) : Station :=
  mkStation (st_id r) (st_owner_id r) v (st_status r) (st_timezone r) (st_archived_at r)
  (st_address r) (st_latitude r) (st_longitude r) (st_status_version r) (st_created_at r).

Definition set_st_status (v : string) (r : Station) : Station :=
  mkStation (st_id r) (st_owner_id r) (st_name r) v (st_timezone r) (st_archived_at r)
  (st_address r) (st_latitude r) (st_longitude r) (st_status_version r) (st_created_at r).

Definition set_st_timezone (v : string) (r : Station) : Station :=
  mkStation (st_id r) (st_owner_id r) (st_name r) (st_status r) v (st_archived_at r)
  (st_address r) (st_latitude r) (st_longitude r) (st_status_version r) (st_created_at r).

Definition set_st_address (v : string) (r : Station) : Station :=
  mkStation (st_id r) (st_owner_id r) (st_name r) (st_status r) (st_timezone r)
  (st_archived_at r) v (st_latitude r) (st_longitude r) (st_status_version r) (st_created_at
  r).

Definition set_st_latitude (v : Z) (r : Station) : Station :=
  mkStation (st_id r) (st_owner_id r) (st_name r) (st_status r) (st_timezone r)
  (st_archived_at r) (st_address r) v (st_longitude r) (st_status_version r) (st_created_at r).

Definition set_st_longitude (v : Z) (r : Station) : Station :=
  mkStation (st_id r) (st_owner_id r) (st_name r) (st_status r) (st_timezone r)
  (st_archived_at r) (st_address r) (st_latitude r) v (st_status_version r) (st_created_at r).

Definition set_st_status_version (v : Z) (r : Station) : Station :=
  mkStation (st_id r) (st_owner_id r) (st_name r) (st_status r) (st_timezone r)
  (st_archived_at r) (st_address r) (st_latitude r) (st_longitude r) v (st_created_at r).

Record ChargePoint := mkChargePoint {
  cp_id : Z; cp_station_id : Z; cp_status : string; cp_last_seen_at : option Z;
  cp_heartbeat_interval_seconds : Z; cp_raw_ocpp_status : option string; cp_error_code :
  option string; cp_vendor_error_code : option string; cp_error_at : option Z;
  cp_status_updated_at : Z; cp_archived_at : option Z; cp_last_boot_at : option Z; cp_vendor :
  option string; cp_model : option string; cp_firmware_version : option string;
  cp_code_locked_at : option Z; cp_code : string; cp_created_at : Z; cp_name : option string
}.

Definition set_cp_status (v : string) (r : ChargePoint) : ChargePoint :=
  mkChargePoint (cp_id r) (cp_station_id r) v (cp_last_seen_at r)
  (cp_heartbeat_interval_seconds r) (cp_raw_ocpp_status r) (cp_error_code r)
  (cp_vendor_error_code r) (cp_error_at r) (cp_status_updated_at r) (cp_archived_at r)
  (cp_last_boot_at r) (cp_vendor r) (cp_model r) (cp_firmware_version r) (cp_code_locked_at r)
  (cp_code r) (cp_created_at r) (cp_name r).

Definition set_cp_last_seen_at (v : option Z) (r : ChargePoint) : ChargePoint :=
  mkChargePoint (cp_id r) (cp_station_id r) (cp_status r) v (cp_heartbeat_interval_seconds r)
  (cp_raw_ocpp_status r) (cp_error_code r) (cp_vendor_error_code r) (cp_error_at r)
  (cp_status_updated_at r) (cp_archived_at r) (cp_last_boot_at r) (cp_vendor r) (cp_model r)
  (cp_firmware_version r) (cp_code_locked_at r) (cp_code r) (cp_created_at r) (cp_name r).

Definition set_cp_heartbeat_interval_seconds (v : Z) (r : ChargePoint) : ChargePoint :=
  mkChargePoint (cp_id r) (cp_station_id r) (cp_status r) (cp_last_seen_at r) v
  (cp_raw_ocpp_status r) (cp_error_code r) (cp_vendor_error_code r) (cp_error_at r)
  (cp_status_updated_at r) (cp_archived_at r) (cp_last_boot_at r) (cp_vendor r) (cp_model r)
  (cp_firmware_version r) (cp_code_locked_at r) (cp_code r) (cp_created_at r) (cp_name r).

Definition set_cp_raw_ocpp_status (v : option string) (r : ChargePoint) : ChargePoint :=
  mkChargePoint (cp_id r) (cp_station_id r) (cp_status r) (cp_last_seen_at r)
  (cp_heartbeat_interval_seconds r) v (cp_error_code r) (cp_vendor_error_code r) (cp_error_at
  r) (cp_status_updated_at r) (cp_archived_at r) (cp_last_boot_at r) (cp_vendor r) (cp_model
  r) (cp_firmware_version r) (cp_code_locked_at r) (cp_code r) (cp_created_at r) (cp_name r).

Definition set_cp_error_code (v : option string) (r : ChargePoint) : ChargePoint :=
  mkChargePoint (cp_id r) (cp_station_id r) (cp_status r) (cp_last_seen_at r)
  (cp_heartbeat_interval_seconds r) (cp_raw_ocpp_status r) v (cp_vendor_error_code r)
  (cp_error_at r) (cp_status_updated_at r) (cp_archived_at r) (cp_last_boot_at r) (cp_vendor
  r) (cp_model r) (cp_firmware_version r) (cp_code_locked_at r) (cp_code r) (cp_created_at r)
  (cp_name r).

Definition set_cp_vendor_error_code (v : option string) (r : ChargePoint) : ChargePoint :=
  mkChargePoint (cp_id r) (cp_station_id r) (cp_status r) (cp_last_seen_at r)
  (cp_heartbeat_interval_seconds r) (cp_raw_ocpp_status r) (cp_error_code r) v (cp_error_at r)
  (cp_status_updated_at r) (cp_archived_at r) (cp_last_boot_at r) (cp_vendor r) (cp_model r)
  (cp_firmware_version r) (cp_code_locked_at r) (cp_code r) (cp_created_at r) (cp_name r).

Definition set_cp_error_at (v : option Z) (r : ChargePoint) : ChargePoint :=
  mkChargePoint (cp_id r) (cp_station_id r) (cp_status r) (cp_last_seen_at r)
  (cp_heartbeat_interval_seconds r) (cp_raw_ocpp_status r) (cp_error_code r)
  (cp_vendor_error_code r) v (cp_status_updated_at r) (cp_archived_at r) (cp_last_boot_at r)
  (cp_vendor r) (cp_model r) (cp_firmware_version r) (cp_code_locked_at r) (cp_code r)
  (cp_created_at r) (cp_name r).

Definition set_cp_status_updated_at (v : Z) (r : ChargePoint) : ChargePoint :=
  mkChargePoint (cp_id r) (cp_station_id r) (cp_status r) (cp_last_seen_at r)
  (cp_heartbeat_interval_seconds r) (cp_raw_ocpp_status r) (cp_error_code r)
  (cp_vendor_error_code r) (cp_error_at r) v (cp_archived_at r) (cp_last_boot_at r) (cp_vendor
  r) (cp_model r) (cp_firmware_version r) (cp_code_locked_at r) (cp_code r) (cp_created_at r)
  (cp_name r).

Definition set_cp_last_boot_at (v : option Z) (r : ChargePoint) : ChargePoint :=
  mkChargePoint (cp_id r) (cp_station_id r) (cp_status r) (cp_last_seen_at r)
  (cp_heartbeat_interval_seconds r) (cp_raw_ocpp_status r) (cp_error_code r)
  (cp_vendor_error_code r) (cp_error_at r) (cp_status_updated_at r) (cp_archived_at r) v
  (cp_vendor r) (cp_model r) (cp_firmware_version r) (cp_code_locked_at r) (cp_code r)
  (cp_created_at r) (cp_name r).

Definition set_cp_vendor (v : option string) (r : ChargePoint) : ChargePoint :=
  mkChargePoint (cp_id r) (cp_station_id r) (cp_status r) (cp_last_seen_at r)
  (cp_heartbeat_interval_seconds r) (cp_raw_ocpp_status r) (cp_error_code r)
  (cp_vendor_error_code r) (cp_error_at r) (cp_status_updated_at r) (cp_archived_at r)
  (cp_last_boot_at r) v (cp_model r) (cp_firmware_version r) (cp_code_locked_at r) (cp_code r)
  (cp_created_at r) (cp_name r).

Definition set_cp_model (v : option string) (r : ChargePoint) : ChargePoint :=
  mkChargePoint (cp_id r) (cp_station_id r) (cp_status r) (cp_last_seen_at r)
  (cp_heartbeat_interval_seconds r) (cp_raw_ocpp_status r) (cp_error_code r)
  (cp_vendor_error_code r) (cp_error_at r) (cp_status_updated_at r) (cp_archived_at r)
  (cp_last_boot_at r) (cp_vendor r) v (cp_firmware_version r) (cp_code_locked_at r) (cp_code
  r) (cp_created_at r) (cp_name r).

Definition set_cp_firmware_version (v : option string) (r : ChargePoint) : ChargePoint :=
  mkChargePoint (cp_id r) (cp_station_id r) (cp_status r) (cp_last_seen_at r)
  (cp_heartbeat_interval_seconds r) (cp_raw_ocpp_status r) (cp_error_code r)
  (cp_vendor_error_code r) (cp_error_at r) (cp_status_updated_at r) (cp_archived_at r)
  (cp_last_boot_at r) (cp_vendor r) (cp_model r) v (cp_code_locked_at r) (cp_code r)
  (cp_created_at r) (cp_name r).

Definition set_cp_code_locked_at (v : option Z) (r : ChargePoint) : ChargePoint :=
  mkChargePoint (cp_id r) (cp_station_id r) (cp_status r) (cp_last_seen_at r)
  (cp_heartbeat_interval_seconds r) (cp_raw_ocpp_status r) (cp_error_code r)
  (cp_vendor_error_code r) (cp_error_at r) (cp_status_updated_at r) (cp_archived_at r)
  (cp_last_boot_at r) (cp_vendor r) (cp_model r) (cp_firmware_version r) v (cp_code r)
  (cp_created_at r) (cp_name r).

Definition set_cp_code (v : string) (r : ChargePoint) : ChargePoint :=
  mkChargePoint (cp_id r) (cp_station_id r) (cp_status r) (cp_last_seen_at r)
  (cp_heartbeat_interval_seconds r) (cp_raw_ocpp_status r) (cp_error_code r)
  (cp_vendor_error_code r) (cp_error_at r) (cp_status_updated_at r) (cp_archived_at r)
  (cp_last_boot_at r) (cp_vendor r) (cp_model r) (cp_firmware_version r) (cp_code_locked_at r)
  v (cp_created_at r) (cp_name r).

Definition set_cp_name (v : option string) (r : ChargePoint) : ChargePoint :=
  mkChargePoint (cp_id r) (cp_station_id r) (cp_status r) (cp_last_seen_at r)
  (cp_heartbeat_interval_seconds r) (cp_raw_ocpp_status r) (cp_error_code r)
  (cp_vendor_error_code r) (cp_error_at r) (cp_status_updated_at r) (cp_archived_at r)
  (cp_last_boot_at r) (cp_vendor r) (cp_model r) (cp_firmware_version r) (cp_code_locked_at r)
  (cp_code r) (cp_created_at r) v.

Record Connector := mkConnector {
  cn_id : Z; cn_charge_point_id : Z; cn_connector_number : Z; cn_status : string;
  cn_raw_ocpp_status : option string; cn_last_status_notification_at : option Z;
  cn_status_updated_at : Z; cn_archived_at : option Z; cn_voltage : option Z; cn_amperage :
  option Z; cn_connector_type : option string; cn_current_type : option string;
  cn_max_power_kw : option Z
}.

Record ConnectorError := mkConnectorError {
  ce_connector_id : Z; ce_error_code : string; ce_vendor_error_code : option string;
  ce_occurred_at : Z; ce_details : option string
}.

Record Tariff := mkTariff {
  tf_id : Z; tf_station_id : Z; tf_effective_from : Z; tf_used_at : option Z; tf_idle_rate :
  Z; tf_grace_minutes : Z
}.

Definition set_tf_used_at (v : option Z) (r : Tariff) : Tariff :=
  mkTariff (tf_id r) (tf_station_id r) (tf_effective_from r) v (tf_idle_rate r)
  (tf_grace_minutes r).

Record TariffBand := mkTariffBand {
  tb_tariff_id : Z; tb_start_min : Z; tb_end_min : Z; tb_energy_rate : Z; tb_label : string
}.

(** Times in microseconds, readings in micro-watt-hours. *)
Record ChargingSession := mkSession {
  cs_id : Z; cs_charge_point_id : Z; cs_connector_id : Z; cs_driver_id : option Z; cs_tag_tail
  : string; cs_authorization_status : string; cs_started_at : Z; cs_ended_at : option Z;
  cs_idle_since : option Z; cs_billing_lifecycle_version : Z; cs_release_detection : string;
  cs_connector_released_at : option Z; cs_settlement_completed_at : option Z;
  cs_settlement_reason : option SettlementReason; cs_meter_start_uwh : Z; cs_meter_stop_uwh :
  option Z; cs_energy_uwh : option Z; cs_stop_reason : option string; cs_recovery_at : option
  Z; cs_abnormal_since : option Z; cs_manual_closed_at : option Z; cs_manual_close_reason :
  option string; cs_closed_by : option Z; cs_review_reasons : list string; cs_received_at : Z
}.

Definition set_cs_ended_at (v : option Z) (r : ChargingSession) : ChargingSession :=
  mkSession (cs_id r) (cs_charge_point_id r) (cs_connector_id r) (cs_driver_id r) (cs_tag_tail
  r) (cs_authorization_status r) (cs_started_at r) v (cs_idle_since r)
  (cs_billing_lifecycle_version r) (cs_release_detection r) (cs_connector_released_at r)
  (cs_settlement_completed_at r) (cs_settlement_reason r) (cs_meter_start_uwh r)
  (cs_meter_stop_uwh r) (cs_energy_uwh r) (cs_stop_reason r) (cs_recovery_at r)
  (cs_abnormal_since r) (cs_manual_closed_at r) (cs_manual_close_reason r) (cs_closed_by r)
  (cs_review_reasons r) (cs_received_at r).

Definition set_cs_idle_since (v : option Z) (r : ChargingSession) : ChargingSession :=
  mkSession (cs_id r) (cs_charge_point_id r) (cs_connector_id r) (cs_driver_id r) (cs_tag_tail
  r) (cs_authorization_status r) (cs_started_at r) (cs_ended_at r) v
  (cs_billing_lifecycle_version r) (cs_release_detection r) (cs_connector_released_at r)
  (cs_settlement_completed_at r) (cs_settlement_reason r) (cs_meter_start_uwh r)
  (cs_meter_stop_uwh r) (cs_energy_uwh r) (cs_stop_reason r) (cs_recovery_at r)
  (cs_abnormal_since r) (cs_manual_closed_at r) (cs_manual_close_reason r) (cs_closed_by r)
  (cs_review_reasons r) (cs_received_at r).

Definition set_cs_connector_released_at (v : option Z) (r : ChargingSession) : ChargingSession :=
  mkSession (cs_id r) (cs_charge_point_id r) (cs_connector_id r) (cs_driver_id r) (cs_tag_tail
  r) (cs_authorization_status r) (cs_started_at r) (cs_ended_at r) (cs_idle_since r)
  (cs_billing_lifecycle_version r) (cs_release_detection r) v (cs_settlement_completed_at r)
  (cs_settlement_reason r) (cs_meter_start_uwh r) (cs_meter_stop_uwh r) (cs_energy_uwh r)
  (cs_stop_reason r) (cs_recovery_at r) (cs_abnormal_since r) (cs_manual_closed_at r)
  (cs_manual_close_reason r) (cs_closed_by r) (cs_review_reasons r) (cs_received_at r).

Definition set_cs_settlement_completed_at (v : option Z) (r : ChargingSession) : ChargingSession :=
  mkSession (cs_id r) (cs_charge_point_id r) (cs_connector_id r) (cs_driver_id r) (cs_tag_tail
  r) (cs_authorization_status r) (cs_started_at r) (cs_ended_at r) (cs_idle_since r)
  (cs_billing_lifecycle_version r) (cs_release_detection r) (cs_connector_released_at r) v
  (cs_settlement_reason r) (cs_meter_start_uwh r) (cs_meter_stop_uwh r) (cs_energy_uwh r)
  (cs_stop_reason r) (cs_recovery_at r) (cs_abnormal_since r) (cs_manual_closed_at r)
  (cs_manual_close_reason r) (cs_closed_by r) (cs_review_reasons r) (cs_received_at r).

Definition set_cs_settlement_reason (v : option SettlementReason) (r : ChargingSession) : ChargingSession :=
  mkSession (cs_id r) (cs_charge_point_id r) (cs_connector_id r) (cs_driver_id r) (cs_tag_tail
  r) (cs_authorization_status r) (cs_started_at r) (cs_ended_at r) (cs_idle_since r)
  (cs_billing_lifecycle_version r) (cs_release_detection r) (cs_connector_released_at r)
  (cs_settlement_completed_at r) v (cs_meter_start_uwh r) (cs_meter_stop_uwh r) (cs_energy_uwh
  r) (cs_stop_reason r) (cs_recovery_at r) (cs_abnormal_since r) (cs_manual_closed_at r)
  (cs_manual_close_reason r) (cs_closed_by r) (cs_review_reasons r) (cs_received_at r).

Definition set_cs_review_reasons (v : list string) (r : ChargingSession) : ChargingSession :=
  mkSession (cs_id r) (cs_charge_point_id r) (cs_connector_id r) (cs_driver_id r) (cs_tag_tail
  r) (cs_authorization_status r) (cs_started_at r) (cs_ended_at r) (cs_idle_since r)
  (cs_billing_lifecycle_version r) (cs_release_detection r) (cs_connector_released_at r)
  (cs_settlement_completed_at r) (cs_settlement_reason r) (cs_meter_start_uwh r)
  (cs_meter_stop_uwh r) (cs_energy_uwh r) (cs_stop_reason r) (cs_recovery_at r)
  (cs_abnormal_since r) (cs_manual_closed_at r) (cs_manual_close_reason r) (cs_closed_by r) v
  (cs_received_at r).

Definition set_cs_meter_stop_uwh (v : option Z) (r : ChargingSession) : ChargingSession :=
  mkSession (cs_id r) (cs_charge_point_id r) (cs_connector_id r) (cs_driver_id r) (cs_tag_tail
  r) (cs_authorization_status r) (cs_started_at r) (cs_ended_at r) (cs_idle_since r)
  (cs_billing_lifecycle_version r) (cs_release_detection r) (cs_connector_released_at r)
  (cs_settlement_completed_at r) (cs_settlement_reason r) (cs_meter_start_uwh r) v
  (cs_energy_uwh r) (cs_stop_reason r) (cs_recovery_at r) (cs_abnormal_since r)
  (cs_manual_closed_at r) (cs_manual_close_reason r) (cs_closed_by r) (cs_review_reasons r)
  (cs_received_at r).

Definition set_cs_energy_uwh (v : option Z) (r : ChargingSession) : ChargingSession :=
  mkSession (cs_id r) (cs_charge_point_id r) (cs_connector_id r) (cs_driver_id r) (cs_tag_tail
  r) (cs_authorization_status r) (cs_started_at r) (cs_ended_at r) (cs_idle_since r)
  (cs_billing_lifecycle_version r) (cs_release_detection r) (cs_connector_released_at r)
  (cs_settlement_completed_at r) (cs_settlement_reason r) (cs_meter_start_uwh r)
  (cs_meter_stop_uwh r) v (cs_stop_reason r) (cs_recovery_at r) (cs_abnormal_since r)
  (cs_manual_closed_at r) (cs_manual_close_reason r) (cs_closed_by r) (cs_review_reasons r)
  (cs_received_at r).

Definition set_cs_stop_reason (v : option string) (r : ChargingSession) : ChargingSession :=
  mkSession (cs_id r) (cs_charge_point_id r) (cs_connector_id r) (cs_driver_id r) (cs_tag_tail
  r) (cs_authorization_status r) (cs_started_at r) (cs_ended_at r) (cs_idle_since r)
  (cs_billing_lifecycle_version r) (cs_release_detection r) (cs_connector_released_at r)
  (cs_settlement_completed_at r) (cs_settlement_reason r) (cs_meter_start_uwh r)
  (cs_meter_stop_uwh r) (cs_energy_uwh r) v (cs_recovery_at r) (cs_abnormal_since r)
  (cs_manual_closed_at r) (cs_manual_close_reason r) (cs_closed_by r) (cs_review_reasons r)
  (cs_received_at r).

Definition set_cs_recovery_at (v : option Z) (r : ChargingSession) : ChargingSession :=
  mkSession (cs_id r) (cs_charge_point_id r) (cs_connector_id r) (cs_driver_id r) (cs_tag_tail
  r) (cs_authorization_status r) (cs_started_at r) (cs_ended_at r) (cs_idle_since r)
  (cs_billing_lifecycle_version r) (cs_release_detection r) (cs_connector_released_at r)
  (cs_settlement_completed_at r) (cs_settlement_reason r) (cs_meter_start_uwh r)
  (cs_meter_stop_uwh r) (cs_energy_uwh r) (cs_stop_reason r) v (cs_abnormal_since r)
  (cs_manual_closed_at r) (cs_manual_close_reason r) (cs_closed_by r) (cs_review_reasons r)
  (cs_received_at r).

Definition set_cs_abnormal_since (v : option Z) (r : ChargingSession) : ChargingSession :=
  mkSession (cs_id r) (cs_charge_point_id r) (cs_connector_id r) (cs_driver_id r) (cs_tag_tail
  r) (cs_authorization_status r) (cs_started_at r) (cs_ended_at r) (cs_idle_since r)
  (cs_billing_lifecycle_version r) (cs_release_detection r) (cs_connector_released_at r)
  (cs_settlement_completed_at r) (cs_settlement_reason r) (cs_meter_start_uwh r)
  (cs_meter_stop_uwh r) (cs_energy_uwh r) (cs_stop_reason r) (cs_recovery_at r) v
  (cs_manual_closed_at r) (cs_manual_close_reason r) (cs_closed_by r) (cs_review_reasons r)
  (cs_received_at r).

Definition set_cs_manual_closed_at (v : option Z) (r : ChargingSession) : ChargingSession :=
  mkSession (cs_id r) (cs_charge_point_id r) (cs_connector_id r) (cs_driver_id r) (cs_tag_tail
  r) (cs_authorization_status r) (cs_started_at r) (cs_ended_at r) (cs_idle_since r)
  (cs_billing_lifecycle_version r) (cs_release_detection r) (cs_connector_released_at r)
  (cs_settlement_completed_at r) (cs_settlement_reason r) (cs_meter_start_uwh r)
  (cs_meter_stop_uwh r) (cs_energy_uwh r) (cs_stop_reason r) (cs_recovery_at r)
  (cs_abnormal_since r) v (cs_manual_close_reason r) (cs_closed_by r) (cs_review_reasons r)
  (cs_received_at r).

Definition set_cs_manual_close_reason (v : option string) (r : ChargingSession) : ChargingSession :=
  mkSession (cs_id r) (cs_charge_point_id r) (cs_connector_id r) (cs_driver_id r) (cs_tag_tail
  r) (cs_authorization_status r) (cs_started_at r) (cs_ended_at r) (cs_idle_since r)
  (cs_billing_lifecycle_version r) (cs_release_detection r) (cs_connector_released_at r)
  (cs_settlement_completed_at r) (cs_settlement_reason r) (cs_meter_start_uwh r)
  (cs_meter_stop_uwh r) (cs_energy_uwh r) (cs_stop_reason r) (cs_recovery_at r)
  (cs_abnormal_since r) (cs_manual_closed_at r) v (cs_closed_by r) (cs_review_reasons r)
  (cs_received_at r).

Definition set_cs_closed_by (v : option Z) (r : ChargingSession) : ChargingSession :=
  mkSession (cs_id r) (cs_charge_point_id r) (cs_connector_id r) (cs_driver_id r) (cs_tag_tail
  r) (cs_authorization_status r) (cs_started_at r) (cs_ended_at r) (cs_idle_since r)
  (cs_billing_lifecycle_version r) (cs_release_detection r) (cs_connector_released_at r)
  (cs_settlement_completed_at r) (cs_settlement_reason r) (cs_meter_start_uwh r)
  (cs_meter_stop_uwh r) (cs_energy_uwh r) (cs_stop_reason r) (cs_recovery_at r)
  (cs_abnormal_since r) (cs_manual_closed_at r) (cs_manual_close_reason r) v
  (cs_review_reasons r) (cs_received_at r).

Record OccupationInterval := mkInterval {
  oi_id : Z; oi_session_id : Z; oi_started_at : Z; oi_ended_at : option Z; oi_confirmed :
  bool; oi_end_reason : option string
}.

Definition set_oi_ended_at (v : option Z) (r : OccupationInterval) : OccupationInterval :=
  mkInterval (oi_id r) (oi_session_id r) (oi_started_at r) v (oi_confirmed r) (oi_end_reason
  r).

Definition set_oi_confirmed (v : bool) (r : OccupationInterval) : OccupationInterval :=
  mkInterval (oi_id r) (oi_session_id r) (oi_started_at r) (oi_ended_at r) v (oi_end_reason r).

Definition set_oi_end_reason (v : option string) (r : OccupationInterval) : OccupationInterval :=
  mkInterval (oi_id r) (oi_session_id r) (oi_started_at r) (oi_ended_at r) (oi_confirmed r) v.

Record MeterSample := mkSample {
  ms_id : Z; ms_session_id : Z; ms_timestamp : Z; ms_measurand : string; ms_phase : string;
  ms_location : string; ms_value_u : Z; ms_unit : string
}.

Record SessionEvent := mkEvent {
  ev_id : Z; ev_session_id : Z; ev_action : string; ev_actor_id : option Z; ev_details : list
  (string * Json); ev_occurred_at : Z
}.

Record PendingMessage := mkPending {
  pm_id : Z; pm_charge_point_id : Z; pm_action : string; pm_message_id : string; pm_reason :
  string; pm_payload : list (string * Json); pm_received_at : Z
}.

Record Invoice := mkInvoice {
  inv_id : Z; inv_session_id : Z; inv_driver_id : Z; inv_station_id : Z; inv_total_vnd : Z;
  inv_rounding_rule : string; inv_created_at : Z
}.

Record InvoiceLine := mkLine {
  il_invoice_id : Z; il_type : LineType; il_local_date : Z; il_started_at : Z; il_ended_at :
  Z; il_energy_uwh : Z; il_rate_vnd : Z; il_band_label : string; il_interpolated : bool;
  il_tariff_id : Z; il_amount_vnd : Z
}.

(** The facts a notification text is rendered from: the text is one fixed rendering of them. *)
Record Message := mkMessage {
  msg_station_name : string; msg_at : Z; msg_energy_uwh : option Z; msg_amount_vnd : option Z;
  msg_final : bool
}.

Record DriverNotification := mkNotification {
  dn_id : Z; dn_driver_id : Z; dn_session_id : Z; dn_event_type : NotifyKind; dn_event_id :
  string; dn_title : string; dn_message : Message; dn_occurred_at : Z; dn_created_at : Z;
  dn_read_at : option Z; dn_email_status : EmailStatus; dn_attempts : Z; dn_next_attempt_at :
  Z; dn_lease_until : option Z; dn_lease_token : option Z
}.

Record ChargingCard := mkCard {
  cc_id : Z; cc_tag_hash : string; cc_tag_tail : string; cc_driver_id : Z; cc_issuer_id : Z;
  cc_status : string; cc_expires_at : option Z
}.

Record AuthorizationAttempt := mkAttempt {
  aa_id : Z; aa_charge_point_id : Z; aa_tag_tail : string; aa_result : string; aa_received_at
  : Z
}.

Record DriverVirtualTag := mkVirtualTag {
  vt_driver_id : Z; vt_card_id : Z; vt_id_tag : string
}.

Record DriverStartRequest := mkStartRequest {
  sr_id : Z; sr_driver_id : Z; sr_connector_id : Z; sr_charge_point_id : Z; sr_created_at : Z;
  sr_status : string; sr_reply_status : string; sr_rejection_reason : option string;
  sr_balance_vnd : option Z; sr_minimum_balance_vnd : option Z; sr_reply_at : option Z;
  sr_lease_until : Z; sr_session_id : option Z
}.

Definition set_sr_status (v : string) (r : DriverStartRequest) : DriverStartRequest :=
  mkStartRequest (sr_id r) (sr_driver_id r) (sr_connector_id r) (sr_charge_point_id r)
  (sr_created_at r) v (sr_reply_status r) (sr_rejection_reason r) (sr_balance_vnd r)
  (sr_minimum_balance_vnd r) (sr_reply_at r) (sr_lease_until r) (sr_session_id r).

Definition set_sr_reply_status (v : string) (r : DriverStartRequest) : DriverStartRequest :=
  mkStartRequest (sr_id r) (sr_driver_id r) (sr_connector_id r) (sr_charge_point_id r)
  (sr_created_at r) (sr_status r) v (sr_rejection_reason r) (sr_balance_vnd r)
  (sr_minimum_balance_vnd r) (sr_reply_at r) (sr_lease_until r) (sr_session_id r).

Definition set_sr_rejection_reason (v : option string) (r : DriverStartRequest) : DriverStartRequest :=
  mkStartRequest (sr_id r) (sr_driver_id r) (sr_connector_id r) (sr_charge_point_id r)
  (sr_created_at r) (sr_status r) (sr_reply_status r) v (sr_balance_vnd r)
  (sr_minimum_balance_vnd r) (sr_reply_at r) (sr_lease_until r) (sr_session_id r).

Definition set_sr_balance_vnd (v : option Z) (r : DriverStartRequest) : DriverStartRequest :=
  mkStartRequest (sr_id r) (sr_driver_id r) (sr_connector_id r) (sr_charge_point_id r)
  (sr_created_at r) (sr_status r) (sr_reply_status r) (sr_rejection_reason r) v
  (sr_minimum_balance_vnd r) (sr_reply_at r) (sr_lease_until r) (sr_session_id r).

Definition set_sr_minimum_balance_vnd (v : option Z) (r : DriverStartRequest) : DriverStartRequest :=
  mkStartRequest (sr_id r) (sr_driver_id r) (sr_connector_id r) (sr_charge_point_id r)
  (sr_created_at r) (sr_status r) (sr_reply_status r) (sr_rejection_reason r) (sr_balance_vnd
  r) v (sr_reply_at r) (sr_lease_until r) (sr_session_id r).

Definition set_sr_reply_at (v : option Z) (r : DriverStartRequest) : DriverStartRequest :=
  mkStartRequest (sr_id r) (sr_driver_id r) (sr_connector_id r) (sr_charge_point_id r)
  (sr_created_at r) (sr_status r) (sr_reply_status r) (sr_rejection_reason r) (sr_balance_vnd
  r) (sr_minimum_balance_vnd r) v (sr_lease_until r) (sr_session_id r).

Definition set_sr_lease_until (v : Z) (r : DriverStartRequest) : DriverStartRequest :=
  mkStartRequest (sr_id r) (sr_driver_id r) (sr_connector_id r) (sr_charge_point_id r)
  (sr_created_at r) (sr_status r) (sr_reply_status r) (sr_rejection_reason r) (sr_balance_vnd
  r) (sr_minimum_balance_vnd r) (sr_reply_at r) v (sr_session_id r).

Definition set_sr_session_id (v : option Z) (r : DriverStartRequest) : DriverStartRequest :=
  mkStartRequest (sr_id r) (sr_driver_id r) (sr_connector_id r) (sr_charge_point_id r)
  (sr_created_at r) (sr_status r) (sr_reply_status r) (sr_rejection_reason r) (sr_balance_vnd
  r) (sr_minimum_balance_vnd r) (sr_reply_at r) (sr_lease_until r) v.

Record StationPower := mkStationPower {
  pw_station_id : Z; pw_limit_w : Z; pw_applied_limit_w : Z; pw_version : Z; pw_generation :
  Z; pw_enabled : bool; pw_target_enabled : bool; pw_state : PowerState;
  pw_zero_limit_verified : bool; pw_offline_retention_verified : bool; pw_verification_note :
  string; pw_issue : option string; pw_dirty_at : option Z; pw_last_plan_at : option Z
}.

Definition set_pw_limit_w (v : Z) (r : StationPower) : StationPower :=
  mkStationPower (pw_station_id r) v (pw_applied_limit_w r) (pw_version r) (pw_generation r)
  (pw_enabled r) (pw_target_enabled r) (pw_state r) (pw_zero_limit_verified r)
  (pw_offline_retention_verified r) (pw_verification_note r) (pw_issue r) (pw_dirty_at r)
  (pw_last_plan_at r).

Definition set_pw_applied_limit_w (v : Z) (r : StationPower) : StationPower :=
  mkStationPower (pw_station_id r) (pw_limit_w r) v (pw_version r) (pw_generation r)
  (pw_enabled r) (pw_target_enabled r) (pw_state r) (pw_zero_limit_verified r)
  (pw_offline_retention_verified r) (pw_verification_note r) (pw_issue r) (pw_dirty_at r)
  (pw_last_plan_at r).

Definition set_pw_version (v : Z) (r : StationPower) : StationPower :=
  mkStationPower (pw_station_id r) (pw_limit_w r) (pw_applied_limit_w r) v (pw_generation r)
  (pw_enabled r) (pw_target_enabled r) (pw_state r) (pw_zero_limit_verified r)
  (pw_offline_retention_verified r) (pw_verification_note r) (pw_issue r) (pw_dirty_at r)
  (pw_last_plan_at r).

Definition set_pw_generation (v : Z) (r : StationPower) : StationPower :=
  mkStationPower (pw_station_id r) (pw_limit_w r) (pw_applied_limit_w r) (pw_version r) v
  (pw_enabled r) (pw_target_enabled r) (pw_state r) (pw_zero_limit_verified r)
  (pw_offline_retention_verified r) (pw_verification_note r) (pw_issue r) (pw_dirty_at r)
  (pw_last_plan_at r).

Definition set_pw_enabled (v : bool) (r : StationPower) : StationPower :=
  mkStationPower (pw_station_id r) (pw_limit_w r) (pw_applied_limit_w r) (pw_version r)
  (pw_generation r) v (pw_target_enabled r) (pw_state r) (pw_zero_limit_verified r)
  (pw_offline_retention_verified r) (pw_verification_note r) (pw_issue r) (pw_dirty_at r)
  (pw_last_plan_at r).

Definition set_pw_target_enabled (v : bool) (r : StationPower) : StationPower :=
  mkStationPower (pw_station_id r) (pw_limit_w r) (pw_applied_limit_w r) (pw_version r)
  (pw_generation r) (pw_enabled r) v (pw_state r) (pw_zero_limit_verified r)
  (pw_offline_retention_verified r) (pw_verification_note r) (pw_issue r) (pw_dirty_at r)
  (pw_last_plan_at r).

Definition set_pw_state (v : PowerState) (r : StationPower) : StationPower :=
  mkStationPower (pw_station_id r) (pw_limit_w r) (pw_applied_limit_w r) (pw_version r)
  (pw_generation r) (pw_enabled r) (pw_target_enabled r) v (pw_zero_limit_verified r)
  (pw_offline_retention_verified r) (pw_verification_note r) (pw_issue r) (pw_dirty_at r)
  (pw_last_plan_at r).

Definition set_pw_zero_limit_verified (v : bool) (r : StationPower) : StationPower :=
  mkStationPower (pw_station_id r) (pw_limit_w r) (pw_applied_limit_w r) (pw_version r)
  (pw_generation r) (pw_enabled r) (pw_target_enabled r) (pw_state r) v
  (pw_offline_retention_verified r) (pw_verification_note r) (pw_issue r) (pw_dirty_at r)
  (pw_last_plan_at r).

Definition set_pw_offline_retention_verified (v : bool) (r : StationPower) : StationPower :=
  mkStationPower (pw_station_id r) (pw_limit_w r) (pw_applied_limit_w r) (pw_version r)
  (pw_generation r) (pw_enabled r) (pw_target_enabled r) (pw_state r) (pw_zero_limit_verified
  r) v (pw_verification_note r) (pw_issue r) (pw_dirty_at r) (pw_last_plan_at r).

Definition set_pw_verification_note (v : string) (r : StationPower) : StationPower :=
  mkStationPower (pw_station_id r) (pw_limit_w r) (pw_applied_limit_w r) (pw_version r)
  (pw_generation r) (pw_enabled r) (pw_target_enabled r) (pw_state r) (pw_zero_limit_verified
  r) (pw_offline_retention_verified r) v (pw_issue r) (pw_dirty_at r) (pw_last_plan_at r).

Definition set_pw_issue (v : option string) (r : StationPower) : StationPower :=
  mkStationPower (pw_station_id r) (pw_limit_w r) (pw_applied_limit_w r) (pw_version r)
  (pw_generation r) (pw_enabled r) (pw_target_enabled r) (pw_state r) (pw_zero_limit_verified
  r) (pw_offline_retention_verified r) (pw_verification_note r) v (pw_dirty_at r)
  (pw_last_plan_at r).

Definition set_pw_dirty_at (v : option Z) (r : StationPower) : StationPower :=
  mkStationPower (pw_station_id r) (pw_limit_w r) (pw_applied_limit_w r) (pw_version r)
  (pw_generation r) (pw_enabled r) (pw_target_enabled r) (pw_state r) (pw_zero_limit_verified
  r) (pw_offline_retention_verified r) (pw_verification_note r) (pw_issue r) v
  (pw_last_plan_at r).

Definition set_pw_last_plan_at (v : option Z) (r : StationPower) : StationPower :=
  mkStationPower (pw_station_id r) (pw_limit_w r) (pw_applied_limit_w r) (pw_version r)
  (pw_generation r) (pw_enabled r) (pw_target_enabled r) (pw_state r) (pw_zero_limit_verified
  r) (pw_offline_retention_verified r) (pw_verification_note r) (pw_issue r) (pw_dirty_at r) v.

Record ConnectorPower := mkConnectorPower {
  kp_connector_id : Z; kp_station_id : Z; kp_rated_w : Z; kp_confirmed_w : Z; kp_reserved_w :
  Z; kp_desired_w : Z; kp_baseline_boot_at : option Z; kp_pending_command_id : option Z;
  kp_profile_id : Z
}.

Definition set_kp_rated_w (v : Z) (r : ConnectorPower) : ConnectorPower :=
  mkConnectorPower (kp_connector_id r) (kp_station_id r) v (kp_confirmed_w r) (kp_reserved_w
  r) (kp_desired_w r) (kp_baseline_boot_at r) (kp_pending_command_id r) (kp_profile_id r).

Definition set_kp_confirmed_w (v : Z) (r : ConnectorPower) : ConnectorPower :=
  mkConnectorPower (kp_connector_id r) (kp_station_id r) (kp_rated_w r) v (kp_reserved_w r)
  (kp_desired_w r) (kp_baseline_boot_at r) (kp_pending_command_id r) (kp_profile_id r).

Definition set_kp_reserved_w (v : Z) (r : ConnectorPower) : ConnectorPower :=
  mkConnectorPower (kp_connector_id r) (kp_station_id r) (kp_rated_w r) (kp_confirmed_w r) v
  (kp_desired_w r) (kp_baseline_boot_at r) (kp_pending_command_id r) (kp_profile_id r).

Definition set_kp_desired_w (v : Z) (r : ConnectorPower) : ConnectorPower :=
  mkConnectorPower (kp_connector_id r) (kp_station_id r) (kp_rated_w r) (kp_confirmed_w r)
  (kp_reserved_w r) v (kp_baseline_boot_at r) (kp_pending_command_id r) (kp_profile_id r).

Definition set_kp_baseline_boot_at (v : option Z) (r : ConnectorPower) : ConnectorPower :=
  mkConnectorPower (kp_connector_id r) (kp_station_id r) (kp_rated_w r) (kp_confirmed_w r)
  (kp_reserved_w r) (kp_desired_w r) v (kp_pending_command_id r) (kp_profile_id r).

Definition set_kp_pending_command_id (v : option Z) (r : ConnectorPower) : ConnectorPower :=
  mkConnectorPower (kp_connector_id r) (kp_station_id r) (kp_rated_w r) (kp_confirmed_w r)
  (kp_reserved_w r) (kp_desired_w r) (kp_baseline_boot_at r) v (kp_profile_id r).

Record PowerCommand := mkPowerCommand {
  pc_id : Z; pc_station_id : Z; pc_connector_id : Z; pc_generation : Z; pc_action : string;
  pc_payload : list (string * Json); pc_status : string; pc_created_at : Z; pc_completed_at :
  option Z
}.

Definition set_pc_status (v : string) (r : PowerCommand) : PowerCommand :=
  mkPowerCommand (pc_id r) (pc_station_id r) (pc_connector_id r) (pc_generation r) (pc_action
  r) (pc_payload r) v (pc_created_at r) (pc_completed_at r).

Definition set_pc_completed_at (v : option Z) (r : PowerCommand) : PowerCommand :=
  mkPowerCommand (pc_id r) (pc_station_id r) (pc_connector_id r) (pc_generation r) (pc_action
  r) (pc_payload r) (pc_status r) (pc_created_at r) v.

Record PowerSchedule := mkPowerSchedule {
  ps_id : Z; ps_station_id : Z; ps_effective_from : Z
}.

Record PowerScheduleBand := mkPowerScheduleBand {
  pb_schedule_id : Z; pb_start_min : Z; pb_end_min : Z; pb_power_limit_w : Z
}.

Record ReservationCapability := mkCapability {
  rc_charge_point_id : Z; rc_boot_at : option Z; rc_supported : bool; rc_checked_at : option
  Z; rc_next_attempt_at : Z; rc_lease_token : option Z; rc_locked_until : option Z; rc_outcome
  : string
}.

Definition set_rc_boot_at (v : option Z) (r : ReservationCapability) : ReservationCapability :=
  mkCapability (rc_charge_point_id r) v (rc_supported r) (rc_checked_at r) (rc_next_attempt_at
  r) (rc_lease_token r) (rc_locked_until r) (rc_outcome r).

Definition set_rc_supported (v : bool) (r : ReservationCapability) : ReservationCapability :=
  mkCapability (rc_charge_point_id r) (rc_boot_at r) v (rc_checked_at r) (rc_next_attempt_at
  r) (rc_lease_token r) (rc_locked_until r) (rc_outcome r).

Definition set_rc_checked_at (v : option Z) (r : ReservationCapability) : ReservationCapability :=
  mkCapability (rc_charge_point_id r) (rc_boot_at r) (rc_supported r) v (rc_next_attempt_at r)
  (rc_lease_token r) (rc_locked_until r) (rc_outcome r).

Definition set_rc_next_attempt_at (v : Z) (r : ReservationCapability) : ReservationCapability :=
  mkCapability (rc_charge_point_id r) (rc_boot_at r) (rc_supported r) (rc_checked_at r) v
  (rc_lease_token r) (rc_locked_until r) (rc_outcome r).

Definition set_rc_lease_token (v : option Z) (r : ReservationCapability) : ReservationCapability :=
  mkCapability (rc_charge_point_id r) (rc_boot_at r) (rc_supported r) (rc_checked_at r)
  (rc_next_attempt_at r) v (rc_locked_until r) (rc_outcome r).

Definition set_rc_locked_until (v : option Z) (r : ReservationCapability) : ReservationCapability :=
  mkCapability (rc_charge_point_id r) (rc_boot_at r) (rc_supported r) (rc_checked_at r)
  (rc_next_attempt_at r) (rc_lease_token r) v (rc_outcome r).

Definition set_rc_outcome (v : string) (r : ReservationCapability) : ReservationCapability :=
  mkCapability (rc_charge_point_id r) (rc_boot_at r) (rc_supported r) (rc_checked_at r)
  (rc_next_attempt_at r) (rc_lease_token r) (rc_locked_until r) v.

Record ReservationPolicy := mkPolicy {
  rp_station_id : Z; rp_fee_vnd : Z; rp_version : Z
}.

Record Reservation := mkReservation {
  rv_id : Z; rv_ocpp_id : Z; rv_driver_id : Z; rv_station_id : Z; rv_charge_point_id : Z;
  rv_connector_id : Z; rv_card_id : Z; rv_request_hash : string; rv_status : RStatus;
  rv_created_at : Z; rv_arrival_at : Z; rv_expires_at : Z; rv_updated_at : Z; rv_outcome :
  option string; rv_cancel_request_id : option Z; rv_cancel_requested_at : option Z;
  rv_cancel_reason : option string; rv_no_show_exempt : bool; rv_session_id : option Z;
  rv_fee_vnd : Z; rv_fee_policy_version : Z; rv_fee_decision : FeeDecision; rv_fee_reason :
  option string; rv_fee_decided_at : option Z; rv_fee_ledger_id : option Z; rv_activated_at :
  option Z; rv_expiry_fee_eligible : option bool
}.

Definition set_rv_status (v : RStatus) (r : Reservation) : Reservation :=
  mkReservation (rv_id r) (rv_ocpp_id r) (rv_driver_id r) (rv_station_id r)
  (rv_charge_point_id r) (rv_connector_id r) (rv_card_id r) (rv_request_hash r) v
  (rv_created_at r) (rv_arrival_at r) (rv_expires_at r) (rv_updated_at r) (rv_outcome r)
  (rv_cancel_request_id r) (rv_cancel_requested_at r) (rv_cancel_reason r) (rv_no_show_exempt
  r) (rv_session_id r) (rv_fee_vnd r) (rv_fee_policy_version r) (rv_fee_decision r)
  (rv_fee_reason r) (rv_fee_decided_at r) (rv_fee_ledger_id r) (rv_activated_at r)
  (rv_expiry_fee_eligible r).

Definition set_rv_updated_at (v : Z) (r : Reservation) : Reservation :=
  mkReservation (rv_id r) (rv_ocpp_id r) (rv_driver_id r) (rv_station_id r)
  (rv_charge_point_id r) (rv_connector_id r) (rv_card_id r) (rv_request_hash r) (rv_status r)
  (rv_created_at r) (rv_arrival_at r) (rv_expires_at r) v (rv_outcome r) (rv_cancel_request_id
  r) (rv_cancel_requested_at r) (rv_cancel_reason r) (rv_no_show_exempt r) (rv_session_id r)
  (rv_fee_vnd r) (rv_fee_policy_version r) (rv_fee_decision r) (rv_fee_reason r)
  (rv_fee_decided_at r) (rv_fee_ledger_id r) (rv_activated_at r) (rv_expiry_fee_eligible r).

Definition set_rv_outcome (v : option string) (r : Reservation) : Reservation :=
  mkReservation (rv_id r) (rv_ocpp_id r) (rv_driver_id r) (rv_station_id r)
  (rv_charge_point_id r) (rv_connector_id r) (rv_card_id r) (rv_request_hash r) (rv_status r)
  (rv_created_at r) (rv_arrival_at r) (rv_expires_at r) (rv_updated_at r) v
  (rv_cancel_request_id r) (rv_cancel_requested_at r) (rv_cancel_reason r) (rv_no_show_exempt
  r) (rv_session_id r) (rv_fee_vnd r) (rv_fee_policy_version r) (rv_fee_decision r)
  (rv_fee_reason r) (rv_fee_decided_at r) (rv_fee_ledger_id r) (rv_activated_at r)
  (rv_expiry_fee_eligible r).

Definition set_rv_cancel_request_id (v : option Z) (r : Reservation) : Reservation :=
  mkReservation (rv_id r) (rv_ocpp_id r) (rv_driver_id r) (rv_station_id r)
  (rv_charge_point_id r) (rv_connector_id r) (rv_card_id r) (rv_request_hash r) (rv_status r)
  (rv_created_at r) (rv_arrival_at r) (rv_expires_at r) (rv_updated_at r) (rv_outcome r) v
  (rv_cancel_requested_at r) (rv_cancel_reason r) (rv_no_show_exempt r) (rv_session_id r)
  (rv_fee_vnd r) (rv_fee_policy_version r) (rv_fee_decision r) (rv_fee_reason r)
  (rv_fee_decided_at r) (rv_fee_ledger_id r) (rv_activated_at r) (rv_expiry_fee_eligible r).

Definition set_rv_cancel_requested_at (v : option Z) (r : Reservation) : Reservation :=
  mkReservation (rv_id r) (rv_ocpp_id r) (rv_driver_id r) (rv_station_id r)
  (rv_charge_point_id r) (rv_connector_id r) (rv_card_id r) (rv_request_hash r) (rv_status r)
  (rv_created_at r) (rv_arrival_at r) (rv_expires_at r) (rv_updated_at r) (rv_outcome r)
  (rv_cancel_request_id r) v (rv_cancel_reason r) (rv_no_show_exempt r) (rv_session_id r)
  (rv_fee_vnd r) (rv_fee_policy_version r) (rv_fee_decision r) (rv_fee_reason r)
  (rv_fee_decided_at r) (rv_fee_ledger_id r) (rv_activated_at r) (rv_expiry_fee_eligible r).

Definition set_rv_cancel_reason (v : option string) (r : Reservation) : Reservation :=
  mkReservation (rv_id r) (rv_ocpp_id r) (rv_driver_id r) (rv_station_id r)
  (rv_charge_point_id r) (rv_connector_id r) (rv_card_id r) (rv_request_hash r) (rv_status r)
  (rv_created_at r) (rv_arrival_at r) (rv_expires_at r) (rv_updated_at r) (rv_outcome r)
  (rv_cancel_request_id r) (rv_cancel_requested_at r) v (rv_no_show_exempt r) (rv_session_id
  r) (rv_fee_vnd r) (rv_fee_policy_version r) (rv_fee_decision r) (rv_fee_reason r)
  (rv_fee_decided_at r) (rv_fee_ledger_id r) (rv_activated_at r) (rv_expiry_fee_eligible r).

Definition set_rv_no_show_exempt (v : bool) (r : Reservation) : Reservation :=
  mkReservation (rv_id r) (rv_ocpp_id r) (rv_driver_id r) (rv_station_id r)
  (rv_charge_point_id r) (rv_connector_id r) (rv_card_id r) (rv_request_hash r) (rv_status r)
  (rv_created_at r) (rv_arrival_at r) (rv_expires_at r) (rv_updated_at r) (rv_outcome r)
  (rv_cancel_request_id r) (rv_cancel_requested_at r) (rv_cancel_reason r) v (rv_session_id r)
  (rv_fee_vnd r) (rv_fee_policy_version r) (rv_fee_decision r) (rv_fee_reason r)
  (rv_fee_decided_at r) (rv_fee_ledger_id r) (rv_activated_at r) (rv_expiry_fee_eligible r).

Definition set_rv_session_id (v : option Z) (r : Reservation) : Reservation :=
  mkReservation (rv_id r) (rv_ocpp_id r) (rv_driver_id r) (rv_station_id r)
  (rv_charge_point_id r) (rv_connector_id r) (rv_card_id r) (rv_request_hash r) (rv_status r)
  (rv_created_at r) (rv_arrival_at r) (rv_expires_at r) (rv_updated_at r) (rv_outcome r)
  (rv_cancel_request_id r) (rv_cancel_requested_at r) (rv_cancel_reason r) (rv_no_show_exempt
  r) v (rv_fee_vnd r) (rv_fee_policy_version r) (rv_fee_decision r) (rv_fee_reason r)
  (rv_fee_decided_at r) (rv_fee_ledger_id r) (rv_activated_at r) (rv_expiry_fee_eligible r).

Definition set_rv_fee_decision (v : FeeDecision) (r : Reservation) : Reservation :=
  mkReservation (rv_id r) (rv_ocpp_id r) (rv_driver_id r) (rv_station_id r)
  (rv_charge_point_id r) (rv_connector_id r) (rv_card_id r) (rv_request_hash r) (rv_status r)
  (rv_created_at r) (rv_arrival_at r) (rv_expires_at r) (rv_updated_at r) (rv_outcome r)
  (rv_cancel_request_id r) (rv_cancel_requested_at r) (rv_cancel_reason r) (rv_no_show_exempt
  r) (rv_session_id r) (rv_fee_vnd r) (rv_fee_policy_version r) v (rv_fee_reason r)
  (rv_fee_decided_at r) (rv_fee_ledger_id r) (rv_activated_at r) (rv_expiry_fee_eligible r).

Definition set_rv_fee_reason (v : option string) (r : Reservation) : Reservation :=
  mkReservation (rv_id r) (rv_ocpp_id r) (rv_driver_id r) (rv_station_id r)
  (rv_charge_point_id r) (rv_connector_id r) (rv_card_id r) (rv_request_hash r) (rv_status r)
  (rv_created_at r) (rv_arrival_at r) (rv_expires_at r) (rv_updated_at r) (rv_outcome r)
  (rv_cancel_request_id r) (rv_cancel_requested_at r) (rv_cancel_reason r) (rv_no_show_exempt
  r) (rv_session_id r) (rv_fee_vnd r) (rv_fee_policy_version r) (rv_fee_decision r) v
  (rv_fee_decided_at r) (rv_fee_ledger_id r) (rv_activated_at r) (rv_expiry_fee_eligible r).

Definition set_rv_fee_decided_at (v : option Z) (r : Reservation) : Reservation :=
  mkReservation (rv_id r) (rv_ocpp_id r) (rv_driver_id r) (rv_station_id r)
  (rv_charge_point_id r) (rv_connector_id r) (rv_card_id r) (rv_request_hash r) (rv_status r)
  (rv_created_at r) (rv_arrival_at r) (rv_expires_at r) (rv_updated_at r) (rv_outcome r)
  (rv_cancel_request_id r) (rv_cancel_requested_at r) (rv_cancel_reason r) (rv_no_show_exempt
  r) (rv_session_id r) (rv_fee_vnd r) (rv_fee_policy_version r) (rv_fee_decision r)
  (rv_fee_reason r) v (rv_fee_ledger_id r) (rv_activated_at r) (rv_expiry_fee_eligible r).

Definition set_rv_fee_ledger_id (v : option Z) (r : Reservation) : Reservation :=
  mkReservation (rv_id r) (rv_ocpp_id r) (rv_driver_id r) (rv_station_id r)
  (rv_charge_point_id r) (rv_connector_id r) (rv_card_id r) (rv_request_hash r) (rv_status r)
  (rv_created_at r) (rv_arrival_at r) (rv_expires_at r) (rv_updated_at r) (rv_outcome r)
  (rv_cancel_request_id r) (rv_cancel_requested_at r) (rv_cancel_reason r) (rv_no_show_exempt
  r) (rv_session_id r) (rv_fee_vnd r) (rv_fee_policy_version r) (rv_fee_decision r)
  (rv_fee_reason r) (rv_fee_decided_at r) v (rv_activated_at r) (rv_expiry_fee_eligible r).

Definition set_rv_activated_at (v : option Z) (r : Reservation) : Reservation :=
  mkReservation (rv_id r) (rv_ocpp_id r) (rv_driver_id r) (rv_station_id r)
  (rv_charge_point_id r) (rv_connector_id r) (rv_card_id r) (rv_request_hash r) (rv_status r)
  (rv_created_at r) (rv_arrival_at r) (rv_expires_at r) (rv_updated_at r) (rv_outcome r)
  (rv_cancel_request_id r) (rv_cancel_requested_at r) (rv_cancel_reason r) (rv_no_show_exempt
  r) (rv_session_id r) (rv_fee_vnd r) (rv_fee_policy_version r) (rv_fee_decision r)
  (rv_fee_reason r) (rv_fee_decided_at r) (rv_fee_ledger_id r) v (rv_expiry_fee_eligible r).

Definition set_rv_expiry_fee_eligible (v : option bool) (r : Reservation) : Reservation :=
  mkReservation (rv_id r) (rv_ocpp_id r) (rv_driver_id r) (rv_station_id r)
  (rv_charge_point_id r) (rv_connector_id r) (rv_card_id r) (rv_request_hash r) (rv_status r)
  (rv_created_at r) (rv_arrival_at r) (rv_expires_at r) (rv_updated_at r) (rv_outcome r)
  (rv_cancel_request_id r) (rv_cancel_requested_at r) (rv_cancel_reason r) (rv_no_show_exempt
  r) (rv_session_id r) (rv_fee_vnd r) (rv_fee_policy_version r) (rv_fee_decision r)
  (rv_fee_reason r) (rv_fee_decided_at r) (rv_fee_ledger_id r) (rv_activated_at r) v.

Record ReservationCommand := mkRCommand {
  rm_id : Z; rm_reservation_id : Z; rm_action : RAction; rm_status : RCommandStatus;
  rm_attempts : Z; rm_created_at : Z; rm_next_attempt_at : Z; rm_locked_until : option Z;
  rm_lease_token : option Z; rm_outcome : option string
}.

Definition set_rm_status (v : RCommandStatus) (r : ReservationCommand) : ReservationCommand :=
  mkRCommand (rm_id r) (rm_reservation_id r) (rm_action r) v (rm_attempts r) (rm_created_at r)
  (rm_next_attempt_at r) (rm_locked_until r) (rm_lease_token r) (rm_outcome r).

Definition set_rm_attempts (v : Z) (r : ReservationCommand) : ReservationCommand :=
  mkRCommand (rm_id r) (rm_reservation_id r) (rm_action r) (rm_status r) v (rm_created_at r)
  (rm_next_attempt_at r) (rm_locked_until r) (rm_lease_token r) (rm_outcome r).

Definition set_rm_next_attempt_at (v : Z) (r : ReservationCommand) : ReservationCommand :=
  mkRCommand (rm_id r) (rm_reservation_id r) (rm_action r) (rm_status r) (rm_attempts r)
  (rm_created_at r) v (rm_locked_until r) (rm_lease_token r) (rm_outcome r).

Definition set_rm_locked_until (v : option Z) (r : ReservationCommand) : ReservationCommand :=
  mkRCommand (rm_id r) (rm_reservation_id r) (rm_action r) (rm_status r) (rm_attempts r)
  (rm_created_at r) (rm_next_attempt_at r) v (rm_lease_token r) (rm_outcome r).

Definition set_rm_lease_token (v : option Z) (r : ReservationCommand) : ReservationCommand :=
  mkRCommand (rm_id r) (rm_reservation_id r) (rm_action r) (rm_status r) (rm_attempts r)
  (rm_created_at r) (rm_next_attempt_at r) (rm_locked_until r) v (rm_outcome r).

Definition set_rm_outcome (v : option string) (r : ReservationCommand) : ReservationCommand :=
  mkRCommand (rm_id r) (rm_reservation_id r) (rm_action r) (rm_status r) (rm_attempts r)
  (rm_created_at r) (rm_next_attempt_at r) (rm_locked_until r) (rm_lease_token r) v.

Record ReservationEvent := mkREvent {
  re_id : Z; re_reservation_id : Z; re_action : string; re_occurred_at : Z; re_details : list
  (string * Json)
}.

Record ConfigurationIntent := mkIntent {
  ci_id : Z; ci_charge_point_id : Z; ci_key : string; ci_value : Z; ci_state : string;
  ci_reset_id : option Z; ci_verified_at : option Z; ci_actor_id : Z; ci_old_value : option
  string; ci_actual_value : option string; ci_outcome : option string; ci_processing_id :
  option Z; ci_reset_actor_id : option Z; ci_created_at : Z; ci_updated_at : Z;
  ci_next_attempt_at : Z
}.

Definition set_ci_state (v : string) (r : ConfigurationIntent) : ConfigurationIntent :=
  mkIntent (ci_id r) (ci_charge_point_id r) (ci_key r) (ci_value r) v (ci_reset_id r)
  (ci_verified_at r) (ci_actor_id r) (ci_old_value r) (ci_actual_value r) (ci_outcome r)
  (ci_processing_id r) (ci_reset_actor_id r) (ci_created_at r) (ci_updated_at r)
  (ci_next_attempt_at r).

Definition set_ci_reset_id (v : option Z) (r : ConfigurationIntent) : ConfigurationIntent :=
  mkIntent (ci_id r) (ci_charge_point_id r) (ci_key r) (ci_value r) (ci_state r) v
  (ci_verified_at r) (ci_actor_id r) (ci_old_value r) (ci_actual_value r) (ci_outcome r)
  (ci_processing_id r) (ci_reset_actor_id r) (ci_created_at r) (ci_updated_at r)
  (ci_next_attempt_at r).

Definition set_ci_verified_at (v : option Z) (r : ConfigurationIntent) : ConfigurationIntent :=
  mkIntent (ci_id r) (ci_charge_point_id r) (ci_key r) (ci_value r) (ci_state r) (ci_reset_id
  r) v (ci_actor_id r) (ci_old_value r) (ci_actual_value r) (ci_outcome r) (ci_processing_id
  r) (ci_reset_actor_id r) (ci_created_at r) (ci_updated_at r) (ci_next_attempt_at r).

Definition set_ci_old_value (v : option string) (r : ConfigurationIntent) : ConfigurationIntent :=
  mkIntent (ci_id r) (ci_charge_point_id r) (ci_key r) (ci_value r) (ci_state r) (ci_reset_id
  r) (ci_verified_at r) (ci_actor_id r) v (ci_actual_value r) (ci_outcome r) (ci_processing_id
  r) (ci_reset_actor_id r) (ci_created_at r) (ci_updated_at r) (ci_next_attempt_at r).

Definition set_ci_actual_value (v : option string) (r : ConfigurationIntent) : ConfigurationIntent :=
  mkIntent (ci_id r) (ci_charge_point_id r) (ci_key r) (ci_value r) (ci_state r) (ci_reset_id
  r) (ci_verified_at r) (ci_actor_id r) (ci_old_value r) v (ci_outcome r) (ci_processing_id r)
  (ci_reset_actor_id r) (ci_created_at r) (ci_updated_at r) (ci_next_attempt_at r).

Definition set_ci_outcome (v : option string) (r : ConfigurationIntent) : ConfigurationIntent :=
  mkIntent (ci_id r) (ci_charge_point_id r) (ci_key r) (ci_value r) (ci_state r) (ci_reset_id
  r) (ci_verified_at r) (ci_actor_id r) (ci_old_value r) (ci_actual_value r) v
  (ci_processing_id r) (ci_reset_actor_id r) (ci_created_at r) (ci_updated_at r)
  (ci_next_attempt_at r).

Definition set_ci_processing_id (v : option Z) (r : ConfigurationIntent) : ConfigurationIntent :=
  mkIntent (ci_id r) (ci_charge_point_id r) (ci_key r) (ci_value r) (ci_state r) (ci_reset_id
  r) (ci_verified_at r) (ci_actor_id r) (ci_old_value r) (ci_actual_value r) (ci_outcome r) v
  (ci_reset_actor_id r) (ci_created_at r) (ci_updated_at r) (ci_next_attempt_at r).

Definition set_ci_reset_actor_id (v : option Z) (r : ConfigurationIntent) : ConfigurationIntent :=
  mkIntent (ci_id r) (ci_charge_point_id r) (ci_key r) (ci_value r) (ci_state r) (ci_reset_id
  r) (ci_verified_at r) (ci_actor_id r) (ci_old_value r) (ci_actual_value r) (ci_outcome r)
  (ci_processing_id r) v (ci_created_at r) (ci_updated_at r) (ci_next_attempt_at r).

Definition set_ci_updated_at (v : Z) (r : ConfigurationIntent) : ConfigurationIntent :=
  mkIntent (ci_id r) (ci_charge_point_id r) (ci_key r) (ci_value r) (ci_state r) (ci_reset_id
  r) (ci_verified_at r) (ci_actor_id r) (ci_old_value r) (ci_actual_value r) (ci_outcome r)
  (ci_processing_id r) (ci_reset_actor_id r) (ci_created_at r) v (ci_next_attempt_at r).

Definition set_ci_next_attempt_at (v : Z) (r : ConfigurationIntent) : ConfigurationIntent :=
  mkIntent (ci_id r) (ci_charge_point_id r) (ci_key r) (ci_value r) (ci_state r) (ci_reset_id
  r) (ci_verified_at r) (ci_actor_id r) (ci_old_value r) (ci_actual_value r) (ci_outcome r)
  (ci_processing_id r) (ci_reset_actor_id r) (ci_created_at r) (ci_updated_at r) v.

Record ControlRequest := mkControl {
  co_id : Z; co_actor_email : string; co_charge_point_code : string; co_actor_id : Z;
  co_charge_point_id : Z; co_transaction_id : option Z; co_action : string; co_permission :
  option string; co_actor_roles : option (list string); co_payload : list (string * Json);
  co_created_at : Z
}.

Record ControlResult := mkResult {
  cr_status : string; cr_received_at : Z
}.

(** Identity Session. *)
Record LoginSession := mkLoginSession {
  ss_id : Z; ss_user_id : Z; ss_token_hash : string; ss_expires_at : Z; ss_revoked_at : option
  Z
}.

Definition set_ss_revoked_at (v : option Z) (r : LoginSession) : LoginSession :=
  mkLoginSession (ss_id r) (ss_user_id r) (ss_token_hash r) (ss_expires_at r) v.

Record LoginIpAttempt := mkIpAttempt {
  ip_failed_login_count : Z; ip_locked_until : option Z
}.

Definition set_ip_failed_login_count (v : Z) (r : LoginIpAttempt) : LoginIpAttempt :=
  mkIpAttempt v (ip_locked_until r).

Definition set_ip_locked_until (v : option Z) (r : LoginIpAttempt) : LoginIpAttempt :=
  mkIpAttempt (ip_failed_login_count r) v.

(** The states are the account's e-mail, roles and status. *)
Record AccountAudit := mkAccountAudit {
  aca_id : Z; aca_actor_id : Z; aca_target_id : Z; aca_action : string; aca_permission :
  option string; aca_actor_roles : option (list string); aca_before_state : option (string *
  list string * string); aca_after_state : string * list string * string; aca_created_at : Z
}.

Record AlertRuleState := mkRuleState {
  ar_armed : bool; ar_online_since : option Z; ar_recovery_last_seen : option Z;
  ar_recovery_observations : Z
}.

Definition set_ar_armed (v : bool) (r : AlertRuleState) : AlertRuleState :=
  mkRuleState v (ar_online_since r) (ar_recovery_last_seen r) (ar_recovery_observations r).

Definition set_ar_online_since (v : option Z) (r : AlertRuleState) : AlertRuleState :=
  mkRuleState (ar_armed r) v (ar_recovery_last_seen r) (ar_recovery_observations r).

Definition set_ar_recovery_last_seen (v : option Z) (r : AlertRuleState) : AlertRuleState :=
  mkRuleState (ar_armed r) (ar_online_since r) v (ar_recovery_observations r).

Definition set_ar_recovery_observations (v : Z) (r : AlertRuleState) : AlertRuleState :=
  mkRuleState (ar_armed r) (ar_online_since r) (ar_recovery_last_seen r) v.

Record OperationalAlert := mkAlert {
  oa_id : Z; oa_charge_point_id : Z; oa_kind : string; oa_status : AlertStatus; oa_opened_at :
  Z; oa_recovered_at : option Z; oa_acknowledged_at : option Z; oa_acknowledged_by : option Z;
  oa_closed_at : option Z; oa_closed_by : option Z; oa_close_reason : option string;
  oa_details : list (string * Json)
}.

Definition set_oa_status (v : AlertStatus) (r : OperationalAlert) : OperationalAlert :=
  mkAlert (oa_id r) (oa_charge_point_id r) (oa_kind r) v (oa_opened_at r) (oa_recovered_at r)
  (oa_acknowledged_at r) (oa_acknowledged_by r) (oa_closed_at r) (oa_closed_by r)
  (oa_close_reason r) (oa_details r).

Definition set_oa_recovered_at (v : option Z) (r : OperationalAlert) : OperationalAlert :=
  mkAlert (oa_id r) (oa_charge_point_id r) (oa_kind r) (oa_status r) (oa_opened_at r) v
  (oa_acknowledged_at r) (oa_acknowledged_by r) (oa_closed_at r) (oa_closed_by r)
  (oa_close_reason r) (oa_details r).

Definition set_oa_acknowledged_at (v : option Z) (r : OperationalAlert) : OperationalAlert :=
  mkAlert (oa_id r) (oa_charge_point_id r) (oa_kind r) (oa_status r) (oa_opened_at r)
  (oa_recovered_at r) v (oa_acknowledged_by r) (oa_closed_at r) (oa_closed_by r)
  (oa_close_reason r) (oa_details r).

Definition set_oa_acknowledged_by (v : option Z) (r : OperationalAlert) : OperationalAlert :=
  mkAlert (oa_id r) (oa_charge_point_id r) (oa_kind r) (oa_status r) (oa_opened_at r)
  (oa_recovered_at r) (oa_acknowledged_at r) v (oa_closed_at r) (oa_closed_by r)
  (oa_close_reason r) (oa_details r).

Definition set_oa_closed_at (v : option Z) (r : OperationalAlert) : OperationalAlert :=
  mkAlert (oa_id r) (oa_charge_point_id r) (oa_kind r) (oa_status r) (oa_opened_at r)
  (oa_recovered_at r) (oa_acknowledged_at r) (oa_acknowledged_by r) v (oa_closed_by r)
  (oa_close_reason r) (oa_details r).

Definition set_oa_closed_by (v : option Z) (r : OperationalAlert) : OperationalAlert :=
  mkAlert (oa_id r) (oa_charge_point_id r) (oa_kind r) (oa_status r) (oa_opened_at r)
  (oa_recovered_at r) (oa_acknowledged_at r) (oa_acknowledged_by r) (oa_closed_at r) v
  (oa_close_reason r) (oa_details r).

Definition set_oa_close_reason (v : option string) (r : OperationalAlert) : OperationalAlert :=
  mkAlert (oa_id r) (oa_charge_point_id r) (oa_kind r) (oa_status r) (oa_opened_at r)
  (oa_recovered_at r) (oa_acknowledged_at r) (oa_acknowledged_by r) (oa_closed_at r)
  (oa_closed_by r) v (oa_details r).

Record AlertEmail := mkAlertEmail {
  ae_id : Z; ae_alert_id : Z; ae_recipient : string; ae_status : AlertEmailStatus; ae_attempts
  : Z; ae_next_attempt_at : Z; ae_locked_until : option Z; ae_lease_token : option Z;
  ae_sent_at : option Z; ae_last_error : option string
}.

Definition set_ae_status (v : AlertEmailStatus) (r : AlertEmail) : AlertEmail :=
  mkAlertEmail (ae_id r) (ae_alert_id r) (ae_recipient r) v (ae_attempts r)
  (ae_next_attempt_at r) (ae_locked_until r) (ae_lease_token r) (ae_sent_at r) (ae_last_error
  r).

Definition set_ae_attempts (v : Z) (r : AlertEmail) : AlertEmail :=
  mkAlertEmail (ae_id r) (ae_alert_id r) (ae_recipient r) (ae_status r) v (ae_next_attempt_at
  r) (ae_locked_until r) (ae_lease_token r) (ae_sent_at r) (ae_last_error r).

Definition set_ae_next_attempt_at (v : Z) (r : AlertEmail) : AlertEmail :=
  mkAlertEmail (ae_id r) (ae_alert_id r) (ae_recipient r) (ae_status r) (ae_attempts r) v
  (ae_locked_until r) (ae_lease_token r) (ae_sent_at r) (ae_last_error r).

Definition set_ae_locked_until (v : option Z) (r : AlertEmail) : AlertEmail :=
  mkAlertEmail (ae_id r) (ae_alert_id r) (ae_recipient r) (ae_status r) (ae_attempts r)
  (ae_next_attempt_at r) v (ae_lease_token r) (ae_sent_at r) (ae_last_error r).

Definition set_ae_lease_token (v : option Z) (r : AlertEmail) : AlertEmail :=
  mkAlertEmail (ae_id r) (ae_alert_id r) (ae_recipient r) (ae_status r) (ae_attempts r)
  (ae_next_attempt_at r) (ae_locked_until r) v (ae_sent_at r) (ae_last_error r).

Definition set_ae_sent_at (v : option Z) (r : AlertEmail) : AlertEmail :=
  mkAlertEmail (ae_id r) (ae_alert_id r) (ae_recipient r) (ae_status r) (ae_attempts r)
  (ae_next_attempt_at r) (ae_locked_until r) (ae_lease_token r) v (ae_last_error r).

Definition set_ae_last_error (v : option string) (r : AlertEmail) : AlertEmail :=
  mkAlertEmail (ae_id r) (ae_alert_id r) (ae_recipient r) (ae_status r) (ae_attempts r)
  (ae_next_attempt_at r) (ae_locked_until r) (ae_lease_token r) (ae_sent_at r) v.

(** Energy in micro-watt-hours before the column rounds it. *)
Record ReconciliationRun := mkRun {
  rr_id : Z; rr_period_type : string; rr_date_from : Z; rr_date_to : Z; rr_station_id : option
  Z; rr_cutoff_at : Z; rr_created_by : option Z; rr_status : string; rr_total_sessions : Z;
  rr_matched_sessions : Z; rr_mismatch_sessions : Z; rr_missing_data_sessions : Z;
  rr_total_meter_uwh : Z; rr_total_billed_uwh : Z; rr_discrepancy_uwh : Z; rr_total_billed_vnd
  : Z; rr_total_recomputed_vnd : Z; rr_total_debited_vnd : Z; rr_money_discrepancy_vnd : Z;
  rr_summary_counts : list (string * Z); rr_algorithm_version : string; rr_input_hash : string
}.

(** Energy in micro-watt-hours before the column rounds it. *)
Record ReconciliationIssue := mkIssue {
  ri_id : Z; ri_run_id : Z; ri_session_id : Z; ri_station_id : Z; ri_issue_type : string;
  ri_severity : string; ri_billed_vnd : option Z; ri_recomputed_vnd : option Z; ri_debited_vnd
  : option Z; ri_money_difference_vnd : option Z; ri_meter_uwh : option Z; ri_billed_uwh :
  option Z; ri_difference_uwh : option Z; ri_details : list (string * Json)
}.

Record StationCreateIdempotency := mkIdempotency {
  ik_request_hash : string; ik_station_id : Z
}.

Record PrivacyRequest := mkPrivacyRequest {
  pq_id : Z; pq_user_id : Z; pq_reason : string; pq_status : string; pq_created_at : Z;
  pq_reviewer_id : option Z; pq_reviewed_at : option Z; pq_decision_reason : option string;
  pq_policy_version : option string
}.

Definition set_pq_status (v : string) (r : PrivacyRequest) : PrivacyRequest :=
  mkPrivacyRequest (pq_id r) (pq_user_id r) (pq_reason r) v (pq_created_at r) (pq_reviewer_id
  r) (pq_reviewed_at r) (pq_decision_reason r) (pq_policy_version r).

Definition set_pq_reviewer_id (v : option Z) (r : PrivacyRequest) : PrivacyRequest :=
  mkPrivacyRequest (pq_id r) (pq_user_id r) (pq_reason r) (pq_status r) (pq_created_at r) v
  (pq_reviewed_at r) (pq_decision_reason r) (pq_policy_version r).

Definition set_pq_reviewed_at (v : option Z) (r : PrivacyRequest) : PrivacyRequest :=
  mkPrivacyRequest (pq_id r) (pq_user_id r) (pq_reason r) (pq_status r) (pq_created_at r)
  (pq_reviewer_id r) v (pq_decision_reason r) (pq_policy_version r).

Definition set_pq_decision_reason (v : option string) (r : PrivacyRequest) : PrivacyRequest :=
  mkPrivacyRequest (pq_id r) (pq_user_id r) (pq_reason r) (pq_status r) (pq_created_at r)
  (pq_reviewer_id r) (pq_reviewed_at r) v (pq_policy_version r).

Definition set_pq_policy_version (v : option string) (r : PrivacyRequest) : PrivacyRequest :=
  mkPrivacyRequest (pq_id r) (pq_user_id r) (pq_reason r) (pq_status r) (pq_created_at r)
  (pq_reviewer_id r) (pq_reviewed_at r) (pq_decision_reason r) v.

Record PrivacyJob := mkPrivacyJob {
  pj_id : Z; pj_request_id : Z; pj_status : string; pj_checkpoint : Z; pj_last_error : option
  string; pj_created_at : Z; pj_updated_at : Z
}.

Definition set_pj_status (v : string) (r : PrivacyJob) : PrivacyJob :=
  mkPrivacyJob (pj_id r) (pj_request_id r) v (pj_checkpoint r) (pj_last_error r)
  (pj_created_at r) (pj_updated_at r).

Definition set_pj_checkpoint (v : Z) (r : PrivacyJob) : PrivacyJob :=
  mkPrivacyJob (pj_id r) (pj_request_id r) (pj_status r) v (pj_last_error r) (pj_created_at r)
  (pj_updated_at r).

Definition set_pj_last_error (v : option string) (r : PrivacyJob) : PrivacyJob :=
  mkPrivacyJob (pj_id r) (pj_request_id r) (pj_status r) (pj_checkpoint r) v (pj_created_at r)
  (pj_updated_at r).

Definition set_pj_updated_at (v : Z) (r : PrivacyJob) : PrivacyJob :=
  mkPrivacyJob (pj_id r) (pj_request_id r) (pj_status r) (pj_checkpoint r) (pj_last_error r)
  (pj_created_at r) v.

Record OcppMessageReply := mkReply {
  mr_request_hash : string; mr_response : Reply; mr_created_at : Z
}.

(** ** The database *)

Record Db := mkDb {
  users : gmap Z UserRow;
  wallets : gmap Z Wallet;
  wallet_ledger : list WalletLedger;
  wallet_audits : gmap Z WalletAudit;
  wallet_topups : gmap Z WalletTopup;
  audit_logs : list AuditLog;
  stations : gmap Z Station;
  charge_points : gmap Z ChargePoint;
  connectors : gmap Z Connector;
  tariffs : gmap Z Tariff;
  tariff_bands : list TariffBand;
  charging_sessions : gmap Z ChargingSession;
  occupation_intervals : list OccupationInterval;
  meter_samples : list MeterSample;
  session_events : list SessionEvent;
  pending_messages : list PendingMessage;
  connector_errors : list ConnectorError;
  invoices : gmap Z Invoice;
  invoice_lines : list InvoiceLine;
  driver_notifications : list DriverNotification;
  charging_cards : gmap Z ChargingCard;
  authorization_attempts : list AuthorizationAttempt;
  id_tags : gmap Z DriverVirtualTag;
  driver_start_requests : gmap Z DriverStartRequest;
  station_power : gmap Z StationPower;
  connector_power : gmap Z ConnectorPower;
  power_commands : gmap Z PowerCommand;
  power_schedules : gmap Z PowerSchedule;
  power_schedule_bands : list PowerScheduleBand;
  reservation_capabilities : gmap Z ReservationCapability;
  reservation_policies : gmap Z ReservationPolicy;
  reservations : gmap Z Reservation;
  reservation_commands : gmap Z ReservationCommand;
  reservation_events : list ReservationEvent;
  configuration_intents : gmap Z ConfigurationIntent;
  control_requests : gmap Z ControlRequest;
  control_results : gmap Z ControlResult;
  message_replies : gmap (Z * string) OcppMessageReply;
  role_codes : list string;
  login_sessions : gmap Z LoginSession;
  login_ip_attempts : gmap string LoginIpAttempt;
  account_audits : list AccountAudit;
  alert_rule_states : gmap Z AlertRuleState;
  operational_alerts : gmap Z OperationalAlert;
  alert_emails : gmap Z AlertEmail;
  reconciliation_runs : list ReconciliationRun;
  reconciliation_issues : list ReconciliationIssue;
  station_idempotency : gmap (Z * Z) StationCreateIdempotency;
  privacy_requests : gmap Z PrivacyRequest;
  privacy_jobs : gmap Z PrivacyJob;
  privacy_policies : list string;
  next_id : Z;
  db_now : Z;
}.

Definition set_users (v : gmap Z UserRow) (db : Db) : Db :=
  mkDb v (wallets db) (wallet_ledger db) (wallet_audits db) (wallet_topups db) (audit_logs db)
  (stations db) (charge_points db) (connectors db) (tariffs db) (tariff_bands db)
  (charging_sessions db) (occupation_intervals db) (meter_samples db) (session_events db)
  (pending_messages db) (connector_errors db) (invoices db) (invoice_lines db)
  (driver_notifications db) (charging_cards db) (authorization_attempts db) (id_tags db)
  (driver_start_requests db) (station_power db) (connector_power db) (power_commands db)
  (power_schedules db) (power_schedule_bands db) (reservation_capabilities db)
  (reservation_policies db) (reservations db) (reservation_commands db) (reservation_events
  db) (configuration_intents db) (control_requests db) (control_results db) (message_replies
  db) (role_codes db) (login_sessions db) (login_ip_attempts db) (account_audits db)
  (alert_rule_states db) (operational_alerts db) (alert_emails db) (reconciliation_runs db)
  (reconciliation_issues db) (station_idempotency db) (privacy_requests db) (privacy_jobs db)
  (privacy_policies db) (next_id db) (db_now db).

Definition set_wallets (v : gmap Z Wallet) (db : Db) : Db :=
  mkDb (users db) v (wallet_ledger db) (wallet_audits db) (wallet_topups db) (audit_logs db)
  (stations db) (charge_points db) (connectors db) (tariffs db) (tariff_bands db)
  (charging_sessions db) (occupation_intervals db) (meter_samples db) (session_events db)
  (pending_messages db) (connector_errors db) (invoices db) (invoice_lines db)
  (driver_notifications db) (charging_cards db) (authorization_attempts db) (id_tags db)
  (driver_start_requests db) (station_power db) (connector_power db) (power_commands db)
  (power_schedules db) (power_schedule_bands db) (reservation_capabilities db)
  (reservation_policies db) (reservations db) (reservation_commands db) (reservation_events
  db) (configuration_intents db) (control_requests db) (control_results db) (message_replies
  db) (role_codes db) (login_sessions db) (login_ip_attempts db) (account_audits db)
  (alert_rule_states db) (operational_alerts db) (alert_emails db) (reconciliation_runs db)
  (reconciliation_issues db) (station_idempotency db) (privacy_requests db) (privacy_jobs db)
  (privacy_policies db) (next_id db) (db_now db).

Definition set_wallet_ledger (v : list WalletLedger) (db : Db) : Db :=
  mkDb (users db) (wallets db) v (wallet_audits db) (wallet_topups db) (audit_logs db)
  (stations db) (charge_points db) (connectors db) (tariffs db) (tariff_bands db)
  (charging_sessions db) (occupation_intervals db) (meter_samples db) (session_events db)
  (pending_messages db) (connector_errors db) (invoices db) (invoice_lines db)
  (driver_notifications db) (charging_cards db) (authorization_attempts db) (id_tags db)
  (driver_start_requests db) (station_power db) (connector_power db) (power_commands db)
  (power_schedules db) (power_schedule_bands db) (reservation_capabilities db)
  (reservation_policies db) (reservations db) (reservation_commands db) (reservation_events
  db) (configuration_intents db) (control_requests db) (control_results db) (message_replies
  db) (role_codes db) (login_sessions db) (login_ip_attempts db) (account_audits db)
  (alert_rule_states db) (operational_alerts db) (alert_emails db) (reconciliation_runs db)
  (reconciliation_issues db) (station_idempotency db) (privacy_requests db) (privacy_jobs db)
  (privacy_policies db) (next_id db) (db_now db).

Definition set_wallet_audits (v : gmap Z WalletAudit) (db : Db) : Db :=
  mkDb (users db) (wallets db) (wallet_ledger db) v (wallet_topups db) (audit_logs db)
  (stations db) (charge_points db) (connectors db) (tariffs db) (tariff_bands db)
  (charging_sessions db) (occupation_intervals db) (meter_samples db) (session_events db)
  (pending_messages db) (connector_errors db) (invoices db) (invoice_lines db)
  (driver_notifications db) (charging_cards db) (authorization_attempts db) (id_tags db)
  (driver_start_requests db) (station_power db) (connector_power db) (power_commands db)
  (power_schedules db) (power_schedule_bands db) (reservation_capabilities db)
  (reservation_policies db) (reservations db) (reservation_commands db) (reservation_events
  db) (configuration_intents db) (control_requests db) (control_results db) (message_replies
  db) (role_codes db) (login_sessions db) (login_ip_attempts db) (account_audits db)
  (alert_rule_states db) (operational_alerts db) (alert_emails db) (reconciliation_runs db)
  (reconciliation_issues db) (station_idempotency db) (privacy_requests db) (privacy_jobs db)
  (privacy_policies db) (next_id db) (db_now db).

Definition set_wallet_topups (v : gmap Z WalletTopup) (db : Db) : Db :=
  mkDb (users db) (wallets db) (wallet_ledger db) (wallet_audits db) v (audit_logs db)
  (stations db) (charge_points db) (connectors db) (tariffs db) (tariff_bands db)
  (charging_sessions db) (occupation_intervals db) (meter_samples db) (session_events db)
  (pending_messages db) (connector_errors db) (invoices db) (invoice_lines db)
  (driver_notifications db) (charging_cards db) (authorization_attempts db) (id_tags db)
  (driver_start_requests db) (station_power db) (connector_power db) (power_commands db)
  (power_schedules db) (power_schedule_bands db) (reservation_capabilities db)
  (reservation_policies db) (reservations db) (reservation_commands db) (reservation_events
  db) (configuration_intents db) (control_requests db) (control_results db) (message_replies
  db) (role_codes db) (login_sessions db) (login_ip_attempts db) (account_audits db)
  (alert_rule_states db) (operational_alerts db) (alert_emails db) (reconciliation_runs db)
  (reconciliation_issues db) (station_idempotency db) (privacy_requests db) (privacy_jobs db)
  (privacy_policies db) (next_id db) (db_now db).

Definition set_audit_logs (v : list AuditLog) (db : Db) : Db :=
  mkDb (users db) (wallets db) (wallet_ledger db) (wallet_audits db) (wallet_topups db) v
  (stations db) (charge_points db) (connectors db) (tariffs db) (tariff_bands db)
  (charging_sessions db) (occupation_intervals db) (meter_samples db) (session_events db)
  (pending_messages db) (connector_errors db) (invoices db) (invoice_lines db)
  (driver_notifications db) (charging_cards db) (authorization_attempts db) (id_tags db)
  (driver_start_requests db) (station_power db) (connector_power db) (power_commands db)
  (power_schedules db) (power_schedule_bands db) (reservation_capabilities db)
  (reservation_policies db) (reservations db) (reservation_commands db) (reservation_events
  db) (configuration_intents db) (control_requests db) (control_results db) (message_replies
  db) (role_codes db) (login_sessions db) (login_ip_attempts db) (account_audits db)
  (alert_rule_states db) (operational_alerts db) (alert_emails db) (reconciliation_runs db)
  (reconciliation_issues db) (station_idempotency db) (privacy_requests db) (privacy_jobs db)
  (privacy_policies db) (next_id db) (db_now db).

Definition set_stations (v : gmap Z Station) (db : Db) : Db :=
  mkDb (users db) (wallets db) (wallet_ledger db) (wallet_audits db) (wallet_topups db)
  (audit_logs db) v (charge_points db) (connectors db) (tariffs db) (tariff_bands db)
  (charging_sessions db) (occupation_intervals db) (meter_samples db) (session_events db)
  (pending_messages db) (connector_errors db) (invoices db) (invoice_lines db)
  (driver_notifications db) (charging_cards db) (authorization_attempts db) (id_tags db)
  (driver_start_requests db) (station_power db) (connector_power db) (power_commands db)
  (power_schedules db) (power_schedule_bands db) (reservation_capabilities db)
  (reservation_policies db) (reservations db) (reservation_commands db) (reservation_events
  db) (configuration_intents db) (control_requests db) (control_results db) (message_replies
  db) (role_codes db) (login_sessions db) (login_ip_attempts db) (account_audits db)
  (alert_rule_states db) (operational_alerts db) (alert_emails db) (reconciliation_runs db)
  (reconciliation_issues db) (station_idempotency db) (privacy_requests db) (privacy_jobs db)
  (privacy_policies db) (next_id db) (db_now db).

Definition set_charge_points (v : gmap Z ChargePoint) (db : Db) : Db :=
  mkDb (users db) (wallets db) (wallet_ledger db) (wallet_audits db) (wallet_topups db)
  (audit_logs db) (stations db) v (connectors db) (tariffs db) (tariff_bands db)
  (charging_sessions db) (occupation_intervals db) (meter_samples db) (session_events db)
  (pending_messages db) (connector_errors db) (invoices db) (invoice_lines db)
  (driver_notifications db) (charging_cards db) (authorization_attempts db) (id_tags db)
  (driver_start_requests db) (station_power db) (connector_power db) (power_commands db)
  (power_schedules db) (power_schedule_bands db) (reservation_capabilities db)
  (reservation_policies db) (reservations db) (reservation_commands db) (reservation_events
  db) (configuration_intents db) (control_requests db) (control_results db) (message_replies
  db) (role_codes db) (login_sessions db) (login_ip_attempts db) (account_audits db)
  (alert_rule_states db) (operational_alerts db) (alert_emails db) (reconciliation_runs db)
  (reconciliation_issues db) (station_idempotency db) (privacy_requests db) (privacy_jobs db)
  (privacy_policies db) (next_id db) (db_now db).

Definition set_connectors (v : gmap Z Connector) (db : Db) : Db :=
  mkDb (users db) (wallets db) (wallet_ledger db) (wallet_audits db) (wallet_topups db)
  (audit_logs db) (stations db) (charge_points db) v (tariffs db) (tariff_bands db)
  (charging_sessions db) (occupation_intervals db) (meter_samples db) (session_events db)
  (pending_messages db) (connector_errors db) (invoices db) (invoice_lines db)
  (driver_notifications db) (charging_cards db) (authorization_attempts db) (id_tags db)
  (driver_start_requests db) (station_power db) (connector_power db) (power_commands db)
  (power_schedules db) (power_schedule_bands db) (reservation_capabilities db)
  (reservation_policies db) (reservations db) (reservation_commands db) (reservation_events
  db) (configuration_intents db) (control_requests db) (control_results db) (message_replies
  db) (role_codes db) (login_sessions db) (login_ip_attempts db) (account_audits db)
  (alert_rule_states db) (operational_alerts db) (alert_emails db) (reconciliation_runs db)
  (reconciliation_issues db) (station_idempotency db) (privacy_requests db) (privacy_jobs db)
  (privacy_policies db) (next_id db) (db_now db).

Definition set_tariffs (v : gmap Z Tariff) (db : Db) : Db :=
  mkDb (users db) (wallets db) (wallet_ledger db) (wallet_audits db) (wallet_topups db)
  (audit_logs db) (stations db) (charge_points db) (connectors db) v (tariff_bands db)
  (charging_sessions db) (occupation_intervals db) (meter_samples db) (session_events db)
  (pending_messages db) (connector_errors db) (invoices db) (invoice_lines db)
  (driver_notifications db) (charging_cards db) (authorization_attempts db) (id_tags db)
  (driver_start_requests db) (station_power db) (connector_power db) (power_commands db)
  (power_schedules db) (power_schedule_bands db) (reservation_capabilities db)
  (reservation_policies db) (reservations db) (reservation_commands db) (reservation_events
  db) (configuration_intents db) (control_requests db) (control_results db) (message_replies
  db) (role_codes db) (login_sessions db) (login_ip_attempts db) (account_audits db)
  (alert_rule_states db) (operational_alerts db) (alert_emails db) (reconciliation_runs db)
  (reconciliation_issues db) (station_idempotency db) (privacy_requests db) (privacy_jobs db)
  (privacy_policies db) (next_id db) (db_now db).

Definition set_tariff_bands (v : list TariffBand) (db : Db) : Db :=
  mkDb (users db) (wallets db) (wallet_ledger db) (wallet_audits db) (wallet_topups db)
  (audit_logs db) (stations db) (charge_points db) (connectors db) (tariffs db) v
  (charging_sessions db) (occupation_intervals db) (meter_samples db) (session_events db)
  (pending_messages db) (connector_errors db) (invoices db) (invoice_lines db)
  (driver_notifications db) (charging_cards db) (authorization_attempts db) (id_tags db)
  (driver_start_requests db) (station_power db) (connector_power db) (power_commands db)
  (power_schedules db) (power_schedule_bands db) (reservation_capabilities db)
  (reservation_policies db) (reservations db) (reservation_commands db) (reservation_events
  db) (configuration_intents db) (control_requests db) (control_results db) (message_replies
  db) (role_codes db) (login_sessions db) (login_ip_attempts db) (account_audits db)
  (alert_rule_states db) (operational_alerts db) (alert_emails db) (reconciliation_runs db)
  (reconciliation_issues db) (station_idempotency db) (privacy_requests db) (privacy_jobs db)
  (privacy_policies db) (next_id db) (db_now db).

Definition set_charging_sessions (v : gmap Z ChargingSession) (db : Db) : Db :=
  mkDb (users db) (wallets db) (wallet_ledger db) (wallet_audits db) (wallet_topups db)
  (audit_logs db) (stations db) (charge_points db) (connectors db) (tariffs db) (tariff_bands
  db) v (occupation_intervals db) (meter_samples db) (session_events db) (pending_messages db)
  (connector_errors db) (invoices db) (invoice_lines db) (driver_notifications db)
  (charging_cards db) (authorization_attempts db) (id_tags db) (driver_start_requests db)
  (station_power db) (connector_power db) (power_commands db) (power_schedules db)
  (power_schedule_bands db) (reservation_capabilities db) (reservation_policies db)
  (reservations db) (reservation_commands db) (reservation_events db) (configuration_intents
  db) (control_requests db) (control_results db) (message_replies db) (role_codes db)
  (login_sessions db) (login_ip_attempts db) (account_audits db) (alert_rule_states db)
  (operational_alerts db) (alert_emails db) (reconciliation_runs db) (reconciliation_issues
  db) (station_idempotency db) (privacy_requests db) (privacy_jobs db) (privacy_policies db)
  (next_id db) (db_now db).

Definition set_occupation_intervals (v : list OccupationInterval) (db : Db) : Db :=
  mkDb (users db) (wallets db) (wallet_ledger db) (wallet_audits db) (wallet_topups db)
  (audit_logs db) (stations db) (charge_points db) (connectors db) (tariffs db) (tariff_bands
  db) (charging_sessions db) v (meter_samples db) (session_events db) (pending_messages db)
  (connector_errors db) (invoices db) (invoice_lines db) (driver_notifications db)
  (charging_cards db) (authorization_attempts db) (id_tags db) (driver_start_requests db)
  (station_power db) (connector_power db) (power_commands db) (power_schedules db)
  (power_schedule_bands db) (reservation_capabilities db) (reservation_policies db)
  (reservations db) (reservation_commands db) (reservation_events db) (configuration_intents
  db) (control_requests db) (control_results db) (message_replies db) (role_codes db)
  (login_sessions db) (login_ip_attempts db) (account_audits db) (alert_rule_states db)
  (operational_alerts db) (alert_emails db) (reconciliation_runs db) (reconciliation_issues
  db) (station_idempotency db) (privacy_requests db) (privacy_jobs db) (privacy_policies db)
  (next_id db) (db_now db).

Definition set_meter_samples (v : list MeterSample) (db : Db) : Db :=
  mkDb (users db) (wallets db) (wallet_ledger db) (wallet_audits db) (wallet_topups db)
  (audit_logs db) (stations db) (charge_points db) (connectors db) (tariffs db) (tariff_bands
  db) (charging_sessions db) (occupation_intervals db) v (session_events db) (pending_messages
  db) (connector_errors db) (invoices db) (invoice_lines db) (driver_notifications db)
  (charging_cards db) (authorization_attempts db) (id_tags db) (driver_start_requests db)
  (station_power db) (connector_power db) (power_commands db) (power_schedules db)
  (power_schedule_bands db) (reservation_capabilities db) (reservation_policies db)
  (reservations db) (reservation_commands db) (reservation_events db) (configuration_intents
  db) (control_requests db) (control_results db) (message_replies db) (role_codes db)
  (login_sessions db) (login_ip_attempts db) (account_audits db) (alert_rule_states db)
  (operational_alerts db) (alert_emails db) (reconciliation_runs db) (reconciliation_issues
  db) (station_idempotency db) (privacy_requests db) (privacy_jobs db) (privacy_policies db)
  (next_id db) (db_now db).

Definition set_session_events (v : list SessionEvent) (db : Db) : Db :=
  mkDb (users db) (wallets db) (wallet_ledger db) (wallet_audits db) (wallet_topups db)
  (audit_logs db) (stations db) (charge_points db) (connectors db) (tariffs db) (tariff_bands
  db) (charging_sessions db) (occupation_intervals db) (meter_samples db) v (pending_messages
  db) (connector_errors db) (invoices db) (invoice_lines db) (driver_notifications db)
  (charging_cards db) (authorization_attempts db) (id_tags db) (driver_start_requests db)
  (station_power db) (connector_power db) (power_commands db) (power_schedules db)
  (power_schedule_bands db) (reservation_capabilities db) (reservation_policies db)
  (reservations db) (reservation_commands db) (reservation_events db) (configuration_intents
  db) (control_requests db) (control_results db) (message_replies db) (role_codes db)
  (login_sessions db) (login_ip_attempts db) (account_audits db) (alert_rule_states db)
  (operational_alerts db) (alert_emails db) (reconciliation_runs db) (reconciliation_issues
  db) (station_idempotency db) (privacy_requests db) (privacy_jobs db) (privacy_policies db)
  (next_id db) (db_now db).

Definition set_pending_messages (v : list PendingMessage) (db : Db) : Db :=
  mkDb (users db) (wallets db) (wallet_ledger db) (wallet_audits db) (wallet_topups db)
  (audit_logs db) (stations db) (charge_points db) (connectors db) (tariffs db) (tariff_bands
  db) (charging_sessions db) (occupation_intervals db) (meter_samples db) (session_events db)
  v (connector_errors db) (invoices db) (invoice_lines db) (driver_notifications db)
  (charging_cards db) (authorization_attempts db) (id_tags db) (driver_start_requests db)
  (station_power db) (connector_power db) (power_commands db) (power_schedules db)
  (power_schedule_bands db) (reservation_capabilities db) (reservation_policies db)
  (reservations db) (reservation_commands db) (reservation_events db) (configuration_intents
  db) (control_requests db) (control_results db) (message_replies db) (role_codes db)
  (login_sessions db) (login_ip_attempts db) (account_audits db) (alert_rule_states db)
  (operational_alerts db) (alert_emails db) (reconciliation_runs db) (reconciliation_issues
  db) (station_idempotency db) (privacy_requests db) (privacy_jobs db) (privacy_policies db)
  (next_id db) (db_now db).

Definition set_connector_errors (v : list ConnectorError) (db : Db) : Db :=
  mkDb (users db) (wallets db) (wallet_ledger db) (wallet_audits db) (wallet_topups db)
  (audit_logs db) (stations db) (charge_points db) (connectors db) (tariffs db) (tariff_bands
  db) (charging_sessions db) (occupation_intervals db) (meter_samples db) (session_events db)
  (pending_messages db) v (invoices db) (invoice_lines db) (driver_notifications db)
  (charging_cards db) (authorization_attempts db) (id_tags db) (driver_start_requests db)
  (station_power db) (connector_power db) (power_commands db) (power_schedules db)
  (power_schedule_bands db) (reservation_capabilities db) (reservation_policies db)
  (reservations db) (reservation_commands db) (reservation_events db) (configuration_intents
  db) (control_requests db) (control_results db) (message_replies db) (role_codes db)
  (login_sessions db) (login_ip_attempts db) (account_audits db) (alert_rule_states db)
  (operational_alerts db) (alert_emails db) (reconciliation_runs db) (reconciliation_issues
  db) (station_idempotency db) (privacy_requests db) (privacy_jobs db) (privacy_policies db)
  (next_id db) (db_now db).

Definition set_invoices (v : gmap Z Invoice) (db : Db) : Db :=
  mkDb (users db) (wallets db) (wallet_ledger db) (wallet_audits db) (wallet_topups db)
  (audit_logs db) (stations db) (charge_points db) (connectors db) (tariffs db) (tariff_bands
  db) (charging_sessions db) (occupation_intervals db) (meter_samples db) (session_events db)
  (pending_messages db) (connector_errors db) v (invoice_lines db) (driver_notifications db)
  (charging_cards db) (authorization_attempts db) (id_tags db) (driver_start_requests db)
  (station_power db) (connector_power db) (power_commands db) (power_schedules db)
  (power_schedule_bands db) (reservation_capabilities db) (reservation_policies db)
  (reservations db) (reservation_commands db) (reservation_events db) (configuration_intents
  db) (control_requests db) (control_results db) (message_replies db) (role_codes db)
  (login_sessions db) (login_ip_attempts db) (account_audits db) (alert_rule_states db)
  (operational_alerts db) (alert_emails db) (reconciliation_runs db) (reconciliation_issues
  db) (station_idempotency db) (privacy_requests db) (privacy_jobs db) (privacy_policies db)
  (next_id db) (db_now db).

Definition set_invoice_lines (v : list InvoiceLine) (db : Db) : Db :=
  mkDb (users db) (wallets db) (wallet_ledger db) (wallet_audits db) (wallet_topups db)
  (audit_logs db) (stations db) (charge_points db) (connectors db) (tariffs db) (tariff_bands
  db) (charging_sessions db) (occupation_intervals db) (meter_samples db) (session_events db)
  (pending_messages db) (connector_errors db) (invoices db) v (driver_notifications db)
  (charging_cards db) (authorization_attempts db) (id_tags db) (driver_start_requests db)
  (station_power db) (connector_power db) (power_commands db) (power_schedules db)
  (power_schedule_bands db) (reservation_capabilities db) (reservation_policies db)
  (reservations db) (reservation_commands db) (reservation_events db) (configuration_intents
  db) (control_requests db) (control_results db) (message_replies db) (role_codes db)
  (login_sessions db) (login_ip_attempts db) (account_audits db) (alert_rule_states db)
  (operational_alerts db) (alert_emails db) (reconciliation_runs db) (reconciliation_issues
  db) (station_idempotency db) (privacy_requests db) (privacy_jobs db) (privacy_policies db)
  (next_id db) (db_now db).

Definition set_driver_notifications (v : list DriverNotification) (db : Db) : Db :=
  mkDb (users db) (wallets db) (wallet_ledger db) (wallet_audits db) (wallet_topups db)
  (audit_logs db) (stations db) (charge_points db) (connectors db) (tariffs db) (tariff_bands
  db) (charging_sessions db) (occupation_intervals db) (meter_samples db) (session_events db)
  (pending_messages db) (connector_errors db) (invoices db) (invoice_lines db) v
  (charging_cards db) (authorization_attempts db) (id_tags db) (driver_start_requests db)
  (station_power db) (connector_power db) (power_commands db) (power_schedules db)
  (power_schedule_bands db) (reservation_capabilities db) (reservation_policies db)
  (reservations db) (reservation_commands db) (reservation_events db) (configuration_intents
  db) (control_requests db) (control_results db) (message_replies db) (role_codes db)
  (login_sessions db) (login_ip_attempts db) (account_audits db) (alert_rule_states db)
  (operational_alerts db) (alert_emails db) (reconciliation_runs db) (reconciliation_issues
  db) (station_idempotency db) (privacy_requests db) (privacy_jobs db) (privacy_policies db)
  (next_id db) (db_now db).

Definition set_charging_cards (v : gmap Z ChargingCard) (db : Db) : Db :=
  mkDb (users db) (wallets db) (wallet_ledger db) (wallet_audits db) (wallet_topups db)
  (audit_logs db) (stations db) (charge_points db) (connectors db) (tariffs db) (tariff_bands
  db) (charging_sessions db) (occupation_intervals db) (meter_samples db) (session_events db)
  (pending_messages db) (connector_errors db) (invoices db) (invoice_lines db)
  (driver_notifications db) v (authorization_attempts db) (id_tags db) (driver_start_requests
  db) (station_power db) (connector_power db) (power_commands db) (power_schedules db)
  (power_schedule_bands db) (reservation_capabilities db) (reservation_policies db)
  (reservations db) (reservation_commands db) (reservation_events db) (configuration_intents
  db) (control_requests db) (control_results db) (message_replies db) (role_codes db)
  (login_sessions db) (login_ip_attempts db) (account_audits db) (alert_rule_states db)
  (operational_alerts db) (alert_emails db) (reconciliation_runs db) (reconciliation_issues
  db) (station_idempotency db) (privacy_requests db) (privacy_jobs db) (privacy_policies db)
  (next_id db) (db_now db).

Definition set_authorization_attempts (v : list AuthorizationAttempt) (db : Db) : Db :=
  mkDb (users db) (wallets db) (wallet_ledger db) (wallet_audits db) (wallet_topups db)
  (audit_logs db) (stations db) (charge_points db) (connectors db) (tariffs db) (tariff_bands
  db) (charging_sessions db) (occupation_intervals db) (meter_samples db) (session_events db)
  (pending_messages db) (connector_errors db) (invoices db) (invoice_lines db)
  (driver_notifications db) (charging_cards db) v (id_tags db) (driver_start_requests db)
  (station_power db) (connector_power db) (power_commands db) (power_schedules db)
  (power_schedule_bands db) (reservation_capabilities db) (reservation_policies db)
  (reservations db) (reservation_commands db) (reservation_events db) (configuration_intents
  db) (control_requests db) (control_results db) (message_replies db) (role_codes db)
  (login_sessions db) (login_ip_attempts db) (account_audits db) (alert_rule_states db)
  (operational_alerts db) (alert_emails db) (reconciliation_runs db) (reconciliation_issues
  db) (station_idempotency db) (privacy_requests db) (privacy_jobs db) (privacy_policies db)
  (next_id db) (db_now db).

Definition set_id_tags (v : gmap Z DriverVirtualTag) (db : Db) : Db :=
  mkDb (users db) (wallets db) (wallet_ledger db) (wallet_audits db) (wallet_topups db)
  (audit_logs db) (stations db) (charge_points db) (connectors db) (tariffs db) (tariff_bands
  db) (charging_sessions db) (occupation_intervals db) (meter_samples db) (session_events db)
  (pending_messages db) (connector_errors db) (invoices db) (invoice_lines db)
  (driver_notifications db) (charging_cards db) (authorization_attempts db) v
  (driver_start_requests db) (station_power db) (connector_power db) (power_commands db)
  (power_schedules db) (power_schedule_bands db) (reservation_capabilities db)
  (reservation_policies db) (reservations db) (reservation_commands db) (reservation_events
  db) (configuration_intents db) (control_requests db) (control_results db) (message_replies
  db) (role_codes db) (login_sessions db) (login_ip_attempts db) (account_audits db)
  (alert_rule_states db) (operational_alerts db) (alert_emails db) (reconciliation_runs db)
  (reconciliation_issues db) (station_idempotency db) (privacy_requests db) (privacy_jobs db)
  (privacy_policies db) (next_id db) (db_now db).

Definition set_driver_start_requests (v : gmap Z DriverStartRequest) (db : Db) : Db :=
  mkDb (users db) (wallets db) (wallet_ledger db) (wallet_audits db) (wallet_topups db)
  (audit_logs db) (stations db) (charge_points db) (connectors db) (tariffs db) (tariff_bands
  db) (charging_sessions db) (occupation_intervals db) (meter_samples db) (session_events db)
  (pending_messages db) (connector_errors db) (invoices db) (invoice_lines db)
  (driver_notifications db) (charging_cards db) (authorization_attempts db) (id_tags db) v
  (station_power db) (connector_power db) (power_commands db) (power_schedules db)
  (power_schedule_bands db) (reservation_capabilities db) (reservation_policies db)
  (reservations db) (reservation_commands db) (reservation_events db) (configuration_intents
  db) (control_requests db) (control_results db) (message_replies db) (role_codes db)
  (login_sessions db) (login_ip_attempts db) (account_audits db) (alert_rule_states db)
  (operational_alerts db) (alert_emails db) (reconciliation_runs db) (reconciliation_issues
  db) (station_idempotency db) (privacy_requests db) (privacy_jobs db) (privacy_policies db)
  (next_id db) (db_now db).

Definition set_station_power (v : gmap Z StationPower) (db : Db) : Db :=
  mkDb (users db) (wallets db) (wallet_ledger db) (wallet_audits db) (wallet_topups db)
  (audit_logs db) (stations db) (charge_points db) (connectors db) (tariffs db) (tariff_bands
  db) (charging_sessions db) (occupation_intervals db) (meter_samples db) (session_events db)
  (pending_messages db) (connector_errors db) (invoices db) (invoice_lines db)
  (driver_notifications db) (charging_cards db) (authorization_attempts db) (id_tags db)
  (driver_start_requests db) v (connector_power db) (power_commands db) (power_schedules db)
  (power_schedule_bands db) (reservation_capabilities db) (reservation_policies db)
  (reservations db) (reservation_commands db) (reservation_events db) (configuration_intents
  db) (control_requests db) (control_results db) (message_replies db) (role_codes db)
  (login_sessions db) (login_ip_attempts db) (account_audits db) (alert_rule_states db)
  (operational_alerts db) (alert_emails db) (reconciliation_runs db) (reconciliation_issues
  db) (station_idempotency db) (privacy_requests db) (privacy_jobs db) (privacy_policies db)
  (next_id db) (db_now db).

Definition set_connector_power (v : gmap Z ConnectorPower) (db : Db) : Db :=
  mkDb (users db) (wallets db) (wallet_ledger db) (wallet_audits db) (wallet_topups db)
  (audit_logs db) (stations db) (charge_points db) (connectors db) (tariffs db) (tariff_bands
  db) (charging_sessions db) (occupation_intervals db) (meter_samples db) (session_events db)
  (pending_messages db) (connector_errors db) (invoices db) (invoice_lines db)
  (driver_notifications db) (charging_cards db) (authorization_attempts db) (id_tags db)
  (driver_start_requests db) (station_power db) v (power_commands db) (power_schedules db)
  (power_schedule_bands db) (reservation_capabilities db) (reservation_policies db)
  (reservations db) (reservation_commands db) (reservation_events db) (configuration_intents
  db) (control_requests db) (control_results db) (message_replies db) (role_codes db)
  (login_sessions db) (login_ip_attempts db) (account_audits db) (alert_rule_states db)
  (operational_alerts db) (alert_emails db) (reconciliation_runs db) (reconciliation_issues
  db) (station_idempotency db) (privacy_requests db) (privacy_jobs db) (privacy_policies db)
  (next_id db) (db_now db).

Definition set_power_commands (v : gmap Z PowerCommand) (db : Db) : Db :=
  mkDb (users db) (wallets db) (wallet_ledger db) (wallet_audits db) (wallet_topups db)
  (audit_logs db) (stations db) (charge_points db) (connectors db) (tariffs db) (tariff_bands
  db) (charging_sessions db) (occupation_intervals db) (meter_samples db) (session_events db)
  (pending_messages db) (connector_errors db) (invoices db) (invoice_lines db)
  (driver_notifications db) (charging_cards db) (authorization_attempts db) (id_tags db)
  (driver_start_requests db) (station_power db) (connector_power db) v (power_schedules db)
  (power_schedule_bands db) (reservation_capabilities db) (reservation_policies db)
  (reservations db) (reservation_commands db) (reservation_events db) (configuration_intents
  db) (control_requests db) (control_results db) (message_replies db) (role_codes db)
  (login_sessions db) (login_ip_attempts db) (account_audits db) (alert_rule_states db)
  (operational_alerts db) (alert_emails db) (reconciliation_runs db) (reconciliation_issues
  db) (station_idempotency db) (privacy_requests db) (privacy_jobs db) (privacy_policies db)
  (next_id db) (db_now db).

Definition set_power_schedules (v : gmap Z PowerSchedule) (db : Db) : Db :=
  mkDb (users db) (wallets db) (wallet_ledger db) (wallet_audits db) (wallet_topups db)
  (audit_logs db) (stations db) (charge_points db) (connectors db) (tariffs db) (tariff_bands
  db) (charging_sessions db) (occupation_intervals db) (meter_samples db) (session_events db)
  (pending_messages db) (connector_errors db) (invoices db) (invoice_lines db)
  (driver_notifications db) (charging_cards db) (authorization_attempts db) (id_tags db)
  (driver_start_requests db) (station_power db) (connector_power db) (power_commands db) v
  (power_schedule_bands db) (reservation_capabilities db) (reservation_policies db)
  (reservations db) (reservation_commands db) (reservation_events db) (configuration_intents
  db) (control_requests db) (control_results db) (message_replies db) (role_codes db)
  (login_sessions db) (login_ip_attempts db) (account_audits db) (alert_rule_states db)
  (operational_alerts db) (alert_emails db) (reconciliation_runs db) (reconciliation_issues
  db) (station_idempotency db) (privacy_requests db) (privacy_jobs db) (privacy_policies db)
  (next_id db) (db_now db).

Definition set_power_schedule_bands (v : list PowerScheduleBand) (db : Db) : Db :=
  mkDb (users db) (wallets db) (wallet_ledger db) (wallet_audits db) (wallet_topups db)
  (audit_logs db) (stations db) (charge_points db) (connectors db) (tariffs db) (tariff_bands
  db) (charging_sessions db) (occupation_intervals db) (meter_samples db) (session_events db)
  (pending_messages db) (connector_errors db) (invoices db) (invoice_lines db)
  (driver_notifications db) (charging_cards db) (authorization_attempts db) (id_tags db)
  (driver_start_requests db) (station_power db) (connector_power db) (power_commands db)
  (power_schedules db) v (reservation_capabilities db) (reservation_policies db) (reservations
  db) (reservation_commands db) (reservation_events db) (configuration_intents db)
  (control_requests db) (control_results db) (message_replies db) (role_codes db)
  (login_sessions db) (login_ip_attempts db) (account_audits db) (alert_rule_states db)
  (operational_alerts db) (alert_emails db) (reconciliation_runs db) (reconciliation_issues
  db) (station_idempotency db) (privacy_requests db) (privacy_jobs db) (privacy_policies db)
  (next_id db) (db_now db).

Definition set_reservation_capabilities (v : gmap Z ReservationCapability) (db : Db) : Db :=
  mkDb (users db) (wallets db) (wallet_ledger db) (wallet_audits db) (wallet_topups db)
  (audit_logs db) (stations db) (charge_points db) (connectors db) (tariffs db) (tariff_bands
  db) (charging_sessions db) (occupation_intervals db) (meter_samples db) (session_events db)
  (pending_messages db) (connector_errors db) (invoices db) (invoice_lines db)
  (driver_notifications db) (charging_cards db) (authorization_attempts db) (id_tags db)
  (driver_start_requests db) (station_power db) (connector_power db) (power_commands db)
  (power_schedules db) (power_schedule_bands db) v (reservation_policies db) (reservations db)
  (reservation_commands db) (reservation_events db) (configuration_intents db)
  (control_requests db) (control_results db) (message_replies db) (role_codes db)
  (login_sessions db) (login_ip_attempts db) (account_audits db) (alert_rule_states db)
  (operational_alerts db) (alert_emails db) (reconciliation_runs db) (reconciliation_issues
  db) (station_idempotency db) (privacy_requests db) (privacy_jobs db) (privacy_policies db)
  (next_id db) (db_now db).

Definition set_reservation_policies (v : gmap Z ReservationPolicy) (db : Db) : Db :=
  mkDb (users db) (wallets db) (wallet_ledger db) (wallet_audits db) (wallet_topups db)
  (audit_logs db) (stations db) (charge_points db) (connectors db) (tariffs db) (tariff_bands
  db) (charging_sessions db) (occupation_intervals db) (meter_samples db) (session_events db)
  (pending_messages db) (connector_errors db) (invoices db) (invoice_lines db)
  (driver_notifications db) (charging_cards db) (authorization_attempts db) (id_tags db)
  (driver_start_requests db) (station_power db) (connector_power db) (power_commands db)
  (power_schedules db) (power_schedule_bands db) (reservation_capabilities db) v (reservations
  db) (reservation_commands db) (reservation_events db) (configuration_intents db)
  (control_requests db) (control_results db) (message_replies db) (role_codes db)
  (login_sessions db) (login_ip_attempts db) (account_audits db) (alert_rule_states db)
  (operational_alerts db) (alert_emails db) (reconciliation_runs db) (reconciliation_issues
  db) (station_idempotency db) (privacy_requests db) (privacy_jobs db) (privacy_policies db)
  (next_id db) (db_now db).

Definition set_reservations (v : gmap Z Reservation) (db : Db) : Db :=
  mkDb (users db) (wallets db) (wallet_ledger db) (wallet_audits db) (wallet_topups db)
  (audit_logs db) (stations db) (charge_points db) (connectors db) (tariffs db) (tariff_bands
  db) (charging_sessions db) (occupation_intervals db) (meter_samples db) (session_events db)
  (pending_messages db) (connector_errors db) (invoices db) (invoice_lines db)
  (driver_notifications db) (charging_cards db) (authorization_attempts db) (id_tags db)
  (driver_start_requests db) (station_power db) (connector_power db) (power_commands db)
  (power_schedules db) (power_schedule_bands db) (reservation_capabilities db)
  (reservation_policies db) v (reservation_commands db) (reservation_events db)
  (configuration_intents db) (control_requests db) (control_results db) (message_replies db)
  (role_codes db) (login_sessions db) (login_ip_attempts db) (account_audits db)
  (alert_rule_states db) (operational_alerts db) (alert_emails db) (reconciliation_runs db)
  (reconciliation_issues db) (station_idempotency db) (privacy_requests db) (privacy_jobs db)
  (privacy_policies db) (next_id db) (db_now db).

Definition set_reservation_commands (v : gmap Z ReservationCommand) (db : Db) : Db :=
  mkDb (users db) (wallets db) (wallet_ledger db) (wallet_audits db) (wallet_topups db)
  (audit_logs db) (stations db) (charge_points db) (connectors db) (tariffs db) (tariff_bands
  db) (charging_sessions db) (occupation_intervals db) (meter_samples db) (session_events db)
  (pending_messages db) (connector_errors db) (invoices db) (invoice_lines db)
  (driver_notifications db) (charging_cards db) (authorization_attempts db) (id_tags db)
  (driver_start_requests db) (station_power db) (connector_power db) (power_commands db)
  (power_schedules db) (power_schedule_bands db) (reservation_capabilities db)
  (reservation_policies db) (reservations db) v (reservation_events db) (configuration_intents
  db) (control_requests db) (control_results db) (message_replies db) (role_codes db)
  (login_sessions db) (login_ip_attempts db) (account_audits db) (alert_rule_states db)
  (operational_alerts db) (alert_emails db) (reconciliation_runs db) (reconciliation_issues
  db) (station_idempotency db) (privacy_requests db) (privacy_jobs db) (privacy_policies db)
  (next_id db) (db_now db).

Definition set_reservation_events (v : list ReservationEvent) (db : Db) : Db :=
  mkDb (users db) (wallets db) (wallet_ledger db) (wallet_audits db) (wallet_topups db)
  (audit_logs db) (stations db) (charge_points db) (connectors db) (tariffs db) (tariff_bands
  db) (charging_sessions db) (occupation_intervals db) (meter_samples db) (session_events db)
  (pending_messages db) (connector_errors db) (invoices db) (invoice_lines db)
  (driver_notifications db) (charging_cards db) (authorization_attempts db) (id_tags db)
  (driver_start_requests db) (station_power db) (connector_power db) (power_commands db)
  (power_schedules db) (power_schedule_bands db) (reservation_capabilities db)
  (reservation_policies db) (reservations db) (reservation_commands db) v
  (configuration_intents db) (control_requests db) (control_results db) (message_replies db)
  (role_codes db) (login_sessions db) (login_ip_attempts db) (account_audits db)
  (alert_rule_states db) (operational_alerts db) (alert_emails db) (reconciliation_runs db)
  (reconciliation_issues db) (station_idempotency db) (privacy_requests db) (privacy_jobs db)
  (privacy_policies db) (next_id db) (db_now db).

Definition set_configuration_intents (v : gmap Z ConfigurationIntent) (db : Db) : Db :=
  mkDb (users db) (wallets db) (wallet_ledger db) (wallet_audits db) (wallet_topups db)
  (audit_logs db) (stations db) (charge_points db) (connectors db) (tariffs db) (tariff_bands
  db) (charging_sessions db) (occupation_intervals db) (meter_samples db) (session_events db)
  (pending_messages db) (connector_errors db) (invoices db) (invoice_lines db)
  (driver_notifications db) (charging_cards db) (authorization_attempts db) (id_tags db)
  (driver_start_requests db) (station_power db) (connector_power db) (power_commands db)
  (power_schedules db) (power_schedule_bands db) (reservation_capabilities db)
  (reservation_policies db) (reservations db) (reservation_commands db) (reservation_events
  db) v (control_requests db) (control_results db) (message_replies db) (role_codes db)
  (login_sessions db) (login_ip_attempts db) (account_audits db) (alert_rule_states db)
  (operational_alerts db) (alert_emails db) (reconciliation_runs db) (reconciliation_issues
  db) (station_idempotency db) (privacy_requests db) (privacy_jobs db) (privacy_policies db)
  (next_id db) (db_now db).

Definition set_control_requests (v : gmap Z ControlRequest) (db : Db) : Db :=
  mkDb (users db) (wallets db) (wallet_ledger db) (wallet_audits db) (wallet_topups db)
  (audit_logs db) (stations db) (charge_points db) (connectors db) (tariffs db) (tariff_bands
  db) (charging_sessions db) (occupation_intervals db) (meter_samples db) (session_events db)
  (pending_messages db) (connector_errors db) (invoices db) (invoice_lines db)
  (driver_notifications db) (charging_cards db) (authorization_attempts db) (id_tags db)
  (driver_start_requests db) (station_power db) (connector_power db) (power_commands db)
  (power_schedules db) (power_schedule_bands db) (reservation_capabilities db)
  (reservation_policies db) (reservations db) (reservation_commands db) (reservation_events
  db) (configuration_intents db) v (control_results db) (message_replies db) (role_codes db)
  (login_sessions db) (login_ip_attempts db) (account_audits db) (alert_rule_states db)
  (operational_alerts db) (alert_emails db) (reconciliation_runs db) (reconciliation_issues
  db) (station_idempotency db) (privacy_requests db) (privacy_jobs db) (privacy_policies db)
  (next_id db) (db_now db).

Definition set_control_results (v : gmap Z ControlResult) (db : Db) : Db :=
  mkDb (users db) (wallets db) (wallet_ledger db) (wallet_audits db) (wallet_topups db)
  (audit_logs db) (stations db) (charge_points db) (connectors db) (tariffs db) (tariff_bands
  db) (charging_sessions db) (occupation_intervals db) (meter_samples db) (session_events db)
  (pending_messages db) (connector_errors db) (invoices db) (invoice_lines db)
  (driver_notifications db) (charging_cards db) (authorization_attempts db) (id_tags db)
  (driver_start_requests db) (station_power db) (connector_power db) (power_commands db)
  (power_schedules db) (power_schedule_bands db) (reservation_capabilities db)
  (reservation_policies db) (reservations db) (reservation_commands db) (reservation_events
  db) (configuration_intents db) (control_requests db) v (message_replies db) (role_codes db)
  (login_sessions db) (login_ip_attempts db) (account_audits db) (alert_rule_states db)
  (operational_alerts db) (alert_emails db) (reconciliation_runs db) (reconciliation_issues
  db) (station_idempotency db) (privacy_requests db) (privacy_jobs db) (privacy_policies db)
  (next_id db) (db_now db).

Definition set_message_replies (v : gmap (Z * string) OcppMessageReply) (db : Db) : Db :=
  mkDb (users db) (wallets db) (wallet_ledger db) (wallet_audits db) (wallet_topups db)
  (audit_logs db) (stations db) (charge_points db) (connectors db) (tariffs db) (tariff_bands
  db) (charging_sessions db) (occupation_intervals db) (meter_samples db) (session_events db)
  (pending_messages db) (connector_errors db) (invoices db) (invoice_lines db)
  (driver_notifications db) (charging_cards db) (authorization_attempts db) (id_tags db)
  (driver_start_requests db) (station_power db) (connector_power db) (power_commands db)
  (power_schedules db) (power_schedule_bands db) (reservation_capabilities db)
  (reservation_policies db) (reservations db) (reservation_commands db) (reservation_events
  db) (configuration_intents db) (control_requests db) (control_results db) v (role_codes db)
  (login_sessions db) (login_ip_attempts db) (account_audits db) (alert_rule_states db)
  (operational_alerts db) (alert_emails db) (reconciliation_runs db) (reconciliation_issues
  db) (station_idempotency db) (privacy_requests db) (privacy_jobs db) (privacy_policies db)
  (next_id db) (db_now db).

Definition set_role_codes (v : list string) (db : Db) : Db :=
  mkDb (users db) (wallets db) (wallet_ledger db) (wallet_audits db) (wallet_topups db)
  (audit_logs db) (stations db) (charge_points db) (connectors db) (tariffs db) (tariff_bands
  db) (charging_sessions db) (occupation_intervals db) (meter_samples db) (session_events db)
  (pending_messages db) (connector_errors db) (invoices db) (invoice_lines db)
  (driver_notifications db) (charging_cards db) (authorization_attempts db) (id_tags db)
  (driver_start_requests db) (station_power db) (connector_power db) (power_commands db)
  (power_schedules db) (power_schedule_bands db) (reservation_capabilities db)
  (reservation_policies db) (reservations db) (reservation_commands db) (reservation_events
  db) (configuration_intents db) (control_requests db) (control_results db) (message_replies
  db) v (login_sessions db) (login_ip_attempts db) (account_audits db) (alert_rule_states db)
  (operational_alerts db) (alert_emails db) (reconciliation_runs db) (reconciliation_issues
  db) (station_idempotency db) (privacy_requests db) (privacy_jobs db) (privacy_policies db)
  (next_id db) (db_now db).

Definition set_login_sessions (v : gmap Z LoginSession) (db : Db) : Db :=
  mkDb (users db) (wallets db) (wallet_ledger db) (wallet_audits db) (wallet_topups db)
  (audit_logs db) (stations db) (charge_points db) (connectors db) (tariffs db) (tariff_bands
  db) (charging_sessions db) (occupation_intervals db) (meter_samples db) (session_events db)
  (pending_messages db) (connector_errors db) (invoices db) (invoice_lines db)
  (driver_notifications db) (charging_cards db) (authorization_attempts db) (id_tags db)
  (driver_start_requests db) (station_power db) (connector_power db) (power_commands db)
  (power_schedules db) (power_schedule_bands db) (reservation_capabilities db)
  (reservation_policies db) (reservations db) (reservation_commands db) (reservation_events
  db) (configuration_intents db) (control_requests db) (control_results db) (message_replies
  db) (role_codes db) v (login_ip_attempts db) (account_audits db) (alert_rule_states db)
  (operational_alerts db) (alert_emails db) (reconciliation_runs db) (reconciliation_issues
  db) (station_idempotency db) (privacy_requests db) (privacy_jobs db) (privacy_policies db)
  (next_id db) (db_now db).

Definition set_login_ip_attempts (v : gmap string LoginIpAttempt) (db : Db) : Db :=
  mkDb (users db) (wallets db) (wallet_ledger db) (wallet_audits db) (wallet_topups db)
  (audit_logs db) (stations db) (charge_points db) (connectors db) (tariffs db) (tariff_bands
  db) (charging_sessions db) (occupation_intervals db) (meter_samples db) (session_events db)
  (pending_messages db) (connector_errors db) (invoices db) (invoice_lines db)
  (driver_notifications db) (charging_cards db) (authorization_attempts db) (id_tags db)
  (driver_start_requests db) (station_power db) (connector_power db) (power_commands db)
  (power_schedules db) (power_schedule_bands db) (reservation_capabilities db)
  (reservation_policies db) (reservations db) (reservation_commands db) (reservation_events
  db) (configuration_intents db) (control_requests db) (control_results db) (message_replies
  db) (role_codes db) (login_sessions db) v (account_audits db) (alert_rule_states db)
  (operational_alerts db) (alert_emails db) (reconciliation_runs db) (reconciliation_issues
  db) (station_idempotency db) (privacy_requests db) (privacy_jobs db) (privacy_policies db)
  (next_id db) (db_now db).

Definition set_account_audits (v : list AccountAudit) (db : Db) : Db :=
  mkDb (users db) (wallets db) (wallet_ledger db) (wallet_audits db) (wallet_topups db)
  (audit_logs db) (stations db) (charge_points db) (connectors db) (tariffs db) (tariff_bands
  db) (charging_sessions db) (occupation_intervals db) (meter_samples db) (session_events db)
  (pending_messages db) (connector_errors db) (invoices db) (invoice_lines db)
  (driver_notifications db) (charging_cards db) (authorization_attempts db) (id_tags db)
  (driver_start_requests db) (station_power db) (connector_power db) (power_commands db)
  (power_schedules db) (power_schedule_bands db) (reservation_capabilities db)
  (reservation_policies db) (reservations db) (reservation_commands db) (reservation_events
  db) (configuration_intents db) (control_requests db) (control_results db) (message_replies
  db) (role_codes db) (login_sessions db) (login_ip_attempts db) v (alert_rule_states db)
  (operational_alerts db) (alert_emails db) (reconciliation_runs db) (reconciliation_issues
  db) (station_idempotency db) (privacy_requests db) (privacy_jobs db) (privacy_policies db)
  (next_id db) (db_now db).

Definition set_alert_rule_states (v : gmap Z AlertRuleState) (db : Db) : Db :=
  mkDb (users db) (wallets db) (wallet_ledger db) (wallet_audits db) (wallet_topups db)
  (audit_logs db) (stations db) (charge_points db) (connectors db) (tariffs db) (tariff_bands
  db) (charging_sessions db) (occupation_intervals db) (meter_samples db) (session_events db)
  (pending_messages db) (connector_errors db) (invoices db) (invoice_lines db)
  (driver_notifications db) (charging_cards db) (authorization_attempts db) (id_tags db)
  (driver_start_requests db) (station_power db) (connector_power db) (power_commands db)
  (power_schedules db) (power_schedule_bands db) (reservation_capabilities db)
  (reservation_policies db) (reservations db) (reservation_commands db) (reservation_events
  db) (configuration_intents db) (control_requests db) (control_results db) (message_replies
  db) (role_codes db) (login_sessions db) (login_ip_attempts db) (account_audits db) v
  (operational_alerts db) (alert_emails db) (reconciliation_runs db) (reconciliation_issues
  db) (station_idempotency db) (privacy_requests db) (privacy_jobs db) (privacy_policies db)
  (next_id db) (db_now db).

Definition set_operational_alerts (v : gmap Z OperationalAlert) (db : Db) : Db :=
  mkDb (users db) (wallets db) (wallet_ledger db) (wallet_audits db) (wallet_topups db)
  (audit_logs db) (stations db) (charge_points db) (connectors db) (tariffs db) (tariff_bands
  db) (charging_sessions db) (occupation_intervals db) (meter_samples db) (session_events db)
  (pending_messages db) (connector_errors db) (invoices db) (invoice_lines db)
  (driver_notifications db) (charging_cards db) (authorization_attempts db) (id_tags db)
  (driver_start_requests db) (station_power db) (connector_power db) (power_commands db)
  (power_schedules db) (power_schedule_bands db) (reservation_capabilities db)
  (reservation_policies db) (reservations db) (reservation_commands db) (reservation_events
  db) (configuration_intents db) (control_requests db) (control_results db) (message_replies
  db) (role_codes db) (login_sessions db) (login_ip_attempts db) (account_audits db)
  (alert_rule_states db) v (alert_emails db) (reconciliation_runs db) (reconciliation_issues
  db) (station_idempotency db) (privacy_requests db) (privacy_jobs db) (privacy_policies db)
  (next_id db) (db_now db).

Definition set_alert_emails (v : gmap Z AlertEmail) (db : Db) : Db :=
  mkDb (users db) (wallets db) (wallet_ledger db) (wallet_audits db) (wallet_topups db)
  (audit_logs db) (stations db) (charge_points db) (connectors db) (tariffs db) (tariff_bands
  db) (charging_sessions db) (occupation_intervals db) (meter_samples db) (session_events db)
  (pending_messages db) (connector_errors db) (invoices db) (invoice_lines db)
  (driver_notifications db) (charging_cards db) (authorization_attempts db) (id_tags db)
  (driver_start_requests db) (station_power db) (connector_power db) (power_commands db)
  (power_schedules db) (power_schedule_bands db) (reservation_capabilities db)
  (reservation_policies db) (reservations db) (reservation_commands db) (reservation_events
  db) (configuration_intents db) (control_requests db) (control_results db) (message_replies
  db) (role_codes db) (login_sessions db) (login_ip_attempts db) (account_audits db)
  (alert_rule_states db) (operational_alerts db) v (reconciliation_runs db)
  (reconciliation_issues db) (station_idempotency db) (privacy_requests db) (privacy_jobs db)
  (privacy_policies db) (next_id db) (db_now db).

Definition set_reconciliation_runs (v : list ReconciliationRun) (db : Db) : Db :=
  mkDb (users db) (wallets db) (wallet_ledger db) (wallet_audits db) (wallet_topups db)
  (audit_logs db) (stations db) (charge_points db) (connectors db) (tariffs db) (tariff_bands
  db) (charging_sessions db) (occupation_intervals db) (meter_samples db) (session_events db)
  (pending_messages db) (connector_errors db) (invoices db) (invoice_lines db)
  (driver_notifications db) (charging_cards db) (authorization_attempts db) (id_tags db)
  (driver_start_requests db) (station_power db) (connector_power db) (power_commands db)
  (power_schedules db) (power_schedule_bands db) (reservation_capabilities db)
  (reservation_policies db) (reservations db) (reservation_commands db) (reservation_events
  db) (configuration_intents db) (control_requests db) (control_results db) (message_replies
  db) (role_codes db) (login_sessions db) (login_ip_attempts db) (account_audits db)
  (alert_rule_states db) (operational_alerts db) (alert_emails db) v (reconciliation_issues
  db) (station_idempotency db) (privacy_requests db) (privacy_jobs db) (privacy_policies db)
  (next_id db) (db_now db).

Definition set_reconciliation_issues (v : list ReconciliationIssue) (db : Db) : Db :=
  mkDb (users db) (wallets db) (wallet_ledger db) (wallet_audits db) (wallet_topups db)
  (audit_logs db) (stations db) (charge_points db) (connectors db) (tariffs db) (tariff_bands
  db) (charging_sessions db) (occupation_intervals db) (meter_samples db) (session_events db)
  (pending_messages db) (connector_errors db) (invoices db) (invoice_lines db)
  (driver_notifications db) (charging_cards db) (authorization_attempts db) (id_tags db)
  (driver_start_requests db) (station_power db) (connector_power db) (power_commands db)
  (power_schedules db) (power_schedule_bands db) (reservation_capabilities db)
  (reservation_policies db) (reservations db) (reservation_commands db) (reservation_events
  db) (configuration_intents db) (control_requests db) (control_results db) (message_replies
  db) (role_codes db) (login_sessions db) (login_ip_attempts db) (account_audits db)
  (alert_rule_states db) (operational_alerts db) (alert_emails db) (reconciliation_runs db) v
  (station_idempotency db) (privacy_requests db) (privacy_jobs db) (privacy_policies db)
  (next_id db) (db_now db).

Definition set_station_idempotency (v : gmap (Z * Z) StationCreateIdempotency) (db : Db) : Db :=
  mkDb (users db) (wallets db) (wallet_ledger db) (wallet_audits db) (wallet_topups db)
  (audit_logs db) (stations db) (charge_points db) (connectors db) (tariffs db) (tariff_bands
  db) (charging_sessions db) (occupation_intervals db) (meter_samples db) (session_events db)
  (pending_messages db) (connector_errors db) (invoices db) (invoice_lines db)
  (driver_notifications db) (charging_cards db) (authorization_attempts db) (id_tags db)
  (driver_start_requests db) (station_power db) (connector_power db) (power_commands db)
  (power_schedules db) (power_schedule_bands db) (reservation_capabilities db)
  (reservation_policies db) (reservations db) (reservation_commands db) (reservation_events
  db) (configuration_intents db) (control_requests db) (control_results db) (message_replies
  db) (role_codes db) (login_sessions db) (login_ip_attempts db) (account_audits db)
  (alert_rule_states db) (operational_alerts db) (alert_emails db) (reconciliation_runs db)
  (reconciliation_issues db) v (privacy_requests db) (privacy_jobs db) (privacy_policies db)
  (next_id db) (db_now db).

Definition set_privacy_requests (v : gmap Z PrivacyRequest) (db : Db) : Db :=
  mkDb (users db) (wallets db) (wallet_ledger db) (wallet_audits db) (wallet_topups db)
  (audit_logs db) (stations db) (charge_points db) (connectors db) (tariffs db) (tariff_bands
  db) (charging_sessions db) (occupation_intervals db) (meter_samples db) (session_events db)
  (pending_messages db) (connector_errors db) (invoices db) (invoice_lines db)
  (driver_notifications db) (charging_cards db) (authorization_attempts db) (id_tags db)
  (driver_start_requests db) (station_power db) (connector_power db) (power_commands db)
  (power_schedules db) (power_schedule_bands db) (reservation_capabilities db)
  (reservation_policies db) (reservations db) (reservation_commands db) (reservation_events
  db) (configuration_intents db) (control_requests db) (control_results db) (message_replies
  db) (role_codes db) (login_sessions db) (login_ip_attempts db) (account_audits db)
  (alert_rule_states db) (operational_alerts db) (alert_emails db) (reconciliation_runs db)
  (reconciliation_issues db) (station_idempotency db) v (privacy_jobs db) (privacy_policies
  db) (next_id db) (db_now db).

Definition set_privacy_jobs (v : gmap Z PrivacyJob) (db : Db) : Db :=
  mkDb (users db) (wallets db) (wallet_ledger db) (wallet_audits db) (wallet_topups db)
  (audit_logs db) (stations db) (charge_points db) (connectors db) (tariffs db) (tariff_bands
  db) (charging_sessions db) (occupation_intervals db) (meter_samples db) (session_events db)
  (pending_messages db) (connector_errors db) (invoices db) (invoice_lines db)
  (driver_notifications db) (charging_cards db) (authorization_attempts db) (id_tags db)
  (driver_start_requests db) (station_power db) (connector_power db) (power_commands db)
  (power_schedules db) (power_schedule_bands db) (reservation_capabilities db)
  (reservation_policies db) (reservations db) (reservation_commands db) (reservation_events
  db) (configuration_intents db) (control_requests db) (control_results db) (message_replies
  db) (role_codes db) (login_sessions db) (login_ip_attempts db) (account_audits db)
  (alert_rule_states db) (operational_alerts db) (alert_emails db) (reconciliation_runs db)
  (reconciliation_issues db) (station_idempotency db) (privacy_requests db) v
  (privacy_policies db) (next_id db) (db_now db).

Definition set_privacy_policies (v : list string) (db : Db) : Db :=
  mkDb (users db) (wallets db) (wallet_ledger db) (wallet_audits db) (wallet_topups db)
  (audit_logs db) (stations db) (charge_points db) (connectors db) (tariffs db) (tariff_bands
  db) (charging_sessions db) (occupation_intervals db) (meter_samples db) (session_events db)
  (pending_messages db) (connector_errors db) (invoices db) (invoice_lines db)
  (driver_notifications db) (charging_cards db) (authorization_attempts db) (id_tags db)
  (driver_start_requests db) (station_power db) (connector_power db) (power_commands db)
  (power_schedules db) (power_schedule_bands db) (reservation_capabilities db)
  (reservation_policies db) (reservations db) (reservation_commands db) (reservation_events
  db) (configuration_intents db) (control_requests db) (control_results db) (message_replies
  db) (role_codes db) (login_sessions db) (login_ip_attempts db) (account_audits db)
  (alert_rule_states db) (operational_alerts db) (alert_emails db) (reconciliation_runs db)
  (reconciliation_issues db) (station_idempotency db) (privacy_requests db) (privacy_jobs db)
  v (next_id db) (db_now db).

Definition set_next_id (v : Z) (db : Db) : Db :=
  mkDb (users db) (wallets db) (wallet_ledger db) (wallet_audits db) (wallet_topups db)
  (audit_logs db) (stations db) (charge_points db) (connectors db) (tariffs db) (tariff_bands
  db) (charging_sessions db) (occupation_intervals db) (meter_samples db) (session_events db)
  (pending_messages db) (connector_errors db) (invoices db) (invoice_lines db)
  (driver_notifications db) (charging_cards db) (authorization_attempts db) (id_tags db)
  (driver_start_requests db) (station_power db) (connector_power db) (power_commands db)
  (power_schedules db) (power_schedule_bands db) (reservation_capabilities db)
  (reservation_policies db) (reservations db) (reservation_commands db) (reservation_events
  db) (configuration_intents db) (control_requests db) (control_results db) (message_replies
  db) (role_codes db) (login_sessions db) (login_ip_attempts db) (account_audits db)
  (alert_rule_states db) (operational_alerts db) (alert_emails db) (reconciliation_runs db)
  (reconciliation_issues db) (station_idempotency db) (privacy_requests db) (privacy_jobs db)
  (privacy_policies db) v (db_now db).

Definition set_db_now (v : Z) (db : Db) : Db :=
  mkDb (users db) (wallets db) (wallet_ledger db) (wallet_audits db) (wallet_topups db)
  (audit_logs db) (stations db) (charge_points db) (connectors db) (tariffs db) (tariff_bands
  db) (charging_sessions db) (occupation_intervals db) (meter_samples db) (session_events db)
  (pending_messages db) (connector_errors db) (invoices db) (invoice_lines db)
  (driver_notifications db) (charging_cards db) (authorization_attempts db) (id_tags db)
  (driver_start_requests db) (station_power db) (connector_power db) (power_commands db)
  (power_schedules db) (power_schedule_bands db) (reservation_capabilities db)
  (reservation_policies db) (reservations db) (reservation_commands db) (reservation_events
  db) (configuration_intents db) (control_requests db) (control_results db) (message_replies
  db) (role_codes db) (login_sessions db) (login_ip_attempts db) (account_audits db)
  (alert_rule_states db) (operational_alerts db) (alert_emails db) (reconciliation_runs db)
  (reconciliation_issues db) (station_idempotency db) (privacy_requests db) (privacy_jobs db)
  (privacy_policies db) (next_id db) v.

Definition empty_db : Db :=
  mkDb ∅ ∅ [] ∅ ∅ [] ∅ ∅ ∅ ∅ [] ∅ [] [] [] [] [] ∅ [] [] ∅ [] ∅ ∅ ∅ ∅ ∅ ∅ [] ∅ ∅ ∅ ∅ [] ∅ ∅ ∅ ∅ [] ∅ ∅ [] ∅ ∅ ∅ [] [] ∅ ∅ ∅ [] 1 0.

(** A database session of the application. *)
Abbreviation Tx := (M Db Exn).

(** What the services take from outside the repository's Python code: the time
    zone database, and the deployment's settings ([src/config.py]). *)
Class Deployment := {
  zoneinfo : string → Zone;
  wallet_manual_topup_max_vnd : Z;
  wallet_reserve_vnd : Z;
  charging_minimum_kwh : Z;
  driver_notification_retention_days : Z;
  charging_abnormal_offline_seconds : Z;
  billing_available_confirms_unplug : bool;
  ocpp_heartbeat_interval_seconds : Z;
  demo_driver_unplug_enabled : bool;
  power_command_timeout_seconds : Z;
  alert_error_window_seconds : Z;
  alert_error_threshold : Z;
  alert_offline_grace_seconds : Z;
  alert_email_recipients : list string;
  alert_email_max_attempts : Z;
  alert_smtp_enabled : bool;
  (** [smtp_enabled(settings)] and the timeout of the sender that is configured *)
  smtp_enabled : bool;
  smtp_timeout_us : Z;
}.

(** [==] of two JSON values built by the same code. *)
Fixpoint list_eqb {A} (eqb : A → A → bool) (l k : list A) : bool :=
  match l, k with
  | [], [] => true
  | x :: l, y :: k => eqb x y && list_eqb eqb l k
  | _, _ => false
  end.

Fixpoint json_eqb (x y : Json) : bool :=
  match x, y with
  | JNull, JNull => true
  | JBool a, JBool b => Bool.eqb a b
  | JInt a, JInt b => a =? b
  | JStr a, JStr b => bool_decide (a = b)
  | JList a, JList b => list_eqb json_eqb a b
  | JObj a, JObj b => list_eqb (λ p q, bool_decide (p.1 = q.1) && json_eqb p.2 q.2) a b
  | _, _ => false
  end.

(** ** Queries *)

(** [session.scalar(select(T).where(P))] on a table keyed by primary key. *)
Definition select_where {A} (P : A → bool) (t : gmap Z A) : option A :=
  head (filter (λ x, P x = true) ((map_to_list t).*2)).

(** [session.scalar(select(T).where(P).limit(1))] on a list table *)
Definition first_where {A} (P : A → bool) (t : list A) : option A :=
  head (filter (λ x, P x = true) t).

(** The row of an identity or UUID column default. *)
Definition fresh_id : Tx Z :=
  n ← gets next_id; modify (set_next_id (n + 1));; mret n.

Section queries.
Context {A : Type}.
Implicit Types (P : A → bool).

Lemma first_where_Some P l x : first_where P l = Some x → x ∈ l ∧ P x = true.
Proof. intros H%head_Some_elem_of. apply list_elem_of_filter in H as [??]. done. Qed.

Lemma first_where_None P l : first_where P l = None ↔ ∀ x, x ∈ l → P x = false.
Proof.
  unfold first_where. split.
  - intros H%head_None x Hx. destruct (P x) eqn:E; [|done].
    assert (x ∈ filter (λ x, P x = true) l) by (by apply list_elem_of_filter). rewrite H in *. set_solver.
  - intros H. apply head_None. destruct (filter _ l) as [|x l'] eqn:E; [done|].
    assert (x ∈ filter (λ x, P x = true) l) as [Hx Hl]%list_elem_of_filter by (rewrite E; set_solver).
    by rewrite H in Hx.
Qed.

Lemma select_where_Some P t x : select_where P t = Some x → ∃ k, t !! k = Some x ∧ P x = true.
Proof.
  intros H%head_Some_elem_of. apply list_elem_of_filter in H as [HP H].
  apply list_elem_of_fmap in H as ([k y] & -> & H%elem_of_map_to_list). eauto.
Qed.

Lemma select_where_None P t : select_where P t = None ↔ ∀ k x, t !! k = Some x → P x = false.
Proof.
  unfold select_where. pose proof (first_where_None P ((map_to_list t).*2)) as H.
  unfold first_where in H. rewrite H. split.
  - intros Hn k x Hk. apply Hn, list_elem_of_fmap. exists (k, x). split; [done|]. by apply elem_of_map_to_list.
  - intros Hn x ([k y] & -> & Hk%elem_of_map_to_list)%list_elem_of_fmap. by apply (Hn k).
Qed.

(** A query on a unique column finds the row that has the value. *)
Lemma select_where_unique P t k x :
  t !! k = Some x → P x = true → (∀ k' y, t !! k' = Some y → P y = true → y = x) →
  select_where P t = Some x.
Proof.
  intros Hk HP Hu. destruct (select_where P t) as [y|] eqn:E.
  - apply select_where_Some in E as (k' & Hk' & HP'). f_equal. eauto.
  - rewrite select_where_None in E. by rewrite (E k x Hk) in HP.
Qed.
End queries.
