(* ===== verification/AuditTrail.v ===== *)
(** * AuditTrail: the audit log every service writes through

    Models [src/src/platform/audit/service.py]. *)

From S2P Require Import Prelude Text Store.
From Stdlib Require Import Ascii.

(** ** Validation of the payload *)

Definition SENSITIVE_KEYS : list string :=
  ["idtag"; "idtoken"; "cardcode"; "cardnumber"; "cardid"; "macard"; "mathe"; "email";
   "emailaddress"; "phone"; "phonenumber"; "telephone"; "sodienthoai"; "token"; "accesstoken";
   "refreshtoken"; "sessiontoken"; "authorization"; "password"; "passwordhash"; "secret";
   "webhooksecret"; "cookie"; "fullname"; "name"; "address"; "identitynumber"; "nationalid";
   "cccd"; "cmnd"].

(** [str.casefold]: letters to lower case, sharp s to two letters. *)
Definition casefold (c : ascii) : list ascii :=
  let n := code c in
  if n =? 223 then ["s"%char; "s"%char]
  else if ((65 <=? n) && (n <=? 90)) || ((192 <=? n) && (n <=? 222) && negb (n =? 215))
  then [chr (n + 32)] else [c].

(** [str.isalnum]: letters, digits, superscripts and vulgar fractions. *)
Definition isalnum (c : ascii) : bool :=
  let n := code c in
  ((48 <=? n) && (n <=? 57)) || ((65 <=? n) && (n <=? 90)) || ((97 <=? n) && (n <=? 122)) ||
  (n =? 170) || (n =? 178) || (n =? 179) || (n =? 181) || (n =? 185) || (n =? 186) ||
  ((188 <=? n) && (n <=? 190)) ||
  ((192 <=? n) && negb (n =? 215) && negb (n =? 247)).

Definition normalized (key : string) : string :=
  of_chars (filter (λ c, isalnum c = true) (chars key ≫= casefold)).

Definition sensitive (key : string) : bool :=
  bool_decide (normalized key ∈ SENSITIVE_KEYS).

(** [_validate_json]: [false] is its [ValueError]. *)
Fixpoint _validate_json (value : Json) : bool :=
  match value with
  | JObj fields => forallb (λ kv, negb (sensitive kv.1) && _validate_json kv.2) fields
  | JList l => forallb _validate_json l
  | JOther => false
  | _ => true
  end.

Definition _identifier (value : string) (maximum : option Z) : Tx string :=
  let v := strip value in
  raise_if ((text_len v =? 0) || match maximum with Some m => m <? text_len v | None => false end)
    ValueError;;
  mret v.

(** Python orders strings by code points. *)
Definition string_le (a b : string) : Prop := String.leb a b = true.

#[export] Instance string_le_dec a b : Decision (string_le a b).
Proof. unfold string_le. apply _. Defined.

(** [sorted(set(roles))] *)
Definition sorted_roles (roles : list string) : list string :=
  merge_sort string_le (remove_dups roles).

Fixpoint identifiers (l : list string) : Tx (list string) :=
  match l with
  | [] => mret []
  | r :: l' => v ← _identifier r (Some 100); vs ← identifiers l'; mret (v :: vs)
  end.

Definition optional {A B} (f : A → Tx B) (o : option A) : Tx (option B) :=
  match o with Some a => b ← f a; mret (Some b) | None => mret None end.

(** A foreign key to [users]. *)
Definition known_user (db : Db) (actor : option Z) : bool :=
  match actor with Some u => bool_decide (is_Some (users db !! u)) | None => true end.

Definition ghi_nhat_ky (actor_id : option Z) (action object_type object_id : string)
    (data : list (string * Json)) (permission : option string)
    (actor_roles : option (list string)) : Tx Z :=
  raise_if (negb (_validate_json (JObj data))) ValueError;;
  roles ← optional (λ rs, vs ← identifiers rs; mret (sorted_roles vs)) actor_roles;
  action ← _identifier action (Some 100);
  object_type ← _identifier object_type (Some 100);
  object_id ← _identifier object_id None;
  permission ← optional (λ p, _identifier p (Some 100)) permission;
  ok ← gets (λ db, known_user db actor_id);
  raise_if (negb ok) (IntegrityError "audit_logs_actor_id_fkey");;
  id ← fresh_id;
  modify (λ db, set_audit_logs (audit_logs db ++
    [mkAuditLog id actor_id action object_type object_id data permission roles]) db);;
  mret id.

(** ** Facts *)

(** The only change a successful call makes: one more row. *)
Definition audited (row : AuditLog) (db : Db) : Db :=
  set_audit_logs (audit_logs db ++ [row]) (set_next_id (next_id db + 1) db).

Definition pure_tx {A} (m : Tx A) : Prop := ∀ db, (m db).2 = db.

Lemma pure_ret {A} (a : A) : pure_tx (mret a).
Proof. done. Qed.
Lemma pure_raise_if b e : pure_tx (raise_if b e).
Proof. by destruct b. Qed.
Lemma pure_gets {A} (f : Db → A) : pure_tx (gets f).
Proof. done. Qed.
Lemma pure_bind {A B} (m : Tx A) (k : A → Tx B) :
  pure_tx m → (∀ a, pure_tx (k a)) → pure_tx (m ≫= k).
Proof.
  intros Hm Hk db. unfold mbind, M_bind. specialize (Hm db). destruct (m db) as [[e|a] db']; simpl in *; [done|].
  rewrite Hk. done.
Qed.
#[export] Hint Resolve pure_ret pure_raise_if pure_gets pure_bind : csms.

Lemma pure_identifier s m : pure_tx (_identifier s m).
Proof. unfold _identifier. auto with csms. Qed.
#[export] Hint Resolve pure_identifier : csms.
Lemma pure_identifiers l : pure_tx (identifiers l).
Proof. induction l; simpl; auto 10 with csms. Qed.
Lemma pure_optional {A B} (f : A → Tx B) o : (∀ a, pure_tx (f a)) → pure_tx (optional f o).
Proof. destruct o; simpl; auto with csms. Qed.
#[export] Hint Resolve pure_identifiers pure_optional : csms.

Lemma bind_pure {A B} (m : Tx A) (k : A → Tx B) db r db' :
  pure_tx m → (m ≫= k) db = (r, db') →
  (∃ e, m db = (inl e, db) ∧ r = inl e ∧ db' = db) ∨ (∃ a, m db = (inr a, db) ∧ k a db = (r, db')).
Proof.
  intros Hm. specialize (Hm db). unfold mbind, M_bind. destruct (m db) as [[e|a] db1]; simpl in Hm; subst db1.
  - intros [= <- <-]. left. eauto.
  - intros H. right. eauto.
Qed.

Lemma identifier_ok s m db v db' :
  _identifier s m db = (inr v, db') → v = strip s ∧ v ≠ ""%string ∧ db' = db.
Proof.
  unfold _identifier. destruct (text_len (strip s) =? 0) eqn:E; [done|].
  destruct m as [m|]; simpl; [destruct (m <? text_len (strip s)); [done|]|];
    intros [= <- <-]; split_and!; try done; intros Hs; by rewrite Hs in E.
Qed.

(** What a call does: raises and writes nothing, or appends one row. *)
Lemma ghi_nhat_ky_cases actor action ot oi data perm roles db r db' :
  ghi_nhat_ky actor action ot oi data perm roles db = (r, db') →
  (∃ e, r = inl e ∧ db' = db) ∨
  (∃ rs p, r = inr (next_id db) ∧ _validate_json (JObj data) = true ∧ known_user db actor = true ∧
     strip action ≠ ""%string ∧ strip ot ≠ ""%string ∧ strip oi ≠ ""%string ∧
     db' = audited (mkAuditLog (next_id db) actor (strip action) (strip ot) (strip oi) data p rs) db).
Proof.
  unfold ghi_nhat_ky. intros H.
  apply bind_pure in H as [(e & _ & -> & ->)|([] & Hv & H)]; [left; eauto| |auto with csms].
  apply bind_pure in H as [(e & _ & -> & ->)|(rs & _ & H)]; [left; eauto| |auto with csms].
  apply bind_pure in H as [(e & _ & -> & ->)|(a & Ha & H)]; [left; eauto| |auto with csms].
  apply bind_pure in H as [(e & _ & -> & ->)|(t & Ht & H)]; [left; eauto| |auto with csms].
  apply bind_pure in H as [(e & _ & -> & ->)|(o & Ho & H)]; [left; eauto| |auto with csms].
  apply bind_pure in H as [(e & _ & -> & ->)|(p & _ & H)]; [left; eauto| |auto with csms].
  apply bind_pure in H as [(e & _ & -> & ->)|(ok & Hok & H)]; [left; eauto| |auto with csms].
  apply bind_pure in H as [(e & _ & -> & ->)|([] & Hk & H)]; [left; eauto| |auto with csms].
  injection Hok as <-. apply identifier_ok in Ha as (-> & ? & _), Ht as (-> & ? & _), Ho as (-> & ? & _).
  right. exists rs, p. injection H as <- <-. split_and!; try done.
  - by destruct (_validate_json (JObj data)).
  - by destruct (known_user db actor).
Qed.

(** Whatever does not depend on the audit table survives a call. *)
Lemma keeps_audit (I : Db → Prop) a b c d e f g :
  (∀ row db, I db → I (audited row db)) → keeps I (ghi_nhat_ky a b c d e f g).
Proof.
  intros HI db H. destruct (ghi_nhat_ky _ _ _ _ _ _ _ db) as [r db'] eqn:E.
  apply ghi_nhat_ky_cases in E as [(? & _ & ->)|(? & ? & _ & _ & _ & _ & _ & _ & ->)]; [done|]. by apply HI.
Qed.

(** ** Calls that succeed *)

Definition identifier_valid (maximum : option Z) (s : string) : bool :=
  negb ((text_len (strip s) =? 0) ||
        match maximum with Some m => m <? text_len (strip s) | None => false end).

Lemma identifier_eq s m db : identifier_valid m s = true → _identifier s m db = (inr (strip s), db).
Proof. unfold identifier_valid, _identifier. by intros ->%negb_true_iff. Qed.

Lemma identifiers_eq l db :
  Forall (λ s, identifier_valid (Some 100) s = true) l → identifiers l db = (inr (strip <$> l), db).
Proof.
  induction 1 as [|s l Hs Hl IH]; [done|]. cbn [identifiers].
  rewrite (bind_ok_step _ _ _ _ _ (identifier_eq s _ db Hs)), (bind_ok_step _ _ _ _ _ IH). done.
Qed.

Lemma uuid_identifier u : identifier_valid None (uuid_str u) = true.
Proof. unfold identifier_valid. by rewrite uuid_str_strip, uuid_str_len. Qed.

Definition roles_valid (roles : option (list string)) : Prop :=
  match roles with Some l => Forall (λ s, identifier_valid (Some 100) s = true) l | None => True end.

Definition permission_valid (perm : option string) : Prop :=
  match perm with Some p => identifier_valid (Some 100) p = true | None => True end.

Lemma ghi_nhat_ky_ok actor action ot oi data perm roles db :
  _validate_json (JObj data) = true → roles_valid roles → identifier_valid (Some 100) action = true →
  identifier_valid (Some 100) ot = true → identifier_valid None oi = true → permission_valid perm →
  known_user db actor = true →
  ghi_nhat_ky actor action ot oi data perm roles db =
  (inr (next_id db), audited (mkAuditLog (next_id db) actor (strip action) (strip ot) (strip oi) data
     (strip <$> perm) ((λ l, sorted_roles (strip <$> l)) <$> roles)) db).
Proof.
  intros Hv Hr Ha Ht Ho Hp Hu. unfold ghi_nhat_ky.
  rewrite (bind_ok_step _ _ _ () db) by (by rewrite Hv).
  rewrite (bind_ok_step _ _ _ ((λ l, sorted_roles (strip <$> l)) <$> roles) db).
  2: { destruct roles as [l|]; [|done]. cbn [optional].
       erewrite (bind_ok_step _ _ _ _ db); [done|]. by rewrite (bind_ok_step _ _ _ _ _ (identifiers_eq l db Hr)). }
  rewrite (bind_ok_step _ _ _ _ _ (identifier_eq action _ db Ha)).
  rewrite (bind_ok_step _ _ _ _ _ (identifier_eq ot _ db Ht)).
  rewrite (bind_ok_step _ _ _ _ _ (identifier_eq oi _ db Ho)).
  rewrite (bind_ok_step _ _ _ (strip <$> perm) db).
  2: { destruct perm as [p|]; [|done]. cbn [optional]. by rewrite (bind_ok_step _ _ _ _ _ (identifier_eq p _ db Hp)). }
  rewrite (bind_ok_step _ _ _ true db) by (unfold gets; by rewrite Hu). reflexivity.
Qed.

(** ** No personal data in the log *)

(** A key occurs somewhere in a JSON value. *)
Inductive key_in (k : string) : Json → Prop :=
  | key_here fields v : (k, v) ∈ fields → key_in k (JObj fields)
  | key_below fields k' v : (k', v) ∈ fields → key_in k v → key_in k (JObj fields)
  | key_item l v : v ∈ l → key_in k v → key_in k (JList l).

Lemma validated_keys k v : key_in k v → _validate_json v = true → sensitive k = false.
Proof.
  induction 1 as [fields v Hin|fields k' v Hin Hk IH|l v Hin Hk IH]; simpl;
    rewrite forallb_forall; intros Hall; apply list_elem_of_In, Hall in Hin; simpl in Hin.
  - by apply andb_true_iff in Hin as [?%negb_true_iff _].
  - apply andb_true_iff in Hin as [_ ?]. auto.
  - auto.
Qed.

(** The audit log takes no personal data: a call of [ghi_nhat_ky] either
    raises and leaves the database untouched, or appends exactly one row whose
    identifiers are non-empty and whose payload has no sensitive key at any
    depth, whatever its case and separators. *)
Theorem ghi_nhat_ky_sanitised actor action ot oi data perm roles db :
  match ghi_nhat_ky actor action ot oi data perm roles db with
  | (inl _, db') => db' = db
  | (inr _, db') =>
      ∃ row, db' = audited row db ∧ al_data row = data ∧ al_actor_id row = actor ∧
        al_action row ≠ ""%string ∧ al_object_type row ≠ ""%string ∧ al_object_id row ≠ ""%string ∧
        ∀ k, key_in k (JObj data) → normalized k ∉ SENSITIVE_KEYS
  end.
Proof.
  destruct (ghi_nhat_ky _ _ _ _ _ _ _ db) as [[e|i] db'] eqn:E; apply ghi_nhat_ky_cases in E;
    [naive_solver|].
  destruct E as [(e & ? & _)|(rs & p & _ & Hv & _ & ? & ? & ? & ->)]; [done|].
  eexists. split_and!; try reflexivity; try done. intros k Hk.
  pose proof (validated_keys _ _ Hk Hv) as Hs. unfold sensitive in Hs. by apply bool_decide_eq_false in Hs.
Qed.

Example audit_rejects_id_tag :
  _validate_json (JObj [("wallet_id", JInt 1); ("nested", JList [JObj [("ID-Tag", JStr "x")]])]) = false.
Proof. vm_compute. reflexivity. Qed.
