(* ===== verification/Wallet.v ===== *)
(** * Wallet: the ledger and the balance it carries

    Models [src/src/modules/wallet/service.py] and [wallet/provisioning.py].
    Python's run-time type checks ([type(value) is not int],
    [isinstance(..., str)]) are the types of the arguments here. *)

From S2P Require Import Prelude Text Store AuditTrail.

(** ** Operations *)

Definition in_vnd (v : Z) : bool := (MIN_VND <=? v) && (v <=? MAX_VND).

Definition _integer_vnd (value : Z) : Tx Z :=
  raise_if (negb (in_vnd value)) WalletAmountError;; mret value.

Definition _lock_wallet (wallet_id : Z) : Tx Wallet :=
  w ← gets (λ db, wallets db !! wallet_id); some_or w WalletNotFoundError.

(** The query of [_require_admin]: an active user with the role [admin]. *)
Definition is_admin (db : Db) (actor_id : option Z) : bool :=
  match actor_id ≫= λ a, users db !! a with
  | Some u => bool_decide (u_status u = "active" ∧ "admin" ∈ u_roles u)
  | None => false
  end.

Definition _require_admin (actor_id : option Z) : Tx () :=
  ok ← gets (λ db, is_admin db actor_id); raise_if (negb ok) WalletAdminRequiredError.

Definition _matching_entry (row : WalletLedger) (wallet_id amount_vnd : Z) : Tx WalletLedger :=
  raise_if (negb ((l_wallet_id row =? wallet_id) && (l_amount_vnd row =? amount_vnd)))
    WalletLedgerConflictError;;
  mret row.

(** The unique key [uq_wallet_ledger_reference]. *)
Definition has_key (entry_type : EntryType) (reference_id : string) (row : WalletLedger) : bool :=
  bool_decide (l_entry_type row = entry_type ∧ l_reference_id row = reference_id).

Definition by_reference (entry_type : EntryType) (reference_id : string) (db : Db)
  : option WalletLedger :=
  first_where (has_key entry_type reference_id) (wallet_ledger db).

(** The sign an entry of each type must have. *)
Definition amount_allowed (entry_type : EntryType) (amount_vnd : Z) : bool :=
  negb (amount_vnd =? 0) &&
  match entry_type with
  | gateway_topup | manual_topup => 0 <? amount_vnd
  | charging_debit | reservation_fee => amount_vnd <? 0
  | adjustment => true
  end.

Definition reference_valid (reference_type reference_id : string) : bool :=
  negb (text_len reference_type =? 0) && (text_len reference_type <=? 50) &&
  negb (text_len reference_id =? 0) && (text_len reference_id <=? 128).

(** The audit row that must authorise an adjustment. *)
Definition adjustment_audit (wallet_id amount_vnd : Z) (reference_type reference_id : string)
    (actor_id : option Z) : Tx WalletAudit :=
  _require_admin actor_id;;
  audit_id ← some_or (canonical_uuid reference_id) WalletAdjustmentAuditError;
  raise_if (negb (bool_decide (reference_type = "audit"))) WalletAdjustmentAuditError;;
  a ← gets (λ db, wallet_audits db !! audit_id);
  audit ← some_or a WalletAdjustmentAuditError;
  raise_if (negb (bool_decide (wa_action audit = adjustment_authorized ∧
      wa_wallet_id audit = wallet_id ∧ Some (wa_actor_id audit) = actor_id ∧
      wa_amount_vnd audit = Some amount_vnd))) WalletAdjustmentAuditError;;
  mret audit.

(** The constraints of table [wallet_ledger] that an insert can violate. *)
Definition ledger_violation (db : Db) (row : WalletLedger) : option string :=
  if blank (l_reference_type row) || blank (l_reference_id row) then Some "ck_wallet_ledger_reference_nonempty"
  else if bool_decide (l_entry_type row = adjustment) &&
       negb (bool_decide (is_Some (l_actor_id row) ∧ l_reference_type row = "audit"))
  then Some "ck_wallet_ledger_adjustment_audit"
  else if bool_decide (l_entry_type row = reservation_fee) &&
       negb ((l_amount_vnd row <? 0) && bool_decide (l_reference_type row = "reservation"))
  then Some "ck_wallet_reservation_fee"
  else if negb (known_user db (l_actor_id row)) then Some "wallet_ledger_actor_id_fkey"
  else None.

(** [INSERT ... ON CONFLICT (uq_wallet_ledger_reference) DO NOTHING RETURNING] *)
Definition insert_ledger (row : Z → Z → WalletLedger) : Tx (option WalletLedger) :=
  now ← gets db_now; id ← fresh_id;
  let r := row id now in
  bad ← gets (λ db, ledger_violation db r);
  match bad with
  | Some c => raise (IntegrityError c)
  | None =>
      dup ← gets (by_reference (l_entry_type r) (l_reference_id r));
      match dup with
      | Some _ => mret None
      | None => modify (λ db, set_wallet_ledger (wallet_ledger db ++ [r]) db);; mret (Some r)
      end
  end.

Definition set_balance (wallet_id balance_vnd : Z) (db : Db) : Db :=
  set_wallets (alter (set_w_balance_vnd balance_vnd) wallet_id (wallets db)) db.

(** [ghi_so_cai], with what the transactions of other wallets commit between
    its look-up of the key and its insert ([others]): the row lock on the
    wallet does not stop those. *)
Definition ghi_so_cai_under (others : Db → Db) (wallet_id : Z) (entry_type : EntryType)
    (amount_vnd : Z) (reference_type reference_id : string) (actor_id : option Z)
  : Tx WalletLedger :=
  _integer_vnd amount_vnd;;
  raise_if (negb (amount_allowed entry_type amount_vnd)) WalletAmountError;;
  let reference_type := strip reference_type in
  let reference_id := strip reference_id in
  raise_if (negb (reference_valid reference_type reference_id)) ValueError;;
  wallet ← _lock_wallet wallet_id;
  existing ← gets (by_reference entry_type reference_id);
  match existing with
  | Some row => _matching_entry row wallet_id amount_vnd;; mret ()
  | None => mret ()
  end;;
  raise_if (bool_decide (w_status wallet = locked ∧ entry_type ≠ adjustment)) WalletLockedError;;
  audit ← (if decide (entry_type = adjustment)
           then a ← adjustment_audit wallet_id amount_vnd reference_type reference_id actor_id;
                mret (Some a)
           else mret None);
  match existing with
  | Some row => mret row
  | None =>
      balance_after ← _integer_vnd (w_balance_vnd wallet + amount_vnd);
      raise_if (match audit with
                | Some a => negb (bool_decide (wa_before_balance_vnd a = w_balance_vnd wallet ∧
                                               wa_after_balance_vnd a = balance_after))
                | None => false end) WalletAdjustmentAuditError;;
      modify others;;
      savepoint (
        row ← insert_ledger (λ id now, mkLedger id wallet_id entry_type amount_vnd balance_after
                 reference_type reference_id actor_id now);
        match row with
        | None =>
            w ← gets (by_reference entry_type reference_id);
            winner ← some_or w WalletLedgerConflictError;
            _matching_entry winner wallet_id amount_vnd
        | Some r => modify (set_balance wallet_id balance_after);; mret r
        end)
  end.

(** Without interference. *)
Definition ghi_so_cai := ghi_so_cai_under id.

Definition ledger_total (wallet_id : Z) (l : list WalletLedger) : Z :=
  sumZ (l_amount_vnd <$> filter (λ e, l_wallet_id e = wallet_id) l).

(** [str.strip()] of 1 to 500 characters *)
Definition reason_valid (reason : string) : bool :=
  let n := text_len (strip reason) in (1 <=? n) && (n <=? 500).

(** [AuthorizationEvidence] *)
Record Evidence := mkEvidence { ev_permission : string; ev_roles : list string }.

Definition insert_wallet_audit (a : WalletAudit) : Tx () :=
  dup ← gets (λ db, wallet_audits db !! wa_id a);
  match dup with
  | Some _ => raise (IntegrityError "wallet_audits_pkey")
  | None => modify (λ db, set_wallet_audits (<[wa_id a := a]> (wallet_audits db)) db)
  end.

Definition phuc_hoi_so_du_cache (wallet_id actor_id : Z) (reason : string)
    (authorization : option Evidence) : Tx Wallet :=
  raise_if (negb (reason_valid reason)) ValueError;;
  _require_admin (Some actor_id);;
  wallet ← _lock_wallet wallet_id;
  total ← gets (λ db, ledger_total wallet_id (wallet_ledger db));
  balance ← _integer_vnd total;
  if w_balance_vnd wallet =? balance then mret wallet
  else
    savepoint (
      id ← fresh_id;
      insert_wallet_audit (mkWalletAudit id wallet_id actor_id cache_repaired
        (w_balance_vnd wallet) balance None (strip reason));;
      modify (set_balance wallet_id balance);;
      ghi_nhat_ky (Some actor_id) "wallet.cache_repaired" "wallet_audit" (uuid_str id)
        [("wallet_id", JStr (uuid_str wallet_id));
         ("before_balance_vnd", JInt (w_balance_vnd wallet));
         ("after_balance_vnd", JInt balance);
         ("driver_id", JStr (uuid_str (w_driver_id wallet)));
         ("reason", JStr (strip reason)); ("audit_version", JInt 1)]
        (ev_permission <$> authorization) (ev_roles <$> authorization));;
    _lock_wallet wallet_id.

Definition wallet_of_driver (driver_id : Z) (db : Db) : option Wallet :=
  select_where (λ w, w_driver_id w =? driver_id) (wallets db).

Definition is_driver (db : Db) (driver_id : Z) : bool :=
  match users db !! driver_id with
  | Some u => bool_decide ("driver" ∈ u_roles u)
  | None => false
  end.

(** [INSERT ... ON CONFLICT (uq_wallets_driver) DO NOTHING] *)
Definition insert_wallet (id driver_id : Z) : Tx () :=
  present ← gets (wallet_of_driver driver_id);
  match present with
  | Some _ => mret ()
  | None =>
      pk ← gets (λ db, wallets db !! id);
      match pk with
      | Some _ => raise (IntegrityError "wallets_pkey")
      | None => modify (λ db, set_wallets (<[id := mkWallet id driver_id 0 active]> (wallets db)) db)
      end
  end.

Definition ensure_driver_wallet (driver_id : Z) : Tx Wallet :=
  ok ← gets (λ db, is_driver db driver_id);
  raise_if (negb ok) WalletDriverRequiredError;;
  id ← fresh_id;
  insert_wallet id driver_id;;
  w ← gets (wallet_of_driver driver_id);
  some_or w WalletDriverRequiredError.

Definition invoice_of_session (session_id : Z) (db : Db) : option Invoice :=
  select_where (λ i, inv_session_id i =? session_id) (invoices db).

Definition tru_vi (invoice : option Invoice) (session_id wallet_id : option Z)
    (actor_id : option Z) : Tx (option WalletLedger) :=
  invoice ← match invoice with
            | Some i => mret i
            | None =>
                sid ← some_or session_id ValueError;
                i ← gets (invoice_of_session sid);
                some_or i LookupError
            end;
  raise_if (match session_id with
            | Some s => negb (s =? inv_session_id invoice) | None => false end) ValueError;;
  _integer_vnd (inv_total_vnd invoice);;
  if inv_total_vnd invoice =? 0 then mret None
  else
    raise_if (inv_total_vnd invoice <? 0) WalletAmountError;;
    wallet_id ← match wallet_id with
                | None =>
                    w ← gets (wallet_of_driver (inv_driver_id invoice));
                    match w with
                    | Some w => mret (w_id w)
                    | None => w ← ensure_driver_wallet (inv_driver_id invoice); mret (w_id w)
                    end
                | Some wid =>
                    w ← _lock_wallet wid;
                    raise_if (negb (w_driver_id w =? inv_driver_id invoice)) WalletOwnershipError;;
                    mret wid
                end;
    row ← ghi_so_cai wallet_id charging_debit (- inv_total_vnd invoice) "charging_session"
            (str_int (inv_session_id invoice)) actor_id;
    mret (Some row).

(** ** What [ghi_so_cai] does *)

Lemma pure_some_or {A} (o : option A) e : pure_tx (some_or o e).
Proof. by destruct o. Qed.
#[export] Hint Resolve pure_some_or : csms.

Lemma pure_integer_vnd v : pure_tx (_integer_vnd v).
Proof. unfold _integer_vnd. auto with csms. Qed.
Lemma pure_lock_wallet w : pure_tx (_lock_wallet w).
Proof. unfold _lock_wallet. auto with csms. Qed.
Lemma pure_require_admin a : pure_tx (_require_admin a).
Proof. unfold _require_admin. auto with csms. Qed.
Lemma pure_matching_entry r w a : pure_tx (_matching_entry r w a).
Proof. unfold _matching_entry. auto with csms. Qed.
#[export] Hint Resolve pure_integer_vnd pure_lock_wallet pure_require_admin pure_matching_entry : csms.
Lemma pure_adjustment_audit w a t r u : pure_tx (adjustment_audit w a t r u).
Proof. unfold adjustment_audit. auto 20 with csms. Qed.
#[export] Hint Resolve pure_adjustment_audit : csms.

(** Steps through a computation that starts with a read-only part. *)
Ltac tx_pure H x Hx :=
  apply bind_pure in H as [(? & _ & -> & ->)|(x & Hx & H)];
    [left; eexists; split; [reflexivity|auto]| |auto with csms].

(** The same for a computation that returned. *)
Ltac tx_read H x Hx :=
  apply bind_pure in H as [(? & _ & ? & _)|(x & Hx & H)]; [discriminate| |auto with csms].

Lemma raise_if_ok (b : bool) (e : Exn) (db : Db) u db' :
  raise_if b e db = (inr u, db') → b = false.
Proof. by destruct b. Qed.

Lemma integer_vnd_ok v db a db' : _integer_vnd v db = (inr a, db') → a = v ∧ in_vnd v = true.
Proof. unfold _integer_vnd. destruct (in_vnd v); intros [= <- _]; done. Qed.

Lemma lock_wallet_ok w db a db' : _lock_wallet w db = (inr a, db') → wallets db !! w = Some a.
Proof.
  unfold _lock_wallet, mbind, M_bind, gets. simpl. destruct (wallets db !! w); [|done]. by intros [= <- _].
Qed.

Lemma matching_entry_ok r w a db x db' :
  _matching_entry r w a db = (inr x, db') → x = r ∧ l_wallet_id r = w ∧ l_amount_vnd r = a.
Proof.
  unfold _matching_entry. destruct (l_wallet_id r =? w) eqn:E1, (l_amount_vnd r =? a) eqn:E2; try done.
  intros [= <- _]. split_and!; [done|lia|lia].
Qed.

Lemma by_reference_Some et ref db r :
  by_reference et ref db = Some r →
  r ∈ wallet_ledger db ∧ l_entry_type r = et ∧ l_reference_id r = ref.
Proof.
  intros [Hr Hk]%first_where_Some. unfold has_key in Hk. apply bool_decide_eq_true in Hk as [??]. done.
Qed.

Lemma by_reference_None et ref db :
  by_reference et ref db = None ↔
  ∀ r, r ∈ wallet_ledger db → ¬ (l_entry_type r = et ∧ l_reference_id r = ref).
Proof.
  unfold by_reference. rewrite first_where_None. unfold has_key.
  split; intros H r Hr; specialize (H r Hr); by apply bool_decide_eq_false in H || apply bool_decide_eq_false.
Qed.

(** The new row and the new balance, written together. *)
Definition posted (row : WalletLedger) (db : Db) : Db :=
  set_balance (l_wallet_id row) (l_balance_after_vnd row)
    (set_wallet_ledger (wallet_ledger db ++ [row]) (set_next_id (next_id db + 1) db)).

(** The entry a call writes when nothing has its key yet. *)
Definition new_entry (db : Db) (w : Wallet) (et : EntryType) (amount : Z) (rt ref : string)
    (actor : option Z) : WalletLedger :=
  mkLedger (next_id db) (w_id w) et amount (w_balance_vnd w + amount) (strip rt) (strip ref)
    actor (db_now db).

(** The insert violates a constraint, meets the key, or appends the row. *)
Lemma insert_ledger_cases row db r db' :
  insert_ledger row db = (r, db') →
  let r0 := row (next_id db) (db_now db) in
  let db1 := set_next_id (next_id db + 1) db in
  let key := by_reference (l_entry_type r0) (l_reference_id r0) db in
  (∃ e, r = inl e) ∨
  (ledger_violation db r0 = None ∧
   ((∃ dup, key = Some dup ∧ r = inr None ∧ db' = db1) ∨
    (key = None ∧ r = inr (Some r0) ∧ db' = set_wallet_ledger (wallet_ledger db1 ++ [r0]) db1))).
Proof.
  intros H r0 db1 key. unfold insert_ledger, fresh_id in H.
  cbv beta iota zeta delta [mbind M_bind gets modify mret M_ret raise] in H.
  fold r0 db1 in H. change (ledger_violation db1 r0) with (ledger_violation db r0) in H.
  change (by_reference (l_entry_type r0) (l_reference_id r0) db1) with key in H.
  destruct (ledger_violation db r0) as [c|]; cbv beta iota in H; [left; injection H as <- _; eauto|].
  right. split; [done|].
  change (by_reference (l_entry_type r0) (l_reference_id r0) db1) with key in H.
  destruct key as [dup|]; cbv beta iota in H; injection H as <- <-; [left; eauto|right; auto].
Qed.

(** The outcomes of a call: it raises and writes nothing of its own; it returns
    the entry that already has the key, found at once or after losing the race;
    or it posts a new entry. *)
Lemma ghi_so_cai_under_cases others wid et amount rt ref actor db r db' :
  ghi_so_cai_under others wid et amount rt ref actor db = (r, db') →
  (∃ e, r = inl e ∧ (db' = db ∨ db' = others db)) ∨
  (∃ row w, r = inr row ∧ wallets db !! wid = Some w ∧ (et = adjustment ∨ w_status w = active) ∧
     in_vnd amount = true ∧ amount_allowed et amount = true ∧
     reference_valid (strip rt) (strip ref) = true ∧
     ((db' = db ∧ by_reference et (strip ref) db = Some row ∧
         l_wallet_id row = wid ∧ l_amount_vnd row = amount) ∨
      (by_reference et (strip ref) db = None ∧ in_vnd (w_balance_vnd w + amount) = true ∧
       ((by_reference et (strip ref) (others db) = Some row ∧ l_wallet_id row = wid ∧
           l_amount_vnd row = amount ∧
           db' = set_next_id (next_id (others db) + 1) (others db)) ∨
        (by_reference et (strip ref) (others db) = None ∧
           known_user (others db) actor = true ∧
           row = mkLedger (next_id (others db)) wid et amount (w_balance_vnd w + amount)
                   (strip rt) (strip ref) actor (db_now (others db)) ∧
           db' = posted row (others db)))))).
Proof.
  unfold ghi_so_cai_under. intros H.
  tx_pure H v Hv. apply integer_vnd_ok in Hv as [-> Hv].
  tx_pure H u Ha. apply raise_if_ok, negb_false_iff in Ha.
  tx_pure H u0 Hr. apply raise_if_ok, negb_false_iff in Hr.
  tx_pure H w Hw. apply lock_wallet_ok in Hw.
  tx_pure H existing Hex. injection Hex as <-.
  apply bind_pure in H as [(? & _ & -> & ->)|(u1 & Hm & H)];
    [left; eexists; split; [reflexivity|auto]| |case_match; auto with csms].
  tx_pure H u2 Hl. apply raise_if_ok, bool_decide_eq_false in Hl.
  assert (et = adjustment ∨ w_status w = active) as Hlock.
  { destruct (w_status w) eqn:E; [by right|left]. destruct (decide (et = adjustment)); [done|].
    exfalso. by apply Hl. }
  apply bind_pure in H as [(? & _ & -> & ->)|(audit & _ & H)];
    [left; eexists; split; [reflexivity|auto]| |case_decide; auto with csms].
  destruct (by_reference et (strip ref) db) as [row|] eqn:Hrow.
  { apply bind_ok in Hm as (x & s1 & Hm & _). apply matching_entry_ok in Hm as (-> & ? & ?).
    injection H as <- <-. right. exists row, w. split_and!; auto. }
  tx_pure H ba Hba. apply integer_vnd_ok in Hba as [-> Hba].
  tx_pure H u3 Hst. clear Hst audit.
  rewrite (bind_ok_step _ _ _ () (others db)) in H by done.
  set (dbo := others db) in *. unfold savepoint in H.
  set (row := mkLedger (next_id dbo) wid et amount (w_balance_vnd w + amount)
                   (strip rt) (strip ref) actor (db_now dbo)) in *.
  destruct ((insert_ledger _ ≫= _) dbo) as [[e|x] s] eqn:Hs; [injection H as <- <-; left; eauto|].
  injection H as <- <-. apply bind_ok in Hs as (o & s1 & Hins & Hs).
  apply insert_ledger_cases in Hins as [[e ?]|[Hviol [(dup & Hkey & [= ->] & ->)|(Hkey & [= ->] & ->)]]]; [done| |].
  - apply bind_ok in Hs as (o & s2 & [= <- <-] & Hs).
    change (by_reference et (strip ref) dbo = Some dup) in Hkey.
    change (by_reference et (strip ref) (set_next_id (next_id dbo + 1) dbo))
      with (by_reference et (strip ref) dbo) in Hs. rewrite Hkey in Hs.
    apply bind_ok in Hs as (d & s2 & [= <- <-] & Hs).
    pose proof (pure_matching_entry dup wid amount (set_next_id (next_id dbo + 1) dbo)) as Hp.
    rewrite Hs in Hp. simpl in Hp. subst s. apply matching_entry_ok in Hs as (-> & ? & ?).
    right. exists dup, w. split_and!; auto. right. split_and!; auto.
  - apply bind_ok in Hs as (? & s2 & [= <- <-] & Hs). injection Hs as <- <-.
    right. exists row, w. split_and!; auto. right. split_and!; auto. right. split_and!; auto.
    revert Hviol. unfold ledger_violation. repeat case_match; try done. intros _. by apply negb_false_iff.
Qed.

(** ** The ledger invariant *)

Definition same_key (e e' : WalletLedger) : Prop :=
  l_entry_type e = l_entry_type e' ∧ l_reference_id e = l_reference_id e'.

Definition entry_ok (ws : gmap Z Wallet) (e : WalletLedger) : Prop :=
  is_Some (ws !! l_wallet_id e) ∧ amount_allowed (l_entry_type e) (l_amount_vnd e) = true ∧
  in_vnd (l_amount_vnd e) = true ∧ in_vnd (l_balance_after_vnd e) = true.

(** The history is sound: every entry carries the running balance of its
    wallet, keys are unique, entries have the sign of their type and fit the
    64-bit columns, and a driver has one wallet. *)
Record history (ws : gmap Z Wallet) (l : list WalletLedger) : Prop := mkHistory {
  history_id : ∀ k w, ws !! k = Some w → w_id w = k;
  history_driver : ∀ k k' w w', ws !! k = Some w → ws !! k' = Some w' →
    w_driver_id w = w_driver_id w' → k = k';
  history_running : ∀ pre e post, l = pre ++ e :: post →
    l_balance_after_vnd e = ledger_total (l_wallet_id e) pre + l_amount_vnd e;
  history_unique : ∀ i j e e', l !! i = Some e → l !! j = Some e' → same_key e e' → i = j;
  history_entries : Forall (entry_ok ws) l;
}.

(** The cached balance of every wallet is the sum of its entries. *)
Definition balanced (ws : gmap Z Wallet) (l : list WalletLedger) : Prop :=
  ∀ k w, ws !! k = Some w → w_balance_vnd w = ledger_total k l.

Definition books (ws : gmap Z Wallet) (l : list WalletLedger) : Prop := history ws l ∧ balanced ws l.

Definition ledger_ok (db : Db) : Prop := books (wallets db) (wallet_ledger db).

Lemma ledger_total_snoc k l e :
  ledger_total k (l ++ [e]) = ledger_total k l + (if decide (l_wallet_id e = k) then l_amount_vnd e else 0).
Proof.
  unfold ledger_total. rewrite filter_app, fmap_app, sumZ_app, filter_cons, filter_nil. f_equal.
  case_decide; cbn; lia.
Qed.

Lemma entry_ok_alter ws f k e : entry_ok ws e → entry_ok (alter f k ws) e.
Proof.
  intros (? & ?). split; [|done]. destruct (decide (l_wallet_id e = k)) as [<-|].
  - rewrite lookup_alter_eq. by apply fmap_is_Some.
  - by rewrite lookup_alter_ne.
Qed.

(** Posting one new entry with the balance it leads to keeps the books. *)
Lemma books_post ws l w row :
  books ws l → ws !! l_wallet_id row = Some w →
  l_balance_after_vnd row = w_balance_vnd w + l_amount_vnd row →
  (∀ e, e ∈ l → ¬ same_key e row) →
  amount_allowed (l_entry_type row) (l_amount_vnd row) = true →
  in_vnd (l_amount_vnd row) = true → in_vnd (l_balance_after_vnd row) = true →
  books (alter (set_w_balance_vnd (l_balance_after_vnd row)) (l_wallet_id row) ws) (l ++ [row]).
Proof.
  intros [[Hid Hdr Hrun Huniq Hent] Hbal] Hw Hba Hkey Ha Hv Hv'.
  assert (∀ k w', alter (set_w_balance_vnd (l_balance_after_vnd row)) (l_wallet_id row) ws !! k = Some w' →
    ∃ w0, ws !! k = Some w0 ∧ w_id w' = w_id w0 ∧ w_driver_id w' = w_driver_id w0 ∧
      w_balance_vnd w' = w_balance_vnd w0 + (if decide (l_wallet_id row = k) then l_amount_vnd row else 0)) as Halt.
  { intros k w'. destruct (decide (l_wallet_id row = k)) as [<-|Hne].
    - rewrite lookup_alter_eq, Hw. intros [= <-]. exists w. split_and!; done.
    - rewrite lookup_alter_ne by done. intros Hk. exists w'. split_and!; try done. lia. }
  split; [split|].
  - intros k w' (w0 & Hk & -> & _)%Halt. eauto.
  - intros k k' w1 w2 (w3 & H1 & _ & -> & _)%Halt (w4 & H2 & _ & -> & _)%Halt. eauto.
  - intros pre e post Heq. destruct post as [|p post _] using rev_ind.
    + apply app_inj_tail in Heq as [<- <-]. rewrite Hba. f_equal. eauto.
    + rewrite app_comm_cons, app_assoc in Heq. apply app_inj_tail in Heq as [-> _]. eauto.
  - assert (∀ i e, (l ++ [row]) !! i = Some e → (l !! i = Some e) ∨ (i = length l ∧ e = row)) as Hl.
    { intros i e [?|[??]]%lookup_app_Some; [by left|right].
      apply list_lookup_singleton_Some in H0 as [??]. split; [lia|done]. }
    intros i j e e' [Hi|[-> ->]]%Hl [Hj|[-> ->]]%Hl Hs; [by eapply Huniq| | |done].
    + exfalso. eapply Hkey; [by apply list_elem_of_lookup_2 in Hi|done].
    + exfalso. eapply Hkey; [by apply list_elem_of_lookup_2 in Hj|]. destruct Hs. by split.
  - apply Forall_app. split; [eapply Forall_impl; [exact Hent|]; intros; by apply entry_ok_alter|].
    repeat constructor; try done. rewrite lookup_alter_eq, Hw. by eexists.
  - intros k w' (w0 & Hk & _ & _ & ->)%Halt. rewrite ledger_total_snoc, (Hbal _ _ Hk). done.
Qed.

Lemma posted_ok db wid w row :
  ledger_ok db → wallets db !! wid = Some w → l_wallet_id row = wid →
  l_balance_after_vnd row = w_balance_vnd w + l_amount_vnd row →
  by_reference (l_entry_type row) (l_reference_id row) db = None →
  amount_allowed (l_entry_type row) (l_amount_vnd row) = true →
  in_vnd (l_amount_vnd row) = true → in_vnd (l_balance_after_vnd row) = true →
  ledger_ok (posted row db).
Proof.
  intros Hok Hw <- Hba Hkey ???. rewrite by_reference_None in Hkey.
  by apply (books_post (wallets db) (wallet_ledger db) w row).
Qed.

(** C2. The books stay balanced: [ghi_so_cai] keeps the ledger invariant on
    every outcome, errors and replays included, whatever transactions of other
    wallets commit between its look-up and its insert, as long as they keep the
    invariant themselves and leave the locked wallet row alone. *)
Theorem ghi_so_cai_keeps_books others wid et amount rt ref actor db r db' :
  ledger_ok db → ledger_ok (others db) → wallets (others db) !! wid = wallets db !! wid →
  ghi_so_cai_under others wid et amount rt ref actor db = (r, db') → ledger_ok db'.
Proof.
  intros Hok Hoth Hlock H. apply ghi_so_cai_under_cases in H
    as [(e & _ & [-> | ->])|(row & w & _ & Hw & _ & Hv & Ha & _ & [(-> & _)|(_ & Hb & [(_ & _ & _ & ->)|(Hk & _ & -> & ->)])])];
    try done.
  by apply (posted_ok _ wid w); [|rewrite Hlock| | | | | |].
Qed.

Definition demo_db : Db :=
  set_users {[ 1 := mkUser "active" ["admin"] "admin@example.com" "" 0 None 0 None 0; 2 := mkUser "active" ["driver"] "driver@example.com" "" 0 None 0 None 0 ]}
    (set_wallets {[ 10 := mkWallet 10 2 0 active ]} (set_next_id 100 empty_db)).

Lemma demo_db_ok : ledger_ok demo_db.
Proof.
  assert (∀ k w, wallets demo_db !! k = Some w → k = 10 ∧ w = mkWallet 10 2 0 active) as H.
  { intros k w. change (({[ 10 := mkWallet 10 2 0 active ]} : gmap Z Wallet) !! k = Some w → k = 10 ∧ w = mkWallet 10 2 0 active).
    by intros [<- <-]%lookup_singleton_Some. }
  split; [split|by intros k w [-> ->]%H].
  - by intros k w [-> ->]%H.
  - by intros k k' w w' [-> _]%H [-> _]%H.
  - intros pre e post Heq. exfalso. by apply (app_cons_not_nil pre post e).
  - intros i j e e' Hi. exfalso. by destruct i.
  - constructor.
Defined.

Lemma ghi_so_cai_keeps_books_witness :
  ledger_ok (ghi_so_cai 10 gateway_topup 50000 "gateway_transaction" "gw-1" None demo_db).2.
Proof.
  apply (ghi_so_cai_keeps_books id 10 gateway_topup 50000 "gateway_transaction" "gw-1" None demo_db
    (ghi_so_cai 10 gateway_topup 50000 "gateway_transaction" "gw-1" None demo_db).1).
  - exact demo_db_ok.
  - exact demo_db_ok.
  - reflexivity.
  - vm_compute. reflexivity.
Defined.

Example ghi_so_cai_ex1 :
  match ghi_so_cai 10 gateway_topup 50000 "gateway_transaction" "gw-1" None demo_db with
  | (inr row, db) => (l_balance_after_vnd row, w_balance_vnd <$> wallets db !! 10)
  | _ => (0, None)
  end = (50000, Some 50000).
Proof. vm_compute. reflexivity. Qed.

(** ** Exactly one entry per key *)

Lemma by_reference_posted row db :
  by_reference (l_entry_type row) (l_reference_id row) db = None →
  by_reference (l_entry_type row) (l_reference_id row) (posted row db) = Some row.
Proof.
  unfold by_reference, first_where. intros H%head_None.
  change (wallet_ledger (posted row db)) with (wallet_ledger db ++ [row]).
  rewrite filter_app, H, filter_cons. case_decide as Hk; [done|]. exfalso. apply Hk.
  unfold has_key. by apply bool_decide_eq_true.
Qed.

Lemma ghi_so_cai_key wid et amount rt ref actor db row db' :
  ghi_so_cai wid et amount rt ref actor db = (inr row, db') →
  by_reference et (strip ref) db' = Some row ∧ l_wallet_id row = wid ∧ l_amount_vnd row = amount ∧
  ((db' = db ∧ by_reference et (strip ref) db = Some row) ∨
   (by_reference et (strip ref) db = None ∧ db' = posted row db ∧
    ∃ w, wallets db !! wid = Some w ∧ l_balance_after_vnd row = w_balance_vnd w + amount)).
Proof.
  intros H. apply ghi_so_cai_under_cases in H
    as [(e & ? & _)|(row' & w & [= <-] & Hw & _ & _ & _ & _ & [(-> & Hk & ? & ?)|(Hn & _ & [(Hk & _)|(Hk & _ & Hrow & ->)])])];
    unfold id in *; [done| | |].
  - split_and!; auto.
  - rewrite Hn in Hk. done.
  - rewrite Hrow. split_and!; try done; [by apply (by_reference_posted (mkLedger _ _ _ _ _ _ _ _ _))|].
    right. split_and!; [done|done|]. by exists w.
Qed.

(** Once a key has an entry, no call with that key changes anything. *)
Lemma ghi_so_cai_replay wid et amount rt ref actor db r db' row :
  by_reference et (strip ref) db = Some row →
  ghi_so_cai wid et amount rt ref actor db = (r, db') →
  db' = db ∧ ∀ row', r = inr row' → row' = row ∧ wid = l_wallet_id row ∧ amount = l_amount_vnd row.
Proof.
  intros Hkey H. destruct r as [e|row'].
  - apply ghi_so_cai_under_cases in H as [(? & _ & [-> | ->])|(? & ? & ? & _)]; done.
  - apply ghi_so_cai_key in H as (_ & <- & <- & [[-> Hk]|[Hn _]]); [|congruence].
    rewrite Hkey in Hk. injection Hk as <-. naive_solver.
Qed.

(** Exactly once: after a posting under some key has succeeded, every
    later call with the same type and reference, whatever wallet, amount and
    actor it names, leaves the database as it is; it returns the very entry
    written first, and only when it names the same wallet and amount. *)
Theorem ghi_so_cai_once wid et amount rt ref actor db row db1 wid' amount' rt' ref' actor' r db2 :
  ghi_so_cai wid et amount rt ref actor db = (inr row, db1) →
  strip ref' = strip ref →
  ghi_so_cai wid' et amount' rt' ref' actor' db1 = (r, db2) →
  db2 = db1 ∧ ∀ row', r = inr row' → row' = row ∧ wid' = wid ∧ amount' = amount.
Proof.
  intros H Href H'. apply ghi_so_cai_key in H as (Hk & <- & <- & _). rewrite <- Href in Hk.
  by apply (ghi_so_cai_replay _ _ _ _ _ _ _ _ _ _ Hk) in H'.
Qed.

Definition demo_topup_db : Db :=
  (ghi_so_cai 10 gateway_topup 50000 "gateway_transaction" "gw-1" None demo_db).2.

Lemma ghi_so_cai_once_witness :
  (ghi_so_cai 10 gateway_topup 70000 "gateway_transaction" " gw-1 " None demo_topup_db).2 = demo_topup_db.
Proof.
  eapply (ghi_so_cai_once 10 gateway_topup 50000 "gateway_transaction" "gw-1" None demo_db _ demo_topup_db
    10 70000 "gateway_transaction" " gw-1 " None).
  - vm_compute. reflexivity.
  - reflexivity.
  - vm_compute. reflexivity.
Defined.

(** ** A posting that succeeds *)

Lemma integer_vnd_eq v db : in_vnd v = true → _integer_vnd v db = (inr v, db).
Proof. unfold _integer_vnd. by intros ->. Qed.
Lemma lock_wallet_eq wid w db : wallets db !! wid = Some w → _lock_wallet wid db = (inr w, db).
Proof. intros H. unfold _lock_wallet, mbind, M_bind, gets. by rewrite H. Qed.

Lemma reference_not_blank rt ref :
  reference_valid (strip rt) (strip ref) = true → blank (strip rt) = false ∧ blank (strip ref) = false.
Proof.
  assert (∀ s, negb (text_len (strip s) =? 0) = true → blank (strip s) = false) as Hb.
  { intros s Hs. destruct (blank (strip s)) eqn:E; [|done]. apply blank_strip in E.
    rewrite strip_idemp in E. by rewrite E in Hs. }
  unfold reference_valid. rewrite !andb_true_iff. intros [[[? _] ?] _]. auto.
Qed.

(** The audit step of a call, and what it must find. *)
Definition audit_step (wid : Z) (et : EntryType) (amount : Z) (rt ref : string) (actor : option Z)
  : Tx (option WalletAudit) :=
  if decide (et = adjustment)
  then a ← adjustment_audit wid amount rt ref actor; mret (Some a)
  else mret None.

Definition audit_fresh (audit : option WalletAudit) (w : Wallet) (amount : Z) : Prop :=
  match audit with
  | Some a => wa_before_balance_vnd a = w_balance_vnd w ∧ wa_after_balance_vnd a = w_balance_vnd w + amount
  | None => True
  end.

Section posting.
Context (wid : Z) (et : EntryType) (amount : Z) (rt ref : string) (actor : option Z).
Context (db : Db) (w : Wallet) (audit : option WalletAudit).
Context (Hw : wallets db !! wid = Some w) (Hst : et = adjustment ∨ w_status w = active).
Context (Hv : in_vnd amount = true) (Ha : amount_allowed et amount = true).
Context (Hr : reference_valid (strip rt) (strip ref) = true).
Context (Hau : audit_step wid et amount (strip rt) (strip ref) actor db = (inr audit, db)).

Lemma ghi_so_cai_guards existing :
  by_reference et (strip ref) db = existing →
  match existing with Some row => l_wallet_id row = wid ∧ l_amount_vnd row = amount | None => True end →
  ghi_so_cai wid et amount rt ref actor db =
  (match existing with
   | Some row => mret row
   | None =>
      balance_after ← _integer_vnd (w_balance_vnd w + amount);
      raise_if (match audit with
                | Some a => negb (bool_decide (wa_before_balance_vnd a = w_balance_vnd w ∧
                                               wa_after_balance_vnd a = balance_after))
                | None => false end) WalletAdjustmentAuditError;;
      modify id;;
      savepoint (
        row ← insert_ledger (λ id now, mkLedger id wid et amount balance_after
                 (strip rt) (strip ref) actor now);
        match row with
        | None =>
            w ← gets (by_reference et (strip ref));
            winner ← some_or w WalletLedgerConflictError;
            _matching_entry winner wid amount
        | Some r => modify (set_balance wid balance_after);; mret r
        end)
   end) db.
Proof.
  intros Hk Hm. unfold ghi_so_cai, ghi_so_cai_under.
  rewrite (bind_ok_step _ _ _ amount db) by (by apply integer_vnd_eq).
  rewrite (bind_ok_step _ _ _ () db) by (by rewrite Ha).
  rewrite (bind_ok_step _ _ _ () db) by (by rewrite Hr).
  rewrite (bind_ok_step _ _ _ w db) by (by apply lock_wallet_eq).
  rewrite (bind_ok_step _ _ _ existing db) by (unfold gets; by rewrite Hk).
  rewrite (bind_ok_step _ _ _ () db).
  2: { destruct existing as [row|]; [|done]. destruct Hm as [H1 H2].
       unfold _matching_entry. by rewrite H1, H2, !Z.eqb_refl. }
  rewrite (bind_ok_step _ _ _ () db)
    by (rewrite bool_decide_eq_false_2; [done|]; intros [Hl Hne]; destruct Hst; congruence).
  by rewrite (bind_ok_step _ _ _ _ _ Hau).
Qed.

(** A call that meets its own entry returns it. *)
Lemma ghi_so_cai_returns_gen row :
  by_reference et (strip ref) db = Some row → l_wallet_id row = wid → l_amount_vnd row = amount →
  ghi_so_cai wid et amount rt ref actor db = (inr row, db).
Proof. intros Hk H1 H2. by rewrite (ghi_so_cai_guards (Some row) Hk). Qed.

(** A call with a new key posts its entry. *)
Lemma ghi_so_cai_posts_gen :
  by_reference et (strip ref) db = None → in_vnd (w_balance_vnd w + amount) = true →
  audit_fresh audit w amount → known_user db actor = true →
  (et = adjustment → is_Some actor ∧ strip rt = "audit") →
  (et = reservation_fee → strip rt = "reservation") →
  let row := mkLedger (next_id db) wid et amount (w_balance_vnd w + amount)
               (strip rt) (strip ref) actor (db_now db) in
  ghi_so_cai wid et amount rt ref actor db = (inr row, posted row db).
Proof.
  intros Hk Hb Hfr Hu Hadj Hres row. rewrite (ghi_so_cai_guards None Hk I).
  rewrite (bind_ok_step _ _ _ (w_balance_vnd w + amount) db) by (by apply integer_vnd_eq).
  rewrite (bind_ok_step _ _ _ () db) by (destruct audit; [by rewrite bool_decide_eq_true_2|done]).
  rewrite (bind_ok_step _ _ _ () db) by done.
  assert (ledger_violation db row = None) as Hviol.
  { unfold ledger_violation. simpl. destruct (reference_not_blank _ _ Hr) as [-> ->]. cbn [orb].
    destruct (decide (et = adjustment)) as [->|]; [rewrite (bool_decide_eq_true_2 (is_Some actor ∧ _)) by auto;
      rewrite andb_false_r; simpl; by rewrite Hu|].
    rewrite bool_decide_eq_false_2 by done. simpl. rewrite Hu.
    destruct (decide (et = reservation_fee)) as [->|]; [|by rewrite bool_decide_eq_false_2].
    rewrite (bool_decide_eq_true_2 (strip rt = _)) by auto. unfold amount_allowed in Ha.
    apply andb_true_iff in Ha as [_ ->]. by rewrite andb_false_r. }
  unfold savepoint. rewrite (bind_ok_step _ _ _ (Some row) (set_wallet_ledger (wallet_ledger db ++ [row])
    (set_next_id (next_id db + 1) db))); [done|].
  unfold insert_ledger, fresh_id. cbv beta iota zeta delta [mbind M_bind gets modify mret M_ret raise].
  fold row. change (ledger_violation (set_next_id (next_id db + 1) db) row) with (ledger_violation db row).
  rewrite Hviol. change (by_reference _ _ _) with (by_reference et (strip ref) db). by rewrite Hk.
Qed.
End posting.

Lemma audit_step_other wid et amount rt ref actor db :
  et ≠ adjustment → audit_step wid et amount rt ref actor db = (inr None, db).
Proof. intros H. unfold audit_step. by rewrite decide_False. Qed.

Lemma ghi_so_cai_posts wid et amount rt ref actor db w :
  wallets db !! wid = Some w → w_status w = active → et ≠ adjustment →
  in_vnd amount = true → amount_allowed et amount = true →
  reference_valid (strip rt) (strip ref) = true →
  by_reference et (strip ref) db = None → in_vnd (w_balance_vnd w + amount) = true →
  known_user db actor = true → (et = reservation_fee → strip rt = "reservation") →
  let row := mkLedger (next_id db) wid et amount (w_balance_vnd w + amount)
               (strip rt) (strip ref) actor (db_now db) in
  ghi_so_cai wid et amount rt ref actor db = (inr row, posted row db).
Proof.
  intros Hw Hact Hadj Hv Ha Hr Hk Hb Hu Hres.
  by apply (ghi_so_cai_posts_gen _ _ _ _ _ _ _ w None Hw (or_intror Hact) Hv Ha Hr (audit_step_other _ _ _ _ _ _ _ Hadj)).
Qed.

Lemma ghi_so_cai_returns wid et amount rt ref actor db w row :
  wallets db !! wid = Some w → w_status w = active → et ≠ adjustment →
  in_vnd amount = true → amount_allowed et amount = true →
  reference_valid (strip rt) (strip ref) = true →
  by_reference et (strip ref) db = Some row → l_wallet_id row = wid → l_amount_vnd row = amount →
  ghi_so_cai wid et amount rt ref actor db = (inr row, db).
Proof.
  intros Hw Hact Hadj Hv Ha Hr Hk H1 H2.
  by apply (ghi_so_cai_returns_gen _ _ _ _ _ _ _ w None Hw (or_intror Hact) Hv Ha Hr (audit_step_other _ _ _ _ _ _ _ Hadj)).
Qed.

(** ** Operations that keep the books *)

Lemma pure_keeps {A} I (m : Tx A) : pure_tx m → keeps I m.
Proof. intros Hm db Hdb. by rewrite Hm. Qed.

(** A change of the other tables. *)
Lemma keeps_books_other (f : Db → Db) :
  (∀ db, wallets (f db) = wallets db) → (∀ db, wallet_ledger (f db) = wallet_ledger db) →
  keeps (E := Exn) ledger_ok (modify f).
Proof. intros Hw Hl db H. unfold ledger_ok, modify. simpl. by rewrite Hw, Hl. Qed.

Lemma keeps_fresh_id : keeps ledger_ok fresh_id.
Proof. intros db H. exact H. Qed.

Lemma keeps_ghi_nhat_ky a b c d e f g : keeps ledger_ok (ghi_nhat_ky a b c d e f g).
Proof.
  intros db H. destruct (ghi_nhat_ky _ _ _ _ _ _ _ db) as [r db'] eqn:E.
  apply ghi_nhat_ky_cases in E as [(? & _ & ->)|(? & ? & _ & _ & _ & _ & _ & _ & ->)]; done.
Qed.

Lemma keeps_ghi_so_cai wid et amount rt ref actor :
  keeps ledger_ok (ghi_so_cai wid et amount rt ref actor).
Proof.
  intros db H. destruct (ghi_so_cai _ _ _ _ _ _ db) as [r db'] eqn:E.
  apply ghi_so_cai_under_cases in E
    as [(? & _ & [-> | ->])|(row & w & _ & Hw & _ & Hv & Ha & _ & [(-> & _)|(_ & Hb & [(_ & _ & _ & ->)|(Hk & _ & -> & ->)])])];
    try done.
  by apply (posted_ok _ wid w).
Qed.

#[export] Hint Resolve keeps_fresh_id keeps_ghi_nhat_ky keeps_ghi_so_cai : csms_keeps.
#[export] Hint Extern 2 (keeps ledger_ok (modify _)) =>
  apply keeps_books_other; intros; reflexivity : csms_keeps.
#[export] Hint Extern 3 (keeps _ _) => apply pure_keeps; solve [auto with csms nocore] : csms_keeps.

(** Walks a computation: binds, savepoints and branches, each part by the
    hints of [csms_keeps]. *)
Ltac keeps_steps :=
  repeat first
    [ solve [auto with csms_keeps]
    | match goal with
      | |- keeps _ (_ ≫= _) => apply keeps_bind; [|intros ?]
      | |- keeps _ (savepoint _) => apply keeps_savepoint
      | |- keeps _ (when _ _) => apply keeps_when
      | |- keeps _ (for_each _ _) => apply keeps_for_each; intros ?
      | |- keeps _ _ => case_match
      end ].

Lemma ledger_total_absent ws l k : history ws l → ws !! k = None → ledger_total k l = 0.
Proof.
  intros Hh Hk. unfold ledger_total. destruct (filter _ l) as [|e l'] eqn:E; [done|].
  assert (e ∈ filter (λ e, l_wallet_id e = k) l) as [<- Hin]%list_elem_of_filter by (rewrite E; set_solver).
  pose proof (history_entries _ _ Hh) as He. rewrite Forall_forall in He.
  destruct (He e Hin) as [[w Hw] _]. congruence.
Qed.

(** A new wallet starts at zero. *)
Lemma books_new_wallet ws l k d :
  books ws l → ws !! k = None → (∀ k' w, ws !! k' = Some w → w_driver_id w ≠ d) →
  books (<[k := mkWallet k d 0 active]> ws) l.
Proof.
  intros [Hh Hb] Hk Hd. pose proof (ledger_total_absent _ _ _ Hh Hk) as H0.
  destruct Hh as [Hid Hdr Hrun Huniq Hent]. split; [split|]; try done.
  - intros k' w [[<- <-]|[_ ?]]%lookup_insert_Some; [done|eauto].
  - intros k1 k2 w1 w2 [[<- <-]|[_ H1]]%lookup_insert_Some [[<- <-]|[_ H2]]%lookup_insert_Some Hw; simpl in *.
    + done.
    + exfalso. by eapply Hd.
    + exfalso. by eapply Hd.
    + eauto.
  - eapply Forall_impl; [exact Hent|]. intros e (Hw & He). split; [|done].
    destruct (decide (k = l_wallet_id e)) as [->|]; [rewrite lookup_insert_eq; eauto|by rewrite lookup_insert_ne].
  - intros k' w [[<- <-]|[_ ?]]%lookup_insert_Some; [done|eauto].
Qed.

Lemma keeps_insert_wallet k d : keeps ledger_ok (insert_wallet k d).
Proof.
  intros db Hdb. unfold insert_wallet, mbind, M_bind, gets.
  destruct (wallet_of_driver d db) eqn:E; [done|]. destruct (wallets db !! k) eqn:Hk; [done|].
  apply books_new_wallet; [done|done|]. unfold wallet_of_driver in E.
  rewrite select_where_None in E. intros k' w Hw <-. specialize (E k' w Hw). by rewrite Z.eqb_refl in E.
Qed.
#[export] Hint Resolve keeps_insert_wallet : csms_keeps.

Lemma keeps_ensure_driver_wallet d : keeps ledger_ok (ensure_driver_wallet d).
Proof. unfold ensure_driver_wallet. auto 10 with csms_keeps.
Qed.
#[export] Hint Resolve keeps_ensure_driver_wallet : csms_keeps.

Lemma keeps_tru_vi i s w a : keeps ledger_ok (tru_vi i s w a).
Proof.
  unfold tru_vi. keeps_steps.
Qed.
#[export] Hint Resolve keeps_tru_vi : csms_keeps.

(** ** Debiting an invoice *)

Lemma wallet_of_driver_Some ws l d db w :
  history ws l → ws = wallets db → wallet_of_driver d db = Some w →
  ws !! w_id w = Some w ∧ w_driver_id w = d.
Proof.
  intros Hh -> (k & Hk & Hd)%select_where_Some. pose proof (history_id _ _ Hh k w Hk) as <-. split; [done|lia].
Qed.

Lemma wallet_of_driver_posted ws l d db w row :
  history ws l → ws = wallets db → wallet_of_driver d db = Some w → l_wallet_id row = w_id w →
  wallet_of_driver d (posted row db) = Some (set_w_balance_vnd (l_balance_after_vnd row) w).
Proof.
  intros Hh -> Hw Hr. destruct (wallet_of_driver_Some _ _ _ _ _ Hh eq_refl Hw) as [Hk Hd].
  change (wallets (posted row db))
    with (alter (set_w_balance_vnd (l_balance_after_vnd row)) (l_wallet_id row) (wallets db)).
  unfold wallet_of_driver. apply (select_where_unique _ _ (w_id w)).
  - simpl. by rewrite Hr, lookup_alter_eq, Hk.
  - simpl. lia.
  - simpl. intros k' y. rewrite Hr. destruct (decide (k' = w_id w)) as [->|Hne].
    + rewrite lookup_alter_eq, Hk. by intros [= <-].
    + rewrite lookup_alter_ne by done. intros Hy Hdy. exfalso. apply Hne.
      apply (history_driver _ _ Hh _ _ y w Hy Hk). lia.
Qed.

Lemma debit_range total : 0 < total → total ≤ MAX_VND → in_vnd total = true ∧ in_vnd (- total) = true.
Proof. unfold in_vnd, MIN_VND, MAX_VND. intros. split; apply andb_true_iff; split; apply Z.leb_le; lia. Qed.

Lemma session_reference_valid sid :
  text_len (str_int sid) ≤ 128 → reference_valid (strip "charging_session") (strip (str_int sid)) = true.
Proof.
  intros Hs. rewrite str_int_strip. unfold reference_valid.
  pose proof (str_int_nonempty sid) as Hn.
  destruct (Z.eqb_spec (text_len (str_int sid)) 0) as [E|E].
  { exfalso. apply Hn. rewrite str_int_len in E. unfold chars in E. destruct (str_int sid); [done|]. simpl in E. lia. }
  rewrite (proj2 (Z.leb_le _ _) Hs). reflexivity.
Qed.

(** [tru_vi] on an invoice whose driver has a wallet is one posting. *)
Lemma tru_vi_posting inv actor db w :
  wallet_of_driver (inv_driver_id inv) db = Some w →
  0 < inv_total_vnd inv → inv_total_vnd inv ≤ MAX_VND →
  tru_vi (Some inv) None None actor db =
  (row ← ghi_so_cai (w_id w) charging_debit (- inv_total_vnd inv) "charging_session"
           (str_int (inv_session_id inv)) actor; mret (Some row)) db.
Proof.
  intros Hw Hp Hm. unfold tru_vi. destruct (debit_range _ Hp Hm) as [Hv _].
  rewrite (bind_ok_step _ _ _ inv db) by done.
  rewrite (bind_ok_step _ _ _ () db) by done.
  rewrite (bind_ok_step _ _ _ (inv_total_vnd inv) db) by (by apply integer_vnd_eq).
  destruct (Z.eqb_spec (inv_total_vnd inv) 0); [lia|].
  rewrite (bind_ok_step _ _ _ () db) by (destruct (Z.ltb_spec (inv_total_vnd inv) 0); [lia|done]).
  rewrite (bind_ok_step _ _ _ (w_id w) db); [done|].
  by rewrite (bind_ok_step _ _ _ (Some w) db) by (unfold gets; by rewrite Hw).
Qed.

(** What settling an invoice means for the wallet of its driver. *)
Definition debited_once (inv : Invoice) (actor : option Z) (w : Wallet) (db db' : Db) : Prop :=
  ∃ row, tru_vi (Some inv) None None actor db = (inr (Some row), db') ∧
    l_amount_vnd row = - inv_total_vnd inv ∧ l_wallet_id row = w_id w ∧
    wallet_ledger db' = wallet_ledger db ++ [row] ∧
    w_balance_vnd <$> wallets db' !! w_id w = Some (w_balance_vnd w - inv_total_vnd inv) ∧
    ledger_ok db' ∧
    tru_vi (Some inv) None None actor db' = (inr (Some row), db').

Lemma tru_vi_debits inv actor db w :
  ledger_ok db → wallet_of_driver (inv_driver_id inv) db = Some w → w_status w = active →
  0 < inv_total_vnd inv → inv_total_vnd inv ≤ MAX_VND →
  in_vnd (w_balance_vnd w - inv_total_vnd inv) = true → known_user db actor = true →
  text_len (str_int (inv_session_id inv)) ≤ 128 →
  by_reference charging_debit (str_int (inv_session_id inv)) db = None →
  ∃ db', debited_once inv actor w db db'.
Proof.
  intros [Hh Hb] Hw Hact Hp Hm Hbal Hu Hs Hk. destruct (debit_range _ Hp Hm) as [Hv Hv'].
  destruct (wallet_of_driver_Some _ _ _ _ _ Hh eq_refl Hw) as [Hkw Hd].
  assert (amount_allowed charging_debit (- inv_total_vnd inv) = true) as Ha.
  { unfold amount_allowed. apply andb_true_iff. split; [apply negb_true_iff, Z.eqb_neq; lia|apply Z.ltb_lt; lia]. }
  pose proof (session_reference_valid _ Hs) as Hr. rewrite <- str_int_strip in Hk.
  pose proof (ghi_so_cai_posts (w_id w) charging_debit (- inv_total_vnd inv) "charging_session"
    (str_int (inv_session_id inv)) actor db w Hkw Hact ltac:(done) Hv' Ha Hr Hk Hbal Hu ltac:(done)) as Hpost.
  simpl in Hpost. set (row := mkLedger _ _ _ _ _ _ _ _ _) in Hpost.
  pose proof (wallet_of_driver_posted _ _ _ _ _ row Hh eq_refl Hw eq_refl) as Hw'.
  exists (posted row db), row. rewrite (tru_vi_posting inv actor db w Hw Hp Hm).
  rewrite (bind_ok_step _ _ _ _ _ Hpost). split_and!; try done.
  - simpl. by rewrite lookup_alter_eq, Hkw.
  - pose proof (keeps_ghi_so_cai (w_id w) charging_debit (- inv_total_vnd inv) "charging_session"
      (str_int (inv_session_id inv)) actor db (conj Hh Hb)) as H. by rewrite Hpost in H.
  - rewrite (tru_vi_posting inv actor _ _ Hw' Hp Hm).
    rewrite (bind_ok_step _ _ _ row (posted row db)); [done|].
    apply (ghi_so_cai_returns _ _ _ _ _ _ _ (set_w_balance_vnd (l_balance_after_vnd row) w)); try done.
    + simpl. by rewrite lookup_alter_eq, Hkw.
    + by apply (by_reference_posted row).
Qed.

(** ** Repairing the cached balance *)

Definition evidence_valid (e : option Evidence) : Prop :=
  permission_valid (ev_permission <$> e) ∧ roles_valid (ev_roles <$> e).

Lemma set_balance_history db wid b :
  history (wallets db) (wallet_ledger db) →
  history (wallets (set_balance wid b db)) (wallet_ledger db).
Proof.
  intros [Hid Hdr Hrun Huniq Hent]. simpl.
  assert (∀ k w', alter (set_w_balance_vnd b) wid (wallets db) !! k = Some w' →
    ∃ w, wallets db !! k = Some w ∧ w_id w' = w_id w ∧ w_driver_id w' = w_driver_id w) as Halt.
  { intros k w'. rewrite lookup_alter_Some. intros [(<- & w & Hw & ->)|[_ Hw]]; eauto. }
  split; try done.
  - intros k w' (w & Hw & -> & _)%Halt. eauto.
  - intros k k' w1 w2 (w3 & ? & _ & ->)%Halt (w4 & ? & _ & ->)%Halt. eauto.
  - eapply Forall_impl; [exact Hent|]. intros. by apply entry_ok_alter.
Qed.

(** Cache repair: for an active administrator, a stated reason and a
    ledger whose total fits the column, [phuc_hoi_so_du_cache] succeeds from any
    state with a sound history, leaves the ledger, the wallet's status and every
    other wallet alone, and the cached balance it leaves is the ledger total; a
    balance that was already right is not touched and leaves no audit, a wrong
    one is documented by one audit row with the two balances. *)
Theorem phuc_hoi_so_du_cache_repairs wid actor reason auth db w :
  history (wallets db) (wallet_ledger db) → wallets db !! wid = Some w →
  is_admin db (Some actor) = true → reason_valid reason = true → evidence_valid auth →
  in_vnd (ledger_total wid (wallet_ledger db)) = true → wallet_audits db !! next_id db = None →
  ∃ w' db', phuc_hoi_so_du_cache wid actor reason auth db = (inr w', db') ∧
    w' = set_w_balance_vnd (ledger_total wid (wallet_ledger db)) w ∧
    wallets db' = <[wid := w']> (wallets db) ∧ wallet_ledger db' = wallet_ledger db ∧
    history (wallets db') (wallet_ledger db') ∧
    if decide (w_balance_vnd w = ledger_total wid (wallet_ledger db)) then db' = db
    else wallet_audits db' = <[next_id db := mkWalletAudit (next_id db) wid actor cache_repaired
           (w_balance_vnd w) (w_balance_vnd w') None (strip reason)]> (wallet_audits db).
Proof.
  intros Hh Hw Hadm Hreas [Hperm Hroles] Hv Hfresh. set (total := ledger_total wid (wallet_ledger db)) in *.
  unfold phuc_hoi_so_du_cache.
  rewrite (bind_ok_step _ _ _ () db) by (by rewrite Hreas).
  rewrite (bind_ok_step _ _ _ () db) by (unfold _require_admin, mbind, M_bind, gets; by rewrite Hadm).
  rewrite (bind_ok_step _ _ _ w db) by (by apply lock_wallet_eq).
  rewrite (bind_ok_step _ _ _ total db) by done.
  rewrite (bind_ok_step _ _ _ total db) by (by apply integer_vnd_eq).
  destruct (Z.eqb_spec (w_balance_vnd w) total) as [Heq|Hne].
  { exists w, db. assert (w = set_w_balance_vnd total w) as <- by (rewrite <- Heq; by destruct w).
    split_and!; try done; [by rewrite insert_id|]. by case_decide. }
  set (audit := mkWalletAudit (next_id db) wid actor cache_repaired (w_balance_vnd w) total None (strip reason)).
  set (db1 := set_balance wid total (set_wallet_audits (<[next_id db := audit]> (wallet_audits db))
    (set_next_id (next_id db + 1) db))).
  set (w' := set_w_balance_vnd total w).
  assert (wallets db1 = <[wid := w']> (wallets db)) as Hws.
  { unfold db1. simpl. apply map_eq. intros k. destruct (decide (k = wid)) as [->|].
    - by rewrite lookup_alter_eq, lookup_insert_eq, Hw.
    - by rewrite lookup_alter_ne, lookup_insert_ne. }
  assert (known_user db1 (Some actor) = true) as Hu.
  { apply bool_decide_eq_true_2. change (users db1) with (users db). unfold is_admin in Hadm. simpl in Hadm.
    destruct (users db !! actor); [by eexists|done]. }
  set (row := mkAuditLog (next_id db1) (Some actor) "wallet.cache_repaired" "wallet_audit"
    (strip (uuid_str (next_id db)))
    [("wallet_id", JStr (uuid_str wid)); ("before_balance_vnd", JInt (w_balance_vnd w));
     ("after_balance_vnd", JInt total); ("driver_id", JStr (uuid_str (w_driver_id w)));
     ("reason", JStr (strip reason)); ("audit_version", JInt 1)]
    (strip <$> (ev_permission <$> auth)) ((λ l, sorted_roles (strip <$> l)) <$> (ev_roles <$> auth))).
  exists w', (audited row db1). split.
  { rewrite (bind_ok_step _ _ _ (next_id db1) (audited row db1)).
    2: { unfold savepoint. rewrite (bind_ok_step _ _ _ (next_id db) (set_next_id (next_id db + 1) db)) by done.
         rewrite (bind_ok_step _ _ _ () (set_wallet_audits (<[next_id db := audit]> (wallet_audits db))
           (set_next_id (next_id db + 1) db))).
         2: { unfold insert_wallet_audit, mbind, M_bind, gets. simpl. by rewrite Hfresh. }
         rewrite (bind_ok_step _ _ _ () db1) by done.
         rewrite ghi_nhat_ky_ok; [done|reflexivity|done|reflexivity|reflexivity|apply uuid_identifier|done|done]. }
    apply lock_wallet_eq. change (wallets (audited row db1)) with (wallets db1). by rewrite Hws, lookup_insert_eq. }
  change (wallets (audited row db1)) with (wallets db1). rewrite Hws.
  split_and!; try done.
  - rewrite <- Hws. by apply (set_balance_history db).
  - by case_decide.
Qed.

Definition demo_broken_db : Db := set_balance 10 777 demo_db.

Lemma phuc_hoi_so_du_cache_repairs_witness :
  ∃ w' db', phuc_hoi_so_du_cache 10 1 "drift" None demo_broken_db = (inr w', db') ∧ w_balance_vnd w' = 0.
Proof.
  destruct (phuc_hoi_so_du_cache_repairs 10 1 "drift" None demo_broken_db (mkWallet 10 2 777 active))
    as (w' & db' & H & -> & _).
  - apply (set_balance_history demo_db). exact (proj1 demo_db_ok).
  - reflexivity.
  - reflexivity.
  - reflexivity.
  - split; exact I.
  - reflexivity.
  - reflexivity.
  - eexists _, db'. split; [exact H|reflexivity].
Defined.
