(* ===== verification/WalletAdmin.v ===== *)
(** * WalletAdmin: reconciliation and the administrative commands

    Models [src/src/modules/wallet/reconciliation.py],
    [wallet/administration.py] and [wallet/manual_topup.py]. The advisory locks
    of these commands order concurrent transactions and have no effect on the
    tables. *)

From S2P Require Import Prelude Text Store AuditTrail Wallet.

(** ** Reconciliation *)

(** Entries that claim to debit a session or its invoice. *)
Definition debit_reference (refs : list string) (e : WalletLedger) : bool :=
  bool_decide (l_reference_id e ∈ refs) &&
  bool_decide (l_entry_type e = charging_debit ∨ l_reference_type e = "charging_session").

Definition debit_refs (inv : Invoice) (charging : ChargingSession) : list string :=
  [str_int (cs_id charging); uuid_str (inv_id inv)].

(** The join of the query in [wallet_issues]: invoices of settled sessions that
    concern this wallet. *)
Definition settled_invoices (wallet : Wallet) (db : Db) : list (Invoice * ChargingSession) :=
  filter (λ '(inv, charging),
      cs_settlement_reason charging = Some debited ∧
      (inv_driver_id inv = w_driver_id wallet ∨ cs_driver_id charging = Some (w_driver_id wallet) ∨
       Exists (λ e, l_wallet_id e = w_id wallet ∧ debit_reference (debit_refs inv charging) e = true)
         (wallet_ledger db)))
    (omap (λ inv, c ← charging_sessions db !! inv_session_id inv; Some (inv, c))
      ((map_to_list (invoices db)).*2)).

(** The checks on one ledger entry of a settled invoice. *)
Definition entry_issues (db : Db) (inv : Invoice) (charging : ChargingSession) (e : WalletLedger)
  : list string :=
  (if bool_decide (w_id <$> wallet_of_driver (inv_driver_id inv) db = Some (l_wallet_id e))
   then [] else ["invoice_debit_wallet"]) ++
  (if bool_decide (l_entry_type e = charging_debit) then [] else ["invoice_debit_type"]) ++
  (if bool_decide (l_reference_type e = "charging_session" ∧ l_reference_id e = str_int (cs_id charging))
   then [] else ["invoice_debit_reference"]) ++
  (if (l_amount_vnd e =? - inv_total_vnd inv) && negb (inv_total_vnd inv =? 0)
   then [] else ["invoice_debit_amount"]).

Definition invoice_issues (db : Db) (inv : Invoice) (charging : ChargingSession) : list string :=
  let entries := filter (λ e, debit_reference (debit_refs inv charging) e = true) (wallet_ledger db) in
  (if bool_decide (Some (inv_driver_id inv) = cs_driver_id charging)
   then [] else ["invoice_driver_mismatch"]) ++
  (if (length entries =? 1)%nat then [] else ["invoice_debit_count"]) ++
  (entries ≫= entry_issues db inv charging).

Definition wallet_issues_of (db : Db) (wallet : Wallet) : Z * list string :=
  let total := ledger_total (w_id wallet) (wallet_ledger db) in
  (total, sorted_roles (
    (if total =? w_balance_vnd wallet then [] else ["balance_mismatch"]) ++
    (if in_vnd total then [] else ["ledger_total_overflow"]) ++
    (settled_invoices wallet db ≫= λ '(inv, charging), invoice_issues db inv charging))).

Definition wallet_issues (wallet : Wallet) : Tx (Z * list string) :=
  gets (λ db, wallet_issues_of db wallet).

Definition set_status (wallet_id : Z) (s : WalletStatus) (db : Db) : Db :=
  set_wallets (alter (set_w_status s) wallet_id (wallets db)) db.

(** One iteration of the loop of [doi_chieu_so_du]; [true] when it locked. *)
Definition reconcile_one (wallet_id : Z) : Tx bool :=
  w ← gets (λ db, wallets db !! wallet_id);
  match w with
  | None => mret false
  | Some wallet =>
      '(total, issues) ← wallet_issues wallet;
      if bool_decide (issues = [] ∨ w_status wallet = locked) then mret false
      else
        savepoint (
          modify (set_status wallet_id locked);;
          ghi_nhat_ky None "wallet.reconciliation_locked" "wallet" (uuid_str wallet_id)
            [("reasons", JList (JStr <$> issues)); ("balance_vnd", JInt (w_balance_vnd wallet));
             ("ledger_total_vnd", JInt total)] None None);;
        mret true
  end.

Fixpoint reconcile_each (ids : list Z) : Tx (list Z) :=
  match ids with
  | [] => mret []
  | i :: rest =>
      hit ← reconcile_one i;
      more ← reconcile_each rest;
      mret (if hit : bool then i :: more else more)
  end.

(** No row is locked by another transaction ([SKIP LOCKED] skips none). *)
Definition doi_chieu_so_du (wallet_id : option Z) : Tx (list Z) :=
  ids ← gets (λ db, sort_by id
    (filter (λ k, match wallet_id with Some w => k =? w | None => true end = true)
      ((map_to_list (wallets db)).*1)));
  reconcile_each ids.

(** ** Administrative commands *)

Definition _evidence (actor_id : Z) (permission : string) : Tx Evidence :=
  _require_admin (Some actor_id);;
  roles ← gets (λ db, match users db !! actor_id with Some u => u_roles u | None => [] end);
  mret (mkEvidence permission (merge_sort string_le roles)).

Definition sua_so_du_cache (wallet_id actor_id : Z) (reason : string) : Tx Wallet :=
  evidence ← _evidence actor_id "admin.wallet.repair_cache";
  wallet ← _lock_wallet wallet_id;
  '(_, issues) ← wallet_issues wallet;
  let invalid := filter (λ i, i ≠ "balance_mismatch") issues in
  raise_if (negb (bool_decide (invalid = []))) (WalletReconciliationError invalid);;
  phuc_hoi_so_du_cache wallet_id actor_id reason (Some evidence).

Definition mo_khoa_vi (wallet_id actor_id : Z) (reason : string) : Tx Wallet :=
  raise_if (negb (reason_valid reason)) ValueError;;
  evidence ← _evidence actor_id "admin.wallet.unlock";
  wallet ← _lock_wallet wallet_id;
  '(total, issues) ← wallet_issues wallet;
  raise_if (negb (bool_decide (issues = []))) (WalletReconciliationError issues);;
  if decide (w_status wallet = active) then mret wallet
  else
    savepoint (
      modify (set_status wallet_id active);;
      ghi_nhat_ky (Some actor_id) "wallet.unlocked" "wallet" (uuid_str wallet_id)
        [("wallet_id", JStr (uuid_str wallet_id)); ("driver_id", JStr (uuid_str (w_driver_id wallet)));
         ("before_balance_vnd", JInt (w_balance_vnd wallet));
         ("after_balance_vnd", JInt (w_balance_vnd wallet));
         ("before_status", JStr "locked"); ("after_status", JStr "active");
         ("reason", JStr (strip reason)); ("ledger_total_vnd", JInt total); ("audit_version", JInt 1)]
        (Some (ev_permission evidence)) (Some (ev_roles evidence)));;
    _lock_wallet wallet_id.

Definition dieu_chinh_vi (wallet_id actor_id amount_vnd : Z) (reason : string) (audit_id : Z)
  : Tx WalletLedger :=
  evidence ← _evidence actor_id "admin.wallet.adjust";
  _integer_vnd amount_vnd;;
  raise_if (amount_vnd =? 0) WalletAmountError;;
  raise_if (negb (reason_valid reason)) ValueError;;
  wallet ← _lock_wallet wallet_id;
  previous ← gets (λ db, wallet_audits db !! audit_id);
  raise_if (match previous with
            | Some p => negb (bool_decide (wa_wallet_id p = wallet_id ∧ wa_actor_id p = actor_id ∧
                wa_amount_vnd p = Some amount_vnd ∧ wa_reason p = strip reason ∧
                wa_action p = adjustment_authorized))
            | None => false end) WalletAdjustmentAuditError;;
  existing ← gets (by_reference adjustment (uuid_str audit_id));
  match existing with
  | Some _ =>
      raise_if (bool_decide (previous = None)) WalletAdjustmentAuditError;;
      ghi_so_cai wallet_id adjustment amount_vnd "audit" (uuid_str audit_id) (Some actor_id)
  | None =>
      '(total, _) ← wallet_issues wallet;
      raise_if (negb (total =? w_balance_vnd wallet)) (WalletReconciliationError ["balance_mismatch"]);;
      after ← _integer_vnd (w_balance_vnd wallet + amount_vnd);
      savepoint (
        let audit := default (mkWalletAudit audit_id wallet_id actor_id adjustment_authorized
                       (w_balance_vnd wallet) after (Some amount_vnd) (strip reason)) previous in
        match previous with None => insert_wallet_audit audit | Some _ => mret () end;;
        entry ← ghi_so_cai wallet_id adjustment amount_vnd "audit" (uuid_str audit_id) (Some actor_id);
        ghi_nhat_ky (Some actor_id) "wallet.adjusted" "wallet_audit" (uuid_str audit_id)
          [("wallet_id", JStr (uuid_str wallet_id)); ("driver_id", JStr (uuid_str (w_driver_id wallet)));
           ("reason", JStr (strip reason)); ("audit_version", JInt 1); ("ledger_id", JInt (l_id entry));
           ("amount_vnd", JInt amount_vnd); ("before_balance_vnd", JInt (wa_before_balance_vnd audit));
           ("after_balance_vnd", JInt after)]
          (Some (ev_permission evidence)) (Some (ev_roles evidence));;
        mret entry)
  end.

(** ** Manual top-ups *)

Record ManualTopupRequest := mkManualTopup {
  mt_amount_vnd : Z;
  mt_reason : option string;
  mt_receipt_code : option string;
  mt_request_id : option Z;
  mt_payment_received : option bool;
  mt_external_reference : option string;
}.

Record ManualTopupResponse := mkManualResponse {
  mr_ledger_id : Z;
  mr_wallet_id : Z;
  mr_driver_id : Z;
  mr_amount_vnd : Z;
  mr_balance_after_vnd : Z;
  mr_receipt_code : string;
  mr_actor_id : Z;
  mr_created_at : Z;
  mr_request_id : option Z;
  mr_payment_received : option bool;
  mr_external_reference : option string;
}.

(** [str.upper] on the letters of the prefix *)
Definition upper (c : Ascii.ascii) : Ascii.ascii :=
  let n := code c in if (97 <=? n) && (n <=? 122) then chr (n - 32) else c.

Definition auto_prefix : string := "PT-AUTO-".

Definition bounded (maximum : Z) (o : option string) : bool :=
  match o with
  | Some s => (1 <=? text_len s) && (text_len s <=? maximum) && bool_decide (strip s = s)
  | None => true
  end.

(** Validation of the request: the field constraints and [receipt_mode]. *)
Definition receipt_mode (r : ManualTopupRequest) : bool :=
  (0 <? mt_amount_vnd r) && (mt_amount_vnd r <=? MAX_VND) &&
  bounded 500 (mt_reason r) && bounded 128 (mt_receipt_code r) && bounded 128 (mt_external_reference r) &&
  match mt_receipt_code r with
  | Some c =>
      negb (bool_decide (take 8 (upper <$> chars c) = chars auto_prefix)) &&
      bool_decide (mt_request_id r = None ∧ mt_payment_received r = None ∧ mt_external_reference r = None)
  | None => bool_decide (is_Some (mt_request_id r) ∧ mt_payment_received r = Some true)
  end.

(** [data.get(key)], with JSON null for a missing key *)
Definition json_get (key : string) (data : list (string * Json)) : Json :=
  from_option snd JNull (first_where (λ kv, bool_decide (kv.1 = key)) data).

Definition json_is (j : Json) (o : option string) : bool :=
  match j, o with
  | JNull, None => true
  | JStr s, Some s' => bool_decide (s = s')
  | _, _ => false
  end.

Definition manual_audit (wallet_id ledger_id : Z) (db : Db) : option AuditLog :=
  first_where (λ a, bool_decide (al_action a = "wallet.manual_topup" ∧ al_object_id a = uuid_str wallet_id) &&
    match json_get "ledger_id" (al_data a) with JInt n => n =? ledger_id | _ => false end) (audit_logs db).

Definition _response (entry : WalletLedger) (driver_id : Z) (request : ManualTopupRequest)
  : Tx ManualTopupResponse :=
  actor ← some_or (l_actor_id entry) AssertionError;
  mret (mkManualResponse (l_id entry) (l_wallet_id entry) driver_id (l_amount_vnd entry)
    (l_balance_after_vnd entry) (l_reference_id entry) actor (l_created_at entry)
    (mt_request_id request) (mt_payment_received request) (mt_external_reference request)).

Definition optional_json (o : option string) : Json := from_option JStr JNull o.

Definition nap_tay `{!Deployment} (driver_id actor_id : Z) (request : ManualTopupRequest)
    (authorization : Evidence) : Tx ManualTopupResponse :=
  _require_admin (Some actor_id);;
  raise_if (wallet_manual_topup_max_vnd <? mt_amount_vnd request) WalletAmountError;;
  receipt_code ← some_or (match mt_request_id request with
                          | Some rid => Some (auto_prefix +:+ uuid_hex rid)
                          | None => mt_receipt_code request end) AssertionError;
  w ← gets (wallet_of_driver driver_id);
  wallet ← some_or w WalletNotFoundError;
  existing ← gets (by_reference manual_topup receipt_code);
  match existing with
  | Some entry =>
      rid ← some_or (mt_request_id request) WalletLedgerConflictError;
      audit ← gets (manual_audit (w_id wallet) (l_id entry));
      raise_if (negb (bool_decide (l_wallet_id entry = w_id wallet ∧ l_actor_id entry = Some actor_id ∧
          l_amount_vnd entry = mt_amount_vnd request) &&
          match audit with
          | Some a =>
              json_is (json_get "request_id" (al_data a)) (Some (uuid_str rid)) &&
              json_is (json_get "external_reference" (al_data a)) (mt_external_reference request) &&
              match json_get "payment_received" (al_data a) with JBool b => b | _ => false end &&
              json_is (json_get "reason" (al_data a)) (mt_reason request)
          | None => false
          end)) ManualTopupRequestConflictError;;
      _response entry driver_id request
  | None =>
      reason ← some_or (mt_reason request) ManualTopupReasonError;
      savepoint (
        entry ← ghi_so_cai (w_id wallet) manual_topup (mt_amount_vnd request) "manual_topup"
                  receipt_code (Some actor_id);
        ghi_nhat_ky (Some actor_id) "wallet.manual_topup" "wallet" (uuid_str (w_id wallet))
          ([("ledger_id", JInt (l_id entry)); ("driver_id", JStr (uuid_str driver_id));
            ("wallet_id", JStr (uuid_str (w_id wallet))); ("reason", JStr reason);
            ("before_balance_vnd", JInt (l_balance_after_vnd entry - l_amount_vnd entry));
            ("after_balance_vnd", JInt (l_balance_after_vnd entry)); ("audit_version", JInt 1);
            ("amount_vnd", JInt (l_amount_vnd entry)); ("receipt_code", JStr (l_reference_id entry))] ++
           match mt_request_id request with
           | Some rid => [("request_id", JStr (uuid_str rid)); ("payment_received", JBool true);
                          ("external_reference", optional_json (mt_external_reference request))]
           | None => []
           end)
          (Some (ev_permission authorization)) (Some (ev_roles authorization));;
        _response entry driver_id request)
  end.

(** ** The commands keep the books *)

Lemma set_status_books db wid s : ledger_ok db → ledger_ok (set_status wid s db).
Proof.
  intros [[Hid Hdr Hrun Huniq Hent] Hb]. unfold ledger_ok. simpl.
  assert (∀ k w', alter (set_w_status s) wid (wallets db) !! k = Some w' →
    ∃ w, wallets db !! k = Some w ∧ w_id w' = w_id w ∧ w_driver_id w' = w_driver_id w ∧
      w_balance_vnd w' = w_balance_vnd w) as Halt.
  { intros k w'. rewrite lookup_alter_Some. intros [(<- & w & Hw & ->)|[_ Hw]]; eauto 10. }
  split; [split|]; try done.
  - intros k w' (w & Hw & -> & _)%Halt. eauto.
  - intros k k' w1 w2 (w3 & ? & _ & -> & _)%Halt (w4 & ? & _ & -> & _)%Halt. eauto.
  - eapply Forall_impl; [exact Hent|]. intros. by apply entry_ok_alter.
  - intros k w' (w & Hw & _ & _ & ->)%Halt. eauto.
Qed.

Lemma keeps_set_status wid s : keeps (E := Exn) ledger_ok (modify (set_status wid s)).
Proof. apply keeps_modify. intros. by apply set_status_books. Qed.

Lemma keeps_insert_wallet_audit a : keeps ledger_ok (insert_wallet_audit a).
Proof. unfold insert_wallet_audit. apply keeps_bind; [auto with csms_keeps|]. intros [?|]; auto with csms_keeps. Qed.

Lemma keeps_evidence a p : keeps ledger_ok (_evidence a p).
Proof. unfold _evidence. auto 10 with csms_keeps. Qed.

Lemma keeps_wallet_issues w : keeps ledger_ok (wallet_issues w).
Proof. unfold wallet_issues. auto with csms_keeps. Qed.
#[export] Hint Resolve keeps_set_status keeps_insert_wallet_audit keeps_evidence keeps_wallet_issues : csms_keeps.

(** When the books are right a repair changes nothing. *)
Lemma phuc_hoi_books wid actor reason auth db r db' :
  ledger_ok db → phuc_hoi_so_du_cache wid actor reason auth db = (r, db') → db' = db.
Proof.
  intros [_ Hb] H. unfold phuc_hoi_so_du_cache in H.
  apply bind_pure in H as [(e & _ & _ & ->)|(u & _ & H)]; [done| |auto with csms].
  apply bind_pure in H as [(e & _ & _ & ->)|(u' & _ & H)]; [done| |auto with csms].
  apply bind_pure in H as [(e & _ & _ & ->)|(w & Hw & H)]; [done| |auto with csms].
  apply bind_pure in H as [(e & _ & _ & ->)|(t & Ht & H)]; [done| |auto with csms].
  apply bind_pure in H as [(e & _ & _ & ->)|(b & Hbal & H)]; [done| |auto with csms].
  apply lock_wallet_ok in Hw. injection Ht as <-. apply integer_vnd_ok in Hbal as [-> _].
  rewrite (Hb _ _ Hw), Z.eqb_refl in H. by injection H as _ <-.
Qed.

Lemma keeps_phuc_hoi wid actor reason auth : keeps ledger_ok (phuc_hoi_so_du_cache wid actor reason auth).
Proof.
  intros db H. destruct (phuc_hoi_so_du_cache _ _ _ _ db) as [r db'] eqn:E.
  by rewrite (phuc_hoi_books _ _ _ _ _ _ _ H E).
Qed.
#[export] Hint Resolve keeps_phuc_hoi : csms_keeps.

Lemma keeps_reconcile_one i : keeps ledger_ok (reconcile_one i).
Proof. unfold reconcile_one. keeps_steps. Qed.
#[export] Hint Resolve keeps_reconcile_one : csms_keeps.
Lemma keeps_doi_chieu w : keeps ledger_ok (doi_chieu_so_du w).
Proof.
  unfold doi_chieu_so_du. apply keeps_bind; [auto with csms_keeps|]. intros l.
  induction l; simpl; auto 10 with csms_keeps.
Qed.
Lemma keeps_sua_so_du_cache w a r : keeps ledger_ok (sua_so_du_cache w a r).
Proof. unfold sua_so_du_cache. keeps_steps.
Qed.
Lemma keeps_mo_khoa_vi w a r : keeps ledger_ok (mo_khoa_vi w a r).
Proof. unfold mo_khoa_vi. keeps_steps. Qed.
Lemma keeps_dieu_chinh_vi w a m r i : keeps ledger_ok (dieu_chinh_vi w a m r i).
Proof. unfold dieu_chinh_vi. keeps_steps. Qed.
Lemma keeps_nap_tay `{!Deployment} d a r e : keeps ledger_ok (nap_tay d a r e).
Proof. unfold nap_tay, _response. keeps_steps. Qed.
#[export] Hint Resolve keeps_doi_chieu keeps_sua_so_du_cache keeps_mo_khoa_vi keeps_dieu_chinh_vi
  keeps_nap_tay : csms_keeps.

(** ** Adjustments *)

Lemma adjustment_audit_ok wid amount actor aid db a :
  is_admin db (Some actor) = true → 0 ≤ aid < 2 ^ 128 → wallet_audits db !! aid = Some a →
  wa_action a = adjustment_authorized → wa_wallet_id a = wid → wa_actor_id a = actor →
  wa_amount_vnd a = Some amount →
  audit_step wid adjustment amount (strip "audit") (strip (uuid_str aid)) (Some actor) db = (inr (Some a), db).
Proof.
  intros Hadm Hid Ha H1 H2 H3 H4. unfold audit_step. rewrite decide_True by done.
  rewrite (bind_ok_step _ _ _ a db); [done|]. unfold adjustment_audit.
  rewrite (bind_ok_step _ _ _ () db) by (unfold _require_admin, mbind, M_bind, gets; by rewrite Hadm).
  rewrite uuid_str_strip, canonical_uuid_str by done. rewrite (bind_ok_step _ _ _ aid db) by done.
  rewrite (bind_ok_step _ _ _ () db) by (by rewrite bool_decide_eq_true_2).
  rewrite (bind_ok_step _ _ _ (Some a) db) by (unfold gets; by rewrite Ha).
  rewrite (bind_ok_step _ _ _ a db) by done.
  rewrite (bind_ok_step _ _ _ () db); [done|]. by rewrite bool_decide_eq_true_2 by naive_solver.
Qed.

(** What a completed adjustment leaves behind. *)
Definition adjusted (wid actor amount : Z) (reason : string) (aid : Z) (w : Wallet)
    (row : WalletLedger) (db db' : Db) : Prop :=
  wallet_ledger db' = wallet_ledger db ++ [row] ∧ l_amount_vnd row = amount ∧ l_actor_id row = Some actor ∧
  wallets db' !! wid = Some (set_w_balance_vnd (w_balance_vnd w + amount) w) ∧
  wallet_audits db' !! aid = Some (mkWalletAudit aid wid actor adjustment_authorized (w_balance_vnd w)
    (w_balance_vnd w + amount) (Some amount) (strip reason)) ∧
  by_reference adjustment (uuid_str aid) db' = Some row ∧ l_wallet_id row = wid ∧ users db' = users db.

Definition roles_of (db : Db) (actor : Z) : list string :=
  match users db !! actor with Some u => u_roles u | None => [] end.

Lemma is_admin_known db actor : is_admin db (Some actor) = true → known_user db (Some actor) = true.
Proof. unfold is_admin, known_user. simpl. destruct (users db !! actor); [done|done]. Qed.

Lemma roles_valid_sorted l : roles_valid (Some l) → roles_valid (Some (merge_sort string_le l)).
Proof. intros H. simpl. by rewrite merge_sort_Permutation. Qed.

Section adjust.
Context (wid actor amount : Z) (reason : string) (aid : Z) (db : Db) (w : Wallet).
Context (Hw : wallets db !! wid = Some w) (Hadm : is_admin db (Some actor) = true).
Context (Hroles : roles_valid (Some (roles_of db actor))).
Context (Hv : in_vnd amount = true) (Hnz : amount ≠ 0) (Hreas : reason_valid reason = true).
Context (Hid : 0 ≤ aid < 2 ^ 128).

(** The guards before the ledger is looked at. *)
Lemma dieu_chinh_vi_guards {A} (k : Evidence → Wallet → Tx A) :
  (evidence ← _evidence actor "admin.wallet.adjust"; _integer_vnd amount;;
   raise_if (amount =? 0) WalletAmountError;; raise_if (negb (reason_valid reason)) ValueError;;
   wallet ← _lock_wallet wid; k evidence wallet) db =
  k (mkEvidence "admin.wallet.adjust" (merge_sort string_le (roles_of db actor))) w db.
Proof.
  rewrite (bind_ok_step _ _ _ (mkEvidence "admin.wallet.adjust" (merge_sort string_le (roles_of db actor))) db).
  2: { unfold _evidence. rewrite (bind_ok_step _ _ _ () db)
         by (unfold _require_admin, mbind, M_bind, gets; by rewrite Hadm). done. }
  rewrite (bind_ok_step _ _ _ amount db) by (by apply integer_vnd_eq).
  rewrite (bind_ok_step _ _ _ () db) by (destruct (Z.eqb_spec amount 0); done).
  rewrite (bind_ok_step _ _ _ () db) by (by rewrite Hreas).
  by rewrite (bind_ok_step _ _ _ w db) by (by apply lock_wallet_eq).
Qed.

Lemma adjustment_amount : amount_allowed adjustment amount = true.
Proof. unfold amount_allowed. by destruct (Z.eqb_spec amount 0). Qed.

Lemma audit_reference_valid : reference_valid (strip "audit") (strip (uuid_str aid)) = true.
Proof. unfold reference_valid. by rewrite uuid_str_strip, uuid_str_len. Qed.

Lemma dieu_chinh_vi_first :
  w_balance_vnd w = ledger_total (w_id w) (wallet_ledger db) →
  in_vnd (w_balance_vnd w + amount) = true →
  wallet_audits db !! aid = None → by_reference adjustment (uuid_str aid) db = None →
  ∃ row db', dieu_chinh_vi wid actor amount reason aid db = (inr row, db') ∧
    adjusted wid actor amount reason aid w row db db'.
Proof.
  intros Hbal Hafter Haud Hkey. unfold dieu_chinh_vi. rewrite dieu_chinh_vi_guards.
  rewrite (bind_ok_step _ _ _ None db) by (unfold gets; by rewrite Haud).
  rewrite (bind_ok_step _ _ _ () db) by done.
  rewrite (bind_ok_step _ _ _ None db) by (unfold gets; by rewrite Hkey).
  rewrite (bind_ok_step _ _ _ (wallet_issues_of db w) db) by done. unfold wallet_issues_of at 1.
  rewrite (bind_ok_step _ _ _ () db) by (by rewrite Hbal, Z.eqb_refl).
  rewrite (bind_ok_step _ _ _ (w_balance_vnd w + amount) db) by (by apply integer_vnd_eq).
  cbn [default from_option].
  set (audit := mkWalletAudit aid wid actor adjustment_authorized (w_balance_vnd w)
    (w_balance_vnd w + amount) (Some amount) (strip reason)).
  set (db1 := set_wallet_audits (<[aid := audit]> (wallet_audits db)) db).
  set (row := mkLedger (next_id db) wid adjustment amount (w_balance_vnd w + amount) (strip "audit")
    (strip (uuid_str aid)) (Some actor) (db_now db)).
  assert (ghi_so_cai wid adjustment amount "audit" (uuid_str aid) (Some actor) db1 = (inr row, posted row db1)) as Hpost.
  { apply (ghi_so_cai_posts_gen _ _ _ _ _ _ db1 w (Some audit) Hw (or_introl eq_refl) Hv adjustment_amount
      audit_reference_valid); try done.
    - apply adjustment_audit_ok; try done. by apply lookup_insert_eq.
    - by rewrite uuid_str_strip.
    - by apply is_admin_known. }
  eexists row, _. split.
  - unfold savepoint. rewrite (bind_ok_step _ _ _ () db1).
    2: { unfold insert_wallet_audit, mbind, M_bind, gets. simpl. by rewrite Haud. }
    rewrite (bind_ok_step _ _ _ _ _ Hpost).
    erewrite (bind_ok_step _ _ _ _ _ (ghi_nhat_ky_ok _ _ _ _ _ _ _ (posted row db1) _ _ _ _ _ _ _)). reflexivity.
    Unshelve. all: try reflexivity; try done.
    + by apply roles_valid_sorted.
    + apply uuid_identifier.
    + by apply is_admin_known.
  - split_and!; try done; simpl.
    + by rewrite lookup_alter_eq, Hw.
    + by rewrite lookup_insert_eq.
    + rewrite <- (uuid_str_strip aid) at 1. apply (by_reference_posted row db1). simpl. by rewrite uuid_str_strip.
Qed.

Lemma dieu_chinh_vi_again row db0 w0 :
  adjusted wid actor amount reason aid w0 row db0 db →
  dieu_chinh_vi wid actor amount reason aid db = (inr row, db).
Proof.
  intros (_ & Ham & _ & Hw' & Haud & Hkey & Hwid & _). unfold dieu_chinh_vi. rewrite dieu_chinh_vi_guards.
  rewrite (bind_ok_step _ _ _ _ db) by (unfold gets; by rewrite Haud).
  rewrite (bind_ok_step _ _ _ () db) by (by rewrite bool_decide_eq_true_2).
  rewrite (bind_ok_step _ _ _ _ db) by (unfold gets; by rewrite Hkey).
  apply (ghi_so_cai_returns_gen _ _ _ _ _ _ db w (Some (mkWalletAudit aid wid actor adjustment_authorized
    (w_balance_vnd w0) (w_balance_vnd w0 + amount) (Some amount) (strip reason))) Hw (or_introl eq_refl) Hv
    adjustment_amount audit_reference_valid); try done.
  - by apply adjustment_audit_ok.
  - by rewrite uuid_str_strip.
Qed.
End adjust.

(** A balance adjustment, first time and replayed: for an active
    administrator, a nonzero amount, a reason and a fresh audit id, on a wallet
    whose books are right and whose new balance fits the column, locked or not,
    [dieu_chinh_vi] succeeds; it appends one entry of that amount, moves the
    balance by exactly that amount, stores the authorising audit row with both
    balances and keeps the books; repeating the call returns the same entry and
    changes nothing. *)
Theorem dieu_chinh_vi_once wid actor amount reason aid db w :
  ledger_ok db → wallets db !! wid = Some w → is_admin db (Some actor) = true →
  roles_valid (Some (roles_of db actor)) →
  in_vnd amount = true → amount ≠ 0 → reason_valid reason = true → 0 ≤ aid < 2 ^ 128 →
  in_vnd (w_balance_vnd w + amount) = true →
  wallet_audits db !! aid = None → by_reference adjustment (uuid_str aid) db = None →
  ∃ row db', dieu_chinh_vi wid actor amount reason aid db = (inr row, db') ∧
    adjusted wid actor amount reason aid w row db db' ∧ ledger_ok db' ∧
    dieu_chinh_vi wid actor amount reason aid db' = (inr row, db').
Proof.
  intros Hok Hw Hadm Hroles Hv Hnz Hreas Hid Hafter Haud Hkey.
  assert (w_id w = wid) as Hwid by (by apply (history_id _ _ (proj1 Hok))).
  destruct (dieu_chinh_vi_first wid actor amount reason aid db w Hw Hadm Hroles Hv Hnz Hreas Hid)
    as (row & db' & Hrun & Hadj); [by rewrite Hwid; apply (proj2 Hok)|done|done|done|].
  exists row, db'. split_and!; [done|done|by eapply (keeps_run ledger_ok); [apply keeps_dieu_chinh_vi| |exact Hrun]|].
  pose proof Hadj as (_ & _ & _ & Hw' & _ & _ & _ & Hus).
  eapply dieu_chinh_vi_again; try done. unfold is_admin in *. by rewrite Hus.
Qed.

Lemma dieu_chinh_vi_once_witness :
  ∃ row db', dieu_chinh_vi 10 1 (-500) "correction" 7 demo_db = (inr row, db') ∧
    w_balance_vnd <$> wallets db' !! 10 = Some (-500) ∧
    dieu_chinh_vi 10 1 (-500) "correction" 7 db' = (inr row, db').
Proof.
  destruct (dieu_chinh_vi_once 10 1 (-500) "correction" 7 demo_db (mkWallet 10 2 0 active))
    as (row & db' & H & Hadj & _ & Hagain).
  - exact demo_db_ok.
  - reflexivity.
  - reflexivity.
  - repeat constructor.
  - reflexivity.
  - lia.
  - reflexivity.
  - lia.
  - reflexivity.
  - reflexivity.
  - reflexivity.
  - exists row, db'. split; [exact H|]. split; [|exact Hagain].
    destruct Hadj as (_ & _ & _ & Hw & _). rewrite Hw. reflexivity.
Defined.

(** ** Reconciliation locks exactly the inconsistent wallets *)

(** The issues of a wallet do not depend on the status of any wallet. *)
Definition status_only (db db' : Db) : Prop :=
  wallet_ledger db' = wallet_ledger db ∧ invoices db' = invoices db ∧
  charging_sessions db' = charging_sessions db ∧ users db' = users db ∧
  ∀ k, (set_w_status active <$> wallets db' !! k) = (set_w_status active <$> wallets db !! k).

Lemma wallet_of_driver_id db d i :
  history (wallets db) (wallet_ledger db) →
  w_id <$> wallet_of_driver d db = Some i ↔ ∃ w, wallets db !! i = Some w ∧ w_driver_id w = d.
Proof.
  intros Hh. split.
  - destruct (wallet_of_driver d db) as [w|] eqn:E; [|done]. intros [= <-].
    destruct (wallet_of_driver_Some _ _ _ _ _ Hh eq_refl E). eauto.
  - intros (w & Hw & <-). unfold wallet_of_driver. rewrite (select_where_unique _ _ i w).
    + simpl. f_equal. by apply (history_id _ _ Hh).
    + done.
    + apply Z.eqb_refl.
    + intros k' y Hy Hd. assert (k' = i) as -> by (apply (history_driver _ _ Hh k' i y w); [done|done|lia]). congruence.
Qed.

Lemma status_only_wallet db db' k w' :
  status_only db db' → wallets db' !! k = Some w' →
  ∃ w, wallets db !! k = Some w ∧ w_id w' = w_id w ∧ w_driver_id w' = w_driver_id w ∧
    w_balance_vnd w' = w_balance_vnd w.
Proof.
  intros (_ & _ & _ & _ & H) Hk. specialize (H k). rewrite Hk in H. simpl in H.
  destruct (wallets db !! k) as [w|]; [|done]. injection H as ???. eauto 10.
Qed.

Lemma status_only_sym db db' : status_only db db' → status_only db' db.
Proof. intros (H1 & H2 & H3 & H4 & H5). unfold status_only. by rewrite H1, H2, H3, H4. Qed.

Lemma status_only_trans db1 db2 db3 : status_only db1 db2 → status_only db2 db3 → status_only db1 db3.
Proof.
  intros (H1 & H2 & H3 & H4 & H5) (K1 & K2 & K3 & K4 & K5). unfold status_only.
  rewrite K1, K2, K3, K4. split_and!; try done. intros k. by rewrite K5.
Qed.

Lemma status_only_history db db' :
  status_only db db' → history (wallets db) (wallet_ledger db) → history (wallets db') (wallet_ledger db').
Proof.
  intros Hs [Hid Hdr Hrun Huniq Hent]. pose proof Hs as (Hl & _ & _ & _ & Hws). rewrite Hl.
  assert (∀ k w', wallets db' !! k = Some w' → ∃ w, wallets db !! k = Some w ∧ w_id w' = w_id w ∧
    w_driver_id w' = w_driver_id w ∧ w_balance_vnd w' = w_balance_vnd w) as Hk.
  { intros k w'. by apply status_only_wallet. }
  split; try done.
  - intros k w' (w & Hw & -> & _)%Hk. eauto.
  - intros k k' w1 w2 (w3 & ? & _ & -> & _)%Hk (w4 & ? & _ & -> & _)%Hk. eauto.
  - eapply Forall_impl; [exact Hent|]. intros e [[w Hw] ?]. split; [|done].
    specialize (Hws (l_wallet_id e)). rewrite Hw in Hws. destruct (wallets db' !! l_wallet_id e); [eauto|done].
Qed.

Lemma wallet_of_driver_status_only db db' d :
  status_only db db' → history (wallets db) (wallet_ledger db) →
  w_id <$> wallet_of_driver d db' = w_id <$> wallet_of_driver d db.
Proof.
  intros Hs Hh. pose proof (status_only_history _ _ Hs Hh) as Hh'. apply option_eq. intros i.
  rewrite !wallet_of_driver_id by done. split; intros (w & Hw & <-).
  - destruct (status_only_wallet _ _ _ _ Hs Hw) as (w0 & ? & _ & ? & _). exists w0. split; congruence.
  - destruct (status_only_wallet _ _ _ _ (status_only_sym _ _ Hs) Hw) as (w0 & ? & _ & ? & _). exists w0. split; congruence.
Qed.

(** [wallet_issues_of] reads only what [status_only] keeps. *)
Lemma wallet_issues_status_only db db' w w' :
  status_only db db' → history (wallets db) (wallet_ledger db) →
  w_id w' = w_id w → w_driver_id w' = w_driver_id w → w_balance_vnd w' = w_balance_vnd w →
  wallet_issues_of db' w' = wallet_issues_of db w.
Proof.
  intros Hs Hh H1 H2 H3. pose proof Hs as (Hl & Hi & Hc & _ & _).
  assert (∀ d, w_id <$> wallet_of_driver d db' = w_id <$> wallet_of_driver d db) as Hd
    by (intros; by apply wallet_of_driver_status_only).
  assert (∀ inv c e, entry_issues db' inv c e = entry_issues db inv c e) as He.
  { intros. unfold entry_issues. f_equal. by rewrite Hd. }
  assert (∀ inv c, invoice_issues db' inv c = invoice_issues db inv c) as Hv.
  { intros. unfold invoice_issues. rewrite Hl. do 2 f_equal. by apply list_bind_ext. }
  assert (settled_invoices w' db' = settled_invoices w db) as Hset.
  { unfold settled_invoices. by rewrite H1, H2, Hl, Hi, Hc. }
  unfold wallet_issues_of. rewrite H1, H3, Hl, Hset. do 4 f_equal.
  apply list_bind_ext; [|done]. intros [inv c]. apply Hv.
Qed.

(** What reconciliation makes of one wallet. *)
Definition judged (db : Db) (w : Wallet) : Wallet :=
  if bool_decide ((wallet_issues_of db w).2 = []) then w else set_w_status locked w.

Definition flagged (db : Db) (w : Wallet) : bool :=
  negb (bool_decide ((wallet_issues_of db w).2 = [])) && bool_decide (w_status w = active).

Lemma issue_list_valid issues total balance :
  _validate_json (JObj [("reasons", JList (JStr <$> issues)); ("balance_vnd", JInt balance);
    ("ledger_total_vnd", JInt total)]) = true.
Proof.
  assert (forallb _validate_json (JStr <$> issues) = true) as H by (induction issues; done).
  cbn [_validate_json forallb fst snd]. rewrite H. reflexivity.
Qed.

Lemma reconcile_one_spec db i w :
  wallets db !! i = Some w →
  ∃ db', reconcile_one i db = (inr (flagged db w), db') ∧ status_only db db' ∧
    wallets db' = <[i := judged db w]> (wallets db).
Proof.
  intros Hw. unfold reconcile_one, flagged, judged.
  rewrite (bind_ok_step _ _ _ (Some w) db) by (unfold gets; by rewrite Hw).
  rewrite (bind_ok_step _ _ _ (wallet_issues_of db w) db) by done.
  destruct (wallet_issues_of db w) as [total issues]. simpl.
  destruct (decide (issues = [])) as [Hi|Hi].
  { exists db. rewrite !(bool_decide_eq_true_2 (issues = [])) by done.
    rewrite (bool_decide_eq_true_2 (issues = [] ∨ _)) by (by left). split_and!; [done|done|by rewrite insert_id]. }
  rewrite !(bool_decide_eq_false_2 (issues = [])) by done. simpl.
  destruct (decide (w_status w = locked)) as [Hl|Hl].
  { exists db. rewrite (bool_decide_eq_true_2 (issues = [] ∨ _)) by (by right).
    rewrite bool_decide_eq_false_2 by congruence. split_and!; [done|done|].
    rewrite insert_id; [done|]. rewrite Hw. f_equal. rewrite <- Hl. by destruct w. }
  rewrite (bool_decide_eq_false_2 (issues = [] ∨ _)) by (intros [?|?]; done).
  rewrite bool_decide_eq_true_2 by (destruct (w_status w); done).
  assert (wallets (set_status i locked db) = <[i := set_w_status locked w]> (wallets db)) as Hws.
  { simpl. apply map_eq. intros k. destruct (decide (k = i)) as [->|].
    - by rewrite lookup_alter_eq, lookup_insert_eq, Hw.
    - by rewrite lookup_alter_ne, lookup_insert_ne. }
  eexists. split.
  - erewrite bind_ok_step; [reflexivity|]. unfold savepoint.
    rewrite (bind_ok_step _ _ _ () (set_status i locked db)) by done.
    rewrite ghi_nhat_ky_ok; [reflexivity|apply issue_list_valid|done|done|done|apply uuid_identifier|done|done].
  - split; [|exact Hws]. split_and!; try done. intros k. change (wallets (audited _ ?d)) with (wallets d).
    rewrite Hws. destruct (decide (k = i)) as [->|]; [by rewrite lookup_insert_eq, Hw|by rewrite lookup_insert_ne].
Qed.

Lemma judged_status_only db db' w :
  status_only db db' → history (wallets db) (wallet_ledger db) →
  judged db' w = judged db w ∧ flagged db' w = flagged db w.
Proof.
  intros Hs Hh. unfold judged, flagged. by rewrite (wallet_issues_status_only db db' w w).
Qed.

Lemma reconcile_each_spec ids db :
  history (wallets db) (wallet_ledger db) → NoDup ids → (∀ i, i ∈ ids → is_Some (wallets db !! i)) →
  ∃ hits db', reconcile_each ids db = (inr hits, db') ∧ status_only db db' ∧
    (∀ k, wallets db' !! k = if decide (k ∈ ids) then judged db <$> wallets db !! k else wallets db !! k) ∧
    ∀ k, k ∈ hits ↔ k ∈ ids ∧ ∃ w, wallets db !! k = Some w ∧ flagged db w = true.
Proof.
  revert db. induction ids as [|i ids IH]; intros db Hh Hnd Hall.
  { exists [], db. split_and!; [done|done| |set_solver]. intros k. by rewrite decide_False by set_solver. }
  apply NoDup_cons in Hnd as [Hi Hnd]. destruct (Hall i) as [w Hw]; [set_solver|].
  destruct (reconcile_one_spec db i w Hw) as (db1 & Hrun & Hs1 & Hw1).
  destruct (IH db1) as (hits & db2 & Hrun2 & Hs2 & Hws & Hhits); [by eapply status_only_history|done| |].
  { intros k Hk. rewrite Hw1, lookup_insert_ne by set_solver. apply Hall. set_solver. }
  cbn [reconcile_each]. rewrite (bind_ok_step _ _ _ _ _ Hrun), (bind_ok_step _ _ _ _ _ Hrun2).
  eexists _, db2. split; [reflexivity|]. split; [by eapply status_only_trans|]. split.
  - intros k. rewrite Hws, Hw1. destruct (decide (k = i)) as [->|Hne].
    + rewrite decide_False by done. rewrite decide_True by set_solver. by rewrite lookup_insert_eq, Hw.
    + rewrite lookup_insert_ne by done. destruct (decide (k ∈ ids)).
      * rewrite decide_True by set_solver. destruct (wallets db !! k); [|done]. simpl. f_equal.
        by apply judged_status_only.
      * by rewrite decide_False by set_solver.
  - intros k. assert (k ∈ hits ↔ k ∈ ids ∧ ∃ w, wallets db !! k = Some w ∧ flagged db w = true) as Hk.
    { rewrite Hhits. split; intros (Hin & w' & Hw' & Hf); (split; [done|]); exists w';
        (rewrite Hw1, lookup_insert_ne in * by set_solver); (split; [done|]);
        destruct (judged_status_only db db1 w' Hs1 Hh) as [_ Heq]; congruence. }
    destruct (flagged db w) eqn:Hf; rewrite ?elem_of_cons, Hk; split.
    + intros [->|[? ?]]; [split; [by left|eauto]|auto].
    + intros [[->|?] ?]; auto.
    + intros [? ?]; auto.
    + intros [[->|?] (w' & Hw' & Hf')]; [congruence|eauto].
Qed.

(** Reconciliation is exact: from any state with a sound history,
    [doi_chieu_so_du] succeeds, changes no entry and no balance, locks precisely
    the wallets in its scope that have an issue (a balance that is not the
    ledger total, a total outside the column, or a settled invoice without its
    one matching debit), reports precisely those it locked now, and leaves the
    status of every other wallet alone. *)
Theorem doi_chieu_so_du_exact scope db :
  history (wallets db) (wallet_ledger db) →
  ∃ hits db', doi_chieu_so_du scope db = (inr hits, db') ∧ wallet_ledger db' = wallet_ledger db ∧
    (∀ k, wallets db' !! k =
       if decide (scope = None ∨ scope = Some k) then judged db <$> wallets db !! k else wallets db !! k) ∧
    ∀ k, k ∈ hits ↔ (scope = None ∨ scope = Some k) ∧
      ∃ w, wallets db !! k = Some w ∧ flagged db w = true.
Proof.
  intros Hh. unfold doi_chieu_so_du.
  set (ids := sort_by id (filter (λ k, match scope with Some w => k =? w | None => true end = true)
      ((map_to_list (wallets db)).*1))).
  assert (∀ k, k ∈ ids ↔ (scope = None ∨ scope = Some k) ∧ is_Some (wallets db !! k)) as Hids.
  { intros k. unfold ids. rewrite elem_of_sort_by, list_elem_of_filter, list_elem_of_fmap.
    assert ((∃ y : Z * Wallet, k = y.1 ∧ y ∈ map_to_list (wallets db)) ↔ is_Some (wallets db !! k)) as ->.
    { split; [intros ([k' w] & -> & Hk%elem_of_map_to_list); eauto|].
      intros [w Hk]. exists (k, w). split; [done|]. by apply elem_of_map_to_list. }
    destruct scope as [s|]; [|naive_solver]. rewrite Z.eqb_eq. naive_solver. }
  destruct (reconcile_each_spec ids db) as (hits & db' & Hrun & Hs & Hws & Hhits); [done| | |].
  { unfold ids. rewrite sort_by_perm. apply NoDup_filter, NoDup_fst_map_to_list. }
  { intros i Hi. by apply Hids. }
  exists hits, db'. split_and!.
  - by rewrite (bind_ok_step _ _ _ ids db).
  - apply Hs.
  - intros k. rewrite Hws. destruct (wallets db !! k) eqn:E.
    + case_decide as H1; case_decide as H2; try done; exfalso; rewrite Hids, E in H1; naive_solver.
    + by repeat case_decide.
  - intros k. rewrite Hhits, Hids. naive_solver.
Qed.

Lemma doi_chieu_so_du_exact_witness :
  ∃ hits db', doi_chieu_so_du None demo_broken_db = (inr hits, db') ∧ 10 ∈ hits ∧
    w_status <$> wallets db' !! 10 = Some locked.
Proof.
  destruct (doi_chieu_so_du_exact None demo_broken_db) as (hits & db' & H1 & _ & H3 & H4).
  - apply (set_balance_history demo_db). exact (proj1 demo_db_ok).
  - exists hits, db'. split; [exact H1|]. split.
    + apply H4. split; [left; reflexivity|]. eexists. split; [reflexivity|vm_compute; reflexivity].
    + rewrite H3. vm_compute. reflexivity.
Defined.
