(* ===== verification/Topup.v ===== *)
(** * Topup: settlement of payment gateway callbacks

    Models [src/src/modules/wallet/topup_webhook_service.py] and the event
    contract of [payments/contracts.py]. [hashlib.sha256] is a parameter: the
    digest only names unknown orders in the audit log. *)

From S2P Require Import Prelude Text Store AuditTrail Wallet WalletAdmin.

(** ** Data *)

Inductive PaymentStatus := ev_succeeded | ev_failed | ev_cancelled.

#[export] Instance PaymentStatus_dec : EqDecision PaymentStatus.
Proof. solve_decision. Defined.

Record GatewayEvent := mkGatewayEvent {
  ge_gateway_transaction_id : string;
  ge_order_id : string;
  ge_amount_vnd : Z;
  ge_status : PaymentStatus;
  ge_reason : option string;
}.

(** [validate_identifier]: no surrounding space and no control character. *)
Definition validate_identifier (value : string) : bool :=
  bool_decide (strip value = value) &&
  forallb (λ c, (32 <=? code c) && negb (code c =? 127)) (chars value).

(** The event the signature check hands over: [Identifier] and [AmountVnd]. *)
Definition event_valid (e : GatewayEvent) : bool :=
  let identifier s := (1 <=? text_len s) && (text_len s <=? 128) && validate_identifier s in
  identifier (ge_gateway_transaction_id e) && identifier (ge_order_id e) &&
  (0 <? ge_amount_vnd e) && (ge_amount_vnd e <=? MAX_VND) &&
  match ge_reason e with Some r => text_len r <=? 500 | None => true end.

Inductive WarningCode :=
  | unknown_order | amount_mismatch | gateway_conflict | late_success | late_non_success
  | review_callback | settlement_conflict.

Definition code_name (c : WarningCode) : string :=
  match c with
  | unknown_order => "unknown_order"
  | amount_mismatch => "amount_mismatch"
  | gateway_conflict => "gateway_conflict"
  | late_success => "late_success"
  | late_non_success => "late_non_success"
  | review_callback => "review_callback"
  | settlement_conflict => "settlement_conflict"
  end.

Definition WARNING_REASONS (c : WarningCode) : string :=
  match c with
  | unknown_order => "Payment webhook references an unknown order"
  | amount_mismatch => "Gateway amount does not match the order"
  | gateway_conflict => "Order has a different gateway transaction"
  | late_success => "Success received after failure or cancellation"
  | late_non_success => "Failure or cancellation received after success"
  | review_callback => "Callback received for an order awaiting review"
  | settlement_conflict => "Wallet settlement conflict"
  end.

(** Rows are existing states, columns are authenticated event statuses. *)
Definition TRANSITIONS (s : TopupStatus) (e : PaymentStatus) : TopupStatus :=
  match s, e with
  | pending, ev_succeeded => succeeded
  | pending, ev_failed => failed
  | pending, ev_cancelled => cancelled
  | succeeded, _ => succeeded
  | failed, ev_succeeded => needs_review
  | failed, _ => failed
  | cancelled, ev_succeeded => needs_review
  | cancelled, _ => cancelled
  | needs_review, _ => needs_review
  end.

Record WebhookWarning := mkWarning { ww_order_reference : string; ww_code : WarningCode }.

Record SettlementResult := mkSettlement {
  sr_status_code : Z;
  sr_status : option TopupStatus;  (* [None]: "not_found" *)
  sr_warning : option WebhookWarning;
}.

(** ** Operations *)

Definition find_topup (order_id : string) (db : Db) : option WalletTopup :=
  select_where (λ t, bool_decide (t_order_id t = order_id)) (wallet_topups db).

Definition update_topup (id : Z) (f : WalletTopup → WalletTopup) (db : Db) : Db :=
  set_wallet_topups (alter f id (wallet_topups db)) db.

Section webhook.
Context (sha256_hex : string → string).

Definition _warn_once (order_id : string) (topup : option WalletTopup) (c : WarningCode)
  : Tx (option WebhookWarning) :=
  let reference := match topup with None => sha256_hex order_id | Some t => uuid_str (t_id t) end in
  let object_type := match topup with None => "payment_order" | Some _ => "wallet_topup" end in
  let action c := "payment_webhook." +:+ code_name c in
  let actions := action c :: match c with
                             | review_callback => [action late_success; action settlement_conflict]
                             | _ => [] end in
  found ← gets (λ db, first_where (λ a, bool_decide (al_action a ∈ actions ∧
              al_object_type a = object_type ∧ al_object_id a = reference)) (audit_logs db));
  match found with
  | Some _ => mret None
  | None =>
      ghi_nhat_ky None (action c) object_type reference [("reason", JStr (WARNING_REASONS c))] None None;;
      mret (Some (mkWarning reference c))
  end.

Definition _review (topup : WalletTopup) (c : WarningCode) : Tx (option WebhookWarning) :=
  (if bool_decide (t_status topup = succeeded ∨ t_status topup = needs_review) then mret ()
   else modify (update_topup (t_id topup)
          (set_t_reason (Some (WARNING_REASONS c)) ∘ set_t_status needs_review)));;
  _warn_once (t_order_id topup) (Some topup) c.

(** The status of an order after the work, for the reply. *)
Definition status_of (id : Z) : Tx (option TopupStatus) :=
  gets (λ db, t_status <$> wallet_topups db !! id).

(** [topup.gateway_transaction_id = ...; flush()] under the unique constraint *)
Definition record_gateway (id : Z) (gateway : string) : Tx () :=
  dup ← gets (λ db, select_where (λ t, negb (t_id t =? id) &&
           bool_decide (t_gateway_transaction_id t = Some gateway)) (wallet_topups db));
  match dup with
  | Some _ => raise (IntegrityError "uq_wallet_topups_gateway")
  | None => modify (update_topup id (set_t_gateway_transaction_id (Some gateway)))
  end.

Definition default_reason (s : PaymentStatus) : string :=
  match s with
  | ev_succeeded => "Gateway reported succeeded"
  | ev_failed => "Gateway reported failed"
  | ev_cancelled => "Gateway reported cancelled"
  end.

(** [event.reason or "Gateway reported ..."]: an empty reason counts as none. *)
Definition final_reason (event : GatewayEvent) : option string :=
  if decide (ge_status event = ev_succeeded) then None
  else Some (match ge_reason event with
             | Some r => if decide (r = "") then default_reason (ge_status event) else r
             | None => default_reason (ge_status event) end).

(** The body of the savepoint: the order and the credit, together or not at all. *)
Definition settle_order (topup : WalletTopup) (event : GatewayEvent) (next : TopupStatus) : Tx () :=
  record_gateway (t_id topup) (ge_gateway_transaction_id event);;
  (if decide (ge_status event = ev_succeeded)
   then
     w ← gets (wallet_of_driver (t_driver_id topup));
     wallet ← some_or w WalletNotFoundError;
     ghi_so_cai (w_id wallet) gateway_topup (ge_amount_vnd event) "gateway_transaction"
       (ge_gateway_transaction_id event) None;;
     mret ()
   else mret ());;
  modify (update_topup (t_id topup) (set_t_reason (final_reason event) ∘ set_t_status next)).

Definition process_topup_webhook (event : GatewayEvent) : Tx SettlementResult :=
  t ← gets (find_topup (ge_order_id event));
  match t with
  | None =>
      warning ← _warn_once (ge_order_id event) None unknown_order;
      mret (mkSettlement 404 None warning)
  | Some topup =>
      if negb (t_amount_vnd topup =? ge_amount_vnd event) then
        warning ← _review topup amount_mismatch;
        status ← status_of (t_id topup);
        mret (mkSettlement 400 status warning)
      else if negb (bool_decide (t_gateway_transaction_id topup = None ∨
                t_gateway_transaction_id topup = Some (ge_gateway_transaction_id event))) then
        warning ← _review topup gateway_conflict;
        status ← status_of (t_id topup);
        mret (mkSettlement 200 status warning)
      else
        let next := TRANSITIONS (t_status topup) (ge_status event) in
        if negb (bool_decide (t_status topup = pending)) then
          warning ← (if decide (t_status topup = needs_review)
                     then _warn_once (t_order_id topup) (Some topup) review_callback
                     else if decide (next = needs_review) then _review topup late_success
                     else if decide (t_status topup = succeeded ∧ ge_status event ≠ ev_succeeded)
                     then _warn_once (t_order_id topup) (Some topup) late_non_success
                     else mret None);
          status ← status_of (t_id topup);
          mret (mkSettlement 200 status warning)
        else
          warning ← try_except
            (savepoint (settle_order topup event next);; mret None)
            (λ e, if is_wallet_error e || match e with
                       | IntegrityError c => bool_decide (c = "uq_wallet_topups_gateway")
                       | _ => false end
                  then Some (
                    fresh ← gets (λ db, wallet_topups db !! t_id topup);
                    topup ← some_or fresh AssertionError;
                    _review topup settlement_conflict)
                  else None);
          status ← status_of (t_id topup);
          mret (mkSettlement 200 status warning)
  end.
End webhook.

(** ** The effect of a callback on orders and money *)

(** The tables of orders and money are the same. *)
Definition same_money (db db' : Db) : Prop :=
  wallets db' = wallets db ∧ wallet_ledger db' = wallet_ledger db ∧
  wallet_topups db' = wallet_topups db ∧ users db' = users db.

Lemma same_money_refl db : same_money db db.
Proof. done. Qed.
Lemma same_money_trans db1 db2 db3 : same_money db1 db2 → same_money db2 db3 → same_money db1 db3.
Proof. intros (?&?&?&?) (?&?&?&?). unfold same_money. split_and!; congruence. Qed.
#[export] Hint Resolve same_money_refl : csms.

Definition review_mark (c : WarningCode) : WalletTopup → WalletTopup :=
  set_t_reason (Some (WARNING_REASONS c)) ∘ set_t_status needs_review.

Definition settle_mark (event : GatewayEvent) (next : TopupStatus) (t : WalletTopup) : WalletTopup :=
  set_t_reason (final_reason event) (set_t_status next
    (set_t_gateway_transaction_id (Some (ge_gateway_transaction_id event)) t)).

(** A callback leaves orders and money alone, or moves one unfinished order to
    review, or settles one pending order: then no other order has its gateway
    id and, on success, the wallet of the order's driver is posted under it. *)
Inductive webhook_effect (event : GatewayEvent) (db db' : Db) : Prop :=
  | effect_none : same_money db db' → webhook_effect event db db'
  | effect_review t c :
      wallet_topups db !! t_id t = Some t → t_status t ≠ succeeded → t_status t ≠ needs_review →
      same_money (update_topup (t_id t) (review_mark c) db) db' → webhook_effect event db db'
  | effect_settle t db1 :
      wallet_topups db !! t_id t = Some t → t_status t = pending →
      t_amount_vnd t = ge_amount_vnd event →
      (∀ k t', wallet_topups db !! k = Some t' → t_id t' ≠ t_id t →
         t_gateway_transaction_id t' ≠ Some (ge_gateway_transaction_id event)) →
      (if decide (ge_status event = ev_succeeded)
       then ∃ w row, wallet_of_driver (t_driver_id t) db = Some w ∧
              ghi_so_cai (w_id w) gateway_topup (ge_amount_vnd event) "gateway_transaction"
                (ge_gateway_transaction_id event) None db = (inr row, db1)
       else db1 = db) →
      wallet_topups db' = alter (settle_mark event (TRANSITIONS pending (ge_status event))) (t_id t)
                            (wallet_topups db) →
      wallets db' = wallets db1 → wallet_ledger db' = wallet_ledger db1 → users db' = users db →
      webhook_effect event db db'.

Section effect.
Context (sha : string → string).

Lemma warn_once_money order t c db r db' : _warn_once sha order t c db = (r, db') → same_money db db'.
Proof.
  unfold _warn_once. intros H. apply bind_pure in H as [(e & _ & _ & ->)|(a & _ & H)]; [done| |auto with csms].
  destruct a; [injection H as _ <-; done|].
  unfold mbind, M_bind in H.
  destruct (ghi_nhat_ky _ _ _ _ _ _ _ db) as [[e|i] db1] eqn:E; injection H as _ <-;
    apply ghi_nhat_ky_cases in E as [(? & _ & ->)|(? & ? & _ & _ & _ & _ & _ & _ & ->)]; done.
Qed.

Lemma review_effect event t c db r db' :
  wallet_topups db !! t_id t = Some t → _review sha t c db = (r, db') → webhook_effect event db db'.
Proof.
  intros Ht H. unfold _review in H. unfold mbind, M_bind in H.
  destruct (bool_decide _) eqn:E.
  - apply warn_once_money in H. by apply effect_none.
  - apply warn_once_money in H. apply bool_decide_eq_false in E.
    apply (effect_review _ _ _ t c); [done|tauto|tauto|done].
Qed.

Lemma record_gateway_cases id g db r db' :
  record_gateway id g db = (r, db') →
  (∃ e, r = inl e ∧ db' = db) ∨
  (r = inr () ∧ db' = update_topup id (set_t_gateway_transaction_id (Some g)) db ∧
   ∀ k t', wallet_topups db !! k = Some t' → t_id t' ≠ id → t_gateway_transaction_id t' ≠ Some g).
Proof.
  unfold record_gateway, mbind, M_bind, gets.
  destruct (select_where _ (wallet_topups db)) as [t|] eqn:E; intros [= <- <-]; [left; eauto|right].
  split_and!; [done|done|]. rewrite select_where_None in E. intros k t' Hk Hne Hg.
  specialize (E k t' Hk). rewrite Hg, bool_decide_eq_true_2 in E by done.
  destruct (Z.eqb_spec (t_id t') id); done.
Qed.

(** Posting a credit neither reads nor writes the table of orders. *)
Lemma credit_topups wid amount rt ref actor db row db' T :
  ghi_so_cai wid gateway_topup amount rt ref actor (set_wallet_topups T db) = (inr row, db') →
  ∃ db1, ghi_so_cai wid gateway_topup amount rt ref actor db = (inr row, db1) ∧
    wallets db' = wallets db1 ∧ wallet_ledger db' = wallet_ledger db1 ∧ wallet_topups db' = T ∧
    users db' = users db.
Proof.
  intros H. apply ghi_so_cai_under_cases in H
    as [(e & ? & _)|(row' & w & [= <-] & Hw & Hst & Hv & Ha & Hr & Hcase)]; [done|].
  destruct Hst as [Hst|Hst]; [done|].
  destruct Hcase as [(-> & Hk & H1 & H2)|(Hn & Hb & [(Hk & _)|(Hk & Hu & Hrow & ->)])].
  - exists db. split; [|done]. by apply (ghi_so_cai_returns _ _ _ _ _ _ _ w).
  - unfold id in Hk. congruence.
  - exists (posted row db). split; [|done]. subst row.
    by apply (ghi_so_cai_posts wid gateway_topup amount rt ref actor db w).
Qed.

Lemma settle_order_effect t event db r db' :
  wallet_topups db !! t_id t = Some t → t_status t = pending → t_amount_vnd t = ge_amount_vnd event →
  settle_order t event (TRANSITIONS pending (ge_status event)) db = (r, db') →
  (∃ e, r = inl e) ∨ webhook_effect event db db'.
Proof.
  intros Ht Hp Ham H. destruct r as [e|u]; [left; eauto|right]. unfold settle_order in H.
  apply bind_ok in H as (u1 & db1 & Hrec & H).
  apply record_gateway_cases in Hrec as [(e & ? & _)|(_ & -> & Hg)]; [done|].
  apply bind_ok in H as (u2 & db2 & Hpost & H). injection H as <- <-.
  assert (∀ f g m, alter (set_t_reason f ∘ set_t_status g) (t_id t)
    (alter (set_t_gateway_transaction_id m) (t_id t) (wallet_topups db)) =
    alter (λ t, set_t_reason f (set_t_status g (set_t_gateway_transaction_id m t))) (t_id t) (wallet_topups db)) as Halt.
  { intros. apply map_eq. intros k. destruct (decide (k = t_id t)) as [->|].
    - rewrite !lookup_alter_eq. by destruct (wallet_topups db !! t_id t).
    - by rewrite !lookup_alter_ne. }
  destruct (decide (ge_status event = ev_succeeded)) as [Hs|Hs].
  - apply bind_ok in Hpost as (w & s & [= <- <-] & Hpost).
    apply bind_ok in Hpost as (w & s & Hw & Hpost).
    destruct (wallet_of_driver _ _) as [w'|] eqn:Ew in Hw; [|done]. injection Hw as <- <-.
    apply bind_ok in Hpost as (row & db3 & Hpost & [= _ <-]).
    apply credit_topups in Hpost as (db1 & Hpost & H1 & H2 & H3 & H4).
    apply (effect_settle _ _ _ t db1); try done.
    + rewrite decide_True by done. exists w', row. by split.
    + simpl. rewrite H3. apply Halt.
  - injection Hpost as _ <-. apply (effect_settle _ _ _ t db); try done; [by rewrite decide_False|].
    simpl. apply Halt.
Qed.

Lemma status_of_pure id : pure_tx (status_of id).
Proof. done. Qed.

Lemma reply_effect {A} (m : Tx A) (k : A → Tx SettlementResult) event db r db' :
  (∀ r1 db1, m db = (r1, db1) → webhook_effect event db db1) →
  (∀ a, pure_tx (k a)) → (m ≫= k) db = (r, db') → webhook_effect event db db'.
Proof.
  intros Hm Hk H. unfold mbind, M_bind in H. destruct (m db) as [[e|a] db1] eqn:E.
  - injection H as _ <-. eauto.
  - pose proof (Hk a db1) as Hp. rewrite H in Hp. simpl in Hp. subst. eauto.
Qed.

Lemma process_topup_webhook_effect event db r db' :
  (∀ k t, wallet_topups db !! k = Some t → t_id t = k) →
  process_topup_webhook sha event db = (r, db') → webhook_effect event db db'.
Proof.
  intros Hid H. unfold process_topup_webhook in H.
  apply bind_pure in H as [(e & _ & _ & ->)|(o & [= <-] & H)]; [by apply effect_none| |auto with csms].
  assert (∀ n i w, pure_tx (status ← status_of i; mret (mkSettlement n status w))) as Hp
    by (intros; auto using status_of_pure with csms).
  destruct (find_topup (ge_order_id event) db) as [t|] eqn:Et.
  2: { refine (reply_effect _ _ event db r db' _ _ H); [|intros; apply pure_ret]. intros r1 db1 H1.
       apply effect_none. by eapply warn_once_money. }
  apply select_where_Some in Et as (k & Ht & _). rewrite <- (Hid k t Ht) in Ht.
  assert (∀ c r1 db1, _review sha t c db = (r1, db1) → webhook_effect event db db1) as Hrev
    by (intros; eapply review_effect; eauto).
  assert (∀ o c r1 db1, _warn_once sha o (Some t) c db = (r1, db1) → webhook_effect event db db1) as Hwarn
    by (intros; apply effect_none; eapply warn_once_money; eauto).
  destruct (Z.eqb_spec (t_amount_vnd t) (ge_amount_vnd event)) as [Ham|]; simpl in H.
  2: { refine (reply_effect _ _ event db r db' _ _ H); [|intros; apply Hp]; eauto. }
  destruct (bool_decide _) in H; simpl in H.
  2: { refine (reply_effect _ _ event db r db' _ _ H); [|intros; apply Hp]; eauto. }
  destruct (bool_decide (t_status t = pending)) eqn:Hpend; simpl in H.
  2: { refine (reply_effect _ _ event db r db' _ _ H); [|intros; apply Hp]. intros r1 db1 H1.
       clear H. repeat destruct (decide _) in H1;
         first [by eapply Hwarn|by eapply Hrev|injection H1 as _ <-; by apply effect_none]. }
  apply bool_decide_eq_true in Hpend. refine (reply_effect _ _ event db r db' _ _ H); [|intros; apply Hp].
  clear H. intros r1 db1 H. rewrite Hpend in H. unfold try_except in H.
  unfold mbind at 1, M_bind at 1 in H. unfold savepoint in H.
  destruct (settle_order t event (TRANSITIONS pending (ge_status event)) db) as [[e|u] db2] eqn:E.
  - destruct (_ || _) in H; [|injection H as _ <-; by apply effect_none].
    rewrite (bind_ok_step _ _ _ (Some t) db) in H by (unfold gets; by rewrite Ht).
    rewrite (bind_ok_step _ _ _ t db) in H by done. eauto.
  - injection H as _ <-. apply settle_order_effect in E as [[e ?]|?]; done.
Qed.
End effect.

(** ** Orders and credits correspond *)

(** The credit of an order: a gateway entry under the order's gateway id, of the
    order's amount, on a wallet of the order's driver. *)
Definition credit_of (ws : gmap Z Wallet) (t : WalletTopup) (e : WalletLedger) : Prop :=
  l_entry_type e = gateway_topup ∧ t_gateway_transaction_id t = Some (l_reference_id e) ∧
  l_amount_vnd e = t_amount_vnd t ∧
  w_driver_id <$> ws !! l_wallet_id e = Some (t_driver_id t).

Record orders (ws : gmap Z Wallet) (l : list WalletLedger) (T : gmap Z WalletTopup) : Prop := mkOrders {
  orders_id : ∀ k t, T !! k = Some t → t_id t = k;
  orders_gateway : ∀ k k' t t' g, T !! k = Some t → T !! k' = Some t' →
    t_gateway_transaction_id t = Some g → t_gateway_transaction_id t' = Some g → k = k';
  orders_credited : ∀ k t, T !! k = Some t → t_status t = succeeded → ∃ e, e ∈ l ∧ credit_of ws t e;
  orders_entries : ∀ e, e ∈ l → l_entry_type e = gateway_topup →
    ∃ k t, T !! k = Some t ∧ t_status t = succeeded ∧ credit_of ws t e;
}.

Definition orders_ok (db : Db) : Prop := orders (wallets db) (wallet_ledger db) (wallet_topups db).

(** Which moves an order can make. *)
Definition may_move (s s' : TopupStatus) : Prop :=
  s' = s ∨ (s' = needs_review ∧ s ≠ succeeded) ∨ (s = pending ∧ (s' = succeeded ∨ s' = failed ∨ s' = cancelled)).

Definition moves_ok (T T' : gmap Z WalletTopup) : Prop :=
  ∀ k t, T !! k = Some t → ∃ t', T' !! k = Some t' ∧ may_move (t_status t) (t_status t') ∧
    t_amount_vnd t' = t_amount_vnd t ∧ t_driver_id t' = t_driver_id t ∧ t_order_id t' = t_order_id t.

Lemma alter_topup (T : gmap Z WalletTopup) f i k t' :
  alter f i T !! k = Some t' →
  (k = i ∧ ∃ t, T !! i = Some t ∧ t' = f t) ∨ (k ≠ i ∧ T !! k = Some t').
Proof. rewrite lookup_alter_Some. naive_solver. Qed.

(** An order that ends elsewhere than in success, without a new credit. *)
Lemma orders_mark ws l T t f :
  orders ws l T → T !! t_id t = Some t → t_status t ≠ succeeded → t_status (f t) ≠ succeeded →
  t_id (f t) = t_id t →
  (∀ g k t', t_gateway_transaction_id (f t) = Some g → T !! k = Some t' → k ≠ t_id t →
     t_gateway_transaction_id t' ≠ Some g) →
  orders ws l (alter f (t_id t) T).
Proof.
  intros [Hid Hg Hc He] Ht Hs Hs' Hi Hfg. split.
  - intros k t' [(-> & t0 & H0 & ->)|[_ H]]%alter_topup; [congruence|eauto].
  - intros k k' t1 t2 g [(-> & t0 & H0 & ->)|[Hk H]]%alter_topup
      [(-> & t0' & H0' & ->)|[Hk' H']]%alter_topup G1 G2; [done| | |eauto].
    + rewrite Ht in H0. injection H0 as <-. exfalso. by eapply Hfg.
    + rewrite Ht in H0'. injection H0' as <-. exfalso. by eapply Hfg.
  - intros k t' [(-> & t0 & H0 & ->)|[_ H]]%alter_topup Hst; [congruence|eauto].
  - intros e Hin Het. destruct (He e Hin Het) as (k & t' & Hk & Hst & Hcr). exists k, t'.
    rewrite lookup_alter_ne; [done|]. intros <-. congruence.
Qed.

(** A pending order credited by a new entry. *)
Lemma orders_credit ws ws' l T t f e :
  orders ws l T → T !! t_id t = Some t → t_status t ≠ succeeded → t_status (f t) = succeeded →
  t_id (f t) = t_id t → (∀ i, w_driver_id <$> ws' !! i = w_driver_id <$> ws !! i) →
  credit_of ws' (f t) e →
  (∀ k t', T !! k = Some t' → k ≠ t_id t → t_gateway_transaction_id t' ≠ Some (l_reference_id e)) →
  orders ws' (l ++ [e]) (alter f (t_id t) T).
Proof.
  intros [Hid Hg Hc He] Ht Hs Hs' Hi Hws Hcr Hfg.
  assert (∀ t e, credit_of ws t e → credit_of ws' t e) as Hmono.
  { intros t1 e1 (? & ? & ? & ?). unfold credit_of. by rewrite Hws. }
  split.
  - intros k t' [(-> & t0 & H0 & ->)|[_ H]]%alter_topup; [congruence|eauto].
  - intros k k' t1 t2 g [(-> & t0 & H0 & ->)|[Hk H]]%alter_topup
      [(-> & t0' & H0' & ->)|[Hk' H']]%alter_topup G1 G2; [done| | |eauto]; exfalso;
      destruct Hcr as (_ & Hge & _).
    + rewrite Ht in H0. injection H0 as <-. apply (Hfg k' t2 H' Hk'). congruence.
    + rewrite Ht in H0'. injection H0' as <-. apply (Hfg k t1 H Hk). congruence.
  - intros k t' [(-> & t0 & H0 & ->)|[_ H]]%alter_topup Hst.
    + rewrite Ht in H0. injection H0 as <-. exists e. split; [set_solver|done].
    + destruct (Hc _ _ H Hst) as (e0 & ? & ?). exists e0. split; [set_solver|auto].
  - intros e0 [Hin| ->%list_elem_of_singleton]%elem_of_app Het.
    + destruct (He e0 Hin Het) as (k & t' & Hk & Hst & Hcr'). exists k, t'.
      rewrite lookup_alter_ne; [split_and!; auto|]. intros <-. congruence.
    + exists (t_id t), (f t). rewrite lookup_alter_eq, Ht. split_and!; done.
Qed.

Lemma moves_alter (T : gmap Z WalletTopup) t f :
  T !! t_id t = Some t → may_move (t_status t) (t_status (f t)) → t_amount_vnd (f t) = t_amount_vnd t →
  t_driver_id (f t) = t_driver_id t → t_order_id (f t) = t_order_id t → moves_ok T (alter f (t_id t) T).
Proof.
  intros Ht Hm H1 H2 H3 k t0 Hk. destruct (decide (k = t_id t)) as [->|Hne].
  - rewrite Ht in Hk. injection Hk as <-. exists (f t). rewrite lookup_alter_eq, Ht. split_and!; done.
  - exists t0. rewrite lookup_alter_ne by done. split_and!; try done. by left.
Qed.

(** At most one credit, and only for a pending order that succeeds. *)
Definition credits_ok (event : GatewayEvent) (db db' : Db) : Prop :=
  wallet_ledger db' = wallet_ledger db ∨
  ∃ t row, wallet_topups db !! t_id t = Some t ∧ t_status t = pending ∧ ge_status event = ev_succeeded ∧
    wallet_ledger db' = wallet_ledger db ++ [row] ∧ l_amount_vnd row = t_amount_vnd t ∧
    t_status <$> wallet_topups db' !! t_id t = Some succeeded.

Lemma settle_success event db t w row db1 :
  orders_ok db → ledger_ok db → strip (ge_gateway_transaction_id event) = ge_gateway_transaction_id event →
  wallet_topups db !! t_id t = Some t → t_status t = pending →
  (∀ k t', wallet_topups db !! k = Some t' → t_id t' ≠ t_id t →
     t_gateway_transaction_id t' ≠ Some (ge_gateway_transaction_id event)) →
  wallet_of_driver (t_driver_id t) db = Some w →
  ghi_so_cai (w_id w) gateway_topup (ge_amount_vnd event) "gateway_transaction"
    (ge_gateway_transaction_id event) None db = (inr row, db1) →
  wallet_ledger db1 = wallet_ledger db ++ [row] ∧ l_entry_type row = gateway_topup ∧
  l_reference_id row = ge_gateway_transaction_id event ∧ l_amount_vnd row = ge_amount_vnd event ∧
  l_wallet_id row = w_id w ∧ w_driver_id <$> wallets db !! w_id w = Some (t_driver_id t) ∧
  ∀ i, w_driver_id <$> wallets db1 !! i = w_driver_id <$> wallets db !! i.
Proof.
  intros Ho Hok Hstrip Ht Hp Hg Hw Hpost.
  destruct (wallet_of_driver_Some _ _ _ _ _ (proj1 Hok) eq_refl Hw) as [Hkw Hd].
  apply ghi_so_cai_key in Hpost as (Hk & Hwid & Ham & Hcase). rewrite Hstrip in *.
  pose proof (by_reference_Some _ _ _ _ Hk) as (_ & Het & Href).
  destruct Hcase as [[_ Hex]|(Hn & -> & _)].
  { exfalso. apply by_reference_Some in Hex as (Hin & _ & _).
    destruct (orders_entries _ _ _ Ho row Hin Het) as (k & t' & Hk' & Hst & _ & Hgt & _).
    apply (Hg k t' Hk'); [|congruence]. pose proof (orders_id _ _ _ Ho k t' Hk') as Hi. intros Heq.
    rewrite Hi in Heq. subst k. congruence. }
  split_and!; try done; [by rewrite Hkw; simpl; f_equal|].
  intros i. change (wallets (posted row db)) with
    (alter (set_w_balance_vnd (l_balance_after_vnd row)) (l_wallet_id row) (wallets db)).
  destruct (decide (i = l_wallet_id row)) as [->|]; [|by rewrite lookup_alter_ne].
  rewrite lookup_alter_eq. by destruct (wallets db !! l_wallet_id row).
Qed.

Lemma event_valid_strip event :
  event_valid event = true → strip (ge_gateway_transaction_id event) = ge_gateway_transaction_id event.
Proof.
  unfold event_valid, validate_identifier. rewrite !andb_true_iff, !bool_decide_eq_true. tauto.
Qed.

Lemma moves_refl T : moves_ok T T.
Proof. intros k t Hk. exists t. split_and!; try done. by left. Qed.

Lemma effect_keeps event db db' :
  event_valid event = true → orders_ok db → ledger_ok db → webhook_effect event db db' →
  orders_ok db' ∧ ledger_ok db' ∧ moves_ok (wallet_topups db) (wallet_topups db') ∧ credits_ok event db db'.
Proof.
  intros Hval Ho Hok Heff. pose proof (event_valid_strip _ Hval) as Hstrip.
  unfold orders_ok, ledger_ok, credits_ok in *.
  destruct Heff as [(Hw & Hl & Ht & _)|t c Ht Hs1 Hs2 (Hw & Hl & HT & _)|t db1 Ht Hp Ham Hg Hpost HT Hw Hl _].
  - rewrite Hw, Hl, Ht. split_and!; try done; [apply moves_refl|by left].
  - simpl in Hw, Hl, HT. rewrite Hw, Hl, HT. split_and!; try done; [| |by left].
    + apply orders_mark; try done. intros g k t' Hgt Hk Hne Heq. apply Hne.
      by apply (orders_gateway _ _ _ Ho _ _ _ _ g Hk Ht).
    + apply moves_alter; try done. right. by left.
  - rewrite Hw, Hl, HT.
    assert (∀ k t', wallet_topups db !! k = Some t' → k ≠ t_id t →
      t_gateway_transaction_id t' ≠ Some (ge_gateway_transaction_id event)) as Hg'.
    { intros k t' Hk Hne. apply (Hg k t' Hk). by rewrite (orders_id _ _ _ Ho k t' Hk). }
    destruct (decide (ge_status event = ev_succeeded)) as [Hs|Hs].
    + destruct Hpost as (w & row & Hwal & Hpost). pose proof Hpost as Hpost'.
      apply (settle_success _ _ t) in Hpost' as (HL & Het & Href & Hra & Hrw & Hdr & Hws); try done.
      pose proof (keeps_run ledger_ok _ _ _ _ (keeps_ghi_so_cai _ _ _ _ _ _) Hok Hpost) as Hok1.
      rewrite HL, Hs in *. split_and!; [|unfold ledger_ok in Hok1; by rewrite HL in Hok1| |].
      * apply (orders_credit (wallets db)); try done; [congruence| |by rewrite Href].
        unfold credit_of. simpl. rewrite Hrw, Hws, Hdr, Href. split_and!; congruence.
      * apply moves_alter; try done. rewrite Hp. right. right. auto.
      * right. exists t, row. rewrite lookup_alter_eq, Ht. split_and!; try done. congruence.
    + subst db1. split_and!; try done; [| |by left].
      * apply orders_mark; try done; [congruence|by destruct (ge_status event)|].
        intros g k t' [= <-] Hk Hne. by apply (Hg' k t').
      * apply moves_alter; try done. rewrite Hp. right. right. destruct (ge_status event); simpl; auto.
Qed.

(** C4. Gateway callbacks credit an order exactly once: [process_topup_webhook]
    on any authenticated event keeps the one-to-one match between succeeded
    orders and gateway credits (same gateway id, amount and driver) and the
    ledger invariant; it appends at most one entry, only when a pending order
    succeeds and for that order's amount; an order moves only from pending to a
    final state or from an unfinished state to review, never out of success. *)
Theorem process_topup_webhook_exactly_once sha event db r db' :
  event_valid event = true → orders_ok db → ledger_ok db →
  process_topup_webhook sha event db = (r, db') →
  orders_ok db' ∧ ledger_ok db' ∧ moves_ok (wallet_topups db) (wallet_topups db') ∧
  credits_ok event db db'.
Proof.
  intros Hval Ho Hok H. apply effect_keeps; try done.
  eapply process_topup_webhook_effect; [|exact H]. apply (orders_id _ _ _ Ho).
Qed.

Definition demo_order_db : Db :=
  set_wallet_topups {[ 50 := mkTopup 50 2 200000 pending "order-1" None None ]} demo_db.

Definition demo_event : GatewayEvent := mkGatewayEvent "gw-9" "order-1" 200000 ev_succeeded None.

Lemma demo_order_lookup k t :
  wallet_topups demo_order_db !! k = Some t → k = 50 ∧ t = mkTopup 50 2 200000 pending "order-1" None None.
Proof.
  change (({[ 50 := mkTopup 50 2 200000 pending "order-1" None None ]} : gmap Z WalletTopup) !! k = Some t →
    k = 50 ∧ t = mkTopup 50 2 200000 pending "order-1" None None).
  by intros [<- <-]%lookup_singleton_Some.
Defined.

Lemma demo_order_ok : orders_ok demo_order_db.
Proof.
  pose proof demo_order_lookup as H.
  split.
  - by intros k t [-> ->]%H.
  - by intros k k' t t' g [-> _]%H [-> _]%H.
  - by intros k t [-> ->]%H ?.
  - intros e He. by apply elem_of_nil in He.
Defined.

Lemma process_topup_webhook_exactly_once_witness :
  orders_ok (process_topup_webhook id demo_event demo_order_db).2.
Proof.
  apply (process_topup_webhook_exactly_once id demo_event demo_order_db
    (process_topup_webhook id demo_event demo_order_db).1).
  - vm_compute. reflexivity.
  - exact demo_order_ok.
  - exact demo_db_ok.
  - vm_compute. reflexivity.
Defined.

Example process_topup_webhook_ex1 :
  match process_topup_webhook id demo_event demo_order_db with
  | (inr r, db) => (sr_status r, w_balance_vnd <$> wallets db !! 10,
      match process_topup_webhook id demo_event db with (inr r2, db2) => w_balance_vnd <$> wallets db2 !! 10 | _ => None end)
  | _ => (None, None, None)
  end = (Some succeeded, Some 200000, Some 200000).
Proof. vm_compute. reflexivity. Qed.

(** ** A successful payment reaches the wallet *)

Lemma event_valid_facts event :
  event_valid event = true →
  0 < ge_amount_vnd event ∧ in_vnd (ge_amount_vnd event) = true ∧
  reference_valid (strip "gateway_transaction") (strip (ge_gateway_transaction_id event)) = true.
Proof.
  intros Hval. rewrite (event_valid_strip _ Hval). revert Hval. unfold event_valid, reference_valid, in_vnd.
  change (strip "gateway_transaction") with "gateway_transaction".
  change (text_len "gateway_transaction") with 19.
  rewrite !andb_true_iff, !negb_true_iff, !Z.eqb_neq, !Z.leb_le, !Z.ltb_lt. unfold MIN_VND. intros Hv.
  split_and!; lia.
Qed.

(** A second delivery of the same event finds a settled order. *)
Lemma process_replay sha event db t :
  find_topup (ge_order_id event) db = Some t → wallet_topups db !! t_id t = Some t →
  t_amount_vnd t = ge_amount_vnd event →
  t_gateway_transaction_id t = Some (ge_gateway_transaction_id event) →
  t_status t = succeeded → ge_status event = ev_succeeded →
  process_topup_webhook sha event db = (inr (mkSettlement 200 (Some succeeded) None), db).
Proof.
  intros Hf Ht Ha Hg Hs He. unfold process_topup_webhook.
  rewrite (bind_ok_step _ _ _ (Some t) db) by (unfold gets; by rewrite Hf).
  rewrite Ha, Z.eqb_refl. cbn [negb]. rewrite bool_decide_eq_true_2 by auto. cbn [negb].
  rewrite Hs, He. rewrite bool_decide_eq_false_2 by done. cbn [negb].
  rewrite (bind_ok_step _ _ _ None db) by done.
  rewrite (bind_ok_step _ _ _ (Some succeeded) db); [done|].
  unfold status_of, gets. rewrite Ht. simpl. by rewrite Hs.
Qed.

Lemma find_topup_after event db T' t t' :
  find_topup (ge_order_id event) db = Some t → wallet_topups db !! t_id t = Some t →
  (∀ k x, wallet_topups db !! k = Some x → t_order_id x = ge_order_id event → k = t_id t) →
  wallet_topups T' = <[t_id t := t']> (wallet_topups db) → t_order_id t' = t_order_id t →
  find_topup (ge_order_id event) T' = Some t'.
Proof.
  intros Hf Ht Huniq HT Ho. apply select_where_Some in Hf as (k0 & _ & Hord%bool_decide_eq_true).
  apply (select_where_unique _ _ (t_id t)); [by rewrite HT, lookup_insert_eq| |].
  - apply bool_decide_eq_true. congruence.
  - intros k x Hk Hx%bool_decide_eq_true. rewrite HT in Hk.
    destruct (decide (k = t_id t)) as [->|Hne]; [rewrite lookup_insert_eq in Hk; congruence|].
    rewrite lookup_insert_ne in Hk by done. exfalso. by apply Hne, (Huniq k x).
Qed.

(** Money paid arrives: a success event for a pending order of the same
    amount, with a gateway id no other order or entry has, for a driver with an
    active wallet that can hold the sum, is answered 200 succeeded and raises
    the wallet's balance by the amount; delivering the event again gives the
    same answer and changes nothing. *)
Theorem process_topup_webhook_credits sha event db t w :
  event_valid event = true → ge_status event = ev_succeeded →
  find_topup (ge_order_id event) db = Some t → wallet_topups db !! t_id t = Some t →
  (∀ k x, wallet_topups db !! k = Some x → t_order_id x = ge_order_id event → k = t_id t) →
  t_status t = pending → t_amount_vnd t = ge_amount_vnd event → t_gateway_transaction_id t = None →
  (∀ k x, wallet_topups db !! k = Some x →
     t_gateway_transaction_id x ≠ Some (ge_gateway_transaction_id event)) →
  by_reference gateway_topup (ge_gateway_transaction_id event) db = None →
  history (wallets db) (wallet_ledger db) →
  wallet_of_driver (t_driver_id t) db = Some w → w_status w = active →
  in_vnd (w_balance_vnd w + ge_amount_vnd event) = true →
  ∃ db', process_topup_webhook sha event db = (inr (mkSettlement 200 (Some succeeded) None), db') ∧
    w_balance_vnd <$> wallets db' !! w_id w = Some (w_balance_vnd w + ge_amount_vnd event) ∧
    process_topup_webhook sha event db' = (inr (mkSettlement 200 (Some succeeded) None), db').
Proof.
  intros Hval Hs Hf Ht Huniq Hp Ham Hg0 Hgw Hkey Hh Hw Hact Hbal.
  destruct (event_valid_facts _ Hval) as (Hpos & Hv & Hr). pose proof (event_valid_strip _ Hval) as Hstrip.
  destruct (wallet_of_driver_Some _ _ _ _ _ Hh eq_refl Hw) as [Hkw _].
  set (gid := ge_gateway_transaction_id event) in *.
  set (db1 := update_topup (t_id t) (set_t_gateway_transaction_id (Some gid)) db).
  assert (amount_allowed gateway_topup (ge_amount_vnd event) = true) as Ha.
  { unfold amount_allowed. apply andb_true_iff. split; [apply negb_true_iff, Z.eqb_neq; lia|by apply Z.ltb_lt]. }
  pose proof (ghi_so_cai_posts (w_id w) gateway_topup (ge_amount_vnd event) "gateway_transaction" gid None
    db1 w Hkw Hact ltac:(done) Hv Ha Hr ltac:(by rewrite Hstrip) Hbal ltac:(done) ltac:(done)) as Hpost.
  cbv zeta in Hpost. set (row := mkLedger _ _ _ _ _ _ _ _ _) in Hpost.
  set (db2 := update_topup (t_id t) (set_t_reason None ∘ set_t_status succeeded) (posted row db1)).
  set (t' := settle_mark event succeeded t).
  assert (wallet_topups db2 = <[t_id t := t']> (wallet_topups db)) as HT.
  { simpl. apply map_eq. intros k. destruct (decide (k = t_id t)) as [->|].
    - rewrite !lookup_alter_eq, lookup_insert_eq, Ht. simpl. unfold t', settle_mark, final_reason.
      by rewrite decide_True.
    - by rewrite !lookup_alter_ne, lookup_insert_ne. }
  assert (settle_order t event succeeded db = (inr (), db2)) as Hsettle.
  { unfold settle_order. rewrite (bind_ok_step _ _ _ () db1).
    2: { unfold record_gateway, mbind, M_bind, gets.
         rewrite (proj2 (select_where_None _ _)); [done|]. intros k x Hk. apply andb_false_iff. right.
         apply bool_decide_eq_false. by apply (Hgw k). }
    rewrite (bind_ok_step _ _ _ () (posted row db1)).
    2: { rewrite decide_True by done. rewrite (bind_ok_step _ _ _ (Some w) db1) by (unfold gets; by rewrite <- Hw).
         rewrite (bind_ok_step _ _ _ w db1) by done. by rewrite (bind_ok_step _ _ _ _ _ Hpost). }
    unfold final_reason. rewrite decide_True by done. reflexivity. }
  exists db2. split_and!.
  - unfold process_topup_webhook. rewrite (bind_ok_step _ _ _ (Some t) db) by (unfold gets; by rewrite Hf).
    rewrite Ham, Z.eqb_refl. cbn [negb]. rewrite bool_decide_eq_true_2 by auto. cbn [negb].
    rewrite Hp, Hs. rewrite bool_decide_eq_true_2 by done. cbn [negb TRANSITIONS].
    rewrite (bind_ok_step _ _ _ None db2).
    2: { unfold try_except. rewrite (bind_ok_step _ _ _ () db2); [done|]. unfold savepoint. by rewrite Hsettle. }
    rewrite (bind_ok_step _ _ _ (Some succeeded) db2); [done|].
    unfold status_of, gets. by rewrite HT, lookup_insert_eq.
  - simpl. by rewrite lookup_alter_eq, Hkw.
  - apply (process_replay sha event db2 t'); try done; [|by rewrite HT, lookup_insert_eq].
    by apply (find_topup_after event db db2 t t').
Qed.

Lemma process_topup_webhook_credits_witness :
  ∃ db', process_topup_webhook id demo_event demo_order_db =
    (inr (mkSettlement 200 (Some succeeded) None), db') ∧
    w_balance_vnd <$> wallets db' !! 10 = Some 200000.
Proof.
  destruct (process_topup_webhook_credits id demo_event demo_order_db
    (mkTopup 50 2 200000 pending "order-1" None None) (mkWallet 10 2 0 active)) as (db' & H1 & H2 & _).
  - vm_compute. reflexivity.
  - reflexivity.
  - reflexivity.
  - reflexivity.
  - intros k x [-> _]%demo_order_lookup _. reflexivity.
  - reflexivity.
  - reflexivity.
  - reflexivity.
  - intros k x [_ ->]%demo_order_lookup H. discriminate H.
  - reflexivity.
  - exact (proj1 demo_db_ok).
  - reflexivity.
  - reflexivity.
  - reflexivity.
  - exists db'. split; [exact H1|exact H2].
Defined.
