(* ===== verification/Pricing.v ===== *)
(** * Pricing: versioned tariffs of a station

    Models [src/src/modules/pricing/service.py], [pricing/creation.py], the
    edit of a version in [pricing/router.py] and the ownership filter
    [get_station_by_id] of [stations/repository.py]. A calendar date is a day
    number; timestamps are aware by type. *)

From S2P Require Import Prelude Bands Clock Text Store AuditTrail Wallet.

(** ** Operations *)

Section pricing.
Context {dep : Deployment}.

(** [date | datetime] *)
Inductive Ngay := OnDate (d : Z) | AtTime (t : Z).

Definition ngay_dia_phuong (timezone : string) (at_ : Z) : Z := local_date (zoneinfo timezone) at_.

Definition _station (station_id : Z) : Tx Station :=
  s ← gets (λ db, stations db !! station_id); some_or s TariffNotFoundError.

Definition rows {A} (t : gmap Z A) : list A := (map_to_list t).*2.

Definition versions (station_id : Z) (db : Db) : list Tariff :=
  filter (λ t, tf_station_id t = station_id) (rows (tariffs db)).

(** [ORDER BY effective_from DESC LIMIT 1] *)
Definition latest (l : list Tariff) : option Tariff :=
  foldr (λ t best, match best with
                   | Some b => if tf_effective_from t <? tf_effective_from b then Some b else Some t
                   | None => Some t
                   end) None l.

Definition effective (station_id d : Z) (db : Db) : option Tariff :=
  latest (filter (λ t, tf_effective_from t ≤ d) (versions station_id db)).

Definition lay_bieu_gia_hieu_luc (station_id : Z) (ngay : Ngay) : Tx (option Tariff) :=
  station ← _station station_id;
  let local := match ngay with AtTime t => ngay_dia_phuong (st_timezone station) t | OnDate d => d end in
  gets (effective station_id local).

Definition locked_tariff (station_id tariff_id : Z) : Tx Tariff :=
  t ← gets (λ db, tariffs db !! tariff_id);
  tariff ← some_or t TariffNotFoundError;
  raise_if (negb (tf_station_id tariff =? station_id)) TariffNotFoundError;;
  mret tariff.

(** The clock of the caller, or the transaction's own. *)
Definition clock (now : option Z) : Tx Z := gets (λ db, default (db_now db) now).

Definition kiem_bieu_gia_co_the_sua (station_id tariff_id : Z) (now : option Z) : Tx Tariff :=
  station ← _station station_id;
  tariff ← locked_tariff station_id tariff_id;
  t ← clock now;
  let today := ngay_dia_phuong (st_timezone station) t in
  raise_if ((tf_effective_from tariff <=? today) || bool_decide (is_Some (tf_used_at tariff)))
    TariffImmutableError;;
  mret tariff.

Definition kiem_ngay_hieu_luc (station_id effective_from : Z) (now exclude_tariff_id : option Z)
  : Tx Station :=
  station ← _station station_id;
  t ← clock now;
  let today := ngay_dia_phuong (st_timezone station) t in
  match exclude_tariff_id with
  | Some id => kiem_bieu_gia_co_the_sua station_id id now;; mret ()
  | None => mret ()
  end;;
  others ← gets (λ db, filter (λ t, Some (tf_id t) ≠ exclude_tariff_id) (versions station_id db));
  raise_if (match others with
            | [] => negb (effective_from =? today)
            | _ => effective_from <? today + 1
            end) TariffEffectiveDateError;;
  raise_if (existsb (λ t, tf_effective_from t =? effective_from) others) TariffDuplicateDateError;;
  mret station.

Definition danh_dau_bieu_gia_da_dung (station_id tariff_id : Z) (now : option Z) : Tx Tariff :=
  _station station_id;;
  tariff ← locked_tariff station_id tariff_id;
  timestamp ← clock now;
  match tf_used_at tariff with
  | None => modify (λ db, set_tariffs (alter (set_tf_used_at (Some timestamp)) tariff_id (tariffs db)) db)
  | Some _ => mret ()
  end;;
  locked_tariff station_id tariff_id.

(** [StationRepository.get_station_by_id]; [owner] is [scope.owner_id]. *)
Definition get_station_by_id (station_id : Z) (owner : option Z) : Tx (option Station) :=
  s ← gets (λ db, stations db !! station_id);
  match s, owner with
  | Some st, Some o => if st_owner_id st =? o then mret (Some st) else raise StationOwnershipDeniedError
  | _, _ => mret s
  end.

Definition band_rows (tariff_id : Z) (normalized : list BandInput) : list TariffBand :=
  (λ b, mkTariffBand tariff_id (band_start_min b) (band_end_min b) (energy_rate_vnd_per_kwh b) (label b))
    <$> normalized.

Definition tariff_checks (idle grace : Z) : Tx () :=
  raise_if (idle <? 0) (IntegrityError "ck_tariffs_idle_rate_nonnegative");;
  raise_if (grace <? 0) (IntegrityError "ck_tariffs_grace_nonnegative").

Definition tao_bieu_gia (owner : option Z) (station_id effective_from idle_rate grace_minutes : Z)
    (bands : list BandInput) : Tx (Tariff * list TariffBand) :=
  s ← get_station_by_id station_id owner;
  some_or s TariffNotFoundError;;
  match kiem_khung_gio bands with
  | inl _ => raise TariffBandsError
  | inr normalized =>
      kiem_ngay_hieu_luc station_id effective_from None None;;
      id ← fresh_id;
      tariff_checks idle_rate grace_minutes;;
      dup ← gets (λ db, tariffs db !! id);
      raise_if (bool_decide (is_Some dup)) (IntegrityError "tariffs_pkey");;
      let tariff := mkTariff id station_id effective_from None idle_rate grace_minutes in
      modify (λ db, set_tariffs (<[id := tariff]> (tariffs db)) db);;
      modify (λ db, set_tariff_bands (tariff_bands db ++ band_rows id normalized) db);;
      mret (tariff, band_rows id normalized)
  end.

(** [edit_tariff] of the router *)
Definition edit_tariff (owner : option Z) (station_id tariff_id effective_from idle_rate grace_minutes : Z)
    (bands : list BandInput) : Tx Tariff :=
  s ← get_station_by_id station_id owner;
  some_or s TariffNotFoundError;;
  tariff ← kiem_bieu_gia_co_the_sua station_id tariff_id None;
  match kiem_khung_gio bands with
  | inl _ => raise TariffBandsError
  | inr normalized =>
      kiem_ngay_hieu_luc station_id effective_from None (Some tariff_id);;
      tariff_checks idle_rate grace_minutes;;
      let edited := mkTariff tariff_id station_id effective_from (tf_used_at tariff) idle_rate grace_minutes in
      modify (λ db, set_tariff_bands
        (filter (λ b, tb_tariff_id b ≠ tariff_id) (tariff_bands db) ++ band_rows tariff_id normalized) db);;
      modify (λ db, set_tariffs (<[tariff_id := edited]> (tariffs db)) db);;
      mret edited
  end.
End pricing.

(** ** The version in force *)

Lemma latest_None l : latest l = None ↔ l = [].
Proof.
  destruct l as [|t l]; [done|]. simpl. fold (latest l). split; [|done].
  destruct (latest l); [case_match|]; done.
Qed.

Lemma latest_Some l t :
  latest l = Some t → t ∈ l ∧ ∀ x, x ∈ l → tf_effective_from x ≤ tf_effective_from t.
Proof.
  revert t. induction l as [|a l IH]; intros t; simpl; [done|].
  fold (latest l). destruct (latest l) as [b|] eqn:E.
  - destruct (IH b eq_refl) as [Hb Hmax].
    destruct (Z.ltb_spec (tf_effective_from a) (tf_effective_from b)); intros [= <-]; (split; [set_solver|]);
      intros x [->|Hx]%elem_of_cons; try lia; specialize (Hmax x Hx); lia.
  - intros [= <-]. apply latest_None in E as ->. split; [set_solver|]. intros x. rewrite elem_of_cons, elem_of_nil.
    intros [->|[]]. lia.
Qed.

Lemma elem_of_versions s db t : t ∈ versions s db ↔ (∃ k, tariffs db !! k = Some t) ∧ tf_station_id t = s.
Proof.
  unfold versions, rows. rewrite list_elem_of_filter, list_elem_of_fmap. split.
  - intros [Hs ([k t'] & -> & Hk%elem_of_map_to_list)]. eauto.
  - intros [[k Hk] Hs]. split; [done|]. exists (k, t). split; [done|]. by apply elem_of_map_to_list.
Qed.

(** [t] is the newest version of the station that starts on day [d] or before. *)
Definition in_force (s d : Z) (db : Db) (t : Tariff) : Prop :=
  (∃ k, tariffs db !! k = Some t) ∧ tf_station_id t = s ∧ tf_effective_from t ≤ d ∧
  ∀ k t', tariffs db !! k = Some t' → tf_station_id t' = s → tf_effective_from t' ≤ d →
    tf_effective_from t' ≤ tf_effective_from t.

Lemma effective_Some s d db t : effective s d db = Some t → in_force s d db t.
Proof.
  intros [Hin Hmax]%latest_Some. apply list_elem_of_filter in Hin as [Hd [Hk Hs]%elem_of_versions].
  split_and!; try done. intros k t' Hk' Hs' Hd'. apply Hmax, list_elem_of_filter. split; [done|].
  apply elem_of_versions. eauto.
Qed.

Lemma effective_None s d db :
  effective s d db = None ↔ ∀ k t, tariffs db !! k = Some t → tf_station_id t = s → d < tf_effective_from t.
Proof.
  unfold effective. rewrite latest_None. split.
  - intros H k t Hk Hs. destruct (decide (tf_effective_from t ≤ d)); [|lia]. exfalso.
    assert (t ∈ filter (λ t, tf_effective_from t ≤ d) (versions s db)) as Hin
      by (apply list_elem_of_filter; split; [done|]; apply elem_of_versions; eauto).
    rewrite H in Hin. by apply elem_of_nil in Hin.
  - intros H. destruct (filter _ (versions s db)) as [|t l] eqn:E; [done|]. exfalso.
    assert (t ∈ filter (λ t, tf_effective_from t ≤ d) (versions s db)) as [Hd Hv]%list_elem_of_filter
      by (rewrite E; set_solver).
    apply elem_of_versions in Hv as [[k Hk] Hs]. specialize (H k t Hk Hs). lia.
Qed.

(** ** The table invariant *)

Definition bands_of (tariff_id : Z) (db : Db) : list TariffBand :=
  filter (λ b, tb_tariff_id b = tariff_id) (tariff_bands db).

Record tariffs_ok (db : Db) : Prop := mkTariffsOk {
  tariffs_id : ∀ k t, tariffs db !! k = Some t → tf_id t = k;
  tariffs_unique : ∀ k k' t t', tariffs db !! k = Some t → tariffs db !! k' = Some t' →
    tf_station_id t = tf_station_id t' → tf_effective_from t = tf_effective_from t' → k = k';
  tariffs_rates : ∀ k t, tariffs db !! k = Some t → 0 ≤ tf_idle_rate t ∧ 0 ≤ tf_grace_minutes t;
  tariffs_bands : ∀ k t, tariffs db !! k = Some t →
    ∃ normalized, bands_of k db = band_rows k normalized ∧ tiles 0 1440 normalized ∧
      Forall row_valid normalized;
  tariffs_no_orphans : ∀ b, b ∈ tariff_bands db → is_Some (tariffs db !! tb_tariff_id b);
}.

Lemma effective_iff s d db t : tariffs_ok db → effective s d db = Some t ↔ in_force s d db t.
Proof.
  intros Hok. split; [apply effective_Some|]. intros ([k Hk] & Hs & Hd & Hmax).
  destruct (effective s d db) as [t'|] eqn:E.
  - apply effective_Some in E as ([k' Hk'] & Hs' & Hd' & Hmax').
    assert (k = k') as ->.
    { apply (tariffs_unique _ Hok k k' t t' Hk Hk'); [congruence|].
      specialize (Hmax k' t' Hk' Hs' Hd'). specialize (Hmax' k t Hk Hs Hd). lia. }
    congruence.
  - rewrite effective_None in E. specialize (E k t Hk Hs). lia.
Qed.

Lemma band_rows_id tid l b : b ∈ band_rows tid l → tb_tariff_id b = tid.
Proof. unfold band_rows. intros (x & -> & _)%list_elem_of_fmap. done. Qed.

Lemma filter_band_rows_eq tid l : filter (λ b, tb_tariff_id b = tid) (band_rows tid l) = band_rows tid l.
Proof.
  induction l as [|b l IH]; [done|]. unfold band_rows in *. rewrite fmap_cons, filter_cons.
  case_decide; [by rewrite IH|done].
Qed.

Lemma filter_band_rows_ne tid k l : k ≠ tid → filter (λ b, tb_tariff_id b = k) (band_rows tid l) = [].
Proof.
  intros Hne. induction l as [|b l IH]; [done|]. unfold band_rows in *. rewrite fmap_cons, filter_cons.
  case_decide as H; [simpl in H; congruence|done].
Qed.

Lemma bands_of_absent db k : tariffs_ok db → tariffs db !! k = None → bands_of k db = [].
Proof.
  intros Hok Hk. unfold bands_of. destruct (filter _ (tariff_bands db)) as [|b l] eqn:E; [done|].
  assert (b ∈ filter (λ b, tb_tariff_id b = k) (tariff_bands db)) as [<- Hb]%list_elem_of_filter by (rewrite E; set_solver).
  apply (tariffs_no_orphans _ Hok) in Hb as [t Ht]. congruence.
Qed.

(** One version written, or rewritten, with its bands. *)
Definition put_version (t : Tariff) (normalized : list BandInput) (db : Db) : Db :=
  set_tariffs (<[tf_id t := t]> (tariffs db))
    (set_tariff_bands (filter (λ b, tb_tariff_id b ≠ tf_id t) (tariff_bands db) ++
       band_rows (tf_id t) normalized) db).

Lemma bands_of_put t n db : bands_of (tf_id t) (put_version t n db) = band_rows (tf_id t) n.
Proof.
  unfold bands_of. simpl. rewrite filter_app, filter_band_rows_eq.
  replace (filter _ (filter _ _)) with (@nil TariffBand); [done|]. symmetry.
  destruct (filter _ (filter _ _)) as [|b l] eqn:E; [done|]. exfalso.
  assert (b ∈ filter (λ b, tb_tariff_id b = tf_id t) (filter (λ b, tb_tariff_id b ≠ tf_id t) (tariff_bands db)))
    as [H1 [H2 _]%list_elem_of_filter]%list_elem_of_filter by (rewrite E; set_solver). done.
Qed.

Lemma bands_of_put_ne t n db k : k ≠ tf_id t → bands_of k (put_version t n db) = bands_of k db.
Proof.
  intros Hne. unfold bands_of. simpl. rewrite filter_app, filter_band_rows_ne, app_nil_r by done.
  induction (tariff_bands db) as [|b l IH]; [done|]. rewrite !filter_cons.
  destruct (decide (tb_tariff_id b ≠ tf_id t)) as [H1|H1]; rewrite ?filter_cons;
    destruct (decide (tb_tariff_id b = k)) as [H2|H2]; rewrite ?IH; try done.
  exfalso. apply H1. congruence.
Qed.

Lemma put_version_ok t n db :
  tariffs_ok db →
  (∀ k t', tariffs db !! k = Some t' → k ≠ tf_id t → tf_station_id t' = tf_station_id t →
     tf_effective_from t' ≠ tf_effective_from t) →
  0 ≤ tf_idle_rate t → 0 ≤ tf_grace_minutes t → tiles 0 1440 n → Forall row_valid n →
  tariffs_ok (put_version t n db).
Proof.
  intros Hok Hdate Hi Hg Ht Hv. split; simpl.
  - intros k t' [[<- <-]|[_ Hk]]%lookup_insert_Some; [done|by apply (tariffs_id _ Hok)].
  - intros k k' t1 t2 [[<- <-]|[Hne Hk]]%lookup_insert_Some [[<- <-]|[Hne' Hk']]%lookup_insert_Some Hs He.
    + done.
    + exfalso. by apply (Hdate k' t2 Hk').
    + exfalso. by apply (Hdate k t1 Hk).
    + by apply (tariffs_unique _ Hok k k' t1 t2).
  - intros k t' [[<- <-]|[_ Hk]]%lookup_insert_Some; [done|by apply (tariffs_rates _ Hok k)].
  - intros k t' [[<- <-]|[Hne Hk]]%lookup_insert_Some; [exists n; split_and!; try done; apply bands_of_put|].
    rewrite bands_of_put_ne by done. by apply (tariffs_bands _ Hok k t').
  - intros b [[Hb Hin]%list_elem_of_filter| ->%band_rows_id]%elem_of_app; [|by rewrite lookup_insert_eq].
    rewrite lookup_insert_ne by done. by apply (tariffs_no_orphans _ Hok).
Qed.

(** ** Creating and editing versions *)

Section theorems.
Context {dep : Deployment}.

Definition today (st : Station) (db : Db) : Z := ngay_dia_phuong (st_timezone st) (db_now db).

Lemma pure_station s : pure_tx (_station s).
Proof. unfold _station. auto with csms. Qed.
Lemma pure_locked_tariff s t : pure_tx (locked_tariff s t).
Proof. unfold locked_tariff. auto 10 with csms. Qed.
Lemma pure_clock n : pure_tx (clock n).
Proof. done. Qed.
#[local] Hint Resolve pure_station pure_locked_tariff pure_clock : csms.
Lemma pure_co_the_sua s t n : pure_tx (kiem_bieu_gia_co_the_sua s t n).
Proof. unfold kiem_bieu_gia_co_the_sua. auto 20 with csms. Qed.
#[local] Hint Resolve pure_co_the_sua : csms.
Lemma pure_ngay_hieu_luc s e n x : pure_tx (kiem_ngay_hieu_luc s e n x).
Proof.
  unfold kiem_ngay_hieu_luc. apply pure_bind; [auto with csms|intros st].
  apply pure_bind; [auto with csms|intros t]. apply pure_bind; [destruct x; auto with csms|auto 20 with csms].
Qed.
Lemma pure_get_station s o : pure_tx (get_station_by_id s o).
Proof. unfold get_station_by_id. apply pure_bind; [auto with csms|]. intros [st|] db; destruct o; try done. by case_match. Qed.
#[local] Hint Resolve pure_ngay_hieu_luc pure_get_station : csms.

Lemma station_ok s db st db' : _station s db = (inr st, db') → stations db !! s = Some st.
Proof. unfold _station, mbind, M_bind, gets. destruct (stations db !! s); by intros [= <- _]. Qed.

Lemma locked_tariff_ok s t db tf db' :
  locked_tariff s t db = (inr tf, db') → tariffs db !! t = Some tf ∧ tf_station_id tf = s.
Proof.
  unfold locked_tariff, mbind, M_bind, gets. destruct (tariffs db !! t) as [x|]; [|done]. simpl.
  destruct (Z.eqb_spec (tf_station_id x) s); [|done]. by intros [= <- _].
Qed.

(** An editable version has not started and no invoice uses it. *)
Lemma co_the_sua_ok s t db tf db' :
  kiem_bieu_gia_co_the_sua s t None db = (inr tf, db') →
  ∃ st, stations db !! s = Some st ∧ tariffs db !! t = Some tf ∧ tf_station_id tf = s ∧
    today st db < tf_effective_from tf ∧ tf_used_at tf = None.
Proof.
  intros H. unfold kiem_bieu_gia_co_the_sua in H.
  apply bind_pure in H as [(e & _ & ? & _)|(st & Hst & H)]; [done| |auto with csms].
  apply bind_pure in H as [(e & _ & ? & _)|(tf' & Htf & H)]; [done| |auto with csms].
  apply bind_pure in H as [(e & _ & ? & _)|(n & [= <-] & H)]; [done| |auto with csms].
  apply bind_pure in H as [(e & _ & ? & _)|(u & Hr & H)]; [done| |auto with csms].
  injection H as <- _. apply station_ok in Hst. apply locked_tariff_ok in Htf as [? ?].
  apply raise_if_ok, orb_false_iff in Hr as [Hr1 Hr2]. apply bool_decide_eq_false in Hr2.
  exists st. split_and!; try done; [unfold today; simpl in Hr1; lia|].
  by apply eq_None_not_Some.
Qed.

Definition other_versions (s : Z) (exclude : option Z) (db : Db) : list Tariff :=
  filter (λ t, Some (tf_id t) ≠ exclude) (versions s db).

Lemma ngay_hieu_luc_ok s e x db st db' :
  kiem_ngay_hieu_luc s e None x db = (inr st, db') →
  stations db !! s = Some st ∧
  (other_versions s x db = [] → e = today st db) ∧
  (other_versions s x db ≠ [] → today st db < e) ∧
  ∀ t, t ∈ other_versions s x db → tf_effective_from t ≠ e.
Proof.
  intros H. unfold kiem_ngay_hieu_luc in H.
  apply bind_pure in H as [(e' & _ & ? & _)|(st' & Hst & H)]; [done| |auto with csms].
  apply bind_pure in H as [(e' & _ & ? & _)|(n & [= <-] & H)]; [done| |auto with csms].
  apply bind_pure in H as [(e' & _ & ? & _)|(u & _ & H)]; [done| |destruct x; auto with csms].
  apply bind_pure in H as [(e' & _ & ? & _)|(l & [= <-] & H)]; [done| |auto with csms].
  apply bind_pure in H as [(e' & _ & ? & _)|(u' & Hd & H)]; [done| |auto with csms].
  apply bind_pure in H as [(e' & _ & ? & _)|(u'' & Hx & H)]; [done| |auto with csms].
  injection H as <- _. apply station_ok in Hst. apply raise_if_ok in Hd. apply raise_if_ok in Hx.
  fold (other_versions s x db) in *. split_and!; [done| | |].
  - intros E. rewrite E in Hd. unfold today. simpl in Hd. apply negb_false_iff, Z.eqb_eq in Hd. done.
  - intros E. destruct (other_versions s x db); [done|]. unfold today. simpl in Hd. lia.
  - intros t Ht Heq. assert (existsb (λ t, tf_effective_from t =? e) (other_versions s x db) = true); [|congruence].
    apply existsb_exists. exists t. split; [by apply list_elem_of_In|lia].
Qed.

(** What a successful creation or edit writes: one version, with tiled bands,
    starting after today or, when it is the only one, today. *)
Record version_written (s : Z) (t : Tariff) (n : list BandInput) (db db' : Db) : Prop := mkWritten {
  written_station : ∃ st, stations db !! s = Some st ∧
    (∀ k t', tariffs db !! k = Some t' → k ≠ tf_id t → tf_station_id t' = s →
       today st db < tf_effective_from t ∧ tf_effective_from t' ≠ tf_effective_from t) ∧
    (today st db ≤ tf_effective_from t) ∧
    (∀ t', tariffs db !! tf_id t = Some t' → tf_station_id t' = s ∧ today st db < tf_effective_from t' ∧
       tf_used_at t' = None);
  written_of : tf_station_id t = s;
  written_rates : 0 ≤ tf_idle_rate t ∧ 0 ≤ tf_grace_minutes t;
  written_bands : tiles 0 1440 n ∧ Forall row_valid n;
  written_tables : tariffs db' = tariffs (put_version t n db) ∧
    tariff_bands db' = tariff_bands (put_version t n db) ∧
    stations db' = stations db ∧ db_now db' = db_now db;
}.

Lemma date_conditions s e x db st db' :
  kiem_ngay_hieu_luc s e None x db = (inr st, db') →
  today st db ≤ e ∧
  ∀ k t', (∀ k t, tariffs db !! k = Some t → tf_id t = k) → tariffs db !! k = Some t' → Some k ≠ x →
    tf_station_id t' = s → today st db < e ∧ tf_effective_from t' ≠ e.
Proof.
  intros (_ & He & Hne & Hdup)%ngay_hieu_luc_ok. split.
  - destruct (decide (other_versions s x db = [])) as [E|E]; [rewrite (He E); lia|specialize (Hne E); lia].
  - intros k t' Hid Hk Hx Hs.
    assert (t' ∈ other_versions s x db) as Hin.
    { apply list_elem_of_filter. split; [by rewrite (Hid k t' Hk)|]. apply elem_of_versions. eauto. }
    split; [|by apply Hdup]. apply Hne. intros E. rewrite E in Hin. by apply elem_of_nil in Hin.
Qed.

Lemma tariff_checks_ok i g db u db' : tariff_checks i g db = (inr u, db') → 0 ≤ i ∧ 0 ≤ g ∧ db' = db.
Proof.
  unfold tariff_checks, mbind, M_bind, raise_if.
  destruct (Z.ltb_spec i 0); [done|]. destruct (Z.ltb_spec g 0); [done|]. by intros [= _ <-].
Qed.

Lemma kiem_khung_gio_ok bands n : kiem_khung_gio bands = inr n → tiles 0 1440 n ∧ Forall row_valid n.
Proof. intros H. split; [by eapply check_bands_tiles|by eapply check_bands_valid]. Qed.

Lemma tao_bieu_gia_written owner s e i g bands db t rs db' :
  tariffs_ok db → tao_bieu_gia owner s e i g bands db = (inr (t, rs), db') →
  ∃ n, kiem_khung_gio bands = inr n ∧ version_written s t n db db' ∧ tariffs db !! tf_id t = None.
Proof.
  intros Hok H. unfold tao_bieu_gia in H.
  apply bind_pure in H as [(? & _ & ? & _)|(o & _ & H)]; [done| |auto with csms].
  apply bind_pure in H as [(? & _ & ? & _)|(st0 & _ & H)]; [done| |auto with csms].
  destruct (kiem_khung_gio bands) as [|n] eqn:Hn; [done|].
  apply bind_pure in H as [(? & _ & ? & _)|(st & Hst & H)]; [done| |auto with csms].
  pose proof (ngay_hieu_luc_ok _ _ _ _ _ _ Hst) as [Hs _]. apply date_conditions in Hst as [Htoday Hothers].
  apply bind_ok in H as (id & db1 & [= <- <-] & H).
  apply bind_ok in H as (u & db2 & (Hi & Hg & ->)%tariff_checks_ok & H).
  apply bind_ok in H as (dup & db2 & [= <- <-] & H). apply bind_ok in H as (u' & db2 & Hdup & H).
  change (tariffs (set_next_id _ ?d) !! _) with (tariffs d !! next_id d) in Hdup.
  destruct (tariffs db !! next_id db) eqn:Hfresh; [done|].
  injection Hdup as _ <-. injection H as <- _ <-.
  exists n. split_and!; [done| |done]. apply kiem_khung_gio_ok in Hn.
  split; try done; simpl.
  - exists st. split_and!; [done| |done|by rewrite Hfresh].
    intros k t' Hk _ Hst'. by apply (Hothers k t' (tariffs_id _ Hok)).
  - split_and!; try done. f_equal. symmetry. apply list_filter_all. intros b Hb Heq.
    apply (tariffs_no_orphans _ Hok) in Hb as [? ?]. congruence.
Qed.

Lemma edit_tariff_written owner s tid e i g bands db t db' :
  tariffs_ok db → edit_tariff owner s tid e i g bands db = (inr t, db') →
  ∃ n, kiem_khung_gio bands = inr n ∧ version_written s t n db db' ∧ tf_id t = tid.
Proof.
  intros Hok H. unfold edit_tariff in H.
  apply bind_pure in H as [(? & _ & ? & _)|(o & _ & H)]; [done| |auto with csms].
  apply bind_pure in H as [(? & _ & ? & _)|(st0 & _ & H)]; [done| |auto with csms].
  apply bind_pure in H as [(? & _ & ? & _)|(old & Hold & H)]; [done| |auto with csms].
  destruct (kiem_khung_gio bands) as [|n] eqn:Hn; [done|].
  apply bind_pure in H as [(? & _ & ? & _)|(st & Hst & H)]; [done| |auto with csms].
  pose proof (ngay_hieu_luc_ok _ _ _ _ _ _ Hst) as [Hs _]. apply date_conditions in Hst as [Htoday Hothers].
  apply co_the_sua_ok in Hold as (st' & Hs' & Hk & Hsid & Hfuture & Hused).
  rewrite Hs in Hs'. injection Hs' as <-.
  apply bind_ok in H as (u & db2 & (Hi & Hg & ->)%tariff_checks_ok & H). injection H as <- <-.
  exists n. split_and!; [done| |done]. apply kiem_khung_gio_ok in Hn. split; try done; simpl.
  exists st. split_and!; [done| |done|].
  - intros k t' Hk' Hne Hst'. apply (Hothers k t' (tariffs_id _ Hok)); congruence.
  - intros t' Ht'. rewrite Hk in Ht'. injection Ht' as <-. done.
Qed.

Lemma written_keeps s t n db db' : tariffs_ok db → version_written s t n db db' → tariffs_ok db'.
Proof.
  intros Hok [(st & _ & Ho & _ & _) Hs [Hi Hg] [Ht Hv] (H1 & H2 & _ & _)].
  assert (tariffs_ok (put_version t n db)) as [A B C D E].
  { apply put_version_ok; try done. intros k t' Hk Hne Heq. apply (Ho k t' Hk Hne). congruence. }
  split; rewrite ?H1, ?H2; try done. intros k t' Hk. unfold bands_of. rewrite H2. by apply (D k t').
Qed.

(** The version in force on a day up to today is untouched by a write. *)
Lemma written_past s t n db db' :
  tariffs_ok db → version_written s t n db db' →
  ∀ s' st' d old, stations db !! s' = Some st' → d ≤ today st' db → effective s' d db = Some old →
    effective s' d db' = Some old ∧ bands_of (tf_id old) db' = bands_of (tf_id old) db.
Proof.
  intros Hok Hw s' st' d old Hst' Hd Hold. pose proof (written_keeps _ _ _ _ _ Hok Hw) as Hok'.
  rewrite effective_iff in Hold |- * by done. destruct Hold as ([k Hk] & Hs & He & Hmax).
  destruct Hw as [(st & Hst & Ho & _ & Hprev) Hsid _ _ (H1 & H2 & _ & _)].
  pose proof (tariffs_id _ Hok k old Hk) as Hkid.
  assert (s' = s → st' = st) as Hsame by (intros ->; congruence).
  assert (k ≠ tf_id t) as Hne.
  { intros ->. destruct (Hprev old Hk) as (Hps & Hpf & _). assert (s' = s) as Heq by congruence.
    rewrite (Hsame Heq) in Hd. lia. }
  assert (tf_station_id t = s' → d < tf_effective_from t) as Hnew.
  { intros Heq. assert (s' = s) as -> by congruence. rewrite (Hsame eq_refl) in Hd.
    destruct (Ho k old Hk Hne Hs). lia. }
  split.
  - unfold in_force. rewrite H1. simpl. split_and!; try done.
    + exists k. by rewrite lookup_insert_ne.
    + intros k' t' [[<- <-]|[_ Hk']]%lookup_insert_Some Hs' He'; [specialize (Hnew Hs'); lia|by apply (Hmax k')].
  - unfold bands_of at 1. rewrite H2, Hkid. by apply bands_of_put_ne.
Qed.

(** ** The operations on tariffs as one transition relation *)

Inductive pricing_step : Db → Db → Prop :=
  | step_create owner s e i g bands db r db' :
      tao_bieu_gia owner s e i g bands db = (inr r, db') → pricing_step db db'
  | step_edit owner s tid e i g bands db t db' :
      edit_tariff owner s tid e i g bands db = (inr t, db') → pricing_step db db'
  | step_mark s tid now db t db' :
      danh_dau_bieu_gia_da_dung s tid now db = (inr t, db') → pricing_step db db'
  | step_time db later : db_now db ≤ later → pricing_step db (set_db_now later db).

(** The same version but for the mark that an invoice uses it. *)
Definition same_price (t t' : Tariff) : Prop := t' = set_tf_used_at (tf_used_at t') t.

Lemma same_price_refl t : same_price t t.
Proof. by destruct t. Qed.

Lemma mark_used_cases s tid now db t db' :
  danh_dau_bieu_gia_da_dung s tid now db = (inr t, db') →
  ∃ old u, tariffs db !! tid = Some old ∧ t = set_tf_used_at u old ∧ tf_station_id old = s ∧
    (tf_used_at old ≠ None → u = tf_used_at old) ∧ u ≠ None ∧
    db' = set_tariffs (<[tid := t]> (tariffs db)) db.
Proof.
  intros H. unfold danh_dau_bieu_gia_da_dung in H.
  apply bind_pure in H as [(? & _ & ? & _)|(st & _ & H)]; [done| |auto with csms].
  apply bind_pure in H as [(? & _ & ? & _)|(old & [Hk Hs]%locked_tariff_ok & H)]; [done| |auto with csms].
  apply bind_pure in H as [(? & _ & ? & _)|(ts & _ & H)]; [done| |auto with csms].
  destruct (tf_used_at old) as [u|] eqn:Hu.
  - apply bind_ok in H as (x & db1 & [= _ <-] & H). pose proof H as [Hk' _]%locked_tariff_ok.
    pose proof (pure_locked_tariff s tid db) as Hp. rewrite H in Hp. simpl in Hp. subst db'.
    rewrite Hk in Hk'. injection Hk' as <-. exists old, (Some u).
    assert (set_tf_used_at (Some u) old = old) as Heq by (destruct old; simpl in *; by subst).
    split_and!; try done. rewrite insert_id by done. by destruct db.
  - apply bind_ok in H as (x & db1 & [= _ <-] & H). pose proof H as [Hk' _]%locked_tariff_ok.
    simpl in Hk'. rewrite lookup_alter_eq, Hk in Hk'. injection Hk' as <-.
    match type of H with locked_tariff _ _ ?d = _ => pose proof (pure_locked_tariff s tid d) as Hp end.
    rewrite H in Hp. simpl in Hp. subst db'. exists old, (Some ts). split_and!; try done.
    f_equal. apply map_eq. intros k. destruct (decide (k = tid)) as [->|].
    + by rewrite lookup_alter_eq, Hk, lookup_insert_eq.
    + by rewrite lookup_alter_ne, lookup_insert_ne.
Qed.

Lemma mark_keeps tid old u db :
  tariffs_ok db → tariffs db !! tid = Some old →
  tariffs_ok (set_tariffs (<[tid := set_tf_used_at u old]> (tariffs db)) db).
Proof.
  intros [A B C D E] Hk.
  assert (∀ k t', <[tid := set_tf_used_at u old]> (tariffs db) !! k = Some t' →
    ∃ t, tariffs db !! k = Some t ∧ tf_id t' = tf_id t ∧ tf_station_id t' = tf_station_id t ∧
      tf_effective_from t' = tf_effective_from t ∧ tf_idle_rate t' = tf_idle_rate t ∧
      tf_grace_minutes t' = tf_grace_minutes t) as Hl.
  { intros k t' [[<- <-]|[_ Hk']]%lookup_insert_Some; [exists old|exists t']; done. }
  split; simpl.
  - intros k t' (t & Hkt & -> & _)%Hl. eauto.
  - intros k k' t1 t2 (t3 & H3 & _ & -> & -> & _)%Hl (t4 & H4 & _ & -> & -> & _)%Hl. eauto.
  - intros k t' (t & Hkt & _ & _ & _ & -> & ->)%Hl. eauto.
  - intros k t' (t & Hkt & _)%Hl. by apply (D k t).
  - intros b Hb. destruct (decide (tid = tb_tariff_id b)) as [->|]; [rewrite lookup_insert_eq; eauto|].
    rewrite lookup_insert_ne by done. auto.
Qed.

Lemma mark_past tid old u db s d t :
  tariffs_ok db → tariffs db !! tid = Some old → effective s d db = Some t →
  ∃ t', effective s d (set_tariffs (<[tid := set_tf_used_at u old]> (tariffs db)) db) = Some t' ∧ same_price t t'.
Proof.
  intros Hok Hk Ht. pose proof (mark_keeps tid old u db Hok Hk) as Hok'.
  apply effective_iff in Ht as ([k Hkt] & Hs & Hd & Hmax); [|done].
  set (t' := if decide (k = tid) then set_tf_used_at u old else t).
  assert (same_price t t' ∧ tf_station_id t' = tf_station_id t ∧ tf_effective_from t' = tf_effective_from t) as (Hp & E1 & E2).
  { unfold t'. case_decide as Hkk; [|split; [apply same_price_refl|done]].
    subst k. rewrite Hk in Hkt. injection Hkt as <-. done. }
  exists t'. split; [|done]. apply effective_iff; [done|]. unfold in_force. simpl. rewrite E1, E2. split_and!; try done.
  - exists k. unfold t'. case_decide as Hkk; [subst k; apply lookup_insert_eq|by rewrite lookup_insert_ne].
  - intros k' x [[<- <-]|[_ Hx]]%lookup_insert_Some; [apply (Hmax tid old Hk)|apply (Hmax k' x Hx)].
Qed.

(** One step of any kind keeps the invariant and every price up to today. *)
Lemma pricing_step_past db db' :
  (∀ tz t t', t ≤ t' → local_date (zoneinfo tz) t ≤ local_date (zoneinfo tz) t') →
  tariffs_ok db → pricing_step db db' →
  tariffs_ok db' ∧ stations db' = stations db ∧ db_now db ≤ db_now db' ∧
  ∀ s st d old, stations db !! s = Some st → d ≤ today st db → effective s d db = Some old →
    ∃ new, effective s d db' = Some new ∧ same_price old new ∧
      bands_of (tf_id old) db' = bands_of (tf_id old) db.
Proof.
  intros Hmono Hok Hstep.
  assert (∀ s t n db', version_written s t n db db' →
    tariffs_ok db' ∧ stations db' = stations db ∧ db_now db ≤ db_now db' ∧
    ∀ s st d old, stations db !! s = Some st → d ≤ today st db → effective s d db = Some old →
    ∃ new, effective s d db' = Some new ∧ same_price old new ∧ bands_of (tf_id old) db' = bands_of (tf_id old) db) as Hwrite.
  { intros s t n db1 Hw. pose proof (written_tables _ _ _ _ _ Hw) as (_ & _ & H3 & H4).
    split_and!; [by eapply written_keeps|done|lia|]. intros s' st' d old Hst Hd Hold.
    destruct (written_past _ _ _ _ _ Hok Hw s' st' d old Hst Hd Hold). exists old. split_and!; try done. apply same_price_refl. }
  destruct Hstep as [owner s e i g bands db [t rs] db' H|owner s tid e i g bands db t db' H|s tid now db t db' H|db later H].
  - apply tao_bieu_gia_written in H as (n & _ & Hw & _); [by eapply Hwrite|done].
  - apply edit_tariff_written in H as (n & _ & Hw & _); [by eapply Hwrite|done].
  - apply mark_used_cases in H as (old & u & Hk & -> & _ & _ & _ & ->).
    split_and!; [by apply mark_keeps|done|simpl; lia|]. intros s' st d old' Hst Hd Hold.
    destruct (mark_past tid old u db s' d old' Hok Hk Hold) as (t' & ? & ?). exists t'. done.
  - split_and!; [by destruct Hok|done|simpl; lia|]. intros s st d old _ _ Hold. exists old.
    split_and!; [exact Hold|apply same_price_refl|done].
Qed.

End theorems.
#[export] Hint Resolve pure_station pure_locked_tariff pure_clock : csms.

(** The tariff a date gets: [lay_bieu_gia_hieu_luc] fails only for an
    unknown station; otherwise it returns a version of that station that has
    started by the (station-local) date and such that no started version of the
    station is newer, or nothing exactly when none has started. It never writes. *)
Theorem lay_bieu_gia_hieu_luc_spec `{Deployment} s ngay db :
  match lay_bieu_gia_hieu_luc s ngay db with
  | (inl e, db') => db' = db ∧ e = TariffNotFoundError ∧ stations db !! s = None
  | (inr o, db') => db' = db ∧ ∃ st, stations db !! s = Some st ∧
      let d := match ngay with OnDate d => d | AtTime t => local_date (zoneinfo (st_timezone st)) t end in
      match o with
      | Some t => in_force s d db t
      | None => ∀ k t, tariffs db !! k = Some t → tf_station_id t = s → d < tf_effective_from t
      end
  end.
Proof.
  unfold lay_bieu_gia_hieu_luc, _station, mbind, M_bind, gets.
  destruct (stations db !! s) as [st|]; simpl; [|done]. split; [done|]. exists st. split; [done|].
  destruct (effective _ _ db) as [t|] eqn:E; destruct ngay; first [by apply effective_Some in E|by rewrite effective_None in E].
Qed.

Definition demo_deployment : Deployment := {|
  zoneinfo := λ _, ho_chi_minh;
  wallet_manual_topup_max_vnd := 10000000;
  wallet_reserve_vnd := 10000;
  charging_minimum_kwh := 5;
  driver_notification_retention_days := 90;
  charging_abnormal_offline_seconds := 21600;
  billing_available_confirms_unplug := false;
  ocpp_heartbeat_interval_seconds := 60;
  demo_driver_unplug_enabled := false;
  power_command_timeout_seconds := 30;
  alert_error_window_seconds := 300;
  alert_error_threshold := 3;
  alert_offline_grace_seconds := 120;
  alert_email_recipients := ["ops@example.com"];
  alert_email_max_attempts := 5;
  alert_smtp_enabled := true;
  smtp_enabled := true;
  smtp_timeout_us := 5000000;
|}.
#[local] Existing Instance demo_deployment.

Definition demo_bands : list BandInput :=
  [mkBandInput 1320 360 1000 "dem"; mkBandInput 360 1320 3000 "ngay"].

Definition demo_station_db : Db :=
  set_stations {[ 30 := mkStation 30 3 "Tram A" "active" "Asia/Ho_Chi_Minh" None "1 Le Loi" 10776900 106700900 1 0 ]} (set_next_id 200 demo_db).

(** A station with its first tariff. *)
Definition demo_tariff_db : Db := (tao_bieu_gia (Some 3) 30 0 500 10 demo_bands demo_station_db).2.

Lemma demo_station_ok : tariffs_ok demo_station_db.
Proof.
  assert (∀ k t, ¬ tariffs demo_station_db !! k = Some t) as H.
  { intros k t. change ((∅ : gmap Z Tariff) !! k ≠ Some t). by rewrite lookup_empty. }
  split; try (intros; exfalso; eapply H; eassumption). intros b Hb. by apply elem_of_nil in Hb.
Qed.

Lemma demo_tariff_ok : tariffs_ok demo_tariff_db.
Proof.
  destruct (tao_bieu_gia_written (Some 3) 30 0 500 10 demo_bands demo_station_db
    (mkTariff 200 30 0 None 500 10) (band_rows 200 [mkBandInput 0 360 1000 "dem"; mkBandInput 360 1320 3000 "ngay";
      mkBandInput 1320 1440 1000 "dem"]) demo_tariff_db demo_station_ok) as (n & _ & Hw & _).
  - vm_compute. reflexivity.
  - by eapply written_keeps; [apply demo_station_ok|].
Qed.


