(* ===== verification/Eligibility.v ===== *)
(** * Eligibility: may a driver start charging

    Models [src/src/modules/wallet/eligibility.py]. *)

From S2P Require Import Prelude Bands Clock Store AuditTrail Wallet Pricing.

Inductive EligibilityReason := wallet_low | wallet_missing | wallet_locked | tariff_unavailable.

Record ChargingEligibility := mkEligibility {
  allowed : bool;
  reason : option EligibilityReason;
  balance_vnd : option Z;
  minimum_balance_vnd : option Z;
  tariff_id : option Z;
}.

(** [select(func.max(TariffBand.energy_rate_vnd_per_kwh))] *)
Definition highest_rate (tariff : Z) (db : Db) : option Z :=
  match tb_energy_rate <$> bands_of tariff db with
  | [] => None
  | r :: rs => Some (foldr Z.max r rs)
  end.

Section eligibility.
Context {dep : Deployment}.

Definition du_so_du_de_sac (driver_id station_id : Z) (now : option Z) : Tx ChargingEligibility :=
  t ← clock now;
  tariff ← lay_bieu_gia_hieu_luc station_id (AtTime t);
  wallet ← gets (wallet_of_driver driver_id);
  let balance := w_balance_vnd <$> wallet in
  minimum ← match tariff with
            | None => mret (Some wallet_reserve_vnd)
            | Some tf => gets (λ db, Z.mul charging_minimum_kwh <$> highest_rate (tf_id tf) db)
            end;
  let tid := tf_id <$> tariff in
  mret (match minimum with
        | None => mkEligibility false (Some tariff_unavailable) balance None tid
        | Some m =>
            match wallet with
            | None => mkEligibility false (Some wallet_missing) None (Some m) tid
            | Some w =>
                if decide (w_status w = active)
                then let ok := (0 <=? w_balance_vnd w) && (m <=? w_balance_vnd w) in
                     mkEligibility ok (if ok then None else Some wallet_low) balance (Some m) tid
                else mkEligibility false (Some wallet_locked) balance (Some m) tid
            end
        end).

Lemma highest_rate_bounds tid db m :
  highest_rate tid db = Some m → (∃ b, b ∈ bands_of tid db ∧ tb_energy_rate b = m) ∧
    ∀ b, b ∈ bands_of tid db → tb_energy_rate b ≤ m.
Proof.
  unfold highest_rate. destruct (bands_of tid db) as [|b l]; [done|]. rewrite fmap_cons.
  intros [= <-]. induction l as [|c l [(x & Hx & IHx) IHm]].
  { split; [exists b; split; [set_solver|done]|]. intros x ->%list_elem_of_singleton. done. }
  rewrite fmap_cons. cbn [foldr]. split.
  - destruct (Z.max_spec (tb_energy_rate c) (foldr Z.max (tb_energy_rate b) (tb_energy_rate <$> l))) as [[_ ->]|[_ ->]].
    + exists x. split; [set_solver|done].
    + exists c. split; [set_solver|done].
  - intros y Hy. assert (y = c ∨ y ∈ b :: l) as [->|H'] by set_solver; [lia|]. specialize (IHm y H'). lia.
Qed.

(** The money a driver must have on day [d]: five kilowatt-hours (the setting)
    at the dearest band of the version in force, or the reserve without one. *)
Definition required (s d : Z) (db : Db) (m : Z) : Prop :=
  match effective s d db with
  | None => m = wallet_reserve_vnd
  | Some t => ∃ r, m = charging_minimum_kwh * r ∧
      (∃ b, b ∈ bands_of (tf_id t) db ∧ tb_energy_rate b = r) ∧
      ∀ b, b ∈ bands_of (tf_id t) db → tb_energy_rate b ≤ r
  end.

Lemma bands_nonempty db k t : tariffs_ok db → tariffs db !! k = Some t → bands_of k db ≠ [].
Proof.
  intros Hok Hk. destruct (tariffs_bands _ Hok k t Hk) as (n & -> & Ht & _). by destruct n.
Qed.

Lemma minimum_found s d db t :
  tariffs_ok db → effective s d db = Some t → is_Some (highest_rate (tf_id t) db).
Proof.
  intros Hok Ht. apply effective_Some in Ht as ([k Hk] & _). rewrite (tariffs_id _ Hok k t Hk).
  pose proof (bands_nonempty _ _ _ Hok Hk). unfold highest_rate. destruct (bands_of k db); [done|]. rewrite fmap_cons. eauto.
Qed.

(** Who may charge: with the tariff table in order and a known station,
    [du_so_du_de_sac] answers without writing, and it allows the driver exactly
    when he has an active wallet whose balance is not negative and at least the
    required minimum; a refusal names the first reason that applies, and the
    tariff is never reported as unavailable. *)
Theorem du_so_du_de_sac_spec driver s st now db :
  tariffs_ok db → stations db !! s = Some st →
  let d := local_date (zoneinfo (st_timezone st)) (default (db_now db) now) in
  ∃ r m, du_so_du_de_sac driver s now db = (inr r, db) ∧ required s d db m ∧
    minimum_balance_vnd r = Some m ∧
    (allowed r = true ↔ ∃ w, wallet_of_driver driver db = Some w ∧ w_status w = active ∧
       0 ≤ w_balance_vnd w ∧ m ≤ w_balance_vnd w) ∧
    reason r = match wallet_of_driver driver db with
               | None => Some wallet_missing
               | Some w => if decide (w_status w = active)
                           then if allowed r then None else Some wallet_low
                           else Some wallet_locked
               end.
Proof.
  intros Hok Hst d. unfold du_so_du_de_sac.
  rewrite (bind_ok_step _ _ _ (default (db_now db) now) db) by done.
  rewrite (bind_ok_step _ _ _ (effective s d db) db).
  2: { unfold lay_bieu_gia_hieu_luc, _station, mbind, M_bind, gets. by rewrite Hst. }
  rewrite (bind_ok_step _ _ _ (wallet_of_driver driver db) db) by done.
  assert (∃ m, required s d db m ∧ (match effective s d db with
    | None => mret (Some wallet_reserve_vnd)
    | Some tf => gets (λ db, Z.mul charging_minimum_kwh <$> highest_rate (tf_id tf) db) end : Tx (option Z)) db
    = (inr (Some m), db)) as (m & Hm & Hrun).
  { unfold required. destruct (effective s d db) as [t|] eqn:E; [|by eexists].
    destruct (minimum_found _ _ _ _ Hok E) as [r Hr]. exists (charging_minimum_kwh * r).
    split; [exists r; split; [done|by apply highest_rate_bounds]|]. unfold gets. by rewrite Hr. }
  rewrite (bind_ok_step _ _ _ _ _ Hrun). eexists _, m. split; [reflexivity|]. split; [done|].
  destruct (wallet_of_driver driver db) as [w|]; [|split_and!; [done|split; [done|naive_solver]|done]].
  destruct (decide (w_status w = active)) as [Ha|Ha]; simpl; [|split_and!; [done|split; [done|naive_solver]|done]].
  split_and!; [done| |done]. rewrite andb_true_iff, !Z.leb_le. naive_solver.
Qed.
End eligibility.

Lemma du_so_du_de_sac_spec_witness :
  ∃ r, du_so_du_de_sac (dep := demo_deployment) 2 30 None demo_tariff_db = (inr r, demo_tariff_db) ∧
    allowed r = false ∧ reason r = Some wallet_low.
Proof.
  destruct (du_so_du_de_sac_spec (dep := demo_deployment) 2 30
    (mkStation 30 3 "Tram A" "active" "Asia/Ho_Chi_Minh" None "1 Le Loi" 10776900 106700900 1 0) None demo_tariff_db demo_tariff_ok eq_refl)
    as (r & m & H & _).
  exists r. split; [exact H|]. revert H. vm_compute. intros H. injection H as <-. split; reflexivity.
Defined.
