(* ===== verification/Invoicing.v ===== *)
(** * Invoicing: from meter readings and occupation to an invoice

    Models [src/src/modules/billing/invoicing.py] up to [_create_invoice]
    ([lap_hoa_don] is in [Closure.v], after the notifications it sends). *)

From S2P Require Import Prelude Money Bands Clock Segmentation Text Store AuditTrail Wallet Pricing.

Definition LEGACY_ROUNDING_RULE : string :=
  "Tiền điện: làm tròn nửa lên đến đồng nguyên ở từng đoạn rồi cộng tổng. Phí chiếm trụ: khoảng cuối đã ghi nhận đến StopTransaction; trừ ân hạn một lần theo biểu giá lúc bắt đầu chiếm trụ, làm tròn lên theo phút một lần; mỗi phút bắt đầu dùng biểu giá hiệu lực theo ngày địa phương của trạm.".
Definition ROUNDING_RULE : string :=
  "Tiền điện: làm tròn nửa lên đến đồng nguyên ở từng đoạn rồi cộng tổng. Phí chiếm trụ: khoảng đã xác nhận kết thúc sạc đến lúc rút súng; trừ ân hạn một lần theo biểu giá lúc bắt đầu khoảng liên tục, làm tròn lên theo phút một lần; mỗi phút bắt đầu dùng biểu giá hiệu lực theo ngày địa phương của trạm. Khoảng tạm dừng rồi sạc lại không thu phí.".

(** A pure computation inside a transaction. *)
Definition lift {A} (m : Exn + A) : Tx A := λ db, (m, db).

(** ** Meter readings *)

Definition _valid_reading (value : option Z) : bool :=
  match value with Some v => 0 <=? v | None => false end.

(** The query on [charging_meter_samples], in order of time and id. *)
Definition energy_samples (charging : ChargingSession) (end_ : Z) (db : Db) : list MeterSample :=
  sort_by ms_timestamp
    (filter (λ m, ms_session_id m = cs_id charging ∧ cs_started_at charging ≤ ms_timestamp m ∧
        ms_timestamp m ≤ end_ ∧ ms_measurand m = "Energy.Active.Import.Register" ∧
        ms_phase m = "" ∧ ms_location m = "Outlet") (meter_samples db)).

Fixpoint add_samples (readings : gmap Z Z) (samples : list MeterSample) : Exn + gmap Z Z :=
  match samples with
  | [] => inr readings
  | s :: rest =>
      if negb (bool_decide (ms_unit s = "Wh") && _valid_reading (Some (ms_value_u s)))
      then inl (InvalidInvoice "invoice_invalid_meter")
      else if bool_decide (is_Some (readings !! ms_timestamp s) ∧
                readings !! ms_timestamp s ≠ Some (ms_value_u s))
      then inl (InvalidInvoice "invoice_conflicting_meter")
      else add_samples (<[ms_timestamp s := ms_value_u s]> readings) rest
  end.

Definition ordered_readings (readings : gmap Z Z) : list MeterValue :=
  (λ '(t, v), mkMeter t v) <$> sort_by fst (map_to_list readings).

Definition meter_decreased (l : list MeterValue) : bool :=
  existsb (λ '(a, b), energy_uwh b <? energy_uwh a) (pairwise l).

Definition _meter_values (charging : ChargingSession) (end_ : Z) : Tx (list MeterValue) :=
  stop ← some_or (if _valid_reading (Some (cs_meter_start_uwh charging)) &&
                     _valid_reading (cs_meter_stop_uwh charging)
                  then cs_meter_stop_uwh charging else None) (InvalidInvoice "invoice_invalid_meter");
  samples ← gets (energy_samples charging end_);
  readings ← lift (add_samples (<[end_ := stop]> {[cs_started_at charging := cs_meter_start_uwh charging]})
                     samples);
  let ordered := ordered_readings readings in
  raise_if (meter_decreased ordered) (InvalidInvoice "invoice_meter_decreased");;
  mret ordered.

(** ** Tariffs of the days of a session *)

Definition frame_of (version : string) (b : BandInput) : TariffFrame :=
  mkFrame (_clock (band_start_min b)) (_clock (band_end_min b)) (energy_rate_vnd_per_kwh b) version
    (if decide (strip (label b) = "")
     then _clock (band_start_min b) +:+ "–" +:+ _clock (band_end_min b) else strip (label b)).

Definition band_input (b : TariffBand) : BandInput :=
  mkBandInput (tb_start_min b) (tb_end_min b) (tb_energy_rate b) (tb_label b).

Section invoicing.
Context {dep : Deployment}.

(** The frames of a version: marked as used, its bands validated again. *)
Definition version_frames (station_id tid : Z) (mark_used : bool) : Tx (list TariffFrame) :=
  when mark_used (danh_dau_bieu_gia_da_dung station_id tid None;; mret ());;
  bands ← gets (λ db, sort_by tb_start_min (bands_of tid db));
  match kiem_khung_gio (band_input <$> bands) with
  | inl _ => raise (InvalidInvoice "invoice_invalid_tariff")
  | inr normalized => mret (frame_of (uuid_str tid) <$> normalized)
  end.

Definition Daily : Type := gmap Z Tariff * gmap Z (list TariffFrame).

(** [while day <= last]: [n] days from [day]. [selected] is one object of the
    session, so the row kept for the day is read after the usage mark. *)
Fixpoint daily_loop (station_id : Z) (mark_used : bool) (day : Z) (n : nat)
    (cached : gmap Z (list TariffFrame)) (acc : Daily) : Tx Daily :=
  match n with
  | O => mret acc
  | S n' =>
      s ← lay_bieu_gia_hieu_luc station_id (OnDate day);
      selected ← some_or s (InvalidInvoice "invoice_missing_tariff");
      frames ← match cached !! tf_id selected with
               | Some f => mret f
               | None => version_frames station_id (tf_id selected) mark_used
               end;
      row ← locked_tariff station_id (tf_id selected);
      daily_loop station_id mark_used (day + 1) n' (<[tf_id selected := frames]> cached)
        (<[day := row]> acc.1, <[day := frames]> acc.2)
  end.

Definition _daily_tariffs (station : Station) (start end_ : Z) (mark_used : bool) : Tx Daily :=
  let tz := zoneinfo (st_timezone station) in
  let day := local_date tz start in
  let last := local_date tz (end_ - 1) in
  daily_loop (st_id station) mark_used day (Z.to_nat (last - day + 1)) ∅ (∅, ∅).

(** ** Idle lines *)

Definition idle_fee (from to grace rate : Z) : Exn + (Z * Z) :=
  match tinh_phi_chiem_tru (Some (Aware from)) (Aware to) (PyInt grace) (PyInt rate) with
  | inr r => inr r
  | inl _ => inl ValueError
  end.

(** [while count]: every round bills at least one minute, so [count] rounds
    are enough. *)
Fixpoint idle_loop (fuel : nat) (tz : Zone) (versions : gmap Z Tariff) (invoice_id end_ anchor count : Z)
  : Exn + list InvoiceLine :=
  match fuel with
  | O => inr []
  | S fuel' =>
      if count =? 0 then inr []
      else
        let day := local_date tz anchor in
        tariff ← from_option_err KeyError (versions !! day);
        let midnight := Clock.combine tz (day + 1) 0 in
        let until_midnight := midnight - anchor in
        let span := Z.min count ((until_midnight + 59999999) / 60000000) in
        let line_end := Z.min end_ (anchor + span * minute_us) in
        '(_, amount) ← idle_fee anchor line_end 0 (tf_idle_rate tariff);
        rest ← idle_loop fuel' tz versions invoice_id end_ (anchor + span * minute_us) (count - span);
        mret (mkLine invoice_id idle_line day anchor line_end 0 (tf_idle_rate tariff)
                "Phí chiếm trụ" false (tf_id tariff) amount :: rest)
  end.

Definition _idle_lines (charging : ChargingSession) (station : Station) (end_ : Z)
    (versions : gmap Z Tariff) (invoice_id : Z) (idle_start : option Z) : Exn + list InvoiceLine :=
  match (match idle_start with Some i => Some i | None => cs_idle_since charging end) with
  | None => inr []
  | Some idle =>
      if (idle <? cs_started_at charging) || (end_ <? idle)
      then inl (InvalidInvoice "invoice_invalid_idle_interval")
      else if idle =? end_ then inr []
      else
        let tz := zoneinfo (st_timezone station) in
        initial ← from_option_err KeyError (versions !! local_date tz idle);
        '(count, _) ← idle_fee idle end_ (tf_grace_minutes initial) 1;
        idle_loop (Z.to_nat count) tz versions invoice_id end_
          (idle + tf_grace_minutes initial * minute_us) count
  end.

(** ** The invoice *)

Definition energy_line_of (invoice_id : Z) (s : Segment) : Exn + InvoiceLine :=
  tid ← from_option_err ValueError (canonical_uuid (seg_tariff_version s));
  mret (mkLine invoice_id energy_line (seg_local_date s) (seg_start s) (seg_end s)
    (energy_consumed_uwh s) (seg_price s) (seg_frame_label s)
    (start_interpolated s || end_interpolated s) tid (amount_vnd s)).

Fixpoint energy_lines (invoice_id : Z) (l : list Segment) : Exn + list InvoiceLine :=
  match l with
  | [] => inr []
  | s :: rest => x ← energy_line_of invoice_id s; xs ← energy_lines invoice_id rest; mret (x :: xs)
  end.

Fixpoint interval_lines (charging : ChargingSession) (station : Station) (versions : gmap Z Tariff)
    (invoice_id : Z) (l : list OccupationInterval) : Exn + list InvoiceLine :=
  match l with
  | [] => inr []
  | i :: rest =>
      e ← from_option_err AssertionError (oi_ended_at i);
      x ← _idle_lines charging station e versions invoice_id (Some (oi_started_at i));
      xs ← interval_lines charging station versions invoice_id rest;
      mret (x ++ xs)
  end.

Definition confirmed_intervals (session_id : Z) (db : Db) : list OccupationInterval :=
  sort_by oi_started_at
    (filter (λ i, oi_session_id i = session_id ∧ oi_confirmed i = true) (occupation_intervals db)).

(** The constraints of the two tables. *)
Definition line_ok (l : InvoiceLine) : bool :=
  (il_started_at l <? il_ended_at l) && (0 <=? il_energy_uwh l) && (0 <=? il_rate_vnd l) &&
  (0 <=? il_amount_vnd l) &&
  (bool_decide (il_type l = energy_line) || (il_energy_uwh l =? 0)) &&
  negb (blank (il_band_label l)).

Definition save_invoice (invoice : Invoice) (lines : list InvoiceLine) : Tx () :=
  dup ← gets (λ db, select_where (λ i, inv_session_id i =? inv_session_id invoice) (invoices db));
  raise_if (bool_decide (is_Some dup)) (IntegrityError "uq_invoices_session");;
  pk ← gets (λ db, invoices db !! inv_id invoice);
  raise_if (bool_decide (is_Some pk)) (IntegrityError "invoices_pkey");;
  raise_if (inv_total_vnd invoice <? 0) (IntegrityError "ck_invoices_total");;
  modify (λ db, set_invoices (<[inv_id invoice := invoice]> (invoices db)) db);;
  raise_if (negb (forallb line_ok lines)) (IntegrityError "ck_invoice_lines");;
  modify (λ db, set_invoice_lines (invoice_lines db ++ lines) db).

Definition seg_result {A} (m : SegErr + A) : Exn + A :=
  match m with inr a => inr a | inl _ => inl ValueError end.

(** The billed occupation of a session and the last instant that needs a tariff. *)
Definition billed_occupation (charging : ChargingSession) (end_ : Z) : Tx (list OccupationInterval * Z) :=
  if cs_billing_lifecycle_version charging =? 1 then
    released ← some_or (cs_connector_released_at charging) AssertionError;
    intervals ← gets (confirmed_intervals (cs_id charging));
    raise_if ((1 <? Z.of_nat (length intervals)) ||
              existsb (λ i, negb (bool_decide (oi_ended_at i = Some released ∧
                                               oi_end_reason i = Some "released"))) intervals)
      (InvalidInvoice "invoice_invalid_occupation_history");;
    mret (intervals, match intervals with [] => end_ | _ => Z.max end_ released end)
  else mret ([], end_).

(** The lines of the invoice, from the readings and the tariffs of the days. *)
Definition invoice_lines_of (charging : ChargingSession) (station : Station) (end_ : Z)
    (readings : list MeterValue) (daily : Daily) (intervals : list OccupationInterval) (invoice_id : Z)
  : Exn + list InvoiceLine :=
  segments ← seg_result (chia_doan (cs_started_at charging) end_ readings daily.2
                           (zoneinfo (st_timezone station)));
  if negb (sumZ (energy_consumed_uwh <$> segments) =?
           match head readings, last readings with
           | Some a, Some b => energy_uwh b - energy_uwh a | _, _ => 0 end)
  then inl (InvalidInvoice "invoice_energy_mismatch")
  else
    energy ← energy_lines invoice_id segments;
    idle ← (if cs_billing_lifecycle_version charging =? 0
            then _idle_lines charging station end_ daily.1 invoice_id None
            else interval_lines charging station daily.1 invoice_id intervals);
    mret (energy ++ idle).

Definition _create_invoice (charging : ChargingSession) (end_ : Z) : Tx Invoice :=
  cp ← gets (λ db, charge_points db !! cs_charge_point_id charging);
  cn ← gets (λ db, connectors db !! cs_connector_id charging);
  '(cp, cn) ← match cp, cn with
              | Some a, Some b => mret (a, b)
              | _, _ => raise (InvalidInvoice "invoice_session_mismatch")
              end;
  raise_if (negb (cn_charge_point_id cn =? cs_charge_point_id charging))
    (InvalidInvoice "invoice_session_mismatch");;
  driver ← some_or (cs_driver_id charging) (InvalidInvoice "invoice_missing_driver");
  raise_if (negb (bool_decide (cs_authorization_status charging = "Accepted")))
    (InvalidInvoice "invoice_unauthorized_session");;
  st ← gets (λ db, stations db !! cp_station_id cp);
  station ← some_or st AssertionError;
  raise_if (end_ <=? cs_started_at charging) (InvalidInvoice "invoice_invalid_interval");;
  readings ← _meter_values charging end_;
  '(intervals, billing_end) ← billed_occupation charging end_;
  daily ← _daily_tariffs station (cs_started_at charging) billing_end true;
  id ← fresh_id;
  lines ← lift (invoice_lines_of charging station end_ readings daily intervals id);
  let total := sumZ (il_amount_vnd <$> lines) in
  raise_if ((MAX_VND <? total) || existsb (λ l, MAX_VND <? il_amount_vnd l) lines)
    (InvalidInvoice "invoice_amount_overflow");;
  now ← gets db_now;
  let invoice := mkInvoice id (cs_id charging) driver (st_id station) total
    (if cs_billing_lifecycle_version charging =? 1 then ROUNDING_RULE else LEGACY_ROUNDING_RULE) now in
  save_invoice invoice lines;;
  mret invoice.
End invoicing.

(** ** Readings are in order *)

Lemma sorted_items_strict (m : gmap Z Z) :
  StronglySorted (λ a b, a.1 < b.1) (sort_by fst (map_to_list m)).
Proof.
  pose proof (sort_by_sorted fst (map_to_list m)) as Hs.
  assert (NoDup (sort_by fst (map_to_list m)).*1) as Hn
    by (rewrite sort_by_perm; apply NoDup_fst_map_to_list).
  induction Hs as [|x l Hs IH Hx]; [constructor|]. rewrite fmap_cons in Hn.
  apply NoDup_cons in Hn as [Hnx Hn]. constructor; [by apply IH|].
  rewrite Forall_forall in Hx |- *. intros y Hy. specialize (Hx y Hy). unfold key_le in Hx.
  assert (x.1 ≠ y.1); [|lia]. intros Heq. apply Hnx. rewrite Heq. by apply list_elem_of_fmap_2.
Qed.

Lemma elem_of_ordered m r : r ∈ ordered_readings m ↔ m !! mv_timestamp r = Some (energy_uwh r).
Proof.
  unfold ordered_readings. rewrite list_elem_of_fmap. split.
  - intros ([t v] & -> & Hin). rewrite elem_of_sort_by in Hin. by apply elem_of_map_to_list in Hin.
  - intros H. exists (mv_timestamp r, energy_uwh r). split; [by destruct r|].
    rewrite elem_of_sort_by. by apply elem_of_map_to_list.
Qed.

Lemma ordered_readings_time m :
  StronglySorted (λ a b, mv_timestamp a < mv_timestamp b) (ordered_readings m).
Proof.
  unfold ordered_readings. induction (sorted_items_strict m) as [|[t v] l Hl IH Hx]; [constructor|].
  rewrite fmap_cons. constructor; [done|]. rewrite Forall_fmap. eapply Forall_impl; [exact Hx|]. by intros [].
Qed.

Lemma ordered_readings_ok m : meter_decreased (ordered_readings m) = false → readings_ok (ordered_readings m).
Proof.
  intros Hd. unfold readings_ok. pose proof (ordered_readings_time m) as Ht.
  apply pairwise_StronglySorted.
  { intros a b c [? ?] [? ?]. split; lia. }
  intros a b Hab. pose proof (pairwise_related _ _ _ _ Ht Hab) as Hlt. split; [done|].
  destruct (Z.le_gt_cases (energy_uwh a) (energy_uwh b)); [done|].
  assert (meter_decreased (ordered_readings m) = true); [|congruence].
  apply existsb_exists. exists (a, b). split; [by apply list_elem_of_In|lia].
Qed.

Lemma StronglySorted_key_head {A} (f : A → Z) l x :
  StronglySorted (λ a b, f a < f b) l → x ∈ l → (∀ y, y ∈ l → f x ≤ f y) → head l = Some x.
Proof.
  intros Hs Hx Hmin. destruct Hs as [|y l Hl Hy]; [set_solver|]. simpl. f_equal.
  apply elem_of_cons in Hx as [->|Hx]; [done|]. rewrite Forall_forall in Hy. specialize (Hy _ Hx).
  specialize (Hmin y ltac:(set_solver)). lia.
Qed.

Lemma StronglySorted_key_last {A} (f : A → Z) l x :
  StronglySorted (λ a b, f a < f b) l → x ∈ l → (∀ y, y ∈ l → f y ≤ f x) → last l = Some x.
Proof.
  induction 1 as [|y l Hl IH Hy]; [set_solver|]. intros Hx Hmax. rewrite Forall_forall in Hy.
  destruct l as [|z l]; [by apply list_elem_of_singleton in Hx as ->|]. rewrite last_cons_cons. apply IH.
  - apply elem_of_cons in Hx as [->|Hx]; [|done]. specialize (Hy z ltac:(set_solver)).
    specialize (Hmax z ltac:(set_solver)). lia.
  - intros w Hw. apply Hmax. set_solver.
Qed.

(** Samples never change a reading that is already there. *)
Lemma add_samples_keeps samples m m' :
  add_samples m samples = inr m' →
  (∀ t v, m !! t = Some v → m' !! t = Some v) ∧
  (∀ t v, m' !! t = Some v → m !! t = Some v ∨ ∃ s, s ∈ samples ∧ ms_timestamp s = t) ∧
  (∀ t v, m' !! t = Some v → (∀ t v, m !! t = Some v → 0 ≤ v) → 0 ≤ v).
Proof.
  revert m. induction samples as [|s samples IH]; intros m; cbn [add_samples].
  { intros [= <-]. split_and!; eauto. }
  destruct (_ && _) eqn:Hv; [|done]. cbn [negb]. apply andb_true_iff in Hv as [_ Hv]. simpl in Hv.
  destruct (bool_decide _) eqn:Hc; [done|].
  apply bool_decide_eq_false in Hc. intros (H1 & H2 & H3)%IH.
  assert (∀ v, m !! ms_timestamp s = Some v → v = ms_value_u s) as Hsame.
  { intros v Hmv. destruct (decide (v = ms_value_u s)); [done|]. exfalso. apply Hc. rewrite Hmv. split; [eauto|congruence]. }
  split_and!.
  - intros t v Ht. apply H1. destruct (decide (t = ms_timestamp s)) as [->|].
    + rewrite lookup_insert_eq. f_equal. symmetry. auto.
    + by rewrite lookup_insert_ne.
  - intros t v Ht. destruct (H2 t v Ht) as [Hm|(s' & ? & ?)]; [|right; exists s'; split; [set_solver|done]].
    apply lookup_insert_Some in Hm as [[<- _]|[_ ?]]; [right; exists s; split; [set_solver|done]|by left].
  - intros t v Ht Hpos. apply (H3 t v Ht). intros t' v' [[_ <-]|[_ ?]]%lookup_insert_Some; [lia|eauto].
Qed.

Lemma pure_lift {A} (m : Exn + A) : pure_tx (lift m).
Proof. done. Qed.
#[export] Hint Resolve pure_lift : csms.

Lemma pure_meter_values c e : pure_tx (_meter_values c e).
Proof. unfold _meter_values. auto 10 with csms. Qed.
#[export] Hint Resolve pure_meter_values : csms.

(** A session's readings run from its start to its end, strictly in time and
    never downwards. *)
Lemma meter_values_ok charging e db l db' :
  cs_started_at charging < e → _meter_values charging e db = (inr l, db') →
  ∃ stop, cs_meter_stop_uwh charging = Some stop ∧ readings_ok l ∧
    head l = Some (mkMeter (cs_started_at charging) (cs_meter_start_uwh charging)) ∧
    last l = Some (mkMeter e stop).
Proof.
  intros Hlt H. unfold _meter_values in H.
  apply bind_pure in H as [(? & _ & ? & _)|(stop & Hstop & H)]; [done| |auto with csms].
  apply bind_pure in H as [(? & _ & ? & _)|(samples & [= <-] & H)]; [done| |auto with csms].
  apply bind_pure in H as [(? & _ & ? & _)|(m & Hm & H)]; [done| |auto with csms].
  apply bind_pure in H as [(? & _ & ? & _)|(u & Hd & H)]; [done| |auto with csms].
  injection H as <- _. injection Hm as Hm. apply raise_if_ok in Hd.
  assert (cs_meter_stop_uwh charging = Some stop) as Hs.
  { destruct (_ && _) in Hstop; [|done]. destruct (cs_meter_stop_uwh charging); [|done]. by injection Hstop as ->. }
  exists stop. split; [done|]. split; [by apply ordered_readings_ok|].
  apply add_samples_keeps in Hm as (Hkeep & Hdom & _).
  assert (∀ r, r ∈ ordered_readings m → cs_started_at charging ≤ mv_timestamp r ≤ e) as Hrange.
  { intros r Hr%elem_of_ordered. apply Hdom in Hr as [Hr|(s & Hin & <-)].
    - apply lookup_insert_Some in Hr as [[<- _]|[_ [<- _]%lookup_singleton_Some]]; lia.
    - unfold energy_samples in Hin. rewrite elem_of_sort_by in Hin.
      apply list_elem_of_filter in Hin as [(_ & ? & ? & _) _]. lia. }
  split.
  - apply (StronglySorted_key_head mv_timestamp); [apply ordered_readings_time| |].
    + apply elem_of_ordered, Hkeep. simpl. rewrite lookup_insert_ne by lia. by apply lookup_singleton_eq.
    + intros y Hy. simpl. by apply Hrange.
  - apply (StronglySorted_key_last mv_timestamp); [apply ordered_readings_time| |].
    + apply elem_of_ordered, Hkeep. simpl. by apply lookup_insert_eq.
    + intros y Hy. simpl. by apply Hrange.
Qed.

(** ** Idle minutes *)

(** The rate of the local day of an instant. *)
Definition minute_rate (tz : Zone) (versions : gmap Z Tariff) (t : Z) : Z :=
  match versions !! local_date tz t with Some v => tf_idle_rate v | None => 0 end.

(** Reference: [count] started minutes from [anchor], each at the rate of the
    local day on which it starts. *)
Definition minute_fees (tz : Zone) (versions : gmap Z Tariff) (anchor count : Z) : Z :=
  sumZ ((λ j, minute_rate tz versions (anchor + j * minute_us)) <$> seqZ 0 count).

Lemma minute_fees_split tz versions anchor a b :
  0 ≤ a → 0 ≤ b →
  minute_fees tz versions anchor (a + b) =
  minute_fees tz versions anchor a + minute_fees tz versions (anchor + a * minute_us) b.
Proof.
  intros Ha Hb. unfold minute_fees. rewrite (seqZ_app 0 a b) by lia.
  rewrite fmap_app, sumZ_app. f_equal. f_equal. rewrite Z.add_0_l.
  replace (seqZ a b) with (Z.add a <$> seqZ 0 b) by (rewrite fmap_add_seqZ; f_equal; lia).
  rewrite <- list_fmap_compose. apply list_fmap_ext. intros i j _. simpl. f_equal. lia.
Qed.

Lemma minute_fees_same tz versions anchor n r :
  0 ≤ n → (∀ j, 0 ≤ j < n → minute_rate tz versions (anchor + j * minute_us) = r) →
  minute_fees tz versions anchor n = n * r.
Proof.
  intros Hn Hr. unfold minute_fees.
  rewrite (sumZ_fmap_ext _ (λ _, r)) by (intros j Hj%elem_of_seqZ; apply Hr; lia).
  assert (∀ l : list Z, sumZ ((λ _, r) <$> l) = Z.of_nat (length l) * r) as Hconst.
  { induction l as [|x l IH]; [done|]. rewrite fmap_cons, sumZ_cons, IH. cbn [length]. lia. }
  rewrite Hconst, length_seqZ, Z2Nat.id by lia. done.
Qed.

Lemma idle_fee_ok from to rate :
  from ≤ to → 0 ≤ rate →
  idle_fee from to 0 rate =
  inr (Z.max 0 ((to - from + minute_us - 1) / minute_us), Z.max 0 ((to - from + minute_us - 1) / minute_us) * rate).
Proof.
  intros H1 H2. unfold idle_fee, tinh_phi_chiem_tru, nonnegative_int. simpl.
  destruct (Z.ltb_spec rate 0); [lia|]. destruct (Z.ltb_spec (to - from) 0); [lia|].
  by rewrite Z.sub_0_r.
Qed.

(** [count] is the number of minutes started between [a] and [e]. *)
Definition started_minutes (a e count : Z) : Prop := (count - 1) * minute_us < e - a ≤ count * minute_us.

Lemma started_minutes_div a e count :
  started_minutes a e count → (e - a + minute_us - 1) / minute_us = count.
Proof. intros H. apply (ceil_div_unique (e - a) minute_us); [done|]. unfold started_minutes in H. lia. Qed.

(** The lines of an occupation: consecutive, each inside one local day, from
    [anchor] to [e]. *)
Fixpoint idle_chain (tz : Zone) (anchor e : Z) (lines : list InvoiceLine) : Prop :=
  match lines with
  | [] => anchor = e
  | l :: rest =>
      il_started_at l = anchor ∧ anchor < il_ended_at l ∧ il_local_date l = local_date tz anchor ∧
      il_type l = idle_line ∧ idle_chain tz (il_ended_at l) e rest
  end.

Definition idle_line_shape (l : InvoiceLine) : Prop :=
  0 ≤ il_amount_vnd l ∧ 0 ≤ il_rate_vnd l ∧ il_energy_uwh l = 0 ∧ il_type l = idle_line ∧
  il_band_label l = "Phí chiếm trụ" ∧ il_started_at l < il_ended_at l.

Section idle.
Context (tz : Zone) (o : Z) (Hz : fixed_offset tz o) (versions : gmap Z Tariff) (e iid : Z).
Context (Hrates : ∀ d t, versions !! d = Some t → 0 ≤ tf_idle_rate t).

Lemma same_day_until_midnight anchor t :
  anchor ≤ t → t < Clock.combine tz (local_date tz anchor + 1) 0 → local_date tz t = local_date tz anchor.
Proof.
  intros H1 H2. apply (local_date_iff tz o Hz). split; [|done].
  destruct (proj1 (local_date_iff tz o Hz anchor _) eq_refl). lia.
Qed.

(** One round of the loop: its span stays before midnight, and its line ends
    at the end of the span or of the occupation. *)
Lemma idle_round anchor count :
  0 < count → started_minutes anchor e count →
  let until := Clock.combine tz (local_date tz anchor + 1) 0 - anchor in
  let span := Z.min count ((until + 59999999) / 60000000) in
  let line_end := Z.min e (anchor + span * minute_us) in
  1 ≤ span ≤ count ∧ (span - 1) * minute_us < until ∧ started_minutes anchor line_end span ∧
  line_end = if decide (span = count) then e else anchor + span * minute_us.
Proof.
  intros Hc Hm until span line_end. unfold started_minutes in *.
  assert (0 < until) as Hun
    by (destruct (proj1 (local_date_iff tz o Hz anchor _) eq_refl); unfold until; lia).
  pose proof (ceil_div_spec until 60000000 ltac:(done)) as Hcd. unfold ceil_div in Hcd.
  replace (until + 60000000 - 1) with (until + 59999999) in Hcd by lia.
  unfold line_end, span, minute_us in *. repeat split; try lia; case_decide; lia.
Qed.

Lemma idle_loop_ok fuel anchor count :
  0 ≤ count → (Z.to_nat count ≤ fuel)%nat → (0 < count → started_minutes anchor e count) →
  (∀ t, anchor ≤ t < e → is_Some (versions !! local_date tz t)) →
  ∃ lines, idle_loop fuel tz versions iid e anchor count = inr lines ∧
    sumZ (il_amount_vnd <$> lines) = minute_fees tz versions anchor count ∧
    (if decide (count = 0) then lines = [] else idle_chain tz anchor e lines) ∧
    Forall idle_line_shape lines.
Proof.
  revert anchor count. induction fuel as [|fuel IH]; intros anchor count Hc Hf Hm Hcov; cbn [idle_loop].
  { assert (count = 0) as -> by lia. exists []. split_and!; done. }
  destruct (Z.eqb_spec count 0) as [->|Hne]; [exists []; split_and!; done|].
  specialize (Hm ltac:(lia)).
  destruct (Hcov anchor) as [tariff Ht]; [unfold started_minutes, minute_us in *; lia|].
  rewrite Ht. cbn [from_option_err mbind sum_bind].
  pose proof (idle_round anchor count ltac:(lia) Hm) as (Hspan & Hbefore & Hsm & Hle).
  set (span := Z.min count _) in *. set (line_end := Z.min e _) in *.
  assert (anchor < line_end) as Hal by (unfold started_minutes, minute_us in *; lia).
  rewrite idle_fee_ok by (eauto; lia). rewrite (started_minutes_div _ _ _ Hsm), Z.max_r by lia.
  cbn [mbind sum_bind].
  destruct (IH (anchor + span * minute_us) (count - span)) as (rest & Hrun & Hsum & Hchain & Hall);
    [lia|lia|unfold started_minutes, minute_us in *; lia|intros t Hr; apply Hcov; unfold minute_us in *; lia|].
  rewrite Hrun. eexists. split; [reflexivity|]. split_and!.
  - rewrite fmap_cons, sumZ_cons, Hsum. replace count with (span + (count - span)) at 2 by lia.
    rewrite minute_fees_split by lia. f_equal. symmetry. apply minute_fees_same; [lia|].
    intros j Hj. unfold minute_rate. rewrite (same_day_until_midnight anchor); [by rewrite Ht|unfold minute_us; lia|].
    unfold minute_us in *. lia.
  - rewrite decide_False by done. cbn [idle_chain il_started_at il_ended_at il_local_date il_type].
    split_and!; try done. destruct (decide (count - span = 0)) as [Hz0|Hz0].
    + subst rest. simpl. rewrite Hle. rewrite decide_True by lia. done.
    + replace line_end with (anchor + span * minute_us); [done|]. rewrite Hle. rewrite decide_False by lia. done.
  - constructor; [|done]. unfold idle_line_shape. simpl. pose proof (Hrates _ _ Ht). split_and!; try done; nia.
Qed.
End idle.

Section idle_lines.
Context {dep : Deployment}.

Definition billed_minutes (idle e grace : Z) : Z :=
  Z.max 0 (ceil_div (e - (idle + grace * minute_us)) minute_us).

Lemma idle_lines_ok charging station e versions iid idle_start idle o initial :
  let tz := zoneinfo (st_timezone station) in
  fixed_offset tz o →
  (match idle_start with Some i => Some i | None => cs_idle_since charging end) = Some idle →
  cs_started_at charging ≤ idle → idle < e →
  (∀ t, idle ≤ t < e → is_Some (versions !! local_date tz t)) →
  (∀ d t, versions !! d = Some t → 0 ≤ tf_idle_rate t ∧ 0 ≤ tf_grace_minutes t) →
  versions !! local_date tz idle = Some initial →
  let anchor := idle + tf_grace_minutes initial * minute_us in
  let count := billed_minutes idle e (tf_grace_minutes initial) in
  ∃ lines, _idle_lines charging station e versions iid idle_start = inr lines ∧
    sumZ (il_amount_vnd <$> lines) = minute_fees tz versions anchor count ∧
    (if decide (count = 0) then lines = [] else idle_chain tz anchor e lines) ∧
    Forall idle_line_shape lines.
Proof.
  intros tz Hz Hidle Hs He Hcov Hrates Hinit anchor count. unfold _idle_lines. rewrite Hidle.
  destruct (Z.ltb_spec idle (cs_started_at charging)), (Z.ltb_spec e idle), (Z.eqb_spec idle e); try lia.
  cbn [orb]. fold tz. rewrite Hinit. cbn [from_option_err mbind sum_bind].
  destruct (Hrates _ _ Hinit) as [_ Hg].
  assert (idle_fee idle e (tf_grace_minutes initial) 1 = inr (count, count * 1)) as ->.
  { unfold idle_fee, tinh_phi_chiem_tru, nonnegative_int. simpl.
    destruct (Z.ltb_spec (tf_grace_minutes initial) 0); [lia|]. destruct (Z.ltb_spec (e - idle) 0); [lia|].
    unfold count, billed_minutes, ceil_div. do 3 f_equal; do 3 f_equal; lia. }
  cbn [mbind sum_bind]. apply (idle_loop_ok tz o Hz).
  - intros d t Ht. by apply (Hrates d t).
  - unfold count, billed_minutes. lia.
  - done.
  - intros Hpos. unfold started_minutes. fold anchor.
    pose proof (ceil_div_spec (e - anchor) minute_us ltac:(done)) as Hcd.
    unfold count, billed_minutes in *. fold anchor in Hpos |- *. rewrite Z.max_r by lia. lia.
  - intros t Ht. apply Hcov. unfold anchor, minute_us in Ht. lia.
Qed.

(** The idle fee agrees with the minute-by-minute rule: for an occupation
    from [idle] to [e] whose days all have a tariff, in a zone of one offset,
    [_idle_lines] succeeds; its lines follow each other without gap from the
    end of the grace period to [e], each inside one local day, and their
    amounts add up to what charging every started minute at the rate of the
    local day on which it starts would give; no minute started means no line. *)
Theorem idle_lines_by_minute charging station e versions iid idle o initial :
  let tz := zoneinfo (st_timezone station) in
  fixed_offset tz o → cs_started_at charging ≤ idle → idle < e →
  (∀ t, idle ≤ t < e → is_Some (versions !! local_date tz t)) →
  (∀ d t, versions !! d = Some t → 0 ≤ tf_idle_rate t ∧ 0 ≤ tf_grace_minutes t) →
  versions !! local_date tz idle = Some initial →
  let anchor := idle + tf_grace_minutes initial * minute_us in
  let count := billed_minutes idle e (tf_grace_minutes initial) in
  ∃ lines, _idle_lines charging station e versions iid (Some idle) = inr lines ∧
    sumZ (il_amount_vnd <$> lines) = minute_fees tz versions anchor count ∧
    if decide (count = 0) then lines = [] else idle_chain tz anchor e lines.
Proof.
  intros tz Hz Hs He Hcov Hrates Hinit anchor count.
  destruct (idle_lines_ok charging station e versions iid (Some idle) idle o initial)
    as (lines & H1 & H2 & H3 & _); try done. by exists lines.
Qed.
End idle_lines.

Definition demo_session : ChargingSession :=
  mkSession 1 40 41 (Some 2) "CARD" "Accepted" 0 (Some (hours 1)) None 1 "explicit" (Some (hours 18))
    None None 0 (Some 3000000) None None None None None None None [] 0.

Definition demo_station : Station := mkStation 30 3 "Tram A" "active" "Asia/Ho_Chi_Minh" None "1 Le Loi" 10776900 106700900 1 0.

Definition demo_versions : gmap Z Tariff :=
  {[ 0 := mkTariff 200 30 0 None 500 10; 1 := mkTariff 201 30 1 None 700 0 ]}.

Lemma idle_lines_by_minute_witness :
  ∃ lines, _idle_lines (dep := demo_deployment) demo_session demo_station (hours 18) demo_versions 9
      (Some (hours 16)) = inr lines ∧
    sumZ (il_amount_vnd <$> lines) = 50 * 500 + 60 * 700.
Proof.
  destruct (idle_lines_by_minute (dep := demo_deployment) demo_session demo_station (hours 18) demo_versions 9
    (hours 16) _ (mkTariff 200 30 0 None 500 10) ho_chi_minh_fixed) as (lines & H1 & H2 & _).
  - vm_compute. discriminate.
  - vm_compute. reflexivity.
  - intros t Ht. assert (local_date ho_chi_minh t = 0 ∨ local_date ho_chi_minh t = 1) as Hd.
    { pose proof (local_date_mono ho_chi_minh _ ho_chi_minh_fixed (hours 16) t ltac:(lia)) as Ha.
      pose proof (local_date_mono ho_chi_minh _ ho_chi_minh_fixed t (hours 18) ltac:(lia)) as Hb.
      change (local_date ho_chi_minh (hours 16)) with 0 in Ha.
      change (local_date ho_chi_minh (hours 18)) with 1 in Hb. lia. }
    change (is_Some (demo_versions !! local_date ho_chi_minh t)).
    destruct Hd as [-> | ->]; eexists; reflexivity.
  - intros d t. unfold demo_versions. rewrite lookup_insert_Some. intros [[_ <-]|[_ H]]; [simpl; lia|].
    apply lookup_singleton_Some in H as [_ <-]. simpl. lia.
  - reflexivity.
  - exists lines. split; [exact H1|]. rewrite H2. vm_compute. reflexivity.
Defined.

(** ** Tariffs of the days *)

(** The tariff table with some versions newly marked as used. *)
Record marked (db db' : Db) : Prop := mkMarked {
  marked_db : db' = set_tariffs (tariffs db') db;
  marked_rows : ∀ k, match tariffs db !! k, tariffs db' !! k with
                     | Some t, Some t' => same_price t t'
                     | None, None => True
                     | _, _ => False end;
}.

Lemma marked_refl db : marked db db.
Proof. split; [by destruct db|]. intros k. destruct (tariffs db !! k); [apply same_price_refl|done]. Qed.

Lemma marked_trans db1 db2 db3 : marked db1 db2 → marked db2 db3 → marked db1 db3.
Proof.
  intros [H1 R1] [H2 R2]. split; [rewrite H2, H1; done|]. intros k. specialize (R1 k). specialize (R2 k).
  destruct (tariffs db1 !! k), (tariffs db2 !! k), (tariffs db3 !! k); try done.
  unfold same_price in *. by rewrite R2, R1.
Qed.

Lemma marked_lookup db db' k t' :
  marked db db' → tariffs db' !! k = Some t' → ∃ t, tariffs db !! k = Some t ∧ same_price t t'.
Proof. intros [_ R] Hk. specialize (R k). rewrite Hk in R. destruct (tariffs db !! k); [eauto|done]. Qed.

Lemma marked_lookup_2 db db' k t :
  marked db db' → tariffs db !! k = Some t → ∃ t', tariffs db' !! k = Some t' ∧ same_price t t'.
Proof. intros [_ R] Hk. specialize (R k). rewrite Hk in R. destruct (tariffs db' !! k); [eauto|done]. Qed.

Lemma marked_bands db db' k : marked db db' → bands_of k db' = bands_of k db.
Proof. intros [-> _]. done. Qed.

Lemma same_price_fields t t' : same_price t t' →
  tf_id t' = tf_id t ∧ tf_station_id t' = tf_station_id t ∧ tf_effective_from t' = tf_effective_from t ∧
  tf_idle_rate t' = tf_idle_rate t ∧ tf_grace_minutes t' = tf_grace_minutes t.
Proof. intros ->. done. Qed.

Lemma marked_ok db db' : tariffs_ok db → marked db db' → tariffs_ok db'.
Proof.
  intros Hok Hm. assert (∀ k t', tariffs db' !! k = Some t' → ∃ t, tariffs db !! k = Some t ∧ same_price t t') as Hl
    by (intros; by eapply marked_lookup).
  assert (tariff_bands db' = tariff_bands db) as Hb by (by rewrite (marked_db _ _ Hm)).
  split.
  - intros k t' (t & Hk & (-> & _)%same_price_fields)%Hl. by apply (tariffs_id _ Hok).
  - intros k k' t1 t2 (t3 & H3 & (_ & -> & -> & _)%same_price_fields)%Hl
      (t4 & H4 & (_ & -> & -> & _)%same_price_fields)%Hl. by apply (tariffs_unique _ Hok).
  - intros k t' (t & Hk & (_ & _ & _ & -> & ->)%same_price_fields)%Hl. by apply (tariffs_rates _ Hok k).
  - intros k t' (t & Hk & _)%Hl. rewrite (marked_bands db db') by done. by apply (tariffs_bands _ Hok k t).
  - rewrite Hb. intros b Hin. destruct (tariffs_no_orphans _ Hok b Hin) as [t Ht].
    destruct (marked_lookup_2 _ _ _ _ Hm Ht) as (t' & ? & _). eauto.
Qed.

Lemma marked_effective db db' s d t :
  tariffs_ok db → marked db db' → effective s d db = Some t →
  ∃ t', effective s d db' = Some t' ∧ same_price t t'.
Proof.
  intros Hok Hm Ht. pose proof (marked_ok _ _ Hok Hm) as Hok'.
  apply effective_iff in Ht as ([k Hk] & Hs & Hd & Hmax); [|done].
  destruct (marked_lookup_2 _ _ _ _ Hm Hk) as (t' & Hk' & Hp). exists t'. split; [|done].
  pose proof (same_price_fields _ _ Hp) as (_ & E1 & E2 & _).
  apply effective_iff; [done|]. unfold in_force. rewrite E1, E2. split_and!; [eauto|done|done|].
  intros k' x Hx. destruct (marked_lookup _ _ _ _ Hm Hx) as (x0 & Hx0 & (_ & -> & -> & _)%same_price_fields).
  by apply (Hmax k').
Qed.

Definition frames_of (tid : Z) (db : Db) : list TariffFrame :=
  (λ b, frame_of (uuid_str tid) (band_input b)) <$> bands_of tid db.

Lemma tiles_le (s e : Z) (l : list BandInput) : tiles s e l → s ≤ e.
Proof. revert s. induction l as [|b l IH]; intros s; simpl; [lia|]. intros (_ & ? & ?%IH). lia. Qed.

Lemma tiles_frames v s e l :
  0 ≤ s → e ≤ 1440 → tiles s e l → frames_tile s e (frame_of v <$> l).
Proof.
  revert s. induction l as [|b l IH]; intros s Hs He; [done|]. rewrite fmap_cons. cbn [tiles frames_tile].
  intros (Hb & Hlt & Ht). pose proof (tiles_le _ _ _ Ht).
  exists (band_end_min b). simpl in *. split_and!; try lia; [by rewrite Hb|done|]. apply IH; [lia|done|done].
Qed.

Lemma band_input_rows k n : band_input <$> band_rows k n = n.
Proof.
  unfold band_rows. rewrite <- list_fmap_compose. induction n as [|b n IH]; [done|].
  rewrite fmap_cons, IH. by destruct b.
Qed.

(** The stored bands of a version are accepted again, as they are. *)
Lemma bands_revalidate db k t :
  tariffs_ok db → tariffs db !! k = Some t →
  ∃ n, kiem_khung_gio (band_input <$> sort_by tb_start_min (bands_of k db)) = inr n ∧
    frame_of (uuid_str k) <$> n = frames_of k db ∧ frames_tile 0 1440 (frames_of k db) ∧
    Forall row_valid n ∧ bands_of k db = band_rows k n.
Proof.
  intros Hok Hk. destruct (tariffs_bands _ Hok k t Hk) as (n & Hb & Ht & Hv). exists n.
  assert (frame_of (uuid_str k) <$> n = frames_of k db) as Hf.
  { unfold frames_of. rewrite Hb. rewrite <- (band_input_rows k n) at 1. by rewrite <- list_fmap_compose. }
  split_and!; try done.
  - rewrite Hb, sort_by_id; [rewrite band_input_rows; by apply check_bands_tiled|].
    pose proof (tiles_sorted _ _ _ Ht) as Hs. unfold band_rows. clear -Hs.
    induction Hs as [|b n Hn IH Hx]; [constructor|]. rewrite fmap_cons. constructor; [done|].
    rewrite Forall_fmap. eapply Forall_impl; [exact Hx|]. done.
  - rewrite <- Hf. by apply tiles_frames.
Qed.

Section daily.
Context {dep : Deployment}.

Lemma danh_dau_run s st tid t db :
  stations db !! s = Some st → tariffs db !! tid = Some t → tf_station_id t = s →
  ∃ t' db', danh_dau_bieu_gia_da_dung s tid None db = (inr t', db') ∧ marked db db'.
Proof.
  intros Hst Hk Hs. unfold danh_dau_bieu_gia_da_dung.
  rewrite (bind_ok_step _ _ _ st db) by (unfold _station, mbind, M_bind, gets; by rewrite Hst).
  assert (∀ db t, tariffs db !! tid = Some t → tf_station_id t = s → locked_tariff s tid db = (inr t, db)) as Hlock.
  { intros db0 t0 H0 H1. unfold locked_tariff, mbind, M_bind, gets. rewrite H0. simpl. by rewrite H1, Z.eqb_refl. }
  rewrite (bind_ok_step _ _ _ t db) by auto. rewrite (bind_ok_step _ _ _ (db_now db) db) by done.
  destruct (tf_used_at t).
  { exists t, db. split; [|apply marked_refl]. rewrite (bind_ok_step _ _ _ () db) by done. auto. }
  eexists _, _. split; [erewrite bind_ok_step by reflexivity; apply Hlock|].
  - simpl. by rewrite lookup_alter_eq, Hk.
  - done.
  - split; [done|]. intros k. simpl. destruct (decide (k = tid)) as [->|].
    + rewrite lookup_alter_eq, Hk. done.
    + rewrite lookup_alter_ne by done. destruct (tariffs db !! k); [apply same_price_refl|done].
Qed.

Lemma version_frames_run s st tid t mark db :
  tariffs_ok db → stations db !! s = Some st → tariffs db !! tid = Some t → tf_station_id t = s →
  ∃ db', version_frames s tid mark db = (inr (frames_of tid db), db') ∧ marked db db'.
Proof.
  intros Hok Hst Hk Hs. unfold version_frames.
  assert (∃ db', when mark (danh_dau_bieu_gia_da_dung s tid None;; mret ()) db = (inr (), db') ∧ marked db db') as (db' & Hw & Hm).
  { destruct mark; [|by exists db; split; [|apply marked_refl]].
    destruct (danh_dau_run s st tid t db Hst Hk Hs) as (t' & db' & H & Hm). exists db'. split; [|done].
    simpl. by rewrite (bind_ok_step _ _ _ _ _ H). }
  exists db'. split; [|done]. rewrite (bind_ok_step _ _ _ _ _ Hw).
  rewrite (bind_ok_step _ _ _ (sort_by tb_start_min (bands_of tid db)) db')
    by (unfold gets; by rewrite (marked_bands _ _ _ Hm)).
  destruct (bands_revalidate db tid t Hok Hk) as (n & -> & <- & _). done.
Qed.

(** What the loop delivers for a day. *)
Definition day_tariff (s d : Z) (db : Db) (daily : Daily) : Prop :=
  ∃ t row, effective s d db = Some t ∧ same_price t row ∧
    daily.1 !! d = Some row ∧ daily.2 !! d = Some (frames_of (tf_id t) db).

Lemma daily_loop_run s st mark n : ∀ day cached acc db db0,
  tariffs_ok db0 → marked db0 db → stations db0 !! s = Some st →
  (∀ d, day ≤ d < day + Z.of_nat n → is_Some (effective s d db0)) →
  (∀ tid f, cached !! tid = Some f → f = frames_of tid db0) →
  ∃ daily db', daily_loop s mark day n cached acc db = (inr daily, db') ∧ marked db0 db' ∧
    ∀ d, if decide (day ≤ d < day + Z.of_nat n) then day_tariff s d db0 daily
         else daily.1 !! d = acc.1 !! d ∧ daily.2 !! d = acc.2 !! d.
Proof.
  induction n as [|n IH]; intros day cached acc db db0 Hok Hm Hst Hcov Hcache; cbn [daily_loop].
  { exists acc, db. split_and!; try done. intros d. by rewrite decide_False by lia. }
  destruct (Hcov day ltac:(lia)) as [t Ht].
  destruct (marked_effective _ _ _ _ _ Hok Hm Ht) as (t1 & Ht1 & Hp1).
  pose proof (same_price_fields _ _ Hp1) as (Hid1 & Hs1 & _).
  assert (stations db !! s = Some st) as Hst' by (by rewrite (marked_db _ _ Hm)).
  rewrite (bind_ok_step _ _ _ (Some t1) db).
  2: { unfold lay_bieu_gia_hieu_luc, _station, mbind, M_bind, gets. by rewrite Hst', <- Ht1. }
  rewrite (bind_ok_step _ _ _ t1 db) by done.
  pose proof (effective_Some _ _ _ _ Ht) as ([k Hk] & Hts & _).
  pose proof (tariffs_id _ Hok k t Hk) as <-. rewrite Hid1.
  assert (∃ db1, (match cached !! tf_id t with Some f => mret f | None => version_frames s (tf_id t) mark end) db
    = (inr (frames_of (tf_id t) db0), db1) ∧ marked db0 db1) as (db1 & Hrun & Hm1).
  { destruct (cached !! tf_id t) as [f|] eqn:Hc; [rewrite (Hcache _ _ Hc); by exists db|].
    destruct (marked_lookup_2 _ _ _ _ Hm Hk) as (t2 & Hk2 & Hp2).
    pose proof (same_price_fields _ _ Hp2) as (_ & Hs2 & _).
    destruct (version_frames_run s st (tf_id t) t2 mark db) as (db1 & Hr & Hm1);
      [by eapply marked_ok|done|done|congruence|].
    exists db1. split; [|by eapply marked_trans]. rewrite Hr. unfold frames_of. by rewrite (marked_bands _ _ _ Hm). }
  rewrite (bind_ok_step _ _ _ _ _ Hrun).
  destruct (marked_lookup_2 _ _ _ _ Hm1 Hk) as (row & Hrow & Hprow).
  pose proof (same_price_fields _ _ Hprow) as (_ & Hsr & _).
  rewrite (bind_ok_step _ _ _ row db1).
  2: { unfold locked_tariff, mbind, M_bind, gets. rewrite Hrow. simpl. by rewrite Hsr, Hts, Z.eqb_refl. }
  destruct (IH (day + 1) (<[tf_id t := frames_of (tf_id t) db0]> cached)
    (<[day := row]> acc.1, <[day := frames_of (tf_id t) db0]> acc.2) db1 db0) as (daily & db' & Hd & Hm' & Hall);
    [done|done|done|intros d Hd; apply Hcov; lia| |].
  { intros tid f [[<- <-]|[_ H]]%lookup_insert_Some; [done|by apply Hcache]. }
  exists daily, db'. split_and!; [done|done|]. intros d. specialize (Hall d).
  destruct (decide (d = day)) as [->|Hne].
  - rewrite decide_True by lia. rewrite decide_False in Hall by lia. simpl in Hall.
    rewrite !lookup_insert_eq in Hall. destruct Hall as [H1 H2]. exists t, row. done.
  - destruct (decide (day ≤ d < day + Z.of_nat (S n))).
    + rewrite decide_True in Hall by lia. done.
    + rewrite decide_False in Hall by lia. simpl in Hall. by rewrite !lookup_insert_ne in Hall.
Qed.
End daily.
