(* ===== verification/InvoiceSpec.v ===== *)
(** * InvoiceSpec: what an invoice charges

    The contract of [_create_invoice]: under the conditions it checks, it
    succeeds, and the invoice it stores charges the metered energy and the
    occupied minutes at the tariffs in force. *)

From S2P Require Import Prelude Money Bands Clock Segmentation Text Store AuditTrail Wallet Pricing Invoicing.

(** ** Lines *)

Lemma no_space_app a b : no_space a → no_space b → no_space (a ++ b).
Proof. intros. by apply Forall_app. Qed.

Lemma chars_app a b : chars (a +:+ b) = chars a ++ chars b.
Proof. induction a as [|c a IH]; [done|]. simpl. f_equal. exact IH. Qed.

Lemma blank_no_space s : no_space (chars s) → s ≠ ""%string → blank s = false.
Proof.
  unfold blank, no_space. destruct s as [|c s]; [done|]. simpl. intros Hs _. inversion Hs as [|?? Hc _]; subst.
  destruct (Z.eqb_spec (code c) 32) as [E|]; [|done]. unfold is_space in Hc. by rewrite E in Hc.
Qed.

Lemma no_space_clock m : 0 ≤ m ≤ 1440 → no_space (chars (_clock m)) ∧ _clock m ≠ ""%string.
Proof.
  intros Hm. assert (forallb (λ m, forallb (λ c, negb (is_space c)) (chars (_clock m)) &&
    negb (bool_decide (_clock m = ""%string))) (seqZ 0 1441) = true) as H by (vm_compute; reflexivity).
  rewrite forallb_forall in H. specialize (H m). rewrite <- list_elem_of_In, elem_of_seqZ in H.
  specialize (H ltac:(lia)). apply andb_true_iff in H as [H1 H2].
  apply negb_true_iff, bool_decide_eq_false in H2. split; [|done].
  apply Forall_forall. intros c Hc. rewrite forallb_forall in H1. apply negb_true_iff, H1. by apply list_elem_of_In.
Qed.

(** A frame always has a label to show. *)
Lemma frame_label_not_blank v b :
  0 ≤ band_start_min b ≤ 1440 → 0 ≤ band_end_min b ≤ 1440 → blank (frame_label (frame_of v b)) = false.
Proof.
  intros H1 H2. unfold frame_of. simpl. case_decide as Hl.
  - destruct (no_space_clock _ H1) as [N1 E1], (no_space_clock _ H2) as [N2 E2]. apply blank_no_space.
    + rewrite !chars_app. apply no_space_app; [done|]. apply no_space_app; [|done]. by repeat constructor.
    + by destruct (_clock (band_start_min b)).
  - destruct (blank (strip (label b))) eqn:E; [|done]. apply blank_strip in E. rewrite strip_idemp in E. done.
Qed.

Lemma tien_dong_nonneg e p a :
  0 ≤ e → 0 ≤ p → tien_dong (PyDecimal (mkDecimal e (-6))) (PyInt p) = inr a → 0 ≤ a.
Proof.
  intros He Hp. rewrite tien_dong_decimal. simpl. intros [= <-]. apply round_half_up_nearest; nia.
Qed.

Lemma row_valid_rate (b : BandInput) : row_valid b → 0 ≤ energy_rate_vnd_per_kwh b.
Proof.
  intros [_ Hf]. simpl in Hf. unfold tariff_field_issues in Hf.
  destruct (Z.leb_spec 0 (energy_rate_vnd_per_kwh b)); [done|]. simpl in Hf. done.
Qed.

Section lines.
Context (tz : Zone) (o : Z) (Hz : fixed_offset tz o) (s : Z) (db : Db).
Context (Hok : tariffs_ok db) (Hids : ∀ k t, tariffs db !! k = Some t → 0 ≤ k < 2 ^ 128).

(** An energy line is charged by one band of the version in force on its local
    day, lies inside that band, and has the amount of its energy at its rate. *)
Definition line_priced (l : InvoiceLine) : Prop :=
  ∃ t b, effective s (il_local_date l) db = Some t ∧ b ∈ bands_of (tf_id t) db ∧
    il_tariff_id l = tf_id t ∧ il_rate_vnd l = tb_energy_rate b ∧
    minute_instant tz (il_local_date l) (tb_start_min b) ≤ il_started_at l ∧
    il_ended_at l ≤ minute_instant tz (il_local_date l) (tb_end_min b) ∧
    tien_dong (PyDecimal (mkDecimal (il_energy_uwh l) (-6))) (PyInt (tb_energy_rate b)) = inr (il_amount_vnd l).

Context (daily : Daily).
Context (Hdaily : ∀ d frames, daily.2 !! d = Some frames → day_tariff s d db daily).

Lemma band_facts k t b :
  tariffs db !! k = Some t → b ∈ bands_of k db →
  0 ≤ tb_start_min b < tb_end_min b ∧ tb_end_min b ≤ 1440 ∧ 0 ≤ tb_energy_rate b.
Proof.
  intros Hk Hb. destruct (tariffs_bands _ Hok k t Hk) as (n & Hn & Ht & Hv). rewrite Hn in Hb.
  unfold band_rows in Hb. apply list_elem_of_fmap in Hb as (x & -> & Hx). simpl.
  destruct (tiles_bounds _ _ _ _ Ht Hx) as (? & ? & ?). rewrite Forall_forall in Hv.
  pose proof (row_valid_rate x (Hv x Hx)). simpl in *. lia.
Qed.

Lemma energy_line_ok iid g :
  segment_priced tz daily.2 g →
  ∃ l, energy_line_of iid g = inr l ∧ il_type l = energy_line ∧ line_ok l = true ∧ line_priced l ∧
    il_energy_uwh l = energy_consumed_uwh g ∧ il_amount_vnd l = amount_vnd g.
Proof.
  intros (frames & tf & st & et & HT & Htf & Hb & H1 & H2 & H3 & Hp & Hv & Hl & Hpos & Ham).
  destruct (Hdaily _ _ HT) as (t & row & Heff & _ & _ & HT'). rewrite HT in HT'. injection HT' as ->.
  pose proof (effective_Some _ _ _ _ Heff) as ([k Hk] & _). pose proof (tariffs_id _ Hok k t Hk) as Hkid. subst k.
  unfold frames_of in Htf. apply list_elem_of_fmap in Htf as (b & -> & Hin).
  destruct (band_facts _ _ _ Hk Hin) as (Hr1 & Hr2 & Hr3). simpl in Hp, Hv, Ham.
  rewrite (frame_bounds_clock tz o Hz _ _ (tb_start_min b) (tb_end_min b)) in Hb by (done || lia).
  injection Hb as <- <-.
  unfold energy_line_of. rewrite Hv, canonical_uuid_str by (by eapply Hids). eexists. split; [reflexivity|].
  split; [done|]. split; [|split; [|done]].
  - unfold line_ok. simpl. rewrite Hp, Hl. pose proof (tien_dong_nonneg _ _ _ (Z.lt_le_incl _ _ Hpos) Hr3 Ham).
    rewrite frame_label_not_blank by (simpl; lia). rewrite !andb_true_iff, Z.ltb_lt, !Z.leb_le. split_and!; done || lia.
  - exists t, b. simpl. split_and!; try done.
Qed.

Lemma energy_lines_ok iid segs :
  Forall (segment_priced tz daily.2) segs →
  ∃ lines, energy_lines iid segs = inr lines ∧
    Forall (λ l, il_type l = energy_line ∧ line_ok l = true ∧ line_priced l) lines ∧
    sumZ (il_energy_uwh <$> lines) = sumZ (energy_consumed_uwh <$> segs).
Proof.
  induction 1 as [|g segs Hg _ (lines & Hrun & Hall & Hsum)]; [by exists []|].
  destruct (energy_line_ok iid g Hg) as (l & Hl & ? & ? & ? & He & _). cbn [energy_lines].
  rewrite Hl. cbn [mbind sum_bind]. rewrite Hrun. eexists. split; [reflexivity|].
  split; [by constructor|]. rewrite !fmap_cons, !sumZ_cons. lia.
Qed.
End lines.

(** ** Occupations *)

Section occupation.
Context {dep : Deployment}.

(** The idle rate in force on a local day. *)
Definition rate_on (s : Z) (db : Db) (d : Z) : Z :=
  match effective s d db with Some t => tf_idle_rate t | None => 0 end.

(** The fee of an occupation from [idle] to [e]: after the grace period of the
    version in force when it begins, every started minute at the rate of the
    local day on which it starts. *)
Definition occupation_fee (tz : Zone) (s : Z) (db : Db) (occ : Z * Z) : Z :=
  let '(idle, e) := occ in
  match effective s (local_date tz idle) db with
  | None => 0
  | Some t =>
      sumZ ((λ j, rate_on s db (local_date tz (idle + tf_grace_minutes t * minute_us + j * minute_us)))
        <$> seqZ 0 (billed_minutes idle e (tf_grace_minutes t)))
  end.

Lemma line_ok_idle l : idle_line_shape l → line_ok l = true.
Proof.
  intros (H1 & H2 & H3 & H4 & H5 & H6). unfold line_ok. rewrite H3, H5.
  rewrite !andb_true_iff, orb_true_iff, Z.ltb_lt, !Z.leb_le. split_and!; first [lia|reflexivity].
Qed.

Section fees.
Context (charging : ChargingSession) (st : Station) (o bend : Z) (db : Db) (daily : Daily).
Context (Hz : fixed_offset (zoneinfo (st_timezone st)) o) (Hok : tariffs_ok db).
Context (Hdays : ∀ d, local_date (zoneinfo (st_timezone st)) (cs_started_at charging) ≤ d ≤
  local_date (zoneinfo (st_timezone st)) (bend - 1) → day_tariff (st_id st) d db daily).
Context (Hrates : ∀ d t, daily.1 !! d = Some t → 0 ≤ tf_idle_rate t ∧ 0 ≤ tf_grace_minutes t).

Lemma idle_lines_fee iid idle_start idle e :
  (match idle_start with Some i => Some i | None => cs_idle_since charging end) = Some idle →
  cs_started_at charging ≤ idle ≤ e → e ≤ bend →
  ∃ lines, _idle_lines charging st e daily.1 iid idle_start = inr lines ∧
    sumZ (il_amount_vnd <$> lines) = occupation_fee (zoneinfo (st_timezone st)) (st_id st) db (idle, e) ∧
    Forall idle_line_shape lines.
Proof.
  intros Hidle [Hs He] Hb. set (tz := zoneinfo (st_timezone st)) in *.
  assert (∀ t, cs_started_at charging ≤ t < bend → day_tariff (st_id st) (local_date tz t) db daily) as Hday.
  { intros t Ht. apply Hdays. split; apply (local_date_mono tz o Hz); lia. }
  destruct (decide (idle = e)) as [->|Hne].
  { exists []. unfold _idle_lines. rewrite Hidle.
    destruct (Z.ltb_spec e (cs_started_at charging)), (Z.ltb_spec e e); try lia. cbn [orb]. rewrite Z.eqb_refl.
    split_and!; [done| |done]. unfold occupation_fee. destruct (effective _ _ db) as [t|] eqn:Et; [|done].
    assert (0 ≤ tf_grace_minutes t) as Hg.
    { apply effective_Some in Et as ([k Hk] & _). by apply (tariffs_rates _ Hok k). }
    replace (billed_minutes e e (tf_grace_minutes t)) with 0; [done|]. unfold billed_minutes.
    pose proof (ceil_div_spec (e - (e + tf_grace_minutes t * minute_us)) minute_us ltac:(done)). unfold minute_us in *. lia. }
  destruct (Hday idle ltac:(lia)) as (t & row & Heff & Hp & Hrow & _).
  pose proof (same_price_fields _ _ Hp) as (_ & _ & _ & _ & Hgr).
  destruct (idle_lines_ok charging st e daily.1 iid idle_start idle o row) as (lines & Hrun & Hsum & _ & Hshape);
    try done; try lia.
  { intros t' Ht'. destruct (Hday t' ltac:(lia)) as (? & r & _ & _ & ? & _). eauto. }
  exists lines. split_and!; [done| |done]. rewrite Hsum. unfold occupation_fee. fold tz. rewrite Heff, Hgr.
  unfold minute_fees. apply f_equal, list_fmap_ext. intros i j Hj. unfold minute_rate, rate_on.
  apply lookup_seqZ in Hj as [-> Hi]. rewrite Z.add_0_l.
  set (t' := idle + tf_grace_minutes t * minute_us + Z.of_nat i * minute_us).
  destruct (Hday t') as (x & r & Hx & (_ & _ & _ & Hr & _)%same_price_fields & Hl & _).
  { destruct (Hrates _ _ Hrow) as [_ Hg0]. rewrite Hgr in Hg0. unfold t'.
    pose proof (ceil_div_spec (e - (idle + tf_grace_minutes t * minute_us)) minute_us ltac:(done)).
    unfold billed_minutes in Hi. unfold minute_us in *. lia. }
  fold tz. by rewrite Hl, Hx.
Qed.

(** The occupations an invoice bills. *)
Definition occupations (e : Z) (intervals : list OccupationInterval) : list (Z * Z) :=
  if cs_billing_lifecycle_version charging =? 0
  then match cs_idle_since charging with Some i => [(i, e)] | None => [] end
  else (λ i, (oi_started_at i, default 0 (oi_ended_at i))) <$> intervals.

Lemma interval_lines_fee iid l :
  (∀ i, i ∈ l → ∃ e, oi_ended_at i = Some e ∧ cs_started_at charging ≤ oi_started_at i ≤ e ∧ e ≤ bend) →
  ∃ lines, interval_lines charging st daily.1 iid l = inr lines ∧
    sumZ (il_amount_vnd <$> lines) =
      sumZ (occupation_fee (zoneinfo (st_timezone st)) (st_id st) db <$>
        ((λ i, (oi_started_at i, default 0 (oi_ended_at i))) <$> l)) ∧
    Forall idle_line_shape lines.
Proof.
  induction l as [|i l IH]; intros Hl; [by exists []|].
  destruct (Hl i ltac:(set_solver)) as (e & He & Hr & Hb).
  destruct (idle_lines_fee iid (Some (oi_started_at i)) (oi_started_at i) e eq_refl Hr Hb) as (x & Hx & Hsx & Hfx).
  destruct IH as (xs & Hxs & Hsxs & Hfxs); [intros; apply Hl; set_solver|].
  cbn [interval_lines]. rewrite He. cbn [from_option_err mbind sum_bind]. rewrite Hx. cbn [mbind sum_bind].
  rewrite Hxs. eexists. split; [reflexivity|]. split; [|by apply Forall_app].
  rewrite !fmap_app, !sumZ_app, !fmap_cons, !sumZ_cons, Hsx, Hsxs, He. done.
Qed.
End fees.
End occupation.

(** ** The invoice as a whole *)

Section invoice.
Context {dep : Deployment}.

Lemma billed_occupation_ok charging e db l bend db' :
  billed_occupation charging e db = (inr (l, bend), db') →
  e ≤ bend ∧ ∀ i, i ∈ l → ∃ r, oi_ended_at i = Some r ∧ r ≤ bend.
Proof.
  unfold billed_occupation. destruct (_ =? 1).
  2: { intros [= <- <- _]. split; [lia|]. intros i Hi. by apply elem_of_nil in Hi. }
  intros H. apply bind_pure in H as [(? & _ & ? & _)|(rel & _ & H)]; [done| |auto with csms].
  apply bind_pure in H as [(? & _ & ? & _)|(l' & _ & H)]; [done| |auto with csms].
  apply bind_pure in H as [(? & _ & ? & _)|(u & Hr & H)]; [done| |auto with csms].
  injection H as <- <- _. apply raise_if_ok, orb_false_iff in Hr as [_ Hr].
  destruct l' as [|i0 l0]; [split; [lia|intros i Hi; by apply elem_of_nil in Hi]|].
  split; [lia|]. intros i Hi. exists rel. split; [|lia].
  destruct (decide (oi_ended_at i = Some rel)) as [|Hne]; [done|]. exfalso.
  rewrite <- not_true_iff_false, existsb_exists in Hr. apply Hr. exists i.
  split; [by apply list_elem_of_In|]. apply negb_true_iff, bool_decide_eq_false. naive_solver.
Qed.

Lemma pure_billed_occupation charging e : pure_tx (billed_occupation charging e).
Proof. unfold billed_occupation. case_match; auto 10 with csms. Qed.

(** A closed, authorised session with accepted readings, a settled occupation
    history, a tariff for every day and no invoice yet. *)
Record billable (charging : ChargingSession) (e driver : Z) (st : Station) (readings : list MeterValue)
    (intervals : list OccupationInterval) (bend o : Z) (db : Db) : Prop := mkBillable {
  billable_place : ∃ cp cn, charge_points db !! cs_charge_point_id charging = Some cp ∧
    connectors db !! cs_connector_id charging = Some cn ∧
    cn_charge_point_id cn = cs_charge_point_id charging ∧
    stations db !! cp_station_id cp = Some st ∧ st_id st = cp_station_id cp;
  billable_driver : cs_driver_id charging = Some driver;
  billable_accepted : cs_authorization_status charging = "Accepted";
  billable_interval : cs_started_at charging < e;
  billable_readings : _meter_values charging e db = (inr readings, db);
  billable_occupation : billed_occupation charging e db = (inr (intervals, bend), db);
  billable_idle : ∀ occ, occ ∈ occupations charging e intervals → cs_started_at charging ≤ occ.1 ≤ occ.2;
  billable_zone : fixed_offset (zoneinfo (st_timezone st)) o;
  billable_tariffs : ∀ d, local_date (zoneinfo (st_timezone st)) (cs_started_at charging) ≤ d ≤
    local_date (zoneinfo (st_timezone st)) (bend - 1) → is_Some (effective (st_id st) d db);
  billable_table : tariffs_ok db ∧ ∀ k t, tariffs db !! k = Some t → 0 ≤ k < 2 ^ 128;
  billable_new : invoice_of_session (cs_id charging) db = None ∧ invoices db !! next_id db = None;
}.

(** What the lines of the invoice charge. *)
Record lines_correct (charging : ChargingSession) (e : Z) (st : Station) (intervals : list OccupationInterval)
    (db : Db) (energy idle : list InvoiceLine) : Prop := mkLinesCorrect {
  correct_energy : ∃ stop, cs_meter_stop_uwh charging = Some stop ∧
    sumZ (il_energy_uwh <$> energy) = stop - cs_meter_start_uwh charging;
  correct_prices : Forall (λ l, il_type l = energy_line ∧
    line_priced (zoneinfo (st_timezone st)) (st_id st) db l) energy;
  correct_idle : sumZ (il_amount_vnd <$> idle) =
    sumZ (occupation_fee (zoneinfo (st_timezone st)) (st_id st) db <$> occupations charging e intervals);
  correct_valid : Forall (λ l, line_ok l = true) (energy ++ idle);
}.

(** The tariffs of exactly the days of a session. *)
Definition daily_exact (charging : ChargingSession) (st : Station) (bend : Z) (db : Db) (daily : Daily) : Prop :=
  ∀ d, if decide (local_date (zoneinfo (st_timezone st)) (cs_started_at charging) ≤ d ≤
            local_date (zoneinfo (st_timezone st)) (bend - 1))
       then day_tariff (st_id st) d db daily else daily.1 !! d = None ∧ daily.2 !! d = None.

Lemma daily_exact_facts charging st bend db daily :
  tariffs_ok db → daily_exact charging st bend db daily →
  (∀ d frames, daily.2 !! d = Some frames → day_tariff (st_id st) d db daily) ∧
  (∀ d t, daily.1 !! d = Some t → 0 ≤ tf_idle_rate t ∧ 0 ≤ tf_grace_minutes t) ∧
  tariffs_tile daily.2.
Proof.
  intros Hok Hdaily.
  assert (∀ d frames, daily.2 !! d = Some frames → day_tariff (st_id st) d db daily) as Hd2.
  { intros d frames Hf. specialize (Hdaily d). case_decide; [done|]. destruct Hdaily. congruence. }
  split_and!; [done| |].
  - intros d row Hr. specialize (Hdaily d). case_decide; [|destruct Hdaily; congruence].
    destruct Hdaily as (t & row' & Heff & (_ & _ & _ & H1 & H2)%same_price_fields & Hr' & _).
    rewrite Hr in Hr'. injection Hr' as <-. rewrite H1, H2.
    apply effective_Some in Heff as ([k Hk] & _). by apply (tariffs_rates _ Hok k).
  - intros d frames Hf. destruct (Hd2 d frames Hf) as (t & row & Heff & _ & _ & Hf'). rewrite Hf in Hf'.
    injection Hf' as ->. apply effective_Some in Heff as ([k Hk] & _). pose proof (tariffs_id _ Hok k t Hk) as <-.
    by destruct (bands_revalidate db _ t Hok Hk) as (n & _ & _ & ? & _).
Qed.

Lemma idle_part charging e driver st readings intervals bend o db daily iid :
  billable charging e driver st readings intervals bend o db → daily_exact charging st bend db daily →
  ∃ idle, (if cs_billing_lifecycle_version charging =? 0
      then _idle_lines charging st e daily.1 iid None
      else interval_lines charging st daily.1 iid intervals) = inr idle ∧
    sumZ (il_amount_vnd <$> idle) =
      sumZ (occupation_fee (zoneinfo (st_timezone st)) (st_id st) db <$> occupations charging e intervals) ∧
    Forall idle_line_shape idle.
Proof.
  intros [_ _ _ Hint _ Hocc Hidle Hz _ [Hok _] _] Hdaily.
  destruct (daily_exact_facts _ _ _ _ _ Hok Hdaily) as (_ & Hrates & _).
  destruct (billed_occupation_ok _ _ _ _ _ _ Hocc) as [Hbend Hends].
  assert (∀ d, local_date (zoneinfo (st_timezone st)) (cs_started_at charging) ≤ d ≤
    local_date (zoneinfo (st_timezone st)) (bend - 1) → day_tariff (st_id st) d db daily) as Hdays.
  { intros d Hd. specialize (Hdaily d). by rewrite decide_True in Hdaily. }
  unfold occupations in *. destruct (cs_billing_lifecycle_version charging =? 0) eqn:Hv.
  - destruct (cs_idle_since charging) as [i|] eqn:Hi.
    + destruct (idle_lines_fee charging st o bend db daily Hz Hok Hdays Hrates iid None i e) as (x & ? & Hx & ?);
        [done|by apply (Hidle (i, e)); set_solver|done|].
      exists x. rewrite fmap_cons, sumZ_cons, Z.add_0_r. done.
    + exists []. unfold _idle_lines. by rewrite Hi.
  - apply (interval_lines_fee charging st o bend db daily Hz Hok Hdays Hrates). intros i Hi.
    destruct (Hends i Hi) as (r & Hr & Hb). exists r. split_and!; try done;
      specialize (Hidle (oi_started_at i, default 0 (oi_ended_at i)) ltac:(apply list_elem_of_fmap; by exists i));
      rewrite Hr in Hidle; simpl in Hidle; lia.
Qed.

Lemma lines_of_correct charging e driver st readings intervals bend o db daily iid :
  billable charging e driver st readings intervals bend o db → daily_exact charging st bend db daily →
  ∃ energy idle, invoice_lines_of charging st e readings daily intervals iid = inr (energy ++ idle) ∧
    lines_correct charging e st intervals db energy idle.
Proof.
  intros Hbill Hdaily.
  destruct (idle_part _ _ _ _ _ _ _ _ _ _ iid Hbill Hdaily) as (idle & Hid & Hidsum & Hshape).
  destruct Hbill as [_ _ _ Hint Hread Hocc _ Hz _ [Hok Hids] _].
  destruct (daily_exact_facts _ _ _ _ _ Hok Hdaily) as (Hd2 & Hrates & Htile).
  destruct (billed_occupation_ok _ _ _ _ _ _ Hocc) as [Hbend _].
  destruct (meter_values_ok _ _ _ _ _ Hint Hread) as (stop & Hstop & Hrok & Hhead & Hlast).
  set (tz := zoneinfo (st_timezone st)) in *.
  assert (tariffs_cover tz daily.2 (cs_started_at charging) e) as Hcover.
  { intros t Ht. specialize (Hdaily (local_date tz t)). rewrite decide_True in Hdaily.
    - destruct Hdaily as (x & row & _ & _ & _ & ?). eauto.
    - split; apply (local_date_mono tz o Hz); lia. }
  destruct (chia_doan_tiled tz o Hz daily.2 Htile readings _ _ Hrok Hhead Hlast Hint Hcover)
    as (segs & Hsegs & Hsum & Hall & _). simpl in Hsegs, Hsum.
  destruct (energy_lines_ok tz o Hz (st_id st) db Hok Hids daily Hd2 iid segs) as (energy & Hen & Hene & Hens).
  { eapply Forall_impl; [exact Hall|]. by intros g (_ & _ & ?). }
  exists energy, idle. split.
  - unfold invoice_lines_of. fold tz. rewrite Hsegs. cbn [seg_result mbind sum_bind].
    rewrite Hhead, Hlast. cbn [energy_uwh]. rewrite Hsum, Z.eqb_refl. cbn [negb].
    rewrite Hen. cbn [mbind sum_bind]. by rewrite Hid.
  - split.
    + exists stop. split; [done|]. by rewrite Hens.
    + eapply Forall_impl; [exact Hene|]. naive_solver.
    + done.
    + apply Forall_app. split; [eapply Forall_impl; [exact Hene|]; naive_solver|].
      eapply Forall_impl; [exact Hshape|]. apply line_ok_idle.
Qed.

Lemma daily_tariffs_days mark charging st bend o db :
  tariffs_ok db → stations db !! st_id st = Some st → fixed_offset (zoneinfo (st_timezone st)) o → cs_started_at charging < bend →
  (∀ d, local_date (zoneinfo (st_timezone st)) (cs_started_at charging) ≤ d ≤
    local_date (zoneinfo (st_timezone st)) (bend - 1) → is_Some (effective (st_id st) d db)) →
  ∃ daily db1, _daily_tariffs st (cs_started_at charging) bend mark db = (inr daily, db1) ∧
    marked db db1 ∧ daily_exact charging st bend db daily.
Proof.
  intros Hok Hst Hz Hlt Htar. unfold _daily_tariffs, daily_exact. set (tz := zoneinfo (st_timezone st)) in *.
  pose proof (local_date_mono tz o Hz (cs_started_at charging) (bend - 1) ltac:(lia)) as Hmono.
  destruct (daily_loop_run (st_id st) st mark
    (Z.to_nat (local_date tz (bend - 1) - local_date tz (cs_started_at charging) + 1))
    (local_date tz (cs_started_at charging)) ∅ (∅, ∅) db db) as (daily & db1 & Hrun & Hm & Hall);
    [done|apply marked_refl|done|intros d Hd; apply Htar; lia|intros tid f Hf; by rewrite lookup_empty in Hf|].
  exists daily, db1. split_and!; [done|done|]. intros d. specialize (Hall d).
  case_decide; case_decide; try lia; [done|]. simpl in Hall. by rewrite !lookup_empty in Hall.
Qed.

Lemma daily_tariffs_run mark charging e driver st readings intervals bend o db :
  billable charging e driver st readings intervals bend o db →
  ∃ daily db1, _daily_tariffs st (cs_started_at charging) bend mark db = (inr daily, db1) ∧
    marked db db1 ∧ daily_exact charging st bend db daily.
Proof.
  intros [(cp & cn & _ & _ & _ & Hst & Hsid) _ _ Hint _ Hocc _ Hz Htar [Hok _] _].
  destruct (billed_occupation_ok _ _ _ _ _ _ Hocc) as [Hbend _]. rewrite <- Hsid in Hst.
  by apply (daily_tariffs_days mark charging st bend o db); [done|done|done|lia|].
Qed.

(** The stored invoice: its row, its lines and the usage marks, nothing else. *)
Definition saved (inv : Invoice) (lines : list InvoiceLine) (db db' : Db) : Prop :=
  ∃ db1, marked db db1 ∧
    db' = set_invoice_lines (invoice_lines db ++ lines)
            (set_invoices (<[inv_id inv := inv]> (invoices db)) (set_next_id (next_id db + 1) db1)).

Lemma save_invoice_run inv lines db :
  invoice_of_session (inv_session_id inv) db = None → invoices db !! inv_id inv = None →
  0 ≤ inv_total_vnd inv → Forall (λ l, line_ok l = true) lines →
  save_invoice inv lines db =
  (inr (), set_invoice_lines (invoice_lines db ++ lines) (set_invoices (<[inv_id inv := inv]> (invoices db)) db)).
Proof.
  intros Hnew Hpk Hpos Hl. unfold save_invoice.
  rewrite (bind_ok_step _ _ _ None db) by (unfold gets; by rewrite <- Hnew).
  rewrite (bind_ok_step _ _ _ () db) by done.
  rewrite (bind_ok_step _ _ _ None db) by (unfold gets; by rewrite Hpk).
  rewrite (bind_ok_step _ _ _ () db) by done.
  rewrite (bind_ok_step _ _ _ () db) by (destruct (Z.ltb_spec (inv_total_vnd inv) 0); [lia|done]).
  rewrite (bind_ok_step _ _ _ () (set_invoices (<[inv_id inv := inv]> (invoices db)) db)) by done.
  assert (forallb line_ok lines = true) as ->; [|done].
  apply forallb_forall. rewrite Forall_forall in Hl. intros l Hin. apply Hl. by apply list_elem_of_In.
Qed.

Lemma sum_nonneg_le lines :
  Forall (λ l, line_ok l = true) lines → sumZ (il_amount_vnd <$> lines) ≤ MAX_VND →
  0 ≤ sumZ (il_amount_vnd <$> lines) ∧ existsb (λ l, MAX_VND <? il_amount_vnd l) lines = false.
Proof.
  induction 1 as [|l lines Hl Hls IH]; [done|]. rewrite fmap_cons, sumZ_cons. intros Hs. simpl.
  assert (0 ≤ il_amount_vnd l) as Ha.
  { unfold line_ok in Hl. rewrite !andb_true_iff, !Z.leb_le in Hl. tauto. }
  assert (0 ≤ sumZ (il_amount_vnd <$> lines)) as Hpos.
  { apply sumZ_nonneg. rewrite Forall_fmap. eapply Forall_impl; [exact Hls|]. intros x Hx.
    unfold line_ok in Hx. rewrite !andb_true_iff, !Z.leb_le in Hx. simpl. tauto. }
  destruct IH as [_ ->]; [lia|]. destruct (Z.ltb_spec MAX_VND (il_amount_vnd l)); [lia|]. split; [lia|done].
Qed.

(** The guards and reads of [_create_invoice] up to the lines. *)
Lemma create_invoice_guards charging e driver st readings intervals bend o db :
  billable charging e driver st readings intervals bend o db →
  ∃ daily db1, marked db db1 ∧ daily_exact charging st bend db daily ∧
  _create_invoice charging e db =
  (lines ← lift (invoice_lines_of charging st e readings daily intervals (next_id db));
   let total := sumZ (il_amount_vnd <$> lines) in
   raise_if ((MAX_VND <? total) || existsb (λ l, MAX_VND <? il_amount_vnd l) lines)
     (InvalidInvoice "invoice_amount_overflow");;
   now ← gets db_now;
   let invoice := mkInvoice (next_id db) (cs_id charging) driver (st_id st) total
     (if cs_billing_lifecycle_version charging =? 1 then ROUNDING_RULE else LEGACY_ROUNDING_RULE) now in
   save_invoice invoice lines;; mret invoice) (set_next_id (next_id db + 1) db1).
Proof.
  intros Hbill. destruct (daily_tariffs_run true _ _ _ _ _ _ _ _ _ Hbill) as (daily & db1 & Hdaily & Hm & Hex).
  destruct Hbill as [(cp & cn & Hcp & Hcn & Heq & Hst & _) Hdr Hacc Hint Hread Hocc _ _ _ _ _].
  exists daily, db1. split_and!; [done|done|]. unfold _create_invoice.
  rewrite (bind_ok_step _ _ _ (Some cp) db) by (unfold gets; by rewrite Hcp).
  rewrite (bind_ok_step _ _ _ (Some cn) db) by (unfold gets; by rewrite Hcn).
  rewrite (bind_ok_step _ _ _ (cp, cn) db) by done.
  rewrite (bind_ok_step _ _ _ () db) by (by rewrite Heq, Z.eqb_refl).
  rewrite (bind_ok_step _ _ _ driver db) by (by rewrite Hdr).
  rewrite (bind_ok_step _ _ _ () db) by (by rewrite bool_decide_eq_true_2).
  rewrite (bind_ok_step _ _ _ (Some st) db) by (unfold gets; by rewrite Hst).
  rewrite (bind_ok_step _ _ _ st db) by done.
  rewrite (bind_ok_step _ _ _ () db) by (destruct (Z.leb_spec e (cs_started_at charging)); [lia|done]).
  rewrite (bind_ok_step _ _ _ _ _ Hread), (bind_ok_step _ _ _ _ _ Hocc), (bind_ok_step _ _ _ _ _ Hdaily).
  assert (next_id db1 = next_id db) as <- by (by rewrite (marked_db _ _ Hm)). done.
Qed.

(** The invoice of a billable session whose amount fits. *)
Lemma create_invoice_run charging e driver st readings intervals bend o db :
  billable charging e driver st readings intervals bend o db →
  ∃ energy idle, lines_correct charging e st intervals db energy idle ∧
    (∃ daily, daily_exact charging st bend db daily ∧
      invoice_lines_of charging st e readings daily intervals (next_id db) = inr (energy ++ idle)) ∧
    let total := sumZ (il_amount_vnd <$> energy ++ idle) in
    let inv := mkInvoice (next_id db) (cs_id charging) driver (st_id st) total
      (if cs_billing_lifecycle_version charging =? 1 then ROUNDING_RULE else LEGACY_ROUNDING_RULE) (db_now db) in
    (total ≤ MAX_VND → ∃ db', _create_invoice charging e db = (inr inv, db') ∧ saved inv (energy ++ idle) db db') ∧
    (MAX_VND < total → ∃ db', _create_invoice charging e db =
       (inl (InvalidInvoice "invoice_amount_overflow"), db')).
Proof.
  intros Hbill. destruct (create_invoice_guards _ _ _ _ _ _ _ _ _ Hbill) as (daily & db1 & Hm & Hex & Hrun).
  destruct (lines_of_correct _ _ _ _ _ _ _ _ _ _ (next_id db) Hbill Hex) as (energy & idle & Hlines & Hcorrect).
  exists energy, idle. split; [done|]. split; [by exists daily|]. intros total inv. rewrite Hrun.
  rewrite (bind_ok_step _ _ _ (energy ++ idle) (set_next_id (next_id db + 1) db1)) by (unfold lift; by rewrite Hlines).
  fold total. split.
  - intros Hle. destruct (sum_nonneg_le _ (correct_valid _ _ _ _ _ _ _ Hcorrect) Hle) as [Hpos Hex'].
    rewrite (bind_ok_step _ _ _ () (set_next_id (next_id db + 1) db1))
      by (rewrite Hex'; destruct (Z.ltb_spec MAX_VND total); [lia|done]).
    rewrite (bind_ok_step _ _ _ (db_now db) (set_next_id (next_id db + 1) db1))
      by (unfold gets; simpl; by rewrite (marked_db _ _ Hm)). fold inv.
    destruct (billable_new _ _ _ _ _ _ _ _ _ Hbill) as [Hn1 Hn2].
    assert (invoice_of_session (inv_session_id inv) (set_next_id (next_id db + 1) db1) = None) as Hs1.
    { unfold invoice_of_session in *. simpl. by rewrite (marked_db _ _ Hm). }
    assert (invoices (set_next_id (next_id db + 1) db1) !! inv_id inv = None) as Hs2.
    { simpl. by rewrite (marked_db _ _ Hm). }
    pose proof (save_invoice_run inv (energy ++ idle) _ Hs1 Hs2 Hpos (correct_valid _ _ _ _ _ _ _ Hcorrect)) as Hsave.
    eexists. split; [by rewrite (bind_ok_step _ _ _ _ _ Hsave)|].
    exists db1. split; [done|]. simpl. by rewrite (marked_db _ _ Hm).
  - intros Hgt. exists (set_next_id (next_id db + 1) db1). cbv zeta.
    assert ((MAX_VND <? total) = true) as -> by (by apply Z.ltb_lt). done.
Qed.
End invoice.

(** ** The contract *)

(** C3. For every billable session [_create_invoice] stores exactly one
    invoice with its lines unless the total passes [MAX_VND]: the energy lines
    add up to the metered energy, each is priced by the band of the tariff in
    force on its local date, the idle lines add up to the fee of the occupied
    minutes, every line passes the checks of the table, the total is the sum of
    the lines, and nothing but the invoice, its lines, the id counter and the
    usage marks of the tariffs changes. *)
Theorem create_invoice_correct {dep : Deployment} charging e driver st readings intervals bend o db :
  billable charging e driver st readings intervals bend o db →
  ∃ energy idle, lines_correct charging e st intervals db energy idle ∧
    let total := sumZ (il_amount_vnd <$> energy ++ idle) in
    let inv := mkInvoice (next_id db) (cs_id charging) driver (st_id st) total
      (if cs_billing_lifecycle_version charging =? 1 then ROUNDING_RULE else LEGACY_ROUNDING_RULE) (db_now db) in
    (total ≤ MAX_VND → ∃ db', _create_invoice charging e db = (inr inv, db') ∧ saved inv (energy ++ idle) db db') ∧
    (MAX_VND < total → ∃ db', _create_invoice charging e db =
       (inl (InvalidInvoice "invoice_amount_overflow"), db')).
Proof. intros (energy & idle & ? & _ & ?)%create_invoice_run. by exists energy, idle. Qed.

(** A session of one hour that crosses a price band, left plugged in for half
    an hour after it. *)
Definition bill_session : ChargingSession :=
  mkSession 1 40 41 (Some 2) "CARD" "Accepted" (hours 14) (Some (hours 16)) None 1 "explicit"
    (Some (hours 16 + 30 * minute_us)) None None 0 (Some 3000000000) None None None None None None None []
    (hours 14).

Definition bill_charge_point : ChargePoint :=
  mkChargePoint 40 30 "online" (Some (hours 16)) 60 None None None None (hours 14) None (Some (hours 10)) None None
    None None "CP-40" 0 None.
Definition bill_connector : Connector := mkConnector 41 40 1 "Available" None None (hours 14) None None None None None None.

Definition bill_interval : OccupationInterval :=
  mkInterval 1 1 (hours 16) (Some (hours 16 + 30 * minute_us)) true (Some "released").

Definition bill_db : Db :=
  set_charge_points {[ 40 := bill_charge_point ]} (set_connectors {[ 41 := bill_connector ]}
    (set_charging_sessions {[ 1 := bill_session ]} (set_occupation_intervals [bill_interval] demo_tariff_db))).

Definition bill_readings : list MeterValue := [mkMeter (hours 14) 0; mkMeter (hours 16) 3000000000].

Lemma bill_billable : billable (dep := demo_deployment) bill_session (hours 16) 2 demo_station bill_readings
  [bill_interval] (hours 16 + 30 * minute_us) (7 * 3600000000) bill_db.
Proof.
  split.
  - exists bill_charge_point, bill_connector. split_and!; vm_compute; reflexivity.
  - reflexivity.
  - reflexivity.
  - vm_compute. reflexivity.
  - vm_compute. reflexivity.
  - vm_compute. reflexivity.
  - intros occ Hocc. change (occ ∈ [(hours 16, hours 16 + 30 * minute_us)]) in Hocc.
    apply list_elem_of_singleton in Hocc as ->. vm_compute. split; discriminate.
  - exact ho_chi_minh_fixed.
  - intros d Hd. assert (d = 0) as ->.
    { change (0 ≤ d ≤ 0) in Hd. lia. }
    vm_compute. eauto.
  - split; [destruct demo_tariff_ok; by split|].
    intros k t Hk. assert (k = 200) as ->; [|lia].
    change (tariffs bill_db) with (<[200 := mkTariff 200 30 0 None 500 10]> (∅ : gmap Z Tariff)) in Hk.
    apply lookup_insert_Some in Hk as [[<- _]|[_ Hk]]; [done|]. by rewrite lookup_empty in Hk.
  - split; vm_compute; reflexivity.
Qed.

Lemma create_invoice_correct_witness :
  ∃ inv db', _create_invoice (dep := demo_deployment) bill_session (hours 16) bill_db = (inr inv, db') ∧
    inv_total_vnd inv = 1500 + 4500 + 20 * 500.
Proof.
  destruct (create_invoice_correct _ _ _ _ _ _ _ _ _ bill_billable) as (energy & idle & [He Hp Hi _] & H1 & H2).
  destruct (_create_invoice (dep := demo_deployment) bill_session (hours 16) bill_db) as [[x|inv] db'] eqn:E.
  - vm_compute in E. discriminate E.
  - exists inv, db'. split; [reflexivity|].
    assert (inv = (match (_create_invoice (dep := demo_deployment) bill_session (hours 16) bill_db).1 with
      inr i => i | inl _ => inv end)) as -> by (by rewrite E). vm_compute. reflexivity.
Defined.
