(* ===== verification/Notifications.v ===== *)
(** * Notifications: what drivers are told

    Models [src/src/modules/driver_notifications/service.py] (the estimate of
    a running bill and the insertion of one notification per event). *)

From S2P Require Import Prelude Money Bands Clock Segmentation Text Store AuditTrail Wallet Pricing Invoicing InvoiceSpec.

(** ** The estimate *)

(** [except (_InvalidInvoice, ValueError)]: the subclasses of [ValueError]. *)
Definition is_value_error (e : Exn) : bool :=
  match e with
  | ValueError | InvalidInvoice _ | WalletAmountError | ManualTopupReasonError
  | TariffEffectiveDateError | TariffBandsError => true
  | _ => false
  end.

Section notifications.
Context {dep : Deployment}.

(** The idle lines of the estimate are only added up, so their invoice id is
    never stored. *)
Fixpoint occupied_total (charging : ChargingSession) (station : Station) (at_ : Z)
    (versions : gmap Z Tariff) (l : list (Z * Z)) : Exn + Z :=
  match l with
  | [] => inr 0
  | (start, finish) :: rest =>
      if at_ <=? start then occupied_total charging station at_ versions rest
      else
        lines ← _idle_lines charging station (Z.min finish at_) versions 0 (Some start);
        xs ← occupied_total charging station at_ versions rest;
        mret (sumZ (il_amount_vnd <$> lines) + xs)
  end.

Definition occupied_intervals (charging : ChargingSession) (end_ at_ : Z) (db : Db) : list (Z * Z) :=
  if cs_billing_lifecycle_version charging =? 0
  then match cs_idle_since charging with Some i => [(i, end_)] | None => [] end
  else (λ i, (oi_started_at i, default at_ (oi_ended_at i))) <$>
         filter (λ i, oi_session_id i = cs_id charging ∧ oi_confirmed i = true) (occupation_intervals db).

(** The body of the [try]. *)
Definition estimate (charging : ChargingSession) (station : Station) (end_ at_ : Z) : Tx (option Z) :=
  if end_ <=? cs_started_at charging then mret None
  else
    readings ← _meter_values charging end_;
    daily ← _daily_tariffs station (cs_started_at charging) (Z.max end_ at_) false;
    segments ← lift (seg_result (chia_doan (cs_started_at charging) end_ readings daily.2
                                   (zoneinfo (st_timezone station))));
    intervals ← gets (occupied_intervals charging end_ at_);
    idle ← lift (occupied_total charging station at_ daily.1 intervals);
    mret (Some (sumZ (amount_vnd <$> segments) + idle)).

Definition estimated_amount (charging : ChargingSession) (station : Station) (at_ : Z) : Tx (option Z) :=
  match cs_ended_at charging, cs_review_reasons charging with
  | Some end_, [] =>
      try_except (estimate charging station end_ at_)
        (λ e, if is_value_error e then Some (mret None) else None)
  | _, _ => mret None
  end.

(** ** Events *)

Definition titles (kind : NotifyKind) : string :=
  match kind with
  | notify_stop => "Đã dừng sạc — Vui lòng kiểm tra súng sạc"
  | notify_idle => "Đã bắt đầu tính phí chiếm trụ"
  | notify_invoice => "Hóa đơn phiên sạc đã sẵn sàng"
  end.

(** The time of the event: [None] sends nothing. *)
Definition event_time (charging : ChargingSession) (kind : NotifyKind) (invoice : option Invoice)
    (at_ : option Z) : Exn + option Z :=
  match kind with
  | notify_invoice => match invoice with Some i => inr (Some (inv_created_at i)) | None => inl ValueError end
  | notify_stop => inr (cs_ended_at charging)
  | notify_idle => match at_ with Some t => inr (Some t) | None => inl AssertionError end
  end.

Definition station_of (charging : ChargingSession) (db : Db) : option Station :=
  cp ← charge_points db !! cs_charge_point_id charging; stations db !! cp_station_id cp.

Definition notified_energy (charging : ChargingSession) : option Z :=
  match cs_energy_uwh charging, cs_meter_stop_uwh charging with
  | Some e, _ => Some e
  | None, Some stop =>
      if (cs_meter_start_uwh charging <=? stop) && (0 <=? cs_meter_start_uwh charging)
      then Some (stop - cs_meter_start_uwh charging) else None
  | None, None => None
  end.

(** The columns of [uq_driver_notification_event]. *)
Definition same_event (driver : Z) (kind : NotifyKind) (eid : string) (n : DriverNotification) : bool :=
  (dn_driver_id n =? driver) && bool_decide (dn_event_type n = kind) && bool_decide (dn_event_id n = eid).

(** [insert(...).on_conflict_do_nothing(...)] *)
Definition insert_notification (driver session_id : Z) (kind : NotifyKind) (eid title : string)
    (message : Message) (at_ : Z) : Tx () :=
  dup ← gets (λ db, first_where (same_event driver kind eid) (driver_notifications db));
  match dup with
  | Some _ => mret ()
  | None =>
      id ← fresh_id;
      modify (λ db, set_driver_notifications (driver_notifications db ++
        [mkNotification id driver session_id kind eid title message at_ (db_now db) None email_pending 0
           (db_now db) None None]) db)
  end.

Definition notify_event (charging : ChargingSession) (kind : NotifyKind) (invoice : option Invoice)
    (at_ : option Z) (event_id : option string) : Tx () :=
  match cs_driver_id charging with
  | None => mret ()
  | Some driver =>
      user ← gets (λ db, users db !! driver);
      match user with
      | None => mret ()
      | Some u =>
          if negb (bool_decide (u_status u = "active")) then mret ()
          else
            st ← gets (station_of charging);
            match st with
            | None => mret ()
            | Some station =>
                t ← lift (event_time charging kind invoice at_);
                match t with
                | None => mret ()
                | Some t =>
                    now ← gets db_now;
                    if t <? now - driver_notification_retention_days * day_us then mret ()
                    else
                      amount ← match invoice with
                               | Some i => mret (Some (inv_total_vnd i))
                               | None => estimated_amount charging station t
                               end;
                      insert_notification driver (cs_id charging) kind
                        (match event_id with
                         | Some e => if bool_decide (e = "") then str_int (cs_id charging) else e
                         | None => str_int (cs_id charging)
                         end)
                        (titles kind)
                        (mkMessage (st_name station) t (notified_energy charging) amount
                           (bool_decide (is_Some invoice))) t
                end
            end
      end
  end.
End notifications.

(** ** Read-only computations *)

Lemma pure_raise {A} (e : Exn) : pure_tx (raise (A := A) e).
Proof. done. Qed.
Lemma pure_try {A} (m : Tx A) h : pure_tx m → (∀ e k, h e = Some k → pure_tx k) → pure_tx (try_except m h).
Proof.
  intros Hm Hh db. unfold try_except. specialize (Hm db). destruct (m db) as [[e|a] db']; simpl in *; [|done].
  subst db'. destruct (h e) as [k|] eqn:E; [|done]. by apply (Hh e).
Qed.
#[export] Hint Resolve pure_raise : csms.

(** ** The estimate only reads *)

Section estimate_pure.
Context {dep : Deployment}.

Lemma pure_lay_bieu_gia s ngay : pure_tx (lay_bieu_gia_hieu_luc s ngay).
Proof. unfold lay_bieu_gia_hieu_luc, _station. auto 10 with csms. Qed.
Lemma pure_version_frames s t : pure_tx (version_frames s t false).
Proof. unfold version_frames. apply pure_bind; [done|]. intros _. apply pure_bind; [done|]. intros l. by case_match. Qed.
#[local] Hint Resolve pure_lay_bieu_gia pure_version_frames : csms.

Lemma pure_daily_loop s n : ∀ day cached acc, pure_tx (daily_loop s false day n cached acc).
Proof.
  induction n as [|n IH]; intros day cached acc; cbn [daily_loop]; [done|].
  repeat (apply pure_bind; [auto with csms|intros ?]); [|done]. case_match; auto with csms.
Qed.

#[local] Hint Resolve pure_daily_loop : csms.

Lemma pure_estimated_amount charging station at_ : pure_tx (estimated_amount charging station at_).
Proof.
  unfold estimated_amount. destruct (cs_ended_at charging), (cs_review_reasons charging); try done.
  apply pure_try; [|intros x k; case_match; [by intros [= <-]|done]].
  unfold estimate. case_match; [done|]. unfold _daily_tariffs. auto 20 with csms.
Qed.
End estimate_pure.
#[export] Hint Resolve pure_lay_bieu_gia pure_version_frames pure_daily_loop : csms.

(** ** The estimate is the invoice total *)

Lemma energy_lines_amounts iid segs energy :
  energy_lines iid segs = inr energy → sumZ (il_amount_vnd <$> energy) = sumZ (amount_vnd <$> segs).
Proof.
  revert energy. induction segs as [|s segs IH]; intros energy; cbn [energy_lines].
  { by intros [= <-]. }
  intros (x & Hx & H)%sum_bind_ok. apply sum_bind_ok in H as (xs & Hxs & [= <-]).
  apply sum_bind_ok in Hx as (t & _ & [= <-]). rewrite !fmap_cons, !sumZ_cons. rewrite (IH _ Hxs). done.
Qed.

Section estimate.
Context {dep : Deployment}.

(** The lines of an invoice are its segments and its idle part. *)
Lemma invoice_lines_of_amounts charging st e readings daily intervals iid lines :
  invoice_lines_of charging st e readings daily intervals iid = inr lines →
  ∃ segs idle, chia_doan (cs_started_at charging) e readings daily.2 (zoneinfo (st_timezone st)) = inr segs ∧
    (if cs_billing_lifecycle_version charging =? 0
      then _idle_lines charging st e daily.1 iid None
      else interval_lines charging st daily.1 iid intervals) = inr idle ∧
    sumZ (il_amount_vnd <$> lines) = sumZ (amount_vnd <$> segs) + sumZ (il_amount_vnd <$> idle).
Proof.
  unfold invoice_lines_of. intros (segs & Hs & H)%sum_bind_ok.
  destruct (negb _); [done|]. apply sum_bind_ok in H as (energy & He & H).
  apply sum_bind_ok in H as (idle & Hi & [= <-]). exists segs, idle.
  split_and!; [|done|by rewrite fmap_app, sumZ_app, (energy_lines_amounts _ _ _ He)].
  destruct (chia_doan _ _ _ _ _); [done|]. by injection Hs as ->.
Qed.

Lemma daily_exact_frames charging st bend db d1 d2 :
  daily_exact charging st bend db d1 → daily_exact charging st bend db d2 → d1.2 = d2.2.
Proof.
  intros H1 H2. apply map_eq. intros d. specialize (H1 d). specialize (H2 d). case_decide.
  - destruct H1 as (t & r & Ht & _ & _ & ->), H2 as (t' & r' & Ht' & _ & _ & ->). congruence.
  - destruct H1 as [_ ->], H2 as [_ ->]. done.
Qed.

Lemma occupied_total_fee charging st o bend db daily l :
  fixed_offset (zoneinfo (st_timezone st)) o → tariffs_ok db → daily_exact charging st bend db daily →
  (∀ occ, occ ∈ l → cs_started_at charging ≤ occ.1 ≤ occ.2 ∧ occ.2 ≤ bend) →
  occupied_total charging st bend daily.1 l =
  inr (sumZ (occupation_fee (zoneinfo (st_timezone st)) (st_id st) db <$> l)).
Proof.
  intros Hz Hok Hex. destruct (daily_exact_facts _ _ _ _ _ Hok Hex) as (_ & Hrates & _).
  assert (∀ d, local_date (zoneinfo (st_timezone st)) (cs_started_at charging) ≤ d ≤
    local_date (zoneinfo (st_timezone st)) (bend - 1) → day_tariff (st_id st) d db daily) as Hdays.
  { intros d Hd. specialize (Hex d). by rewrite decide_True in Hex. }
  induction l as [|[s f] l IH]; intros Hl; [done|]. cbn [occupied_total].
  destruct (Hl (s, f) ltac:(set_solver)) as [Hs Hf]; simpl in Hs, Hf.
  destruct (idle_lines_fee charging st o bend db daily Hz Hok Hdays Hrates 0 (Some s) s f) as (x & Hx & Hsum & _);
    [done|lia|lia|].
  rewrite fmap_cons, sumZ_cons, IH by (intros; apply Hl; set_solver). rewrite <- Hsum.
  destruct (Z.leb_spec bend s) as [Hb|Hb].
  - assert (x = []) as ->; [|done]. revert Hx. unfold _idle_lines.
    destruct (Z.ltb_spec s (cs_started_at charging)), (Z.ltb_spec f s); try lia.
    destruct (Z.eqb_spec s f); [|lia]. simpl. by intros [= <-].
  - rewrite Z.min_l by lia. rewrite Hx. done.
Qed.

Lemma daily_tariffs_read charging e driver st readings intervals bend o db :
  billable charging e driver st readings intervals bend o db →
  ∃ daily, _daily_tariffs st (cs_started_at charging) bend false db = (inr daily, db) ∧
    daily_exact charging st bend db daily.
Proof.
  intros Hbill. destruct (daily_tariffs_run false _ _ _ _ _ _ _ _ _ Hbill) as (daily & db1 & Hrun & _ & Hex).
  exists daily. split; [|done]. rewrite Hrun. f_equal.
  pose proof (pure_daily_loop (st_id st) (Z.to_nat (local_date (zoneinfo (st_timezone st)) (bend - 1) -
    local_date (zoneinfo (st_timezone st)) (cs_started_at charging) + 1))
    (local_date (zoneinfo (st_timezone st)) (cs_started_at charging)) ∅ (∅, ∅) db) as Hpure.
  unfold _daily_tariffs in Hrun. by rewrite Hrun in Hpure.
Qed.

(** What the invoice bills as occupation is what the estimate adds up. *)
Lemma occupied_intervals_billed charging e l bend db :
  cs_billing_lifecycle_version charging = 0 ∨ cs_billing_lifecycle_version charging = 1 →
  billed_occupation charging e db = (inr (l, bend), db) →
  occupied_intervals charging e bend db = occupations charging e l.
Proof.
  unfold occupied_intervals, occupations, billed_occupation. intros [-> | ->]; [done|]. simpl. intros H.
  apply bind_ok in H as (r & s1 & H1 & H). destruct (cs_connector_released_at charging); [|done].
  injection H1 as <- <-. apply bind_ok in H as (l' & s2 & [= <- <-] & H).
  apply bind_ok in H as ([] & s3 & H1 & [= Hl _ _]). apply raise_if_ok, orb_false_iff in H1 as [Hlen Hend].
  unfold confirmed_intervals in *. set (f := filter _ (occupation_intervals db)) in *.
  assert (sort_by oi_started_at f = f) as Heq.
  { apply sort_by_id. rewrite sort_by_perm in Hlen.
    destruct f as [|a [|b f']]; [constructor|repeat constructor|].
    apply Z.ltb_ge in Hlen. cbn [length] in Hlen. lia. }
  rewrite Heq in *. subst l. apply list_fmap_ext. intros i x Hx.
  rewrite <- not_true_iff_false, existsb_exists in Hend.
  destruct (decide (oi_ended_at x = Some z)) as [->|Hne]; [done|]. exfalso. apply Hend. exists x.
  split; [by eapply list_elem_of_In, list_elem_of_lookup_2|]. apply negb_true_iff, bool_decide_eq_false. naive_solver.
Qed.

Lemma estimate_run charging e driver st readings intervals bend o db :
  billable charging e driver st readings intervals bend o db →
  cs_billing_lifecycle_version charging = 0 ∨ cs_billing_lifecycle_version charging = 1 →
  ∃ total, estimate charging st e bend db = (inr (Some total), db) ∧
    (total ≤ MAX_VND → ∃ inv db', _create_invoice charging e db = (inr inv, db') ∧ inv_total_vnd inv = total) ∧
    (MAX_VND < total → ∃ db', _create_invoice charging e db =
      (inl (InvalidInvoice "invoice_amount_overflow"), db')).
Proof.
  intros Hbill Hver.
  destruct (create_invoice_run _ _ _ _ _ _ _ _ _ Hbill) as (energy & idle & _ & (daily & Hex & Hlines) & Hle & Hgt).
  destruct (daily_tariffs_read _ _ _ _ _ _ _ _ _ Hbill) as (daily2 & Hread & Hex2).
  destruct (invoice_lines_of_amounts _ _ _ _ _ _ _ _ Hlines) as (segs & idl & Hsegs & Hidl & Hsum).
  destruct (idle_part _ _ _ _ _ _ _ _ _ _ (next_id db) Hbill Hex) as (idl' & Hidl' & Hfee & _).
  rewrite Hidl in Hidl'. injection Hidl' as <-.
  rewrite (daily_exact_frames _ _ _ _ _ _ Hex Hex2) in Hsegs.
  exists (sumZ (il_amount_vnd <$> energy ++ idle)). split.
  - destruct Hbill as [_ _ _ Hint Hmeter Hocc Hidle Hz _ [Hok _] _].
    destruct (billed_occupation_ok _ _ _ _ _ _ Hocc) as [Hbend Hends].
    unfold estimate. destruct (Z.leb_spec e (cs_started_at charging)); [lia|].
    rewrite (bind_ok_step _ _ _ _ _ Hmeter). rewrite Z.max_r by lia. rewrite (bind_ok_step _ _ _ _ _ Hread).
    rewrite (bind_ok_step _ _ _ segs db) by (unfold lift; by rewrite Hsegs).
    rewrite (bind_ok_step _ _ _ (occupations charging e intervals) db)
      by (unfold gets; by rewrite (occupied_intervals_billed _ _ _ _ _ Hver Hocc)).
    unfold lift. rewrite (occupied_total_fee charging st o bend db daily2 (occupations charging e intervals)); try done.
    + rewrite (bind_ok_step _ _ _ _ db eq_refl). by rewrite Hsum, Hfee.
    + intros occ Hin. split; [by apply Hidle|]. revert Hin. unfold occupations. case_match.
      * destruct (cs_idle_since charging); [|by intros ?%elem_of_nil]. intros ->%list_elem_of_singleton. done.
      * intros (i & -> & Hi)%list_elem_of_fmap. destruct (Hends i Hi) as (r & -> & ?). done.
  - split; [|by intros []%Hgt; eauto]. intros (db' & Hrun & _)%Hle. by eexists _, _.
Qed.
End estimate.

(** The amount a driver is shown before the invoice exists is the amount
    of the invoice: for a billable session without review reasons the estimate
    at the end of the billed time writes nothing and returns the very total
    [_create_invoice] stores, or more than [MAX_VND] exactly when
    [_create_invoice] refuses the amount. *)
Theorem estimated_amount_is_invoice_total {dep : Deployment} charging e driver st readings intervals bend o db :
  billable charging e driver st readings intervals bend o db →
  cs_billing_lifecycle_version charging = 0 ∨ cs_billing_lifecycle_version charging = 1 →
  cs_ended_at charging = Some e → cs_review_reasons charging = [] →
  ∃ total, estimated_amount charging st bend db = (inr (Some total), db) ∧
    (total ≤ MAX_VND → ∃ inv db', _create_invoice charging e db = (inr inv, db') ∧ inv_total_vnd inv = total) ∧
    (MAX_VND < total → ∃ db', _create_invoice charging e db =
      (inl (InvalidInvoice "invoice_amount_overflow"), db')).
Proof.
  intros Hbill Hver He Hr. destruct (estimate_run _ _ _ _ _ _ _ _ _ Hbill Hver) as (total & Hest & Hrest).
  exists total. split; [|done]. unfold estimated_amount, try_except. by rewrite He, Hr, Hest.
Qed.

Lemma estimated_amount_is_invoice_total_witness :
  estimated_amount (dep := demo_deployment) bill_session demo_station (hours 16 + 30 * minute_us) bill_db =
  (inr (Some 16000), bill_db).
Proof.
  destruct (estimated_amount_is_invoice_total _ _ _ _ _ _ _ _ _ bill_billable) as (total & H & _).
  - right. reflexivity.
  - reflexivity.
  - reflexivity.
  - rewrite H. assert (inr (Some total) = inr (A := Exn) (Some 16000)) as ->; [|reflexivity].
    transitivity (estimated_amount (dep := demo_deployment) bill_session demo_station
      (hours 16 + 30 * minute_us) bill_db).1; [by rewrite H|]. vm_compute. reflexivity.
Defined.

(** ** One notification per event *)

Definition event_key (n : DriverNotification) : Z * NotifyKind * string :=
  (dn_driver_id n, dn_event_type n, dn_event_id n).

Definition events_unique (db : Db) : Prop := NoDup (event_key <$> driver_notifications db).

(** The only change: one more row, not yet mailed. *)
Definition notified (n : DriverNotification) (db : Db) : Db :=
  set_driver_notifications (driver_notifications db ++ [n]) (set_next_id (next_id db + 1) db).

Definition fresh_notification (n : DriverNotification) (db : Db) : Prop :=
  dn_id n = next_id db ∧ dn_created_at n = db_now db ∧ dn_read_at n = None ∧ dn_email_status n = email_pending ∧
  dn_attempts n = 0 ∧ dn_next_attempt_at n = db_now db ∧ dn_lease_until n = None ∧ dn_lease_token n = None.

Lemma same_event_key d k e n : same_event d k e n = true ↔ event_key n = (d, k, e).
Proof.
  unfold same_event, event_key. rewrite !andb_true_iff, Z.eqb_eq, !bool_decide_eq_true. naive_solver.
Qed.

Lemma insert_notification_cases d s k e title msg t db r db' :
  insert_notification d s k e title msg t db = (r, db') →
  r = inr () ∧
  ((db' = db ∧ ∃ n, n ∈ driver_notifications db ∧ event_key n = (d, k, e)) ∨
   (∃ n, db' = notified n db ∧ (∀ m, m ∈ driver_notifications db → event_key m ≠ (d, k, e)) ∧
      event_key n = (d, k, e) ∧ fresh_notification n db ∧
      dn_session_id n = s ∧ dn_title n = title ∧ dn_message n = msg ∧ dn_occurred_at n = t)).
Proof.
  unfold insert_notification. intros H.
  apply bind_pure in H as [(x & Hx & _)|(dup & [= <-] & H)]; [done| |done].
  destruct (first_where _ _) as [n|] eqn:E.
  - injection H as <- <-. split; [done|]. left. split; [done|]. apply first_where_Some in E as [? ?%same_event_key]. eauto.
  - injection H as <- <-. split; [done|]. right. eexists. split; [reflexivity|]. split; [|done].
    rewrite first_where_None in E. intros m Hm Hk. apply same_event_key in Hk. by rewrite E in Hk.
Qed.

Definition notify_key (charging : ChargingSession) (driver : Z) (kind : NotifyKind) (event_id : option string) :=
  (driver, kind, match event_id with
                 | Some e => if bool_decide (e = "") then str_int (cs_id charging) else e
                 | None => str_int (cs_id charging)
                 end).

(** Who gets a notification, and what it says. *)
Definition notifiable {dep : Deployment} (charging : ChargingSession) (kind : NotifyKind) (invoice : option Invoice)
    (at_ : option Z) (db : Db) (driver t : Z) (msg : Message) : Prop :=
  cs_driver_id charging = Some driver ∧
  (∃ u, users db !! driver = Some u ∧ u_status u = "active") ∧
  (∃ st, station_of charging db = Some st ∧ msg_station_name msg = st_name st ∧
     match invoice with
     | Some i => msg_amount_vnd msg = Some (inv_total_vnd i)
     | None => estimated_amount charging st t db = (inr (msg_amount_vnd msg), db)
     end) ∧
  event_time charging kind invoice at_ = inr (Some t) ∧
  db_now db - driver_notification_retention_days * day_us ≤ t ∧
  msg_at msg = t ∧ msg_energy_uwh msg = notified_energy charging ∧
  msg_final msg = bool_decide (is_Some invoice).

Section notify.
Context {dep : Deployment}.

Lemma notify_event_cases charging kind invoice at_ eid db r db' :
  notify_event charging kind invoice at_ eid db = (r, db') →
  db' = db ∨
  ∃ driver t msg n, notifiable charging kind invoice at_ db driver t msg ∧
    r = inr () ∧ db' = notified n db ∧ event_key n = notify_key charging driver kind eid ∧
    (∀ m, m ∈ driver_notifications db → event_key m ≠ event_key n) ∧ fresh_notification n db ∧
    dn_session_id n = cs_id charging ∧ dn_title n = titles kind ∧ dn_message n = msg ∧ dn_occurred_at n = t.
Proof.
  unfold notify_event. destruct (cs_driver_id charging) as [driver|] eqn:Hd; [|intros [= _ <-]; by left]. intros H.
  apply bind_pure in H as [(x & Hx & _)|(u & [= Hu] & H)]; [done| |done].
  destruct u as [u|]; [|injection H as _ <-; by left].
  destruct (negb _) eqn:Hact; [injection H as _ <-; by left|].
  apply bind_pure in H as [(x & Hx & _)|(st & [= Hst] & H)]; [done| |done].
  destruct st as [st|]; [|injection H as _ <-; by left].
  apply bind_pure in H as [(x & _ & _ & ->)|(t & [= Ht] & H)]; [by left| |apply pure_lift].
  destruct t as [t|]; [|injection H as _ <-; by left].
  apply bind_pure in H as [(x & Hx & _)|(now & [= <-] & H)]; [done| |done].
  destruct (Z.ltb_spec t (db_now db - driver_notification_retention_days * day_us)) as [|Hret];
    [injection H as _ <-; by left|].
  apply bind_pure in H as [(x & _ & _ & ->)|(amount & Ham & H)]; [by left| |].
  2: { destruct invoice; [done|apply pure_estimated_amount]. }
  apply insert_notification_cases in H as [-> [[-> _]|(n & -> & Hnew & Hkey & Hf & Hs & Htl & Hm & Hat)]]; [by left|].
  right. eexists driver, t, _, n. split_and!; try done; [|by rewrite Hkey].
  unfold notifiable. split_and!; try done.
  - apply negb_false_iff, bool_decide_eq_true in Hact. eauto.
  - exists st. split_and!; try done. destruct invoice; [by injection Ham as <-|done].
Qed.

(** An event already in the table adds nothing. *)
Lemma notify_event_again charging kind invoice at_ eid db driver n :
  cs_driver_id charging = Some driver → n ∈ driver_notifications db →
  event_key n = notify_key charging driver kind eid →
  (notify_event charging kind invoice at_ eid db).2 = db.
Proof.
  intros Hd Hn Hk. destruct (notify_event _ _ _ _ _ db) as [r db'] eqn:E.
  apply notify_event_cases in E as [->|(d & t & msg & m & (Hd' & _) & _ & -> & Hk' & Hnew & _)]; [done|].
  rewrite Hd in Hd'. injection Hd' as <-. exfalso. apply (Hnew n Hn). congruence.
Qed.
End notify.

(** One notification per driver, kind and event: a call of [notify_event]
    keeps the events of the table distinct, either changes nothing or appends
    one unmailed row for an active driver about an event within the retention
    period, with the final amount when there is an invoice and the estimate
    otherwise; and repeating the call changes nothing. *)
Theorem notify_event_once {dep : Deployment} charging kind invoice at_ eid db r db' :
  events_unique db → notify_event charging kind invoice at_ eid db = (r, db') →
  events_unique db' ∧ (notify_event charging kind invoice at_ eid db').2 = db' ∧
  (db' = db ∨
   ∃ driver t msg n, notifiable charging kind invoice at_ db driver t msg ∧ r = inr () ∧ db' = notified n db ∧
     event_key n = notify_key charging driver kind eid ∧ fresh_notification n db ∧
     dn_session_id n = cs_id charging ∧ dn_title n = titles kind ∧ dn_message n = msg ∧ dn_occurred_at n = t).
Proof.
  intros Hu H. pose proof (notify_event_cases _ _ _ _ _ _ _ _ H) as
    [->|(driver & t & msg & n & Hnot & -> & -> & Hk & Hnew & Hf & Hrest)].
  - rewrite H. auto.
  - split_and!.
    + unfold events_unique, notified in *. simpl. rewrite fmap_app. apply NoDup_app. split_and!; [done| |apply NoDup_singleton].
      intros x (m & -> & Hm)%list_elem_of_fmap Hx%list_elem_of_singleton. by apply (Hnew m).
    + apply (notify_event_again _ _ _ _ _ _ driver n); [apply Hnot| |done].
      simpl. apply elem_of_app. right. by apply list_elem_of_singleton.
    + right. exists driver, t, msg, n. done.
Qed.

Lemma notify_event_once_witness :
  let db' := (notify_event (dep := demo_deployment) bill_session notify_stop None None None bill_db).2 in
  length (driver_notifications db') = 1%nat ∧
  (notify_event (dep := demo_deployment) bill_session notify_stop None None None db').2 = db'.
Proof.
  destruct (notify_event_once (dep := demo_deployment) bill_session notify_stop None None None bill_db
    (notify_event (dep := demo_deployment) bill_session notify_stop None None None bill_db).1
    (notify_event (dep := demo_deployment) bill_session notify_stop None None None bill_db).2) as (_ & H & _).
  - constructor.
  - by destruct (notify_event _ _ _ _ _ _).
  - split; [vm_compute; reflexivity|exact H].
Defined.
