(* ===== verification/Delivery.v ===== *)
(** * Delivery: mailing the notifications under a lease

    Models [deliver_one] and the purge of [scan_tick] of
    [src/src/modules/driver_notifications/worker.py]. A worker claims a row in
    one transaction, sends the mail outside any transaction and records the
    outcome in a second one, so other workers run in between. *)

From S2P Require Import Prelude Clock Text Store AuditTrail Wallet Notifications.

Definition lease_us : Z := 2 * 60 * 1000000.

(** What a worker carries between its two transactions. *)
Record Delivery := mkDelivery {
  de_item : Z; de_token : Z; de_attempts : Z; de_claimed_at : Z
}.

(** [2 ** min(attempts, 6)] seconds, at most a minute. *)
Definition backoff_us (attempts : Z) : Z := Z.min 60 (2 ^ Z.min attempts 6) * 1000000.

Definition lapsed (t : option Z) (now : Z) : bool :=
  match t with Some u => u <=? now | None => false end.

(** [WHERE id = ...]: the rows of one id. *)
Definition update_notification (P : DriverNotification → bool) (f : DriverNotification → DriverNotification)
    (db : Db) : Db :=
  set_driver_notifications ((λ n, if P n then f n else n) <$> driver_notifications db) db.

Definition leased (token now : Z) (n : DriverNotification) : DriverNotification :=
  mkNotification (dn_id n) (dn_driver_id n) (dn_session_id n) (dn_event_type n) (dn_event_id n) (dn_title n)
    (dn_message n) (dn_occurred_at n) (dn_created_at n) (dn_read_at n) email_sending (dn_attempts n + 1)
    (dn_next_attempt_at n) (Some (now + lease_us)) (Some token).

Definition concluded (status : EmailStatus) (next_attempt_at : Z) (n : DriverNotification) : DriverNotification :=
  mkNotification (dn_id n) (dn_driver_id n) (dn_session_id n) (dn_event_type n) (dn_event_id n) (dn_title n)
    (dn_message n) (dn_occurred_at n) (dn_created_at n) (dn_read_at n) status (dn_attempts n)
    next_attempt_at None None.

Section delivery.
Context {dep : Deployment}.

Definition user_active (u : Z) (db : Db) : bool :=
  match users db !! u with Some r => bool_decide (u_status r = "active") | None => false end.

(** The [WHERE] clause of the claim. *)
Definition claimable (now : Z) (db : Db) (n : DriverNotification) : bool :=
  user_active (dn_driver_id n) db &&
  ((bool_decide (dn_email_status n = email_pending) && (dn_next_attempt_at n <=? now)) ||
   (bool_decide (dn_email_status n = email_sending) && lapsed (dn_lease_until n) now)) &&
  (now - driver_notification_retention_days * day_us <=? dn_created_at n).

(** [ORDER BY next_attempt_at LIMIT 1 FOR UPDATE SKIP LOCKED]: [locked] are the
    rows other transactions hold. *)
Definition next_due (locked : Z → bool) (now : Z) (db : Db) : option DriverNotification :=
  head (sort_by dn_next_attempt_at
    (filter (λ n, claimable now db n = true ∧ locked (dn_id n) = false) (driver_notifications db))).

Definition delete_notification (id : Z) (db : Db) : Db :=
  set_driver_notifications (filter (λ n, dn_id n ≠ id) (driver_notifications db)) db.

(** The first transaction: [(handled, delivery)]. [others] are the changes of
    other transactions that become visible between its two queries. *)
Definition claim (smtp_enabled : bool) (locked : Z → bool) (others : Db → Db) : Tx (bool * option Delivery) :=
  if negb smtp_enabled then mret (false, None)
  else
    now ← gets db_now;
    row ← gets (next_due locked now);
    match row with
    | None => mret (false, None)
    | Some row =>
        modify others;;
        active ← gets (user_active (dn_driver_id row));
        if negb active then modify (delete_notification (dn_id row));; mret (true, None)
        else
          token ← fresh_id;
          modify (update_notification (λ n, dn_id n =? dn_id row) (leased token now));;
          mret (true, Some (mkDelivery (dn_id row) token (dn_attempts row + 1) now))
    end.

(** The second transaction, after the mail was sent or failed. *)
Definition conclude (d : Delivery) (sent : bool) : Tx () :=
  now ← gets db_now;
  modify (update_notification
    (λ n, (dn_id n =? de_item d) && bool_decide (dn_lease_token n = Some (de_token d)))
    (concluded (if sent then email_sent else email_pending) (now + backoff_us (de_attempts d)))).

(** The purge of [scan_tick]. *)
Definition purge (db : Db) : Db :=
  set_driver_notifications
    (filter (λ n, db_now db - driver_notification_retention_days * day_us ≤ dn_created_at n)
       (driver_notifications db)) db.
End delivery.

(** ** Workers, crashes and the rest of the system as one step relation *)

Record Mailer := mkMailer { m_db : Db; m_inflight : list Delivery }.

(** A change elsewhere: the notification table is as it was. *)
Definition elsewhere (db db' : Db) : Prop :=
  driver_notifications db' = driver_notifications db ∧ next_id db ≤ next_id db' ∧ db_now db ≤ db_now db'.

Section system.
Context {dep : Deployment}.

Inductive mail_step : Mailer → Mailer → Prop :=
  | step_claim smtp locked others db fl handled d db' :
      (∀ x, elsewhere x (others x)) → claim smtp locked others db = (inr (handled, d), db') →
      mail_step (mkMailer db fl) (mkMailer db' (option_list d ++ fl))
  | step_conclude db l1 d l2 sent :
      mail_step (mkMailer db (l1 ++ d :: l2)) (mkMailer (conclude d sent db).2 (l1 ++ l2))
  | step_crash db l1 d l2 :
      mail_step (mkMailer db (l1 ++ d :: l2)) (mkMailer db (l1 ++ l2))
  | step_notify db fl n :
      fresh_notification n db → mail_step (mkMailer db fl) (mkMailer (notified n db) fl)
  | step_purge db fl : mail_step (mkMailer db fl) (mkMailer (purge db) fl)
  | step_elsewhere db fl db' : elsewhere db db' → mail_step (mkMailer db fl) (mkMailer db' fl).

(** The lease columns agree with the status. *)
Definition lease_ok (n : DriverNotification) : Prop :=
  match dn_email_status n with
  | email_sending => is_Some (dn_lease_until n) ∧ is_Some (dn_lease_token n)
  | _ => dn_lease_until n = None ∧ dn_lease_token n = None
  end.

(** A worker holds the lease, or has outlived it. *)
Definition holds (now : Z) (d : Delivery) (n : DriverNotification) : Prop :=
  (dn_lease_token n = Some (de_token d) ∧ dn_lease_until n = Some (de_claimed_at d + lease_us)) ∨
  (dn_lease_token n ≠ Some (de_token d) ∧ de_claimed_at d + lease_us ≤ now).

(** Two deliveries of one notification are a lease apart. *)
Definition apart (a b : Delivery) : Prop :=
  de_item a = de_item b → a = b ∨ de_claimed_at a + lease_us ≤ de_claimed_at b ∨
    de_claimed_at b + lease_us ≤ de_claimed_at a.

Record mail_ok (m : Mailer) : Prop := mkMailOk {
  mail_ids : NoDup (dn_id <$> driver_notifications (m_db m));
  mail_fresh : ∀ n, n ∈ driver_notifications (m_db m) → dn_id n < next_id (m_db m) ∧
    ∀ t, dn_lease_token n = Some t → t < next_id (m_db m);
  mail_leases : ∀ n, n ∈ driver_notifications (m_db m) → lease_ok n;
  mail_distinct : NoDup (de_token <$> m_inflight m);
  mail_tokens : ∀ d, d ∈ m_inflight m → de_token d < next_id (m_db m) ∧ de_item d < next_id (m_db m);
  mail_holds : ∀ d n, d ∈ m_inflight m → n ∈ driver_notifications (m_db m) → dn_id n = de_item d →
    holds (db_now (m_db m)) d n;
  mail_apart : ∀ a b, a ∈ m_inflight m → b ∈ m_inflight m → apart a b;
}.

(** Fewer rows or fewer workers. *)
Lemma mail_ok_sub db db' fl fl' :
  mail_ok (mkMailer db fl) → next_id db ≤ next_id db' → db_now db ≤ db_now db' →
  NoDup (dn_id <$> driver_notifications db') →
  (∀ n, n ∈ driver_notifications db' → n ∈ driver_notifications db) → (∀ d, d ∈ fl' → d ∈ fl) →
  NoDup (de_token <$> fl') → mail_ok (mkMailer db' fl').
Proof.
  intros [H1 H2 H3 Hdt H4 H5 H6] Hid Hnow Hnd Hrows Hfl Hfd; simpl in *. split; simpl; try done.
  - intros n Hn. destruct (H2 n (Hrows n Hn)) as [? Ht]. split; [lia|]. intros t ?%Ht. lia.
  - auto.
  - intros d Hd. destruct (H4 d (Hfl d Hd)). lia.
  - intros d n Hd Hn Hi. destruct (H5 d n (Hfl d Hd) (Hrows n Hn) Hi) as [?|[? ?]]; [by left|right; split; [done|lia]].
  - auto.
Qed.

Lemma elsewhere_ok db db' fl : elsewhere db db' → mail_ok (mkMailer db fl) → mail_ok (mkMailer db' fl).
Proof.
  intros (Hr & Hid & Hnow) Hok. apply (mail_ok_sub db _ fl); try done; [rewrite Hr; apply Hok|by rewrite Hr|apply Hok].
Qed.

Lemma filtered_ok (P : DriverNotification → Prop) `{!∀ n, Decision (P n)} db fl :
  mail_ok (mkMailer db fl) →
  mail_ok (mkMailer (set_driver_notifications (filter P (driver_notifications db)) db) fl).
Proof.
  intros Hok. apply (mail_ok_sub db _ fl); try done; simpl.
  - apply NoDup_fmap_filter, Hok.
  - by intros n [_ ?]%list_elem_of_filter.
  - apply Hok.
Qed.

Lemma fewer_workers_ok db l1 d l2 : mail_ok (mkMailer db (l1 ++ d :: l2)) → mail_ok (mkMailer db (l1 ++ l2)).
Proof.
  intros Hok. apply (mail_ok_sub db _ (l1 ++ d :: l2)); try done; [apply Hok|intros x; set_solver|].
  destruct Hok as [_ _ _ Hd _ _ _]. simpl in Hd. rewrite fmap_app in Hd |- *. rewrite fmap_cons in Hd.
  rewrite <- Permutation_middle in Hd. by apply NoDup_cons in Hd as [_ Hd].
Qed.

Lemma notified_ok db fl n : fresh_notification n db → mail_ok (mkMailer db fl) → mail_ok (mkMailer (notified n db) fl).
Proof.
  intros (Hid & _ & _ & Hst & _ & _ & Hl & Ht) [H1 H2 H3 Hdt H4 H5 H6]; simpl in *.
  assert (∀ x, x ∈ driver_notifications db ++ [n] → x ∈ driver_notifications db ∨ x = n) as Hcase.
  { intros x [?|?%list_elem_of_singleton]%elem_of_app; auto. }
  split; simpl.
  - rewrite fmap_app. apply NoDup_app. split_and!; [done| |apply NoDup_singleton].
    intros x (m & -> & Hm)%list_elem_of_fmap Hx%list_elem_of_singleton. destruct (H2 m Hm). lia.
  - intros x [Hx | ->]%Hcase.
    + destruct (H2 x Hx) as [? Htok]. split; [lia|]. intros t ?%Htok. lia.
    + rewrite Ht. split; [lia|done].
  - intros x [Hx | ->]%Hcase; [auto|]. unfold lease_ok. by rewrite Hst.
  - done.
  - intros d Hd. destruct (H4 d Hd). lia.
  - intros d x Hd [Hx | ->]%Hcase Hi; [auto|]. destruct (H4 d Hd). lia.
  - done.
Qed.

Lemma elem_of_updated P f db x :
  x ∈ driver_notifications (update_notification P f db) →
  ∃ y, y ∈ driver_notifications db ∧ x = if P y then f y else y.
Proof. simpl. intros (y & -> & Hy)%list_elem_of_fmap. eauto. Qed.

Lemma updated_ids P f db :
  (∀ n, dn_id (f n) = dn_id n) →
  dn_id <$> driver_notifications (update_notification P f db) = dn_id <$> driver_notifications db.
Proof. intros Hf. simpl. rewrite <- list_fmap_compose. apply list_fmap_ext. intros i n _. simpl. by destruct (P n). Qed.

(** The worker that records an outcome writes only the row it still leases. *)
Lemma conclude_ok d sent db l1 l2 :
  mail_ok (mkMailer db (l1 ++ d :: l2)) → mail_ok (mkMailer (conclude d sent db).2 (l1 ++ l2)).
Proof.
  intros Hok. pose proof (fewer_workers_ok _ _ _ _ Hok) as [H1 H2 H3 Hdt H4 H5 H6].
  destruct Hok as [_ _ _ Hd _ _ _].
  set (P := λ n, (dn_id n =? de_item d) && bool_decide (dn_lease_token n = Some (de_token d))).
  set (f := concluded (if sent then email_sent else email_pending) (db_now db + backoff_us (de_attempts d))).
  change ((conclude d sent db).2) with (update_notification P f db). simpl in *. split; simpl; try done.
  - change (NoDup (dn_id <$> driver_notifications (update_notification P f db))). by rewrite updated_ids.
  - intros x (y & Hy & ->)%elem_of_updated. destruct (H2 y Hy). by destruct (P y).
  - intros x (y & Hy & ->)%elem_of_updated. destruct (P y); [|auto]. unfold lease_ok. simpl. by destruct sent.
  - intros d' x Hd' (y & Hy & ->)%elem_of_updated Hi. destruct (P y) eqn:HP; [|auto].
    apply andb_true_iff in HP as [Hid%Z.eqb_eq Htok%bool_decide_eq_true].
    destruct (H5 d' y Hd' Hy Hi) as [[Ht' _]|[_ Hexp]]; [|by right]. exfalso.
    rewrite fmap_app, fmap_cons, <- Permutation_middle in Hd. apply NoDup_cons in Hd as [Hd _]. apply Hd.
    rewrite <- fmap_app. apply list_elem_of_fmap. exists d'. split; [congruence|done].
Qed.

Lemma next_due_Some locked now db n :
  next_due locked now db = Some n → n ∈ driver_notifications db ∧ claimable now db n = true.
Proof.
  unfold next_due. intros H%head_Some_elem_of. rewrite elem_of_sort_by in H.
  by apply list_elem_of_filter in H as [[? _] ?].
Qed.

(** A claimed row is free: nobody holds a running lease on it. *)
Lemma claimable_free db fl n d :
  mail_ok (mkMailer db fl) → n ∈ driver_notifications db → claimable (db_now db) db n = true →
  d ∈ fl → de_item d = dn_id n → de_claimed_at d + lease_us ≤ db_now db.
Proof.
  intros Hok Hn Hc Hd Hi. destruct (mail_holds _ Hok d n Hd Hn (eq_sym Hi)) as [[Ht Hu]|[_ ?]]; [|done].
  pose proof (mail_leases _ Hok n Hn) as Hl. unfold lease_ok in Hl. unfold claimable in Hc.
  apply andb_true_iff in Hc as [[_ Hc]%andb_true_iff _]. destruct (dn_email_status n); simpl in Hc.
  - destruct Hl. congruence.
  - rewrite Hu in Hc. simpl in Hc. lia.
  - done.
Qed.

Lemma leased_ok db fl row :
  mail_ok (mkMailer db fl) → row ∈ driver_notifications db → claimable (db_now db) db row = true →
  ∀ x, elsewhere db x →
  mail_ok (mkMailer
    (update_notification (λ n, dn_id n =? dn_id row) (leased (next_id x) (db_now db)) (set_next_id (next_id x + 1) x))
    (mkDelivery (dn_id row) (next_id x) (dn_attempts row + 1) (db_now db) :: fl)).
Proof.
  intros Hok Hrow Hc x He. pose proof (claimable_free db fl row) as Hfree.
  assert (∀ d, d ∈ fl → de_item d = dn_id row → de_claimed_at d + lease_us ≤ db_now db) as Hexp by eauto.
  pose proof (elsewhere_ok _ _ _ He Hok) as [H1 H2 H3 Hdt H4 H5 H6]. destruct He as (Hr & Hid & Hnow). simpl in *.
  assert (dn_id row < next_id x) as Hri by (apply H2; by rewrite Hr).
  split; simpl.
  - change (NoDup (dn_id <$> driver_notifications (update_notification (λ n, dn_id n =? dn_id row)
      (leased (next_id x) (db_now db)) x))). by rewrite updated_ids.
  - intros n (y & Hy & ->)%elem_of_updated. simpl in Hy. destruct (H2 y Hy) as [? Ht].
    destruct (dn_id y =? dn_id row); simpl; (split; [lia|]).
    + intros t [= <-]. lia.
    + intros t ?%Ht. lia.
  - intros n (y & Hy & ->)%elem_of_updated. simpl in Hy. destruct (dn_id y =? dn_id row); [|auto].
    unfold lease_ok. simpl. eauto.
  - apply NoDup_cons. split; [|done]. intros (d & Hd1 & Hd)%list_elem_of_fmap. destruct (H4 d Hd). lia.
  - intros d [-> | Hd]%elem_of_cons; simpl; [lia|]. destruct (H4 d Hd). lia.
  - intros d n [-> | Hd]%elem_of_cons (y & Hy & ->)%elem_of_updated Hi; simpl in Hy.
    + simpl in Hi. assert (dn_id y = dn_id row) as Hi' by (by destruct (dn_id y =? dn_id row)).
      rewrite Hi', Z.eqb_refl. by left.
    + destruct (Z.eqb_spec (dn_id y) (dn_id row)) as [E|E]; [|auto].
      right. simpl in *. destruct (H4 d Hd). split; [|specialize (Hexp d Hd ltac:(congruence)); lia].
      intros [= ?]. lia.
  - intros a b [-> | Ha]%elem_of_cons [-> | Hb]%elem_of_cons; [by left| | |auto]; intros Hi; simpl in *.
    + right. right. auto.
    + right. left. auto.
Qed.

(** The outcomes of a claim. *)
Lemma claim_cases smtp locked others db handled d db' :
  claim smtp locked others db = (inr (handled, d), db') →
  (db' = db ∧ d = None) ∨
  ∃ row, row ∈ driver_notifications db ∧ claimable (db_now db) db row = true ∧
    ((d = None ∧ db' = delete_notification (dn_id row) (others db)) ∨
     (d = Some (mkDelivery (dn_id row) (next_id (others db)) (dn_attempts row + 1) (db_now db)) ∧
      db' = update_notification (λ n, dn_id n =? dn_id row) (leased (next_id (others db)) (db_now db))
              (set_next_id (next_id (others db) + 1) (others db)))).
Proof.
  unfold claim. destruct (negb smtp); [intros [= _ <- <-]; by left|]. intros H.
  apply bind_ok in H as (now & s1 & [= <- <-] & H). apply bind_ok in H as (row & s2 & [= Hrow <-] & H).
  destruct row as [row|]; [|injection H as _ <- <-; by left].
  apply next_due_Some in Hrow as [Hrow Hc]. right. exists row. split_and!; [done|done|].
  apply bind_ok in H as ([] & s3 & [= <-] & H). apply bind_ok in H as (act & s4 & [= <- <-] & H).
  destruct (negb _); [injection H as _ <- <-; auto|]. injection H as _ <- <-. auto.
Qed.

Lemma mail_step_ok m m' : mail_step m m' → mail_ok m → mail_ok m'.
Proof.
  intros [smtp locked others db fl handled d db' He Hc|db l1 d l2 sent|db l1 d l2|db fl n Hn|db fl|db fl db' He] Hok.
  - apply claim_cases in Hc as [[-> ->]|(row & Hrow & Hcl & [[-> ->]|[-> ->]])]; [done| |].
    + apply filtered_ok, (elsewhere_ok db); done.
    + by apply leased_ok.
  - by apply conclude_ok.
  - by eapply fewer_workers_ok.
  - by apply notified_ok.
  - by apply filtered_ok.
  - by eapply elsewhere_ok.
Qed.

(** Once mailed, a notification never changes and is never mailed again. *)
Definition mailed (n : DriverNotification) (m : Mailer) : Prop :=
  dn_id n < next_id (m_db m) ∧ ∀ n', n' ∈ driver_notifications (m_db m) → dn_id n' = dn_id n → n' = n.

Lemma mailed_update n P f db fl :
  mailed n (mkMailer db fl) → P n = false → (∀ x, dn_id (f x) = dn_id x) →
  ∀ fl', mailed n (mkMailer (update_notification P f db) fl').
Proof.
  intros [H1 H2] HP Hf fl'. split; [done|]. simpl in *. intros n' (y & Hy & ->)%elem_of_updated Hi.
  assert (y = n) as ->; [|by rewrite HP in *]. apply H2; [done|]. destruct (P y); [by rewrite <- Hi, Hf|done].
Qed.

Lemma mailed_sub n db db' fl fl' :
  mailed n (mkMailer db fl) → next_id db ≤ next_id db' →
  (∀ x, x ∈ driver_notifications db' → x ∈ driver_notifications db) → mailed n (mkMailer db' fl').
Proof. intros [H1 H2] Hid Hrows. simpl in *. split; simpl; [lia|]. auto. Qed.

Lemma mailed_step n m m' :
  mail_step m m' → dn_email_status n = email_sent → lease_ok n → mailed n m → mailed n m'.
Proof.
  intros Hstep Hs Hl Hm. assert (dn_lease_token n = None) as Hnt by (unfold lease_ok in Hl; rewrite Hs in Hl; tauto).
  destruct Hstep as [smtp locked others db fl handled d db' He Hc|db l1 d l2 sent|db l1 d l2|db fl x Hn|db fl|db fl db' He].
  - assert (∀ fl', mailed n (mkMailer (others db) fl')) as Hm'.
    { intros fl'. destruct (He db) as (Hr & ? & _). eapply mailed_sub; [done|done|]. by rewrite Hr. }
    apply claim_cases in Hc as [[-> ->]|(row & Hrow & Hcl & [[-> ->]|[-> ->]])]; [done| |].
    + apply (mailed_sub n (others db) _ fl); [done|done|]. by intros x [_ ?]%list_elem_of_filter.
    + apply (mailed_update n _ _ _ fl); [|apply Z.eqb_neq; intros Hi|done].
      { apply (mailed_sub n (others db) _ []); [done|simpl; lia|done]. }
      destruct Hm as [_ Hm]. specialize (Hm row Hrow (eq_sym Hi)) as ->. unfold claimable in Hcl.
      rewrite Hs in Hcl. simpl in Hcl. by rewrite andb_false_r in Hcl.
  - unfold conclude. eapply mailed_update; [done| |done]. rewrite Hnt. by rewrite andb_false_r.
  - done.
  - destruct Hm as [H1 H2], Hn as [Hid _]. simpl in *. split; simpl; [lia|].
    intros n' [? | ->%list_elem_of_singleton]%elem_of_app Hi; [auto|lia].
  - eapply mailed_sub; [done|done|]. by intros x [_ ?]%list_elem_of_filter.
  - destruct He as (Hr & ? & _). eapply mailed_sub; [done|done|]. by rewrite Hr.
Qed.
End system.

(** C39. Whatever the interleaving of workers, crashes, purges and the rest of
    the system: two deliveries of one notification in progress at the same time
    were claimed at least the lease of two minutes apart, a worker that
    outlived its lease no longer owns the row, and a notification recorded as
    sent is never claimed or changed again. *)
Theorem deliver_one_exclusive {dep : Deployment} m m' :
  mail_ok m → rtc mail_step m m' →
  mail_ok m' ∧
  (∀ a b, a ∈ m_inflight m' → b ∈ m_inflight m' → a ≠ b → de_item a = de_item b →
     lease_us ≤ Z.abs (de_claimed_at a - de_claimed_at b)) ∧
  (∀ n n', n ∈ driver_notifications (m_db m) → dn_email_status n = email_sent →
     n' ∈ driver_notifications (m_db m') → dn_id n' = dn_id n → n' = n).
Proof.
  intros Hok Hrun. assert (mail_ok m') as Hok'.
  { clear -Hok Hrun. induction Hrun as [|m m1 m2 Hs _ IH]; [done|]. by apply IH, (mail_step_ok m). }
  split_and!; [done| |].
  - intros a b Ha Hb Hab Hi. destruct (mail_apart _ Hok' a b Ha Hb Hi) as [?|[?|?]]; [done|lia|lia].
  - intros n n' Hn Hs. assert (mailed n m') as [_ Hm]; [|apply Hm].
    assert (mailed n m) as Hm.
    { split; [by apply (mail_fresh _ Hok)|]. intros x Hx Hi. destruct Hok as [Hnd _ _ _ _ _ _].
      apply list_elem_of_lookup in Hx as [i Hx], Hn as [j Hj].
      assert (i = j) as ->; [|congruence]. eapply NoDup_lookup; [exact Hnd| |].
      - by rewrite list_lookup_fmap, Hx.
      - by rewrite list_lookup_fmap, Hj, Hi. }
    assert (lease_ok n) as Hl by (by apply (mail_leases _ Hok)).
    clear Hok Hok' Hn. induction Hrun as [|m m1 m2 Hstep _ IH]; [done|]. apply IH. by eapply mailed_step.
Qed.

(** One notification, claimed by a worker that dies and claimed again later. *)
Definition mail_db : Db :=
  (notify_event (dep := Pricing.demo_deployment) InvoiceSpec.bill_session notify_stop None None None InvoiceSpec.bill_db).2.

Lemma mail_db_ok : mail_ok (mkMailer mail_db []).
Proof.
  assert (∃ n, driver_notifications mail_db = [n] ∧ dn_id n < next_id mail_db ∧ dn_lease_token n = None ∧
    lease_ok n) as (n & Hrows & Hn & Ht & Hl).
  { eexists. split; [vm_compute; reflexivity|]. vm_compute. auto. }
  split; cbn [m_db m_inflight]; rewrite ?Hrows.
  - apply NoDup_singleton.
  - intros x ->%list_elem_of_singleton. split; [exact Hn|]. rewrite Ht. discriminate.
  - intros x ->%list_elem_of_singleton. exact Hl.
  - constructor.
  - intros d Hd. apply elem_of_nil in Hd as [].
  - intros d x Hd. apply elem_of_nil in Hd as [].
  - intros a b Hd. apply elem_of_nil in Hd as [].
Qed.

Lemma deliver_one_exclusive_witness :
  ∃ m, rtc (mail_step (dep := Pricing.demo_deployment)) (mkMailer mail_db []) m ∧ length (m_inflight m) = 2%nat ∧
    ∀ a b, a ∈ m_inflight m → b ∈ m_inflight m → a ≠ b → de_item a = de_item b →
      lease_us ≤ Z.abs (de_claimed_at a - de_claimed_at b).
Proof.
  set (db1 := (claim (dep := Pricing.demo_deployment) true (λ _, false) id mail_db).2).
  set (db2 := set_db_now lease_us db1).
  set (db3 := (claim (dep := Pricing.demo_deployment) true (λ _, false) id db2).2).
  set (m := mkMailer db3 [mkDelivery 201 203 2 lease_us; mkDelivery 201 202 1 0]).
  assert (∀ x, elsewhere x (id x)) as Hid by (intros x; split; [reflexivity|unfold id; lia]).
  assert (rtc (mail_step (dep := Pricing.demo_deployment)) (mkMailer mail_db []) m) as Hrun.
  { eapply rtc_l; [eapply (step_claim true (λ _, false) id mail_db [] true (Some (mkDelivery 201 202 1 0)) db1);
      [exact Hid|vm_compute; reflexivity]|].
    eapply rtc_l; [apply (step_elsewhere db1 _ db2); split; [reflexivity|vm_compute; split; discriminate]|].
    eapply rtc_l; [eapply (step_claim true (λ _, false) id db2 _ true (Some (mkDelivery 201 203 2 lease_us)) db3);
      [exact Hid|vm_compute; reflexivity]|]. apply rtc_refl. }
  exists m. split; [exact Hrun|]. split; [reflexivity|].
  destruct (deliver_one_exclusive (dep := Pricing.demo_deployment) (mkMailer mail_db []) m) as (_ & H & _);
    [|exact Hrun|exact H].
  exact mail_db_ok.
Defined.
