(* ===== verification/Closure.v ===== *)
(** * Closure: invoicing and settling closed sessions

    Models [lap_hoa_don] of [src/src/modules/billing/invoicing.py] and the
    settlement of one session, [chot_phien], of
    [src/src/modules/billing/closure.py]; the recovery scan and the queue in
    front of it are in [ClosureScan]. *)

From S2P Require Import Prelude Money Bands Clock Segmentation Text Store AuditTrail Wallet Pricing Invoicing InvoiceSpec Notifications.

Inductive InvoiceStatus := invoice_ready | invoice_needs_review | invoice_pending.

#[export] Instance InvoiceStatus_dec : EqDecision InvoiceStatus.
Proof. solve_decision. Defined.

Record InvoiceResult := mkInvoiceResult {
  ir_status : InvoiceStatus; ir_invoice : option Invoice; ir_reason : option string
}.

(** The flush of a changed [ChargingSession] row. *)
Definition update_session (id : Z) (f : ChargingSession → ChargingSession) : Tx () :=
  modify (λ db, set_charging_sessions (alter f id (charging_sessions db)) db).

(** [charging.review_reasons = [*charging.review_reasons, reason]] *)
Definition add_review (reason : string) (c : ChargingSession) : ChargingSession :=
  set_cs_review_reasons (cs_review_reasons c ++ [reason]) c.

Section closure.
Context {dep : Deployment}.

(** [try: async with db.begin_nested(): _create_invoice(...)
     except _InvalidInvoice as exc]: the reason, or the invoice. *)
Definition attempt_invoice (charging : ChargingSession) (end_ : Z) : Tx (string + Invoice) :=
  try_except (i ← savepoint (_create_invoice charging end_); mret (inr i))
    (λ e, match e with InvalidInvoice reason => Some (mret (inl reason)) | _ => None end).

Definition lap_hoa_don (session_id : Z) : Tx InvoiceResult :=
  c ← gets (λ db, charging_sessions db !! session_id);
  charging ← some_or c InvoiceSessionNotFoundError;
  match cs_review_reasons charging, cs_ended_at charging with
  | _ :: _, _ => mret (mkInvoiceResult invoice_needs_review None (Some "invoice_session_needs_review"))
  | [], None => mret (mkInvoiceResult invoice_pending None (Some "invoice_session_in_progress"))
  | [], Some end_ =>
      existing ← gets (invoice_of_session session_id);
      match existing with
      | Some i =>
          notify_event charging notify_invoice (Some i) None None;;
          mret (mkInvoiceResult invoice_ready (Some i) None)
      | None =>
          if (cs_billing_lifecycle_version charging =? 1) &&
             bool_decide (cs_connector_released_at charging = None)
          then mret (mkInvoiceResult invoice_pending None (Some "invoice_awaiting_unplug"))
          else
            r ← attempt_invoice charging end_;
            match r with
            | inl reason =>
                update_session session_id (add_review reason);;
                mret (mkInvoiceResult invoice_needs_review None (Some reason))
            | inr i =>
                notify_event charging notify_invoice (Some i) None None;;
                mret (mkInvoiceResult invoice_ready (Some i) None)
            end
      end
  end.

(** The ledger rows that refer to a session. *)
Definition session_entry (session_id : Z) (e : WalletLedger) : Prop :=
  l_reference_id e = str_int session_id ∧
  (l_entry_type e = charging_debit ∨ l_reference_type e = "charging_session").

#[export] Instance session_entry_dec session_id e : Decision (session_entry session_id e).
Proof. unfold session_entry. apply _. Defined.

Definition session_entries (session_id : Z) (db : Db) : list WalletLedger :=
  filter (session_entry session_id) (wallet_ledger db).

(** The entries are not the one debit this invoice would make. *)
Definition entries_mismatch (invoice : Invoice) (wallet : option Wallet) (entries : list WalletLedger) : bool :=
  match entries, wallet with
  | [e], Some w =>
      negb (l_wallet_id e =? w_id w) || negb (bool_decide (l_entry_type e = charging_debit)) ||
      negb (bool_decide (l_reference_type e = "charging_session")) ||
      negb (l_amount_vnd e =? - inv_total_vnd invoice) || (inv_total_vnd invoice =? 0)
  | _, _ => true
  end.

Definition settle_session (now : Z) (invoice : Invoice) (c : ChargingSession) : ChargingSession :=
  set_cs_settlement_reason (Some (if inv_total_vnd invoice =? 0 then zero_invoice else debited))
    (set_cs_settlement_completed_at (Some now) c).

Definition _chot_phien_in_session (session_id : Z) (settle : bool) : Tx InvoiceResult :=
  c ← gets (λ db, charging_sessions db !! session_id);
  match c with
  | None => lap_hoa_don session_id
  | Some charging =>
      if bool_decide (is_Some (cs_settlement_completed_at charging)) then lap_hoa_don session_id
      else
        outcome ← lap_hoa_don session_id;
        match ir_status outcome, ir_invoice outcome with
        | invoice_ready, Some invoice =>
            if negb settle then mret outcome
            else
              wallet ← gets (wallet_of_driver (inv_driver_id invoice));
              entries ← gets (session_entries session_id);
              if negb (bool_decide (entries = [])) && entries_mismatch invoice wallet entries then
                update_session session_id (add_review "settlement_ledger_mismatch");;
                mret (mkInvoiceResult invoice_needs_review None (Some "settlement_ledger_mismatch"))
              else
                (if bool_decide (entries = []) then tru_vi (Some invoice) None None None;; mret () else mret ());;
                now ← gets db_now;
                update_session session_id (settle_session now invoice);;
                mret outcome
        | _, _ => mret outcome
        end
  end.

(** Its own transaction: committed, or rolled back as a whole. *)
Definition chot_phien (session_id : Z) (settle : bool) : Tx InvoiceResult :=
  savepoint (_chot_phien_in_session session_id settle).
End closure.

(** ** What invoicing leaves alone *)

(** Users, wallets, ledger and sessions are as they were. *)
Definition same_accounts (db0 db : Db) : Prop :=
  users db = users db0 ∧ wallets db = wallets db0 ∧ wallet_ledger db = wallet_ledger db0 ∧
  charging_sessions db = charging_sessions db0 ∧ db_now db = db_now db0.

Lemma keeps_accounts_other db0 (f : Db → Db) :
  (∀ db, same_accounts db (f db)) → keeps (E := Exn) (same_accounts db0) (modify f).
Proof.
  intros Hf db (H1 & H2 & H3 & H4 & H5). destruct (Hf db) as (F1 & F2 & F3 & F4 & F5).
  unfold same_accounts, modify. simpl. by rewrite F1, F2, F3, F4, F5.
Qed.

Lemma keeps_accounts_fresh_id db0 : keeps (same_accounts db0) fresh_id.
Proof. intros db H. exact H. Qed.
#[export] Hint Resolve keeps_accounts_fresh_id : csms_keeps.
#[export] Hint Extern 2 (keeps (same_accounts _) (modify _)) =>
  apply keeps_accounts_other; intros; repeat split; reflexivity : csms_keeps.

(** Reading the tariffs of the days writes only the tariff table. *)
Section tariff_frame.
Context {dep : Deployment} (I : Db → Prop) (HI : ∀ v db, I db → I (set_tariffs v db)).

Lemma keeps_version_frames s t b : keeps I (version_frames s t b).
Proof.
  unfold version_frames, danh_dau_bieu_gia_da_dung. keeps_steps. apply keeps_modify. intros db. apply HI.
Qed.
#[local] Hint Resolve keeps_version_frames : csms_keeps.

Lemma keeps_daily_loop s b n : ∀ day cached acc, keeps I (daily_loop s b day n cached acc).
Proof. induction n as [|n IH]; intros day cached acc; cbn [daily_loop]; [apply keeps_ret|]. keeps_steps. Qed.
End tariff_frame.

Section frame.
Context {dep : Deployment} (db0 : Db).

Lemma keeps_accounts_create_invoice charging e : keeps (same_accounts db0) (_create_invoice charging e).
Proof.
  unfold _create_invoice, _daily_tariffs, save_invoice. pose proof (pure_billed_occupation charging e).
  keeps_steps. by apply keeps_daily_loop.
Qed.

Lemma keeps_accounts_notify charging kind inv at_ eid : keeps (same_accounts db0) (notify_event charging kind inv at_ eid).
Proof.
  intros db H. destruct (notify_event _ _ _ _ _ db) as [r db'] eqn:E.
  by apply notify_event_cases in E as [->|(d & t & msg & n & _ & _ & -> & _)].
Qed.
End frame.

Lemma same_accounts_refl db : same_accounts db db.
Proof. done. Qed.

(** ** What [_create_invoice] stores *)

Definition lines_of (inv : Invoice) (lines : list InvoiceLine) : Prop :=
  sumZ (il_amount_vnd <$> lines) = inv_total_vnd inv ∧ Forall (λ l, line_ok l = true) lines.

(** One new invoice for a session that had none, its lines adding up to its total. *)
Definition invoiced (inv : Invoice) (c : ChargingSession) (db db' : Db) : Prop :=
  inv_session_id inv = cs_id c ∧ cs_driver_id c = Some (inv_driver_id inv) ∧
  0 ≤ inv_total_vnd inv ≤ MAX_VND ∧
  invoice_of_session (cs_id c) db = None ∧ invoices db !! inv_id inv = None ∧
  invoices db' = <[inv_id inv := inv]> (invoices db) ∧
  ∃ lines, invoice_lines db' = invoice_lines db ++ lines ∧ lines_of inv lines.

Lemma save_invoice_ok inv lines db db' :
  save_invoice inv lines db = (inr (), db') →
  invoice_of_session (inv_session_id inv) db = None ∧ invoices db !! inv_id inv = None ∧ 0 ≤ inv_total_vnd inv ∧
  Forall (λ l, line_ok l = true) lines ∧
  db' = set_invoice_lines (invoice_lines db ++ lines) (set_invoices (<[inv_id inv := inv]> (invoices db)) db).
Proof.
  unfold save_invoice. intros H.
  tx_read H dup Hdup. injection Hdup as Hdup. tx_read H u1 H1. apply raise_if_ok, bool_decide_eq_false in H1.
  tx_read H pk Hpk. injection Hpk as Hpk. tx_read H u2 H2. apply raise_if_ok, bool_decide_eq_false in H2.
  tx_read H u3 H3. apply raise_if_ok, Z.ltb_ge in H3.
  rewrite (bind_ok_step _ _ _ () (set_invoices (<[inv_id inv := inv]> (invoices db)) db)) in H by done.
  destruct (forallb line_ok lines) eqn:Hl; [|done].
  injection H as <-. split_and!; try done.
  - unfold invoice_of_session. rewrite Hdup. by destruct dup; [exfalso; apply H1; eauto|].
  - rewrite Hpk. by destruct pk; [exfalso; apply H2; eauto|].
  - rewrite forallb_forall in Hl. apply Forall_forall. intros x Hx. apply Hl. by apply list_elem_of_In.
Qed.

Section created.
Context {dep : Deployment}.

Definition same_invoices (db0 db : Db) : Prop :=
  invoices db = invoices db0 ∧ invoice_lines db = invoice_lines db0.

Lemma create_invoice_ok charging e db inv db' :
  _create_invoice charging e db = (inr inv, db') → invoiced inv charging db db'.
Proof.
  unfold _create_invoice. intros H. tx_read H cp Hcp. tx_read H cn Hcn.
  apply bind_pure in H as [(? & _ & ? & _)|([cp' cn'] & _ & H)]; [discriminate| |by repeat case_match].
  tx_read H u1 Hx1. tx_read H driver Hd. tx_read H u2 Hx2. tx_read H st Hx3. tx_read H station Hx4. tx_read H u3 Hx5.
  tx_read H readings Hx6. apply bind_pure in H as [(? & _ & ? & _)|([intervals bend] & _ & H)];
    [discriminate| |apply pure_billed_occupation].
  apply bind_ok in H as (daily & db1 & Hdaily & H).
  assert (same_invoices db db1) as [Hi Hl].
  { assert (keeps (same_invoices db) (_daily_tariffs station (cs_started_at charging) bend true)) as Hk
      by (by apply keeps_daily_loop). by apply (keeps_run _ _ _ _ _ Hk) in Hdaily. }
  apply bind_ok in H as (id & db2 & [= <- <-] & H). tx_read H lines Hx7. tx_read H u4 Hmax. tx_read H now Hx8.
  apply bind_ok in H as ([] & db3 & Hsave & [= <- <-]).
  apply save_invoice_ok in Hsave as (Hnew & Hpk & Hpos & Hlines & ->). simpl in *.
  apply raise_if_ok, orb_false_iff in Hmax as [Hmax%Z.ltb_ge _].
  destruct (cs_driver_id charging) eqn:Hdr; [|done]. injection Hd as ->.
  unfold invoice_of_session in *. simpl in *. rewrite Hi in *. unfold invoiced. simpl. rewrite Hl.
  split_and!; try done. exists lines. done.
Qed.

Definition keyed (db : Db) : Prop := ∀ k c, charging_sessions db !! k = Some c → cs_id c = k.

Lemma attempt_invoice_cases charging e db r db' :
  attempt_invoice charging e db = (r, db') →
  match r with
  | inl _ | inr (inl _) => db' = db
  | inr (inr inv) => _create_invoice charging e db = (inr inv, db')
  end.
Proof.
  unfold attempt_invoice, try_except, savepoint, mbind, M_bind.
  destruct (_create_invoice charging e db) as [[x|inv] db1]; [|by intros [= <- <-]].
  destruct x; by intros [= <- <-].
Qed.

(** The outcomes of [lap_hoa_don] on a session that exists. *)
Definition lap_outcome (id : Z) (c : ChargingSession) (db : Db) (o : InvoiceResult) (db' : Db) : Prop :=
  match ir_status o with
  | invoice_pending => ir_invoice o = None ∧ db' = db
  | invoice_needs_review =>
      ir_invoice o = None ∧
      ((cs_review_reasons c ≠ [] ∧ db' = db) ∨
       (cs_review_reasons c = [] ∧ ∃ reason, ir_reason o = Some reason ∧
          db' = set_charging_sessions (alter (add_review reason) id (charging_sessions db)) db))
  | invoice_ready =>
      same_accounts db db' ∧ cs_review_reasons c = [] ∧ is_Some (cs_ended_at c) ∧
      ∃ inv, ir_invoice o = Some inv ∧
        ((invoice_of_session id db = Some inv ∧ same_invoices db db') ∨ invoiced inv c db db')
  end.

(** Announcing a stored invoice. *)
Lemma notify_ready charging inv db1 r db' :
  (notify_event charging notify_invoice (Some inv) None None;;
   mret (mkInvoiceResult invoice_ready (Some inv) None)) db1 = (r, db') →
  same_accounts db1 db' ∧ same_invoices db1 db' ∧
  ∀ o, r = inr o → o = mkInvoiceResult invoice_ready (Some inv) None.
Proof.
  unfold mbind, M_bind. destruct (notify_event _ _ _ _ _ db1) as [r1 db2] eqn:E. intros H.
  assert (db2 = db') as -> by (by destruct r1; injection H as _ <-).
  apply notify_event_cases in E as [->|(d & t & msg & n & _ & -> & -> & _)];
    (split_and!; [done..|]); intros o ->; [destruct r1; [done|]|]; by injection H as <-.
Qed.

Lemma invoiced_same inv c db db1 db' : invoiced inv c db db1 → same_invoices db1 db' → invoiced inv c db db'.
Proof.
  intros (A1 & A2 & A3 & A4 & A5 & Hi & lines & Hl & A6) [B1 B2]. unfold invoiced. rewrite B1, B2, Hi, Hl.
  split_and!; try done; [apply A3..|]. by exists lines.
Qed.

Lemma lap_hoa_don_cases id db r db' :
  lap_hoa_don id db = (r, db') →
  match r with
  | inl _ => same_accounts db db'
  | inr o => ∃ c, charging_sessions db !! id = Some c ∧ lap_outcome id c db o db'
  end.
Proof.
  unfold lap_hoa_don, lap_outcome. intros H.
  apply bind_pure in H as [(? & ? & _)|(c & [= <-] & H)]; [done| |done].
  destruct (charging_sessions db !! id) as [c|] eqn:Hc; [|by injection H as <- <-].
  rewrite (bind_ok_step _ _ _ c db) in H by done.
  destruct (cs_review_reasons c) as [|x l] eqn:Hr; [|injection H as <- <-; exists c; simpl;
    split_and!; [done|done|left; split; congruence]].
  destruct (cs_ended_at c) as [e|] eqn:He; [|injection H as <- <-; by exists c].
  apply bind_pure in H as [(? & ? & _)|(ex & [= <-] & H)]; [done| |done].
  destruct (invoice_of_session id db) as [i|] eqn:Hi.
  { apply notify_ready in H as (Ha & Hs & Ho). destruct r as [|o]; [done|]. specialize (Ho o eq_refl) as ->.
    exists c. simpl. split_and!; eauto 10. }
  destruct (_ && _); [injection H as <- <-; by exists c|].
  unfold mbind, M_bind in H. destruct (attempt_invoice c e db) as [[x|[reason|i]] db1] eqn:E;
    apply attempt_invoice_cases in E; simpl in E; subst.
  - by injection H as <- <-.
  - injection H as <- <-. exists c. simpl. split; [done|]. split; [done|]. right. eauto.
  - pose proof (keeps_run _ _ _ _ _ (keeps_accounts_create_invoice db c e) (same_accounts_refl db) E) as Hacc.
    apply create_invoice_ok in E. apply (notify_ready c i db1) in H as (Ha & Hs & Ho).
    assert (same_accounts db db') as Hacc'.
    { destruct Hacc as (?&?&?&?&?), Ha as (?&?&?&?&?). repeat split; congruence. }
    destruct r as [|o]; [done|]. specialize (Ho o eq_refl) as ->. exists c. simpl. split; [done|]. split; [done|]. split; [done|].
    split; [by rewrite He|]. exists i. split; [done|]. right. by apply (invoiced_same _ _ _ db1).
Qed.
End created.

(** ** Debiting the wallet *)

(** The charging tables are as they were. *)
Definition same_sessions (db0 db : Db) : Prop :=
  charging_sessions db = charging_sessions db0 ∧ invoices db = invoices db0 ∧
  invoice_lines db = invoice_lines db0 ∧ db_now db = db_now db0.

Lemma keeps_sessions_other db0 (f : Db → Db) :
  (∀ db, same_sessions db (f db)) → keeps (E := Exn) (same_sessions db0) (modify f).
Proof.
  intros Hf db (H1 & H2 & H3 & H4). destruct (Hf db) as (F1 & F2 & F3 & F4).
  unfold same_sessions, modify. simpl. by rewrite F1, F2, F3, F4.
Qed.

Lemma keeps_sessions_ghi_so_cai db0 wid et amount rt ref actor :
  keeps (same_sessions db0) (ghi_so_cai wid et amount rt ref actor).
Proof.
  intros db H. destruct (ghi_so_cai _ _ _ _ _ _ db) as [r db'] eqn:E.
  apply ghi_so_cai_under_cases in E
    as [(? & _ & [-> | ->])|(row & w & _ & _ & _ & _ & _ & _ & [(-> & _)|(_ & _ & [(_ & _ & _ & ->)|(_ & _ & _ & ->)])])];
    done.
Qed.

Lemma keeps_sessions_ensure db0 d : keeps (same_sessions db0) (ensure_driver_wallet d).
Proof.
  unfold ensure_driver_wallet, insert_wallet, fresh_id. keeps_steps;
    apply keeps_sessions_other; intros; repeat split; reflexivity.
Qed.

Lemma ensure_driver_wallet_ok d db w db' :
  ledger_ok db → ensure_driver_wallet d db = (inr w, db') →
  ledger_ok db' ∧ wallet_of_driver d db' = Some w ∧ wallet_ledger db' = wallet_ledger db.
Proof.
  intros Hok H. pose proof (keeps_run _ _ _ _ _ (keeps_ensure_driver_wallet d) Hok H) as Hok'. split; [done|].
  unfold ensure_driver_wallet in H. tx_read H u Hu. tx_read H u1 Hu1.
  apply bind_ok in H as (k & db1 & [= <- <-] & H). apply bind_ok in H as ([] & db2 & Hins & H).
  assert (wallet_ledger db2 = wallet_ledger db) as Hl.
  { revert Hins. unfold insert_wallet, mbind, M_bind, gets.
    destruct (wallet_of_driver d _); [by intros [= <-]|]. destruct (wallets _ !! _); [done|]. by intros [= <-]. }
  tx_read H w' Hw'. injection Hw' as <-. destruct (wallet_of_driver d db2) eqn:E; [|done]. by injection H as <- <-.
Qed.

(** What a debit that returned has done, when the session had none. *)
Definition debited_now (inv : Invoice) (db db' : Db) : Prop :=
  ∃ row w, wallet_ledger db' = wallet_ledger db ++ [row] ∧ l_entry_type row = charging_debit ∧
    l_reference_type row = "charging_session" ∧ l_reference_id row = str_int (inv_session_id inv) ∧
    l_amount_vnd row = - inv_total_vnd inv ∧
    wallets db' !! l_wallet_id row = Some w ∧ w_driver_id w = inv_driver_id inv.

Lemma posting_debits inv actor db1 db w row db' :
  ledger_ok db → wallet_of_driver (inv_driver_id inv) db = Some w → wallet_ledger db = wallet_ledger db1 →
  by_reference charging_debit (str_int (inv_session_id inv)) db1 = None →
  ghi_so_cai (w_id w) charging_debit (- inv_total_vnd inv) "charging_session"
    (str_int (inv_session_id inv)) actor db = (inr row, db') →
  debited_now inv db1 db'.
Proof.
  intros [Hh _] Hw Hl Hnone H. destruct (wallet_of_driver_Some _ _ _ _ _ Hh eq_refl Hw) as [Hk Hd].
  assert (by_reference charging_debit (strip (str_int (inv_session_id inv))) db = None) as Hn.
  { rewrite str_int_strip. unfold by_reference in *. by rewrite Hl. }
  apply ghi_so_cai_under_cases in H
    as [(? & ? & _)|(x & w' & [= <-] & Hw' & _ & _ & _ & _ & [(_ & Hx & _)|(_ & _ & [(Hx & _)|(_ & _ & -> & ->)])])];
    [done|congruence|unfold id in Hx; congruence|].
  rewrite Hk in Hw'. injection Hw' as <-. unfold debited_now.
  eexists _, (set_w_balance_vnd (w_balance_vnd w + - inv_total_vnd inv) w). simpl. rewrite Hl.
  split_and!; try done; [by rewrite str_int_strip|by rewrite lookup_alter_eq, Hk].
Qed.

Lemma tru_vi_cases inv actor db x db' :
  ledger_ok db → by_reference charging_debit (str_int (inv_session_id inv)) db = None →
  tru_vi (Some inv) None None actor db = (inr x, db') →
  same_sessions db db' ∧ ledger_ok db' ∧
  if inv_total_vnd inv =? 0 then wallet_ledger db' = wallet_ledger db else debited_now inv db db'.
Proof.
  intros Hok Hnone H. pose proof (keeps_run _ _ _ _ _ (keeps_tru_vi _ _ _ _) Hok H) as Hok'.
  unfold tru_vi in H. rewrite (bind_ok_step _ _ _ inv db) in H by done. tx_read H u1 H1. tx_read H u2 H2.
  destruct (inv_total_vnd inv =? 0); [by injection H as _ <-|]. tx_read H u3 H3.
  apply bind_ok in H as (wid & db1 & Hwid & H). apply bind_ok in H as (row & db2 & Hrow & [= _ <-]).
  apply bind_ok in Hwid as (w & s1 & [= Hw <-] & Hwid). destruct w as [w|].
  - injection Hwid as <- <-. split; [|split; [done|by eapply (posting_debits inv actor db db w)]].
    by eapply keeps_run; [apply (keeps_sessions_ghi_so_cai db)| |exact Hrow].
  - apply bind_ok in Hwid as (w & s2 & Hens & [= <- <-]).
    assert (same_sessions db s2) as Hs by (by eapply keeps_run; [apply (keeps_sessions_ensure db)| |exact Hens]).
    apply ensure_driver_wallet_ok in Hens as (Hok2 & Hw2 & Hl); [|done].
    split; [|split; [done|by eapply (posting_debits inv actor db s2 w)]].
    by eapply keeps_run; [apply (keeps_sessions_ghi_so_cai db)| |exact Hrow].
Qed.

(** ** Settlement *)

Section settlement.
Context {dep : Deployment}.

(** The ledger holds exactly the debit of the invoice, on a wallet of its driver. *)
Definition debit_recorded (id : Z) (inv : Invoice) (db : Db) : Prop :=
  if inv_total_vnd inv =? 0 then session_entries id db = []
  else ∃ e w, session_entries id db = [e] ∧ l_entry_type e = charging_debit ∧
    l_reference_type e = "charging_session" ∧ l_amount_vnd e = - inv_total_vnd inv ∧
    wallets db !! l_wallet_id e = Some w ∧ w_driver_id w = inv_driver_id inv.

Definition settled (id : Z) (inv : Invoice) (db db' : Db) : Prop :=
  inv_session_id inv = id ∧
  charging_sessions db' = alter (settle_session (db_now db) inv) id (charging_sessions db) ∧
  debit_recorded id inv db' ∧ wallet_ledger db `prefix_of` wallet_ledger db' ∧
  (session_entries id db ≠ [] → wallet_ledger db' = wallet_ledger db).

Lemma session_entries_none id db :
  session_entries id db = [] → by_reference charging_debit (str_int id) db = None.
Proof.
  intros H. apply by_reference_None. intros r Hr [Ht Hi].
  assert (r ∈ session_entries id db) as Hin; [|rewrite H in Hin; by apply elem_of_nil in Hin].
  apply list_elem_of_filter. split; [split; [done|by left]|done].
Qed.

Lemma debited_now_recorded id inv db db' :
  inv_session_id inv = id → inv_total_vnd inv ≠ 0 → session_entries id db = [] → debited_now inv db db' →
  debit_recorded id inv db'.
Proof.
  intros <- Hz Hnone (row & w & Hl & Ht & Hr & Hi & Ha & Hw & Hd). unfold debit_recorded.
  destruct (Z.eqb_spec (inv_total_vnd inv) 0); [done|]. exists row, w. split_and!; try done.
  unfold session_entries in *. rewrite Hl, filter_app, Hnone, filter_cons, filter_nil.
  rewrite decide_True; [done|]. split; [done|by left].
Qed.

(** The entry found is the debit of the invoice. *)
Lemma matched_recorded id inv db w e :
  ledger_ok db → wallet_of_driver (inv_driver_id inv) db = Some w → session_entries id db = [e] →
  entries_mismatch inv (Some w) [e] = false → debit_recorded id inv db.
Proof.
  intros [Hh _] Hw He Hm. unfold entries_mismatch in Hm. rewrite !orb_false_iff in Hm.
  destruct Hm as ((((H1 & H2) & H3) & H4) & H5).
  apply negb_false_iff, Z.eqb_eq in H1. apply negb_false_iff, bool_decide_eq_true in H2, H3.
  apply negb_false_iff, Z.eqb_eq in H4. unfold debit_recorded. rewrite H5. exists e, w.
  destruct (wallet_of_driver_Some _ _ _ _ _ Hh eq_refl Hw) as [Hk Hd]. rewrite H1. done.
Qed.

(** The part of [_chot_phien_in_session] after a ready invoice. *)
Lemma settle_ready id inv outcome db db' r c :
  ledger_ok db → inv_session_id inv = id → charging_sessions db !! id = Some c →
  (wallet ← gets (wallet_of_driver (inv_driver_id inv));
   entries ← gets (session_entries id);
   if negb (bool_decide (entries = [])) && entries_mismatch inv wallet entries then
     update_session id (add_review "settlement_ledger_mismatch");;
     mret (mkInvoiceResult invoice_needs_review None (Some "settlement_ledger_mismatch"))
   else
     (if bool_decide (entries = []) then tru_vi (Some inv) None None None;; mret () else mret ());;
     now ← gets db_now;
     update_session id (settle_session now inv);;
     mret outcome) db = (inr r, db') →
  ledger_ok db' ∧
  ((r = outcome ∧ settled id inv db db') ∨
   (r = mkInvoiceResult invoice_needs_review None (Some "settlement_ledger_mismatch") ∧
    session_entries id db ≠ [] ∧
    db' = set_charging_sessions (alter (add_review "settlement_ledger_mismatch") id (charging_sessions db)) db)).
Proof.
  intros Hok Hid Hc H. tx_read H wallet Hw. injection Hw as Hw. tx_read H entries He. injection He as He.
  destruct (bool_decide (entries = [])) eqn:Hnil.
  - apply bool_decide_eq_true in Hnil. cbn [negb andb] in H. rewrite Hnil in He.
    apply bind_ok in H as ([] & db1 & Hdeb & H). apply bind_ok in Hdeb as (x & db2 & Hdeb & [= <-]).
    apply bind_ok in H as (now & s & [= <- <-] & H). injection H as <- <-.
    apply tru_vi_cases in Hdeb as ((Hs & _ & _ & Hnow) & Hok' & Hdeb); [|done|].
    2: { rewrite Hid. by apply session_entries_none. }
    split; [done|]. left. split; [done|]. unfold settled. simpl. rewrite Hs, Hnow.
    split_and!; try done; [|destruct (inv_total_vnd inv =? 0) eqn:Hz].
    + change (debit_recorded id inv db2). destruct (inv_total_vnd inv =? 0) eqn:Hz.
      * unfold debit_recorded. rewrite Hz. unfold session_entries. by rewrite Hdeb.
      * apply Z.eqb_neq in Hz. by apply (debited_now_recorded id inv db).
    + by rewrite Hdeb.
    + destruct Hdeb as (row & w & -> & _). by apply prefix_app_r.
  - cbn [negb andb] in H. destruct (entries_mismatch inv wallet entries) eqn:Hm.
    + injection H as <- <-. split; [done|]. right. split_and!; try done. rewrite He.
      by apply bool_decide_eq_false in Hnil.
    + injection H as <- <-. split; [done|]. left. split; [done|]. unfold settled. simpl.
      split_and!; try done. change (debit_recorded id inv db).
      destruct entries as [|e [|e' l]], wallet as [w|]; try done. by apply (matched_recorded id inv db w e).
Qed.

Lemma ready_invoice_session id c db o db' inv :
  keyed db → charging_sessions db !! id = Some c → lap_outcome id c db o db' → ir_status o = invoice_ready →
  ir_invoice o = Some inv → inv_session_id inv = id ∧ same_accounts db db'.
Proof.
  intros Hk Hc Ho Hs Hi. unfold lap_outcome in Ho. rewrite Hs in Ho.
  destruct Ho as (Hacc & _ & _ & inv' & Hi' & Hcase). split; [|done]. assert (inv' = inv) as -> by congruence.
  destruct Hcase as [[Hsel _]|(Hsid & _)].
  - apply select_where_Some in Hsel as (k & _ & He). lia.
  - rewrite Hsid. by apply Hk.
Qed.

(** A session that is not settled yet. *)
Definition unsettled (id : Z) (db : Db) : Prop :=
  ∃ c, charging_sessions db !! id = Some c ∧ cs_settlement_completed_at c = None.

Lemma unsettled_review id reason db :
  unsettled id db → unsettled id (set_charging_sessions (alter (add_review reason) id (charging_sessions db)) db).
Proof. intros (c & Hc & Hs). exists (add_review reason c). simpl. by rewrite lookup_alter_eq, Hc. Qed.

Lemma not_ready_unsettled id c db o db' :
  charging_sessions db !! id = Some c → cs_settlement_completed_at c = None → lap_outcome id c db o db' →
  ir_status o ≠ invoice_ready →
  ir_invoice o = None ∧ wallets db' = wallets db ∧ wallet_ledger db' = wallet_ledger db ∧ unsettled id db'.
Proof.
  intros Hc Hs Ho Hr. assert (unsettled id db) as Hu by (by exists c). unfold lap_outcome in Ho.
  destruct (ir_status o); [done| |destruct Ho as [? ->]; done].
  destruct Ho as [? [[_ ->]|(_ & reason & _ & ->)]]; [done|]. split_and!; try done. by apply unsettled_review.
Qed.

Lemma chot_phien_cases id c db r db' :
  ledger_ok db → keyed db → charging_sessions db !! id = Some c → cs_settlement_completed_at c = None →
  _chot_phien_in_session id true db = (inr r, db') →
  ledger_ok db' ∧
  ((ir_status r = invoice_ready ∧ ∃ inv, ir_invoice r = Some inv ∧ settled id inv db db') ∨
   (ir_status r ≠ invoice_ready ∧ wallets db' = wallets db ∧ wallet_ledger db' = wallet_ledger db ∧ unsettled id db')).
Proof.
  intros Hok Hkey Hc Hs H. unfold _chot_phien_in_session in H. tx_read H x Hx. injection Hx as <-. rewrite Hc in H.
  rewrite bool_decide_eq_false_2 in H by (rewrite Hs; by intros []).
  apply bind_ok in H as (o & db1 & Hlap & H). apply lap_hoa_don_cases in Hlap as (c' & Hc' & Ho).
  rewrite Hc in Hc'. injection Hc' as <-.
  destruct (decide (ir_status o = invoice_ready)) as [Hr|Hr].
  - assert (∃ inv, ir_invoice o = Some inv) as [inv Hinv].
    { unfold lap_outcome in Ho. rewrite Hr in Ho. naive_solver. }
    rewrite Hr, Hinv in H. cbn [negb] in H.
    destruct (ready_invoice_session _ _ _ _ _ _ Hkey Hc Ho Hr Hinv) as [Hid (Hu & Hw & Hl & Hcs & Hnow)].
    assert (ledger_ok db1) as Hok1 by (unfold ledger_ok; by rewrite Hw, Hl).
    apply (settle_ready id inv o db1 db' r c) in H; [|done|done|by rewrite Hcs].
    destruct H as (Hok' & [[-> (H1 & H2 & H3 & H4 & H5)]|(-> & _ & ->)]); split; [done| |done|].
    + left. split; [done|]. exists inv. split; [done|]. unfold settled, session_entries in *.
      rewrite Hl, Hcs, Hnow in *. done.
    + right. split_and!; try done. apply unsettled_review. exists c. by rewrite Hcs.
  - destruct (not_ready_unsettled _ _ _ _ _ Hc Hs Ho Hr) as (Hinv & Hw & Hl & Hu).
    assert (o = r ∧ db1 = db') as [<- <-].
    { destruct (ir_status o); [done| |]; by injection H as <- <-. }
    split; [unfold ledger_ok; by rewrite Hw, Hl|]. by right.
Qed.

Lemma chot_phien_settled_again id c settle db r db' :
  charging_sessions db !! id = Some c → is_Some (cs_settlement_completed_at c) →
  chot_phien id settle db = (r, db') → wallets db' = wallets db ∧ wallet_ledger db' = wallet_ledger db.
Proof.
  intros Hc Hs. unfold chot_phien, savepoint, _chot_phien_in_session, mbind, M_bind, gets. rewrite Hc.
  rewrite bool_decide_eq_true_2 by done. destruct (lap_hoa_don id db) as [[e|o] db1] eqn:E; intros [= <- <-]; [done|].
  apply lap_hoa_don_cases in E as (c' & _ & Ho). unfold lap_outcome in Ho. destruct (ir_status o).
  - destruct Ho as ((_ & ? & ? & _) & _). done.
  - by destruct Ho as [_ [[_ ->]|(_ & reason & _ & ->)]].
  - by destruct Ho as [_ ->].
Qed.
End settlement.

(** C1. A closed session is settled exactly once: [chot_phien] on an unsettled
    session either raises and rolls everything back, or returns without a ready
    invoice and leaves wallets, ledger and the settlement columns alone, or
    marks the session settled with the ledger holding exactly one debit of the
    invoice total on the driver's wallet (none for a zero invoice), a debit
    found from an earlier attempt being reused; the books stay balanced, and no
    later call for the session moves money again. *)
Theorem chot_phien_settles_once {dep : Deployment} id c db r db' :
  ledger_ok db → keyed db → charging_sessions db !! id = Some c → cs_settlement_completed_at c = None →
  chot_phien id true db = (r, db') →
  ledger_ok db' ∧
  match r with
  | inl _ => db' = db
  | inr o =>
      if decide (ir_status o = invoice_ready) then
        ∃ inv, ir_invoice o = Some inv ∧ settled id inv db db' ∧
          ∀ settle r2 db2, chot_phien id settle db' = (r2, db2) →
            wallets db2 = wallets db' ∧ wallet_ledger db2 = wallet_ledger db'
      else wallets db' = wallets db ∧ wallet_ledger db' = wallet_ledger db ∧ unsettled id db'
  end.
Proof.
  intros Hok Hkey Hc Hs H. unfold chot_phien, savepoint in H.
  destruct (_chot_phien_in_session id true db) as [[e|o] db1] eqn:E; injection H as <- <-; [done|].
  destruct (chot_phien_cases id c db o db1 Hok Hkey Hc Hs E) as [Hok' [(Hr & inv & Hi & Hset)|(Hr & Hrest)]].
  - split; [done|]. rewrite decide_True by done. exists inv. split_and!; [done|done|]. intros settle r2 db2.
    destruct Hset as (_ & Hcs & _). apply (chot_phien_settled_again id (settle_session (db_now db) inv c)).
    + by rewrite Hcs, lookup_alter_eq, Hc.
    + by eexists.
  - split; [done|]. by rewrite decide_False.
Qed.

Lemma bill_db_ok : ledger_ok bill_db ∧ keyed bill_db.
Proof.
  split.
  - unfold ledger_ok. assert (wallets bill_db = wallets demo_db) as -> by (vm_compute; reflexivity).
    assert (wallet_ledger bill_db = wallet_ledger demo_db) as -> by (vm_compute; reflexivity). exact demo_db_ok.
  - intros k c Hk. change (charging_sessions bill_db) with ({[ 1 := bill_session ]} : gmap Z ChargingSession) in Hk.
    by apply lookup_singleton_Some in Hk as [<- <-].
Qed.

Lemma chot_phien_settles_once_witness :
  let '(r, db') := chot_phien (dep := demo_deployment) 1 true bill_db in
  ledger_ok db' ∧ w_balance_vnd <$> wallets db' !! 10 = Some (- 16000) ∧
  (chot_phien (dep := demo_deployment) 1 true db').2 = db'.
Proof.
  destruct (chot_phien (dep := demo_deployment) 1 true bill_db) as [r db'] eqn:E.
  destruct (chot_phien_settles_once (dep := demo_deployment) 1 bill_session bill_db r db') as [Hok _].
  - exact (proj1 bill_db_ok).
  - exact (proj2 bill_db_ok).
  - vm_compute. reflexivity.
  - reflexivity.
  - exact E.
  - split; [exact Hok|].
    assert (db' = (chot_phien (dep := demo_deployment) 1 true bill_db).2) as -> by (by rewrite E).
    split; vm_compute; reflexivity.
Defined.
