(* ===== verification/ClosureScan.v ===== *)
(** * ClosureScan: the recovery scan and the queue in front of it

    Models [scan_unsettled_sessions], [ClosureRunner] and [schedule_closure] of
    [src/src/modules/billing/closure.py]. *)

From S2P Require Import Prelude Text Store AuditTrail Wallet Pricing Invoicing InvoiceSpec Notifications Closure.

Record ScanResult := mkScan {
  scanned : Z; scan_ready : Z; scan_needs_review : Z; scan_pending : Z; scan_busy : Z; scan_failed : Z
}.

Definition scan_zero : ScanResult := mkScan 0 0 0 0 0 0.

(** The clause shared by the page query and the locking query. *)
Definition open_session (db : Db) (id : Z) : bool :=
  match charging_sessions db !! id with
  | Some c => bool_decide (is_Some (cs_ended_at c)) && bool_decide (cs_settlement_completed_at c = None)
  | None => false
  end.

Definition open_ids (cursor : Z) (db : Db) : list Z :=
  sort_by id (filter (λ k, cursor < k ∧ open_session db k = true) (map_to_list (charging_sessions db)).*1).

Definition count_scanned (r : ScanResult) : ScanResult :=
  mkScan (scanned r + 1) (scan_ready r) (scan_needs_review r) (scan_pending r) (scan_busy r) (scan_failed r).
Definition count_busy (r : ScanResult) : ScanResult :=
  mkScan (scanned r) (scan_ready r) (scan_needs_review r) (scan_pending r) (scan_busy r + 1) (scan_failed r).
Definition count_failed (r : ScanResult) : ScanResult :=
  mkScan (scanned r) (scan_ready r) (scan_needs_review r) (scan_pending r) (scan_busy r) (scan_failed r + 1).
Definition count_status (s : InvoiceStatus) (r : ScanResult) : ScanResult :=
  match s with
  | invoice_ready => mkScan (scanned r) (scan_ready r + 1) (scan_needs_review r) (scan_pending r) (scan_busy r) (scan_failed r)
  | invoice_needs_review => mkScan (scanned r) (scan_ready r) (scan_needs_review r + 1) (scan_pending r) (scan_busy r) (scan_failed r)
  | invoice_pending => mkScan (scanned r) (scan_ready r) (scan_needs_review r) (scan_pending r + 1) (scan_busy r) (scan_failed r)
  end.

Section scan.
Context {dep : Deployment}.

(** One candidate in its own transaction. [locked] are the rows other
    transactions hold ([SKIP LOCKED]). *)
Definition scan_one (locked : Z → bool) (settle : bool) (st : Db * ScanResult) (session_id : Z) : Db * ScanResult :=
  let '(db, result) := st in
  let result := count_scanned result in
  if locked session_id || negb (open_session db session_id) then (db, count_busy result)
  else
    match chot_phien session_id settle db with
    | (inr outcome, db') => (db', count_status (ir_status outcome) result)
    | (inl _, db') => (db', count_failed result)
    end.

(** [while True]: a page, then its candidates, until a page is empty. *)
Fixpoint scan_pages (fuel : nat) (locked : Z → bool) (settle : bool) (batch_size : nat) (cursor : Z)
    (st : Db * ScanResult) : option (Db * ScanResult) :=
  match fuel with
  | O => None
  | S fuel' =>
      let identifiers := take batch_size (open_ids cursor st.1) in
      match last identifiers with
      | None => Some st
      | Some cursor' =>
          scan_pages fuel' locked settle batch_size cursor' (foldl (scan_one locked settle) st identifiers)
      end
  end.

(** [inl] is the [ValueError] of a bad batch size. *)
Definition scan_unsettled_sessions (fuel : nat) (locked : Z → bool) (batch_size : Z) (settle : bool) (db : Db)
  : Exn + option (Db * ScanResult) :=
  if batch_size <? 1 then inl ValueError
  else inr (scan_pages fuel locked settle (Z.to_nat batch_size) 0 (db, scan_zero)).
End scan.

(** ** The queue *)

Record ClosureRunner := mkRunner {
  capacity : Z; queue : list Z; pending_ids : gset Z; runner_settle : bool; in_work : list Z
}.

Definition schedule (session_id : Z) (r : ClosureRunner) : bool * ClosureRunner :=
  if decide (session_id ∈ pending_ids r) then (true, r)
  else if (0 <? capacity r) && (capacity r <=? Z.of_nat (length (queue r))) then (false, r)
  else (true, mkRunner (capacity r) (queue r ++ [session_id]) ({[ session_id ]} ∪ pending_ids r)
                (runner_settle r) (in_work r)).

(** A worker takes the next id, and is done with it later. *)
Definition worker_get (r : ClosureRunner) : option (Z * ClosureRunner) :=
  match queue r with
  | [] => None
  | x :: q => Some (x, mkRunner (capacity r) q (pending_ids r) (runner_settle r) (x :: in_work r))
  end.

Definition worker_done (session_id : Z) (r : ClosureRunner) : ClosureRunner :=
  mkRunner (capacity r) (queue r) (pending_ids r ∖ {[ session_id ]}) (runner_settle r)
    (filter (λ x, x ≠ session_id) (in_work r)).

Definition new_runner (capacity : Z) (settle : bool) : ClosureRunner := mkRunner capacity [] ∅ settle [].

(** [schedule_closure]: without a runner the scan is the fallback. *)
Definition schedule_closure (runner : option ClosureRunner) (session_id : Z) : bool * option ClosureRunner :=
  match runner with
  | Some r => let '(ok, r') := schedule session_id r in (ok, Some r')
  | None => (false, None)
  end.

(** ** The scan visits every open session once *)

Lemma elem_of_open_ids cursor db k : k ∈ open_ids cursor db ↔ cursor < k ∧ open_session db k = true.
Proof.
  unfold open_ids. rewrite elem_of_sort_by, list_elem_of_filter. split; [by intros [? _]|].
  intros [Hc Ho]. split; [done|]. unfold open_session in Ho. destruct (charging_sessions db !! k) as [c|] eqn:E; [|done].
  apply list_elem_of_fmap. exists (k, c). split; [done|]. by apply elem_of_map_to_list.
Qed.

Lemma open_ids_sorted cursor db : StronglySorted Z.lt (open_ids cursor db).
Proof.
  pose proof (sort_by_sorted id (filter (λ k, cursor < k ∧ open_session db k = true)
    (map_to_list (charging_sessions db)).*1)) as Hs.
  assert (NoDup (open_ids cursor db)) as Hn.
  { unfold open_ids. rewrite sort_by_perm. apply NoDup_filter, NoDup_fst_map_to_list. }
  unfold open_ids in *. induction Hs as [|x l Hs IH Hx]; [constructor|]. apply NoDup_cons in Hn as [Hnx Hn].
  constructor; [by apply IH|]. rewrite Forall_forall in Hx |- *. intros y Hy. specialize (Hx y Hy).
  unfold key_le, id in Hx. assert (x ≠ y) by (by intros ->). lia.
Qed.

(** A strictly sorted list is given by its members. *)

Lemma sorted_lt_drop n l m :
  StronglySorted Z.lt l → last (take n l) = Some m → ∀ k, k ∈ drop n l ↔ k ∈ l ∧ m < k.
Proof.
  intros Hs Hlast k. rewrite <- (take_drop n l) in Hs at 1.
  assert (∀ x y, x ∈ take n l → y ∈ drop n l → x < y) as Hlt.
  { intros x y Hx Hy. apply list_elem_of_split in Hx as (l1 & l2 & Hx). rewrite Hx in Hs.
    clear -Hs Hy. induction l1 as [|z l1 IH]; simpl in Hs; inversion Hs as [|?? Hs' Hf]; subst.
    - rewrite Forall_forall in Hf. apply Hf. set_solver.
    - by apply IH. }
  assert (m ∈ take n l) as Hm by (by apply last_Some_elem_of).
  assert (∀ x, x ∈ take n l → x ≤ m) as Hle.
  { clear -Hs Hlast. apply StronglySorted_app_1_l in Hs. intros x Hx.
    assert (∃ a, head (take n l) = Some a) as [a Ha] by (destruct (take n l); [by apply elem_of_nil in Hx|eauto]).
    by destruct (sorted_lt_bounds _ _ _ _ Hs Ha Hlast Hx). }
  rewrite <- (take_drop n l) at 2. rewrite elem_of_app. split; [auto|].
  intros [[Hk|Hk] Hlt']; [|done]. specialize (Hle k Hk). lia.
Qed.

(** A page's candidates change no other session. *)
Definition others_same (ids : list Z) (db db' : Db) : Prop :=
  ∀ k, k ∉ ids → charging_sessions db' !! k = charging_sessions db !! k.

Lemma next_page n cursor db db' m :
  last (take n (open_ids cursor db)) = Some m → others_same (take n (open_ids cursor db)) db db' →
  open_ids m db' = drop n (open_ids cursor db).
Proof.
  intros Hlast Hsame. pose proof (open_ids_sorted cursor db) as Hs.
  pose proof (sorted_lt_drop n _ m Hs Hlast) as Hdrop.
  apply sorted_lt_ext; [apply open_ids_sorted| |].
  - rewrite <- (take_drop n (open_ids cursor db)) in Hs. by apply StronglySorted_app_1_r in Hs.
  - intros k. rewrite Hdrop, !elem_of_open_ids.
    assert (m ∈ open_ids cursor db) as [Hm _]%elem_of_open_ids.
    { apply last_Some_elem_of in Hlast. rewrite <- (take_drop n (open_ids cursor db)). set_solver. }
    assert (m < k → open_session db' k = open_session db k) as Hopen.
    { intros Hk. unfold open_session. rewrite Hsame; [done|]. intros Hin.
      assert (head (take n (open_ids cursor db)) ≠ None) as [a Ha]%not_eq_None_Some
        by (by destruct (take n (open_ids cursor db)); [apply elem_of_nil in Hin|]).
      rewrite <- (take_drop n (open_ids cursor db)) in Hs. apply StronglySorted_app_1_l in Hs.
      destruct (sorted_lt_bounds _ _ _ _ Hs Ha Hlast Hin). lia. }
    split.
    + intros [Hk Ho]. rewrite Hopen in Ho by done. auto with lia.
    + intros [[_ Ho] Hk]. by rewrite Hopen.
Qed.

Section visits.
Context {dep : Deployment}.

Lemma keeps_others_accounts {A} ids db0 (m : Tx A) :
  (∀ db, keeps (same_accounts db) m) → keeps (others_same ids db0) m.
Proof.
  intros Hm db Hdb k Hk. destruct (Hm db db) as (_ & _ & _ & Hc & _); [done|]. rewrite Hc. by apply Hdb.
Qed.

Lemma keeps_others_sessions {A} ids db0 (m : Tx A) :
  (∀ db, keeps (same_sessions db) m) → keeps (others_same ids db0) m.
Proof.
  intros Hm db Hdb k Hk. destruct (Hm db db) as (Hc & _); [done|]. rewrite Hc. by apply Hdb.
Qed.

Lemma keeps_sessions_tru_vi inv actor db0 : keeps (same_sessions db0) (tru_vi (Some inv) None None actor).
Proof.
  unfold tru_vi. pose proof keeps_sessions_ghi_so_cai. pose proof keeps_sessions_ensure. keeps_steps.
Qed.

Lemma keeps_others_update id f db0 : keeps (others_same [id] db0) (update_session id f).
Proof.
  intros db Hdb k Hk. simpl. rewrite lookup_alter_ne by (intros ->; apply Hk; by apply list_elem_of_singleton). by apply Hdb.
Qed.

Lemma keeps_others_notify ids db0 charging kind inv at_ eid :
  keeps (others_same ids db0) (notify_event charging kind inv at_ eid).
Proof. apply keeps_others_accounts. intros. apply keeps_accounts_notify. Qed.

Lemma keeps_others_attempt ids db0 charging e : keeps (others_same ids db0) (attempt_invoice charging e).
Proof.
  intros db Hdb. destruct (attempt_invoice charging e db) as [r db'] eqn:E. apply attempt_invoice_cases in E. simpl.
  destruct r as [x|[x|inv]]; subst; try done.
  by eapply keeps_run; [apply keeps_others_accounts; intros; apply keeps_accounts_create_invoice| |exact E].
Qed.

#[local] Hint Resolve keeps_others_update keeps_others_notify keeps_others_attempt : csms_keeps.

Lemma keeps_others_lap id db0 : keeps (others_same [id] db0) (lap_hoa_don id).
Proof. unfold lap_hoa_don. keeps_steps. Qed.
#[local] Hint Resolve keeps_others_lap : csms_keeps.

Lemma keeps_others_chot id settle db0 : keeps (others_same [id] db0) (chot_phien id settle).
Proof.
  unfold chot_phien, _chot_phien_in_session. keeps_steps.
  apply keeps_others_sessions. intros. apply keeps_sessions_tru_vi.
Qed.

Lemma scan_one_others locked settle st id : others_same [id] st.1 (scan_one locked settle st id).1.
Proof.
  destruct st as [db r]. unfold scan_one. destruct (_ || _); [done|].
  pose proof (keeps_others_chot id settle db db) as Hk. destruct (chot_phien id settle db) as [[e|o] db'];
    simpl in *; by apply Hk.
Qed.

Lemma scan_list_others locked settle ids st : others_same ids st.1 (foldl (scan_one locked settle) st ids).1.
Proof.
  revert st. induction ids as [|id ids IH]; intros st; [done|]. simpl. intros k Hk.
  rewrite (IH _ k) by set_solver. apply scan_one_others. set_solver.
Qed.

Lemma scan_pages_all fuel locked settle n cursor st :
  (0 < n)%nat → (length (open_ids cursor st.1) < fuel)%nat →
  scan_pages fuel locked settle n cursor st = Some (foldl (scan_one locked settle) st (open_ids cursor st.1)).
Proof.
  intros Hn. revert cursor st. induction fuel as [|fuel IH]; intros cursor st Hf; [lia|]. simpl.
  destruct (last (take n (open_ids cursor st.1))) as [m|] eqn:E.
  - set (st' := foldl (scan_one locked settle) st (take n (open_ids cursor st.1))).
    pose proof (next_page n cursor st.1 st'.1 m E (scan_list_others _ _ _ _)) as Hnext.
    assert (open_ids cursor st.1 ≠ []) as Hne by (intros Hnil; by rewrite Hnil, take_nil in E).
    rewrite IH.
    + rewrite Hnext. unfold st'. rewrite <- foldl_app, take_drop. done.
    + rewrite Hnext, length_drop. destruct (open_ids cursor st.1); [done|]. simpl in *. lia.
  - apply last_None in E. destruct (open_ids cursor st.1) as [|x l] eqn:Ho; [done|].
    destruct n; [lia|done].
Qed.
End visits.

(** ** What a scan leaves behind *)

Section scan_result.
Context {dep : Deployment}.

(** Any predicate on the accounts that the session updates keep. *)
Section keeps_chot.
Context (I : Db → Prop) (id : Z).
Context (Haccounts : ∀ db db', same_accounts db db' → I db → I db').
Context (Hupdate : ∀ f, (∀ c, cs_id (f c) = cs_id c ∧ cs_ended_at (f c) = cs_ended_at c) →
  keeps I (update_session id f)).
Context (Hdebit : ∀ inv, keeps I (tru_vi (Some inv) None None None)).

Lemma keeps_by_accounts {A} (m : Tx A) : (∀ db, keeps (same_accounts db) m) → keeps I m.
Proof. intros Hm db Hdb. apply (Haccounts db); [|done]. by apply Hm. Qed.

Lemma keeps_chot settle : keeps I (chot_phien id settle).
Proof.
  assert (∀ c k i a e, keeps I (notify_event c k i a e)) by
    (intros; apply keeps_by_accounts; intros; apply keeps_accounts_notify).
  assert (∀ c e, keeps I (attempt_invoice c e)).
  { intros c e db Hdb. destruct (attempt_invoice c e db) as [r db'] eqn:E. apply attempt_invoice_cases in E. simpl.
    destruct r as [x|[x|inv]]; subst; try done.
    by eapply keeps_run; [apply keeps_by_accounts; intros; apply keeps_accounts_create_invoice| |exact E]. }
  assert (∀ reason, keeps I (update_session id (add_review reason))) by (intros; by apply Hupdate).
  assert (∀ now inv, keeps I (update_session id (settle_session now inv))) by (intros; by apply Hupdate).
  assert (keeps I (lap_hoa_don id)) by (unfold lap_hoa_don; keeps_steps).
  unfold chot_phien, _chot_phien_in_session. keeps_steps.
Qed.
End keeps_chot.

Lemma keeps_ledger_chot id settle : keeps ledger_ok (chot_phien id settle).
Proof.
  apply keeps_chot.
  - intros db db' (_ & Hw & Hl & _). unfold ledger_ok. by rewrite Hw, Hl.
  - intros f _ db Hdb. exact Hdb.
  - intros inv. apply keeps_tru_vi.
Qed.

Lemma keeps_keyed_chot id settle : keeps keyed (chot_phien id settle).
Proof.
  apply keeps_chot.
  - intros db db' (_ & _ & _ & Hc & _). unfold keyed. by rewrite Hc.
  - intros f Hf db Hdb k c. simpl. rewrite lookup_alter_Some. intros [(<- & c' & Hc & ->)|[_ Hc]]; [|by apply Hdb].
    destruct (Hf c') as [-> _]. by apply Hdb.
  - intros inv db Hdb. destruct (keeps_sessions_tru_vi inv None db db) as (Hc & _); [done|].
    unfold keyed. by rewrite Hc.
Qed.

Lemma keeps_ended_chot id settle x :
  keeps (λ db, cs_ended_at <$> charging_sessions db !! id = x) (chot_phien id settle).
Proof.
  apply keeps_chot.
  - intros db db' (_ & _ & _ & Hc & _). by rewrite Hc.
  - intros f Hf db Hdb. simpl. rewrite lookup_alter_eq, <- Hdb. destruct (charging_sessions db !! id) as [c|]; [|done].
    simpl. by destruct (Hf c) as [_ ->].
  - intros inv db Hdb. destruct (keeps_sessions_tru_vi inv None db db) as (Hc & _); [done|]. by rewrite Hc.
Qed.

Definition accounted (r : ScanResult) : Prop :=
  scanned r = scan_ready r + scan_needs_review r + scan_pending r + scan_busy r + scan_failed r.

Definition books_sound (db : Db) : Prop := ledger_ok db ∧ keyed db.

Lemma scan_one_books locked settle st id : books_sound st.1 → books_sound (scan_one locked settle st id).1.
Proof.
  destruct st as [db r]. intros [Hl Hk]. unfold scan_one. destruct (_ || _); [done|].
  pose proof (keeps_ledger_chot id settle db Hl). pose proof (keeps_keyed_chot id settle db Hk).
  by destruct (chot_phien id settle db) as [[e|o] db'].
Qed.

Lemma scan_one_accounted locked settle st id :
  accounted st.2 → accounted (scan_one locked settle st id).2 ∧
    scanned (scan_one locked settle st id).2 = scanned st.2 + 1.
Proof.
  destruct st as [db r]. unfold scan_one, accounted. simpl. intros Ha. destruct (_ || _); simpl; [lia|].
  destruct (chot_phien id settle db) as [[e|o] db']; simpl; [lia|]. destruct (ir_status o); simpl; lia.
Qed.

(** A candidate is counted as ready exactly when it leaves the open sessions. *)
Lemma scan_one_ready locked st id :
  books_sound st.1 → open_session st.1 id = true →
  scan_ready (scan_one locked true st id).2 =
  scan_ready st.2 + (if open_session (scan_one locked true st id).1 id then 0 else 1).
Proof.
  destruct st as [db r]. unfold scan_one. intros [Hl Hk] Ho. simpl in *. rewrite Ho. cbn [negb].
  destruct (locked id); simpl; [rewrite Ho; lia|].
  unfold open_session in Ho. destruct (charging_sessions db !! id) as [c|] eqn:Hc; [|done].
  apply andb_true_iff in Ho as [[e He]%bool_decide_eq_true Hs%bool_decide_eq_true].
  pose proof (keeps_ended_chot id true (Some (cs_ended_at c)) db ltac:(simpl; by rewrite Hc)) as Hend.
  unfold chot_phien, savepoint in *. destruct (_chot_phien_in_session id true db) as [[x|o] db'] eqn:E; simpl in *.
  - unfold open_session. rewrite Hc, He, Hs. simpl. lia.
  - destruct (chot_phien_cases id c db o db' Hl Hk Hc Hs E) as [_ [(Hr & inv & _ & (_ & Hcs & _))|(Hr & _ & _ & Hu)]].
    + unfold open_session. rewrite Hcs, lookup_alter_eq, Hc, Hr. simpl. rewrite andb_false_r. lia.
    + destruct Hu as (c' & Hc' & Hs'). rewrite Hc' in Hend. simpl in Hend. injection Hend as Hend.
      unfold open_session. rewrite Hc', Hend, He, Hs'. simpl. destruct (ir_status o); simpl; [done|lia|lia].
Qed.

Lemma scan_list_sound locked settle ids st :
  books_sound st.1 → accounted st.2 →
  let st' := foldl (scan_one locked settle) st ids in
  books_sound st'.1 ∧ accounted st'.2 ∧ scanned st'.2 = scanned st.2 + Z.of_nat (length ids).
Proof.
  revert st. induction ids as [|id ids IH]; intros st Hb Ha; simpl; [split; [done|split; [done|lia]]|].
  destruct (scan_one_accounted locked settle st id Ha) as [Ha' Hn].
  destruct (IH _ (scan_one_books locked settle st id Hb) Ha') as (H1 & H2 & H3).
  split; [done|]. split; [done|]. rewrite H3, Hn. lia.
Qed.

Lemma scan_list_ready locked ids st :
  NoDup ids → books_sound st.1 → (∀ id, id ∈ ids → open_session st.1 id = true) →
  let st' := foldl (scan_one locked true) st ids in
  scan_ready st'.2 = scan_ready st.2 + Z.of_nat (length (filter (λ id, open_session st'.1 id = false) ids)).
Proof.
  revert st. induction ids as [|id ids IH]; intros st Hnd Hb Hopen; [simpl; lia|].
  apply NoDup_cons in Hnd as [Hid Hnd]. cbn [foldl]. set (st1 := scan_one locked true st id).
  assert (∀ k, k ≠ id → charging_sessions st1.1 !! k = charging_sessions st.1 !! k) as Hother.
  { intros k Hk. apply scan_one_others. by intros ->%list_elem_of_singleton. }
  specialize (IH st1 Hnd (scan_one_books _ _ _ _ Hb)). cbv zeta in IH |- *.
  set (st' := foldl (scan_one locked true) st1 ids) in *. rewrite IH.
  2: { intros k Hk. unfold open_session. rewrite Hother by (by intros ->).
       apply (Hopen k). by apply elem_of_cons; right. }
  pose proof (scan_one_ready locked st id Hb (Hopen id ltac:(set_solver))) as Hr. fold st1 in Hr. rewrite Hr.
  assert (open_session st'.1 id = open_session st1.1 id) as Hsame.
  { unfold open_session. unfold st'. by rewrite (scan_list_others locked true ids st1 id). }
  rewrite filter_cons. rewrite Hsame. destruct (open_session st1.1 id).
  - rewrite decide_False by done. lia.
  - rewrite decide_True by done. simpl. lia.
Qed.
End scan_result.

(** C38. The recovery scan is complete: with any positive batch size and enough
    fuel it visits the ended, unsettled sessions in order, each exactly once,
    page boundaries leaving nothing out; every visit is counted under exactly
    one outcome, the books stay balanced, and [ready] is the number of sessions
    that the scan took out of the open ones. *)
Theorem scan_unsettled_sessions_complete {dep : Deployment} locked batch db :
  1 ≤ batch → ledger_ok db → keyed db →
  ∃ db' r, (∀ fuel, (length (open_ids 0 db) < fuel)%nat →
      scan_unsettled_sessions fuel locked batch true db = inr (Some (db', r))) ∧
    (db', r) = foldl (scan_one locked true) (db, scan_zero) (open_ids 0 db) ∧
    (∀ id, id ∈ open_ids 0 db ↔ 0 < id ∧ open_session db id = true) ∧ NoDup (open_ids 0 db) ∧
    ledger_ok db' ∧ scanned r = Z.of_nat (length (open_ids 0 db)) ∧ accounted r ∧
    scan_ready r = Z.of_nat (length (filter (λ id, open_session db' id = false) (open_ids 0 db))).
Proof.
  intros Hb Hl Hk. assert (NoDup (open_ids 0 db)) as Hnd.
  { unfold open_ids. rewrite sort_by_perm. apply NoDup_filter, NoDup_fst_map_to_list. }
  destruct (foldl (scan_one locked true) (db, scan_zero) (open_ids 0 db)) as [db' r] eqn:E. exists db', r.
  pose proof (scan_list_sound locked true (open_ids 0 db) (db, scan_zero) (conj Hl Hk) eq_refl) as Hs.
  pose proof (scan_list_ready locked (open_ids 0 db) (db, scan_zero) Hnd (conj Hl Hk)) as Hr.
  cbv zeta in Hs, Hr. rewrite E in Hs, Hr. destruct Hs as ([Hl' _] & Ha & Hn). simpl in *.
  split; [|split; [done|split; [apply elem_of_open_ids|split; [done|split; [done|split; [done|split; [done|]]]]]]].
  - intros fuel Hf. unfold scan_unsettled_sessions. destruct (Z.ltb_spec batch 1); [lia|].
    rewrite scan_pages_all by (simpl; lia). simpl. by rewrite E.
  - apply Hr. by intros id [_ ?]%elem_of_open_ids.
Qed.

Lemma scan_unsettled_sessions_complete_witness :
  ∃ db', scan_unsettled_sessions (dep := demo_deployment) 9 (λ _, false) 1 true bill_db =
    inr (Some (db', mkScan 1 1 0 0 0 0)).
Proof.
  destruct (scan_unsettled_sessions_complete (dep := demo_deployment) (λ _, false) 1 bill_db)
    as (db' & r & Hrun & Hr & _); [lia|exact (proj1 bill_db_ok)|exact (proj2 bill_db_ok)|].
  exists db'. rewrite Hrun; [|vm_compute; lia]. do 3 f_equal.
  change r with ((db', r).2). rewrite Hr. vm_compute. reflexivity.
Defined.

(** ** The queue is bounded and holds no session twice *)

Record runner_ok (r : ClosureRunner) : Prop := mkRunnerOk {
  runner_distinct : NoDup (queue r ++ in_work r);
  runner_pending : ∀ x, x ∈ pending_ids r ↔ x ∈ queue r ++ in_work r;
  runner_bound : 0 < capacity r → Z.of_nat (length (queue r)) ≤ capacity r;
}.

Inductive runner_step {dep : Deployment} : ClosureRunner * Db → ClosureRunner * Db → Prop :=
  | runner_schedule id ok r r' db : schedule id r = (ok, r') → runner_step (r, db) (r', db)
  | runner_take id r r' db : worker_get r = Some (id, r') → runner_step (r, db) (r', db)
  | runner_close id r db : id ∈ in_work r →
      runner_step (r, db) (worker_done id r, (chot_phien id (runner_settle r) db).2)
  | runner_scan fuel locked batch settle r db db' res :
      scan_unsettled_sessions fuel locked batch settle db = inr (Some (db', res)) → runner_step (r, db) (r, db').

Lemma schedule_ok id r : runner_ok r → runner_ok (schedule id r).2.
Proof.
  intros [Hd Hp Hb]. unfold schedule. case_decide as Hin; [done|]. destruct (_ && _) eqn:Hfull; [done|].
  assert (id ∉ queue r ++ in_work r) as Hnew by (by rewrite <- Hp). split; simpl.
  - rewrite <- app_assoc. simpl. rewrite <- Permutation_middle. by constructor.
  - intros x. rewrite elem_of_union, Hp. set_solver.
  - intros Hc. rewrite length_app. simpl. apply andb_false_iff in Hfull as [?%Z.ltb_ge|?%Z.leb_gt]; lia.
Qed.

Lemma worker_get_ok id r r' : runner_ok r → worker_get r = Some (id, r') → runner_ok r'.
Proof.
  intros [Hd Hp Hb] H. unfold worker_get in H. destruct (queue r) as [|x q] eqn:Hq; [done|]. injection H as <- <-.
  split; simpl in *.
  - rewrite <- Permutation_middle. done.
  - intros y. rewrite Hp. set_solver.
  - intros Hc. specialize (Hb Hc). lia.
Qed.

Lemma worker_done_ok id r : runner_ok r → id ∈ in_work r → runner_ok (worker_done id r).
Proof.
  intros [Hd Hp Hb] Hin. apply NoDup_app in Hd as (Hq & Hqw & Hw).
  assert (id ∉ queue r) as Hnq by (intros ?; by eapply Hqw). split; simpl; [|intros y|done].
  - apply NoDup_app. split_and!; [done| |by apply NoDup_filter]. intros x Hx [_ ?]%list_elem_of_filter. by eapply Hqw.
  - rewrite elem_of_difference, Hp, !elem_of_app, list_elem_of_filter, elem_of_singleton.
    split; [intros [[?|?] ?]; auto|]. intros [Hy|[? ?]]; [|auto]. split; [auto|]. by intros ->.
Qed.

Lemma scan_pages_books {dep : Deployment} fuel locked settle n cursor st st' :
  books_sound st.1 → scan_pages fuel locked settle n cursor st = Some st' → books_sound st'.1.
Proof.
  assert (∀ ids st, books_sound st.1 → books_sound (foldl (scan_one locked settle) st ids).1) as Hfold.
  { intros ids. induction ids as [|id ids IH]; intros x Hx; [done|]. by apply IH, scan_one_books. }
  revert cursor st. induction fuel as [|fuel IH]; intros cursor st Hb; simpl; [done|].
  case_match; [|by intros [= <-]]. apply IH. by apply Hfold.
Qed.

Lemma runner_step_ok {dep : Deployment} s s' :
  runner_step s s' → runner_ok s.1 ∧ books_sound s.2 → runner_ok s'.1 ∧ books_sound s'.2.
Proof.
  intros [id ok r r' db H|id r r' db H|id r db H|fuel locked batch settle r db db' res H] [Hr Hb]; simpl in *.
  - pose proof (schedule_ok id r Hr) as Hr'. by rewrite H in Hr'.
  - by apply (worker_get_ok id r) in H.
  - split; [by apply worker_done_ok|]. destruct Hb as [Hl Hk].
    split; [by apply keeps_ledger_chot|by apply keeps_keyed_chot].
  - split; [done|]. unfold scan_unsettled_sessions in H. destruct (batch <? 1); [done|]. injection H as H.
    by apply (scan_pages_books _ _ _ _ _ (db, scan_zero)) in H.
Qed.

(** The closure queue: in every state reachable from a new runner, however
    scheduling, the workers' transactions and recovery scans interleave, the
    queue is within its capacity, no session is queued or in work twice,
    [pending] is exactly the queued and running sessions, and the books stay
    balanced; and a refused session means that the queue was full. *)
Theorem closure_runner_safe {dep : Deployment} cap settle db r db' :
  ledger_ok db → keyed db → rtc runner_step (new_runner cap settle, db) (r, db') →
  (0 < cap → Z.of_nat (length (queue r)) ≤ cap) ∧ NoDup (queue r ++ in_work r) ∧
  (∀ x, x ∈ pending_ids r ↔ x ∈ queue r ++ in_work r) ∧ ledger_ok db' ∧
  (∀ id, (schedule id r).1 = false → 0 < cap ∧ Z.of_nat (length (queue r)) = cap ∧ id ∉ pending_ids r).
Proof.
  intros Hl Hk Hrun. assert (capacity r = cap ∧ runner_ok r ∧ books_sound db') as (Hcap & [Hd Hp Hb] & Hl' & _).
  { assert (∀ s s', rtc runner_step s s' → capacity s.1 = cap ∧ runner_ok s.1 ∧ books_sound s.2 →
      capacity s'.1 = cap ∧ runner_ok s'.1 ∧ books_sound s'.2) as Hinv.
    { intros s s'. induction 1 as [|s s1 s2 Hstep _ IH]; [done|]. intros (Hc & Hok). apply IH.
      split; [|by apply (runner_step_ok s)]. rewrite <- Hc. clear -Hstep.
      destruct Hstep as [id ok r r' db H|id r r' db H|id r db H|fuel locked batch settle r db db' res H]; simpl; try done.
      - unfold schedule in H. case_decide; [by injection H as _ <-|]. destruct (_ && _); by injection H as _ <-.
      - unfold worker_get in H. destruct (queue r); [done|]. by injection H as _ <-. }
    apply (Hinv _ _ Hrun). split; [done|]. split; [|done]. split; simpl; [constructor|set_solver|lia]. }
  rewrite Hcap in Hb. split_and!; try done. intros id. unfold schedule. case_decide as Hin; [done|].
  rewrite Hcap. destruct (_ && _) eqn:Hfull; [|done]. intros _.
  apply andb_true_iff in Hfull as [?%Z.ltb_lt ?%Z.leb_le]. split_and!; [done|specialize (Hb ltac:(done)); lia|done].
Qed.

Lemma closure_runner_safe_witness :
  ∃ r db', rtc (runner_step (dep := demo_deployment)) (new_runner 1 true, bill_db) (r, db') ∧
    (schedule 7 r).1 = true ∧ NoDup (queue r ++ in_work r) ∧ ledger_ok db'.
Proof.
  set (r1 := (schedule 1 (new_runner 1 true)).2).
  set (r2 := mkRunner 1 [] (pending_ids r1) true [1]).
  set (db' := (chot_phien (dep := demo_deployment) 1 true bill_db).2).
  assert (rtc (runner_step (dep := demo_deployment)) (new_runner 1 true, bill_db) (worker_done 1 r2, db')) as Hrun.
  { eapply rtc_l; [apply (runner_schedule 1 true _ r1); reflexivity|].
    eapply rtc_l; [apply (runner_take 1 _ r2); reflexivity|].
    eapply rtc_l; [apply (runner_close 1 r2 bill_db); by apply list_elem_of_singleton|]. apply rtc_refl. }
  exists (worker_done 1 r2), db'. split; [exact Hrun|]. split; [vm_compute; reflexivity|].
  destruct (closure_runner_safe (dep := demo_deployment) 1 true bill_db (worker_done 1 r2) db'
    (proj1 bill_db_ok) (proj2 bill_db_ok) Hrun) as (_ & H1 & _ & H2 & _).
  split; [exact H1|exact H2].
Defined.
