(* ===== verification/Occupation.v ===== *)
(** * Occupation: when a plugged-in vehicle occupies the connector

    Models [src/src/modules/charging/occupation.py]: the intervals recorded from
    status notifications, the end of the transaction and the unplugging of the
    cable. *)

From S2P Require Import Prelude Segmentation Text Store AuditTrail Wallet Pricing Invoicing InvoiceSpec Notifications Closure.

(** ** Rows *)

(** [if reason not in charging.review_reasons: append] *)
Definition flag (reason : string) (c : ChargingSession) : ChargingSession :=
  if decide (reason ∈ cs_review_reasons c) then c
  else set_cs_review_reasons (cs_review_reasons c ++ [reason]) c.

Definition intervals_of (session_id : Z) (db : Db) : list OccupationInterval :=
  filter (λ i, oi_session_id i = session_id) (occupation_intervals db).

(** [ORDER BY id DESC LIMIT 1] *)
Definition current_interval (session_id : Z) (db : Db) : option OccupationInterval :=
  last (sort_by oi_id (intervals_of session_id db)).

(** [ck_occupation_time] *)
Definition interval_valid (i : OccupationInterval) : bool :=
  match oi_ended_at i with Some e => oi_started_at i <=? e | None => true end.

Definition update_interval (i : OccupationInterval) (f : OccupationInterval → OccupationInterval) : Tx () :=
  raise_if (negb (interval_valid (f i))) (IntegrityError "ck_occupation_time");;
  modify (λ db, set_occupation_intervals
    ((λ x, if oi_id x =? oi_id i then f x else x) <$> occupation_intervals db) db).

(** [uq_occupation_open]: one open interval per session. *)
Definition insert_interval (session_id stamp : Z) : Tx OccupationInterval :=
  open ← gets (λ db, first_where (λ i, bool_decide (oi_ended_at i = None)) (intervals_of session_id db));
  raise_if (bool_decide (is_Some open)) (IntegrityError "uq_occupation_open");;
  id ← fresh_id;
  let i := mkInterval id session_id stamp None false None in
  modify (λ db, set_occupation_intervals (occupation_intervals db ++ [i]) db);;
  mret i.

(** The ISO text of an instant in a JSON value is represented by the instant. *)
Definition add_event (session_id : Z) (action : string) (actor : option Z) (details : list (string * Json)) : Tx Z :=
  id ← fresh_id;
  modify (λ db, set_session_events (session_events db ++
    [mkEvent id session_id action actor details (db_now db)]) db);;
  mret id.

(** The session object of the transaction: its row as it is now. *)
Definition session_row (session_id : Z) : Tx ChargingSession :=
  c ← gets (λ db, charging_sessions db !! session_id); some_or c AssertionError.

Definition open_interval (o : option OccupationInterval) : option OccupationInterval :=
  match o with
  | Some i => if decide (oi_ended_at i = None) then Some i else None
  | None => None
  end.

(** ** Operations *)

Definition released_row (stamp : Z) (i : OccupationInterval) : OccupationInterval :=
  set_oi_end_reason (Some "released") (set_oi_ended_at (Some stamp) i).

Definition resumed_row (stamp : Z) (i : OccupationInterval) : OccupationInterval :=
  set_oi_confirmed false (set_oi_end_reason (Some "resumed") (set_oi_ended_at (Some stamp) i)).

Definition release (session_id stamp : Z) (interval : option OccupationInterval) (source : string) : Tx () :=
  charging ← session_row session_id;
  match cs_connector_released_at charging with
  | Some _ => mret ()
  | None =>
      if (stamp <? cs_started_at charging) ||
         match interval with Some i => stamp <? oi_started_at i | None => false end
      then update_session session_id (flag "occupation_invalid_release_time")
      else
        update_session session_id (set_cs_connector_released_at (Some stamp));;
        match open_interval interval with
        | Some i => update_interval i (released_row stamp)
        | None => mret ()
        end;;
        add_event session_id "connector_released" None [("timestamp", JInt stamp); ("source", JStr source)];;
        mret ()
  end.

(** The newest session of a connector. *)
Definition latest_session (connector_id : Z) (db : Db) : option ChargingSession :=
  last (sort_by cs_id (filter (λ c, cs_connector_id c = connector_id) (rows (charging_sessions db)))).

(** [SuspendedEV] and [Finishing]: the open interval, or a new one. *)
Definition occupy (session_id stamp : Z) (interval : option OccupationInterval) : Tx OccupationInterval :=
  match open_interval interval with
  | Some i => mret i
  | None =>
      i ← insert_interval session_id stamp;
      update_session session_id (set_cs_idle_since (Some stamp));;
      mret i
  end.

Definition note_on_session (charging : ChargingSession) (status : string) (stamp : Z) : Tx () :=
  let sid := cs_id charging in
  interval ← gets (current_interval sid);
  add_event sid "occupation_status" None [("status", JStr status); ("timestamp", JInt stamp)];;
  if decide (status ∈ ["SuspendedEV"; "Finishing"]) then
    i ← occupy sid stamp interval;
    when (bool_decide (status = "Finishing") ||
          match cs_ended_at charging with Some e => e <=? stamp | None => false end)
      (update_interval i (set_oi_confirmed true))
  else if decide (status = "Charging") then
    match cs_ended_at charging, open_interval interval with
    | Some _, _ => update_session sid (flag "occupation_charging_after_stop")
    | None, Some i =>
        update_interval i (resumed_row stamp);;
        update_session sid (set_cs_idle_since None)
    | None, None => mret ()
    end
  else if decide (status = "Available") then
    when (bool_decide (cs_release_detection charging = "available")) (release sid stamp interval "Available")
  else
    match open_interval interval with
    | Some _ => update_session sid (flag "occupation_interrupted_status")
    | None => mret ()
    end.

Definition note_status (connector_id : Z) (status : string) (stamp : option Z) : Tx () :=
  c ← gets (latest_session connector_id);
  match c with
  | None => mret ()
  | Some charging =>
      if cs_billing_lifecycle_version charging =? 0 then mret ()
      else
        invoice ← gets (invoice_of_session (cs_id charging));
        match invoice, stamp with
        | Some _, _ => mret ()
        | None, None => update_session (cs_id charging) (flag "occupation_missing_status_timestamp")
        | None, Some stamp =>
            if stamp <? cs_started_at charging then mret ()
            else
              match cs_connector_released_at charging with
              | Some _ =>
                  when (bool_decide (status ∈ ["Charging"; "SuspendedEV"; "Finishing"]))
                    (update_session (cs_id charging) (flag "occupation_status_after_release"))
              | None => note_on_session charging status stamp
              end
        end
  end.

Definition note_stop (session_id : Z) : Tx () :=
  charging ← session_row session_id;
  if cs_billing_lifecycle_version charging =? 0 then mret ()
  else
    ended_at ← some_or (cs_ended_at charging) AssertionError;
    interval ← gets (current_interval session_id);
    match interval with
    | Some i =>
        when (negb (bool_decide (oi_end_reason i = Some "resumed")))
          (update_interval i (set_oi_confirmed true))
    | None => mret ()
    end;;
    when (bool_decide (cs_stop_reason charging = Some "EVDisconnected"))
      (interval ← gets (current_interval session_id);
       release session_id ended_at interval "EVDisconnected").

Definition gap_candidate (charger_id : Z) (db : Db) (c : ChargingSession) : bool :=
  (cs_charge_point_id c =? charger_id) && (cs_billing_lifecycle_version c =? 1) &&
  bool_decide (cs_connector_released_at c = None) &&
  (bool_decide (is_Some (cs_idle_since c)) || bool_decide (is_Some (cs_ended_at c))) &&
  bool_decide (invoice_of_session (cs_id c) db = None).

Definition note_offline_gap (charger_id : Z) : Tx () :=
  candidates ← gets (λ db, filter (λ c, gap_candidate charger_id db c = true) (rows (charging_sessions db)));
  for_each candidates (λ c, update_session (cs_id c) (flag "occupation_offline_gap")).

(** ** The history of a session *)

(** Charging went on: the interval is not billed. *)
Definition was_resumed (c : ChargingSession) (i : OccupationInterval) : Prop :=
  oi_end_reason i = Some "resumed" ∧ oi_confirmed i = false ∧
  ∃ e, oi_ended_at i = Some e ∧ cs_started_at c ≤ oi_started_at i ≤ e.

(** Still occupied; the cable is plugged in. *)
Definition is_open (c : ChargingSession) (i : OccupationInterval) : Prop :=
  oi_ended_at i = None ∧ oi_end_reason i = None ∧ cs_started_at c ≤ oi_started_at i ∧
  cs_connector_released_at c = None.

(** Ended by unplugging. *)
Definition was_released (c : ChargingSession) (i : OccupationInterval) : Prop :=
  oi_end_reason i = Some "released" ∧
  ∃ e, oi_ended_at i = Some e ∧ cs_connector_released_at c = Some e ∧ cs_started_at c ≤ oi_started_at i ≤ e.

(** Resumed intervals, then at most one that is open or was released. *)
Definition history_ok (c : ChargingSession) (l : list OccupationInterval) : Prop :=
  Forall (was_resumed c) l ∨
  ∃ pre i, l = pre ++ [i] ∧ Forall (was_resumed c) pre ∧ (is_open c i ∨ was_released c i).

Record occupation_ok (db : Db) : Prop := mkOccupationOk {
  occupation_keyed : keyed db;
  occupation_sorted : StronglySorted (λ a b, oi_id a < oi_id b) (occupation_intervals db);
  occupation_fresh : ∀ i, i ∈ occupation_intervals db → oi_id i < next_id db;
  occupation_history : ∀ k c, charging_sessions db !! k = Some c → history_ok c (intervals_of k db);
}.

Lemma current_interval_last k db : occupation_ok db → current_interval k db = last (intervals_of k db).
Proof.
  intros Hok. unfold current_interval. f_equal. apply sort_by_id. apply StronglySorted_filter.
  eapply StronglySorted_weaken; [|apply Hok]. intros x y. unfold key_le. lia.
Qed.

(** The newest interval, by cases. *)
Lemma history_last c l :
  history_ok c l →
  match last l with
  | None => l = []
  | Some i => ∃ pre, l = pre ++ [i] ∧ Forall (was_resumed c) pre ∧
      (was_resumed c i ∨ is_open c i ∨ was_released c i)
  end.
Proof.
  intros [Hl|(pre & i & -> & Hpre & Hi)].
  - destruct l as [|x l _] using rev_ind; [done|]. rewrite last_snoc. apply Forall_app in Hl as [Hl Hx].
    exists l. inversion Hx. auto.
  - rewrite last_snoc. exists pre. auto.
Qed.

Lemma sorted_ids_inj (l : list OccupationInterval) a b :
  StronglySorted (λ a b, oi_id a < oi_id b) l → a ∈ l → b ∈ l → oi_id a = oi_id b → a = b.
Proof. intros Hs Ha Hb Hi. destruct (StronglySorted_trichotomy _ _ _ _ Hs Ha Hb) as [?|[?|?]]; [done|lia|lia]. Qed.

(** Writing the newest interval of a session. *)
Definition write_interval (i : OccupationInterval) (f : OccupationInterval → OccupationInterval) (db : Db) : Db :=
  set_occupation_intervals ((λ x, if oi_id x =? oi_id i then f x else x) <$> occupation_intervals db) db.

Section write.
Context (f : OccupationInterval → OccupationInterval).
Context (Hid : ∀ x, oi_id (f x) = oi_id x) (Hsid : ∀ x, oi_session_id (f x) = oi_session_id x).

Lemma write_sorted i db :
  StronglySorted (λ a b, oi_id a < oi_id b) (occupation_intervals db) →
  StronglySorted (λ a b, oi_id a < oi_id b) (occupation_intervals (write_interval i f db)).
Proof.
  simpl. induction 1 as [|x l Hl IH Hx]; [constructor|]. rewrite fmap_cons. constructor; [done|].
  rewrite Forall_fmap. eapply Forall_impl; [exact Hx|]. intros y Hy. simpl.
  by destruct (oi_id x =? oi_id i), (oi_id y =? oi_id i); rewrite ?Hid.
Qed.

Lemma write_intervals k i db :
  intervals_of k (write_interval i f db) =
  (λ x, if oi_id x =? oi_id i then f x else x) <$> intervals_of k db.
Proof.
  unfold intervals_of, write_interval. simpl. rewrite list_filter_fmap. f_equal. apply list_filter_ext.
  intros x _. destruct (oi_id x =? oi_id i); [|done]. by rewrite Hsid.
Qed.

Lemma write_other k i db :
  occupation_ok db → i ∈ occupation_intervals db → oi_session_id i ≠ k →
  intervals_of k (write_interval i f db) = intervals_of k db.
Proof.
  intros Hok Hi Hk. rewrite write_intervals. rewrite <- (list_fmap_id (intervals_of k db)) at 2.
  apply list_fmap_ext. intros n x Hx%list_elem_of_lookup_2. apply list_elem_of_filter in Hx as [Hs Hx].
  destruct (Z.eqb_spec (oi_id x) (oi_id i)) as [E|]; [|done]. exfalso. apply Hk.
  by rewrite <- (sorted_ids_inj _ _ _ (occupation_sorted _ Hok) Hx Hi E).
Qed.

Lemma write_last k i pre db :
  occupation_ok db → intervals_of k db = pre ++ [i] → intervals_of k (write_interval i f db) = pre ++ [f i].
Proof.
  intros Hok Hl. rewrite write_intervals, Hl, fmap_app. simpl. rewrite Z.eqb_refl. f_equal.
  rewrite <- (list_fmap_id pre) at 2. apply list_fmap_ext. intros n x Hx%list_elem_of_lookup_2.
  destruct (Z.eqb_spec (oi_id x) (oi_id i)) as [E|]; [|done]. exfalso.
  assert (StronglySorted (λ a b, oi_id a < oi_id b) (pre ++ [i])) as Hs.
  { rewrite <- Hl. apply StronglySorted_filter, Hok. }
  pose proof (StronglySorted_app_1_elem_of _ _ _ _ _ Hs Hx (list_elem_of_here i [])) as Hlt. simpl in Hlt. lia.
Qed.

(** The invariant is kept if the history of that one session is. *)
Lemma write_ok i db :
  occupation_ok db → i ∈ occupation_intervals db →
  (∀ c, charging_sessions db !! oi_session_id i = Some c →
     history_ok c (intervals_of (oi_session_id i) (write_interval i f db))) →
  occupation_ok (write_interval i f db).
Proof.
  intros Hok Hi Hc. destruct Hok as [H1 H2 H3 H4] eqn:E. clear E. split.
  - done.
  - by apply write_sorted.
  - simpl. intros x (y & -> & Hy)%list_elem_of_fmap. destruct (_ =? _); rewrite ?Hid; auto.
  - intros k c Hk. destruct (decide (oi_session_id i = k)) as [<-|Hne]; [by apply Hc|].
    rewrite write_other; [by apply H4|by split|done|done].
Qed.
End write.

(** ** Each write keeps the invariant *)

Lemma history_ok_same c c' l :
  cs_started_at c' = cs_started_at c → cs_connector_released_at c' = cs_connector_released_at c →
  history_ok c l → history_ok c' l.
Proof. intros Hs Hr. unfold history_ok, was_resumed, is_open, was_released. by rewrite Hs, Hr. Qed.

Lemma session_write_ok k f db :
  occupation_ok db → (∀ c, cs_id (f c) = cs_id c) →
  (∀ c, charging_sessions db !! k = Some c → history_ok c (intervals_of k db) → history_ok (f c) (intervals_of k db)) →
  occupation_ok (set_charging_sessions (alter f k (charging_sessions db)) db).
Proof.
  intros [H1 H2 H3 H4] Hid Hf. split; try done.
  - intros k' c. simpl. rewrite lookup_alter_Some. intros [(<- & c' & Hc & ->)|[_ Hc]]; [rewrite Hid|]; by apply H1.
  - intros k' c. simpl. rewrite lookup_alter_Some. intros [(<- & c' & Hc & ->)|[_ Hc]]; [|by apply H4].
    by apply Hf; [|apply H4].
Qed.

(** Changes of other columns. *)
Lemma keeps_occupation_update k f :
  (∀ c, cs_id (f c) = cs_id c ∧ cs_started_at (f c) = cs_started_at c ∧
    cs_connector_released_at (f c) = cs_connector_released_at c) →
  keeps occupation_ok (update_session k f).
Proof.
  intros Hf db Hok. apply session_write_ok; [done|intros c; apply Hf|]. intros c _.
  apply history_ok_same; apply Hf.
Qed.

Lemma flag_fields reason c :
  cs_id (flag reason c) = cs_id c ∧ cs_started_at (flag reason c) = cs_started_at c ∧
  cs_connector_released_at (flag reason c) = cs_connector_released_at c.
Proof. unfold flag. by case_decide. Qed.

Lemma keeps_occupation_flag k reason : keeps occupation_ok (update_session k (flag reason)).
Proof. apply keeps_occupation_update. apply flag_fields. Qed.

Lemma keeps_occupation_idle k v : keeps occupation_ok (update_session k (set_cs_idle_since v)).
Proof. by apply keeps_occupation_update. Qed.

Lemma keeps_occupation_event k a b d : keeps occupation_ok (add_event k a b d).
Proof.
  intros db [H1 H2 H3 H4]. split; try done. simpl. intros i Hi. specialize (H3 i Hi). lia.
Qed.

Lemma last_interval_in k db i : last (intervals_of k db) = Some i → i ∈ occupation_intervals db ∧ oi_session_id i = k.
Proof. intros H%last_Some_elem_of. by apply list_elem_of_filter in H as [? ?]. Qed.

(** Rewriting the newest interval, checked by [ck_occupation_time]. *)
Lemma update_interval_ok k c i f db :
  (∀ x, oi_id (f x) = oi_id x) → (∀ x, oi_session_id (f x) = oi_session_id x) →
  occupation_ok db → charging_sessions db !! k = Some c → last (intervals_of k db) = Some i →
  (interval_valid (f i) = true → ∀ pre, intervals_of k db = pre ++ [i] → Forall (was_resumed c) pre →
     history_ok c (pre ++ [f i])) →
  occupation_ok (update_interval i f db).2.
Proof.
  intros Hid Hsid Hok Hc Hlast Hhist. unfold update_interval, mbind, M_bind, raise_if.
  destruct (interval_valid (f i)) eqn:Hv; [|done]. simpl.
  destruct (last_interval_in _ _ _ Hlast) as [Hin Hk].
  apply (write_ok f Hid Hsid i db Hok Hin). rewrite Hk. intros c' Hc'. rewrite Hc in Hc'. injection Hc' as <-.
  pose proof (history_last _ _ (occupation_history _ Hok k c Hc)) as Hh. rewrite Hlast in Hh.
  destruct Hh as (pre & Hl & Hpre & _). rewrite (write_last f Hsid k i pre db Hok Hl). by apply Hhist.
Qed.

Lemma confirm_ok k c i db :
  occupation_ok db → charging_sessions db !! k = Some c → last (intervals_of k db) = Some i →
  oi_end_reason i ≠ Some "resumed" → occupation_ok (update_interval i (set_oi_confirmed true) db).2.
Proof.
  intros Hok Hc Hlast Hr. apply (update_interval_ok k c); try done. intros _ pre Hl Hpre.
  pose proof (history_last _ _ (occupation_history _ Hok k c Hc)) as Hh. rewrite Hlast in Hh.
  destruct Hh as (pre' & _ & _ & [[? _]|Hi]); [done|]. right. exists pre, (set_oi_confirmed true i). done.
Qed.

Lemma resume_ok k c i stamp db :
  occupation_ok db → charging_sessions db !! k = Some c → last (intervals_of k db) = Some i → is_open c i →
  occupation_ok (update_interval i (resumed_row stamp) db).2.
Proof.
  intros Hok Hc Hlast (_ & _ & Hs & _). apply (update_interval_ok k c); try done. intros Hv pre Hl Hpre. left.
  apply Forall_app. split; [done|]. repeat constructor. exists stamp. unfold interval_valid in Hv. simpl in *.
  split; [done|]. lia.
Qed.

Lemma insert_interval_ok k c stamp db :
  occupation_ok db → charging_sessions db !! k = Some c → cs_connector_released_at c = None →
  cs_started_at c ≤ stamp →
  let '(r, db') := insert_interval k stamp db in
  occupation_ok db' ∧ ∀ i, r = inr i → charging_sessions db' = charging_sessions db ∧
    last (intervals_of k db') = Some i ∧ is_open c i.
Proof.
  intros Hok Hc Hrel Hstamp. unfold insert_interval, mbind, M_bind, gets.
  destruct (first_where _ _) as [x|] eqn:Hopen; [split; [done|done]|]. simpl.
  set (i := mkInterval (next_id db) k stamp None false None).
  assert (intervals_of k (set_occupation_intervals (occupation_intervals db ++ [i]) (set_next_id (next_id db + 1) db))
    = intervals_of k db ++ [i]) as Hnew.
  { unfold intervals_of. simpl. rewrite filter_app, filter_cons, filter_nil. by rewrite decide_True. }
  assert (is_open c i) as Hi by done.
  split.
  2: { intros j [= <-]. split; [done|]. split; [|done]. by rewrite Hnew, last_snoc. }
  destruct Hok as [H1 H2 H3 H4] eqn:E. clear E. split; simpl.
  - done.
  - apply StronglySorted_app. split_and!; [|done|repeat constructor].
    intros a b Ha ->%list_elem_of_singleton. simpl. auto.
  - intros x [Hx | ->%list_elem_of_singleton]%elem_of_app; [specialize (H3 x Hx); lia|simpl; lia].
  - intros k' c' Hc'. destruct (decide (k' = k)) as [->|Hne].
    + rewrite Hnew. rewrite Hc in Hc'. injection Hc' as <-. right. exists (intervals_of k db), i. split; [done|].
      split; [|by left]. destruct (H4 k c Hc) as [?|(pre & j & Hl & Hpre & [(Ho & _)|(_ & e & _ & He & _)])];
        [done| |congruence].
      exfalso. rewrite first_where_None in Hopen. specialize (Hopen j). rewrite Hl in Hopen.
      rewrite bool_decide_eq_true_2 in Hopen by done. by specialize (Hopen ltac:(set_solver)).
    + assert (intervals_of k' (set_occupation_intervals (occupation_intervals db ++ [i])
        (set_next_id (next_id db + 1) db)) = intervals_of k' db) as ->; [|by apply H4].
      unfold intervals_of. simpl. rewrite filter_app, filter_cons, filter_nil. rewrite decide_False by (unfold i; simpl; congruence).
      by rewrite app_nil_r.
Qed.

Lemma open_interval_Some c l i :
  history_ok c l → open_interval (last l) = Some i → last l = Some i ∧ is_open c i.
Proof.
  intros Hh%history_last. unfold open_interval. destruct (last l) as [x|]; [|done].
  case_decide as Ho; [|done]. intros [= <-]. split; [done|].
  destruct Hh as (_ & _ & _ & [(_ & _ & e & ? & _)|[?|(_ & e & ? & _)]]); [congruence|done|congruence].
Qed.

Lemma open_interval_None c l :
  history_ok c l → open_interval (last l) = None → cs_connector_released_at c = None → Forall (was_resumed c) l.
Proof.
  intros Hh%history_last Hopen Hrel. unfold open_interval in Hopen. destruct (last l) as [x|] eqn:E; [|by rewrite Hh].
  destruct Hh as (pre & -> & Hpre & [Hx|[(Ho & _)|(_ & e & _ & ? & _)]]); [|by rewrite decide_True in Hopen|congruence].
  apply Forall_app. auto.
Qed.

Definition release_session (k stamp : Z) (db : Db) : Db :=
  set_charging_sessions (alter (set_cs_connector_released_at (Some stamp)) k (charging_sessions db)) db.

Lemma release_open_ok k c i stamp db :
  occupation_ok db → charging_sessions db !! k = Some c → last (intervals_of k db) = Some i → is_open c i →
  cs_started_at c ≤ stamp → oi_started_at i ≤ stamp →
  occupation_ok (write_interval i (released_row stamp) (release_session k stamp db)).
Proof.
  intros Hok Hc Hlast (_ & _ & Hs & _) Hstamp Hi. pose proof (history_last _ _ (occupation_history _ Hok k c Hc)) as Hh.
  rewrite Hlast in Hh. destruct Hh as (pre & Hl & Hpre & _). destruct (last_interval_in _ _ _ Hlast) as [Hin Hk].
  split.
  - intros k' c'. simpl. rewrite lookup_alter_Some.
    intros [(<- & c1 & Hc1 & ->)|[_ Hc1]]; exact (occupation_keyed _ Hok _ _ Hc1).
  - apply (write_sorted (released_row stamp) ltac:(done) i (release_session k stamp db)). apply Hok.
  - simpl. intros x (y & -> & Hy)%list_elem_of_fmap. pose proof (occupation_fresh _ Hok y Hy).
    by destruct (_ =? _).
  - intros k' c'. change (intervals_of k' (write_interval i (released_row stamp) (release_session k stamp db)))
      with (intervals_of k' (write_interval i (released_row stamp) db)). simpl.
    rewrite lookup_alter_Some. intros [(<- & c1 & Hc1 & ->)|[Hne Hc1]].
    + rewrite Hc in Hc1. injection Hc1 as <-. rewrite (write_last (released_row stamp) ltac:(done) k i pre db Hok Hl). right.
      exists pre, (released_row stamp i). split; [done|]. split; [done|]. right. split; [done|]. exists stamp.
      simpl. split_and!; try done; lia.
    + rewrite (write_other (released_row stamp) ltac:(done) k' i db Hok Hin) by congruence. by apply (occupation_history _ Hok).
Qed.

Lemma release_closed_ok k c stamp db :
  occupation_ok db → charging_sessions db !! k = Some c → Forall (was_resumed c) (intervals_of k db) →
  occupation_ok (release_session k stamp db).
Proof.
  intros Hok Hc Hres. apply session_write_ok; [done|done|]. intros c' Hc' _. rewrite Hc in Hc'. injection Hc' as <-.
  by left.
Qed.

Lemma session_row_some k c db : charging_sessions db !! k = Some c → session_row k db = (inr c, db).
Proof. intros Hc. unfold session_row, mbind, M_bind, gets. by rewrite Hc. Qed.

Lemma session_row_none k db : charging_sessions db !! k = None → session_row k db = (inl AssertionError, db).
Proof. intros Hc. unfold session_row, mbind, M_bind, gets. by rewrite Hc. Qed.

Lemma release_ok k stamp source db :
  occupation_ok db → occupation_ok (release k stamp (last (intervals_of k db)) source db).2.
Proof.
  intros Hok. unfold release. destruct (charging_sessions db !! k) as [c|] eqn:Hc.
  2: { by rewrite (bind_err_step _ _ _ _ _ (session_row_none k db Hc)). }
  rewrite (bind_ok_step _ _ _ _ _ (session_row_some k c db Hc)).
  destruct (cs_connector_released_at c) as [|] eqn:Hrel; [done|].
  pose proof (occupation_history _ Hok k c Hc) as Hh.
  destruct (_ || _) eqn:Hbad; [by apply keeps_occupation_flag|].
  apply orb_false_iff in Hbad as [H1%Z.ltb_ge H2].
  rewrite (bind_ok_step _ _ _ () (release_session k stamp db)) by done.
  destruct (open_interval (last (intervals_of k db))) as [i|] eqn:Ho.
  - destruct (open_interval_Some _ _ _ Hh Ho) as [Hlast Hi]. rewrite Hlast in H2. apply Z.ltb_ge in H2.
    rewrite (bind_ok_step _ _ _ () (write_interval i (released_row stamp) (release_session k stamp db))).
    + apply keeps_bind; [apply keeps_occupation_event|intros; apply keeps_ret|]. by apply (release_open_ok k c).
    + unfold update_interval. rewrite (bind_ok_step _ _ _ () (release_session k stamp db)); [done|].
      unfold interval_valid. simpl. by destruct (Z.leb_spec (oi_started_at i) stamp); [|lia].
  - rewrite (bind_ok_step _ _ _ () (release_session k stamp db)) by done.
    apply keeps_bind; [apply keeps_occupation_event|intros; apply keeps_ret|].
    apply (release_closed_ok k c); [done|done|]. by apply open_interval_None.
Qed.

(** ** The handlers keep the invariant *)

Lemma occupy_ok k c stamp db :
  occupation_ok db → charging_sessions db !! k = Some c → cs_connector_released_at c = None →
  cs_started_at c ≤ stamp →
  let '(r, db') := occupy k stamp (last (intervals_of k db)) db in
  occupation_ok db' ∧ ∀ i, r = inr i → ∃ c', charging_sessions db' !! k = Some c' ∧
    last (intervals_of k db') = Some i ∧ oi_end_reason i = None.
Proof.
  intros Hok Hc Hrel Hs. unfold occupy. pose proof (occupation_history _ Hok k c Hc) as Hh.
  destruct (open_interval (last (intervals_of k db))) as [i|] eqn:Ho.
  - destruct (open_interval_Some _ _ _ Hh Ho) as [Hlast (_ & Hr & _)]. split; [done|]. intros j [= <-]. eauto.
  - unfold mbind, M_bind. pose proof (insert_interval_ok k c stamp db Hok Hc Hrel Hs) as Hins.
    destruct (insert_interval k stamp db) as [[e|i] db1]; destruct Hins as [Hok1 Hi]; [split; [done|done]|].
    destruct (Hi i eq_refl) as (Hcs & Hlast & (_ & Hr & _)). simpl.
    split; [by apply keeps_occupation_idle|]. intros j [= <-]. eexists. split; [|done].
    simpl. by rewrite lookup_alter_eq, Hcs, Hc.
Qed.

Lemma note_on_session_ok c status stamp db :
  occupation_ok db → charging_sessions db !! cs_id c = Some c → cs_connector_released_at c = None →
  cs_started_at c ≤ stamp → occupation_ok (note_on_session c status stamp db).2.
Proof.
  intros Hok0 Hc0 Hrel Hs. unfold note_on_session.
  rewrite (bind_ok_step _ _ _ (last (intervals_of (cs_id c) db)) db)
    by (unfold gets; by rewrite current_interval_last).
  set (k := cs_id c) in *. pose proof (keeps_occupation_event k "occupation_status" None
    [("status", JStr status); ("timestamp", JInt stamp)] db Hok0) as Hok.
  destruct (add_event k "occupation_status" None _ db) as [r db1] eqn:He.
  injection He as <- Hdb1. rewrite (bind_ok_step _ _ _ (next_id db) db1) by (unfold add_event; by rewrite <- Hdb1).
  assert (charging_sessions db1 !! k = Some c) as Hc by (by rewrite <- Hdb1).
  assert (last (intervals_of k db) = last (intervals_of k db1)) as -> by (by rewrite <- Hdb1).
  simpl in Hok. clear Hdb1 Hc0 Hok0 db. pose proof (occupation_history _ Hok k c Hc) as Hh.
  case_decide as H1; [|case_decide as H2; [|case_decide as H3]].
  - pose proof (occupy_ok k c stamp db1 Hok Hc Hrel Hs) as Hocc. unfold mbind, M_bind.
    destruct (occupy k stamp _ db1) as [[e|i] db2]; destruct Hocc as [Hok2 Hi]; [done|].
    destruct (Hi i eq_refl) as (c' & Hc' & Hlast & Hr). unfold when. destruct (_ || _); [|done].
    apply (confirm_ok k c'); [done|done|done|by rewrite Hr].
  - destruct (cs_ended_at c); [by apply keeps_occupation_flag|].
    destruct (open_interval _) as [i|] eqn:Ho; [|done].
    destruct (open_interval_Some _ _ _ Hh Ho) as [Hlast Hi]. unfold mbind, M_bind.
    pose proof (resume_ok k c i stamp db1 Hok Hc Hlast Hi) as Hok2.
    destruct (update_interval i (resumed_row stamp) db1) as [[e|[]] db2]; [done|]. by apply keeps_occupation_idle.
  - unfold when. destruct (bool_decide _); [|done]. by apply release_ok.
  - destruct (open_interval _); [|done]. by apply keeps_occupation_flag.
Qed.

Lemma latest_session_row connector db c :
  keyed db → latest_session connector db = Some c → charging_sessions db !! cs_id c = Some c ∧ cs_connector_id c = connector.
Proof.
  intros Hk H%last_Some_elem_of. rewrite elem_of_sort_by in H. apply list_elem_of_filter in H as [Hc H].
  apply list_elem_of_fmap in H as ([k c'] & -> & H%elem_of_map_to_list). simpl in *. by rewrite (Hk k c' H).
Qed.

Lemma keeps_occupation_note_status connector status stamp :
  keeps occupation_ok (note_status connector status stamp).
Proof.
  intros db Hok. unfold note_status. rewrite (bind_ok_step _ _ _ (latest_session connector db) db) by done.
  destruct (latest_session connector db) as [c|] eqn:Hl; [|done].
  destruct (latest_session_row _ _ _ (occupation_keyed _ Hok) Hl) as [Hc _].
  destruct (_ =? 0); [done|]. rewrite (bind_ok_step _ _ _ (invoice_of_session (cs_id c) db) db) by done.
  destruct (invoice_of_session (cs_id c) db); [done|].
  destruct stamp as [stamp|]; [|by apply keeps_occupation_flag].
  destruct (Z.ltb_spec stamp (cs_started_at c)); [done|]. destruct (cs_connector_released_at c) eqn:Hr.
  - unfold when. destruct (bool_decide _); [by apply keeps_occupation_flag|done].
  - by apply note_on_session_ok.
Qed.

Lemma keeps_occupation_note_stop k : keeps occupation_ok (note_stop k).
Proof.
  intros db Hok. unfold note_stop. destruct (charging_sessions db !! k) as [c|] eqn:Hc.
  2: { by rewrite (bind_err_step _ _ _ _ _ (session_row_none k db Hc)). }
  rewrite (bind_ok_step _ _ _ _ _ (session_row_some k c db Hc)). destruct (_ =? 0); [done|].
  destruct (cs_ended_at c) as [e|]; [|done]. rewrite (bind_ok_step _ _ _ e db) by done.
  rewrite (bind_ok_step _ _ _ (last (intervals_of k db)) db) by (unfold gets; by rewrite current_interval_last).
  set (m := match last (intervals_of k db) with Some i => _ | None => _ end).
  assert (occupation_ok (m db).2) as Hm.
  { unfold m. destruct (last (intervals_of k db)) as [i|] eqn:Hl; [|done]. unfold when.
    destruct (bool_decide _) eqn:Hr; [done|]. apply bool_decide_eq_false in Hr. by apply (confirm_ok k c). }
  unfold mbind, M_bind. destruct (m db) as [[x|[]] db1]; [done|]. simpl in Hm. unfold when.
  destruct (bool_decide _); [|done]. unfold gets. rewrite current_interval_last by done. by apply release_ok.
Qed.

Lemma keeps_occupation_offline_gap charger : keeps occupation_ok (note_offline_gap charger).
Proof.
  unfold note_offline_gap. apply keeps_bind; [apply keeps_gets|]. intros l. apply keeps_for_each. intros c.
  apply keeps_occupation_flag.
Qed.

(** ** Reachable histories *)

(** The rest of the system: transactions start, stop, get reviewed, settled and
    invoiced, but write neither intervals nor the release of a connector. *)
Definition sessions_evolve (db db' : Db) : Prop :=
  occupation_intervals db' = occupation_intervals db ∧ next_id db ≤ next_id db' ∧ keyed db' ∧
  (∀ k c', charging_sessions db' !! k = Some c' →
     match charging_sessions db !! k with
     | Some c => cs_started_at c' = cs_started_at c ∧ cs_connector_released_at c' = cs_connector_released_at c
     | None => intervals_of k db = []
     end).

Inductive occupation_step : Db → Db → Prop :=
  | step_status connector status stamp db r db' :
      note_status connector status stamp db = (inr r, db') → occupation_step db db'
  | step_stop k db r db' : note_stop k db = (inr r, db') → occupation_step db db'
  | step_gap charger db r db' : note_offline_gap charger db = (inr r, db') → occupation_step db db'
  | step_evolve db db' : sessions_evolve db db' → occupation_step db db'.

Lemma evolve_ok db db' : sessions_evolve db db' → occupation_ok db → occupation_ok db'.
Proof.
  intros (Hi & Hid & Hk & Hc) [H1 H2 H3 H4]. split; [done|by rewrite Hi| |].
  - intros i. rewrite Hi. intros Hin. specialize (H3 i Hin). lia.
  - intros k c' Hk'. specialize (Hc k c' Hk').
    assert (intervals_of k db' = intervals_of k db) as -> by (unfold intervals_of; by rewrite Hi).
    destruct (charging_sessions db !! k) as [c|] eqn:E.
    + destruct Hc as [Hs Hr]. apply (history_ok_same c); auto.
    + rewrite Hc. left. constructor.
Qed.

Lemma occupation_step_ok db db' : occupation_step db db' → occupation_ok db → occupation_ok db'.
Proof.
  intros [connector status stamp db0 r db1 H|k db0 r db1 H|charger db0 r db1 H|db0 db1 H] Hok.
  - by eapply keeps_run; [apply keeps_occupation_note_status| |exact H].
  - by eapply keeps_run; [apply keeps_occupation_note_stop| |exact H].
  - by eapply keeps_run; [apply keeps_occupation_offline_gap| |exact H].
  - by eapply evolve_ok.
Qed.

(** What the invoice finds after the release. *)
Lemma confirmed_after_release k c db rel :
  occupation_ok db → charging_sessions db !! k = Some c → cs_connector_released_at c = Some rel →
  (confirmed_intervals k db = [] ∨ ∃ i, confirmed_intervals k db = [i]) ∧
  ∀ i, i ∈ confirmed_intervals k db →
    oi_ended_at i = Some rel ∧ oi_end_reason i = Some "released" ∧ cs_started_at c ≤ oi_started_at i ≤ rel.
Proof.
  intros Hok Hc Hrel. set (l := filter (λ i, oi_confirmed i = true) (intervals_of k db)).
  assert (confirmed_intervals k db = sort_by oi_started_at l) as Heq.
  { unfold confirmed_intervals, l, intervals_of. f_equal. rewrite list_filter_filter. apply list_filter_ext. tauto. }
  assert (∀ pre, Forall (was_resumed c) pre → filter (λ i, oi_confirmed i = true) pre = []) as Hres.
  { induction 1 as [|x pre (_ & Hx & _) _ IH]; [done|]. rewrite filter_cons, decide_False by (rewrite Hx; done). done. }
  assert (l = [] ∨ ∃ i, l = [i] ∧ was_released c i) as Hl.
  { unfold l. destruct (occupation_history _ Hok k c Hc) as [Hall|(pre & i & -> & Hpre & Hi)]; [left; auto|].
    rewrite filter_app, (Hres pre Hpre), filter_cons, filter_nil. simpl. case_decide; [|by left]. right. exists i.
    split; [done|]. destruct Hi as [(_ & _ & _ & ?)|?]; [congruence|done]. }
  rewrite Heq. destruct Hl as [-> |(i & -> & (Hr & e & He & Hre & Hs))]; simpl.
  - split; [by left|]. by intros i ?%elem_of_nil.
  - split; [right; by exists i|]. intros j ->%list_elem_of_singleton. assert (e = rel) as -> by congruence. done.
Qed.

(** C37. Whatever order status notifications, transaction stops and offline
    gaps arrive in, the recorded occupation of a released session can be
    invoiced: at most one interval is confirmed, it ends exactly at the release
    of the connector and starts within the session, so [billed_occupation] never
    rejects the history; a pause after which charging resumed is never billed. *)
Theorem occupation_always_billable db0 db k c rel e :
  occupation_ok db0 → rtc occupation_step db0 db →
  charging_sessions db !! k = Some c → cs_connector_released_at c = Some rel → cs_billing_lifecycle_version c = 1 →
  ∃ l bend, billed_occupation c e db = (inr (l, bend), db) ∧ (length l ≤ 1)%nat ∧ e ≤ bend ∧
    (∀ i, i ∈ l → oi_ended_at i = Some rel ∧ cs_started_at c ≤ oi_started_at i ≤ rel) ∧
    (∀ i, i ∈ intervals_of k db → oi_end_reason i = Some "resumed" → i ∉ l).
Proof.
  intros Hok0 Hrun Hc Hrel Hv.
  assert (occupation_ok db) as Hok.
  { clear -Hok0 Hrun. induction Hrun as [|a b d Hs _ IH]; [done|]. by apply IH, (occupation_step_ok a). }
  destruct (confirmed_after_release k c db rel Hok Hc Hrel) as [Hlen Hall].
  assert (cs_id c = k) as Hid by (by apply (occupation_keyed _ Hok)).
  exists (confirmed_intervals k db), (match confirmed_intervals k db with [] => e | _ => Z.max e rel end).
  unfold billed_occupation. rewrite Hv, Hid, Hrel. split_and!.
  - rewrite Z.eqb_refl. rewrite (bind_ok_step _ _ _ rel db) by done.
    rewrite (bind_ok_step _ _ _ (confirmed_intervals k db) db) by done.
    rewrite (bind_ok_step _ _ _ () db); [done|].
    assert (existsb (λ i, negb (bool_decide (oi_ended_at i = Some rel ∧ oi_end_reason i = Some "released")))
      (confirmed_intervals k db) = false) as ->.
    { apply not_true_iff_false. rewrite existsb_exists. intros (i & Hi & Hb). apply list_elem_of_In, Hall in Hi.
      rewrite bool_decide_eq_true_2 in Hb by tauto. done. }
    by destruct Hlen as [-> | [i ->]].
  - destruct Hlen as [-> | [i ->]]; simpl; lia.
  - destruct (confirmed_intervals k db); lia.
  - intros i Hi. destruct (Hall i Hi) as (? & _ & ?). done.
  - intros i _ Hr Hi. destruct (Hall i Hi) as (_ & ? & _). congruence.
Qed.

(** A session whose vehicle finished an hour before it was unplugged. *)
Definition plugged_session : ChargingSession :=
  set_cs_stop_reason (Some "EVDisconnected") (set_cs_connector_released_at None bill_session).

Definition plugged_db : Db :=
  set_occupation_intervals [] (set_charging_sessions {[ 1 := plugged_session ]} bill_db).

Definition finished_db : Db := (note_status 41 "Finishing" (Some (hours 15)) plugged_db).2.
Definition unplugged_db : Db := (note_stop 1 finished_db).2.

Lemma plugged_ok : occupation_ok plugged_db.
Proof.
  split.
  - intros k c Hk. change (charging_sessions plugged_db) with ({[ 1 := plugged_session ]} : gmap Z ChargingSession) in Hk.
    by apply lookup_singleton_Some in Hk as [<- <-].
  - constructor.
  - intros i Hi. by apply elem_of_nil in Hi.
  - intros k c _. left. constructor.
Qed.

Definition unplugged_session : ChargingSession :=
  set_cs_idle_since (Some (hours 15)) (set_cs_connector_released_at (Some (hours 16)) plugged_session).

Lemma occupation_always_billable_witness :
  ∃ l bend, billed_occupation unplugged_session (hours 16) unplugged_db = (inr (l, bend), unplugged_db) ∧
    bend = hours 16 ∧ (oi_started_at <$> l) = [hours 15].
Proof.
  destruct (occupation_always_billable plugged_db unplugged_db 1 unplugged_session (hours 16) (hours 16) plugged_ok)
    as (l & bend & H & _).
  - eapply rtc_l; [apply (step_status 41 "Finishing" (Some (hours 15)) plugged_db () finished_db); vm_compute; reflexivity|].
    eapply rtc_l; [apply (step_stop 1 finished_db () unplugged_db); vm_compute; reflexivity|]. apply rtc_refl.
  - vm_compute. reflexivity.
  - reflexivity.
  - reflexivity.
  - exists l, bend. split; [exact H|].
    assert (inr (l, bend) = (billed_occupation unplugged_session (hours 16) unplugged_db).1) as Hr by (by rewrite H).
    vm_compute in Hr. injection Hr as -> ->. split; reflexivity.
Defined.
