(* ===== verification/Monitoring.v ===== *)
(** * Monitoring: liveness of chargers and status of connectors

    Models [src/src/modules/ocpp/monitoring.py] (contact bookkeeping, expiry of
    silent chargers, status notifications) and the display groups of
    [src/src/modules/stations/connector_status.py]. *)

From S2P Require Import Prelude Segmentation Text Store AuditTrail Wallet Pricing Invoicing InvoiceSpec Notifications Closure Occupation.

Inductive OcppStatus :=
  | Available | Preparing | Charging | SuspendedEVSE | SuspendedEV | Finishing | Reserved | Unavailable | Faulted.

Definition status_str (s : OcppStatus) : string :=
  match s with
  | Available => "Available" | Preparing => "Preparing" | Charging => "Charging"
  | SuspendedEVSE => "SuspendedEVSE" | SuspendedEV => "SuspendedEV" | Finishing => "Finishing"
  | Reserved => "Reserved" | Unavailable => "Unavailable" | Faulted => "Faulted"
  end.

(** A validated [StatusNotification]; [sp_error_code] is one of the codes of OCPP. *)
Record StatusPayload := mkStatusPayload {
  sp_connector : Z; sp_status : OcppStatus; sp_error_code : string; sp_vendor_error_code : option string;
  sp_info : option string; sp_vendor_id : option string; sp_timestamp : option Z
}.

(** ** Display groups *)

Definition OCPP_STATUS_GROUPS : list (string * string) :=
  [("Available", "available"); ("Preparing", "occupied"); ("Charging", "occupied"); ("SuspendedEV", "occupied");
   ("SuspendedEVSE", "occupied"); ("Finishing", "occupied"); ("Reserved", "reserved");
   ("Unavailable", "unavailable"); ("Faulted", "faulted")]%string.

Definition connector_status_group (status : option string) : string :=
  match status with
  | Some s => default "unknown" (snd <$> first_where (λ p, bool_decide (p.1 = s)) OCPP_STATUS_GROUPS)
  | None => "unknown"
  end.

(** ** Contact *)

(** Twice the heartbeat interval, in microseconds. *)
Definition silence_us (interval : Z) : Z := 2 * interval * 1000000.

Definition expired (now : Z) (cp : ChargePoint) : bool :=
  match cp_last_seen_at cp with
  | None => true
  | Some t => t <? now - silence_us (cp_heartbeat_interval_seconds cp)
  end.

Definition mark_offline (now : Z) (c : ChargePoint) : ChargePoint :=
  set_cp_status_updated_at now (set_cp_status "offline" c).

Definition set_cn_unknown (now : Z) (c : Connector) : Connector :=
  mkConnector (cn_id c) (cn_charge_point_id c) (cn_connector_number c) "unknown" None
    (cn_last_status_notification_at c) now (cn_archived_at c) (cn_voltage c) (cn_amperage c)
    (cn_connector_type c) (cn_current_type c) (cn_max_power_kw c).

(** The connectors of chargers that were silent are not known any more. *)
Definition forget_connectors (P : Connector → bool) (now : Z) (db : Db) : Db :=
  set_connectors ((λ c, if P c then set_cn_unknown now c else c) <$> connectors db) db.

Definition unarchived_of (charger_id : Z) (c : Connector) : bool :=
  (cn_charge_point_id c =? charger_id) && bool_decide (cn_archived_at c = None).

(** Contact recorded at [now]; [last_seen] and [interval] were read under the lock. *)
Definition record_contact (charger_id now : Z) (last_seen : option Z) (interval : Z) : Tx () :=
  modify (λ db, set_charge_points (alter (set_cp_last_seen_at (Some now)) charger_id (charge_points db)) db);;
  when (match last_seen with Some t => silence_us interval <? now - t | None => true end)
    (modify (forget_connectors (unarchived_of charger_id) now);;
     when (bool_decide (is_Some last_seen)) (note_offline_gap charger_id)).

Definition lock_and_mark_seen (charger_id : Z) : Tx (option ChargePoint) :=
  cp ← gets (λ db, charge_points db !! charger_id);
  match cp with
  | None => mret None
  | Some c =>
      if bool_decide (is_Some (cp_archived_at c)) then mret None
      else
        now ← gets db_now;
        record_contact charger_id now (cp_last_seen_at c) (cp_heartbeat_interval_seconds c);;
        gets (λ db, charge_points db !! charger_id)
  end.

(** The same on a charger already locked by the caller, or locked here; the
    clock is the database's unless the caller gives one. *)
Definition mark_seen (charger_id : Z) (now : option Z) (locked_charger : option ChargePoint) : Tx () :=
  cp ← gets (λ db, match locked_charger with Some c => Some c | None => charge_points db !! charger_id end);
  match cp with
  | None => mret ()
  | Some c =>
      row ← gets (λ db, charge_points db !! charger_id);
      match row with
      | Some r =>
          if bool_decide (is_Some (cp_archived_at r)) then mret ()
          else
            clock ← gets db_now;
            record_contact charger_id (default clock now) (cp_last_seen_at c) (cp_heartbeat_interval_seconds c)
      | None => mret ()
      end
  end.

(** [skip_locked]: chargers held by other transactions wait for the next tick. *)
Definition stale_chargers (locked : Z → bool) (now : Z) (db : Db) : list Z :=
  (filter (λ p, expired now p.2 = true ∧ cp_archived_at p.2 = None ∧ locked p.1 = false)
     (map_to_list (charge_points db))).*1.

Definition expire_chargers (locked : Z → bool) (now : option Z) : Tx () :=
  clock ← gets db_now;
  let now := default clock now in
  stale ← gets (stale_chargers locked now);
  for_each stale note_offline_gap;;
  modify (forget_connectors (λ c, bool_decide (cn_charge_point_id c ∈ stale) &&
    bool_decide (cn_archived_at c = None) && negb (bool_decide (cn_status c = "unknown"))) now);;
  modify (λ db, set_charge_points ((λ c, if bool_decide (cp_id c ∈ stale) && expired now c &&
    bool_decide (cp_archived_at c = None) && negb (bool_decide (cp_status c = "offline"))
    then mark_offline now c else c) <$> charge_points db) db).

(** ** Status notifications *)

Definition find_connector (charger_id number : Z) (db : Db) : option Connector :=
  select_where (λ c, unarchived_of charger_id c && (cn_connector_number c =? number)) (connectors db).

Definition reported (p : StatusPayload) (now : Z) (c : Connector) : Connector :=
  mkConnector (cn_id c) (cn_charge_point_id c) (cn_connector_number c) (status_str (sp_status p))
    (Some (status_str (sp_status p)))
    (match sp_timestamp p with Some t => Some t | None => cn_last_status_notification_at c end) now
    (cn_archived_at c) (cn_voltage c) (cn_amperage c)
    (cn_connector_type c) (cn_current_type c) (cn_max_power_kw c).

Definition reported_charger (p : StatusPayload) (now : Z) (c : ChargePoint) : ChargePoint :=
  set_cp_raw_ocpp_status (Some (status_str (sp_status p))) (set_cp_error_code (Some (sp_error_code p))
    (set_cp_vendor_error_code (sp_vendor_error_code p)
      (set_cp_error_at (if decide (sp_error_code p = "NoError") then None else Some now)
        (set_cp_status_updated_at now c)))).

(** A notification is taken if its source time is newer than the last one. *)
Definition in_order (p : StatusPayload) (c : Connector) : bool :=
  match sp_timestamp p, cn_last_status_notification_at c with
  | Some t, Some last => last <? t
  | _, _ => true
  end.

(** The idle column of sessions billed the old way. *)
Definition legacy_idle (connector_id t : Z) (status : OcppStatus) (c : ChargingSession) : ChargingSession :=
  if (cs_connector_id c =? connector_id) && bool_decide (cs_ended_at c = None) && (cs_started_at c <=? t) &&
     (cs_billing_lifecycle_version c =? 0)
  then match status, cs_idle_since c with
       | SuspendedEV, None => set_cs_idle_since (Some t) c
       | Charging, _ => set_cs_idle_since None c
       | _, _ => c
       end
  else c.

Definition report_status (charger_id : Z) (p : StatusPayload) : Tx bool :=
  now ← gets db_now;
  if sp_connector p =? 0 then
    modify (λ db, set_charge_points (alter (reported_charger p now) charger_id (charge_points db)) db);;
    mret false
  else
    cn ← gets (find_connector charger_id (sp_connector p));
    match cn with
    | None => mret false
    | Some cn =>
        if negb (in_order p cn) then mret false
        else
          modify (λ db, set_connectors (alter (reported p now) (cn_id cn) (connectors db)) db);;
          note_status (cn_id cn) (status_str (sp_status p)) (sp_timestamp p);;
          match sp_timestamp p with
          | Some t => modify (λ db, set_charging_sessions
                        (legacy_idle (cn_id cn) t (sp_status p) <$> charging_sessions db) db)
          | None => mret ()
          end;;
          when (negb (bool_decide (sp_error_code p = "NoError")))
            (modify (λ db, set_connector_errors (connector_errors db ++
               [mkConnectorError (cn_id cn) (sp_error_code p) (sp_vendor_error_code p) now (sp_info p)]) db));;
          mret true
    end.

(** ** Handling a notification opens at most one interval, at its time *)

Definition opens (connector : Z) (stamp : option Z) (db0 db : Db) : Prop :=
  connectors db = connectors db0 ∧
  (∀ k, cs_connector_id <$> charging_sessions db !! k = cs_connector_id <$> charging_sessions db0 !! k) ∧
  (∀ i, i ∈ occupation_intervals db → oi_ended_at i = None →
     (∃ i0, i0 ∈ occupation_intervals db0 ∧ oi_ended_at i0 = None ∧ oi_session_id i0 = oi_session_id i ∧
        oi_started_at i0 = oi_started_at i) ∨
     (stamp = Some (oi_started_at i) ∧
      cs_connector_id <$> charging_sessions db !! oi_session_id i = Some connector)).

Section opens.
Context (connector : Z) (stamp : option Z) (db0 : Db).
Local Abbreviation J := (opens connector stamp db0).

Lemma keeps_opens_update k f : (∀ c, cs_connector_id (f c) = cs_connector_id c) → keeps J (update_session k f).
Proof.
  intros Hf db (H1 & H2 & H3).
  assert (∀ k', cs_connector_id <$> alter f k (charging_sessions db) !! k' =
    cs_connector_id <$> charging_sessions db !! k') as Hsame.
  { intros k'. destruct (decide (k' = k)) as [->|]; [|by rewrite lookup_alter_ne].
    rewrite lookup_alter_eq. destruct (charging_sessions db !! k); [|done]. simpl. by rewrite Hf. }
  split; [done|]. split; [intros k'; simpl; by rewrite Hsame|]. intros i Hi Ho. simpl. rewrite Hsame. by apply H3.
Qed.

Lemma keeps_opens_flag k reason : keeps J (update_session k (flag reason)).
Proof. apply keeps_opens_update. intros c. unfold flag. by case_decide. Qed.

Lemma keeps_opens_event k a b d : keeps J (add_event k a b d).
Proof. intros db H. exact H. Qed.

Lemma keeps_opens_interval i f :
  (∀ x, oi_session_id (f x) = oi_session_id x ∧ oi_started_at (f x) = oi_started_at x ∧
    (oi_ended_at (f x) = None → oi_ended_at x = None)) →
  keeps J (update_interval i f).
Proof.
  intros Hf. unfold update_interval. apply keeps_bind; [apply keeps_raise_if|]. intros _ db (H1 & H2 & H3).
  split; [done|]. split; [done|]. simpl. intros x (y & -> & Hy)%list_elem_of_fmap. specialize (H3 y Hy).
  destruct (oi_id y =? oi_id i); [|done]. destruct (Hf y) as (-> & -> & Ho). auto.
Qed.

Lemma keeps_opens_release k t o src : keeps J (release k t o src).
Proof.
  assert (∀ i, keeps J (update_interval i (released_row t))) by (intros; by apply keeps_opens_interval).
  assert (keeps J (update_session k (set_cs_connector_released_at (Some t)))) by (by apply keeps_opens_update).
  pose proof (keeps_opens_flag k "occupation_invalid_release_time").
  pose proof (keeps_opens_event k "connector_released" None [("timestamp", JInt t); ("source", JStr src)]).
  unfold release, session_row. keeps_steps.
Qed.

Lemma insert_interval_opens k t db :
  J db → stamp = Some t → cs_connector_id <$> charging_sessions db !! k = Some connector →
  J (insert_interval k t db).2 ∧
  cs_connector_id <$> charging_sessions (insert_interval k t db).2 !! k = Some connector.
Proof.
  intros (H1 & H2 & H3) Hs Hk. unfold insert_interval, mbind, M_bind, gets.
  destruct (first_where _ _); [done|]. split; [|done]. split; [done|]. split; [done|]. simpl.
  intros i [Hi | ->%list_elem_of_singleton]%elem_of_app Ho; [auto|]. by right.
Qed.

Lemma note_status_opens status db :
  keyed db → J db → J (note_status connector status stamp db).2.
Proof.
  intros Hkey HJ. unfold note_status. rewrite (bind_ok_step _ _ _ (latest_session connector db) db) by done.
  destruct (latest_session connector db) as [c|] eqn:Hl; [|done].
  destruct (latest_session_row _ _ _ Hkey Hl) as [Hc Hcn].
  destruct (_ =? 0); [done|]. rewrite (bind_ok_step _ _ _ (invoice_of_session (cs_id c) db) db) by done.
  destruct (invoice_of_session (cs_id c) db); [done|].
  destruct stamp as [t|] eqn:Hst; [|by rewrite <- Hst in *; apply keeps_opens_flag].
  rewrite <- Hst in *. destruct (t <? cs_started_at c); [done|]. destruct (cs_connector_released_at c).
  { by apply keeps_when; [apply keeps_opens_flag|]. }
  assert (keeps J (update_session (cs_id c) (set_cs_idle_since (Some t)))) as K1 by (by apply keeps_opens_update).
  assert (keeps J (update_session (cs_id c) (set_cs_idle_since None))) as K2 by (by apply keeps_opens_update).
  assert (∀ i, keeps J (update_interval i (set_oi_confirmed true))) as K3 by (intros; by apply keeps_opens_interval).
  assert (∀ i, keeps J (update_interval i (resumed_row t))) as K4 by (intros; by apply keeps_opens_interval).
  unfold note_on_session. rewrite (bind_ok_step _ _ _ (current_interval (cs_id c) db) db) by done.
  set (db1 := (add_event (cs_id c) "occupation_status" None
    [("status", JStr status); ("timestamp", JInt t)] db).2).
  assert (J db1) as HJ1 by exact HJ.
  rewrite (bind_ok_step _ _ _ (next_id db) db1) by done.
  case_decide; [|case_decide; [|case_decide]].
  - unfold occupy. destruct (open_interval _) as [i|].
    { rewrite (bind_ok_step _ _ _ i db1) by done. by apply keeps_when; [apply K3|]. }
    destruct (insert_interval_opens (cs_id c) t db1 HJ1 Hst) as [HJ2 _].
    { change (charging_sessions db1) with (charging_sessions db). by rewrite Hc, <- Hcn. }
    assert (∀ x, keeps J (when (bool_decide (status = "Finishing") || match cs_ended_at c with
      Some e => e <=? t | None => false end) (update_interval x (set_oi_confirmed true)))) as K5
      by (intros; apply keeps_when, K3).
    unfold mbind, M_bind. destruct (insert_interval (cs_id c) t db1) as [[e|i] db2]; [done|].
    apply K5. by apply K1.
  - destruct (cs_ended_at c); [by apply keeps_opens_flag|]. destruct (open_interval _); [|done].
    by apply keeps_bind; [apply K4|intros; apply K2|].
  - apply keeps_when; [apply keeps_opens_release|done].
  - destruct (open_interval _); [by apply keeps_opens_flag|done].
Qed.
End opens.

(** ** No notification is refused by the database *)

Lemma update_interval_runs i f db : interval_valid (f i) = true → ∃ db', update_interval i f db = (inr (), db').
Proof. intros H. unfold update_interval, mbind, M_bind. rewrite H. simpl. eauto. Qed.

Lemma insert_interval_runs k c t db :
  Forall (was_resumed c) (intervals_of k db) → ∃ i db', insert_interval k t db = (inr i, db') ∧ oi_ended_at i = None.
Proof.
  intros Hres. unfold insert_interval, mbind, M_bind, gets.
  destruct (first_where _ _) as [x|] eqn:E; [|simpl; eauto]. exfalso.
  apply first_where_Some in E as [Hx Ho%bool_decide_eq_true]. rewrite Forall_forall in Hres.
  destruct (Hres x Hx) as (_ & _ & e & ? & _). congruence.
Qed.

Lemma release_runs k c t src db :
  occupation_ok db → charging_sessions db !! k = Some c →
  ∃ db', release k t (last (intervals_of k db)) src db = (inr (), db').
Proof.
  intros Hok Hc. unfold release. rewrite (bind_ok_step _ _ _ _ _ (session_row_some k c db Hc)).
  destruct (cs_connector_released_at c) eqn:Hr; [by eexists|]. destruct (_ || _) eqn:Hbad; [by eexists|].
  rewrite (bind_ok_step _ _ _ () (release_session k t db)) by done.
  destruct (open_interval _) as [i|] eqn:Ho.
  - destruct (open_interval_Some _ _ _ (occupation_history _ Hok k c Hc) Ho) as [Hl _].
    apply orb_false_iff in Hbad as [_ Hi]. rewrite Hl in Hi. apply Z.ltb_ge in Hi.
    destruct (update_interval_runs i (released_row t) (release_session k t db)) as [db1 Hu].
    { unfold interval_valid. simpl. by apply Z.leb_le. }
    rewrite (bind_ok_step _ _ _ _ _ Hu). eexists. reflexivity.
  - rewrite (bind_ok_step _ _ _ () (release_session k t db)) by done. eexists. reflexivity.
Qed.

(** The open intervals of a connector start no later than [t]. *)
Definition open_before (connector t : Z) (db : Db) : Prop :=
  ∀ i c, i ∈ occupation_intervals db → oi_ended_at i = None →
    charging_sessions db !! oi_session_id i = Some c → cs_connector_id c = connector → oi_started_at i ≤ t.

Lemma note_on_session_runs c status t db :
  occupation_ok db → charging_sessions db !! cs_id c = Some c → cs_connector_released_at c = None →
  open_before (cs_connector_id c) t db → ∃ db', note_on_session c status t db = (inr (), db').
Proof.
  intros Hok Hc Hrel Hbefore. unfold note_on_session. set (k := cs_id c) in *.
  rewrite (bind_ok_step _ _ _ (last (intervals_of k db)) db) by (unfold gets; by rewrite current_interval_last).
  set (db1 := (add_event k "occupation_status" None [("status", JStr status); ("timestamp", JInt t)] db).2).
  rewrite (bind_ok_step _ _ _ (next_id db) db1) by done.
  pose proof (occupation_history _ Hok k c Hc) as Hh.
  case_decide; [|case_decide; [|case_decide]].
  - assert (∃ i db2, occupy k t (last (intervals_of k db)) db1 = (inr i, db2) ∧ oi_ended_at i = None)
      as (i & db2 & Hocc & Hi).
    { unfold occupy. destruct (open_interval _) as [i|] eqn:Ho.
      - destruct (open_interval_Some _ _ _ Hh Ho) as [_ [? _]]. eauto.
      - destruct (insert_interval_runs k c t db1) as (i & db2 & Hins & Hi); [by apply open_interval_None|].
        rewrite (bind_ok_step _ _ _ _ _ Hins). eexists i, _. split; [reflexivity|done]. }
    rewrite (bind_ok_step _ _ _ _ _ Hocc). unfold when. destruct (_ || _); [|by eexists].
    apply update_interval_runs. unfold interval_valid. simpl. by rewrite Hi.
  - destruct (cs_ended_at c); [by eexists|]. destruct (open_interval _) as [i|] eqn:Ho; [|by eexists].
    destruct (open_interval_Some _ _ _ Hh Ho) as [Hl [Hi _]].
    destruct (last_interval_in _ _ _ Hl) as [Hin Hk].
    destruct (update_interval_runs i (resumed_row t) db1) as [db2 Hu].
    { unfold interval_valid. simpl. apply Z.leb_le. apply (Hbefore i c); try done. by rewrite Hk. }
    rewrite (bind_ok_step _ _ _ _ _ Hu). by eexists.
  - unfold when. destruct (bool_decide _); [|by eexists].
    change (last (intervals_of k db)) with (last (intervals_of k db1)). apply (release_runs k c); [|done].
    apply (keeps_occupation_event k _ None _ db Hok).
  - destruct (open_interval _); by eexists.
Qed.

Lemma note_status_runs connector status stamp db :
  occupation_ok db → (∀ t, stamp = Some t → open_before connector t db) →
  ∃ db', note_status connector status stamp db = (inr (), db').
Proof.
  intros Hok Hb. unfold note_status. rewrite (bind_ok_step _ _ _ (latest_session connector db) db) by done.
  destruct (latest_session connector db) as [c|] eqn:Hl; [|by eexists].
  destruct (latest_session_row _ _ _ (occupation_keyed _ Hok) Hl) as [Hc Hcn].
  destruct (_ =? 0); [by eexists|]. rewrite (bind_ok_step _ _ _ (invoice_of_session (cs_id c) db) db) by done.
  destruct (invoice_of_session (cs_id c) db); [by eexists|]. destruct stamp as [t|]; [|by eexists].
  destruct (t <? cs_started_at c); [by eexists|]. destruct (cs_connector_released_at c) eqn:Hr.
  - unfold when. destruct (bool_decide _); by eexists.
  - apply note_on_session_runs; [done|done|done|]. rewrite Hcn. by apply Hb.
Qed.

(** The open intervals of a connector start no later than its last notification. *)
Definition stamped (db : Db) : Prop :=
  ∀ i c cn, i ∈ occupation_intervals db → oi_ended_at i = None →
    charging_sessions db !! oi_session_id i = Some c → connectors db !! cs_connector_id c = Some cn →
    ∃ t, cn_last_status_notification_at cn = Some t ∧ oi_started_at i ≤ t.

Definition connectors_keyed (db : Db) : Prop := ∀ k cn, connectors db !! k = Some cn → cn_id cn = k.

Record monitored (db : Db) : Prop := mkMonitored {
  monitored_occupation : occupation_ok db;
  monitored_stamped : stamped db;
  monitored_keyed : connectors_keyed db;
}.

Definition report_connector (p : StatusPayload) (now k : Z) (db : Db) : Db :=
  set_connectors (alter (reported p now) k (connectors db)) db.

Lemma report_connector_before p now cn db :
  monitored db → connectors db !! cn_id cn = Some cn → in_order p cn = true →
  ∀ t, sp_timestamp p = Some t → open_before (cn_id cn) t (report_connector p now (cn_id cn) db).
Proof.
  intros Hm Hcn Hord t Ht i c Hi Ho Hc Hk. simpl in *. rewrite <- Hk in Hcn.
  destruct (monitored_stamped _ Hm i c cn Hi Ho Hc Hcn) as (last & Hlast & Hle).
  unfold in_order in Hord. rewrite Ht, Hlast in Hord. apply Z.ltb_lt in Hord. lia.
Qed.

Lemma report_connector_ok p now k db : occupation_ok db → occupation_ok (report_connector p now k db).
Proof. intros [H1 H2 H3 H4]. by split. Qed.

Lemma noted_stamped p now cn db db2 :
  monitored db → connectors db !! cn_id cn = Some cn → in_order p cn = true →
  opens (cn_id cn) (sp_timestamp p) (report_connector p now (cn_id cn) db) db2 → stamped db2.
Proof.
  intros Hm Hcn Hord (Hcs & Hconn & Hopen) i c cn2 Hi Ho Hc Hcn2. rewrite Hcs in Hcn2. simpl in Hcn2, Hconn.
  pose proof (Hconn (oi_session_id i)) as Hk. rewrite Hc in Hk. simpl in Hk.
  destruct (charging_sessions db !! oi_session_id i) as [c0|] eqn:Hc0; [|done]. injection Hk as Hk.
  rewrite lookup_alter_Some in Hcn2. destruct (Hopen i Hi Ho) as [(i0 & Hi0 & Ho0 & Hsid & Hst)|[Ht Hcid]].
  - simpl in Hi0. rewrite <- Hst. rewrite <- Hsid in Hc0.
    destruct Hcn2 as [(Hkk & cn1 & Hcn1 & ->)|[_ Hcn2]].
    + destruct (monitored_stamped _ Hm i0 c0 cn1 Hi0 Ho0 Hc0) as (l & Hl & Hle); [by rewrite <- Hk|].
      rewrite <- Hkk, Hcn in Hcn1. injection Hcn1 as <-. unfold in_order in Hord. rewrite Hl in Hord. simpl.
      destruct (sp_timestamp p) as [t|]; [|eauto]. exists t. split; [done|]. lia.
    + apply (monitored_stamped _ Hm i0 c0 cn2); try done. by rewrite <- Hk.
  - rewrite Hc in Hcid. injection Hcid as Hcid. destruct Hcn2 as [(_ & cn1 & _ & ->)|[Hne _]]; [|congruence].
    simpl. rewrite Ht. eauto with lia.
Qed.

Lemma legacy_idle_fields k t s c :
  cs_id (legacy_idle k t s c) = cs_id c ∧ cs_started_at (legacy_idle k t s c) = cs_started_at c ∧
  cs_connector_released_at (legacy_idle k t s c) = cs_connector_released_at c ∧
  cs_connector_id (legacy_idle k t s c) = cs_connector_id c.
Proof. unfold legacy_idle. destruct (_ && _); [|done]. by destruct s, (cs_idle_since c). Qed.

Lemma legacy_idle_monitored k t s db :
  monitored db → monitored (set_charging_sessions (legacy_idle k t s <$> charging_sessions db) db).
Proof.
  intros [Hok Hst Hk]. split; [|intros i c cn Hi Ho Hc Hcn|done].
  - apply (evolve_ok db); [|done]. split; [done|]. split; [simpl; lia|]. split.
    + intros k' c'. simpl. rewrite lookup_fmap_Some. intros (c & <- & Hc).
      destruct (legacy_idle_fields k t s c) as (-> & _). by apply (occupation_keyed _ Hok).
    + intros k' c'. simpl. rewrite lookup_fmap_Some. intros (c & <- & ->).
      by destruct (legacy_idle_fields k t s c) as (_ & -> & -> & _).
  - simpl in *. apply lookup_fmap_Some in Hc as (c0 & <- & Hc). destruct (legacy_idle_fields k t s c0) as (_ & _ & _ & E).
    rewrite E in Hcn. by apply (Hst i c0 cn).
Qed.

Lemma note_monitored p now cn status db db2 :
  monitored db → connectors db !! cn_id cn = Some cn → in_order p cn = true →
  note_status (cn_id cn) status (sp_timestamp p) (report_connector p now (cn_id cn) db) = (inr (), db2) →
  monitored db2.
Proof.
  intros Hm Hcn Hord H. set (db1 := report_connector p now (cn_id cn) db) in *.
  assert (occupation_ok db1) as Hok1 by (apply report_connector_ok, Hm).
  assert (opens (cn_id cn) (sp_timestamp p) db1 db1) as HJ.
  { split; [done|]. split; [done|]. intros i Hi Ho. left. eauto 10. }
  pose proof (note_status_opens (cn_id cn) (sp_timestamp p) db1 status db1 (occupation_keyed _ Hok1) HJ) as HJ2.
  rewrite H in HJ2. simpl in HJ2. split.
  - by eapply keeps_run; [apply keeps_occupation_note_status| |exact H].
  - by eapply noted_stamped.
  - intros k x. destruct HJ2 as (-> & _). simpl. rewrite lookup_alter_Some.
    intros [(<- & y & Hy & ->)|[_ Hx]]; [simpl; by apply (monitored_keyed _ Hm)|by apply (monitored_keyed _ Hm)].
Qed.

Lemma find_connector_row charger n db cn :
  connectors_keyed db → find_connector charger n db = Some cn → connectors db !! cn_id cn = Some cn.
Proof. intros Hk (k & Hcn & _)%select_where_Some. by rewrite (Hk k cn Hcn). Qed.

Lemma note_status_connectors connector status stamp db r db' :
  keyed db → note_status connector status stamp db = (r, db') → connectors db' = connectors db.
Proof.
  intros Hk H. pose proof (note_status_opens connector stamp db status db Hk) as HJ. rewrite H in HJ.
  destruct HJ as (Hc & _); [|done]. split; [done|]. split; [done|]. intros i Hi Ho. left. eauto 10.
Qed.

Definition errors_logged (p : StatusPayload) (now k : Z) (db : Db) : Db :=
  if decide (sp_error_code p = "NoError") then db
  else set_connector_errors (connector_errors db ++
    [mkConnectorError k (sp_error_code p) (sp_vendor_error_code p) now (sp_info p)]) db.

Lemma report_status_taken charger p db cn :
  monitored db → sp_connector p ≠ 0 → find_connector charger (sp_connector p) db = Some cn → in_order p cn = true →
  ∃ db', report_status charger p db = (inr true, db') ∧ monitored db' ∧
    connectors db' = <[cn_id cn := reported p (db_now db) cn]> (connectors db).
Proof.
  intros Hm Hz Hf Hord. pose proof (find_connector_row _ _ _ _ (monitored_keyed _ Hm) Hf) as Hcn.
  set (db1 := report_connector p (db_now db) (cn_id cn) db).
  assert (occupation_ok db1) as Hok1 by (apply report_connector_ok, Hm).
  destruct (note_status_runs (cn_id cn) (status_str (sp_status p)) (sp_timestamp p) db1 Hok1) as [db2 Hn].
  { by apply report_connector_before. }
  pose proof (note_monitored _ _ _ _ _ _ Hm Hcn Hord Hn) as Hm2.
  pose proof (note_status_connectors _ _ _ _ _ _ (occupation_keyed _ Hok1) Hn) as Hc2.
  set (db3 := match sp_timestamp p with
    Some t => set_charging_sessions (legacy_idle (cn_id cn) t (sp_status p) <$> charging_sessions db2) db2
    | None => db2 end).
  assert (monitored db3) as Hm3 by (unfold db3; destruct (sp_timestamp p); [by apply legacy_idle_monitored|done]).
  exists (errors_logged p (db_now db) (cn_id cn) db3). split_and!.
  - unfold report_status. rewrite (bind_ok_step _ _ _ (db_now db) db) by done.
    destruct (Z.eqb_spec (sp_connector p) 0); [done|].
    rewrite (bind_ok_step _ _ _ (Some cn) db) by (unfold gets; by rewrite Hf). rewrite Hord. cbn [negb].
    rewrite (bind_ok_step _ _ _ () db1) by done. rewrite (bind_ok_step _ _ _ _ _ Hn).
    rewrite (bind_ok_step _ _ _ () db3) by (unfold db3; by destruct (sp_timestamp p)).
    unfold when, errors_logged. case_decide as Herr.
    + rewrite bool_decide_eq_true_2 by done. done.
    + rewrite bool_decide_eq_false_2 by done. done.
  - unfold errors_logged. case_decide; [done|]. destruct Hm3 as [[H1 H2 H3 H4] Hs Hk]. by split; [split| |].
  - assert (connectors (errors_logged p (db_now db) (cn_id cn) db3) = connectors db1) as ->.
    { rewrite <- Hc2. unfold errors_logged, db3. case_decide; by destruct (sp_timestamp p). }
    simpl. apply map_eq. intros k. destruct (decide (k = cn_id cn)) as [->|].
    + by rewrite lookup_alter_eq, lookup_insert_eq, Hcn.
    + by rewrite lookup_alter_ne, lookup_insert_ne.
Qed.

(** Status notifications are taken in source order and never fail: from a
    monitored state [report_status] always returns. It answers [true] exactly
    when the connector exists and the notification is newer than the last one
    it has a time for; then the connector shows the reported status and time
    and the occupation history stays sound, without any write being refused by
    a database constraint. Otherwise connectors, sessions and intervals are
    left alone. *)
Theorem report_status_in_order charger p db :
  monitored db →
  ∃ b db', report_status charger p db = (inr b, db') ∧ monitored db' ∧
    (if b then sp_connector p ≠ 0 ∧ ∃ cn, find_connector charger (sp_connector p) db = Some cn ∧
         in_order p cn = true ∧ connectors db' = <[cn_id cn := reported p (db_now db) cn]> (connectors db)
     else (sp_connector p = 0 ∨ ∀ cn, find_connector charger (sp_connector p) db = Some cn → in_order p cn = false) ∧
       connectors db' = connectors db ∧ charging_sessions db' = charging_sessions db ∧
       occupation_intervals db' = occupation_intervals db).
Proof.
  intros Hm. destruct (decide (sp_connector p = 0)) as [Hz|Hz].
  { eexists false, _. split.
    - unfold report_status. rewrite (bind_ok_step _ _ _ (db_now db) db) by done. rewrite Hz. reflexivity.
    - split; [|by split; [left|]]. destruct Hm as [[H1 H2 H3 H4] Hs Hk]. by split; [split| |]. }
  destruct (find_connector charger (sp_connector p) db) as [cn|] eqn:Hf.
  - destruct (in_order p cn) eqn:Hord.
    + destruct (report_status_taken charger p db cn Hm Hz Hf Hord) as (db' & Hr & Hm' & Hc).
      exists true, db'. split; [done|]. split; [done|]. split; [done|]. by exists cn.
    + exists false, db. split_and!; try done.
      * unfold report_status. rewrite (bind_ok_step _ _ _ (db_now db) db) by done.
        destruct (Z.eqb_spec (sp_connector p) 0); [done|].
        rewrite (bind_ok_step _ _ _ (Some cn) db) by (unfold gets; by rewrite Hf). by rewrite Hord.
      * right. by intros ? [= <-].
  - exists false, db. split_and!; try done; [|by right].
    unfold report_status. rewrite (bind_ok_step _ _ _ (db_now db) db) by done.
    destruct (Z.eqb_spec (sp_connector p) 0); [done|].
    by rewrite (bind_ok_step _ _ _ None db) by (unfold gets; by rewrite Hf).
Qed.

Lemma plugged_monitored : monitored plugged_db.
Proof.
  split; [exact plugged_ok| |].
  - intros i c cn Hi. by apply elem_of_nil in Hi.
  - intros k cn Hk. change (connectors plugged_db) with ({[ 41 := bill_connector ]} : gmap Z Connector) in Hk.
    by apply lookup_singleton_Some in Hk as [<- <-].
Qed.

Lemma report_status_in_order_witness :
  let p := mkStatusPayload 1 SuspendedEV "NoError" None None None (Some (hours 15)) in
  ∃ db', report_status 40 p plugged_db = (inr true, db') ∧ monitored db' ∧ (report_status 40 p db').1 = inr false.
Proof.
  intros p. destruct (report_status_in_order 40 p plugged_db plugged_monitored) as (b & db' & H & Hm & _).
  assert (b = true) as ->.
  { assert (inr b = (report_status 40 p plugged_db).1) as Hb by (by rewrite H). vm_compute in Hb. by injection Hb. }
  exists db'. split; [exact H|]. split; [exact Hm|].
  assert (db' = (report_status 40 p plugged_db).2) as -> by (by rewrite H). vm_compute. reflexivity.
Defined.
