(* ===== verification/MeterUnits.v ===== *)
(** * MeterUnits: reading the decimal values chargers send

    Models [src/src/modules/charging/meter_units.py]. [Decimal(text)] is the
    documented grammar of Python's [decimal] module on the texts of [Text]; the
    product is rounded to the 28 digits of the default context and the result is
    quantized to six decimals, both half to even. A value is an integer of
    millionths, as in a [Numeric(24, 6)] column. *)

From S2P Require Import Prelude Text Store.
From Stdlib Require Import Ascii.

(** [SamplePayload], less its unused [context]. *)
Record SamplePayload := mkSampled {
  sv_value : string; sv_measurand : string; sv_unit : option string;
  sv_phase : string; sv_location : string; sv_format : string
}.

Definition energy_register : string := "Energy.Active.Import.Register".

(** ** Decimal texts *)

Definition digit_value (c : ascii) : option Z :=
  let n := code c in if (48 <=? n) && (n <=? 57) then Some (n - 48) else None.

(** The longest prefix of digits, and what follows it. *)
Fixpoint span_digits (l : list ascii) : list Z * list ascii :=
  match l with
  | [] => ([], [])
  | c :: l' =>
      match digit_value c with
      | Some d => let '(ds, rest) := span_digits l' in (d :: ds, rest)
      | None => ([], l)
      end
  end.

Definition number (ds : list Z) : Z := foldl (λ acc d, 10 * acc + d) 0 ds.

Definition take_sign (l : list ascii) : bool * list ascii :=
  match l with
  | "-"%char :: l' => (true, l')
  | "+"%char :: l' => (false, l')
  | _ => (false, l)
  end.

Definition take_fraction (l : list ascii) : list Z * list ascii :=
  match l with
  | "."%char :: l' => span_digits l'
  | _ => ([], l)
  end.

(** [E[sign]digits] up to the end of the text, or nothing. *)
Definition read_exponent (l : list ascii) : option Z :=
  match l with
  | [] => Some 0
  | ("e" | "E")%char :: l' =>
      let '(neg, l'') := take_sign l' in
      match span_digits l'' with
      | (d :: ds, []) => Some (if neg then - number (d :: ds) else number (d :: ds))
      | _ => None
      end
  | _ => None
  end.

(** The number of decimal digits of a coefficient. *)
Fixpoint count_digits (fuel : nat) (c : Z) : Z :=
  match fuel with
  | O => 1
  | S fuel' => if c <? 10 then 1 else 1 + count_digits fuel' (c / 10)
  end.

Definition ndigits (c : Z) : Z := count_digits (Z.to_nat (Z.log2 c)) c.

(** A finite decimal: sign, coefficient, exponent. *)
Record Finite := mkFinite { d_negative : bool; d_coef : Z; d_exp : Z }.

Definition MAX_EMAX : Z := 999999999999999999.
Definition MIN_ETINY : Z := -1999999999999999997.

(** [Decimal(text)] when that is a finite number. Infinities, NaNs and texts
    that are no number or do not fit the largest context exactly are [None]:
    [is_finite] and [except InvalidOperation] treat them alike. *)
Definition decimal_of (text : string) : option Finite :=
  let l := filter (λ c, c ≠ "_"%char) (chars (strip text)) in
  let '(neg, l) := take_sign l in
  let '(whole, l) := span_digits l in
  let '(frac, l) := take_fraction l in
  e ← read_exponent l;
  let c := number (whole ++ frac) in
  let x := e - Z.of_nat (length frac) in
  if negb (bool_decide (whole ++ frac = [])) && (x + ndigits c - 1 <=? MAX_EMAX) && (MIN_ETINY <=? x)
  then Some (mkFinite neg c x) else None.

(** ** Arithmetic in the default context *)

Definition half_even_div (c d : Z) : Z :=
  let q := c / d in
  let r := c mod d in
  if 2 * r <? d then q else if d <? 2 * r then q + 1 else if Z.even q then q else q + 1.

(** Rounding to 28 digits; a carry to 29 digits moves the exponent. *)
Definition round28 (c x : Z) : Z * Z :=
  let k := ndigits c - 28 in
  if k <=? 0 then (c, x)
  else
    let q := half_even_div c (10 ^ k) in
    if q =? 10 ^ 28 then (10 ^ 27, x + k + 1) else (q, x + k).

(** [value.quantize(Decimal("0.000001"))] of a value below [10 ^ 18], as an
    integer of millionths; a value below a tenth of a millionth is zero. *)
Definition quantize6 (c x : Z) : Z :=
  if 0 <=? x + 6 then c * 10 ^ (x + 6)
  else if ndigits c <? - (x + 6) then 0 else half_even_div c (10 ^ (- (x + 6))).

(** ** Samples *)

Definition UNITS (measurand : string) : option (string * list (string * Z)) :=
  if decide (measurand = energy_register) then Some ("Wh", [("Wh", 1); ("kWh", 1000)])
  else if decide (measurand = "Power.Active.Import") then Some ("W", [("W", 1); ("kW", 1000)])
  else if decide (measurand = "Power.Offered") then Some ("W", [("W", 1); ("kW", 1000)])
  else if decide (measurand = "Current.Import") then Some ("A", [("A", 1)])
  else if decide (measurand = "Voltage") then Some ("V", [("V", 1)])
  else if decide (measurand = "SoC") then Some ("Percent", [("Percent", 1)])
  else if decide (measurand = "Frequency") then Some ("Hertz", [("Hertz", 1)])
  else if decide (measurand = "Temperature") then Some ("Celsius", [("Celsius", 1); ("Celcius", 1)])
  else None.

Definition conversion (unit : string) (conversions : list (string * Z)) : option Z :=
  snd <$> head (filter (λ p, p.1 = unit) conversions).

(** [Decimal(value) * factor], the bound and the quantization. A product with an
    adjusted exponent above [999999] raises [decimal.Overflow]; the adjusted
    exponent is at least 18 exactly for values from [10 ^ 18]. *)
Definition scaled (d : Finite) (factor : Z) : Exn + option Z :=
  let '(c, x) := round28 (d_coef d * factor) (d_exp d) in
  if c =? 0 then inr (Some 0)
  else if 999999 <? x + ndigits c - 1 then inl DecimalOverflow
  else if 18 <=? x + ndigits c - 1 then inr None
  else inr (Some (if d_negative d then - quantize6 c x else quantize6 c x)).

Definition numeric_sample (sample : SamplePayload) : Exn + option (Z * string) :=
  match UNITS (sv_measurand sample) with
  | None => inr None
  | Some (unit, conversions) =>
      if negb (bool_decide (sv_format sample = "Raw")) then inr None
      else
        let named := match sv_unit sample with Some u => if decide (u = "") then unit else u | None => unit end in
        match conversion named conversions, decimal_of (sv_value sample) with
        | None, _ | _, None => inr None
        | Some factor, Some d =>
            match scaled d factor with
            | inl e => inl e
            | inr v => inr (option_map (λ v, (v, unit)) v)
            end
        end
  end.

Definition reading_of (value : string) (unit : option string) : SamplePayload :=
  mkSampled value energy_register unit "" "Outlet" "Raw".

Example sample_ex1 : numeric_sample (reading_of " 1_500.5 " None) = inr (Some (1500500000, "Wh")).
Proof. reflexivity. Qed.
Example sample_ex2 : numeric_sample (reading_of "-1.5e0" (Some "kWh")) = inr (Some (-1500000000, "Wh")).
Proof. reflexivity. Qed.
Example sample_ex3 : numeric_sample (reading_of "0.0000025" (Some "Wh")) = inr (Some (2, "Wh")).
Proof. reflexivity. Qed.
Example sample_ex4 : numeric_sample (reading_of "1." None) = inr (Some (1000000, "Wh")).
Proof. reflexivity. Qed.
Example sample_ex5 : map (λ s, numeric_sample (reading_of s None)) ["."; "abc"; "nan"; "inf"; "1e"; ""; "1e18"; "1 2"] =
  replicate 8 (inr None).
Proof. reflexivity. Qed.
Example sample_ex6 : numeric_sample (reading_of "1e-1000000000" None) = inr (Some (0, "Wh")).
Proof. reflexivity. Qed.

(** A text the code does not survive: the exception is none of those its
    callers handle. *)
Lemma numeric_sample_overflows : numeric_sample (reading_of "1e1000000" None) = inl DecimalOverflow.
Proof. reflexivity. Qed.

(** A value that passes the bound before rounding and reaches [10 ^ 18] by it,
    one more than a [Numeric(24, 6)] column holds. *)
Lemma numeric_sample_rounds_up :
  numeric_sample (reading_of "999999999999999999.9999999" None) = inr (Some (10 ^ 24, "Wh")).
Proof. reflexivity. Qed.

(** ** Facts *)

Lemma count_digits_spec fuel c :
  0 < c < 2 ^ (Z.of_nat fuel + 1) →
  let n := count_digits fuel c in 1 ≤ n ∧ 10 ^ (n - 1) ≤ c < 10 ^ n.
Proof.
  revert c. induction fuel as [|fuel IH]; intros c Hc; simpl in *.
  { replace c with 1 by lia. lia. }
  destruct (Z.ltb_spec c 10); simpl; [lia|].
  assert (0 < c / 10 < 2 ^ (Z.of_nat fuel + 1)) as Hd.
  { split; [apply Z.div_str_pos; lia|]. apply Z.div_lt_upper_bound; [lia|].
    replace (Z.of_nat (S fuel) + 1) with (Z.succ (Z.of_nat fuel + 1)) in Hc by lia.
    rewrite Z.pow_succ_r in Hc by lia. lia. }
  destruct (IH _ Hd) as (H1 & H2 & H3). set (n := count_digits fuel (c / 10)) in *.
  pose proof (Z.div_mod c 10 ltac:(lia)). pose proof (Z.mod_pos_bound c 10 ltac:(lia)).
  replace (1 + n - 1) with (Z.succ (n - 1)) by lia. replace (1 + n) with (Z.succ n) by lia.
  rewrite !Z.pow_succ_r by lia. lia.
Qed.

Lemma ndigits_spec c : 0 < c → 1 ≤ ndigits c ∧ 10 ^ (ndigits c - 1) ≤ c < 10 ^ ndigits c.
Proof.
  intros Hc. apply count_digits_spec. pose proof (Z.log2_spec c Hc). pose proof (Z.log2_nonneg c).
  rewrite Z2Nat.id by lia. replace (Z.log2 c + 1) with (Z.succ (Z.log2 c)) by lia. lia.
Qed.

Lemma ndigits_le c n : 0 < c < 10 ^ n → ndigits c ≤ n.
Proof.
  intros [Hc Hn]. destruct (ndigits_spec c Hc) as (H1 & H2 & _).
  destruct (Z.le_gt_cases (ndigits c) n); [done|].
  destruct (Z.le_gt_cases 0 n); [|rewrite Z.pow_neg_r in Hn by lia; lia].
  pose proof (Z.pow_le_mono_r 10 n (ndigits c - 1) ltac:(lia) ltac:(lia)). lia.
Qed.

Lemma half_even_div_bounds c d k : 0 < d → 0 ≤ c ≤ k * d → 0 ≤ half_even_div c d ≤ k.
Proof.
  intros Hd [Hc Hk]. pose proof (Z.div_mod c d ltac:(lia)). pose proof (Z.mod_pos_bound c d Hd).
  pose proof (Z.div_pos c d Hc Hd). unfold half_even_div.
  destruct (Z.ltb_spec (2 * (c mod d)) d); [nia|].
  assert (c / d + 1 ≤ k) by nia. by destruct (d <? 2 * (c mod d)), (Z.even (c / d)); lia.
Qed.

Lemma round28_pos c x : 0 < c → 0 < (round28 c x).1.
Proof.
  intros Hc. unfold round28. destruct (Z.leb_spec (ndigits c - 28) 0); [done|].
  destruct (ndigits_spec c Hc) as (_ & H1 & _). set (k := ndigits c - 28) in *.
  assert (0 < half_even_div c (10 ^ k)); [|by destruct (_ =? _); simpl; lia].
  assert (10 ^ 27 * 10 ^ k ≤ c) as H2 by (rewrite <- Z.pow_add_r by lia; by replace (27 + k) with (ndigits c - 1) by lia).
  pose proof (Z.pow_pos_nonneg 10 k ltac:(lia) ltac:(lia)).
  assert (10 ^ 27 ≤ c / 10 ^ k) by (apply Z.div_le_lower_bound; lia).
  unfold half_even_div. repeat case_match; lia.
Qed.

Lemma quantize6_bounds c x : 0 < c → x + ndigits c ≤ 18 → 0 ≤ quantize6 c x ≤ 10 ^ 24.
Proof.
  intros Hc Hx. destruct (ndigits_spec c Hc) as (Hn & _ & Hlt). unfold quantize6.
  destruct (Z.leb_spec 0 (x + 6)).
  - pose proof (Z.pow_pos_nonneg 10 (x + 6) ltac:(lia) ltac:(lia)). split; [nia|].
    transitivity (10 ^ ndigits c * 10 ^ (x + 6)); [nia|]. rewrite <- Z.pow_add_r by lia.
    apply Z.pow_le_mono_r; lia.
  - destruct (Z.ltb_spec (ndigits c) (- (x + 6))); [lia|].
    apply half_even_div_bounds; [apply Z.pow_pos_nonneg; lia|]. split; [lia|].
    rewrite <- Z.pow_add_r by lia. transitivity (10 ^ ndigits c); [lia|]. apply Z.pow_le_mono_r; lia.
Qed.

Lemma number_nonneg ds : Forall (λ d, 0 ≤ d) ds → 0 ≤ number ds.
Proof.
  unfold number. assert (∀ a, 0 ≤ a → Forall (λ d, 0 ≤ d) ds → 0 ≤ foldl (λ acc d, 10 * acc + d) a ds) as H.
  { induction ds as [|d ds IH]; intros a Ha; [done|]. intros [? ?]%Forall_cons. simpl. apply IH; [lia|done]. }
  by apply H.
Qed.

Lemma digit_value_range c d : digit_value c = Some d → 0 ≤ d ≤ 9.
Proof. unfold digit_value. intros H. case_match; [|done]. injection H as <-. lia. Qed.

Lemma span_digits_range l : Forall (λ d, 0 ≤ d ≤ 9) (span_digits l).1.
Proof.
  induction l as [|c l IH]; [constructor|]. simpl. destruct (digit_value c) eqn:E; [|constructor].
  destruct (span_digits l). constructor; [by eapply digit_value_range|done].
Qed.

Lemma decimal_of_nonneg s d : decimal_of s = Some d → 0 ≤ d_coef d.
Proof.
  unfold decimal_of. destruct (take_sign _) as [neg l]. pose proof (span_digits_range l) as H1.
  destruct (span_digits l) as [w l']. assert (Forall (λ d, 0 ≤ d ≤ 9) (take_fraction l').1) as H2.
  { unfold take_fraction. repeat case_match; try constructor. apply span_digits_range. }
  destruct (take_fraction l') as [f l'']. destruct (read_exponent l''); [|done]. simpl in *.
  destruct (_ && _); [|done]. intros [= <-]. apply number_nonneg, Forall_app.
  split; (eapply Forall_impl; [eassumption|]); simpl; lia.
Qed.

(** The factors of the table are one and a thousand. *)
Lemma UNITS_factor m unit conv u f : UNITS m = Some (unit, conv) → conversion u conv = Some f → f = 1 ∨ f = 1000.
Proof.
  unfold UNITS. intros H.
  repeat (case_decide; [injection H as <- <-; unfold conversion; rewrite ?filter_cons; repeat case_decide;
                        simpl; naive_solver|]). done.
Qed.

Lemma scaled_bound d f v : 0 ≤ d_coef d → 0 < f → scaled d f = inr (Some v) → - 10 ^ 24 ≤ v ≤ 10 ^ 24.
Proof.
  unfold scaled. intros Hd Hf. destruct (Z.eq_dec (d_coef d) 0) as [E|].
  { rewrite E. simpl. intros [= <-]. lia. }
  pose proof (round28_pos (d_coef d * f) (d_exp d) ltac:(nia)) as Hc.
  destruct (round28 _ _) as [c x]. simpl in Hc.
  destruct (Z.eqb_spec c 0); [lia|]. destruct (_ <? _); [done|].
  destruct (Z.leb_spec 18 (x + ndigits c - 1)); [done|]. intros [= <-].
  pose proof (quantize6_bounds c x Hc ltac:(lia)). destruct (d_negative d); lia.
Qed.

(** What a sample is stored as: the unit of its measurand and a value of at
    most [10 ^ 18]. *)
Lemma numeric_sample_ok s v u :
  numeric_sample s = inr (Some (v, u)) →
  (∃ conv, UNITS (sv_measurand s) = Some (u, conv)) ∧ - 10 ^ 24 ≤ v ≤ 10 ^ 24.
Proof.
  unfold numeric_sample. destruct (UNITS (sv_measurand s)) as [[unit conv]|] eqn:EU; [|done].
  destruct (negb _); [done|].
  destruct (conversion _ _) as [f|] eqn:EC; [|done]. destruct (decimal_of _) as [d|] eqn:ED; [|done].
  destruct (scaled d f) as [|[w|]] eqn:ES; try done. simpl. intros [= -> ->]. split; [by eexists|].
  apply (scaled_bound d f); [by eapply decimal_of_nonneg| |done].
  destruct (UNITS_factor _ _ _ _ _ EU EC); lia.
Qed.

(** ** Exactness *)

Definition digit_char (d : Z) : ascii := chr (48 + d).
Definition is_digit (d : Z) : Prop := 0 ≤ d ≤ 9.

(** A plain decimal text: sign, digits, point, digits. *)
Definition plain_text (neg : bool) (whole frac : list Z) : string :=
  of_chars ((if neg then ["-"%char] else []) ++ map digit_char whole ++ "."%char :: map digit_char frac).

Lemma digit_char_cases d : is_digit d → d ∈ [0; 1; 2; 3; 4; 5; 6; 7; 8; 9].
Proof. unfold is_digit. intros H. assert (∃ n : nat, d = Z.of_nat n ∧ (n < 10)%nat) as (n & -> & Hn)
         by (exists (Z.to_nat d); lia).
  do 10 (destruct n as [|n]; [set_solver|]). lia.
Qed.

Ltac each_digit H := apply digit_char_cases in H; repeat (apply elem_of_cons in H as [->|H]; [try done|]); by apply elem_of_nil in H.

Lemma digit_char_value d : is_digit d → digit_value (digit_char d) = Some d.
Proof. intros H. each_digit H. Qed.
Lemma digit_char_plain d : is_digit d →
  is_space (digit_char d) = false ∧ digit_char d ≠ "_"%char ∧ digit_char d ≠ "-"%char ∧ digit_char d ≠ "+"%char.
Proof. intros H. each_digit H. Qed.

Lemma span_digits_chars ds rest :
  Forall is_digit ds → match rest with c :: _ => digit_value c = None | [] => True end →
  span_digits (map digit_char ds ++ rest) = (ds, rest).
Proof.
  intros Hds Hr. induction Hds as [|d ds Hd Hds IH]; simpl.
  - destruct rest as [|c rest]; [done|]. simpl. by rewrite Hr.
  - by rewrite digit_char_value, IH.
Qed.

Lemma plain_text_chars neg whole frac :
  Forall is_digit whole → Forall is_digit frac →
  Forall (λ c, is_space c = false ∧ c ≠ "_"%char) (chars (plain_text neg whole frac)).
Proof.
  intros Hw Hf. assert (∀ ds, Forall is_digit ds →
    Forall (λ c, is_space c = false ∧ c ≠ "_"%char) (map digit_char ds)) as Hds.
  { induction 1 as [|d ds Hd _ IH]; constructor; [|done]. by destruct (digit_char_plain d Hd) as (? & ? & _). }
  unfold plain_text. rewrite chars_of_chars. apply Forall_app. split; [destruct neg; repeat constructor; done|].
  apply Forall_app. split; [by apply Hds|]. constructor; [done|by apply Hds].
Qed.

Lemma number_app a b : number (a ++ b) = number a * 10 ^ Z.of_nat (length b) + number b.
Proof.
  unfold number. rewrite foldl_app. generalize (foldl (λ acc d, 10 * acc + d) 0 a). intros x.
  assert (∀ l y, foldl (λ acc d, 10 * acc + d) y l = y * 10 ^ Z.of_nat (length l) + foldl (λ acc d, 10 * acc + d) 0 l)
    as H; [|apply H].
  induction l as [|d l IH]; intros y; [simpl; lia|]. cbn [foldl length]. rewrite IH, (IH (10 * 0 + d)).
  rewrite Nat2Z.inj_succ, Z.pow_succ_r by lia. ring.
Qed.

Lemma number_bound ds : Forall is_digit ds → 0 ≤ number ds < 10 ^ Z.of_nat (length ds).
Proof.
  induction ds as [|d ds IH] using rev_ind; [by intros _|].
  intros [Hds Hd]%Forall_app. specialize (IH Hds). apply Forall_cons in Hd as [Hd _]. unfold is_digit in Hd.
  rewrite number_app, length_app, Nat2Z.inj_add, Z.pow_add_r by lia. change (number [d]) with d.
  change (Z.of_nat (length [d])) with 1. rewrite Z.pow_1_r. lia.
Qed.

Lemma decimal_of_plain neg whole frac :
  whole ≠ [] → Forall is_digit whole → Forall is_digit frac → (length frac ≤ 6)%nat → number whole < 10 ^ 18 →
  decimal_of (plain_text neg whole frac) = Some (mkFinite neg (number (whole ++ frac)) (- Z.of_nat (length frac))).
Proof.
  intros Hne Hw Hf Hlen Hmax. unfold decimal_of.
  pose proof (plain_text_chars neg whole frac Hw Hf) as Hc.
  rewrite strip_no_space by (eapply Forall_impl; [exact Hc|by intros ? [? ?]]).
  rewrite list_filter_all by (rewrite Forall_forall in Hc; intros c H; by apply Hc).
  unfold plain_text. rewrite chars_of_chars.
  assert (take_sign ((if neg then ["-"%char] else []) ++ map digit_char whole ++ "."%char :: map digit_char frac)
    = (neg, map digit_char whole ++ "."%char :: map digit_char frac)) as ->.
  { destruct neg; [done|]. destruct whole as [|d whole]; [done|]. apply Forall_cons in Hw as [Hd _].
    simpl. each_digit Hd. }
  rewrite span_digits_chars by done. cbn [take_fraction].
  rewrite <- (app_nil_r (map digit_char frac)), span_digits_chars by done. cbn [read_exponent mbind option_bind].
  assert (Forall is_digit (whole ++ frac)) as Hall by (by apply Forall_app).
  pose proof (number_bound (whole ++ frac) Hall) as Hb.
  assert (ndigits (number (whole ++ frac)) ≤ 24) as Hn.
  { destruct (Z.eq_dec (number (whole ++ frac)) 0) as [->|]; [done|]. apply ndigits_le. split; [lia|].
    rewrite number_app. pose proof (number_bound frac Hf).
    pose proof (Z.pow_le_mono_r 10 (Z.of_nat (length frac)) 6 ltac:(lia) ltac:(lia)).
    pose proof (Z.pow_pos_nonneg 10 (Z.of_nat (length frac)) ltac:(lia) ltac:(lia)).
    pose proof (number_bound whole Hw). set (P := 10 ^ Z.of_nat (length frac)) in *.
    assert (number whole * P ≤ (10 ^ 18 - 1) * P) by (apply Z.mul_le_mono_nonneg_r; lia). lia. }
  destruct (bool_decide_reflect (whole ++ frac = [])) as [E|_]; [by apply app_eq_nil in E as [-> _]|].
  unfold MAX_EMAX, MIN_ETINY. destruct (Z.leb_spec (0 - Z.of_nat (length frac) + ndigits (number (whole ++ frac)) - 1)
    999999999999999999); [|lia].
  destruct (Z.leb_spec (-1999999999999999997) (0 - Z.of_nat (length frac))); [|lia].
  simpl. by destruct frac.
Qed.

(** Below the 28 digits of the context nothing is rounded. *)
Lemma scaled_exact neg whole frac f :
  Forall is_digit whole → Forall is_digit frac → (length frac ≤ 6)%nat → f = 1 ∨ f = 1000 → number whole * f < 10 ^ 18 →
  scaled (mkFinite neg (number (whole ++ frac)) (- Z.of_nat (length frac))) f =
  inr (Some ((if neg then -1 else 1) * f * number (whole ++ frac) * 10 ^ (6 - Z.of_nat (length frac)))).
Proof.
  intros Hw Hf Hlen Hfac Hmax. assert (Forall is_digit (whole ++ frac)) as Hall by (by apply Forall_app).
  pose proof (number_bound _ Hall) as [Hc _]. unfold scaled. cbn [d_coef d_exp d_negative].
  destruct (Z.eq_dec (number (whole ++ frac)) 0) as [->|Hnz].
  { rewrite Z.mul_0_r. done. }
  set (c := number (whole ++ frac) * f). set (k := Z.of_nat (length frac)) in *.
  assert (0 < c) by (unfold c; destruct Hfac as [->| ->]; lia).
  assert (c < 10 ^ (18 + k)) as Hlt.
  { unfold c. rewrite number_app. fold k. pose proof (number_bound frac Hf) as Hbf. fold k in Hbf.
    pose proof (number_bound whole Hw). rewrite Z.pow_add_r by lia.
    pose proof (Z.pow_pos_nonneg 10 k ltac:(lia) ltac:(lia)). set (P := 10 ^ k) in *. clearbody P.
    assert (∃ q, q * f = 10 ^ 18 ∧ number whole + 1 ≤ q) as (q & Hq & Hle).
    { destruct Hfac as [-> | ->]; [exists (10 ^ 18)|exists (10 ^ 15)]; split; try done; lia. }
    assert ((number whole + 1) * P ≤ q * P) by (apply Z.mul_le_mono_nonneg_r; lia).
    rewrite <- Hq. destruct Hfac as [-> | ->]; lia. }
  pose proof (ndigits_le c (18 + k) ltac:(lia)) as Hn.
  unfold round28. destruct (Z.leb_spec (ndigits c - 28) 0); [|lia].
  destruct (Z.eqb_spec c 0); [lia|]. destruct (Z.ltb_spec 999999 (- k + ndigits c - 1)); [lia|].
  destruct (Z.leb_spec 18 (- k + ndigits c - 1)); [lia|].
  unfold quantize6. destruct (Z.leb_spec 0 (- k + 6)); [|lia].
  replace (- k + 6) with (6 - k) by lia. do 2 f_equal. unfold c. destruct neg; ring.
Qed.

(** Readings are taken exactly: a plain decimal text of at most six decimals
    in Wh or kWh whose value in watt-hours is below [10 ^ 18] is stored as that
    very number of millionths, with its sign; nothing is rounded. *)
Theorem numeric_sample_exact neg whole frac unit f :
  whole ≠ [] → Forall is_digit whole → Forall is_digit frac → (length frac ≤ 6)%nat →
  (unit = "Wh" ∧ f = 1 ∨ unit = "kWh" ∧ f = 1000) → number whole * f < 10 ^ 18 →
  numeric_sample (reading_of (plain_text neg whole frac) (Some unit)) =
  inr (Some ((if neg then -1 else 1) * f * number (whole ++ frac) * 10 ^ (6 - Z.of_nat (length frac)), "Wh")).
Proof.
  intros Hne Hw Hf Hlen Hunit Hmax. pose proof (number_bound whole Hw) as Hbw.
  assert (f = 1 ∨ f = 1000) as Hfac by naive_solver.
  unfold numeric_sample. cbn [reading_of sv_measurand sv_format sv_unit sv_value].
  change (UNITS energy_register) with (Some ("Wh", [("Wh", 1); ("kWh", 1000)])). cbn match.
  rewrite bool_decide_eq_true_2 by done. cbn [negb]. rewrite decimal_of_plain by (try done; destruct Hfac as [-> | ->]; lia).
  assert (conversion (if decide (unit = "") then "Wh" else unit) [("Wh", 1); ("kWh", 1000)] = Some f) as ->
    by (by destruct Hunit as [[-> ->]|[-> ->]]).
  enough (scaled (mkFinite neg (number (whole ++ frac)) (- Z.of_nat (length frac))) f =
    inr (Some ((if neg then -1 else 1) * f * number (whole ++ frac) * 10 ^ (6 - Z.of_nat (length frac))))) as -> by done.
  by apply scaled_exact.
Qed.

Lemma numeric_sample_exact_witness :
  numeric_sample (reading_of (plain_text true [1; 2] [5; 0]) (Some "kWh")) = inr (Some (-12500000000, "Wh")).
Proof.
  change (-12500000000) with ((if true then -1 else 1) * 1000 * number ([1; 2] ++ [5; 0]) * 10 ^ (6 - Z.of_nat 2)).
  apply (numeric_sample_exact true [1; 2] [5; 0] "kWh" 1000); [done| | |simpl; lia|by right|by vm_compute];
    repeat first [apply Forall_cons; split; [by unfold is_digit|]|apply Forall_nil; exact I].
Defined.
