(* ===== verification/JsonText.v ===== *)
(** * JsonText: the JSON texts Python reads and writes

    [json.loads] with [parse_constant] refusing, and [json.dumps] with
    [separators=(",", ":"), ensure_ascii=False, allow_nan=False], as
    [src/src/modules/ocpp/frames.py] calls them. A text is its UTF-8 bytes; an
    escaped lone surrogate becomes the three bytes of its code. A whole number is
    an integer, any other the double nearest to it. How deeply the interpreter
    lets values nest, and how it writes a float, are parameters. *)

From Stdlib Require Import Ascii.
From S2P Require Import Prelude Clock Text Store MeterUnits.

(** ** Reading *)

Definition json_space (c : ascii) : bool := bool_decide (code c ∈ [32; 9; 10; 13]).

Fixpoint skip (l : list ascii) : list ascii :=
  match l with
  | c :: r => if json_space c then skip r else l
  | [] => []
  end.

(** The UTF-8 bytes of a code point. *)
Definition utf8 (n : Z) : list ascii :=
  if n <? 128 then [chr n]
  else if n <? 2048 then [chr (192 + n / 64); chr (128 + n mod 64)]
  else if n <? 65536 then [chr (224 + n / 4096); chr (128 + n / 64 mod 64); chr (128 + n mod 64)]
  else [chr (240 + n / 262144); chr (128 + n / 4096 mod 64); chr (128 + n / 64 mod 64); chr (128 + n mod 64)].

(** A hexadecimal digit of either case. *)
Definition hex_any (c : ascii) : option Z :=
  if (65 <=? code c) && (code c <=? 70) then Some (code c - 55) else hex_value c.

Definition hex4 (l : list ascii) : option (Z * list ascii) :=
  match l with
  | a :: b :: c :: d :: r =>
      a' ← hex_any a; b' ← hex_any b; c' ← hex_any c; d' ← hex_any d;
      Some (((a' * 16 + b') * 16 + c') * 16 + d', r)
  | _ => None
  end.

Definition dquote : ascii := chr 34.
Definition backslash : ascii := chr 92.

(** The character a one-letter escape stands for. *)
Definition escape (c : ascii) : option Z :=
  match code c with
  | 34 => Some 34 | 92 => Some 92 | 47 => Some 47 | 98 => Some 8 | 102 => Some 12 | 110 => Some 10 | 114 => Some 13 | 116 => Some 9
  | _ => None
  end.

(** After [\u]: a code, or the character of a surrogate pair. *)
Definition unicode_escape (l : list ascii) : option (Z * list ascii) :=
  p ← hex4 l;
  let '(hi, r) := p in
  if (55296 <=? hi) && (hi <=? 56319) then
    match r with
    | b :: u :: r' =>
        if bool_decide (b = backslash) && (code u =? 117) then
          q ← hex4 r';
          let '(lo, r2) := q in
          if (56320 <=? lo) && (lo <=? 57343) then Some (65536 + (hi - 55296) * 1024 + (lo - 56320), r2) else Some (hi, r)
        else Some (hi, r)
    | _ => Some (hi, r)
    end
  else Some (hi, r).

(** After the opening quote; each round reads at least one byte. *)
Fixpoint read_string (fuel : nat) (l : list ascii) : option (list ascii * list ascii) :=
  match fuel with
  | O => None
  | S fuel' =>
      match l with
      | [] => None
      | c :: r =>
          if bool_decide (c = dquote) then Some ([], r)
          else if bool_decide (c = backslash) then
            p ← match r with
                | [] => None
                | e :: r' => if code e =? 117 then unicode_escape r' else n ← escape e; Some (n, r')
                end;
            q ← read_string fuel' p.2;
            Some (utf8 p.1 ++ q.1, q.2)
          else if code c <? 32 then None
          else q ← read_string fuel' r; Some (c :: q.1, q.2)
      end
  end.

Definition string_token (l : list ascii) : option (string * list ascii) :=
  q ← read_string (S (length l)) l; Some (of_chars q.1, q.2).

(** *** Numbers *)

(** The double nearest to [num / den], ties to even; too large is infinite. *)
Definition nearest_double (num den : Z) : option (Z * Z) :=
  let l := Z.log2 num - Z.log2 den in
  let b := if den * 2 ^ Z.max 0 l <=? num * 2 ^ Z.max 0 (- l) then l else l - 1 in
  let e := Z.max (-1074) (b - 52) in
  let q := half_even_div (num * 2 ^ Z.max 0 (- e)) (den * 2 ^ Z.max 0 e) in
  if 2 ^ 1024 <=? q * 2 ^ Z.max 0 e then None else Some (q, e).

(** [float] of the digits [m] with exponent [k]; far outside the range the
    powers are not computed. *)
Definition float_of (neg : bool) (m k : Z) : Json :=
  if m =? 0 then JFloat 0 0
  else if 400 <? ndigits m + k then JOther
  else if ndigits m + k <? -400 then JFloat 0 0
  else match nearest_double (m * 10 ^ Z.max 0 k) (10 ^ Z.max 0 (- k)) with
       | Some (q, e) => JFloat (if neg then - q else q) e
       | None => JOther
       end.

Definition take_minus (l : list ascii) : bool * list ascii :=
  match l with
  | "-"%char :: r => (true, r)
  | _ => (false, l)
  end.

(** A fraction needs a digit; without one it is not part of the number. *)
Definition json_fraction (l : list ascii) : list Z * list ascii :=
  match l with
  | "."%char :: r => match span_digits r with ([], _) => ([], l) | p => p end
  | _ => ([], l)
  end.

Definition json_exponent (l : list ascii) : option Z * list ascii :=
  match l with
  | ("e" | "E")%char :: r =>
      let '(neg, r') := take_sign r in
      match span_digits r' with
      | ([], _) => (None, l)
      | (ds, r2) => (Some (if neg then - number ds else number ds), r2)
      end
  | _ => (None, l)
  end.

(** [sys.int_info.default_max_str_digits] *)
Definition max_str_digits : nat := 4300.

Definition json_number (l : list ascii) : option (Json * list ascii) :=
  let '(neg, l1) := take_minus l in
  let '(ds, l2) := match l1 with "0"%char :: r => ([0], r) | _ => span_digits l1 end in
  if bool_decide (ds = []) then None
  else
    let '(frac, l3) := json_fraction l2 in
    let '(ex, l4) := json_exponent l3 in
    if bool_decide (frac = []) && bool_decide (ex = None) then
      if bool_decide (length ds ≤ max_str_digits)%nat then Some (JInt (if neg then - number ds else number ds), l4) else None
    else Some (float_of neg (number (ds ++ frac)) (default 0 ex - Z.of_nat (length frac)), l4).

(** *** Values *)

(** The literal [w], without its first letter. *)
Definition literal (w : string) (v : Json) (l : list ascii) : option (Json * list ascii) :=
  if bool_decide (take (String.length w) l = chars w) then Some (v, drop (String.length w) l) else None.

(** [d[k] = v]: a key keeps its place. *)
Fixpoint dict_set (k : string) (v : Json) (d : list (string * Json)) : list (string * Json) :=
  match d with
  | [] => [(k, v)]
  | (k', v') :: r => if bool_decide (k' = k) then (k, v) :: r else (k', v') :: dict_set k v r
  end.

Section values.
Context (parse : list ascii → option (Json * list ascii)).

(** After [[] and a value or more; each round reads at least one byte. *)
Fixpoint items (fuel : nat) (l : list ascii) : option (list Json * list ascii) :=
  match fuel with
  | O => None
  | S fuel' =>
      p ← parse l;
      match skip p.2 with
      | c :: r =>
          if code c =? 93 then Some ([p.1], r)
          else if code c =? 44 then q ← items fuel' (skip r); Some (p.1 :: q.1, q.2)
          else None
      | [] => None
      end
  end.

Definition member (l : list ascii) : option (string * Json * list ascii) :=
  match l with
  | c :: r =>
      if bool_decide (c = dquote) then
        k ← string_token r;
        match skip k.2 with
        | d :: r' => if code d =? 58 then p ← parse (skip r'); Some (k.1, p.1, p.2) else None
        | [] => None
        end
      else None
  | [] => None
  end.

Fixpoint members (fuel : nat) (acc : list (string * Json)) (l : list ascii) : option (list (string * Json) * list ascii) :=
  match fuel with
  | O => None
  | S fuel' =>
      p ← member l;
      let acc := dict_set p.1.1 p.1.2 acc in
      match skip p.2 with
      | c :: r =>
          if code c =? 125 then Some (acc, r)
          else if code c =? 44 then members fuel' acc (skip r)
          else None
      | [] => None
      end
  end.
End values.

Definition starts (n : Z) (l : list ascii) : bool := match l with c :: _ => code c =? n | [] => false end.

(** One value; [depth] is how many values may still nest. *)
Fixpoint value (depth : nat) (l : list ascii) : option (Json * list ascii) :=
  match depth with
  | O => None
  | S depth' =>
      match l with
      | [] => None
      | c :: r =>
          match code c with
          | 34 => p ← string_token r; Some (JStr p.1, p.2)
          | 91 =>
              let l' := skip r in
              if starts 93 l' then Some (JList [], tail l')
              else p ← items (value depth') (S (length l')) l'; Some (JList p.1, p.2)
          | 123 =>
              let l' := skip r in
              if starts 125 l' then Some (JObj [], tail l')
              else p ← members (value depth') (S (length l')) [] l'; Some (JObj p.1, p.2)
          | 110 => literal "ull" JNull r
          | 116 => literal "rue" (JBool true) r
          | 102 => literal "alse" (JBool false) r
          | _ => json_number l
          end
      end
  end.

(** [json.loads(raw, parse_constant=_reject_constant)]; [None] is a
    [ValueError] or [RecursionError]. *)
Definition loads (depth : nat) (raw : string) : option Json :=
  p ← value depth (skip (chars raw));
  match skip p.2 with [] => Some p.1 | _ => None end.

(** ** Writing *)

Definition escaped (c : ascii) : list ascii :=
  match code c with
  | 34 => [backslash; dquote]
  | 92 => [backslash; backslash]
  | 8 => [backslash; "b"%char]
  | 9 => [backslash; "t"%char]
  | 10 => [backslash; "n"%char]
  | 12 => [backslash; "f"%char]
  | 13 => [backslash; "r"%char]
  | n => if n <? 32 then backslash :: "u"%char :: hex_digits 4 n else [c]
  end.

Definition quoted (s : string) : list ascii := dquote :: (chars s ≫= escaped) ++ [dquote].

(** The parts with commas between them, when all can be written. *)
Fixpoint joined (l : list (option (list ascii))) : option (list ascii) :=
  match l with
  | [] => Some []
  | [t] => t
  | t :: r => a ← t; b ← joined r; Some (a ++ ","%char :: b)
  end.

Section dumps.
Context (float_repr : Z → Z → string).

(** [None] when [json.dumps] raises. *)
Fixpoint dumps (j : Json) : option (list ascii) :=
  match j with
  | JNull => Some (chars "null")
  | JBool b => Some (chars (if b then "true" else "false"))
  | JInt n => if bool_decide (ndigits (Z.abs n) ≤ Z.of_nat max_str_digits) then Some (chars (str_int n)) else None
  | JFloat m e => Some (chars (float_repr m e))
  | JStr s => Some (quoted s)
  | JList l => t ← joined (map dumps l); Some ("["%char :: t ++ ["]"%char])
  | JObj f => t ← joined (map (λ p, t ← dumps p.2; Some (quoted p.1 ++ ":"%char :: t)) f); Some ("{"%char :: t ++ ["}"%char])
  | JOther => None
  end.
End dumps.
