(* ===== verification/JsonTextSpec.v ===== *)
(** * JsonTextSpec: what is written is read back

    The fuel of the reader is never the reason it fails; texts without floats
    are read back as the value they were written from; and what is read never
    has a key twice. *)

From Stdlib Require Import Ascii.
From S2P Require Import Prelude Clock Text Store MeterUnits JsonText.

(** ** Induction on values *)

Section json_ind.
Context (P : Json → Prop).
Context (Hnull : P JNull) (Hbool : ∀ b, P (JBool b)) (Hint_ : ∀ n, P (JInt n)) (Hfloat : ∀ m e, P (JFloat m e))
  (Hstr : ∀ s, P (JStr s)) (Hlist : ∀ l, Forall P l → P (JList l))
  (Hobj : ∀ f, Forall (λ p, P p.2) f → P (JObj f)) (Hother : P JOther).

Fixpoint json_induction (j : Json) : P j :=
  match j with
  | JNull => Hnull
  | JBool b => Hbool b
  | JInt n => Hint_ n
  | JFloat m e => Hfloat m e
  | JStr s => Hstr s
  | JList l => Hlist l ((fix all l : Forall P l :=
      match l with [] => Forall_nil_2 _ | x :: r => Forall_cons_2 _ _ _ (json_induction x) (all r) end) l)
  | JObj f => Hobj f ((fix all f : Forall (λ p, P p.2) f :=
      match f with [] => Forall_nil_2 _ | x :: r => Forall_cons_2 _ _ _ (json_induction x.2) (all r) end) f)
  | JOther => Hother
  end.
End json_ind.

(** ** The reader consumes what it reads *)

Lemma skip_length l : (length (skip l) ≤ length l)%nat.
Proof. induction l as [|c r IH]; simpl; [done|]. destruct (json_space c); simpl; lia. Qed.

Lemma hex4_length l n r : hex4 l = Some (n, r) → (length r < length l)%nat.
Proof.
  unfold hex4. destruct l as [|a [|b [|c [|d l]]]]; try done. destruct (hex_any a); [|done]. destruct (hex_any b); [|done].
  destruct (hex_any c); [|done]. destruct (hex_any d); [|done]. simpl. intros [= _ <-]. lia.
Qed.

Lemma unicode_escape_length l n r : unicode_escape l = Some (n, r) → (length r < length l)%nat.
Proof.
  unfold unicode_escape. destruct (hex4 l) as [[hi l1]|] eqn:E; [|done]. apply hex4_length in E. simpl.
  destruct (_ && _); [|by intros [= _ <-]].
  destruct l1 as [|b [|u l2]]; [by intros [= _ <-]..|]. destruct (_ && _); [|by intros [= _ <-]].
  destruct (hex4 l2) as [[lo l3]|] eqn:E2; [|done]. apply hex4_length in E2. simpl in *.
  destruct (_ && _); intros [= _ <-]; simpl; lia.
Qed.

(** What an escape reads. *)
Definition escape_of (r : list ascii) : option (Z * list ascii) :=
  match r with
  | [] => None
  | e :: r' => if code e =? 117 then unicode_escape r' else n ← escape e; Some (n, r')
  end.

Lemma escape_of_length l n r : escape_of l = Some (n, r) → (length r < length l)%nat.
Proof.
  destruct l as [|e l]; [done|]. simpl. destruct (code e =? 117).
  - intros H%unicode_escape_length. lia.
  - destruct (escape e); [|done]. intros [= _ <-]. lia.
Qed.

Lemma read_string_step n c r :
  read_string (S n) (c :: r) =
    if bool_decide (c = dquote) then Some ([], r)
    else if bool_decide (c = backslash) then p ← escape_of r; q ← read_string n p.2; Some (utf8 p.1 ++ q.1, q.2)
    else if code c <? 32 then None else q ← read_string n r; Some (c :: q.1, q.2).
Proof. done. Qed.

Lemma read_string_length n l t r : read_string n l = Some (t, r) → (length r < length l)%nat.
Proof.
  revert l t r. induction n as [|n IH]; intros [|c l] t r; try done. rewrite read_string_step.
  case_bool_decide; [intros [= _ <-]; simpl; lia|]. case_bool_decide.
  - destruct (escape_of l) as [[k l1]|] eqn:E; [|done]. apply escape_of_length in E. simpl.
    destruct (read_string n l1) as [[t' r']|] eqn:E2; [|done]. intros [= _ <-]. apply IH in E2. simpl. lia.
  - destruct (code c <? 32); [done|]. destruct (read_string n l) as [[t' r']|] eqn:E2; [|done]. intros [= _ <-]. apply IH in E2. simpl. lia.
Qed.

(** Fuel beyond the length of the text makes no difference. *)
Lemma read_string_fuel n m l : (length l < n)%nat → (length l < m)%nat → read_string n l = read_string m l.
Proof.
  revert m l. induction n as [|n IH]; intros [|m] [|c l] Hn Hm; simpl in Hn, Hm; try lia; [done|]. rewrite !read_string_step.
  case_bool_decide; [done|]. case_bool_decide.
  - destruct (escape_of l) as [[k l1]|] eqn:E; [|done]. apply escape_of_length in E. simpl. by rewrite (IH m) by lia.
  - destruct (code c <? 32); [done|]. by rewrite (IH m) by lia.
Qed.

Lemma json_string_length l s r : string_token l = Some (s, r) → (length r < length l)%nat.
Proof.
  unfold string_token. destruct (read_string _ l) as [[t r']|] eqn:E; [|done]. apply read_string_length in E. by intros [= _ <-].
Qed.

Definition consumes (parse : list ascii → option (Json * list ascii)) : Prop :=
  ∀ l v r, parse l = Some (v, r) → (length r < length l)%nat.

Lemma items_fuel parse n m l :
  consumes parse → (length l < n)%nat → (length l < m)%nat → items parse n l = items parse m l.
Proof.
  intros Hp. revert m l. induction n as [|n IH]; intros [|m] l Hn Hm; simpl in *; try lia.
  destruct (parse l) as [[v r]|] eqn:E; [|done]. apply Hp in E. simpl. pose proof (skip_length r). destruct (skip r) as [|c r']; [done|].
  destruct (code c =? 93); [done|]. destruct (code c =? 44); [|done]. simpl in *. pose proof (skip_length r'). by rewrite (IH m) by lia.
Qed.

Lemma items_length parse n l v r : consumes parse → items parse n l = Some (v, r) → (length r < length l)%nat.
Proof.
  intros Hp. revert l v r. induction n as [|n IH]; intros l v r; simpl; [done|].
  destruct (parse l) as [[x r1]|] eqn:E; [|done]. apply Hp in E. simpl. pose proof (skip_length r1). destruct (skip r1) as [|c r']; [done|].
  simpl in *. destruct (code c =? 93); [intros [= _ <-]; lia|]. destruct (code c =? 44); [|done].
  destruct (items parse n (skip r')) as [[w r2]|] eqn:E2; [|done]. apply IH in E2. pose proof (skip_length r'). intros [= _ <-]. lia.
Qed.

Lemma member_length parse l k v r : consumes parse → member parse l = Some (k, v, r) → (length r < length l)%nat.
Proof.
  intros Hp. unfold member. destruct l as [|c l]; [done|]. case_bool_decide; [|done].
  destruct (string_token l) as [[s r1]|] eqn:E; [|done]. apply json_string_length in E. simpl. pose proof (skip_length r1).
  destruct (skip r1) as [|d r2]; [done|]. destruct (code d =? 58); [|done]. simpl in *. pose proof (skip_length r2).
  destruct (parse (skip r2)) as [[w r3]|] eqn:E2; [|done]. apply Hp in E2. intros [= _ _ <-]. lia.
Qed.

Lemma members_fuel parse n m acc l :
  consumes parse → (length l < n)%nat → (length l < m)%nat → members parse n acc l = members parse m acc l.
Proof.
  intros Hp. revert m acc l. induction n as [|n IH]; intros [|m] acc l Hn Hm; simpl in *; try lia.
  destruct (member parse l) as [[[k v] r]|] eqn:E; [|done]. apply (member_length _ _ _ _ _ Hp) in E. simpl. pose proof (skip_length r).
  destruct (skip r) as [|c r']; [done|]. destruct (code c =? 125); [done|]. destruct (code c =? 44); [|done].
  simpl in *. pose proof (skip_length r'). by rewrite (IH m) by lia.
Qed.

Lemma members_length parse n acc l v r : consumes parse → members parse n acc l = Some (v, r) → (length r < length l)%nat.
Proof.
  intros Hp. revert acc l v r. induction n as [|n IH]; intros acc l v r; simpl; [done|].
  destruct (member parse l) as [[[k x] r1]|] eqn:E; [|done]. apply (member_length _ _ _ _ _ Hp) in E. simpl. pose proof (skip_length r1).
  destruct (skip r1) as [|c r']; [done|]. simpl in *. destruct (code c =? 125); [intros [= _ <-]; lia|]. destruct (code c =? 44); [|done].
  intros E2%IH. pose proof (skip_length r'). lia.
Qed.

Lemma span_digits_length l ds r : span_digits l = (ds, r) → (length ds + length r = length l)%nat.
Proof.
  revert ds r. induction l as [|c l IH]; intros ds r; simpl; [by intros [= <- <-]|]. destruct (digit_value c); [|by intros [= <- <-]].
  destruct (span_digits l) as [ds' r']. intros [= <- <-]. specialize (IH ds' r' eq_refl). simpl. lia.
Qed.

Lemma json_number_length l v r : json_number l = Some (v, r) → (length r < length l)%nat.
Proof.
  assert (∀ l ds r, json_fraction l = (ds, r) → (length r ≤ length l)%nat) as Hf.
  { intros [|c l'] ds r'; [by intros [= <- <-]|]. unfold json_fraction. repeat (case_match; try (by intros [= <- <-])).
    all: intros [= <- <-]; repeat match goal with H : span_digits _ = _ |- _ => apply span_digits_length in H end; simpl in *; lia. }
  assert (∀ l x r, json_exponent l = (x, r) → (length r ≤ length l)%nat) as He.
  { intros l' x r'. unfold json_exponent. repeat (case_match; try (by intros [= <- <-])).
    all: intros [= <- <-]; unfold take_sign in *; repeat case_match; simplify_eq; repeat match goal with H : span_digits _ = _ |- _ => apply span_digits_length in H end; simpl in *; lia. }
  unfold json_number. destruct (take_minus l) as [neg l1] eqn:E1.
  assert (length l1 ≤ length l)%nat by (unfold take_minus in E1; repeat case_match; simplify_eq; simpl; lia).
  set (p := match l1 with "0"%char :: r => ([0], r) | _ => span_digits l1 end).
  assert ((length p.1 + length p.2 = length l1)%nat) as Hp.
  { assert (p = span_digits l1 ∨ ∃ r, l1 = "0"%char :: r ∧ p = ([0], r)) as [->|(r' & -> & ->)].
    - unfold p. destruct l1 as [|a l1]; [by left|]. destruct (decide (a = "0"%char)) as [->|Hne]; [right; eauto|left].
      destruct a as [[] [] [] [] [] [] [] []]; done.
    - destruct (span_digits l1) as [a b] eqn:E. by apply span_digits_length in E.
    - done. }
  destruct p as [ds l2]. simpl in Hp. case_bool_decide; [done|]. assert (0 < length ds)%nat by (destruct ds; [done|simpl; lia]).
  destruct (json_fraction l2) as [frac l3] eqn:E3. apply Hf in E3. destruct (json_exponent l3) as [ex l4] eqn:E4. apply He in E4.
  destruct (_ && _); [case_bool_decide; [|done]|]; intros [= _ <-]; lia.
Qed.

Lemma value_step depth c r :
  value (S depth) (c :: r) =
    if code c =? 34 then p ← string_token r; Some (JStr p.1, p.2)
    else if code c =? 91 then
      if starts 93 (skip r) then Some (JList [], tail (skip r))
      else p ← items (value depth) (S (length (skip r))) (skip r); Some (JList p.1, p.2)
    else if code c =? 123 then
      if starts 125 (skip r) then Some (JObj [], tail (skip r))
      else p ← members (value depth) (S (length (skip r))) [] (skip r); Some (JObj p.1, p.2)
    else if code c =? 110 then literal "ull" JNull r
    else if code c =? 116 then literal "rue" (JBool true) r
    else if code c =? 102 then literal "alse" (JBool false) r
    else json_number (c :: r).
Proof.
  cbn [value]. generalize (code c). intros n.
  destruct (Z.eqb_spec n 34) as [->|]; [done|]. destruct (Z.eqb_spec n 91) as [->|]; [done|].
  destruct (Z.eqb_spec n 123) as [->|]; [done|]. destruct (Z.eqb_spec n 110) as [->|]; [done|].
  destruct (Z.eqb_spec n 116) as [->|]; [done|]. destruct (Z.eqb_spec n 102) as [->|]; [done|].
  repeat (case_match; try done).
Qed.

Lemma literal_length w v l x r : literal w v l = Some (x, r) → (length r ≤ length l)%nat.
Proof. unfold literal. case_bool_decide; [|done]. intros [= _ <-]. rewrite length_drop. lia. Qed.

Lemma value_consumes depth : consumes (value depth).
Proof.
  induction depth as [|depth IH]; intros [|c l] v r; try done. rewrite value_step. pose proof (skip_length l).
  destruct (code c =? 34). { destruct (string_token l) as [[s r1]|] eqn:E; [|done]. apply json_string_length in E. intros [= _ <-]. simpl. lia. }
  destruct (code c =? 91).
  { destruct (starts 93 (skip l)). - intros [= _ <-]. destruct (skip l); simpl in *; lia.
    - destruct (items _ _ _) as [[w r1]|] eqn:E; [|done]. apply items_length in E; [|done]. intros [= _ <-]. simpl. lia. }
  destruct (code c =? 123).
  { destruct (starts 125 (skip l)). - intros [= _ <-]. destruct (skip l); simpl in *; lia.
    - destruct (members _ _ _ _) as [[w r1]|] eqn:E; [|done]. apply members_length in E; [|done]. intros [= _ <-]. simpl. lia. }
  do 3 (destruct (code c =? _); [intros E%literal_length; simpl; lia|]). apply json_number_length.
Qed.

(** ** Strings are read back *)

(** How a character is written and read, for each of the 256. *)
Lemma escaped_cases c :
  (escaped c = [c] ∧ c ≠ dquote ∧ c ≠ backslash ∧ 32 ≤ code c) ∨
  (∃ h n, escaped c = backslash :: h ∧ utf8 n = [c] ∧ ∀ r, escape_of (h ++ r) = Some (n, r)).
Proof.
  destruct c as [[] [] [] [] [] [] [] []];
    first [ left; split_and!; [reflexivity|discriminate|discriminate|vm_compute; discriminate]
          | right; eexists _, _; split_and!; [reflexivity| |intros r; reflexivity]; reflexivity ].
Qed.

Lemma read_string_escaped n l rest :
  (length (l ≫= escaped) < n)%nat → read_string n ((l ≫= escaped) ++ dquote :: rest) = Some (l, rest).
Proof.
  revert n. induction l as [|c l IH]; intros [|n] Hn; try (simpl in Hn; lia); [done|].
  change ((c :: l) ≫= escaped) with (escaped c ++ (l ≫= escaped)) in *. rewrite length_app in Hn.
  rewrite <- app_assoc. destruct (escaped_cases c) as [(E & H1 & H2 & H3)|(h & k & E & Hk & Hr)]; rewrite E in Hn |- *; simpl app.
  - rewrite read_string_step, !bool_decide_false by done. destruct (Z.ltb_spec (code c) 32); [lia|]. simpl in Hn. by rewrite IH by lia.
  - rewrite read_string_step, bool_decide_false, bool_decide_true by done. rewrite Hr. simpl in Hn |- *. rewrite IH by lia. simpl. by rewrite Hk.
Qed.

Lemma json_string_quoted s rest : string_token ((chars s ≫= escaped) ++ dquote :: rest) = Some (s, rest).
Proof.
  unfold string_token. rewrite read_string_escaped; [simpl; by rewrite of_chars_chars|]. rewrite length_app. simpl. lia.
Qed.

(** ** Integers are read back *)

(** What may follow a value. *)
Definition ends (rest : list ascii) : Prop :=
  match rest with [] => True | c :: _ => c ∈ [","%char; "]"%char; "}"%char] end.

Lemma ends_digit rest : ends rest → match rest with c :: _ => digit_value c = None | [] => True end.
Proof. destruct rest as [|c r]; [done|]. simpl. intros H. by repeat (apply elem_of_cons in H as [->|H]; [done|]); apply elem_of_nil in H. Qed.

Lemma ends_fraction rest : ends rest → json_fraction rest = ([], rest) ∧ json_exponent rest = (None, rest).
Proof. destruct rest as [|c r]; [done|]. simpl. intros H. by repeat (apply elem_of_cons in H as [->|H]; [done|]); apply elem_of_nil in H. Qed.

Lemma number_snoc ds d : number (ds ++ [d]) = 10 * number ds + d.
Proof. unfold number. by rewrite foldl_app. Qed.

Lemma number_bounds ds : Forall is_digit ds → 0 ≤ number ds < 10 ^ Z.of_nat (length ds).
Proof.
  induction ds as [|d ds IH] using rev_ind; [done|]. rewrite Forall_app, Forall_singleton. intros [H1 H2]. specialize (IH H1).
  unfold is_digit in H2. rewrite number_snoc, length_app. simpl. rewrite Nat2Z.inj_add, Z.pow_add_r by lia. lia.
Qed.

Lemma number_lead d ds : Forall is_digit (d :: ds) → d ≠ 0 → 10 ^ Z.of_nat (length ds) ≤ number (d :: ds).
Proof.
  revert d. induction ds as [|x ds IH] using rev_ind; intros d; rewrite Forall_cons; unfold is_digit.
  - intros [? _] ?. unfold number. simpl. lia.
  - rewrite Forall_app, Forall_singleton. intros (H1 & H2 & H3) Hd.
    specialize (IH d ltac:(by constructor) Hd). rewrite app_comm_cons, number_snoc, length_app. simpl. rewrite Nat2Z.inj_add, Z.pow_add_r by lia. unfold is_digit in H3. lia.
Qed.

Lemma pretty_char m : (m < 10)%N → pretty_N_char m = digit_char (Z.of_N m).
Proof. intros H. destruct m as [|p]; [done|]. do 4 (destruct p as [p|p|]; try done; try lia). Qed.

(** The digits of a positive number. *)
Lemma pretty_digits (n : N) :
  (0 < n)%N → ∃ d ds, chars (pretty n) = map digit_char (d :: ds) ∧ Forall is_digit (d :: ds) ∧ number (d :: ds) = Z.of_N n ∧ d ≠ 0.
Proof.
  assert (∀ m s, (0 < m)%N → ∃ d ds, chars (pretty_N_go m s) = map digit_char (d :: ds) ++ chars s ∧ Forall is_digit (d :: ds) ∧
    number (d :: ds) = Z.of_N m ∧ d ≠ 0) as Hgo.
  { intros m. induction (N.lt_wf_0 m) as [m _ IH]. intros s Hm. rewrite pretty_N_go_step by done.
    set (x := (m `mod` 10)%N). assert (x < 10)%N as Hx by (apply N.mod_lt; lia).
    assert (Z.of_N m = 10 * Z.of_N (m `div` 10) + Z.of_N x) as Hdm by (pose proof (N.div_mod m 10 ltac:(lia)); unfold x; lia).
    destruct (decide (m `div` 10 = 0)%N) as [E|E].
    - rewrite E, pretty_N_go_0. exists (Z.of_N x), []. rewrite pretty_char by done. split_and!; [done|constructor; [unfold is_digit; lia|done]| |].
      + unfold number. simpl. lia.
      + lia.
    - destruct (IH (m `div` 10)%N ltac:(apply N.div_lt; lia) (String (pretty_N_char x) s) ltac:(lia)) as (d & ds & H1 & H2 & H3 & H4).
      exists d, (ds ++ [Z.of_N x]). rewrite H1. split_and!; [|..|done].
      + simpl. rewrite map_app, <- app_assoc. simpl. by rewrite pretty_char.
      + rewrite app_comm_cons. apply Forall_app. split; [done|]. constructor; [unfold is_digit; lia|done].
      + rewrite app_comm_cons, number_snoc, H3. lia. }
  intros Hn. unfold pretty, pretty_N. rewrite decide_False by lia. destruct (Hgo n ""%string Hn) as (d & ds & H1 & H2). exists d, ds.
  by rewrite H1, app_nil_r.
Qed.

Lemma take_minus_digit d l : is_digit d → take_minus (digit_char d :: l) = (false, digit_char d :: l).
Proof. intros H. each_digit H. Qed.

Lemma json_number_digits (neg : bool) d ds rest :
  Forall is_digit (d :: ds) → d ≠ 0 → ndigits (number (d :: ds)) ≤ Z.of_nat max_str_digits → ends rest →
  json_number ((if neg then ["-"%char] else []) ++ map digit_char (d :: ds) ++ rest) =
    Some (JInt (if neg then - number (d :: ds) else number (d :: ds)), rest).
Proof.
  intros Hds Hd Hn Hr. unfold json_number.
  assert (take_minus ((if neg then ["-"%char] else []) ++ map digit_char (d :: ds) ++ rest) = (neg, map digit_char (d :: ds) ++ rest)) as ->.
  { destruct neg; [done|]. simpl. apply take_minus_digit. by inversion Hds. }
  assert (match map digit_char (d :: ds) ++ rest with "0"%char :: r => ([0], r) | _ => span_digits (map digit_char (d :: ds) ++ rest) end =
    (d :: ds, rest)) as ->.
  { rewrite span_digits_chars by (done || by apply ends_digit). assert (is_digit d) as H by (by inversion Hds). simpl.
    apply digit_char_cases in H. repeat (apply elem_of_cons in H as [->|H]; [done|]). by apply elem_of_nil in H. }
  rewrite bool_decide_false by done. destruct (ends_fraction rest Hr) as [-> ->]. simpl. rewrite bool_decide_true; [done|].
  pose proof (number_lead d ds Hds Hd) as Hl. destruct (ndigits_spec (number (d :: ds))) as (_ & _ & Hlt).
  { pose proof (Z.pow_pos_nonneg 10 (Z.of_nat (length ds)) ltac:(lia) ltac:(lia)). lia. }
  assert (Z.of_nat (length ds) < ndigits (number (d :: ds))) as Hlen; [|simpl; lia].
  apply (Z.pow_lt_mono_r_iff 10); [lia| |lia]. destruct (Z.le_gt_cases 0 (ndigits (number (d :: ds)))); [done|].
  rewrite Z.pow_neg_r in Hlt by lia. pose proof (Z.pow_pos_nonneg 10 (Z.of_nat (length ds)) ltac:(lia) ltac:(lia)). lia.
Qed.

Lemma json_number_int n rest :
  ndigits (Z.abs n) ≤ Z.of_nat max_str_digits → ends rest → json_number (chars (str_int n) ++ rest) = Some (JInt n, rest).
Proof.
  intros Hn Hr. destruct n as [|p|p].
  - change (chars (str_int 0)) with ["0"%char]. unfold json_number. simpl. destruct (ends_fraction rest Hr) as [-> ->]. done.
  - destruct (pretty_digits (N.pos p)) as (d & ds & E & Hds & Hnum & Hd); [lia|].
    change (chars (str_int (Z.pos p))) with (chars (pretty (N.pos p))). rewrite E.
    change (Z.abs (Z.pos p)) with (Z.of_N (N.pos p)) in Hn. rewrite <- Hnum in Hn.
    pose proof (json_number_digits false d ds rest Hds Hd Hn Hr) as H. simpl in H |- *. rewrite H, Hnum. done.
  - destruct (pretty_digits (N.pos p)) as (d & ds & E & Hds & Hnum & Hd); [lia|].
    change (chars (str_int (Z.neg p))) with ("-"%char :: chars (pretty (N.pos p))). rewrite E.
    change (Z.abs (Z.neg p)) with (Z.of_N (N.pos p)) in Hn. rewrite <- Hnum in Hn.
    pose proof (json_number_digits true d ds rest Hds Hd Hn Hr) as H. simpl in H |- *. rewrite H, Hnum. done.
Qed.

(** ** Values are read back *)

Definition largest (l : list nat) : nat := foldr Nat.max 0%nat l.

(** How deeply a value nests. *)
Fixpoint nest (j : Json) : nat :=
  match j with
  | JList l => S (largest (map nest l))
  | JObj f => S (largest (map (λ p, nest p.2) f))
  | _ => 1
  end.

Lemma largest_elem l n : n ∈ l → (n ≤ largest l)%nat.
Proof. induction l as [|x l IH]; [by intros ?%elem_of_nil|]. simpl. intros [->|H%IH]%elem_of_cons; lia. Qed.

(** No float, and no key twice. *)
Fixpoint exact (j : Json) : Prop :=
  match j with
  | JFloat _ _ | JOther => False
  | JList l => foldr (λ v P, exact v ∧ P) True l
  | JObj f => NoDup f.*1 ∧ foldr (λ p P, exact p.2 ∧ P) True f
  | _ => True
  end.

Lemma exact_list l : exact (JList l) ↔ Forall exact l.
Proof. simpl. induction l as [|v l IH]; simpl; [done|]. by rewrite IH, Forall_cons. Qed.

Lemma exact_obj f : exact (JObj f) ↔ NoDup f.*1 ∧ Forall (λ p, exact p.2) f.
Proof.
  simpl. enough (foldr (λ p P, exact p.2 ∧ P) True f ↔ Forall (λ p, exact p.2) f) as ->; [done|].
  induction f as [|v f IH]; simpl; [done|]. by rewrite IH, Forall_cons.
Qed.

Lemma dict_set_new k v d : k ∉ d.*1 → dict_set k v d = d ++ [(k, v)].
Proof.
  induction d as [|[k' v'] d IH]; [done|]. simpl. rewrite not_elem_of_cons. intros [Hk Hd]. rewrite bool_decide_false by done. by rewrite IH.
Qed.

Section readback.
Context (float_repr : Z → Z → string).
Notation text := (dumps float_repr).

(** A written value starts with neither a space nor a bracket that closes. *)
Lemma text_head j t : exact j → text j = Some t → ∃ c r, t = c :: r ∧ json_space c = false ∧ code c ≠ 93 ∧ code c ≠ 125.
Proof.
  intros Hj. destruct j as [|b|n| |s|l|f|]; try done.
  - intros [= <-]. by eexists _, _.
  - destruct b; intros [= <-]; by eexists _, _.
  - simpl. case_bool_decide; [|done]. intros [= <-]. destruct n as [|p|p]; [by eexists _, _| |by eexists _, _].
    destruct (pretty_digits (N.pos p)) as (d & ds & E & Hds & _); [lia|].
    change (chars (str_int (Z.pos p))) with (chars (pretty (N.pos p))). rewrite E. eexists _, _. split; [done|].
    assert (is_digit d) as Hd by (by inversion Hds). each_digit Hd.
  - intros [= <-]. by eexists _, _.
  - simpl. destruct (joined _); [|done]. intros [= <-]. by eexists _, _.
  - simpl. destruct (joined _); [|done]. intros [= <-]. by eexists _, _.
Qed.

Lemma text_skip j t rest : exact j → text j = Some t → skip (t ++ rest) = t ++ rest.
Proof. intros Hj Ht. destruct (text_head j t Hj Ht) as (c & r & -> & Hc & _). simpl. by rewrite Hc. Qed.

Lemma text_starts j t rest : exact j → text j = Some t → starts 93 (t ++ rest) = false.
Proof. intros Hj Ht. destruct (text_head j t Hj Ht) as (c & r & -> & _ & Hc & _). by apply Z.eqb_neq. Qed.

(** [parse] reads back what [text] writes for [j]. *)
Definition reads (parse : list ascii → option (Json * list ascii)) (j : Json) : Prop :=
  ∀ t rest, text j = Some t → ends rest → parse (t ++ rest) = Some (j, rest).

Lemma items_read parse v l t rest n :
  Forall exact (v :: l) → Forall (reads parse) (v :: l) → joined (map text (v :: l)) = Some t → (length t < n)%nat →
  items parse n (t ++ "]"%char :: rest) = Some (v :: l, rest).
Proof.
  revert v t n. induction l as [|w l IH]; intros v t [|n] Hx Hr Ht Hn; try lia.
  - simpl in Ht |- *. apply Forall_cons in Hr as [Hr _]. rewrite (Hr t); [done..|]. simpl. set_solver.
  - change (joined (map text (v :: w :: l))) with (a ← text v; b ← joined (map text (w :: l)); Some (a ++ ","%char :: b)) in Ht.
    apply bind_Some in Ht as (a & Ha & Ht). apply bind_Some in Ht as (b & Hb & [= <-]).
    apply Forall_cons in Hx as [Hv Hx]. apply Forall_cons in Hr as [Hrv Hr]. rewrite length_app in Hn. simpl in Hn.
    rewrite <- app_assoc. cbn [items]. rewrite (Hrv a); [|done|simpl; set_solver]. cbn [mbind option_bind fst snd skip app].
    change (json_space ",") with false. cbv iota. change (code "," =? 93) with false. change (code "," =? 44) with true. cbv iota.
    assert (skip (b ++ "]"%char :: rest) = b ++ "]"%char :: rest) as ->.
    { apply Forall_cons in Hx as [Hw _]. destruct (text w) as [tw|] eqn:Ew; [|by destruct l; simpl in Hb; rewrite Ew in Hb].
      assert (∃ b', b = tw ++ b') as [b' ->]; [|by rewrite <- app_assoc; eapply text_skip].
      destruct l; simpl in Hb; rewrite Ew in Hb; [injection Hb as <-; exists []; by rewrite app_nil_r|].
      simpl in Hb. apply bind_Some in Hb as (c & _ & [= <-]). eauto. }
    rewrite (IH w b n); [done|done|done|done|lia].
Qed.

Lemma member_read parse k v t rest :
  exact v → reads parse v → text v = Some t → ends rest → member parse ((quoted k ++ ":"%char :: t) ++ rest) = Some (k, v, rest).
Proof.
  intros Hx Hr Ht He. rewrite <- app_assoc. unfold quoted, member. simpl. rewrite <- app_assoc. simpl. rewrite json_string_quoted. simpl.
  rewrite (text_skip v t rest Hx Ht). by rewrite (Hr t rest Ht He).
Qed.

Definition member_text (p : string * Json) : option (list ascii) := t ← text p.2; Some (quoted p.1 ++ ":"%char :: t).

Lemma members_read parse p f acc t rest n :
  Forall (λ p, exact p.2) (p :: f) → Forall (λ p, reads parse p.2) (p :: f) → NoDup (acc ++ p :: f).*1 →
  joined (map member_text (p :: f)) = Some t → (length t < n)%nat →
  members parse n acc (t ++ "}"%char :: rest) = Some (acc ++ p :: f, rest).
Proof.
  revert p acc t n. induction f as [|q f IH]; intros [k v] acc t [|n] Hx Hr Hnd Ht Hn; try lia.
  - apply Forall_cons in Hx as [Hv _]. apply Forall_cons in Hr as [Hr _]. simpl in Hv, Hr, Ht.
    apply bind_Some in Ht as (tv & Htv & [= <-]). cbn [members fst].
    rewrite (member_read parse k v tv) by (done || (simpl; set_solver)). cbn [mbind option_bind fst snd skip app].
    change (json_space "}") with false. cbv iota. change (code "}" =? 125) with true. cbv iota.
    rewrite dict_set_new; [done|]. rewrite fmap_app in Hnd. apply NoDup_app in Hnd as (_ & Hd & _). intros Hk. apply (Hd k Hk). simpl. set_solver.
  - change (joined (map member_text ((k, v) :: q :: f))) with (a ← member_text (k, v); b ← joined (map member_text (q :: f)); Some (a ++ ","%char :: b)) in Ht.
    apply bind_Some in Ht as (a & Ha & Ht). apply bind_Some in Ht as (b & Hb & [= <-]).
    apply bind_Some in Ha as (tv & Htv & [= <-]). apply Forall_cons in Hx as [Hv Hx]. apply Forall_cons in Hr as [Hrv Hr]. simpl in Hv, Hrv, Htv.
    rewrite !length_app in Hn. simpl in Hn. rewrite length_app in Hn. cbn [members fst].
    rewrite <- (app_assoc (quoted k ++ ":"%char :: tv)).
    rewrite (member_read parse k v tv) by (done || (simpl; set_solver)). cbn [mbind option_bind fst snd skip app].
    change (json_space ",") with false. cbv iota. change (code "," =? 125) with false. change (code "," =? 44) with true. cbv iota.
    assert (skip (b ++ "}"%char :: rest) = b ++ "}"%char :: rest) as ->.
    { destruct (text q.2) as [tw|] eqn:Ew; [|by destruct f; simpl in Hb; unfold member_text in Hb; rewrite Ew in Hb].
      destruct f; simpl in Hb; unfold member_text in Hb; rewrite Ew in Hb; [by injection Hb as <-|].
      simpl in Hb. apply bind_Some in Hb as (c & _ & [= <-]). done. }
    rewrite dict_set_new.
    + rewrite (IH q (acc ++ [(k, v)]) b n); [by rewrite <- app_assoc|done|done|by rewrite <- app_assoc|done|lia].
    + rewrite fmap_app in Hnd. apply NoDup_app in Hnd as (_ & Hd & _). intros Hk. apply (Hd k Hk). simpl. set_solver.
Qed.

Lemma value_reads j : exact j → ∀ depth, (nest j ≤ depth)%nat → reads (value depth) j.
Proof.
  induction j as [|b|n| |s|l IH|f IH|] using json_induction; intros Hx [|depth] Hd t rest Ht He; try done; try (simpl in Hd; lia).
  - by injection Ht as <-.
  - by destruct b; injection Ht as <-.
  - simpl in Ht. case_bool_decide as Hn; [|done]. injection Ht as <-.
    pose proof (json_number_int n rest Hn He) as E. destruct (text_head (JInt n) (chars (str_int n)) I) as (c & r & Ec & _).
    { simpl. by rewrite bool_decide_true. }
    assert (bool_decide (code c ∈ [34; 91; 123; 110; 116; 102]) = false) as Hc.
    { destruct n as [|p|p]; [by injection Ec as <- _| |by injection Ec as <- _].
      destruct (pretty_digits (N.pos p)) as (d & ds & E' & Hds & _); [lia|].
      change (chars (str_int (Z.pos p))) with (chars (pretty (N.pos p))) in Ec. rewrite E' in Ec. injection Ec as <- _.
      assert (is_digit d) as Hd' by (by inversion Hds). each_digit Hd'. }
    apply bool_decide_eq_false in Hc. rewrite Ec in E |- *. cbn [app] in E |- *. rewrite value_step.
    repeat match goal with |- context [code c =? ?k] => destruct (Z.eqb_spec (code c) k); [exfalso; apply Hc; set_solver|] end. done.
  - injection Ht as <-. unfold quoted. cbn [app]. rewrite value_step. change (code dquote =? 34) with true. cbv iota.
    rewrite <- app_assoc. cbn [app]. by rewrite json_string_quoted.
  - simpl in Ht. apply bind_Some in Ht as (b & Hb & [= <-]). cbn [app]. rewrite value_step. change (code "[" =? 34) with false.
    change (code "[" =? 91) with true. cbv iota. rewrite <- app_assoc. cbn [app]. destruct l as [|v l]; [by injection Hb as <-|].
    apply exact_list in Hx. assert (∃ tv b', text v = Some tv ∧ b = tv ++ b') as (tv & b' & Etv & Eb).
    { destruct l; simpl in Hb; [exists b, []; by rewrite app_nil_r|]. apply bind_Some in Hb as (tv & ? & Hb).
      apply bind_Some in Hb as (c & _ & [= <-]). eauto. }
    assert (exact v) as Hv by (by inversion Hx).
    assert (skip (b ++ "]"%char :: rest) = b ++ "]"%char :: rest) as ->
      by (rewrite Eb, <- app_assoc; by eapply text_skip).
    assert (starts 93 (b ++ "]"%char :: rest) = false) as -> by (rewrite Eb, <- app_assoc; by eapply text_starts).
    rewrite (items_read (value depth) v l b rest); [done|done| |done|rewrite length_app; lia].
    apply Forall_forall. intros x Hin. rewrite Forall_forall in IH, Hx. apply IH; [done|by apply Hx|].
    pose proof (largest_elem (map nest (v :: l)) (nest x) ltac:(by apply (list_elem_of_fmap_2 nest))). simpl in Hd, H. lia.
  - simpl in Ht. apply bind_Some in Ht as (b & Hb & [= <-]). cbn [app]. rewrite value_step. change (code "{" =? 34) with false.
    change (code "{" =? 91) with false. change (code "{" =? 123) with true. cbv iota. rewrite <- app_assoc. cbn [app].
    destruct f as [|p f]; [by injection Hb as <-|]. apply exact_obj in Hx as [Hnd Hx].
    change (joined (map member_text (p :: f)) = Some b) in Hb.
    assert (∃ b', b = dquote :: b') as [b' Eb].
    { destruct f; simpl in Hb; [|apply bind_Some in Hb as (c & Hc & Hb); apply bind_Some in Hb as (c' & _ & [= <-])];
        unfold member_text in *; [apply bind_Some in Hb as (tv & _ & [= <-])|apply bind_Some in Hc as (tv & _ & [= <-])]; by eexists. }
    assert (skip (b ++ "}"%char :: rest) = b ++ "}"%char :: rest) as -> by (by rewrite Eb).
    assert (starts 125 (b ++ "}"%char :: rest) = false) as -> by (by rewrite Eb).
    rewrite (members_read (value depth) p f [] b rest); [done|done| |done|done|rewrite length_app; lia].
    apply Forall_forall. intros x Hin. rewrite Forall_forall in IH, Hx. apply IH; [done|by apply Hx|].
    pose proof (largest_elem (map (λ p, nest p.2) (p :: f)) (nest x.2) ltac:(by apply (list_elem_of_fmap_2 (λ p, nest p.2)))). simpl in Hd, H. lia.
Qed.

Lemma loads_dumps j t depth : exact j → (nest j ≤ depth)%nat → text j = Some t → loads depth (of_chars t) = Some j.
Proof.
  intros Hx Hd Ht. unfold loads. rewrite chars_of_chars. pose proof (text_skip j t [] Hx Ht) as E. rewrite app_nil_r in E. rewrite E.
  pose proof (value_reads j Hx depth Hd t [] Ht I) as Hv. rewrite app_nil_r in Hv. by rewrite Hv.
Qed.
End readback.

(** ** What is read has no key twice *)

Fixpoint tidy (j : Json) : Prop :=
  match j with
  | JList l => foldr (λ v P, tidy v ∧ P) True l
  | JObj f => NoDup f.*1 ∧ foldr (λ p P, tidy p.2 ∧ P) True f
  | _ => True
  end.

Lemma tidy_list l : tidy (JList l) ↔ Forall tidy l.
Proof. simpl. induction l as [|v l IH]; simpl; [done|]. by rewrite IH, Forall_cons. Qed.

Lemma tidy_obj f : tidy (JObj f) ↔ NoDup f.*1 ∧ Forall (λ p, tidy p.2) f.
Proof.
  simpl. enough (foldr (λ p P, tidy p.2 ∧ P) True f ↔ Forall (λ p, tidy p.2) f) as ->; [done|].
  induction f as [|v f IH]; simpl; [done|]. by rewrite IH, Forall_cons.
Qed.

Lemma dict_set_keys k v d x : x ∈ (dict_set k v d).*1 ↔ x = k ∨ x ∈ d.*1.
Proof.
  induction d as [|[k' v'] d IH]; simpl; [set_solver|]. case_bool_decide as E; [subst|]; simpl; rewrite !elem_of_cons; [tauto|]. rewrite IH. tauto.
Qed.

Lemma dict_set_tidy k v d : tidy v → tidy (JObj d) → tidy (JObj (dict_set k v d)).
Proof.
  rewrite !tidy_obj. intros Hv [Hnd Hd]. induction d as [|[k' v'] d IH]; [split; [apply NoDup_singleton|by constructor]|].
  simpl in Hnd. apply NoDup_cons in Hnd as [Hk Hnd]. apply Forall_cons in Hd as [Hv' Hd]. destruct (IH Hnd Hd) as [H1 H2].
  simpl. case_bool_decide as E; simpl.
  - subst. split; [by apply NoDup_cons|by constructor].
  - split; [|by constructor]. apply NoDup_cons. split; [|done]. rewrite dict_set_keys. by intros [?|?].
Qed.

Definition yields_tidy (parse : list ascii → option (Json * list ascii)) : Prop := ∀ l v r, parse l = Some (v, r) → tidy v.

Lemma items_tidy parse n l v r : yields_tidy parse → items parse n l = Some (v, r) → Forall tidy v.
Proof.
  intros Hp. revert l v r. induction n as [|n IH]; intros l v r; simpl; [done|].
  destruct (parse l) as [[x r1]|] eqn:E; [|done]. apply Hp in E. simpl. destruct (skip r1) as [|c r']; [done|].
  destruct (code c =? 93); [intros [= <- _]; by constructor|]. destruct (code c =? 44); [|done].
  destruct (items parse n (skip r')) as [[w r2]|] eqn:E2; [|done]. apply IH in E2. intros [= <- _]. by constructor.
Qed.

Lemma members_tidy parse n acc l v r : yields_tidy parse → tidy (JObj acc) → members parse n acc l = Some (v, r) → tidy (JObj v).
Proof.
  intros Hp. revert acc l v r. induction n as [|n IH]; intros acc l v r Ha; simpl; [done|].
  destruct (member parse l) as [[[k x] r1]|] eqn:E; [|done]. simpl.
  assert (tidy x) as Hx.
  { unfold member in E. destruct l as [|c l]; [done|]. case_bool_decide; [|done]. destruct (string_token l) as [[s r2]|]; [|done]. simpl in E.
    destruct (skip r2) as [|d r3]; [done|]. destruct (code d =? 58); [|done].
    destruct (parse (skip r3)) as [[w r4]|] eqn:E2; [|done]. injection E as _ <- _. by eapply Hp. }
  destruct (skip r1) as [|c r']; [done|]. pose proof (dict_set_tidy k x acc Hx Ha) as Ha'.
  destruct (code c =? 125); [by intros [= <- _]|]. destruct (code c =? 44); [|done]. by apply IH.
Qed.

Lemma json_number_tidy l v r : json_number l = Some (v, r) → tidy v.
Proof.
  unfold json_number. destruct (take_minus l) as [neg l1]. destruct (match l1 with "0"%char :: r => ([0], r) | _ => span_digits l1 end) as [ds l2].
  case_bool_decide; [done|]. destruct (json_fraction l2) as [frac l3], (json_exponent l3) as [ex l4].
  destruct (_ && _); [case_bool_decide; [|done]|]; intros [= <- _]; [done|]. unfold float_of. by repeat case_match.
Qed.

Lemma literal_value w v l x r : literal w v l = Some (x, r) → x = v.
Proof. unfold literal. case_bool_decide; [|done]. by intros [= <- _]. Qed.

Lemma value_tidy depth : yields_tidy (value depth).
Proof.
  induction depth as [|depth IH]; intros [|c l] v r; try done. rewrite value_step.
  destruct (code c =? 34); [destruct (string_token l); [by intros [= <- _]|done]|].
  destruct (code c =? 91).
  { destruct (starts _ _); [by intros [= <- _]|]. destruct (items _ _ _) as [[w r1]|] eqn:E; [|done]. intros [= <- _].
    by apply tidy_list, (items_tidy _ _ _ _ _ IH E). }
  destruct (code c =? 123).
  { destruct (starts _ _); [intros [= <- _]; by split; [apply NoDup_nil_2|]|]. destruct (members _ _ _ _) as [[w r1]|] eqn:E; [|done]. intros [= <- _].
    eapply (members_tidy (value depth)); [exact IH| |exact E]. by split; [apply NoDup_nil_2|]. }
  do 3 (destruct (code c =? _); [by intros ->%literal_value|]). apply json_number_tidy.
Qed.

Lemma loads_tidy depth raw j : loads depth raw = Some j → tidy j.
Proof.
  unfold loads. destruct (value _ _) as [[v r]|] eqn:E; [|done]. simpl. destruct (skip r); [|done]. intros [= <-]. by apply (value_tidy _ _ _ _ E).
Qed.
