(* ===== verification/Frames.v ===== *)
(** * Frames: OCPP 1.6J envelopes

    Models [src/src/modules/ocpp/frames.py]: the three kinds of frame, how they
    are written and how a charger's text is read. *)

From Stdlib Require Import Ascii.
From S2P Require Import Prelude Clock Text Store MeterUnits JsonText JsonTextSpec.

Record FrameError := mkFrameError { fe_message_id : string; fe_code : string; fe_description : string }.

Record Frame := mkFrame {
  fr_kind : Z; fr_message_id : string; fr_payload : list (string * Json);
  fr_action : string; fr_error_code : string; fr_description : string
}.

Definition call_frame (message_id action : string) (payload : list (string * Json)) : Frame := mkFrame 2 message_id payload action "" "".
Definition result_frame (message_id : string) (payload : list (string * Json)) : Frame := mkFrame 3 message_id payload "" "" "".
Definition failure_frame (message_id code description : string) (payload : list (string * Json)) : Frame :=
  mkFrame 4 message_id payload "" code description.

Section frames.
Context (depth : nat) (float_repr : Z → Z → string).

Definition frame_value (f : Frame) : Json :=
  if fr_kind f =? 2 then JList [JInt 2; JStr (fr_message_id f); JStr (fr_action f); JObj (fr_payload f)]
  else if fr_kind f =? 3 then JList [JInt 3; JStr (fr_message_id f); JObj (fr_payload f)]
  else JList [JInt 4; JStr (fr_message_id f); JStr (fr_error_code f); JStr (fr_description f); JObj (fr_payload f)].

(** [None] when the payload holds what JSON cannot. *)
Definition encode_frame (f : Frame) : option string := of_chars <$> dumps float_repr (frame_value f).

Definition error_frame (message_id code description : string) : option string :=
  encode_frame (failure_frame message_id code description []).

(** [value[1]] when that is a string. *)
Definition frame_uid (v : Json) : string :=
  match v with
  | JList (_ :: JStr uid :: _) => uid
  | _ => ""
  end.

(** The type of the message, and the other parts. *)
Definition frame_kind (v : Json) : option (Z * list Json) :=
  match v with
  | JList (JInt k :: parts) => if bool_decide (k ∈ [2; 3; 4]) then Some (k, parts) else None
  | _ => None
  end.

Definition expected_parts (kind : Z) : nat := if kind =? 2 then 4 else if kind =? 3 then 3 else 5.

(** The parts after type and identifier; their number tells the kind. *)
Definition frame_fields (uid : string) (fields : list Json) : FrameError + Frame :=
  let refuse description := inl (mkFrameError uid "TypeConstraintViolation" description) in
  let of_payload (v : Json) (build : list (string * Json) → Frame) :=
    match v with JObj payload => inr (build payload) | _ => refuse "Payload must be an object" end in
  match fields with
  | [action; v] =>
      match action with
      | JStr a => if bool_decide (a = "") then refuse "Action must be a string" else of_payload v (call_frame uid a)
      | _ => refuse "Action must be a string"
      end
  | [v] => of_payload v (result_frame uid)
  | [error; text; v] =>
      match error, text with
      | JStr e, JStr d => if bool_decide (e = "") then refuse "Invalid error fields" else of_payload v (failure_frame uid e d)
      | _, _ => refuse "Invalid error fields"
      end
  | _ => refuse "Payload must be an object"
  end.

Definition decode_frame (raw : string) : FrameError + Frame :=
  let malformed uid description := inl (mkFrameError uid "FormationViolation" description) in
  match loads depth raw with
  | None => malformed "" "Invalid JSON frame"
  | Some v =>
      let uid := frame_uid v in
      match frame_kind v with
      | None => malformed uid "Invalid message type"
      | Some (kind, parts) =>
          if bool_decide (uid = "") || (36 <? text_len uid) then malformed (text_take 36 uid) "Invalid message identifier"
          else if negb (bool_decide (S (length parts) = expected_parts kind)) then malformed uid "Invalid frame length"
          else frame_fields uid (tail parts)
      end
  end.
End frames.

(** ** Well-formed frames *)

(** What the type [Frame] promises to its readers. *)
Definition frame_ok (f : Frame) : Prop :=
  fr_kind f ∈ [2; 3; 4] ∧ fr_message_id f ≠ "" ∧ text_len (fr_message_id f) ≤ 36 ∧
  (fr_action f ≠ "" ↔ fr_kind f = 2) ∧ (fr_error_code f ≠ "" ↔ fr_kind f = 4) ∧
  (fr_description f ≠ "" → fr_kind f = 4) ∧ NoDup (fr_payload f).*1.

Ltac frame_goals := split_and!; try done; unfold frame_ok; simpl; split_and!; try done; try set_solver; auto.

Lemma frame_fields_ok uid fields f :
  uid ≠ "" → text_len uid ≤ 36 → Forall tidy fields → frame_fields uid fields = inr f →
  frame_ok f ∧ fr_message_id f = uid ∧ tidy (JObj (fr_payload f)).
Proof.
  intros Hu Hl Ht H. unfold frame_fields in H.
  assert (∀ payload, tidy (JObj payload) → NoDup payload.*1) as Hp by (intros payload [? _]%tidy_obj; done).
  destruct fields as [|a [|b [|c [|d fields]]]]; try done.
  - apply Forall_cons in Ht as [Ha _]. destruct a; try done. injection H as <-. frame_goals.
  - apply Forall_cons in Ht as [_ Ht]. apply Forall_cons in Ht as [Hb _]. destruct a as [| | | |s| | |]; try done. case_bool_decide; [done|].
    destruct b; try done. injection H as <-. frame_goals.
  - apply Forall_cons in Ht as [_ Ht]. apply Forall_cons in Ht as [_ Ht]. apply Forall_cons in Ht as [Hc _].
    destruct a as [| | | |s| | |]; try done. destruct b as [| | | |s'| | |]; try done. case_bool_decide; [done|].
    destruct c; try done. injection H as <-. frame_goals.
Qed.

Lemma text_take_len n s : text_len (text_take n s) ≤ Z.of_nat n.
Proof.
  unfold text_len, text_take. rewrite chars_of_chars. apply inj_le. generalize (chars s). clear s. intros l. revert n.
  induction l as [|c l IH]; intros n; simpl; [lia|]. destruct (continues c) eqn:E.
  - rewrite filter_cons_False by (by rewrite E). apply IH.
  - destruct n as [|n]; simpl; [lia|]. rewrite filter_cons_True by done. simpl. specialize (IH n). lia.
Qed.

(** C20. Whatever text a charger sends, [decode_frame] returns a frame of its type
    (kind 2, 3 or 4, an identifier of 1 to 36 characters, an action exactly on
    calls, an error code exactly on errors, a payload with no key twice at any
    depth) or one of the two protocol errors; the identifier is the one in the
    text, and a refused over-long one is cut to 36 characters. *)
Theorem decode_frame_typed depth raw :
  match decode_frame depth raw with
  | inr f => frame_ok f ∧ tidy (JObj (fr_payload f)) ∧ ∃ v, loads depth raw = Some v ∧ frame_uid v = fr_message_id f
  | inl e => fe_code e ∈ ["FormationViolation"; "TypeConstraintViolation"] ∧
      ∀ v, loads depth raw = Some v →
        fe_message_id e = frame_uid v ∨ (fe_message_id e = text_take 36 (frame_uid v) ∧ text_len (fe_message_id e) ≤ 36)
  end.
Proof.
  unfold decode_frame. destruct (loads depth raw) as [v|] eqn:Ev; [|split; [set_solver|done]].
  destruct (frame_kind v) as [[kind parts]|] eqn:Ek; [|split; [set_solver|]; intros ? [= <-]; by left].
  destruct (bool_decide (frame_uid v = "") || (36 <? text_len (frame_uid v))) eqn:Eu.
  { split; [set_solver|]. intros ? [= <-]. right. split; [done|]. apply (text_take_len 36). }
  apply orb_false_iff in Eu as [Hu%bool_decide_eq_false Hl%Z.ltb_ge].
  destruct (negb _); [split; [set_solver|]; intros ? [= <-]; by left|].
  assert (Forall tidy (tail parts)) as Ht.
  { apply loads_tidy in Ev. unfold frame_kind in Ek. destruct v as [| | | | |[|[] l]| |]; try done. apply tidy_list in Ev.
    apply Forall_cons in Ev as [_ Ev]. case_bool_decide; [|done]. injection Ek as _ <-. destruct l; [done|]. by inversion Ev. }
  destruct (frame_fields (frame_uid v) (tail parts)) as [e|f] eqn:Ef.
  - assert (fe_code e = "TypeConstraintViolation" ∧ fe_message_id e = frame_uid v) as [-> ->].
    { unfold frame_fields in Ef. by repeat (case_match; simplify_eq/=). }
    split; [set_solver|]. intros ? [= <-]. by left.
  - destruct (frame_fields_ok _ _ _ Hu Hl Ht Ef) as (H1 & H2 & H3). split_and!; try done. by exists v.
Qed.

(** C19. Frames survive the wire: a well-formed frame without floats is written to
    a text that is read back as the very same frame, whatever characters its
    strings hold, wherever the interpreter allows two levels more than the
    payload nests. *)
Theorem frame_round_trip depth float_repr f raw :
  frame_ok f → exact (JObj (fr_payload f)) → (S (nest (JObj (fr_payload f))) ≤ depth)%nat →
  encode_frame float_repr f = Some raw → decode_frame depth raw = inr f.
Proof.
  intros (Hk & Hu & Hl & Ha & He & Hd & _) Hx Hn Hr. unfold encode_frame in Hr. apply fmap_Some in Hr as (t & Ht & ->).
  assert (exact (frame_value f)) as Hv.
  { unfold frame_value. destruct (_ =? _); [|destruct (_ =? _)]; apply exact_list; repeat constructor; apply Hx. }
  assert (nest (frame_value f) = S (nest (JObj (fr_payload f)))) as Hnest.
  { unfold frame_value. destruct (_ =? _); [|destruct (_ =? _)]; simpl; lia. }
  unfold decode_frame. rewrite (loads_dumps float_repr (frame_value f) t depth Hv ltac:(lia) Ht).
  assert (frame_uid (frame_value f) = fr_message_id f) as ->.
  { unfold frame_value. by destruct (_ =? _); [|destruct (_ =? _)]. }
  rewrite bool_decide_false by done. destruct (Z.ltb_spec 36 (text_len (fr_message_id f))); [lia|]. simpl.
  destruct f as [k m p a c d]. unfold frame_value, frame_kind. simpl in *.
  apply elem_of_cons in Hk as [->|Hk]; [|apply elem_of_cons in Hk as [->|Hk]; [|apply elem_of_cons in Hk as [->|Hk]; [|by apply elem_of_nil in Hk]]]; simpl.
  - rewrite bool_decide_false by tauto. assert (c = "" ∧ d = "") as [-> ->]; [|done].
    split; apply dec_stable; [intros ?%He|intros ?%Hd]; done.
  - assert (a = "" ∧ c = "" ∧ d = "") as (-> & -> & ->); [|done].
    split_and!; apply dec_stable; [intros ?%Ha|intros ?%He|intros ?%Hd]; done.
  - rewrite bool_decide_false by tauto. assert (a = "") as ->; [|done]. apply dec_stable. by intros ?%Ha.
Qed.

(** *** A start, as a charger sends it *)

Definition demo_frame : Frame :=
  call_frame "7f-1" "StartTransaction" [("connectorId", JInt 1); ("idTag", JStr (of_chars [dquote; backslash; chr 10; chr 195; chr 169]));
    ("meterStart", JInt (-40)); ("list", JList [JNull; JBool true; JObj []])].

Lemma frame_round_trip_witness :
  ∃ raw, encode_frame (λ _ _, "") demo_frame = Some raw ∧ decode_frame 990 raw = inr demo_frame ∧ String.length raw = 105%nat.
Proof.
  destruct (encode_frame (λ _ _, "") demo_frame) as [raw|] eqn:E; [|by vm_compute in E].
  exists raw. split; [done|]. split; [|vm_compute in E; injection E as <-; vm_compute; reflexivity].
  apply (frame_round_trip 990 (λ _ _, "") demo_frame raw).
  - split_and!; simpl; try done; try set_solver; try lia. repeat (apply NoDup_cons; split; [set_solver|]). apply NoDup_nil_2.
  - apply exact_obj. split; [repeat (apply NoDup_cons; split; [set_solver|]); apply NoDup_nil_2|]. repeat constructor.
  - simpl. lia.
  - exact E.
Defined.
