(* ===== verification/Metering.v ===== *)
(** * Metering: meter samples, the end of a transaction and its recovery

    Models the handlers of [src/src/modules/charging/service.py] for
    [MeterValues] and [StopTransaction], and all of [charging/recovery.py].
    Readings are integers of millionths; the numbers and times in the details of
    an event are kept as integers. [MeterValues] rows are inserted by the
    dispatcher after the handler returns, in the same transaction. *)

From S2P Require Import Prelude Segmentation Text Store AuditTrail Wallet Pricing Invoicing InvoiceSpec Notifications Closure Occupation Monitoring MeterUnits.

(** ** Payloads *)

Record MeterBlock := mkBlock { mb_timestamp : Z; mb_sampled : list SamplePayload }.

Record MeterPayload := mkMeterPayload {
  mp_connector_id : Z; mp_transaction_id : option Z; mp_values : list MeterBlock
}.

Record StopPayload := mkStopPayload {
  so_transaction_id : Z; so_meter_stop : Z; so_timestamp : Z; so_reason : string;
  so_data : list MeterBlock
}.

(** An incoming call ([ocpp/frames.py], kind 2). *)
Record Call := mkCall { ca_message_id : string; ca_action : string; ca_payload : list (string * Json) }.

(** ** Series *)

(** A series is a measurand, a phase and a location. *)
Abbreviation Key := (string * string * string)%type.
Definition energy_key : Key := (energy_register, "", "Outlet").
Definition key_of (m : MeterSample) : Key := (ms_measurand m, ms_phase m, ms_location m).
Definition sample_key (s : SamplePayload) : Key := (sv_measurand s, sv_phase s, sv_location s).

Definition samples_of (session_id : Z) (db : Db) : list MeterSample :=
  filter (λ m, ms_session_id m = session_id) (meter_samples db).

(** The newest point of each series. *)
Definition newer (acc : gmap Key (Z * Z)) (m : MeterSample) : gmap Key (Z * Z) :=
  match acc !! key_of m with
  | Some (t, _) => if t <? ms_timestamp m then <[key_of m := (ms_timestamp m, ms_value_u m)]> acc else acc
  | None => <[key_of m := (ms_timestamp m, ms_value_u m)]> acc
  end.
Definition latest_points (l : list MeterSample) : gmap Key (Z * Z) := foldl newer ∅ l.

(** Every point of each series. *)
Abbreviation Points := (gmap Key (gmap Z Z)).
Definition points_of (h : Points) (k : Key) : gmap Z Z := default ∅ (h !! k).
Definition add_point (h : Points) (k : Key) (t v : Z) : Points := <[k := <[t := v]> (points_of h k)]> h.
Definition history_points (l : list MeterSample) : Points :=
  foldl (λ h m, add_point h (key_of m) (ms_timestamp m) (ms_value_u m)) ∅ l.

(** ** Ingestion *)

(** [review] *)
Definition review (reason : string) (reasons : list string) : list string :=
  if decide (reason ∈ reasons) then reasons else reasons ++ [reason].

(** A row before the database gives it an id. *)
Definition new_row (session_id stamp : Z) (s : SamplePayload) (value : Z) (unit : string) : MeterSample :=
  mkSample 0 session_id stamp (sv_measurand s) (sv_phase s) (sv_location s) value unit.

Record Live := mkLive { lv_reasons : list string; lv_latest : gmap Key (Z * Z); lv_rows : list MeterSample }.

(** One sample of a running transaction. *)
Definition live_sample (c : ChargingSession) (stamp : Z) (a : Live) (s : SamplePayload) : Exn + Live :=
  numeric ← numeric_sample s;
  match numeric with
  | None => mret a
  | Some (value, unit) =>
      let key := sample_key s in
      let old := match lv_latest a !! key with
                 | Some o => Some o
                 | None => if decide (key = energy_key) then Some (cs_started_at c, cs_meter_start_uwh c) else None
                 end in
      let keep reasons :=
        if stamp <? cs_started_at c then mkLive reasons (lv_latest a) (lv_rows a)
        else mkLive reasons (<[key := (stamp, value)]> (lv_latest a))
               (lv_rows a ++ [new_row (cs_id c) stamp s value unit]) in
      mret (match old with
            | None => keep (lv_reasons a)
            | Some (t, v) =>
                if stamp <? t then a
                else if stamp =? t then
                  mkLive (if value =? v then lv_reasons a else review "conflicting_meter_timestamp" (lv_reasons a))
                    (lv_latest a) (lv_rows a)
                else keep (if bool_decide (sv_measurand s = energy_register) && (value <? v)
                           then review "meter_regression" (lv_reasons a) else lv_reasons a)
            end)
  end.

Fixpoint fold_samples {S} (step : S → SamplePayload → Exn + S) (a : S) (l : list SamplePayload) : Exn + S :=
  match l with
  | [] => mret a
  | s :: rest => a' ← step a s; fold_samples step a' rest
  end.

Fixpoint live_blocks (c : ChargingSession) (a : Live) (blocks : list MeterBlock) : Exn + Live :=
  match blocks with
  | [] => mret a
  | b :: rest => a' ← fold_samples (live_sample c (mb_timestamp b)) a (mb_sampled b); live_blocks c a' rest
  end.

Record Backfill := mkBackfill { bf_reasons : list string; bf_points : Points; bf_rows : list MeterSample }.

(** The points around an instant. *)
Definition before_point (t : Z) (points : gmap Z Z) : option Z :=
  snd <$> last (sort_by fst (filter (λ p, p.1 < t) (map_to_list points))).
Definition after_point (t : Z) (points : gmap Z Z) : option Z :=
  snd <$> head (sort_by fst (filter (λ p, t < p.1) (map_to_list points))).

(** One sample buffered while the charger was offline. *)
Definition backfill_sample (c : ChargingSession) (stamp : Z) (a : Backfill) (s : SamplePayload) : Exn + Backfill :=
  numeric ← numeric_sample s;
  match numeric with
  | None => mret a
  | Some (value, unit) =>
      let key := sample_key s in
      let points := points_of (bf_points a) key in
      mret (match points !! stamp with
            | Some v =>
                mkBackfill (if v =? value then bf_reasons a else review "conflicting_meter_timestamp" (bf_reasons a))
                  (bf_points a) (bf_rows a)
            | None =>
                let previous := match before_point stamp points with
                                | Some v => Some v
                                | None => if decide (key = energy_key) then Some (cs_meter_start_uwh c) else None
                                end in
                let regression :=
                  bool_decide (sv_measurand s = energy_register) &&
                  (match previous with Some v => value <? v | None => false end ||
                   match after_point stamp points with Some v => v <? value | None => false end) in
                mkBackfill (if regression then review "meter_regression" (bf_reasons a) else bf_reasons a)
                  (add_point (bf_points a) key stamp value)
                  (bf_rows a ++ [new_row (cs_id c) stamp s value unit])
            end)
  end.

Definition in_session (c : ChargingSession) (b : MeterBlock) : bool :=
  negb ((mb_timestamp b <? cs_started_at c) ||
        match cs_ended_at c with Some e => e <? mb_timestamp b | None => false end).

Fixpoint backfill_blocks (c : ChargingSession) (a : Backfill) (blocks : list MeterBlock) : Exn + Backfill :=
  match blocks with
  | [] => mret a
  | b :: rest =>
      a' ← (if in_session c b then fold_samples (backfill_sample c (mb_timestamp b)) a (mb_sampled b) else mret a);
      backfill_blocks c a' rest
  end.

(** The rows of the samples, the review reasons being written to the session;
    [known] are the stored samples the points are taken from. *)
Definition store_recovery_samples (session_id : Z) (blocks : list MeterBlock) (known : list MeterSample)
  : Tx (list MeterSample) :=
  c ← session_row session_id;
  a ← lift (backfill_blocks c (mkBackfill (cs_review_reasons c) (history_points known) [])
              (sort_by mb_timestamp blocks));
  update_session session_id (set_cs_review_reasons (bf_reasons a));;
  mret (bf_rows a).

Definition store_samples (session_id : Z) (blocks : list MeterBlock) (backfill : bool) (known : list MeterSample)
  : Tx (list MeterSample) :=
  if backfill then store_recovery_samples session_id blocks known
  else
    c ← session_row session_id;
    a ← lift (live_blocks c (mkLive (cs_review_reasons c) (latest_points known) []) blocks);
    update_session session_id (set_cs_review_reasons (lv_reasons a));;
    mret (lv_rows a).

Definition with_id (id : Z) (m : MeterSample) : MeterSample :=
  mkSample id (ms_session_id m) (ms_timestamp m) (ms_measurand m) (ms_phase m) (ms_location m)
    (ms_value_u m) (ms_unit m).

(** [Numeric(24, 6)] holds fewer than 18 digits before the point. *)
Definition fits_numeric (v : Z) : bool := (- 10 ^ 24 <? v) && (v <? 10 ^ 24).

Definition insert_meter_rows (rows : list MeterSample) : Tx () :=
  raise_if (negb (forallb (λ m, fits_numeric (ms_value_u m)) rows)) DataError;;
  for_each rows (λ m,
    id ← fresh_id; modify (λ db, set_meter_samples (meter_samples db ++ [with_id id m]) db)).

(** ** Handlers *)

(** The identifying tag is never stored. *)
Definition pending (charger_id : Z) (call : Call) (reason : string) : Tx () :=
  id ← fresh_id;
  modify (λ db, set_pending_messages (pending_messages db ++
    [mkPending id charger_id (ca_action call) (ca_message_id call) reason
       (filter (λ p, p.1 ≠ "idTag") (ca_payload call)) (db_now db)]) db).

Definition on_connector (number : Z) (db : Db) (c : ChargingSession) : bool :=
  match connectors db !! cs_connector_id c with
  | Some cn => cn_connector_number cn =? number
  | None => false
  end.

(** The sessions of [meter_query], oldest first. *)
Definition meter_sessions (charger_id : Z) (p : MeterPayload) (db : Db) : list ChargingSession :=
  sort_by cs_id (filter (λ c,
    (cs_charge_point_id c =? charger_id) && on_connector (mp_connector_id p) db c &&
    match mp_transaction_id p with
    | Some t => cs_id c =? t
    | None => bool_decide (cs_ended_at c = None)
    end = true) (rows (charging_sessions db))).

Definition accepts_samples (c : ChargingSession) : bool :=
  bool_decide (cs_manual_closed_at c = None) &&
  (bool_decide (cs_ended_at c = None) || bool_decide (is_Some (cs_recovery_at c))).

(** The rows to insert with the reply. *)
Definition meter_values (charger_id : Z) (call : Call) (p : MeterPayload) : Tx (list MeterSample) :=
  sessions ← gets (meter_sessions charger_id p);
  match sessions with
  | transaction :: _ =>
      if accepts_samples transaction then
        known ← gets (λ db, filter (λ m, ms_session_id m ∈ cs_id <$> sessions) (meter_samples db));
        store_samples (cs_id transaction) (mp_values p)
          (bool_decide (is_Some (mp_transaction_id p)) && bool_decide (is_Some (cs_recovery_at transaction))) known
      else pending charger_id call "no_matching_open_session";; mret []
  | [] => pending charger_id call "no_matching_open_session";; mret []
  end.

(** The handler with the insert the dispatcher adds. *)
Definition meter_call (charger_id : Z) (call : Call) (p : MeterPayload) : Tx () :=
  rows ← meter_values charger_id call p; insert_meter_rows rows.

(** The newest energy reading between the start and an instant. *)
Definition latest_energy (c : ChargingSession) (until : Z) (db : Db) : option Z :=
  ms_value_u <$> last (sort_by ms_timestamp
    (filter (λ m, ms_session_id m = cs_id c ∧ key_of m = energy_key ∧ ms_unit m = "Wh" ∧
      cs_started_at c ≤ ms_timestamp m ∧ ms_timestamp m ≤ until) (meter_samples db))).

Definition set_review (f : list string → list string) (c : ChargingSession) : ChargingSession :=
  set_cs_review_reasons (f (cs_review_reasons c)) c.

Definition forget_reasons (l reasons : list string) : list string := filter (λ r, r ∉ l) reasons.

Definition micro : Z := 1000000.

Section handlers.
Context {dep : Deployment}.

(** The session columns [StopTransaction] decides after the samples. *)
Definition stopped (p : StopPayload) (latest : option Z) (c : ChargingSession) : ChargingSession :=
  let stop := so_meter_stop p * micro in
  let c := match latest with
           | Some v => if stop <? v then set_review (review "stop_meter_below_latest") c else c
           | None => c
           end in
  let c := set_review (forget_reasons ["offline_timeout"; "available_with_open_session"; "remote_stop_not_confirmed"])
             (set_cs_abnormal_since None c) in
  let c := if so_timestamp p <? cs_started_at c then set_review (review "stop_before_start") c else c in
  if (stop <? cs_meter_start_uwh c) || (so_meter_stop p <? 0) || (cs_meter_start_uwh c <? 0)
  then set_cs_energy_uwh None (set_review (review "stop_meter_below_start") c)
  else if cs_started_at c <=? so_timestamp p then set_cs_energy_uwh (Some (stop - cs_meter_start_uwh c)) c
  else c.

Definition stop_transaction (charger_id : Z) (call : Call) (p : StopPayload) : Tx () :=
  let tid := so_transaction_id p in
  t ← gets (λ db, charging_sessions db !! tid);
  match t with
  | Some c =>
      if negb (cs_charge_point_id c =? charger_id) then pending charger_id call "unknown_transaction"
      else if bool_decide (is_Some (cs_ended_at c)) then pending charger_id call "already_closed_transaction"
      else
        update_session tid (λ c, set_cs_stop_reason (Some (so_reason p))
          (set_cs_ended_at (Some (so_timestamp p)) (set_cs_meter_stop_uwh (Some (so_meter_stop p * micro)) c)));;
        known ← gets (samples_of tid);
        rows ← store_samples tid (so_data p) (bool_decide (is_Some (cs_recovery_at c))) known;
        insert_meter_rows rows;;
        row ← session_row tid;
        latest ← gets (latest_energy row (so_timestamp p));
        update_session tid (stopped p latest);;
        when (bool_decide (is_Some (cs_abnormal_since c)) || bool_decide (is_Some (cs_recovery_at c)))
          (add_event tid "late_stop" None
             [("meter_stop_wh", JInt (so_meter_stop p)); ("ended_at", JInt (so_timestamp p))];; mret ());;
        note_stop tid;;
        final ← session_row tid;
        notify_event final notify_stop None None None
  | None => pending charger_id call "unknown_transaction"
  end.

(** ** Recovery *)

Definition open_sessions (P : ChargingSession → bool) (db : Db) : list ChargingSession :=
  filter (λ c, bool_decide (cs_ended_at c = None) && P c = true) (rows (charging_sessions db)).

Definition note_reconnection (charger_id : Z) : Tx () :=
  now ← gets db_now;
  l ← gets (open_sessions (λ c, cs_charge_point_id c =? charger_id));
  for_each l (λ c, update_session (cs_id c) (set_cs_recovery_at (Some now));;
    add_event (cs_id c) "reconnected" None [];; mret ()).

Definition note_connector_status (charger_id number : Z) (status : string) : Tx () :=
  if (number =? 0) || negb (bool_decide (status ∈ ["Available"; "Charging"])) then mret ()
  else
    l ← gets (λ db, open_sessions (λ c, (cs_charge_point_id c =? charger_id) && on_connector number db c) db);
    match l with
    | [] => mret ()
    | c :: _ =>
        let flagged := bool_decide ("available_with_open_session" ∈ cs_review_reasons c) in
        if bool_decide (status = "Available") && negb flagged then
          update_session (cs_id c) (set_review (review "available_with_open_session"));;
          add_event (cs_id c) "available_with_open_session" None [];; mret ()
        else if bool_decide (status = "Charging") && flagged then
          update_session (cs_id c) (set_review (forget_reasons ["available_with_open_session"]));;
          add_event (cs_id c) "charging_resumed" None [];; mret ()
        else mret ()
    end.

Definition offline_at (cp : ChargePoint) (c : ChargingSession) : Z :=
  Z.max (default (cs_received_at c) (cp_last_seen_at cp)) (cs_received_at c) +
  2 * cp_heartbeat_interval_seconds cp * micro.

Definition flag_abnormal (now : Z) (cp : ChargePoint) (c : ChargingSession) : Tx () :=
  if now - offline_at cp c <? charging_abnormal_offline_seconds * micro then mret ()
  else
    update_session (cs_id c) (λ c, set_review (review "offline_timeout") (set_cs_abnormal_since (Some now) c));;
    add_event (cs_id c) "offline_timeout" None [("offline_at", JInt (offline_at cp c))];; mret ().

(** [skip_locked]: busy chargers wait for the next scan. *)
Definition flag_abnormal_sessions (locked : Z → bool) (now : option Z) : Tx () :=
  clock ← gets db_now;
  let now := default clock now in
  chargers ← gets (λ db, filter (λ cp, expired now cp && negb (locked (cp_id cp)) = true) (rows (charge_points db)));
  for_each chargers (λ cp,
    l ← gets (open_sessions (λ c, (cs_charge_point_id c =? cp_id cp) && bool_decide (cs_abnormal_since c = None)));
    for_each l (flag_abnormal now cp)).

(** The newest energy reading of a session. *)
Definition last_energy_sample (session_id : Z) (db : Db) : option MeterSample :=
  last (sort_by ms_timestamp (filter (λ m, key_of m = energy_key) (samples_of session_id db))).

(** [energy_kwh] has six decimals: the database rounds to a thousandth of a
    watt-hour, half away from zero. *)
Definition stored_kwh (uwh : Z) : Z :=
  let a := (2 * Z.abs uwh + 1000) / 2000 in Z.sgn uwh * a * 1000.

Definition closed_by_hand (now actor value : Z) (reason : string) (c : ChargingSession) : ChargingSession :=
  set_review (λ l, review "manual_closure" (forget_reasons ["offline_timeout"; "available_with_open_session"] l))
    (set_cs_abnormal_since None (set_cs_stop_reason (Some "ManualClosure")
      (set_cs_manual_close_reason (Some reason) (set_cs_closed_by (Some actor) (set_cs_manual_closed_at (Some now)
        (set_cs_ended_at (Some now) (set_cs_energy_uwh (Some (stored_kwh (value - cs_meter_start_uwh c)))
          (set_cs_meter_stop_uwh (Some value) c)))))))).

Definition manual_close (session_id actor : Z) (reason : string) (authorization : option Evidence) : Tx () :=
  c ← session_row session_id;
  raise_if (bool_decide (is_Some (cs_ended_at c)) || bool_decide (cs_abnormal_since c = None)) (HTTPException 409);;
  l ← gets (last_energy_sample session_id);
  latest ← some_or l (HTTPException 409);
  raise_if ((ms_value_u latest <? cs_meter_start_uwh c) || (cs_meter_start_uwh c <? 0)) (HTTPException 409);;
  now ← gets db_now;
  raise_if ((now <? ms_timestamp latest) || (now <? cs_started_at c)) (HTTPException 409);;
  savepoint (
    update_session session_id (closed_by_hand now actor (ms_value_u latest) reason);;
    event ← add_event session_id "manual_closure" (Some actor)
      [("permission", match authorization with Some e => JStr (ev_permission e) | None => JNull end);
       ("actor_roles", match authorization with Some e => JList (JStr <$> ev_roles e) | None => JNull end);
       ("reason", JStr reason); ("meter_stop_wh", JInt (ms_value_u latest)); ("meter_at", JInt (ms_timestamp latest));
       ("energy_kwh", JInt (ms_value_u latest - cs_meter_start_uwh c))];
    ghi_nhat_ky (Some actor) "charging.manual_close" "charging_session" (str_int session_id)
      [("event_id", JStr (uuid_str event))] (ev_permission <$> authorization) (ev_roles <$> authorization);;
    mret ()).
End handlers.
