(* ===== verification/MeteringSpec.v ===== *)
(** * MeteringSpec: what the stored readings of a session satisfy

    The readings of the energy register that an invoice is computed from: their
    times are distinct and not before the start, and they never decrease unless
    the session is flagged for review. Every handler of [Metering] keeps this,
    and a transaction that stops without a review reason has readings an invoice
    accepts. *)

From S2P Require Import Prelude Segmentation Text Store AuditTrail Wallet Pricing Invoicing InvoiceSpec Notifications Closure Occupation Monitoring MeterUnits Metering.

(** ** The trace of the energy register *)

Record Reading := mkReading { rd_time : Z; rd_unit : string; rd_value : Z }.

Definition reading (m : MeterSample) : Reading := mkReading (ms_timestamp m) (ms_unit m) (ms_value_u m).

Definition trace (l : list MeterSample) : list Reading := reading <$> filter (λ m, key_of m = energy_key) l.

Lemma trace_app l1 l2 : trace (l1 ++ l2) = trace l1 ++ trace l2.
Proof. unfold trace. by rewrite filter_app, fmap_app. Qed.

Lemma trace_cons m l : trace (m :: l) = trace [m] ++ trace l.
Proof. apply (trace_app [m]). Qed.

Lemma trace_with_id id m : trace [with_id id m] = trace [m].
Proof.
  unfold trace. rewrite !filter_cons, !filter_nil. change (key_of (with_id id m)) with (key_of m). by case_decide.
Qed.

Lemma trace_snoc l m :
  trace (l ++ [m]) = trace l ++ (if decide (key_of m = energy_key) then [reading m] else []).
Proof. rewrite trace_app. f_equal. unfold trace. rewrite filter_cons, filter_nil. by case_decide. Qed.

Lemma elem_of_trace r l : r ∈ trace l ↔ ∃ m, m ∈ l ∧ key_of m = energy_key ∧ r = reading m.
Proof.
  unfold trace. rewrite list_elem_of_fmap. split.
  - intros (m & -> & [? ?]%list_elem_of_filter). eauto.
  - intros (m & ? & ? & ->). exists m. split; [done|]. by apply list_elem_of_filter.
Qed.

Definition regressed (reasons : list string) : Prop := "meter_regression" ∈ reasons.

(** Sound readings of a session that started at [t0] with [v0] on the register. *)
Record series_ok (t0 v0 : Z) (reasons : list string) (l : list Reading) : Prop := mkSeriesOk {
  series_start : ∀ r, r ∈ l → t0 ≤ rd_time r ∧ rd_unit r = "Wh";
  series_distinct : NoDup (rd_time <$> l);
  series_mono : ¬ regressed reasons → ∀ a b, a ∈ l → b ∈ l → rd_time a ≤ rd_time b → rd_value a ≤ rd_value b;
  series_above : ¬ regressed reasons → ∀ r, r ∈ l → v0 ≤ rd_value r;
}.

Lemma series_ok_more t0 v0 l1 l2 tr :
  series_ok t0 v0 l1 tr → (regressed l1 → regressed l2) → series_ok t0 v0 l2 tr.
Proof. intros [H1 H2 H3 H4] Hr. split; naive_solver. Qed.

Lemma series_nil t0 v0 reasons : series_ok t0 v0 reasons [].
Proof. split; try set_solver. constructor. Qed.

(** One more reading at a new time. *)
Lemma series_snoc t0 v0 reasons l r :
  series_ok t0 v0 reasons l → t0 ≤ rd_time r → rd_unit r = "Wh" → (∀ a, a ∈ l → rd_time a ≠ rd_time r) →
  (¬ regressed reasons →
     v0 ≤ rd_value r ∧ (∀ a, a ∈ l → rd_time a ≤ rd_time r → rd_value a ≤ rd_value r) ∧
     (∀ a, a ∈ l → rd_time r ≤ rd_time a → rd_value r ≤ rd_value a)) →
  series_ok t0 v0 reasons (l ++ [r]).
Proof.
  intros [H1 H2 H3 H4] Ht Hu Hnew Hv. split.
  - intros a [Ha| ->%list_elem_of_singleton]%elem_of_app; [auto|done].
  - rewrite fmap_app. apply NoDup_app. split; [done|]. split; [|apply NoDup_singleton].
    intros x (a & -> & Ha)%list_elem_of_fmap Hx%list_elem_of_singleton. by apply (Hnew a).
  - intros Hr a b [Ha| ->%list_elem_of_singleton]%elem_of_app [Hb| ->%list_elem_of_singleton]%elem_of_app Hab;
      destruct (Hv Hr) as (? & ? & ?); [by apply H3|auto|auto|done].
  - intros Hr a [Ha| ->%list_elem_of_singleton]%elem_of_app; [auto|by apply Hv].
Qed.

Lemma review_in x reasons y : y ∈ review x reasons ↔ y ∈ reasons ∨ y = x.
Proof. unfold review. case_decide; set_solver. Qed.

(** ** The newest point and all points *)

Lemma latest_points_spec l k :
  match latest_points l !! k with
  | None => ∀ m, m ∈ l → key_of m ≠ k
  | Some (t, v) =>
      (∃ m, m ∈ l ∧ key_of m = k ∧ ms_timestamp m = t ∧ ms_value_u m = v) ∧
      ∀ m, m ∈ l → key_of m = k → ms_timestamp m ≤ t
  end.
Proof.
  unfold latest_points. induction l as [|x l IH] using rev_ind; [set_solver|]. rewrite foldl_snoc.
  set (acc := foldl newer ∅ l) in *. unfold newer.
  destruct (decide (key_of x = k)) as [<-|Hk].
  - destruct (acc !! key_of x) as [[t v]|] eqn:E.
    + destruct IH as [(m & Hm & ? & ? & ?) Hmax]. destruct (Z.ltb_spec t (ms_timestamp x)).
      * rewrite lookup_insert_eq. split; [exists x; split; [set_solver|done]|].
        intros y [Hy| ->%list_elem_of_singleton]%elem_of_app Hky; [specialize (Hmax y Hy Hky)|]; lia.
      * rewrite E. split; [exists m; split; [set_solver|done]|].
        intros y [Hy| ->%list_elem_of_singleton]%elem_of_app Hky; [auto|lia].
    + rewrite lookup_insert_eq. split; [exists x; split; [set_solver|done]|].
      intros y [Hy| ->%list_elem_of_singleton]%elem_of_app Hky; [by destruct (IH y Hy)|lia].
  - assert ((match acc !! key_of x with
             | Some (t, _) => if t <? ms_timestamp x then <[key_of x:=(ms_timestamp x, ms_value_u x)]> acc else acc
             | None => <[key_of x:=(ms_timestamp x, ms_value_u x)]> acc end) !! k = acc !! k) as ->.
    { repeat case_match; try done; by rewrite lookup_insert_ne. }
    destruct (acc !! k) as [[t v]|].
    + destruct IH as [(m & Hm & ? & ? & ?) Hmax]. split; [exists m; split; [set_solver|done]|].
      intros y [Hy| ->%list_elem_of_singleton]%elem_of_app Hky; [auto|done].
    + intros y [Hy| ->%list_elem_of_singleton]%elem_of_app; [auto|done].
Qed.

Lemma points_of_add h k k' t v :
  points_of (add_point h k t v) k' = if decide (k' = k) then <[t := v]> (points_of h k) else points_of h k'.
Proof.
  unfold points_of, add_point. case_decide as Hk; [subst|by rewrite lookup_insert_ne].
  by rewrite lookup_insert_eq.
Qed.

(** The points of the energy register are the readings of its trace. *)
Definition agree (h : Points) (l : list Reading) : Prop :=
  ∀ t v, points_of h energy_key !! t = Some v ↔ ∃ r, r ∈ l ∧ rd_time r = t ∧ rd_value r = v.

Lemma agree_snoc h l t v u :
  agree h l → points_of h energy_key !! t = None → agree (add_point h energy_key t v) (l ++ [mkReading t u v]).
Proof.
  intros Ha Hn t' v'. rewrite points_of_add, decide_True by done. split.
  - intros [[-> ->]|[Hne [r (? & ? & ?)]%Ha]]%lookup_insert_Some; [exists (mkReading t' u v'); set_solver|].
    exists r. set_solver.
  - intros (r & [Hr| ->%list_elem_of_singleton]%elem_of_app & <- & <-); [|by rewrite lookup_insert_eq].
    assert (points_of h energy_key !! rd_time r = Some (rd_value r)) as Hold by (apply Ha; eauto).
    rewrite lookup_insert_ne; [done|]. intros ->. congruence.
Qed.

Lemma history_points_spec l : NoDup (rd_time <$> trace l) → agree (history_points l) (trace l).
Proof.
  unfold history_points. induction l as [|m l IH] using rev_ind.
  { intros _ t v. unfold trace, points_of. simpl. rewrite lookup_empty. set_solver. }
  rewrite foldl_snoc, trace_snoc. set (h := foldl _ ∅ l) in *. case_decide as Hk.
  - rewrite fmap_app. intros (Hnd & Hdis & _)%NoDup_app. rewrite Hk. apply agree_snoc; [by apply IH|].
    destruct (points_of h energy_key !! ms_timestamp m) eqn:E; [|done].
    apply (IH Hnd) in E as (r & Hr & Ht & _). exfalso. apply (Hdis (rd_time r)); [by apply list_elem_of_fmap_2|].
    rewrite Ht. set_solver.
  - rewrite app_nil_r. intros Hnd t v. rewrite points_of_add, decide_False by done. by apply IH.
Qed.

Lemma before_point_spec t p :
  match before_point t p with
  | None => ∀ t' v, p !! t' = Some v → t ≤ t'
  | Some v => ∃ t', p !! t' = Some v ∧ t' < t ∧ ∀ s w, p !! s = Some w → s < t → s ≤ t'
  end.
Proof.
  unfold before_point. set (l := sort_by fst (filter (λ q, q.1 < t) (map_to_list p))).
  assert (∀ s w, (s, w) ∈ l ↔ p !! s = Some w ∧ s < t) as Hl.
  { intros s w. unfold l. rewrite elem_of_sort_by, list_elem_of_filter, elem_of_map_to_list. simpl. tauto. }
  destruct (last l) as [[t' v]|] eqn:E; simpl.
  - pose proof (last_Some_elem_of _ _ E) as [Hp Hlt]%Hl. exists t'. split; [done|]. split; [done|].
    intros s w Hs Hst. pose proof (sort_by_sorted fst (filter (λ q, q.1 < t) (map_to_list p))) as Hsort. fold l in Hsort.
    assert ((s, w) ∈ l) as Hin by (by apply Hl). apply last_Some in E as [l' E]. rewrite E in Hsort, Hin.
    apply StronglySorted_app in Hsort as (Hx & _ & _).
    apply elem_of_app in Hin as [Hin|Hin%list_elem_of_singleton]; [|injection Hin as -> ->; lia].
    by apply (Hx (s, w) (t', v) Hin); apply list_elem_of_singleton.
  - apply last_None in E. intros t' v Hp. destruct (Z.le_gt_cases t t'); [done|].
    assert ((t', v) ∈ l) as Hin by (by apply Hl). rewrite E in Hin. by apply elem_of_nil in Hin.
Qed.

Lemma after_point_spec t p :
  match after_point t p with
  | None => ∀ t' v, p !! t' = Some v → t' ≤ t
  | Some v => ∃ t', p !! t' = Some v ∧ t < t' ∧ ∀ s w, p !! s = Some w → t < s → t' ≤ s
  end.
Proof.
  unfold after_point. set (l := sort_by fst (filter (λ q, t < q.1) (map_to_list p))).
  assert (∀ s w, (s, w) ∈ l ↔ p !! s = Some w ∧ t < s) as Hl.
  { intros s w. unfold l. rewrite elem_of_sort_by, list_elem_of_filter, elem_of_map_to_list. simpl. tauto. }
  pose proof (sort_by_sorted fst (filter (λ q, t < q.1) (map_to_list p))) as Hsort. fold l in Hsort.
  destruct l as [|[t' v] l']; simpl.
  - intros t' v Hp. destruct (Z.le_gt_cases t' t); [done|].
    assert ((t', v) ∈ []) as Hin by (by apply Hl). by apply elem_of_nil in Hin.
  - destruct (proj1 (Hl t' v)) as [Hp Hlt]; [set_solver|]. exists t'. split; [done|]. split; [done|].
    intros s w Hs Hst. apply StronglySorted_inv in Hsort as [_ Hall]. rewrite Forall_forall in Hall.
    assert ((s, w) ∈ (t', v) :: l') as [[= -> ->]|Hin]%elem_of_cons by (by apply Hl); [lia|]. by apply (Hall (s, w)).
Qed.

(** ** Ingestion keeps the series sound *)

Lemma sample_row_trace c stamp s value unit l :
  trace (l ++ [new_row (cs_id c) stamp s value unit]) =
  trace l ++ (if decide (sample_key s = energy_key) then [mkReading stamp unit value] else []).
Proof. apply trace_snoc. Qed.

Lemma energy_unit s v u : numeric_sample s = inr (Some (v, u)) → sample_key s = energy_key → u = "Wh".
Proof.
  intros [[conv Hc] _]%numeric_sample_ok Hk. injection Hk as Hm _ _. rewrite Hm in Hc.
  change (UNITS energy_register) with (Some ("Wh", [("Wh", 1); ("kWh", 1000)])) in Hc. congruence.
Qed.

Section ingestion.
Context (c : ChargingSession) (known : list MeterSample).
Let ok := series_ok (cs_started_at c) (cs_meter_start_uwh c).

(** The newest reading of a trace. *)
Definition newest_reading (o : option (Z * Z)) (l : list Reading) : Prop :=
  match o with
  | None => l = []
  | Some (t, v) => (∃ r, r ∈ l ∧ rd_time r = t ∧ rd_value r = v) ∧ ∀ r, r ∈ l → rd_time r ≤ t
  end.

Record live_ok (a : Live) : Prop := mkLiveOk {
  live_series : ok (lv_reasons a) (trace (known ++ lv_rows a));
  live_latest : newest_reading (lv_latest a !! energy_key) (trace (known ++ lv_rows a));
  live_owner : ∀ m, m ∈ lv_rows a → ms_session_id m = cs_id c;
  live_reasons : regressed (cs_review_reasons c) → regressed (lv_reasons a);
}.

Lemma live_flag a x : live_ok a → live_ok (mkLive (review x (lv_reasons a)) (lv_latest a) (lv_rows a)).
Proof.
  intros [H1 H2 H3 H4]. assert (regressed (lv_reasons a) → regressed (review x (lv_reasons a))) as Hr
    by (unfold regressed; rewrite review_in; auto).
  split; simpl; auto. by eapply series_ok_more.
Qed.

Lemma live_keep a stamp s value unit :
  numeric_sample s = inr (Some (value, unit)) → live_ok a → cs_started_at c ≤ stamp →
  (sample_key s = energy_key → (∀ r, r ∈ trace (known ++ lv_rows a) → rd_time r < stamp) ∧
     (¬ regressed (lv_reasons a) →
        cs_meter_start_uwh c ≤ value ∧ ∀ r, r ∈ trace (known ++ lv_rows a) → rd_value r ≤ value)) →
  live_ok (mkLive (lv_reasons a) (<[sample_key s := (stamp, value)]> (lv_latest a))
             (lv_rows a ++ [new_row (cs_id c) stamp s value unit])).
Proof.
  intros Hn [H1 H2 H3 H4] Hs Hk. split; cbn [lv_reasons lv_latest lv_rows]; [| | |done].
  - rewrite app_assoc, sample_row_trace. case_decide as Hek; [|by rewrite app_nil_r].
    destruct (Hk Hek) as [Ht Hv]. apply series_snoc; simpl; auto.
    + by eapply energy_unit.
    + intros r Hr. specialize (Ht r Hr). lia.
    + intros Hr. destruct (Hv Hr) as [Hv1 Hv2]. split; [done|]. split; [auto|].
      intros r Hr' Hle. specialize (Ht r Hr'). lia.
  - rewrite app_assoc, sample_row_trace. case_decide as Hek.
    + rewrite Hek, lookup_insert_eq. destruct (Hk Hek) as [Ht _]. split.
      * exists (mkReading stamp unit value). set_solver.
      * intros r [Hr| ->%list_elem_of_singleton]%elem_of_app; [specialize (Ht r Hr)|simpl]; lia.
    + rewrite lookup_insert_ne by done. by rewrite app_nil_r.
  - intros m [Hm| ->%list_elem_of_singleton]%elem_of_app; [auto|done].
Qed.

Lemma live_sample_ok stamp a s a' : live_ok a → live_sample c stamp a s = inr a' → live_ok a'.
Proof.
  intros Ha. unfold live_sample. destruct (numeric_sample s) as [|[[value unit]|]] eqn:Hn; [done| |by intros [= <-]].
  cbn [mbind sum_bind mret sum_ret]. intros [= <-].
  set (old := match lv_latest a !! sample_key s with Some o => Some o | None => _ end).
  destruct old as [[t v]|] eqn:Eold; unfold old in Eold; clear old.
  - destruct (Z.ltb_spec stamp t); [done|]. destruct (Z.eqb_spec stamp t).
    { destruct (value =? v); [by destruct a|by apply live_flag]. }
    set (reasons := if _ && _ then _ else _).
    set (a1 := mkLive reasons (lv_latest a) (lv_rows a)).
    assert (live_ok a1) as Ha1 by (unfold a1, reasons; destruct (_ && _); [by apply live_flag|by destruct a]).
    destruct (Z.ltb_spec stamp (cs_started_at c)); [done|].
    apply (live_keep a1); [done|done|done|]. intros Hk. unfold a1. cbn [lv_reasons lv_rows].
    assert (value < v → regressed reasons) as Hreg.
    { intros Hlt. unfold reasons. injection Hk as Hm _ _. rewrite bool_decide_eq_true_2 by done.
      destruct (Z.ltb_spec value v); [|lia]. simpl. unfold regressed. rewrite review_in. auto. }
    destruct Ha1 as [S1 S2 _ _]. unfold a1 in S1, S2. cbn [lv_reasons lv_rows lv_latest] in S1, S2.
    rewrite Hk in Eold. rewrite decide_True in Eold by done.
    destruct (lv_latest a !! energy_key) as [[t' v']|]; simpl in S2.
    + injection Eold as -> ->. destruct S2 as [(r & Hr & Htr & Hvr) Hmax]. split.
      { intros r' Hr'. specialize (Hmax r' Hr'). lia. }
      intros Hnr. assert (v ≤ value) by (destruct (Z.le_gt_cases v value); [done|exfalso; auto]).
      pose proof (series_above _ _ _ _ S1 Hnr r Hr). split; [lia|]. intros r' Hr'.
      pose proof (series_mono _ _ _ _ S1 Hnr r' r Hr' Hr). specialize (Hmax r' Hr'). lia.
    + injection Eold as <- <-. rewrite S2. split; [intros ? []%elem_of_nil|]. intros Hnr. split; [|intros ? []%elem_of_nil].
      destruct (Z.le_gt_cases (cs_meter_start_uwh c) value); [done|exfalso; auto].
  - destruct (Z.ltb_spec stamp (cs_started_at c)); [by destruct a|].
    apply live_keep; [done|done|done|]. intros Hk. rewrite Hk in Eold. rewrite decide_True in Eold by done.
    by destruct (lv_latest a !! energy_key).
Qed.

Lemma fold_samples_ind {S} (P : S → Prop) (step : S → SamplePayload → Exn + S) l a a' :
  (∀ a s a', P a → step a s = inr a' → P a') → P a → fold_samples step a l = inr a' → P a'.
Proof.
  intros Hstep. revert a. induction l as [|s l IH]; intros a Ha; simpl; [by intros [= <-]|].
  intros (a1 & H1 & H2)%sum_bind_ok. eauto.
Qed.

Lemma live_blocks_ok blocks : ∀ a a', live_ok a → live_blocks c a blocks = inr a' → live_ok a'.
Proof.
  induction blocks as [|b blocks IH]; intros a a' Ha; simpl; [by intros [= <-]|].
  intros (a1 & H1 & H2)%sum_bind_ok. eapply IH; [|exact H2].
  eapply (fold_samples_ind live_ok); [|exact Ha|exact H1]. intros. by eapply live_sample_ok.
Qed.

Record backfill_ok (a : Backfill) : Prop := mkBackfillOk {
  backfill_series : ok (bf_reasons a) (trace (known ++ bf_rows a));
  backfill_points : agree (bf_points a) (trace (known ++ bf_rows a));
  backfill_owner : ∀ m, m ∈ bf_rows a → ms_session_id m = cs_id c;
  backfill_reasons : regressed (cs_review_reasons c) → regressed (bf_reasons a);
}.

Lemma backfill_flag a x : backfill_ok a → backfill_ok (mkBackfill (review x (bf_reasons a)) (bf_points a) (bf_rows a)).
Proof.
  intros [H1 H2 H3 H4]. assert (regressed (bf_reasons a) → regressed (review x (bf_reasons a))) as Hr
    by (unfold regressed; rewrite review_in; auto).
  split; simpl; auto. by eapply series_ok_more.
Qed.

Lemma backfill_keep a stamp s value unit :
  numeric_sample s = inr (Some (value, unit)) → backfill_ok a → cs_started_at c ≤ stamp →
  points_of (bf_points a) (sample_key s) !! stamp = None →
  (sample_key s = energy_key → ¬ regressed (bf_reasons a) →
     match before_point stamp (points_of (bf_points a) energy_key) with
     | Some v => v ≤ value | None => cs_meter_start_uwh c ≤ value end ∧
     match after_point stamp (points_of (bf_points a) energy_key) with Some v => value ≤ v | None => True end) →
  backfill_ok (mkBackfill (bf_reasons a) (add_point (bf_points a) (sample_key s) stamp value)
                 (bf_rows a ++ [new_row (cs_id c) stamp s value unit])).
Proof.
  intros Hn [H1 H2 H3 H4] Hs Hp Hk. split; cbn [bf_reasons bf_points bf_rows]; [| | |done].
  - rewrite app_assoc, sample_row_trace. case_decide as Hek; [|by rewrite app_nil_r]. rewrite Hek in Hp.
    assert (∀ r, r ∈ trace (known ++ bf_rows a) → points_of (bf_points a) energy_key !! rd_time r = Some (rd_value r))
      as Hpt by (intros r Hr; apply H2; eauto).
    assert (∀ r, r ∈ trace (known ++ bf_rows a) → rd_time r ≠ stamp) as Hne
      by (intros r Hr <-; specialize (Hpt r Hr); congruence).
    apply series_snoc; simpl; auto; [by eapply energy_unit|].
    intros Hr. destruct (Hk Hek Hr) as [Hb Ha].
    pose proof (before_point_spec stamp (points_of (bf_points a) energy_key)) as Sb.
    pose proof (after_point_spec stamp (points_of (bf_points a) energy_key)) as Sa.
    split; [|split].
    + destruct (before_point _ _) as [v|]; [|done]. destruct Sb as (t' & (r & Hin & _ & <-)%H2 & _ & _).
      pose proof (series_above _ _ _ _ H1 Hr r Hin). lia.
    + intros r Hin Hle. specialize (Hne r Hin). destruct (before_point _ _) as [v|].
      * destruct Sb as (t' & (r' & Hin' & <- & <-)%H2 & Hlt & Hmax).
        specialize (Hmax _ _ (Hpt r Hin) ltac:(lia)).
        pose proof (series_mono _ _ _ _ H1 Hr r r' Hin Hin' Hmax). lia.
      * specialize (Sb _ _ (Hpt r Hin)). lia.
    + intros r Hin Hle. specialize (Hne r Hin). destruct (after_point _ _) as [v|].
      * destruct Sa as (t' & (r' & Hin' & <- & <-)%H2 & Hlt & Hmin).
        specialize (Hmin _ _ (Hpt r Hin) ltac:(lia)).
        pose proof (series_mono _ _ _ _ H1 Hr r' r Hin' Hin Hmin). lia.
      * specialize (Sa _ _ (Hpt r Hin)). lia.
  - rewrite app_assoc, sample_row_trace. case_decide as Hek.
    + rewrite Hek in *. by apply agree_snoc.
    + rewrite app_nil_r. intros t v. by rewrite points_of_add, decide_False.
  - intros m [Hm| ->%list_elem_of_singleton]%elem_of_app; [auto|done].
Qed.

Lemma backfill_sample_ok stamp a s a' :
  cs_started_at c ≤ stamp → backfill_ok a → backfill_sample c stamp a s = inr a' → backfill_ok a'.
Proof.
  intros Hs Ha. unfold backfill_sample.
  destruct (numeric_sample s) as [|[[value unit]|]] eqn:Hn; [done| |by intros [= <-]].
  cbn [mbind sum_bind mret sum_ret]. intros [= <-].
  destruct (points_of (bf_points a) (sample_key s) !! stamp) as [v|] eqn:Hp.
  { destruct (v =? value); [by destruct a|by apply backfill_flag]. }
  set (reg := bool_decide _ && _).
  set (a1 := mkBackfill (if reg then review "meter_regression" (bf_reasons a) else bf_reasons a) (bf_points a) (bf_rows a)).
  assert (backfill_ok a1) as Ha1 by (unfold a1; destruct reg; [by apply backfill_flag|by destruct a]).
  apply (backfill_keep a1); [done|done|done|done|]. intros Hk Hr. unfold a1 in *. cbn [bf_reasons bf_points] in *.
  assert (reg = false) as Hf.
  { destruct reg; [|done]. destruct Hr. unfold regressed. rewrite review_in. auto. }
  unfold reg in Hf. injection Hk as Hm Hph Hloc. rewrite bool_decide_eq_true_2 in Hf by done. simpl in Hf.
  assert (sample_key s = energy_key) as Hk by (unfold sample_key; by rewrite Hm, Hph, Hloc).
  rewrite Hk, decide_True in Hf by done. apply orb_false_iff in Hf as [Hf1 Hf2].
  split; [destruct (before_point stamp (points_of (bf_points a) energy_key)); by apply Z.ltb_ge|].
  destruct (after_point stamp (points_of (bf_points a) energy_key)); [by apply Z.ltb_ge|done].
Qed.

Lemma backfill_blocks_ok blocks : ∀ a a', backfill_ok a → backfill_blocks c a blocks = inr a' → backfill_ok a'.
Proof.
  induction blocks as [|b blocks IH]; intros a a' Ha; simpl; [by intros [= <-]|].
  intros (a1 & H1 & H2)%sum_bind_ok. eapply IH; [|exact H2]. destruct (in_session c b) eqn:Hin; [|by injection H1 as <-].
  eapply (fold_samples_ind backfill_ok); [|exact Ha|exact H1]. intros. eapply backfill_sample_ok; [|done|done].
  unfold in_session in Hin. apply negb_true_iff, orb_false_iff in Hin as [Hin _]. lia.
Qed.

(** Both modes at once: the new reasons and rows. *)
Definition ingested (reasons : list string) (rows : list MeterSample) : Prop :=
  ok reasons (trace (known ++ rows)) ∧ (∀ m, m ∈ rows → ms_session_id m = cs_id c) ∧
  (regressed (cs_review_reasons c) → regressed reasons).

Lemma live_ingested blocks a :
  ok (cs_review_reasons c) (trace known) →
  live_blocks c (mkLive (cs_review_reasons c) (latest_points known) []) blocks = inr a →
  ingested (lv_reasons a) (lv_rows a).
Proof.
  intros Hok H. apply live_blocks_ok in H as [? ? ? ?]; [done|]. split; simpl; rewrite ?app_nil_r; [done| |set_solver|done].
  pose proof (latest_points_spec known energy_key) as Hl. destruct (_ !! energy_key) as [[t v]|]; simpl.
  - destruct Hl as [(m & Hm & Hk & Ht & Hv) Hmax]. split.
    + exists (reading m). split; [apply elem_of_trace; eauto|done].
    + intros r (m' & Hm' & Hk' & ->)%elem_of_trace. simpl. auto.
  - destruct (trace known) as [|r l] eqn:E; [done|]. assert (r ∈ trace known) as (m & Hm & Hk & _)%elem_of_trace
      by (rewrite E; set_solver). by destruct (Hl m Hm).
Qed.

Lemma backfill_ingested blocks a :
  ok (cs_review_reasons c) (trace known) →
  backfill_blocks c (mkBackfill (cs_review_reasons c) (history_points known) []) blocks = inr a →
  ingested (bf_reasons a) (bf_rows a).
Proof.
  intros Hok H. apply backfill_blocks_ok in H as [? ? ? ?]; [done|].
  split; simpl; rewrite ?app_nil_r; [done| |set_solver|done]. apply history_points_spec. apply Hok.
Qed.
End ingestion.

(** ** The invariant *)

(** At most one open session per connector number of a charger: the partial
    unique index on [connector_id] and the numbering of connectors. *)
Definition one_open (db : Db) : Prop :=
  ∀ k k' c c' n, charging_sessions db !! k = Some c → charging_sessions db !! k' = Some c' →
    cs_ended_at c = None → cs_ended_at c' = None → cs_charge_point_id c = cs_charge_point_id c' →
    on_connector n db c = true → on_connector n db c' = true → k = k'.

Definition series_of (db : Db) (c : ChargingSession) : Prop :=
  series_ok (cs_started_at c) (cs_meter_start_uwh c) (cs_review_reasons c) (trace (samples_of (cs_id c) db)).

Record metering_ok (db : Db) : Prop := mkMeteringOk {
  metering_keyed : keyed db;
  metering_series : ∀ k c, charging_sessions db !! k = Some c → series_of db c;
  metering_owned : ∀ m, m ∈ meter_samples db → is_Some (charging_sessions db !! ms_session_id m);
  metering_one_open : one_open db;
}.

(** Changes of a session that the readings do not depend on. *)
Definition benign (c c' : ChargingSession) : Prop :=
  cs_id c' = cs_id c ∧ cs_charge_point_id c' = cs_charge_point_id c ∧ cs_connector_id c' = cs_connector_id c ∧
  cs_started_at c' = cs_started_at c ∧ cs_meter_start_uwh c' = cs_meter_start_uwh c ∧
  (cs_ended_at c' = None → cs_ended_at c = None) ∧
  (regressed (cs_review_reasons c) → regressed (cs_review_reasons c')).

Lemma one_open_sub db db' :
  connectors db' = connectors db →
  (∀ k c', charging_sessions db' !! k = Some c' → ∃ c, charging_sessions db !! k = Some c ∧
     cs_charge_point_id c' = cs_charge_point_id c ∧ cs_connector_id c' = cs_connector_id c ∧
     (cs_ended_at c' = None → cs_ended_at c = None)) →
  one_open db → one_open db'.
Proof.
  intros Hcn Hs Ho k k' c c' n Hc Hc' Ho1 Ho2 Hcp Hn Hn'.
  destruct (Hs k c Hc) as (x & Hx & Hx1 & Hx2 & Hx3). destruct (Hs k' c' Hc') as (y & Hy & Hy1 & Hy2 & Hy3).
  unfold on_connector in Hn, Hn'. rewrite Hcn, Hx2 in Hn. rewrite Hcn, Hy2 in Hn'.
  apply (Ho k k' x y n); auto. congruence.
Qed.

Definition write_session (k : Z) (f : ChargingSession → ChargingSession) (db : Db) : Db :=
  set_charging_sessions (alter f k (charging_sessions db)) db.

Lemma write_session_lookup k f db k' c' :
  charging_sessions (write_session k f db) !! k' = Some c' →
  ∃ c, charging_sessions db !! k' = Some c ∧ c' = (if decide (k' = k) then f c else c).
Proof.
  simpl. intros [[-> (c & Hc & ->)]|[Hne Hc]]%lookup_alter_Some; [exists c; by rewrite decide_True|].
  exists c'. by rewrite decide_False.
Qed.

Lemma metering_write k f db :
  (∀ c, charging_sessions db !! k = Some c → benign c (f c)) → metering_ok db → metering_ok (write_session k f db).
Proof.
  intros Hf [H1 H2 H3 H4]. assert (∀ k' c', charging_sessions (write_session k f db) !! k' = Some c' →
    ∃ c, charging_sessions db !! k' = Some c ∧ benign c c') as Hb.
  { intros k' c' (c & Hc & ->)%write_session_lookup. exists c. split; [done|].
    case_decide; [subst; auto|by repeat split]. }
  split.
  - intros k' c' (c & Hc & Hid & _)%Hb. rewrite Hid. by apply H1.
  - intros k' c' (c & Hc & Hid & _ & _ & Hs & Hv & _ & Hr)%Hb. specialize (H2 k' c Hc). unfold series_of in *.
    rewrite Hid, Hs, Hv. change (samples_of (cs_id c) (write_session k f db)) with (samples_of (cs_id c) db).
    by eapply series_ok_more.
  - intros m Hm. simpl. rewrite lookup_alter_is_Some. by apply H3.
  - apply (one_open_sub db); [done| |done]. intros k' c' (c & Hc & _ & ? & ? & _ & _ & ? & _)%Hb. eauto.
Qed.

Lemma keeps_metering_update k f : (∀ c, benign c (f c)) → keeps metering_ok (update_session k f).
Proof. intros Hf db Hok. apply metering_write; [|done]. auto. Qed.

Definition same_metering (db db' : Db) : Prop :=
  charging_sessions db' = charging_sessions db ∧ meter_samples db' = meter_samples db ∧ connectors db' = connectors db.

Lemma same_metering_ok db db' : same_metering db db' → metering_ok db → metering_ok db'.
Proof.
  intros (H1 & H2 & H3) [K1 K2 K3 K4]. split.
  - intros k c. rewrite H1. apply K1.
  - intros k c. rewrite H1. intros Hc. unfold series_of, samples_of. rewrite H2. by apply (K2 k).
  - intros m. rewrite H1, H2. apply K3.
  - apply (one_open_sub db); [done| |done]. intros k c. rewrite H1. eauto.
Qed.

Lemma keeps_metering_other (f : Db → Db) :
  (∀ db, same_metering db (f db)) → keeps (E := Exn) metering_ok (modify f).
Proof. intros Hf db. by apply same_metering_ok. Qed.

Lemma keeps_metering_fresh_id : keeps metering_ok fresh_id.
Proof. intros db. by apply same_metering_ok. Qed.

#[export] Hint Resolve keeps_metering_fresh_id : csms_keeps.
#[export] Hint Extern 2 (keeps metering_ok (modify _)) =>
  apply keeps_metering_other; intros; repeat split; reflexivity : csms_keeps.

(** Solves [benign] for a setter of other columns and reasons that only grow. *)
Ltac benign_tac :=
  intros; unfold benign, set_review; simpl; repeat split; try done;
  unfold regressed; rewrite ?review_in; naive_solver.

Lemma benign_refl c : benign c c.
Proof. by repeat split. Qed.

Lemma benign_flag reason c : benign c (flag reason c).
Proof. unfold flag. case_decide; [apply benign_refl|]. unfold benign, regressed. simpl. repeat split; set_solver. Qed.

Lemma benign_forget l c : ¬ regressed l → benign c (set_review (forget_reasons l) c).
Proof.
  intros Hl. unfold benign, set_review, forget_reasons. simpl. repeat split; try done. unfold regressed in *.
  rewrite list_elem_of_filter. tauto.
Qed.

#[export] Hint Extern 2 (keeps metering_ok (update_session _ _)) =>
  apply keeps_metering_update; first [by intros; apply benign_flag | by benign_tac | by intros; apply benign_forget; vm_compute; set_solver]
  : csms_keeps.

Lemma keeps_metering_event k a b d : keeps metering_ok (add_event k a b d).
Proof. unfold add_event. keeps_steps. Qed.
Lemma keeps_metering_session_row k : keeps metering_ok (session_row k).
Proof. unfold session_row. keeps_steps. Qed.
Lemma keeps_metering_interval i f : keeps metering_ok (update_interval i f).
Proof. unfold update_interval. keeps_steps. Qed.
#[export] Hint Resolve keeps_metering_event keeps_metering_session_row keeps_metering_interval : csms_keeps.

Lemma keeps_metering_release k stamp i src : keeps metering_ok (release k stamp i src).
Proof. unfold release. keeps_steps. Qed.
#[export] Hint Resolve keeps_metering_release : csms_keeps.

Lemma keeps_metering_note_stop k : keeps metering_ok (note_stop k).
Proof. unfold note_stop. keeps_steps. Qed.

Lemma keeps_metering_notify {dep : Deployment} c kind inv at_ eid : keeps metering_ok (notify_event c kind inv at_ eid).
Proof.
  intros db Hok. destruct (notify_event _ _ _ _ _ db) as [r db'] eqn:E.
  apply notify_event_cases in E as [->|(driver & t & msg & n & _ & _ & -> & _)]; [done|]. by apply (same_metering_ok db).
Qed.

Lemma keeps_metering_pending charger call reason : keeps metering_ok (pending charger call reason).
Proof. unfold pending. keeps_steps. Qed.

Lemma keeps_metering_audit a b c d e f g : keeps metering_ok (ghi_nhat_ky a b c d e f g).
Proof.
  intros db H. destruct (ghi_nhat_ky _ _ _ _ _ _ _ db) as [r db'] eqn:E.
  apply ghi_nhat_ky_cases in E as [(? & _ & ->)|(? & ? & _ & _ & _ & _ & _ & _ & ->)]; [done|].
  by apply (same_metering_ok db).
Qed.
#[export] Hint Resolve keeps_metering_note_stop keeps_metering_notify keeps_metering_pending keeps_metering_audit : csms_keeps.

(** ** Writing the samples *)

Definition appended (rows' : list MeterSample) (db : Db) : Db :=
  set_next_id (next_id db + Z.of_nat (length rows')) (set_meter_samples (meter_samples db ++ rows') db).

Lemma insert_rows_run rows db :
  ∃ rows', length rows' = length rows ∧ (∀ id, trace (filter (λ m, ms_session_id m = id) rows') =
      trace (filter (λ m, ms_session_id m = id) rows)) ∧ (ms_session_id <$> rows') = (ms_session_id <$> rows) ∧
    for_each rows (λ m, id ← fresh_id; modify (λ db, set_meter_samples (meter_samples db ++ [with_id id m]) db)) db =
    (inr (), appended rows' db) :> (Exn + ()) * Db.
Proof.
  revert db. induction rows as [|m rows IH]; intros db.
  { exists []. split; [done|]. split; [done|]. split; [done|]. unfold appended. simpl. rewrite app_nil_r, Z.add_0_r. by destruct db. }
  set (db1 := appended [with_id (next_id db) m] db).
  destruct (IH db1) as (rows' & Hl & Ht & Hs & Hr). exists (with_id (next_id db) m :: rows').
  split; [simpl; lia|]. split; [|split; [by rewrite !fmap_cons, Hs|]].
  - intros id. specialize (Ht id). rewrite !filter_cons. change (ms_session_id (with_id (next_id db) m)) with (ms_session_id m).
    case_decide; [|done].
    rewrite (trace_cons (with_id (next_id db) m) (filter _ rows')), (trace_cons m (filter _ rows)), Ht.
    by rewrite trace_with_id.
  - cbn [for_each]. assert ((id ← fresh_id; modify (λ db, set_meter_samples (meter_samples db ++ [with_id id m]) db)) db =
      (inr (), db1) :> (Exn + ()) * Db) as E by reflexivity.
    rewrite (bind_ok_step _ _ _ _ _ E), Hr. f_equal. unfold appended, db1, appended, set_next_id, set_meter_samples. simpl.
    f_equal; [by rewrite <- app_assoc|lia].
Qed.

Lemma insert_meter_rows_cases rows db r db' :
  insert_meter_rows rows db = (r, db') →
  db' = db ∨ r = inr () ∧ ∃ rows', (∀ id, trace (filter (λ m, ms_session_id m = id) rows') =
      trace (filter (λ m, ms_session_id m = id) rows)) ∧ (ms_session_id <$> rows') = (ms_session_id <$> rows) ∧
    db' = appended rows' db.
Proof.
  unfold insert_meter_rows. destruct (negb _); [intros [= _ <-]; by left|].
  destruct (insert_rows_run rows db) as (rows' & _ & Ht & Hs & E). unfold raise_if.
  rewrite (bind_ok_step _ _ _ () db) by done. rewrite E. intros [= <- <-]. right. eauto.
Qed.

Lemma filter_owned {A} (f : A → Z) (k : Z) (l : list A) : (∀ x, x ∈ l → f x = k) → filter (λ x, f x = k) l = l.
Proof. intros H. apply list_filter_all. auto. Qed.

Lemma filter_others {A} (f : A → Z) (k k' : Z) (l : list A) : k ≠ k' → (∀ x, x ∈ l → f x = k) → filter (λ x, f x = k') l = [].
Proof.
  intros Hk H. destruct (filter _ l) as [|x l'] eqn:E; [done|].
  assert (x ∈ filter (λ x, f x = k') l) as [Hx Hin]%list_elem_of_filter by (rewrite E; set_solver).
  specialize (H x Hin). congruence.
Qed.

(** The session is flagged, then its new rows are appended. *)
Definition flagged_state (c : ChargingSession) (reasons : list string) (db : Db) : Db :=
  write_session (cs_id c) (set_cs_review_reasons reasons) db.

Section ingest.
Context (db : Db) (c : ChargingSession) (reasons : list string) (rows : list MeterSample).
Context (Hok : metering_ok db) (Hc : charging_sessions db !! cs_id c = Some c).
Context (Hin : ingested c (samples_of (cs_id c) db) reasons rows).

Lemma flagged_ok : metering_ok (flagged_state c reasons db).
Proof.
  apply metering_write; [|done]. intros c' Hc'. rewrite Hc in Hc'. injection Hc' as <-.
  destruct Hin as (_ & _ & Hr). by repeat split.
Qed.

Lemma flagged_lookup : charging_sessions (flagged_state c reasons db) !! cs_id c = Some (set_cs_review_reasons reasons c).
Proof. simpl. by rewrite lookup_alter_eq, Hc. Qed.

Lemma appended_samples rows' id :
  (∀ id, trace (filter (λ m, ms_session_id m = id) rows') = trace (filter (λ m, ms_session_id m = id) rows)) →
  trace (samples_of id (appended rows' (flagged_state c reasons db))) =
  trace (samples_of id db) ++ (if decide (id = cs_id c) then trace rows else []).
Proof.
  intros Ht. unfold samples_of, appended. simpl. rewrite filter_app, trace_app, Ht. f_equal.
  destruct Hin as (_ & Ho & _). case_decide as Hid.
  - subst id. by rewrite filter_owned.
  - by rewrite (filter_others ms_session_id (cs_id c) id) by auto.
Qed.

Lemma appended_ok rows' :
  (∀ id, trace (filter (λ m, ms_session_id m = id) rows') = trace (filter (λ m, ms_session_id m = id) rows)) →
  (ms_session_id <$> rows') = (ms_session_id <$> rows) →
  metering_ok (appended rows' (flagged_state c reasons db)).
Proof.
  intros Ht Hs. pose proof flagged_ok as Hf. destruct Hf as [H1 H2 H3 H4]. destruct Hin as (Hser & Ho & Hr). split.
  - exact H1.
  - intros k x Hx. pose proof (H1 k x Hx) as Hid. unfold series_of. rewrite (appended_samples rows' _ Ht).
    case_decide as Hk.
    + assert (x = set_cs_review_reasons reasons c) as ->.
      { rewrite <- Hid, Hk in Hx. change (charging_sessions (appended rows' (flagged_state c reasons db)))
          with (charging_sessions (flagged_state c reasons db)) in Hx. rewrite flagged_lookup in Hx. congruence. }
      simpl. by rewrite trace_app in Hser.
    + rewrite app_nil_r. apply (H2 k x Hx).
  - intros m [Hm|Hm]%elem_of_app; [by apply H3|].
    assert (ms_session_id m ∈ ms_session_id <$> rows) as (m' & -> & Hm')%list_elem_of_fmap
      by (rewrite <- Hs; by apply list_elem_of_fmap_2).
    rewrite (Ho m' Hm'). change (charging_sessions (appended rows' (flagged_state c reasons db)))
      with (charging_sessions (flagged_state c reasons db)). rewrite flagged_lookup. by eexists.
  - by apply (one_open_sub (flagged_state c reasons db)); eauto 10.
Qed.
End ingest.

(** ** The handlers keep the invariant *)

Lemma store_samples_cases k blocks bf c db r db' :
  metering_ok db → charging_sessions db !! k = Some c →
  store_samples k blocks bf (samples_of k db) db = (r, db') →
  (∃ e, r = inl e ∧ db' = db) ∨
  ∃ reasons rows, r = inr rows ∧ db' = flagged_state c reasons db ∧ ingested c (samples_of (cs_id c) db) reasons rows.
Proof.
  intros Hok Hc. pose proof (metering_keyed _ Hok k c Hc) as Hk. pose proof (metering_series _ Hok k c Hc) as Hs.
  unfold store_samples, store_recovery_samples. intros H.
  destruct bf; rewrite (bind_ok_step _ _ _ _ _ (session_row_some k c db Hc)) in H.
  - destruct (backfill_blocks _ _ _) as [e|a] eqn:E.
    + left. exists e. unfold lift, mbind, M_bind in H. by injection H as <- <-.
    + right. rewrite (bind_ok_step _ _ _ a db) in H by done. exists (bf_reasons a), (bf_rows a).
      unfold update_session, modify, mbind, M_bind in H. injection H as <- <-.
      split; [done|]. split; [by unfold flagged_state, write_session; rewrite Hk|].
      rewrite Hk in *. eapply backfill_ingested; [|exact E]. unfold series_of in Hs. by rewrite Hk in Hs.
  - destruct (live_blocks _ _ _) as [e|a] eqn:E.
    + left. exists e. unfold lift, mbind, M_bind in H. by injection H as <- <-.
    + right. rewrite (bind_ok_step _ _ _ a db) in H by done. exists (lv_reasons a), (lv_rows a).
      unfold update_session, modify, mbind, M_bind in H. injection H as <- <-.
      split; [done|]. split; [by unfold flagged_state, write_session; rewrite Hk|].
      rewrite Hk in *. eapply live_ingested; [|exact E]. unfold series_of in Hs. by rewrite Hk in Hs.
Qed.

(** Storing and inserting, as one piece of a handler. *)
Lemma ingest_ok k blocks bf c db :
  metering_ok db → charging_sessions db !! k = Some c →
  metering_ok ((rows ← store_samples k blocks bf (samples_of k db); insert_meter_rows rows) db).2.
Proof.
  intros Hok Hc. pose proof (metering_keyed _ Hok k c Hc) as Hk.
  destruct (store_samples k blocks bf (samples_of k db) db) as [r db1] eqn:E. pose proof E as E'.
  apply (store_samples_cases k blocks bf c) in E as [(e & -> & ->)|(reasons & rows & -> & -> & Hin)]; [| |done|done].
  - by rewrite (bind_err_step _ _ _ _ _ E').
  - rewrite (bind_ok_step _ _ _ _ _ E'). destruct (insert_meter_rows rows _) as [r' db2] eqn:Ei.
    apply insert_meter_rows_cases in Ei as [->|(_ & rows' & Ht & Hs & ->)];
      [eapply flagged_ok|eapply appended_ok]; try done; by rewrite Hk.
Qed.

Lemma meter_sessions_same charger p c rest db :
  metering_ok db → meter_sessions charger p db = c :: rest →
  charging_sessions db !! cs_id c = Some c ∧ ∀ c', c' ∈ c :: rest → cs_id c' = cs_id c.
Proof.
  intros Hok E. assert (∀ x, x ∈ c :: rest → charging_sessions db !! cs_id x = Some x ∧
    (cs_charge_point_id x =? charger) && on_connector (mp_connector_id p) db x &&
    match mp_transaction_id p with Some t => cs_id x =? t | None => bool_decide (cs_ended_at x = None) end = true) as Hx.
  { intros x. rewrite <- E. unfold meter_sessions. rewrite elem_of_sort_by, list_elem_of_filter. intros [Hp Hin].
    split; [|done]. apply list_elem_of_fmap in Hin as ([k y] & -> & Hk%elem_of_map_to_list). simpl.
    by rewrite (metering_keyed _ Hok k y Hk). }
  destruct (Hx c) as [Hc Hpc]; [set_solver|]. split; [done|]. intros c' Hc'. destruct (Hx c' Hc') as [Hc'' Hpc'].
  apply andb_true_iff in Hpc as [Hpc Ht], Hpc' as [Hpc' Ht']. apply andb_true_iff in Hpc as [Hcp Hon], Hpc' as [Hcp' Hon'].
  apply Z.eqb_eq in Hcp, Hcp'. destruct (mp_transaction_id p); [lia|]. apply bool_decide_eq_true in Ht, Ht'.
  apply (metering_one_open _ Hok _ _ c' c (mp_connector_id p)); try done. congruence.
Qed.

Lemma keeps_metering_meter_call charger call p : keeps metering_ok (meter_call charger call p).
Proof.
  intros db Hok. unfold meter_call, meter_values. rewrite bind_assoc.
  rewrite (bind_ok_step _ _ _ (meter_sessions charger p db) db) by done.
  assert (metering_ok (((pending charger call "no_matching_open_session";; mret []) ≫= insert_meter_rows) db).2) as Hp.
  { rewrite bind_assoc. revert db Hok. apply keeps_bind; [auto with csms_keeps|]. intros _ db Hok. exact Hok. }
  destruct (meter_sessions charger p db) as [|c rest] eqn:E; [exact Hp|]. destruct (accepts_samples c); [|exact Hp].
  destruct (meter_sessions_same charger p c rest db Hok E) as [Hc Hsame].
  rewrite bind_assoc. rewrite (bind_ok_step _ _ _ (samples_of (cs_id c) db) db).
  - by eapply ingest_ok.
  - unfold gets. do 2 f_equal. unfold samples_of. apply list_filter_ext. intros m _.
    rewrite list_elem_of_fmap. split; [intros (y & -> & Hy); auto|intros ->; exists c; set_solver].
Qed.

Lemma keeps_metering_reconnection charger : keeps metering_ok (note_reconnection charger).
Proof. unfold note_reconnection. keeps_steps. Qed.

Lemma keeps_metering_connector_status charger n s : keeps metering_ok (note_connector_status charger n s).
Proof. unfold note_connector_status. keeps_steps. Qed.

Section deployed.
Context {dep : Deployment}.

Lemma keeps_metering_abnormal lk now : keeps metering_ok (flag_abnormal_sessions lk now).
Proof. unfold flag_abnormal_sessions, flag_abnormal. keeps_steps. Qed.

Lemma benign_by_hand now actor v reason c : benign c (closed_by_hand now actor v reason c).
Proof.
  unfold benign, closed_by_hand, set_review, forget_reasons, regressed. simpl. repeat split; try done.
  intros H. rewrite review_in. left. apply list_elem_of_filter. split; [set_solver|done].
Qed.

Lemma keeps_metering_manual_close k actor reason auth : keeps metering_ok (manual_close k actor reason auth).
Proof.
  unfold manual_close. keeps_steps. apply keeps_metering_update. intros. apply benign_by_hand.
Qed.

Lemma benign_trans c1 c2 c3 : benign c1 c2 → benign c2 c3 → benign c1 c3.
Proof. unfold benign. intuition congruence. Qed.

Lemma benign_review x c : benign c (set_review (review x) c).
Proof. benign_tac. Qed.

Lemma benign_stopped p latest c : benign c (stopped p latest c).
Proof.
  unfold stopped. set (c1 := match latest with Some v => _ | None => _ end).
  assert (benign c c1) as H1 by (unfold c1; repeat case_match; first [apply benign_review|apply benign_refl]).
  set (c2 := set_review (forget_reasons _) _).
  assert (benign c1 c2) as H2.
  { apply (benign_trans _ (set_cs_abnormal_since None c1)); [by repeat split|].
    apply benign_forget. unfold regressed. set_solver. }
  set (c3 := if so_timestamp p <? cs_started_at c2 then _ else _).
  assert (benign c2 c3) as H3 by (unfold c3; case_match; first [apply benign_review|apply benign_refl]).
  assert (benign c c3) as H by eauto using benign_trans. eapply benign_trans; [exact H|].
  case_match; [|case_match; by repeat split].
  apply (benign_trans _ (set_review (review "stop_meter_below_start") c3)); [apply benign_review|by repeat split].
Qed.

Lemma keeps_metering_stop charger call p : keeps metering_ok (stop_transaction charger call p).
Proof.
  intros db Hok. unfold stop_transaction. set (tid := so_transaction_id p).
  rewrite (bind_ok_step _ _ _ (charging_sessions db !! tid) db) by done.
  destruct (charging_sessions db !! tid) as [c|] eqn:Hc; [|by apply keeps_metering_pending].
  destruct (negb _); [by apply keeps_metering_pending|]. destruct (bool_decide _); [by apply keeps_metering_pending|].
  set (f := λ c, set_cs_stop_reason _ _). set (db1 := write_session tid f db).
  rewrite (bind_ok_step _ _ _ () db1) by done.
  assert (metering_ok db1) as H1 by (apply metering_write; [by intros; repeat split|done]).
  rewrite (bind_ok_step _ _ _ (samples_of tid db1) db1) by done.
  assert (charging_sessions db1 !! tid = Some (f c)) as Hc1 by (simpl; by rewrite lookup_alter_eq, Hc).
  pose proof (ingest_ok tid (so_data p) (bool_decide (is_Some (cs_recovery_at c))) (f c) db1 H1 Hc1) as H2.
  rewrite <- bind_assoc. apply keeps_after; [exact H2|]. intros _.
  assert (∀ latest, keeps metering_ok (update_session tid (stopped p latest))) as Hst
    by (intros; apply keeps_metering_update; intros; apply benign_stopped).
  keeps_steps.
Qed.
End deployed.

(** ** Reachable states *)

(** The other components: sessions start, are settled, invoiced and reviewed,
    connectors change, but no sample is written, a review for regression stays
    and two open sessions never share a connector number. *)
Definition metering_evolves (db db' : Db) : Prop :=
  meter_samples db' = meter_samples db ∧ keyed db' ∧ one_open db' ∧
  (∀ k c, charging_sessions db !! k = Some c → is_Some (charging_sessions db' !! k)) ∧
  (∀ k c', charging_sessions db' !! k = Some c' →
     match charging_sessions db !! k with
     | Some c => cs_started_at c' = cs_started_at c ∧ cs_meter_start_uwh c' = cs_meter_start_uwh c ∧
                 (regressed (cs_review_reasons c) → regressed (cs_review_reasons c'))
     | None => True
     end).

Inductive metering_step {dep : Deployment} : Db → Db → Prop :=
  | meter_meter charger call p db r db' : meter_call charger call p db = (r, db') → metering_step db db'
  | meter_stop charger call p db r db' : stop_transaction charger call p db = (r, db') → metering_step db db'
  | meter_reconnect charger db r db' : note_reconnection charger db = (r, db') → metering_step db db'
  | meter_status charger n s db r db' : note_connector_status charger n s db = (r, db') → metering_step db db'
  | meter_abnormal lk now db r db' : flag_abnormal_sessions lk now db = (r, db') → metering_step db db'
  | meter_close k actor reason auth db r db' : manual_close k actor reason auth db = (r, db') → metering_step db db'
  | meter_evolve db db' : metering_evolves db db' → metering_step db db'.

Lemma evolves_ok db db' : metering_evolves db db' → metering_ok db → metering_ok db'.
Proof.
  intros (Hm & Hk & Ho & Hstay & Hs) [K1 K2 K3 K4]. split; [done| | |done].
  - intros k c' Hc'. pose proof (Hk k c' Hc') as Hid. specialize (Hs k c' Hc'). unfold series_of, samples_of. rewrite Hm, Hid.
    destruct (charging_sessions db !! k) as [c|] eqn:Hc.
    + destruct Hs as (H1 & H2 & H3). rewrite H1, H2. specialize (K2 k c Hc). unfold series_of, samples_of in K2.
      rewrite (K1 k c Hc) in K2. by eapply series_ok_more.
    + replace (filter (λ m, ms_session_id m = k) (meter_samples db)) with (@nil MeterSample); [apply series_nil|].
      symmetry. destruct (filter _ _) as [|m l] eqn:E; [done|].
      assert (m ∈ filter (λ m, ms_session_id m = k) (meter_samples db)) as [Hmk Hin]%list_elem_of_filter
        by (rewrite E; set_solver). destruct (K3 m Hin) as [x Hx]. congruence.
  - intros m. rewrite Hm. intros [c Hc]%K3. by eapply Hstay.
Qed.

Lemma metering_step_ok {dep : Deployment} db db' : metering_step db db' → metering_ok db → metering_ok db'.
Proof.
  intros [] Hok; first
    [ by eapply evolves_ok
    | by eapply keeps_run; [apply keeps_metering_meter_call| |eassumption]
    | by eapply keeps_run; [apply keeps_metering_stop| |eassumption]
    | by eapply keeps_run; [apply keeps_metering_reconnection| |eassumption]
    | by eapply keeps_run; [apply keeps_metering_connector_status| |eassumption]
    | by eapply keeps_run; [apply keeps_metering_abnormal| |eassumption]
    | by eapply keeps_run; [apply keeps_metering_manual_close| |eassumption] ].
Qed.

(** C5. No decrease goes unnoticed: however meter reports, late buffered
    samples, stops, reconnections, abnormal-session scans and manual closures
    follow each other, the stored readings of a session's energy register have
    distinct times, none before its start, all in watt-hours; and unless the
    session is flagged [meter_regression] they never decrease and never fall
    below the reading at the start. *)
Theorem meter_series_sound {dep : Deployment} db db' k c :
  metering_ok db → rtc metering_step db db' → charging_sessions db' !! k = Some c →
  let l := filter (λ m, key_of m = energy_key) (samples_of k db') in
  NoDup (ms_timestamp <$> l) ∧
  (∀ m, m ∈ l → cs_started_at c ≤ ms_timestamp m ∧ ms_unit m = "Wh") ∧
  ("meter_regression" ∈ cs_review_reasons c ∨
   (∀ m m', m ∈ l → m' ∈ l → ms_timestamp m ≤ ms_timestamp m' → ms_value_u m ≤ ms_value_u m') ∧
   ∀ m, m ∈ l → cs_meter_start_uwh c ≤ ms_value_u m).
Proof.
  intros Hok Hs Hc l. assert (metering_ok db') as Hok'.
  { clear Hc. induction Hs; [done|]. eauto using metering_step_ok. }
  pose proof (metering_series _ Hok' k c Hc) as [H1 H2 H3 H4]. rewrite (metering_keyed _ Hok' k c Hc) in *.
  change (trace (samples_of k db')) with (reading <$> l) in *.
  assert (∀ m, m ∈ l → reading m ∈ reading <$> l) as Hr by (intros; by apply list_elem_of_fmap_2).
  split; [|split].
  - rewrite <- list_fmap_compose in H2. exact H2.
  - intros m Hm. by apply (H1 (reading m)), Hr.
  - destruct (decide ("meter_regression" ∈ cs_review_reasons c)) as [|Hn]; [by left|right]. split.
    + intros m m' Hm Hm' Ht. by apply (H3 Hn (reading m) (reading m') (Hr m Hm) (Hr m' Hm')).
    + intros m Hm. by apply (H4 Hn (reading m)), Hr.
Qed.

(** ** What a stop leaves behind *)

Lemma review_nil x l : review x l ≠ [].
Proof. unfold review. case_decide; [|by destruct l]. intros ->. set_solver. Qed.

Section stop.
Context {dep : Deployment}.

(** A stop that raises no reason has passed every check. *)
Lemma stopped_clean p latest c :
  cs_review_reasons (stopped p latest c) = [] →
  let stop := so_meter_stop p * micro in
  (∀ v, latest = Some v → v ≤ stop) ∧ cs_started_at c ≤ so_timestamp p ∧ 0 ≤ cs_meter_start_uwh c ≤ stop ∧
  cs_energy_uwh (stopped p latest c) = Some (stop - cs_meter_start_uwh c) ∧ ¬ regressed (cs_review_reasons c).
Proof.
  intros Hnil stop. pose proof (benign_stopped p latest c) as (_ & _ & _ & _ & _ & _ & Hreg). rewrite Hnil in Hreg.
  assert (¬ regressed (cs_review_reasons c)) as Hnr by (intros ?%Hreg; by apply elem_of_nil in H).
  clear Hreg. revert Hnil. unfold stopped. fold stop.
  set (c1 := match latest with Some v => _ | None => _ end).
  set (c2 := set_review (forget_reasons _) (set_cs_abnormal_since None c1)).
  assert (cs_started_at c2 = cs_started_at c ∧ cs_meter_start_uwh c2 = cs_meter_start_uwh c) as [E1 E2]
    by (unfold c2, c1; repeat case_match; done).
  assert ((∀ v, latest = Some v → v ≤ stop) ∨ "stop_meter_below_latest" ∈ cs_review_reasons c2) as Hl.
  { unfold c2, c1. destruct latest as [v|]; [|by left]. destruct (Z.ltb_spec stop v); [right|left; intros ? [= <-]; lia].
    unfold set_review, forget_reasons. simpl. apply list_elem_of_filter. rewrite review_in. split; [set_solver|by right]. }
  rewrite E1. clearbody c2. clear c1. destruct (Z.ltb_spec (so_timestamp p) (cs_started_at c)) as [|Hst].
  { set (c3 := set_review (review _) c2). case_match; simpl; intros Hn; exfalso; [by apply review_nil in Hn|].
    destruct (_ <=? _); simpl in Hn; by apply review_nil in Hn. }
  rewrite E2. case_match eqn:E; simpl; [by intros ?%review_nil|].
  rewrite E1. destruct (Z.leb_spec (cs_started_at c) (so_timestamp p)); [|lia]. simpl. intros Hnil.
  apply orb_false_iff in E as [[? ?]%orb_false_iff ?]. rewrite Hnil in Hl.
  destruct Hl as [Hl|?%elem_of_nil]; [|done]. repeat split; auto; lia.
Qed.

Definition core (c : ChargingSession) : Z * Z * option Z * Z * option Z * option Z :=
  (cs_id c, cs_started_at c, cs_ended_at c, cs_meter_start_uwh c, cs_meter_stop_uwh c, cs_energy_uwh c).

(** The row keeps its readings; reasons may be added. *)
Definition sealed (k : Z) (c0 : ChargingSession) (samples : list MeterSample) (db : Db) : Prop :=
  meter_samples db = samples ∧ ∃ c, charging_sessions db !! k = Some c ∧ core c = core c0 ∧
    (cs_review_reasons c = [] → cs_review_reasons c0 = []).

Lemma keeps_sealed_update k c0 l f :
  (∀ c, core (f c) = core c ∧ (cs_review_reasons (f c) = [] → cs_review_reasons c = [])) →
  keeps (sealed k c0 l) (update_session k f).
Proof.
  intros Hf db (Hm & c & Hc & He & Hr). split; [done|]. exists (f c). simpl. rewrite lookup_alter_eq, Hc.
  destruct (Hf c) as [H1 H2]. split; [done|]. split; [congruence|auto].
Qed.

Lemma keeps_sealed_flag k c0 l reason : keeps (sealed k c0 l) (update_session k (flag reason)).
Proof.
  apply keeps_sealed_update. intros c. unfold flag. case_decide; [done|]. split; [done|]. simpl.
  by intros [? ?]%app_eq_nil.
Qed.

Lemma keeps_sealed_released k c0 l v : keeps (sealed k c0 l) (update_session k (set_cs_connector_released_at v)).
Proof. by apply keeps_sealed_update. Qed.

Lemma keeps_sealed_other k c0 l (f : Db → Db) :
  (∀ db, meter_samples (f db) = meter_samples db) → (∀ db, charging_sessions (f db) = charging_sessions db) →
  keeps (E := Exn) (sealed k c0 l) (modify f).
Proof. intros Hm Hc db H. unfold sealed, modify. simpl. by rewrite Hm, Hc. Qed.

Lemma keeps_sealed_fresh_id k c0 l : keeps (sealed k c0 l) fresh_id.
Proof. intros db H. exact H. Qed.

#[local] Hint Resolve keeps_sealed_flag keeps_sealed_released keeps_sealed_fresh_id : csms_keeps.
#[local] Hint Extern 2 (keeps (sealed _ _ _) (modify _)) =>
  apply keeps_sealed_other; intros; reflexivity : csms_keeps.

Lemma keeps_sealed_note_stop k c0 l : keeps (sealed k c0 l) (note_stop k).
Proof. unfold note_stop, release, session_row, update_interval, add_event. keeps_steps.
Qed.

Lemma keeps_sealed_event k c0 l j a b d : keeps (sealed k c0 l) (add_event j a b d).
Proof. unfold add_event. keeps_steps. Qed.

Lemma keeps_sealed_notify k c0 l c kind inv at_ eid : keeps (sealed k c0 l) (notify_event c kind inv at_ eid).
Proof.
  intros db H. destruct (notify_event _ _ _ _ _ db) as [r db'] eqn:E.
  by apply notify_event_cases in E as [->|(driver & t & msg & n & _ & _ & -> & _)].
Qed.
#[local] Hint Resolve keeps_sealed_note_stop keeps_sealed_event keeps_sealed_notify : csms_keeps.

(** The state between the samples and the final bookkeeping of a stop. *)
Lemma stop_transaction_sealed charger call p c db db' :
  metering_ok db → charging_sessions db !! so_transaction_id p = Some c → cs_charge_point_id c = charger →
  cs_ended_at c = None → stop_transaction charger call p db = (inr (), db') →
  ∃ db2 c2, metering_ok db2 ∧ charging_sessions db2 !! so_transaction_id p = Some c2 ∧
    cs_started_at c2 = cs_started_at c ∧ cs_meter_start_uwh c2 = cs_meter_start_uwh c ∧
    cs_ended_at c2 = Some (so_timestamp p) ∧ cs_meter_stop_uwh c2 = Some (so_meter_stop p * micro) ∧
    sealed (so_transaction_id p) (stopped p (latest_energy c2 (so_timestamp p) db2) c2) (meter_samples db2) db'.
Proof.
  intros Hok Hc Hcp Hend. unfold stop_transaction. set (tid := so_transaction_id p) in *.
  rewrite (bind_ok_step _ _ _ (charging_sessions db !! tid) db) by done. rewrite Hc, Hcp, Z.eqb_refl, Hend.
  cbn [negb]. rewrite bool_decide_eq_false_2 by (by intros [? ?]).
  set (f := λ c, set_cs_stop_reason _ _). set (db1 := write_session tid f db).
  rewrite (bind_ok_step _ _ _ () db1) by done.
  assert (metering_ok db1) as H1 by (apply metering_write; [by intros; repeat split|done]).
  rewrite (bind_ok_step _ _ _ (samples_of tid db1) db1) by done.
  assert (charging_sessions db1 !! tid = Some (f c)) as Hc1 by (simpl; by rewrite lookup_alter_eq, Hc).
  pose proof (metering_keyed _ H1 tid (f c) Hc1) as Hk.
  intros (rows & db1' & Est & H)%bind_ok. pose proof Est as Est'.
  apply (store_samples_cases tid _ _ (f c)) in Est as [(e & ? & _)|(reasons & rows0 & [= <-] & -> & Hin)]; [done| |done|done].
  apply bind_ok in H as ([] & db2 & Ei & H).
  pose proof (ingest_ok tid (so_data p) (bool_decide (is_Some (cs_recovery_at c))) (f c) db1 H1 Hc1) as H2.
  rewrite (bind_ok_step _ _ _ _ _ Est'), Ei in H2. simpl in H2.
  assert (charging_sessions db2 !! tid = Some (set_cs_review_reasons reasons (f c))) as Hc2.
  { rewrite <- Hk in Hc1 |- *. apply insert_meter_rows_cases in Ei as [->|(_ & rows' & _ & _ & ->)]; by apply flagged_lookup. }
  set (c2 := set_cs_review_reasons reasons (f c)) in *.
  exists db2, c2. split; [done|]. split; [done|]. split; [done|]. split; [done|]. split; [done|]. split; [done|].
  rewrite (bind_ok_step _ _ _ c2 db2) in H by (by apply session_row_some).
  rewrite (bind_ok_step _ _ _ (latest_energy c2 (so_timestamp p) db2) db2) in H by done.
  set (latest := latest_energy c2 (so_timestamp p) db2) in *.
  rewrite (bind_ok_step _ _ _ () (write_session tid (stopped p latest) db2)) in H by done.
  eapply keeps_run; [| |exact H]; [unfold session_row; keeps_steps|].
  split; [done|]. exists (stopped p latest c2). simpl. by rewrite lookup_alter_eq, Hc2.
Qed.
End stop.

(** Samples that agree with the readings already there are all taken. *)
Lemma add_samples_total samples m :
  NoDup (ms_timestamp <$> samples) →
  (∀ s, s ∈ samples → ms_unit s = "Wh" ∧ 0 ≤ ms_value_u s ∧
     ∀ v, m !! ms_timestamp s = Some v → v = ms_value_u s) →
  ∃ m', add_samples m samples = inr m' ∧
    ∀ t v, m' !! t = Some v ↔ m !! t = Some v ∨ ∃ s, s ∈ samples ∧ ms_timestamp s = t ∧ ms_value_u s = v.
Proof.
  revert m. induction samples as [|s samples IH]; intros m Hnd Hs; simpl.
  { exists m. split; [done|]. set_solver. }
  rewrite fmap_cons in Hnd. apply NoDup_cons in Hnd as [Hnew Hnd].
  destruct (Hs s) as (Hu & Hv & Hm); [set_solver|]. rewrite bool_decide_eq_true_2 by done.
  destruct (Z.leb_spec 0 (ms_value_u s)); [|lia]. simpl.
  rewrite bool_decide_eq_false_2 by (intros [[v Hl] Hne]; rewrite Hl in Hne; by rewrite (Hm v Hl) in Hne).
  destruct (IH (<[ms_timestamp s := ms_value_u s]> m) Hnd) as (m' & E & Hm').
  { intros x Hx. destruct (Hs x) as (? & ? & Hx2); [set_solver|]. split; [done|]. split; [done|].
    intros v. rewrite lookup_insert_ne; [auto|]. intros Heq. apply Hnew. rewrite Heq. by apply list_elem_of_fmap_2. }
  exists m'. split; [done|]. intros t v. rewrite Hm', lookup_insert_Some. split.
  - intros [[[<- <-]|[_ ?]]|(x & ? & ? & ?)]; [right; exists s; set_solver|by left|right; exists x; set_solver].
  - intros [Hl|(x & [->|Hx]%elem_of_cons & <- & <-)]; [|by left; left|right; eauto].
    left. destruct (decide (ms_timestamp s = t)) as [<-|]; [left; by rewrite (Hm v Hl)|by right].
Qed.

Lemma meter_decreased_false m :
  (∀ t v t' v', m !! t = Some v → m !! t' = Some v' → t < t' → v ≤ v') → meter_decreased (ordered_readings m) = false.
Proof.
  intros H. destruct (meter_decreased _) eqn:E; [|done]. apply existsb_exists in E as ([a b] & Hab & Hlt).
  apply list_elem_of_In in Hab. pose proof (pairwise_related _ _ _ _ (ordered_readings_time m) Hab) as Ht.
  apply elem_of_pairwise_1 in Hab as [Ha%elem_of_ordered Hb%elem_of_ordered].
  specialize (H _ _ _ _ Ha Hb Ht). lia.
Qed.

Lemma latest_energy_max c until db m :
  m ∈ samples_of (cs_id c) db → key_of m = energy_key → ms_unit m = "Wh" →
  cs_started_at c ≤ ms_timestamp m ≤ until →
  ∃ x, latest_energy c until db = Some (ms_value_u x) ∧ x ∈ samples_of (cs_id c) db ∧ key_of x = energy_key ∧
    ms_timestamp m ≤ ms_timestamp x.
Proof.
  intros Hm Hk Hu Ht. unfold latest_energy. set (l := filter _ (meter_samples db)).
  assert (m ∈ sort_by ms_timestamp l) as Hin.
  { rewrite elem_of_sort_by. apply list_elem_of_filter in Hm as [Hid Hm]. apply list_elem_of_filter. auto. }
  destruct (last (sort_by ms_timestamp l)) as [x|] eqn:E.
  - exists x. split; [done|]. pose proof (last_Some_elem_of _ _ E) as Hx. rewrite elem_of_sort_by in Hx.
    apply list_elem_of_filter in Hx as ((Hid & Hkx & _) & Hx). split; [by apply list_elem_of_filter|]. split; [done|].
    pose proof (sort_by_sorted ms_timestamp l) as Hs. apply last_Some in E as [l' E]. rewrite E in Hs, Hin.
    apply StronglySorted_app in Hs as (Hs & _ & _). apply elem_of_app in Hin as [Hin| ->%list_elem_of_singleton]; [|lia].
    by apply (Hs m x Hin); apply list_elem_of_singleton.
  - apply last_None in E. rewrite E in Hin. by apply elem_of_nil in Hin.
Qed.

Lemma energy_samples_distinct c e db :
  NoDup (rd_time <$> trace (samples_of (cs_id c) db)) → NoDup (ms_timestamp <$> energy_samples c e db).
Proof.
  unfold trace, energy_samples. rewrite <- list_fmap_compose. intros H. rewrite sort_by_perm.
  eapply (NoDup_fmap_filter ms_timestamp (λ m, cs_started_at c ≤ ms_timestamp m ≤ e)) in H.
  revert H. unfold samples_of. rewrite !list_filter_filter. intros H.
  erewrite list_filter_ext; [exact H|]. intros m _. unfold key_of, energy_key, energy_register. split.
  - intros (? & ? & ? & -> & -> & ->). auto.
  - intros [[[? ?] Hk] ?]. injection Hk as Hm Hp Hl. auto 10.
Qed.

(** The readings of a session that stopped cleanly. *)
Lemma clean_readings db c stop e :
  series_of db c → ¬ regressed (cs_review_reasons c) → cs_meter_stop_uwh c = Some stop →
  0 ≤ cs_meter_start_uwh c ≤ stop → cs_started_at c < e →
  (∀ v, latest_energy c e db = Some v → v ≤ stop) →
  (∀ m, m ∈ energy_samples c e db →
     (ms_timestamp m = cs_started_at c → ms_value_u m = cs_meter_start_uwh c) ∧
     (ms_timestamp m = e → ms_value_u m = stop)) →
  ∃ readings, _meter_values c e db = (inr readings, db).
Proof.
  intros Hser Hnr Hstop Hpos Hlt Hlast Hends. unfold _meter_values. rewrite Hstop. unfold _valid_reading at 1 2.
  destruct (Z.leb_spec 0 (cs_meter_start_uwh c)); [|lia]. destruct (Z.leb_spec 0 stop); [|lia].
  cbn [andb]. rewrite (bind_ok_step _ _ _ stop db) by done.
  rewrite (bind_ok_step _ _ _ (energy_samples c e db) db) by done.
  assert (∀ m, m ∈ energy_samples c e db → m ∈ samples_of (cs_id c) db ∧ key_of m = energy_key ∧
    cs_started_at c ≤ ms_timestamp m ≤ e) as Hin.
  { intros m. unfold energy_samples. rewrite elem_of_sort_by, list_elem_of_filter.
    intros ((? & ? & ? & Hm & Hp & Hl) & ?). split; [by apply list_elem_of_filter|]. split; [|lia].
    unfold key_of. by rewrite Hm, Hp, Hl. }
  destruct Hser as [S1 S2 S3 S4]. specialize (S3 Hnr). specialize (S4 Hnr).
  assert (∀ m, m ∈ energy_samples c e db → reading m ∈ trace (samples_of (cs_id c) db)) as Htr
    by (intros m (? & ? & _)%Hin; apply elem_of_trace; eauto).
  destruct (add_samples_total (energy_samples c e db) (<[e := stop]> {[cs_started_at c := cs_meter_start_uwh c]}))
    as (m' & E & Hm').
  { by apply energy_samples_distinct. }
  { intros s Hs. destruct (S1 _ (Htr s Hs)) as [_ Hu]. pose proof (S4 _ (Htr s Hs)) as Hv. simpl in Hu, Hv.
    split; [done|]. split; [lia|]. destruct (Hends s Hs) as [He1 He2]. intros v.
    intros [[Ht <-]|[_ [Ht <-]%lookup_singleton_Some]]%lookup_insert_Some; symmetry; auto. }
  rewrite (bind_ok_step _ _ _ m' db) by (unfold lift; by rewrite E).
  rewrite meter_decreased_false; [by eexists|].
  assert (∀ s, s ∈ energy_samples c e db → ms_value_u s ≤ stop) as Hbelow.
  { intros s Hs. destruct (Hin s Hs) as (Hs1 & Hs2 & Hs3).
    destruct (S1 _ (Htr s Hs)) as [_ Hu]. destruct (latest_energy_max c e db s) as (x & Hl & Hx & Hkx & Hle); [done..|].
    specialize (Hlast _ Hl). assert (reading x ∈ trace (samples_of (cs_id c) db)) as Hxt by (apply elem_of_trace; eauto).
    pose proof (S3 _ _ (Htr s Hs) Hxt Hle) as Hv. simpl in Hv. lia. }
  assert (∀ t v, m' !! t = Some v → (t = e ∧ v = stop) ∨ (t = cs_started_at c ∧ v = cs_meter_start_uwh c) ∨
    ∃ s, s ∈ energy_samples c e db ∧ ms_timestamp s = t ∧ ms_value_u s = v) as Hcase.
  { intros t v [[[<- <-]|[_ [<- <-]%lookup_singleton_Some]]%lookup_insert_Some|?]%Hm'; auto. }
  intros t v t' v' [[-> ->]|[[-> ->]|(s & Hs & <- & <-)]]%Hcase [[-> ->]|[[-> ->]|(s' & Hs' & <- & <-)]]%Hcase Htt;
    try lia; try (by apply Hbelow).
  - destruct (Hin s' Hs') as (_ & _ & ?). lia.
  - apply (S4 _ (Htr s' Hs')).
  - destruct (Hin s Hs) as (_ & _ & ?). lia.
  - apply (S3 _ _ (Htr s Hs) (Htr s' Hs')). simpl. lia.
Qed.

Lemma stopped_core {dep : Deployment} p latest c :
  (cs_id (stopped p latest c), cs_started_at (stopped p latest c), cs_ended_at (stopped p latest c),
   cs_meter_start_uwh (stopped p latest c), cs_meter_stop_uwh (stopped p latest c)) =
  (cs_id c, cs_started_at c, cs_ended_at c, cs_meter_start_uwh c, cs_meter_stop_uwh c).
Proof. unfold stopped. repeat case_match; done. Qed.

(** Recorded for review, nothing else. *)
Definition turned_away (charger : Z) (call : Call) (db db' : Db) : Prop :=
  charging_sessions db' = charging_sessions db ∧ meter_samples db' = meter_samples db ∧
  ∃ m, pending_messages db' = pending_messages db ++ [m] ∧ pm_charge_point_id m = charger ∧
    pm_message_id m = ca_message_id call ∧ ∀ v, ("idTag", v) ∉ pm_payload m.

Lemma pending_turned_away charger call reason db u db' :
  pending charger call reason db = (inr u, db') → turned_away charger call db db'.
Proof.
  intros [= _ <-]. split; [done|]. split; [done|]. eexists. split; [done|]. split; [done|]. split; [done|].
  intros v. simpl. by intros [? _]%list_elem_of_filter.
Qed.


(** ** A session in progress *)

Definition running_session : ChargingSession :=
  set_cs_meter_stop_uwh None (set_cs_ended_at None (set_cs_connector_released_at None bill_session)).
Definition running_db : Db :=
  set_occupation_intervals [] (set_charging_sessions {[ 1 := running_session ]} bill_db).

Definition demo_call (action : string) : Call := mkCall "m1" action [("idTag", JStr "TAG")].
Definition demo_report : MeterPayload :=
  mkMeterPayload 1 (Some 1) [mkBlock (hours 15) [reading_of "1.5" (Some "kWh")]].
Definition demo_stop : StopPayload := mkStopPayload 1 3000 (hours 16) "Local" [].

Definition metered_db : Db := (meter_call 40 (demo_call "MeterValues") demo_report running_db).2.

Lemma running_ok : metering_ok running_db.
Proof.
  assert (∀ k c, charging_sessions running_db !! k = Some c → k = 1 ∧ c = running_session) as Hs.
  { intros k c Hk. change (charging_sessions running_db) with ({[ 1 := running_session ]} : gmap Z ChargingSession) in Hk.
    by apply lookup_singleton_Some in Hk as [<- <-]. }
  split.
  - by intros k c [-> ->]%Hs.
  - intros k c _. apply series_nil.
  - intros m Hm. by apply elem_of_nil in Hm.
  - by intros k k' c c' n [-> _]%Hs [-> _]%Hs.
Qed.

Lemma meter_series_sound_witness :
  ∃ c, charging_sessions metered_db !! 1 = Some c ∧
    NoDup (ms_timestamp <$> filter (λ m, key_of m = energy_key) (samples_of 1 metered_db)) ∧
    (ms_value_u <$> samples_of 1 metered_db) = [1500000000] ∧ cs_review_reasons c = [].
Proof.
  exists running_session.
  assert (charging_sessions metered_db !! 1 = Some running_session) as Hc by (vm_compute; reflexivity).
  split; [exact Hc|]. split; [|split; vm_compute; reflexivity].
  apply (meter_series_sound (dep := demo_deployment) running_db metered_db 1 running_session); [apply running_ok| |exact Hc].
  apply rtc_once. eapply meter_meter. apply surjective_pairing.
Defined.

