(* ===== verification/WaterFilling.v ===== *)
(** * WaterFilling: equal-share allocation in integer watts

    Models [src/src/modules/power/allocation.py], the allocation the power
    worker applies to the sessions of a station. The [while] loop takes fuel; a
    round that does not stop satisfies at least one demand. *)

From S2P Require Import Prelude Text Store.

(** One capped demand: [remaining.pop], [result[key] = value], [budget -= value]. *)
Definition satisfy (st : Z * gmap Z Z * gmap Z Z) (demand : Z * Z) : Z * gmap Z Z * gmap Z Z :=
  let '(budget, remaining, result) := st in
  (budget - demand.2, delete demand.1 remaining, <[demand.1 := demand.2]> result).

(** The [while] loop; [None] is running out of fuel. *)
Fixpoint pour (fuel : nat) (budget : Z) (remaining result : gmap Z Z) : option (gmap Z Z) :=
  match fuel with
  | O => None
  | S fuel =>
      if bool_decide (remaining = ∅) || (budget =? 0) then Some result
      else
        let share := budget / Z.of_nat (size remaining) in
        if share =? 0 then Some result
        else
          match filter (λ p, p.2 ≤ share) (map_to_list remaining) with
          | [] => Some (((λ _, share) <$> remaining) ∪ result)
          | capped =>
              let '(budget, remaining, result) := foldl satisfy (budget, remaining, result) capped in
              pour fuel budget remaining result
          end
  end.

(** Enough fuel gives the result: see [allocate_watts_level]. *)
Definition allocate_watts (fuel : nat) (budget : Z) (demands : gmap Z Z) : option (Exn + gmap Z Z) :=
  if budget <? 0 then Some (inl ValueError)
  else if negb (forallb (λ p, 0 <=? p.2) (map_to_list demands)) then Some (inl ValueError)
  else inr <$> pour fuel budget (filter (λ p, p.2 ≠ 0) demands) ((λ _, 0) <$> demands).

Example allocate_ex :
  allocate_watts 9 100 {[ 1 := 10; 2 := 70; 3 := 0; 4 := 50 ]} = Some (inr {[ 1 := 10; 2 := 45; 3 := 0; 4 := 45 ]}).
Proof. vm_compute. reflexivity. Qed.

(** ** Sums over a map *)

Section sums.
Implicit Types (D R : gmap Z Z) (f : Z * Z → Z).

Definition total f D : Z := sumZ (f <$> map_to_list D).

Definition among R (p : Z * Z) : bool := bool_decide (is_Some (R !! p.1)).

Lemma total_ext f g D : (∀ k d, D !! k = Some d → f (k, d) = g (k, d)) → total f D = total g D.
Proof. intros H. apply sumZ_fmap_ext. intros [k d] Hk%elem_of_map_to_list. by apply H. Qed.

Lemma total_le f g D : (∀ k d, D !! k = Some d → f (k, d) ≤ g (k, d)) → total f D ≤ total g D.
Proof. intros H. apply sumZ_fmap_le. intros [k d] Hk%elem_of_map_to_list. by apply H. Qed.

Lemma total_add f g D : total f D + total g D = total (λ p, f p + g p) D.
Proof.
  unfold total. induction (map_to_list D) as [|x l IH]; [done|]. rewrite !fmap_cons, !sumZ_cons, <- IH. lia.
Qed.

Lemma total_mul (c : Z) f D : total (λ p, c * f p) D = c * total f D.
Proof.
  unfold total. induction (map_to_list D) as [|x l IH]; [simpl; lia|]. rewrite !fmap_cons, !sumZ_cons, IH. lia.
Qed.

Lemma sumZ_filter (P : Z * Z → bool) f l :
  sumZ (f <$> filter (λ p, P p = true) l) = sumZ ((λ p, if P p then f p else 0) <$> l).
Proof.
  induction l as [|x l IH]; [done|]. rewrite filter_cons. case_decide as H;
    rewrite !fmap_cons, !sumZ_cons, IH; destruct (P x); done || lia.
Qed.

(** The sum over a part of a map, taken over the whole map. *)
Lemma sum_sub f l R D :
  NoDup l → (∀ k d, (k, d) ∈ l ↔ R !! k = Some d) → R ⊆ D →
  sumZ (f <$> l) = total (λ p, if among R p then f p else 0) D.
Proof.
  intros Hn Hl HR. unfold total. rewrite <- sumZ_filter. apply sumZ_perm, fmap_Permutation, NoDup_Permutation; [done| |].
  - apply NoDup_filter, NoDup_map_to_list.
  - intros [k d]. rewrite Hl, list_elem_of_filter, elem_of_map_to_list. unfold among. simpl.
    rewrite bool_decide_eq_true. split.
    + intros Hk. split; [eauto|]. by eapply lookup_weaken.
    + intros [[d' Hk] Hd]. pose proof (lookup_weaken _ _ _ _ Hk HR). congruence.
Qed.

Lemma total_sub f R D : R ⊆ D → total f R = total (λ p, if among R p then f p else 0) D.
Proof. apply sum_sub; [apply NoDup_map_to_list|]. intros k d. apply elem_of_map_to_list. Qed.

Lemma total_size R D : R ⊆ D → Z.of_nat (size R) = total (λ p, if among R p then 1 else 0) D.
Proof.
  intros HR. rewrite <- (total_sub (λ _, 1) R D HR). unfold total. rewrite <- length_map_to_list.
  induction (map_to_list R) as [|x l IH]; [done|]. rewrite fmap_cons, sumZ_cons, <- IH. simpl. lia.
Qed.
(** The sum of a map obtained value by value. *)
Lemma total_values (f : Z → Z) R D :
  dom R = dom D → (∀ k d, D !! k = Some d → R !! k = Some (f d)) → total snd R = total (λ p, f p.2) D.
Proof.
  intros Hdom Hget. assert (R = f <$> D) as ->.
  { apply map_eq. intros k. rewrite lookup_fmap. destruct (D !! k) as [d|] eqn:Hk; simpl; [by apply Hget|].
    apply not_elem_of_dom. rewrite Hdom. by apply not_elem_of_dom. }
  unfold total. rewrite map_to_list_fmap, <- list_fmap_compose. apply sumZ_fmap_ext. by intros [k d] _.
Qed.
End sums.

(** ** The loop *)

(** What a round does to the state, key by key. *)
Lemma satisfy_all l budget remaining result :
  NoDup l.*1 →
  let '(budget', remaining', result') := foldl satisfy (budget, remaining, result) l in
  budget' = budget - sumZ l.*2 ∧
  (∀ k, k ∈ l.*1 → remaining' !! k = None) ∧
  (∀ k, k ∉ l.*1 → remaining' !! k = remaining !! k ∧ result' !! k = result !! k) ∧
  (∀ k v, (k, v) ∈ l → result' !! k = Some v).
Proof.
  revert budget remaining result. induction l as [|[j w] l IH]; intros budget remaining result;
    cbn [foldl satisfy fst snd]; rewrite ?fmap_cons, ?sumZ_cons; cbn [fst snd].
  - intros _. change (sumZ [].*2) with 0. split_and!; [lia|by intros ? ?%elem_of_nil|done|by intros ? ? ?%elem_of_nil].
  - intros [Hj Hl]%NoDup_cons. specialize (IH (budget - w) (delete j remaining) (<[j:=w]> result) Hl).
    destruct (foldl _ _ _) as [[b' r'] s']. destruct IH as (-> & H1 & H2 & H3). split_and!; [lia| | |].
    + intros k [->|Hk]%elem_of_cons; [|by apply H1]. destruct (H2 j Hj) as [-> _]. by rewrite lookup_delete_eq.
    + intros k [Hkj Hk]%not_elem_of_cons. destruct (H2 k Hk) as [-> ->].
      by rewrite lookup_delete_ne, lookup_insert_ne.
    + intros k v [[= -> ->]|Hk]%elem_of_cons; [|by apply H3].
      destruct (H2 j Hj) as [_ ->]. by rewrite lookup_insert_eq.
Qed.

(** A round meets the demands that fit the share and keeps the others. *)
Lemma satisfy_capped share budget remaining result :
  foldl satisfy (budget, remaining, result) (filter (λ p, p.2 ≤ share) (map_to_list remaining)) =
  (budget - total snd (filter (λ p, p.2 ≤ share) remaining),
   filter (λ p, ¬ p.2 ≤ share) remaining, filter (λ p, p.2 ≤ share) remaining ∪ result).
Proof.
  set (met := filter (λ p : Z * Z, p.2 ≤ share) remaining).
  assert (filter (λ p, p.2 ≤ share) (map_to_list remaining) ≡ₚ map_to_list met) as Hl.
  { apply NoDup_Permutation; [apply NoDup_filter, NoDup_map_to_list|apply NoDup_map_to_list|].
    intros [k d]. rewrite list_elem_of_filter, !elem_of_map_to_list. unfold met. rewrite map_lookup_filter_Some. tauto. }
  set (l := filter (λ p, p.2 ≤ share) (map_to_list remaining)) in *.
  assert (∀ k, k ∈ l.*1 ↔ is_Some (met !! k)) as Hk.
  { intros k. rewrite Hl, list_elem_of_fmap. split.
    - intros ([k' d] & -> & ?%elem_of_map_to_list). eauto.
    - intros [d ?%elem_of_map_to_list]. by exists (k, d). }
  assert (NoDup l.*1) as Hn by (rewrite Hl; apply NoDup_fst_map_to_list).
  pose proof (satisfy_all l budget remaining result Hn) as Hs.
  destruct (foldl satisfy _ l) as [[b' r'] s']. destruct Hs as (-> & Hgone & Hkeep & Hmet).
  assert (∀ k, is_Some (met !! k) ↔ ∃ d, remaining !! k = Some d ∧ d ≤ share) as Hin.
  { intros k. unfold is_Some, met. setoid_rewrite map_lookup_filter_Some. done. }
  f_equal; [f_equal|].
  - unfold total. by rewrite Hl.
  - apply map_eq. intros k. destruct (decide (k ∈ l.*1)) as [Hkl|Hkl].
    + rewrite (Hgone k Hkl). apply Hk, Hin in Hkl as (d & Hd & ?). symmetry. apply map_lookup_filter_None_2.
      right. intros d' ? Hx. simplify_eq. by apply Hx.
    + destruct (Hkeep k Hkl) as [-> _]. rewrite Hk, Hin in Hkl. rewrite map_lookup_filter.
      destruct (remaining !! k) as [d|]; simpl; [|done]. case_guard; naive_solver.
  - apply map_eq. intros k. destruct (decide (k ∈ l.*1)) as [Hkl|Hkl].
    + apply Hk in Hkl as [d Hd]. rewrite (lookup_union_Some_l _ _ _ _ Hd). apply Hmet. rewrite Hl. by apply elem_of_map_to_list.
    + destruct (Hkeep k Hkl) as [_ ->]. rewrite Hk in Hkl. rewrite lookup_union_r; [done|]. by apply eq_None_not_Some.
Qed.

(** [level] is a common cap: everyone gets the smaller of demand and cap, the
    sum fits and, unless every demand is met, one watt more each would not. *)
Definition water_level (budget : Z) (demands result : gmap Z Z) (level : Z) : Prop :=
  dom result = dom demands ∧ 0 ≤ level ∧
  (∀ k d, demands !! k = Some d → result !! k = Some (Z.min d level)) ∧
  total snd result ≤ budget ∧
  ((∀ k d, demands !! k = Some d → d ≤ level) ∨ budget < total (λ p, Z.min p.2 (level + 1)) demands).

Section loop.
Context (B0 : Z) (D : gmap Z Z).

(** Demands above the level reached so far remain, the others are met. *)
Record pouring (level budget : Z) (remaining result : gmap Z Z) : Prop := mkPouring {
  pouring_level : 0 ≤ level;
  pouring_room : level * Z.of_nat (size remaining) ≤ budget;
  pouring_dom : dom result = dom D;
  pouring_sub : ∀ k d, remaining !! k = Some d → D !! k = Some d ∧ 0 < d ∧ result !! k = Some 0;
  pouring_met : ∀ k d, D !! k = Some d → remaining !! k = None → d ≤ level ∧ result !! k = Some d;
  pouring_budget : budget = B0 - total (λ p, if among remaining p then 0 else p.2) D
}.

Lemma pouring_subset l b r s : pouring l b r s → r ⊆ D.
Proof. intros H. apply map_subseteq_spec. intros k d Hk. by apply (pouring_sub _ _ _ _ H). Qed.

(** Giving [share] to everyone left reaches the level [share]. *)
Lemma pouring_stop level budget remaining result share out :
  pouring level budget remaining result → level ≤ share → 
  share * Z.of_nat (size remaining) ≤ budget < (share + 1) * Z.of_nat (size remaining) →
  (∀ k d, remaining !! k = Some d → share < d) → dom out = dom D →
  (∀ k, is_Some (remaining !! k) → out !! k = Some share) →
  (∀ k, remaining !! k = None → out !! k = result !! k) →
  water_level B0 D out share.
Proof.
  intros Hp Hle Hb Hbig Hdom Hin Hout. pose proof (pouring_subset _ _ _ _ Hp) as Hsub.
  assert (∀ k d, D !! k = Some d → out !! k = Some (Z.min d share)) as Hget.
  { intros k d Hk. destruct (remaining !! k) as [d'|] eqn:Hr.
    - rewrite (Hin k) by eauto. destruct (pouring_sub _ _ _ _ Hp k d' Hr) as [? _]. specialize (Hbig k d' Hr).
      f_equal. simplify_eq. lia.
    - rewrite (Hout k Hr). destruct (pouring_met _ _ _ _ Hp k d Hk Hr) as [? ->]. f_equal. lia. }
  assert (∀ c, share ≤ c ≤ share + 1 →
    total (λ p, Z.min p.2 c) D = B0 - budget + c * Z.of_nat (size remaining)) as Hsum.
  { intros c Hc. rewrite (pouring_budget _ _ _ _ Hp), (total_size remaining D Hsub), <- total_mul.
    replace (B0 - (B0 - total (λ p, if among remaining p then 0 else p.2) D))
      with (total (λ p, if among remaining p then 0 else p.2) D) by lia.
    rewrite total_add. apply total_ext. intros k d Hk. unfold among. simpl. case_bool_decide as Hr; simpl.
    - destruct Hr as [d' Hr]. destruct (pouring_sub _ _ _ _ Hp k d' Hr) as [? _]. specialize (Hbig k d' Hr).
      simplify_eq. lia.
    - apply eq_None_not_Some in Hr. destruct (pouring_met _ _ _ _ Hp k d Hk Hr). lia. }
  split; [done|]. split; [pose proof (pouring_level _ _ _ _ Hp); lia|]. split; [done|]. split.
  - rewrite (total_values (λ d, Z.min d share) out D Hdom Hget), Hsum; lia.
  - right. rewrite Hsum; lia.
Qed.

(** A round raises the level to the share of those who remain. *)
Lemma pouring_round level budget remaining result share :
  pouring level budget remaining result → level ≤ share → share * Z.of_nat (size remaining) ≤ budget →
  pouring share (budget - total snd (filter (λ p, p.2 ≤ share) remaining))
    (filter (λ p, ¬ p.2 ≤ share) remaining) (filter (λ p, p.2 ≤ share) remaining ∪ result).
Proof.
  intros Hp Hle Hb. pose proof (pouring_subset _ _ _ _ Hp) as Hsub.
  set (met := filter (λ p, p.2 ≤ share) remaining). set (rest := filter (λ p, ¬ p.2 ≤ share) remaining).
  assert (met ⊆ D) as Hm by (etrans; [apply map_filter_subseteq|done]).
  assert (rest ⊆ D) as Hr by (etrans; [apply map_filter_subseteq|done]).
  (* of the demands left, each is either met now or still left *)
  assert (∀ k d, D !! k = Some d →
    among met (k, d) = among remaining (k, d) && bool_decide (d ≤ share) ∧
    among rest (k, d) = among remaining (k, d) && negb (bool_decide (d ≤ share))) as Hparts.
  { intros k d Hd. pose proof (pouring_sub _ _ _ _ Hp k) as Hk. unfold among, met, rest. cbn [fst].
    rewrite !map_lookup_filter. destruct (remaining !! k) as [d'|]; [|done].
    destruct (Hk d' eq_refl) as [? _]. simplify_eq/=.
    destruct (decide (d ≤ share)); simpl; repeat case_guard; repeat case_bool_decide; naive_solver. }
  split.
  - pose proof (pouring_level _ _ _ _ Hp). lia.
  - rewrite (total_sub snd met D Hm), (total_size rest D Hr).
    rewrite (total_size remaining D Hsub) in Hb. rewrite <- total_mul in *.
    enough (total (λ p, share * (if among rest p then 1 else 0)) D + total (λ p, if among met p then p.2 else 0) D
      ≤ total (λ p, share * (if among remaining p then 1 else 0)) D) by lia.
    rewrite total_add. apply total_le. intros k d Hd. destruct (Hparts k d Hd) as [-> ->].
    destruct (among remaining _); simpl; [case_bool_decide; simpl|]; lia.
  - rewrite dom_union_L, (pouring_dom _ _ _ _ Hp). apply subseteq_dom in Hm. set_solver.
  - intros k d [Hk Hd]%map_lookup_filter_Some. destruct (pouring_sub _ _ _ _ Hp k d Hk) as (HkD & Hpos & Hz).
    split; [done|]. split; [done|]. rewrite lookup_union_r; [done|]. apply map_lookup_filter_None_2. right.
    intros d' ? H. simplify_eq. done.
  - intros k d Hk Hn. destruct (remaining !! k) as [d'|] eqn:Hk'.
    + destruct (pouring_sub _ _ _ _ Hp k d' Hk') as [? _]. simplify_eq.
      assert (d ≤ share) as Hd.
      { apply dec_stable. intros H. unfold rest in Hn. rewrite map_lookup_filter_None in Hn.
        destruct Hn as [?|Hn]; [congruence|]. by apply (Hn d Hk'). }
      split; [done|]. apply lookup_union_Some_l. by apply map_lookup_filter_Some_2.
    + destruct (pouring_met _ _ _ _ Hp k d Hk Hk') as [? ?]. split; [lia|].
      rewrite lookup_union_r; [done|]. apply map_lookup_filter_None_2. by left.
  - rewrite (pouring_budget _ _ _ _ Hp), (total_sub snd met D Hm).
    enough (total (λ p, if among remaining p then 0 else p.2) D + total (λ p, if among met p then p.2 else 0) D =
      total (λ p, if among rest p then 0 else p.2) D) by lia.
    rewrite total_add. apply total_ext. intros k d Hd. destruct (Hparts k d Hd) as [-> ->].
    destruct (among remaining _); simpl; [case_bool_decide; simpl|]; lia.
Qed.

(** Nothing left: every demand is met. *)
Lemma pouring_done level budget result : pouring level budget ∅ result → water_level B0 D result level.
Proof.
  intros Hp. assert (∀ k d, D !! k = Some d → d ≤ level ∧ result !! k = Some d) as Hall.
  { intros k d Hk. by apply (pouring_met _ _ _ _ Hp). }
  split; [apply Hp|]. split; [apply Hp|]. split; [|split].
  - intros k d Hk. destruct (Hall k d Hk) as [? ->]. f_equal. lia.
  - rewrite (total_values id result D); [|apply Hp|by intros k d Hk; apply Hall].
    pose proof (pouring_budget _ _ _ _ Hp) as Hb. pose proof (pouring_room _ _ _ _ Hp) as Hr.
    rewrite map_size_empty in Hr. rewrite (total_ext _ (λ p, id p.2) D) in Hb by done. lia.
  - left. intros k d Hk. by destruct (Hall k d Hk).
Qed.

Lemma pour_level fuel : ∀ level budget remaining result,
  (size remaining < fuel)%nat → pouring level budget remaining result →
  ∃ out cap, pour fuel budget remaining result = Some out ∧ water_level B0 D out cap.
Proof.
  induction fuel as [|fuel IH]; intros level budget remaining result Hf Hp; [lia|]. cbn [pour].
  destruct (decide (remaining = ∅)) as [->|Hne].
  { rewrite bool_decide_eq_true_2 by done. exists result, level. split; [done|]. by eapply pouring_done. }
  rewrite bool_decide_eq_false_2 by done. cbn [orb].
  assert (0 < Z.of_nat (size remaining)) as Hpos.
  { assert (size remaining ≠ 0%nat) by (by rewrite map_size_non_empty_iff). lia. }
  set (n := Z.of_nat (size remaining)) in *. pose proof (pouring_room _ _ _ _ Hp) as Hroom.
  assert (0 ≤ level) as Hlev by apply Hp. assert (0 ≤ budget) as Hb0 by (fold n in Hroom; nia).
  set (share := budget / n). pose proof (Z.div_mod budget n ltac:(lia)) as Hdm.
  pose proof (Z.mod_pos_bound budget n Hpos) as Hmod.
  assert (share * n ≤ budget < (share + 1) * n) as Hshare by (unfold share; nia).
  assert (level ≤ share) as Hls by (fold n in Hroom; nia).
  assert (level = 0 → share = 0 → (∀ k, is_Some (remaining !! k) → result !! k = Some share)) as Hzero.
  { intros _ -> k [d Hd]. by apply (pouring_sub _ _ _ _ Hp k d). }
  assert (share = 0 → ∃ out cap, Some result = Some out ∧ water_level B0 D out cap) as Hnone.
  { intros Hs. exists result, share. split; [done|].
    apply (pouring_stop level budget remaining result share result Hp Hls); [done| |apply Hp| |done].
    - intros k d Hd. destruct (pouring_sub _ _ _ _ Hp k d Hd). lia.
    - apply Hzero; [lia|done]. }
  destruct (budget =? 0) eqn:Eb; [apply Hnone; apply Z.eqb_eq in Eb; unfold share; by rewrite Eb|].
  destruct (share =? 0) eqn:Es; [by apply Hnone, Z.eqb_eq|].
  pose proof (satisfy_capped share budget remaining result) as Hround.
  destruct (filter (λ p, p.2 ≤ share) (map_to_list remaining)) as [|p l] eqn:El.
  - exists (((λ _, share) <$> remaining) ∪ result), share. split; [done|].
    apply (pouring_stop level budget remaining result share _ Hp Hls); [done| | | |].
    + intros k d Hd. apply Z.nle_gt. intros Hd'.
      assert ((k, d) ∈ filter (λ p, p.2 ≤ share) (map_to_list remaining)) as Hin.
      { apply list_elem_of_filter. by rewrite elem_of_map_to_list. }
      rewrite El in Hin. by apply elem_of_nil in Hin.
    + rewrite dom_union_L, dom_fmap_L, (pouring_dom _ _ _ _ Hp).
      pose proof (subseteq_dom _ _ (pouring_subset _ _ _ _ Hp)). set_solver.
    + intros k [d Hd]. apply lookup_union_Some_l. by rewrite lookup_fmap, Hd.
    + intros k Hk. rewrite lookup_union_r; [done|]. by rewrite lookup_fmap, Hk.
  - rewrite Hround. apply (IH share); [|apply (pouring_round level); [done|done|lia]].
    assert (p ∈ filter (λ p, p.2 ≤ share) (map_to_list remaining)) as Hin by (rewrite El; left).
    destruct p as [k d]. apply list_elem_of_filter in Hin as [Hd Hk%elem_of_map_to_list].
    assert (filter (λ p, ¬ p.2 ≤ share) remaining ⊂ remaining) as Hlt%map_subset_size; [|lia].
    split; [apply map_filter_subseteq|]. intros Hc. pose proof (lookup_weaken _ _ _ _ Hk Hc) as [_ Hbad]%map_lookup_filter_Some.
    by apply Hbad.
Qed.
End loop.

(** The level decides the allocation. *)
Lemma water_level_unique budget demands r1 l1 r2 l2 :
  water_level budget demands r1 l1 → water_level budget demands r2 l2 → r1 = r2.
Proof.
  assert (∀ r1 l1 r2 l2, l1 ≤ l2 → water_level budget demands r1 l1 → water_level budget demands r2 l2 → r1 = r2) as H.
  2: { intros H1 H2. destruct (Z.le_ge_cases l1 l2); [by eapply H|symmetry; by eapply H]. }
  clear. intros r1 l1 r2 l2 Hle (D1 & _ & G1 & _ & M1) (D2 & _ & G2 & T2 & _).
  apply map_eq. intros k. destruct (demands !! k) as [d|] eqn:Hk.
  2: { apply not_elem_of_dom in Hk. transitivity (@None Z); [|symmetry]; apply not_elem_of_dom; congruence. }
  rewrite (G1 k d Hk), (G2 k d Hk). f_equal. destruct M1 as [M1|M1]; [specialize (M1 k d Hk); lia|].
  destruct (decide (l1 = l2)) as [->|]; [done|]. exfalso.
  pose proof (total_values (λ d, Z.min d l2) r2 demands D2 G2) as Ht. cbn beta in Ht.
  assert (total (λ p, Z.min p.2 (l1 + 1)) demands ≤ total (λ p, Z.min p.2 l2) demands); [|lia].
  apply total_le. intros j e _. simpl. lia.
Qed.

Lemma pouring_start budget demands :
  0 ≤ budget → (∀ k d, demands !! k = Some d → 0 ≤ d) →
  pouring budget demands 0 budget (filter (λ p, p.2 ≠ 0) demands) ((λ _, 0) <$> demands).
Proof.
  intros Hb Hd. split; [done|lia|by rewrite dom_fmap_L| | |].
  - intros k d [Hk Hz]%map_lookup_filter_Some. specialize (Hd k d Hk). simpl in Hz.
    split; [done|]. split; [lia|]. by rewrite lookup_fmap, Hk.
  - intros k d Hk Hn. rewrite map_lookup_filter_None in Hn. destruct Hn as [?|Hn]; [congruence|].
    assert (d = 0) as -> by (apply dec_stable; apply (Hn d Hk)). by rewrite lookup_fmap, Hk.
  - rewrite (total_ext _ (λ _, 0) demands).
    + enough (total (λ _, 0) demands = 0) by lia. by apply sumZ_fmap_zero.
    + intros k d Hk. unfold among. simpl. case_bool_decide as Hr; [done|].
      apply dec_stable. intros Hz. apply Hr. exists d. by apply map_lookup_filter_Some_2.
Qed.

(** C35. Water filling: with one unit of fuel more than there are demands the
    loop ends. For a budget and demands that are not negative the result gives
    each session the smaller of its demand and a common level, stays within the
    budget, and the level is the highest whole number of watts for which it
    does: one watt more for each would exceed the budget unless all demands are
    met. No other allocation has these properties. Negative input is refused. *)
Theorem allocate_watts_level fuel budget demands :
  (size demands < fuel)%nat →
  if (0 <=? budget) && forallb (λ p, 0 <=? p.2) (map_to_list demands) then
    ∃ result level, allocate_watts fuel budget demands = Some (inr result) ∧
      water_level budget demands result level ∧
      ∀ result' level', water_level budget demands result' level' → result' = result
  else allocate_watts fuel budget demands = Some (inl ValueError).
Proof.
  intros Hf. unfold allocate_watts. rewrite Z.ltb_antisym. destruct (0 <=? budget) eqn:Hb; [|done].
  cbn [negb andb]. destruct (forallb _ _) eqn:Hd; [|done]. cbn [negb].
  apply Z.leb_le in Hb. rewrite forallb_forall in Hd.
  assert (∀ k d, demands !! k = Some d → 0 ≤ d) as Hpos.
  { intros k d Hk. apply elem_of_map_to_list, list_elem_of_In, Hd in Hk. by apply Z.leb_le. }
  edestruct (pour_level budget demands fuel) as (out & level & -> & Hw);
    [|apply (pouring_start budget demands Hb Hpos)|].
  - eapply Nat.le_lt_trans; [|exact Hf]. apply map_subseteq_size, map_filter_subseteq.
  - exists out, level. split; [done|]. split; [done|]. intros r' l' Hw'. by eapply water_level_unique.
Qed.

Lemma allocate_watts_level_witness :
  ∃ result level, allocate_watts 3 100 {[ 1 := 10; 2 := 70 ]} = Some (inr result) ∧
    water_level 100 {[ 1 := 10; 2 := 70 ]} result level.
Proof.
  destruct (allocate_watts_level 3 100 {[ 1 := 10; 2 := 70 ]}) as (r & l & Hr & Hl & _); [vm_compute; lia|]. eauto.
Defined.
