(* ===== verification/PowerSchedule.v ===== *)
(** * PowerSchedule: a station's power limit by date and minute

    Models [src/src/modules/stations/power_schedule_service.py] and, of
    [stations/power_schedule_router.py], the write [put_power_schedule] and the
    compliance shown by [get_current_power_limit]; of
    [src/src/modules/power/service.py], the notes other modules leave for the
    worker, [note_power_event] and [note_power_start]. The schemas admit at most
    three decimals of a kilowatt, so bands carry whole watts. *)

From S2P Require Import Prelude Bands Clock Text Store AuditTrail Wallet Pricing.

Section power.
Context {dep : Deployment}.

(** ** The schedule *)

Definition DEFAULT_STATION_TIMEZONE : string := "Asia/Ho_Chi_Minh".

Definition station_zone (station_timezone : string) : Zone :=
  zoneinfo (if decide (station_timezone = "") then DEFAULT_STATION_TIMEZONE else station_timezone).

Definition ngay_dia_phuong (station_timezone : string) (t : Z) : Z :=
  local_date (station_zone station_timezone) t.

Definition phut_trong_ngay (station_timezone : string) (t : Z) : Z :=
  ((t + utcoffset (station_zone station_timezone) t) mod day_us) / (60 * second_us).

Definition schedules (station_id : Z) (db : Db) : list PowerSchedule :=
  filter (λ s, ps_station_id s = station_id) (rows (power_schedules db)).

(** [ORDER BY effective_from DESC LIMIT 1] *)
Definition newest (l : list PowerSchedule) : option PowerSchedule := last (sort_by ps_effective_from l).

Definition get_effective_power_schedule (station_id target_date : Z) (db : Db) : option PowerSchedule :=
  newest (filter (λ s, ps_effective_from s ≤ target_date) (schedules station_id db)).

(** The relationship [bands], ordered by [start_min]. *)
Definition bands_of (schedule_id : Z) (db : Db) : list PowerScheduleBand :=
  sort_by pb_start_min (filter (λ b, pb_schedule_id b = schedule_id) (power_schedule_bands db)).

Definition band_at (minute : Z) (l : list PowerScheduleBand) : option Z :=
  pb_power_limit_w <$> first_where (λ b, (pb_start_min b <=? minute) && (minute <? pb_end_min b)) l.

Definition get_current_power_limit_w (station_id : Z) (at_time : option Z) (db : Db) : option Z :=
  match stations db !! station_id with
  | None => None
  | Some station =>
      let instant := default (db_now db) at_time in
      let local_date := ngay_dia_phuong (st_timezone station) instant in
      let local_min := phut_trong_ngay (st_timezone station) instant in
      match get_effective_power_schedule station_id local_date db with
      | None => None
      | Some schedule => band_at local_min (bands_of (ps_id schedule) db)
      end
  end.

Definition schedule_rows (schedule_id : Z) (normalized : list PowerBandInput) : list PowerScheduleBand :=
  (λ b, mkPowerScheduleBand schedule_id (power_start_min b) (power_end_min b) (power_limit_w b)) <$> normalized.

Definition save_station_power_schedule (station_id effective_from : Z) (raw_bands : list PowerBandInput) : Tx Z :=
  match kiem_khung_gio_cong_suat raw_bands with
  | inl _ => raise PowerBandsError
  | inr normalized =>
      existing ← gets (λ db, select_where (λ s, (ps_station_id s =? station_id) &&
                                                (ps_effective_from s =? effective_from)) (power_schedules db));
      schedule_id ← match existing with
        | None =>
            st ← gets (λ db, stations db !! station_id);
            some_or st (IntegrityError "station_power_schedules_station_id_fkey");;
            id ← fresh_id;
            modify (λ db, set_power_schedules
              (<[id := mkPowerSchedule id station_id effective_from]> (power_schedules db)) db);;
            mret id
        | Some schedule =>
            modify (λ db, set_power_schedule_bands
              (filter (λ b, pb_schedule_id b ≠ ps_id schedule) (power_schedule_bands db)) db);;
            mret (ps_id schedule)
        end;
      modify (λ db, set_power_schedule_bands (power_schedule_bands db ++ schedule_rows schedule_id normalized) db);;
      mret schedule_id
  end.

(** ** Power events *)

Definition update_power (station_id : Z) (f : StationPower → StationPower) : Tx () :=
  modify (λ db, set_station_power (alter f station_id (station_power db)) db).

Definition update_connector_power (connector_id : Z) (f : ConnectorPower → ConnectorPower) : Tx () :=
  modify (λ db, set_connector_power (alter f connector_id (connector_power db)) db).

Definition note_power_event (station_id : Z) : Tx () :=
  config ← gets (λ db, station_power db !! station_id);
  match config with
  | Some c =>
      now ← gets db_now;
      when (pw_enabled c) (update_power station_id (λ c,
        set_pw_dirty_at (Some (default now (pw_dirty_at c))) (set_pw_generation (pw_generation c + 1) c)))
  | None => mret ()
  end.

(** A new car: the last transaction's readback confirms nothing for it. *)
Definition note_power_start (station_id connector_id : Z) : Tx () :=
  config ← gets (λ db, station_power db !! station_id);
  match config with
  | Some c => when (pw_enabled c) (update_connector_power connector_id (set_kp_confirmed_w 0))
  | None => mret ()
  end.

(** [PUT /{station_id}/power-schedule] *)
Definition put_power_schedule (owner : option Z) (station_id effective_from : Z) (bands : list PowerBandInput) : Tx Z :=
  savepoint (
    s ← try_except (get_station_by_id station_id owner) (λ e,
          match e with StationOwnershipDeniedError => Some (raise (HTTPException 403)) | _ => None end);
    station ← some_or s (HTTPException 404);
    now ← gets db_now;
    raise_if (effective_from <? ngay_dia_phuong (st_timezone station) now) (HTTPException 422);;
    try_except
      (schedule ← save_station_power_schedule station_id effective_from bands;
       note_power_event station_id;; mret schedule)
      (λ e, match e with PowerBandsError => Some (raise (HTTPException 422)) | _ => None end)).

(** [compliance_status] of [GET /{station_id}/power-schedule/current] *)
Definition compliance_status (config : option StationPower) (limit_w : option Z) : string :=
  match limit_w, config with
  | None, _ => "unconfigured"
  | Some _, None => "disabled"
  | Some limit, Some c =>
      if negb (pw_enabled c) then "disabled"
      else match pw_state c with
           | pw_degraded => "degraded"
           | pw_applying => "applying"
           | pw_ready => if pw_applied_limit_w c =? limit then "confirmed" else "applying"
           | pw_disabled => "disabled"
           | pw_bootstrap => "bootstrap"
           | pw_disable_pending => "disable_pending"
           end
  end.
End power.

(** ** Facts *)

#[export] Instance PowerSchedule_dec : EqDecision PowerSchedule.
Proof. solve_decision. Defined.

(** The unique and foreign keys of the two tables. *)
Record schedules_ok (db : Db) : Prop := mkSchedulesOk {
  schedules_keyed : ∀ k s, power_schedules db !! k = Some s → ps_id s = k ∧ k < next_id db;
  schedules_unique : ∀ k k' s s', power_schedules db !! k = Some s → power_schedules db !! k' = Some s' →
    ps_station_id s = ps_station_id s' → ps_effective_from s = ps_effective_from s' → k = k';
  schedules_fk : ∀ b, b ∈ power_schedule_bands db → is_Some (power_schedules db !! pb_schedule_id b)
}.

Lemma elem_of_rows {A} (t : gmap Z A) x : x ∈ rows t ↔ ∃ k, t !! k = Some x.
Proof.
  unfold rows. rewrite list_elem_of_fmap. split.
  - intros ([k y] & -> & H%elem_of_map_to_list). eauto.
  - intros [k H%elem_of_map_to_list]. by exists (k, x).
Qed.

Lemma elem_of_schedules st db s :
  s ∈ schedules st db ↔ (∃ k, power_schedules db !! k = Some s) ∧ ps_station_id s = st.
Proof. unfold schedules. rewrite list_elem_of_filter, elem_of_rows. tauto. Qed.

Lemma schedules_inj st db s s' :
  schedules_ok db → s ∈ schedules st db → s' ∈ schedules st db → ps_effective_from s = ps_effective_from s' → s = s'.
Proof.
  intros Hok [[k Hk] Hs]%elem_of_schedules [[k' Hk'] Hs']%elem_of_schedules He.
  assert (k = k') as -> by (apply (schedules_unique db Hok k k' s s'); congruence). congruence.
Qed.

Lemma newest_schedule l s : newest l = Some s → s ∈ l ∧ ∀ s', s' ∈ l → ps_effective_from s' ≤ ps_effective_from s.
Proof.
  unfold newest. intros H. pose proof (sort_by_sorted ps_effective_from l) as Hs.
  assert (∀ l', StronglySorted (key_le ps_effective_from) l' → last l' = Some s →
    s ∈ l' ∧ ∀ s', s' ∈ l' → ps_effective_from s' ≤ ps_effective_from s) as Hlast.
  { clear. induction 1 as [|x l' Hl IH Hx]; [done|]. destruct l' as [|y l'].
    - intros [= ->]. split; [set_solver|]. intros s' ->%list_elem_of_singleton. done.
    - rewrite last_cons_cons. intros [Hin Hmax]%IH. split; [set_solver|]. rewrite Forall_forall in Hx.
      intros s' [->|Hs']%elem_of_cons; [by apply Hx|by apply Hmax]. }
  destruct (Hlast _ Hs H) as [Hin Hmax]. split; [by apply elem_of_sort_by in Hin|].
  intros s' Hs'. apply Hmax. by apply elem_of_sort_by.
Qed.

Lemma newest_none l : newest l = None → l = [].
Proof.
  unfold newest. intros H%last_None. apply Permutation_nil_r. rewrite <- (sort_by_perm ps_effective_from l). by rewrite H.
Qed.

(** The effective schedule is the latest that has started. *)
Lemma effective_schedule_iff st d db s :
  schedules_ok db →
  get_effective_power_schedule st d db = Some s ↔
  s ∈ schedules st db ∧ ps_effective_from s ≤ d ∧
  ∀ s', s' ∈ schedules st db → ps_effective_from s' ≤ d → ps_effective_from s' ≤ ps_effective_from s.
Proof.
  intros Hok. unfold get_effective_power_schedule. set (l := filter _ _).
  assert (∀ x, x ∈ l ↔ ps_effective_from x ≤ d ∧ x ∈ schedules st db) as Hl by (intros x; unfold l; by rewrite list_elem_of_filter).
  split.
  - intros [Hin Hmax]%newest_schedule. apply Hl in Hin as [? ?]. split; [done|]. split; [done|].
    intros s' ? ?. apply Hmax. by apply Hl.
  - intros (Hin & Hd & Hmax). destruct (newest l) as [x|] eqn:E.
    + apply newest_schedule in E as [[Hx Hxs]%Hl Hmx]. f_equal. apply (schedules_inj st db); [done..|].
      specialize (Hmax x Hxs Hx). specialize (Hmx s ltac:(by apply Hl)). lia.
    + apply newest_none in E. assert (s ∈ l) by (by apply Hl). rewrite E in *. set_solver.
Qed.

Lemma schedule_rows_at id normalized minute :
  tiles 0 1440 normalized → 0 ≤ minute < 1440 →
  ∃ p, p ∈ normalized ∧ covers p minute = true ∧
    band_at minute (sort_by pb_start_min (schedule_rows id normalized)) = Some (power_limit_w p).
Proof.
  intros Ht Hm. rewrite sort_by_id.
  2: { apply tiles_sorted in Ht. unfold schedule_rows. clear Hm. induction Ht as [|x l Hl IH Hx]; [constructor|].
    rewrite fmap_cons. constructor; [done|]. rewrite Forall_fmap. exact Hx. }
  unfold band_at. destruct (first_where _ (schedule_rows id normalized)) as [r|] eqn:E.
  - apply first_where_Some in E as [Hr Hc]. apply list_elem_of_fmap in Hr as (p & -> & Hp).
    exists p. split; [done|]. split; [exact Hc|done].
  - exfalso. destruct (tiles_cover _ _ _ _ Ht Hm) as (p & Hp & Hpm). rewrite first_where_None in E.
    specialize (E (mkPowerScheduleBand id (power_start_min p) (power_end_min p) (power_limit_w p))).
    simpl in *. assert ((power_start_min p <=? minute) && (minute <? power_end_min p) = false); [|lia].
    apply E, list_elem_of_fmap. by exists p.
Qed.

Section facts.
Context {dep : Deployment}.

Lemma phut_range tz t : 0 ≤ phut_trong_ngay tz t < 1440.
Proof.
  unfold phut_trong_ngay. pose proof (Z.mod_pos_bound (t + utcoffset (station_zone tz) t) day_us ltac:(by vm_compute)) as H.
  set (u := _ mod day_us) in *. change day_us with (1440 * (60 * second_us)) in H.
  change (60 * second_us) with 60000000 in *. split; [apply Z.div_pos; lia|apply Z.div_lt_upper_bound; lia].
Qed.

(** What saving leaves behind: the schedule with its bands, everything else as
    it was. *)
Definition saved (id station_id effective_from : Z) (normalized : list PowerBandInput) (db db' : Db) : Prop :=
  let new := mkPowerSchedule id station_id effective_from in
  stations db' = stations db ∧
  (∀ k s, power_schedules db' !! k = Some s ↔ power_schedules db !! k = Some s ∨ k = id ∧ s = new) ∧
  (∀ k, bands_of k db' = if decide (k = id) then sort_by pb_start_min (schedule_rows id normalized) else bands_of k db).

(** The bands of one schedule are replaced, by new ones or after deleting the old. *)
Lemma bands_replaced id k normalized l db :
  (k = id → filter (λ b, pb_schedule_id b = id) l = []) →
  (k ≠ id → filter (λ b, pb_schedule_id b = k) l = filter (λ b, pb_schedule_id b = k) (power_schedule_bands db)) →
  sort_by pb_start_min (filter (λ b, pb_schedule_id b = k) (l ++ schedule_rows id normalized)) =
  if decide (k = id) then sort_by pb_start_min (schedule_rows id normalized) else bands_of k db.
Proof.
  intros Hid Hne. rewrite filter_app.
  assert (∀ b, b ∈ schedule_rows id normalized → pb_schedule_id b = id) as Hrows.
  { intros b (p & -> & _)%list_elem_of_fmap. done. }
  case_decide as Hk.
  - subst k. rewrite (Hid eq_refl), list_filter_all by done. done.
  - rewrite (Hne Hk). replace (filter _ (schedule_rows id normalized)) with (@nil PowerScheduleBand); [by rewrite app_nil_r|].
    symmetry. apply list_filter_none. intros b Hb. rewrite (Hrows b Hb). congruence.
Qed.

Lemma schedules_ok_insert db db' st ef l :
  schedules_ok db →
  power_schedules db' = <[next_id db := mkPowerSchedule (next_id db) st ef]> (power_schedules db) →
  power_schedule_bands db' = power_schedule_bands db ++ l → next_id db' = next_id db + 1 →
  (∀ k s, power_schedules db !! k = Some s → ps_station_id s = st → ps_effective_from s = ef → False) →
  (∀ b, b ∈ l → pb_schedule_id b = next_id db) → schedules_ok db'.
Proof.
  intros [K1 K2 K3] Hp Hb Hn Hno Hl. split; rewrite ?Hp, ?Hb.
  - intros j s [[<- <-]|[? [? ?]%K1]]%lookup_insert_Some; (split; [done|lia]).
  - intros j j' s s' [[<- <-]|[? Hs]]%lookup_insert_Some [[<- <-]|[? Hs']]%lookup_insert_Some; simpl;
      [done|intros ? ?; exfalso; eapply Hno; eauto..|by apply K2].
  - intros b [Hin|Hin]%elem_of_app; apply lookup_insert_is_Some'; [|left; symmetry; by apply Hl].
    right. by apply K3.
Qed.

Lemma save_cases station_id effective_from raw db id db' :
  schedules_ok db → save_station_power_schedule station_id effective_from raw db = (inr id, db') →
  ∃ normalized, kiem_khung_gio_cong_suat raw = inr normalized ∧
    saved id station_id effective_from normalized db db' ∧ schedules_ok db'.
Proof.
  intros Hok. unfold save_station_power_schedule.
  destruct (kiem_khung_gio_cong_suat raw) as [issues|normalized]; [done|]. intros H. exists normalized. split; [done|].
  apply bind_ok in H as (existing & db1 & [= <- <-] & H).
  destruct (select_where _ _) as [s0|] eqn:E.
  - apply select_where_Some in E as (k & Hk & [Hst%Z.eqb_eq Hef%Z.eqb_eq]%andb_true_iff).
    destruct (schedules_keyed _ Hok k s0 Hk) as [Hid Hlt]. subst station_id effective_from.
    assert (s0 = mkPowerSchedule k (ps_station_id s0) (ps_effective_from s0)) as Hs0 by (rewrite <- Hid; by destruct s0).
    injection H as <- <-. rewrite Hid. split; [split; [done|split]|].
    + intros j s. change (power_schedules _) with (power_schedules db) at 1. split; [by left|].
      intros [?|[-> ->]]; [done|]. congruence.
    + intros j. apply bands_replaced.
      * intros _. apply list_filter_none. intros b [? _]%list_elem_of_filter. congruence.
      * intros Hj. apply list_filter_within. congruence.
    + destruct Hok as [K1 K2 K3]. split; [done|done|]. intros b [[? Hb]%list_elem_of_filter|(p & -> & _)%list_elem_of_fmap]%elem_of_app.
      * by apply K3.
      * simpl. eauto.
  - apply bind_ok in H as (id' & db2 & H1 & H2). apply bind_ok in H1 as (st & db3 & [= <- <-] & H1).
    destruct (stations db !! station_id) as [station|] eqn:Hstation; [|done]. 
    injection H1 as <- <-. injection H2 as <- <-.
    assert (power_schedules db !! next_id db = None) as Hnew.
    { destruct (power_schedules db !! next_id db) as [x|] eqn:Hx; [|done]. destruct (schedules_keyed _ Hok _ _ Hx). lia. }
    split; [split; [done|split]|].
    + intros j s. etrans; [apply (lookup_insert_Some (power_schedules db) (next_id db) j _ s)|].
      destruct (decide (j = next_id db)) as [->|]; [rewrite Hnew|]; naive_solver.
    + intros j. apply bands_replaced.
      * intros _. apply list_filter_none. intros b [x Hx]%(schedules_fk _ Hok) Hb. congruence.
      * done.
    + apply (schedules_ok_insert db _ station_id effective_from (schedule_rows (next_id db) normalized)); try done.
      * intros j s Hj ? ?. rewrite select_where_None in E. specialize (E j s Hj). lia.
      * by intros b (p & -> & _)%list_elem_of_fmap.
Qed.

(** Saving a schedule and nothing else. *)
Lemma note_power_event_frame station_id db r db' :
  note_power_event station_id db = (r, db') → ∃ t, db' = set_station_power t db.
Proof.
  unfold note_power_event. destruct (station_power db !! station_id) as [c|] eqn:Hc.
  - rewrite (bind_ok_step _ _ _ (Some c) db) by (unfold gets; by rewrite Hc).
    rewrite (bind_ok_step _ _ _ (db_now db) db) by done. unfold when. case_match; intros [= <- <-]; [eauto|].
    exists (station_power db). by destruct db.
  - rewrite (bind_ok_step _ _ _ None db) by (unfold gets; by rewrite Hc). intros [= <- <-].
    exists (station_power db). by destruct db.
Qed.

Lemma put_cases owner station_id effective_from bands db id db' :
  put_power_schedule owner station_id effective_from bands db = (inr id, db') →
  ∃ station db1 u, stations db !! station_id = Some station ∧
    ngay_dia_phuong (st_timezone station) (db_now db) ≤ effective_from ∧
    save_station_power_schedule station_id effective_from bands db = (inr id, db1) ∧
    note_power_event station_id db1 = (inr u, db').
Proof.
  unfold put_power_schedule. intros H%savepoint_ok. apply bind_ok in H as (s & d1 & Hs & H).
  apply try_ok in Hs; [|intros [] k s1; naive_solver].
  assert (d1 = db ∧ s = stations db !! station_id) as [-> ->].
  { unfold get_station_by_id in Hs. rewrite (bind_ok_step _ _ _ (stations db !! station_id) db) in Hs by done.
    destruct (stations db !! station_id) as [st|], owner as [o|]; try (by injection Hs as <- <-).
    destruct (st_owner_id st =? o); [by injection Hs as <- <-|done]. }
  apply bind_ok in H as (station & d2 & [Hst ->]%some_or_inr & H).
  rewrite (bind_ok_step _ _ _ (db_now db) db) in H by done.
  apply bind_ok in H as (u1 & d3 & [Hle ->]%raise_if_inr & H). apply try_ok in H; [|intros [] k s1; naive_solver].
  apply bind_ok in H as (sid & d4 & Hsave & Hm). apply bind_ok in Hm as (u2 & d5 & Hn & [= -> ->]).
  exists station, d4, u2. split; [done|]. split; [lia|done].
Qed.

Lemma limit_at st t db station :
  stations db !! st = Some station →
  get_current_power_limit_w st (Some t) db =
  match get_effective_power_schedule st (ngay_dia_phuong (st_timezone station) t) db with
  | None => None
  | Some s => band_at (phut_trong_ngay (st_timezone station) t) (bands_of (ps_id s) db)
  end.
Proof. unfold get_current_power_limit_w. by intros ->. Qed.

Lemma saved_schedules id st ef norm db db' :
  saved id st ef norm db db' → ∀ o s,
  s ∈ schedules o db' ↔ s ∈ schedules o db ∨ o = st ∧ s = mkPowerSchedule id st ef.
Proof.
  intros (_ & Hs & _) o s. rewrite !elem_of_schedules. setoid_rewrite Hs. split.
  - intros [[k [Hk|[-> ->]]] Ho]; [left; eauto|right; by rewrite <- Ho].
  - intros [[[k Hk] Ho]|[-> ->]]; [eauto|]. split; [|done]. exists id. by right.
Qed.
End facts.

Section governs.
Context {dep : Deployment} (id station_id effective_from : Z) (normalized : list PowerBandInput) (db db1 : Db).
Context (Hok : schedules_ok db) (Hok1 : schedules_ok db1).
Context (Hsaved : saved id station_id effective_from normalized db db1).
#[local] Abbreviation new := (mkPowerSchedule id station_id effective_from).

(** A schedule other than the saved one keeps its bands. *)
Lemma other_schedule o s : s ∈ schedules o db1 → s ≠ new → s ∈ schedules o db ∧ ps_id s ≠ id.
Proof.
  intros Hs Hne. split; [apply (saved_schedules _ _ _ _ _ _ Hsaved) in Hs as [?|[_ ?]]; done|]. intros Hid.
  apply elem_of_schedules in Hs as [[k Hk] _]. pose proof (schedules_keyed _ Hok1 k s Hk) as [Hks _].
  destruct Hsaved as (_ & Hmap & _). assert (power_schedules db1 !! id = Some new) by (apply Hmap; by right). congruence.
Qed.

Lemma new_effective d :
  get_effective_power_schedule station_id d db1 = Some new ↔
  effective_from ≤ d ∧ Forall (λ s, ¬ (effective_from < ps_effective_from s ≤ d)) (schedules station_id db).
Proof.
  pose proof (saved_schedules _ _ _ _ _ _ Hsaved station_id) as Hin. rewrite (effective_schedule_iff _ _ _ _ Hok1), Forall_forall.
  split.
  - intros (_ & Hd & Hmax). split; [done|]. intros s Hs [Hlt Hle]. specialize (Hmax s). rewrite Hin in Hmax.
    specialize (Hmax (or_introl Hs) Hle). simpl in Hmax. lia.
  - intros (Hd & Hno). split; [apply Hin; by right|]. split; [done|]. simpl.
    intros s' [Hs'|[_ ->]]%Hin Hle; [|done]. specialize (Hno s' Hs'). lia.
Qed.

Lemma effective_unchanged o d :
  get_effective_power_schedule o d db1 ≠ Some new →
  get_effective_power_schedule o d db1 = get_effective_power_schedule o d db.
Proof.
  intros Hne. pose proof (saved_schedules _ _ _ _ _ _ Hsaved o) as Hin. apply option_eq. intros s.
  destruct (decide (s = new)) as [->|Hs].
  - split; [done|]. intros He. exfalso. apply Hne. apply (effective_schedule_iff _ _ _ _ Hok) in He as (Hi & Hd & Hmax).
    apply (effective_schedule_iff _ _ _ _ Hok1). split; [apply Hin; by left|]. split; [done|].
    intros s' [Hs'|[_ ->]]%Hin Hd'; [by apply Hmax|done].
  - rewrite (effective_schedule_iff _ _ _ _ Hok1), (effective_schedule_iff _ _ _ _ Hok). split.
    + intros (Hi & Hd & Hmax). split; [by apply other_schedule|]. split; [done|].
      intros s' Hs'. apply Hmax, Hin. by left.
    + intros (Hi & Hd & Hmax). split; [apply Hin; by left|]. split; [done|].
      intros s' [Hs'|[-> ->]]%Hin Hd'; [by apply Hmax|]. simpl in *. apply Z.nlt_ge. intros Hlt. apply Hne.
      apply new_effective. split; [done|]. apply Forall_forall. intros x Hx Hc. specialize (Hmax x Hx). lia.
Qed.

Lemma limit_unchanged o t station :
  stations db !! o = Some station →
  get_effective_power_schedule o (ngay_dia_phuong (st_timezone station) t) db1 ≠ Some new →
  get_current_power_limit_w o (Some t) db1 = get_current_power_limit_w o (Some t) db.
Proof.
  destruct Hsaved as (Hsts & Hmap & Hbands). intros Hst Hne.
  rewrite !(limit_at o t _ station) by congruence. rewrite <- (effective_unchanged _ _ Hne).
  destruct (get_effective_power_schedule _ _ db1) as [s|] eqn:He; [|done].
  rewrite Hbands, decide_False; [done|]. apply (effective_schedule_iff _ _ _ _ Hok1) in He as (Hi & _).
  eapply other_schedule; [done|congruence].
Qed.
End governs.

(** C34. A saved power schedule governs from its first day: writing a schedule
    succeeds only from the station's current local day on; then at every
    instant of the days from [effective_from] on, until a later schedule of the
    station starts, the limit is that of an input band claiming the local
    minute; at every other instant, and for every other station, the limit is
    what it was. The keys of the tables stay intact. *)
Theorem put_power_schedule_governs {dep : Deployment} owner station_id effective_from bands db id db' :
  schedules_ok db → put_power_schedule owner station_id effective_from bands db = (inr id, db') →
  ∃ station, stations db !! station_id = Some station ∧
    ngay_dia_phuong (st_timezone station) (db_now db) ≤ effective_from ∧ schedules_ok db' ∧
    (∀ t other, other ≠ station_id →
       get_current_power_limit_w other (Some t) db' = get_current_power_limit_w other (Some t) db) ∧
    ∀ t, let day := ngay_dia_phuong (st_timezone station) t in
      if decide (effective_from ≤ day ∧
                 Forall (λ s, ¬ (effective_from < ps_effective_from s ≤ day)) (schedules station_id db))
      then ∃ b, b ∈ bands ∧ in_band (phut_trong_ngay (st_timezone station) t) b = true ∧
             get_current_power_limit_w station_id (Some t) db' = Some (power_limit_w b)
      else get_current_power_limit_w station_id (Some t) db' = get_current_power_limit_w station_id (Some t) db.
Proof.
  intros Hok (station & db1 & u & Hst & Hday & Hsave & [pw ->]%note_power_event_frame)%put_cases.
  destruct (save_cases _ _ _ _ _ _ Hok Hsave) as (norm & Hnorm & Hsaved & Hok1).
  exists station. split; [done|]. split; [done|]. split; [by destruct Hok1|].
  assert (∀ o t, get_current_power_limit_w o (Some t) (set_station_power pw db1) = get_current_power_limit_w o (Some t) db1)
    as Hframe by done.
  pose proof Hsaved as (Hsts & _ & Hbands). split.
  - intros t o Ho. rewrite Hframe. destruct (stations db !! o) as [st|] eqn:Hso.
    + eapply limit_unchanged; [done..|]. intros [Hi _]%(effective_schedule_iff _ _ _ _ Hok1).
      apply elem_of_schedules in Hi as [_ Hi]. simpl in Hi. congruence.
    + unfold get_current_power_limit_w. by rewrite Hsts, Hso.
  - intros t day. rewrite Hframe. case_decide as Hgov.
    + apply (new_effective _ _ _ _ _ _ Hok1 Hsaved) in Hgov. rewrite (limit_at _ _ _ station) by congruence.
      fold day. rewrite Hgov, Hbands, decide_True by done. unfold kiem_khung_gio_cong_suat in Hnorm.
      apply check_bands_tiles in Hnorm as Ht.
      destruct (schedule_rows_at id norm _ Ht (phut_range (st_timezone station) t)) as (p & Hp & Hc & ->).
      destruct (check_bands_source _ _ _ Hnorm Hp) as (b & Hb & Heq & Hinb). exists b. split; [done|].
      split; [apply Hinb; by apply covers_spec|]. rewrite Heq. done.
    + eapply limit_unchanged; [done..|]. intros H%(new_effective _ _ _ _ _ _ Hok1 Hsaved). done.
Qed.

(** ** A station with a night and a day limit *)

Definition demo_power_bands : list PowerBandInput := [mkPowerBandInput 1320 360 22000; mkPowerBandInput 360 1320 11000].

Definition demo_schedule_db : Db :=
  (put_power_schedule (dep := demo_deployment) (Some 3) 30 0 demo_power_bands demo_station_db).2.

Lemma demo_schedules_ok : schedules_ok demo_station_db.
Proof. split; [intros k s Hs|intros k k' s s' Hs|intros b Hb]; vm_compute in Hs || vm_compute in Hb; set_solver. Qed.

Lemma put_power_schedule_governs_witness :
  ∃ b, b ∈ demo_power_bands ∧
    get_current_power_limit_w (dep := demo_deployment) 30 (Some 0) demo_schedule_db = Some (power_limit_w b).
Proof.
  set (r := put_power_schedule (dep := demo_deployment) (Some 3) 30 0 demo_power_bands demo_station_db).
  assert (r = (inr 200, demo_schedule_db)) as Hr by (vm_compute; reflexivity).
  destruct (put_power_schedule_governs (dep := demo_deployment) (Some 3) 30 0 demo_power_bands demo_station_db 200
    demo_schedule_db demo_schedules_ok Hr) as (st & Hst & _ & _ & _ & H).
  assert (st = mkStation 30 3 "Tram A" "active" "Asia/Ho_Chi_Minh" None "1 Le Loi" 10776900 106700900 1 0) as -> by (vm_compute in Hst; congruence).
  specialize (H 0). cbv zeta in H. case_decide as Hg.
  - destruct H as (b & Hb & _ & Hl). eauto.
  - exfalso. apply Hg. vm_compute. split; [discriminate|constructor].
Defined.
