(* ===== verification/PowerControl.v ===== *)
(** * PowerControl: commissioning a station's power control

    Models [src/src/modules/power/service.py]: the settings of a station, the
    switch that enables or disables the control, and the gate in front of new
    transactions. The schemas admit at most three decimals of a kilowatt, so
    powers are whole watts; [registered_connectors] is read as a set, the order
    of its rows being irrelevant to every caller modelled. *)

From S2P Require Import Prelude Bands Clock Text Store AuditTrail Wallet Pricing PowerSchedule.

Record PowerSetting := mkSetting {
  se_version : Z; se_limit_w : Z; se_connectors : list (Z * Z);
  se_zero_limit_verified : bool; se_offline_retention_verified : bool; se_verification_note : string
}.

(** [ActorScope]: who acts, and the owner whose stations they may touch. *)
Record ActorScope := mkScope { sc_actor_id : Z; sc_owner_id : option Z }.

Definition owned_station (station_id : Z) (scope : ActorScope) : Tx Station :=
  s ← try_except (get_station_by_id station_id (sc_owner_id scope)) (λ e,
        match e with StationOwnershipDeniedError => Some (raise (HTTPException 403)) | _ => None end);
  station ← some_or s (HTTPException 404);
  raise_if (bool_decide (is_Some (st_archived_at station))) (HTTPException 404);;
  mret station.

Definition registered_connectors (station_id : Z) (db : Db) : list (Connector * ChargePoint) :=
  cn ← rows (connectors db);
  match charge_points db !! cn_charge_point_id cn with
  | Some cp =>
      if (cp_station_id cp =? station_id) && bool_decide (cp_archived_at cp = None) &&
         bool_decide (cn_archived_at cn = None)
      then [(cn, cp)] else []
  | None => []
  end.

Definition connector_ids (l : list (Connector * ChargePoint)) : list Z := (λ r, cn_id r.1) <$> l.

Definition power_rows (station_id : Z) (db : Db) : list ConnectorPower :=
  filter (λ c, kp_station_id c = station_id) (rows (connector_power db)).

(** [set(a) == set(b)] *)
Definition same_set (a b : list Z) : bool := bool_decide (list_to_set a =@{gset Z} list_to_set b).

Definition plan_in_progress (s : PowerState) : bool :=
  match s with pw_applying | pw_bootstrap | pw_disable_pending => true | _ => false end.

Definition new_power (station_id limit : Z) : StationPower :=
  mkStationPower station_id limit limit 1 0 false false pw_disabled false false "" None None None.

Definition rate_connector (station_id : Z) (v : Z * Z) : Tx () :=
  raise_if (v.2 <=? 0) (IntegrityError "ck_connector_power");;
  cap ← gets (λ db, connector_power db !! v.1);
  match cap with
  | None =>
      profile_id ← fresh_id;
      modify (λ db, set_connector_power (<[v.1 := mkConnectorPower v.1 station_id v.2 0 0 0 None None profile_id]>
        (connector_power db)) db)
  | Some _ => update_connector_power v.1 (set_kp_rated_w v.2)
  end.

(** The columns a save writes on the configuration. *)
Definition configured (body : PowerSetting) (now : Z) (c : StationPower) : StationPower :=
  let limit := se_limit_w body in
  let c := set_pw_verification_note (strip (se_verification_note body))
    (set_pw_offline_retention_verified (se_offline_retention_verified body)
      (set_pw_zero_limit_verified (se_zero_limit_verified body) (set_pw_limit_w limit c))) in
  let c := if pw_enabled c then c else set_pw_applied_limit_w limit c in
  set_pw_dirty_at (Some now) (set_pw_generation (pw_generation c + 1) c).

Definition save_settings (station_id : Z) (body : PowerSetting) (scope : ActorScope) (evidence : Evidence) : Tx () :=
  config ← gets (λ db, station_power db !! station_id);
  raise_if (negb (se_version body =? match config with Some c => pw_version c | None => 0 end)) (HTTPException 409);;
  raise_if (match config with Some c => plan_in_progress (pw_state c) | None => false end) (HTTPException 409);;
  registered ← gets (registered_connectors station_id);
  let ids := (se_connectors body).*1 in
  raise_if (negb (bool_decide (NoDup ids)) || negb (same_set ids (connector_ids registered))) (HTTPException 422);;
  raise_if (match config with
            | Some c => pw_enabled c && (negb (se_zero_limit_verified body) || negb (se_offline_retention_verified body) ||
                          bool_decide (strip (se_verification_note body) = ""))
            | None => false
            end) (HTTPException 409);;
  raise_if (se_limit_w body <=? 0) (IntegrityError "ck_power_limits");;
  match config with
  | None => modify (λ db, set_station_power (<[station_id := new_power station_id (se_limit_w body)]> (station_power db)) db)
  | Some c => update_power station_id (set_pw_version (pw_version c + 1))
  end;;
  for_each (se_connectors body) (rate_connector station_id);;
  now ← gets db_now;
  update_power station_id (configured body now);;
  saved ← gets (λ db, station_power db !! station_id);
  ghi_nhat_ky (Some (sc_actor_id scope)) "power.config_saved" "station" (uuid_str station_id)
    [("before", match config with
                | Some c => JObj [("limit_w", JInt (pw_limit_w c)); ("version", JInt (pw_version c))]
                | None => JNull
                end);
     ("limit_w", JInt (se_limit_w body));
     ("version", JInt (match saved with Some c => pw_version c | None => 0 end))]
    (Some (ev_permission evidence)) (Some (ev_roles evidence));;
  mret ().

(** An open transaction at one of the station's chargers. *)
Definition charging_at (station_id : Z) (db : Db) (c : ChargingSession) : bool :=
  bool_decide (cs_ended_at c = None) &&
  match charge_points db !! cs_charge_point_id c with
  | Some cp => cp_station_id cp =? station_id
  | None => false
  end.

Definition switched (enable : bool) (now : Z) (c : StationPower) : StationPower :=
  set_pw_dirty_at (Some now) (set_pw_issue None
    (set_pw_state (if enable then pw_bootstrap else pw_disable_pending)
      (set_pw_target_enabled enable (set_pw_enabled true
        (set_pw_generation (pw_generation c + 1) (set_pw_version (pw_version c + 1) c)))))).

Definition change_control (station_id version : Z) (enable : bool) (scope : ActorScope) (evidence : Evidence) : Tx () :=
  o ← gets (λ db, station_power db !! station_id);
  c ← some_or o (HTTPException 409);
  raise_if (negb (pw_version c =? version)) (HTTPException 409);;
  if eqb (pw_enabled c) enable && negb (match pw_state c with pw_degraded | pw_disable_pending => true | _ => false end)
  then mret ()
  else
    raise_if (match pw_state c with pw_applying | pw_bootstrap => true | _ => false end) (HTTPException 409);;
    raise_if (enable && negb (pw_zero_limit_verified c && pw_offline_retention_verified c &&
                              negb (bool_decide (pw_verification_note c = "")))) (HTTPException 409);;
    active ← gets (λ db, select_where (charging_at station_id db) (charging_sessions db));
    raise_if (bool_decide (is_Some active)) (HTTPException 409);;
    registered ← gets (registered_connectors station_id);
    caps ← gets (power_rows station_id);
    raise_if (negb (same_set (connector_ids registered) (kp_connector_id <$> caps)) || bool_decide (registered = []))
      (HTTPException 409);;
    when enable (for_each caps (λ cap, update_connector_power (kp_connector_id cap) (set_kp_baseline_boot_at None)));;
    now ← gets db_now;
    update_power station_id (switched enable now);;
    ghi_nhat_ky (Some (sc_actor_id scope)) (if enable then "power.enable_requested" else "power.disable_requested")
      "station" (uuid_str station_id) [("version", JInt (pw_version c + 1))]
      (Some (ev_permission evidence)) (Some (ev_roles evidence));;
    mret ().

(** The routes: a request transaction around the ownership check and the service. *)
Definition write_power (station_id : Z) (body : PowerSetting) (scope : ActorScope) (evidence : Evidence) : Tx () :=
  savepoint (owned_station station_id scope;; save_settings station_id body scope evidence).

Definition control_power (station_id version : Z) (enable : bool) (scope : ActorScope) (evidence : Evidence) : Tx () :=
  savepoint (owned_station station_id scope;; change_control station_id version enable scope evidence).

(** ** The gate *)

Section gate.
Context {dep : Deployment}.

(** The charger booted and its zero profile was read back since. *)
Definition baseline_verified (station_id : Z) (db : Db) (r : Connector * ChargePoint) : bool :=
  match connector_power db !! cn_id r.1 with
  | Some cap =>
      (kp_station_id cap =? station_id) && bool_decide (is_Some (kp_baseline_boot_at cap)) &&
      bool_decide (kp_baseline_boot_at cap = cp_last_boot_at r.2)
  | None => false
  end.

Definition total_reserved (station_id : Z) (db : Db) : Z := sumZ (kp_reserved_w <$> power_rows station_id db).

Definition power_start_allowed (station_id : Z) (at_time : option Z) (db : Db) : bool :=
  match station_power db !! station_id with
  | None => true
  | Some c =>
      if negb (pw_enabled c) then true
      else if negb (match pw_state c with pw_ready | pw_applying => true | _ => false end) ||
              (match pw_issue c with Some i => negb (bool_decide (i = "")) | None => false end) ||
              negb (pw_target_enabled c) then false
      else
        match get_current_power_limit_w station_id (Some (default (db_now db) at_time)) db with
        | Some limit => negb ((limit <? pw_applied_limit_w c) || (limit <? total_reserved station_id db + 1380))
        | None => true
        end &&
        negb (bool_decide (registered_connectors station_id db = [])) &&
        forallb (baseline_verified station_id db) (registered_connectors station_id db)
  end.
End gate.

(** ** Facts *)

(** What switching the control on relies on. *)
Definition commissioned (c : StationPower) : Prop :=
  pw_zero_limit_verified c = true ∧ pw_offline_retention_verified c = true ∧ pw_verification_note c ≠ "".

Definition config_ok (c : StationPower) : Prop :=
  (pw_enabled c = true → commissioned c) ∧ (pw_enabled c = false → pw_state c = pw_disabled).

Definition power_ok (db : Db) : Prop := ∀ st c, station_power db !! st = Some c → config_ok c.

(** The columns only an administrator's command changes; each such change has a
    version of its own. *)
Definition settings_of (c : StationPower) : bool * bool * string * bool :=
  (pw_zero_limit_verified c, pw_offline_retention_verified c, pw_verification_note c, pw_target_enabled c).

Definition config_le (c c' : StationPower) : Prop :=
  pw_version c ≤ pw_version c' ∧ (pw_version c' = pw_version c → settings_of c' = settings_of c).

Definition power_le (db db' : Db) : Prop :=
  ∀ st c, station_power db !! st = Some c → ∃ c', station_power db' !! st = Some c' ∧ config_le c c'.

#[export] Instance config_le_preorder : PreOrder config_le.
Proof.
  split; [intros c; unfold config_le; split; [lia|done]|]. intros c1 c2 c3 [H1 H2] [H3 H4]. split; [lia|]. intros H.
  rewrite H4, H2 by lia. done.
Qed.

#[export] Instance power_le_preorder : PreOrder power_le.
Proof.
  split; [intros db st c Hc; exists c; by split|]. intros d1 d2 d3 H12 H23 st c Hc.
  destruct (H12 st c Hc) as (c2 & Hc2 & H2). destruct (H23 st c2 Hc2) as (c3 & Hc3 & H3).
  exists c3. split; [done|]. by etrans.
Qed.

Lemma keeps_power_rate x st v : keeps (λ db, station_power db = x) (rate_connector st v).
Proof. unfold rate_connector, fresh_id. keeps_steps; by apply keeps_modify. Qed.

Lemma keeps_power_audit x a b c d e f g : keeps (λ db, station_power db = x) (ghi_nhat_ky a b c d e f g).
Proof. by apply keeps_audit. Qed.

Lemma keeps_power_reset x caps :
  keeps (λ db, station_power db = x)
    (for_each caps (λ cap, update_connector_power (kp_connector_id cap) (set_kp_baseline_boot_at None))).
Proof. apply keeps_for_each. intros cap. by apply keeps_modify. Qed.

(** A successful save: the version was the current one, a new one begins. *)
Lemma save_settings_cases st body scope ev db u db' :
  save_settings st body scope ev db = (inr u, db') →
  let old := default (set_pw_version 0 (new_power st (se_limit_w body))) (station_power db !! st) in
  se_version body = pw_version old ∧
  (pw_enabled old = true → commissioned (configured body (db_now db) old)) ∧
  ∃ now, station_power db' = <[st := configured body now (set_pw_version (pw_version old + 1) old)]> (station_power db).
Proof.
  intros H old. unfold save_settings in H. tx_read H config Hcfg. injection Hcfg as <-.
  tx_read H u1 Hv. apply raise_if_inr in Hv as [Hv _]. tx_read H u2 Hp. tx_read H reg Hreg. tx_read H u3 Hids.
  tx_read H u4 He. apply raise_if_inr in He as [He _]. tx_read H u5 Hl.
  apply bind_ok in H as (u6 & db1 & H1 & H). apply bind_ok in H as (u7 & db2 & H2 & H).
  assert (station_power db1 = <[st := set_pw_version (pw_version old + 1) old]> (station_power db)) as E1.
  { unfold old. destruct (station_power db !! st) as [c|] eqn:Hc; injection H1 as <- <-; simpl; [|done].
    apply (alter_as_insert _ _ _ _ Hc). }
  assert (station_power db2 = station_power db1) as E2
    by (apply (run_frame station_power _ _ _ _ H2); intros x; apply keeps_for_each; intros v; apply keeps_power_rate).
  tx_read H now Hnow. apply bind_ok in H as (u8 & db3 & [= _ <-] & H). tx_read H sv Hsv.
  apply bind_ok in H as (n & db4 & Ha & [= _ <-]).
  assert (station_power db4 = alter (configured body now) st (station_power db2)) as E4
    by (apply (run_frame station_power _ _ _ _ Ha); intros x; apply keeps_power_audit).
  split; [|split].
  - unfold old. destruct (station_power db !! st); simpl; lia.
  - unfold old, commissioned. destruct (station_power db !! st) as [c|]; simpl; [|done]. intros Hen. rewrite Hen in He. simpl in He.
    unfold configured. simpl. rewrite Hen. simpl. destruct (se_zero_limit_verified body), (se_offline_retention_verified body);
      simpl in He; try done. apply bool_decide_eq_false in He. done.
  - exists now. rewrite E4, E2, E1. rewrite (alter_as_insert _ _ (set_pw_version (pw_version old + 1) old)) by apply lookup_insert_eq.
    by rewrite insert_insert_eq.
Qed.

Lemma pure_owned_station st scope : pure_tx (owned_station st scope).
Proof.
  intros db. unfold owned_station, get_station_by_id, try_except, mbind, M_bind, gets, some_or, raise_if. simpl.
  destruct (stations db !! st) as [s|], (sc_owner_id scope) as [o|]; simpl; try done.
  - destruct (st_owner_id s =? o); simpl; [|done]. by destruct (bool_decide _).
  - by destruct (bool_decide _).
Qed.
#[export] Hint Resolve pure_owned_station : csms.

Lemma change_control_cases st version enable scope ev db u db' :
  change_control st version enable scope ev db = (inr u, db') →
  ∃ c, station_power db !! st = Some c ∧ pw_version c = version ∧
    (db' = db ∨
     (pw_enabled c = true ∨ commissioned c ∨ pw_state c ≠ pw_disabled) ∧
     ∃ now, station_power db' = <[st := switched enable now c]> (station_power db)).
Proof.
  unfold change_control. intros H. tx_read H o Ho. injection Ho as <-.
  tx_read H c Hc. apply some_or_inr in Hc as [Hc _]. tx_read H u1 Hv. apply raise_if_inr in Hv as [Hv _].
  exists c. split; [done|]. split; [lia|]. destruct (_ && _) eqn:Hsame; [left; by injection H as _ <-|right].
  tx_read H u2 Hp. tx_read H u3 He. apply raise_if_inr in He as [He _]. tx_read H act Hact. tx_read H u4 Hna.
  tx_read H reg Hreg. tx_read H caps Hcaps. tx_read H u5 Hset.
  apply bind_ok in H as (u6 & db1 & H1 & H).
  assert (station_power db1 = station_power db) as E1.
  { apply (run_frame station_power _ _ _ _ H1). intros x. apply keeps_when, keeps_power_reset. }
  tx_read H now Hnow. apply bind_ok in H as (u7 & db2 & [= _ <-] & H). apply bind_ok in H as (n & db3 & Ha & [= _ <-]).
  assert (station_power db3 = alter (switched enable now) st (station_power db1)) as E3
    by (apply (run_frame station_power _ _ _ _ Ha); intros x; apply keeps_power_audit).
  split; [|exists now; rewrite E3, E1; by apply alter_as_insert].
  destruct enable; [right; left|destruct (pw_enabled c); [by left|right; right; by destruct (pw_state c)]].
  simpl in He. unfold commissioned. destruct (pw_zero_limit_verified c), (pw_offline_retention_verified c); simpl in He; try done.
  destruct (bool_decide _) eqn:Hb; [done|]. by apply bool_decide_eq_false in Hb.
Qed.

(** ** Every interleaving *)

(** The allocation worker: it never touches an administrator's columns and never
    switches the control on. *)
Definition worker_step (db db' : Db) : Prop :=
  ∀ st, option_Forall2 (λ c c', pw_version c' = pw_version c ∧ settings_of c' = settings_of c ∧
      (pw_enabled c' = true → pw_enabled c = true) ∧ (pw_enabled c' = false → pw_state c' = pw_disabled))
    (station_power db !! st) (station_power db' !! st).

Inductive power_step {dep : Deployment} : Db → Db → Prop :=
  | power_write st body scope ev db r db' : write_power st body scope ev db = (r, db') → power_step db db'
  | power_control st v enable scope ev db r db' : control_power st v enable scope ev db = (r, db') → power_step db db'
  | power_schedule owner st ef bands db r db' : put_power_schedule owner st ef bands db = (r, db') → power_step db db'
  | power_event st db r db' : note_power_event st db = (r, db') → power_step db db'
  | power_start st cn db r db' : note_power_start st cn db = (r, db') → power_step db db'
  | power_worker db db' : worker_step db db' → power_step db db'.

Definition power_good (db db' : Db) : Prop := power_ok db' ∧ power_le db db'.

(** One station's configuration is replaced. *)
Lemma power_good_insert db db' st c' :
  power_ok db → station_power db' = <[st := c']> (station_power db) → config_ok c' →
  (∀ c, station_power db !! st = Some c → config_le c c') → power_good db db'.
Proof.
  intros Hok E Hc Hle. split.
  - intros k c. rewrite E. intros [[<- <-]|[? Hk]]%lookup_insert_Some; [done|by eapply Hok].
  - intros k c Hk. rewrite E. destruct (decide (k = st)) as [->|Hne].
    + rewrite lookup_insert_eq. eauto.
    + rewrite lookup_insert_ne by done. exists c. by split.
Qed.

Lemma power_good_same db db' : power_ok db → station_power db' = station_power db → power_good db db'.
Proof. intros Hok E. split; [intros k c; rewrite E; apply Hok|]. intros k c Hc. rewrite E. exists c. by split. Qed.

Lemma configured_commissioned body t t' c c' : commissioned (configured body t c) → commissioned (configured body t' c').
Proof. unfold commissioned, configured. simpl. by destruct (pw_enabled c), (pw_enabled c'). Qed.

Lemma write_good st body scope ev db r db' : power_ok db → write_power st body scope ev db = (r, db') → power_good db db'.
Proof.
  intros Hok. unfold write_power. intros [(e & -> & ->)|(u & -> & H)]%savepoint_cases; [by apply power_good_same|].
  tx_read H sta Hs. apply save_settings_cases in H as (Hv & Hcom & now & E).
  set (old := default _ _) in *. eapply power_good_insert; [done|exact E| |].
  - split.
    + intros Hen. eapply configured_commissioned, Hcom. unfold configured in Hen. simpl in Hen.
      destruct (pw_enabled old) eqn:Eo; [done|]. simpl in Hen. congruence.
    + intros Hen. unfold configured in Hen |- *. simpl in *. destruct (pw_enabled old) eqn:Eo; simpl in *; [congruence|].
      unfold old in *. destruct (station_power db !! st) as [c|] eqn:Hc; simpl in *; [by apply (Hok st c Hc)|done].
  - intros c Hc. unfold old. rewrite Hc. simpl. unfold config_le, configured. simpl.
    destruct (pw_enabled c); simpl; lia.
Qed.

Lemma control_good st v enable scope ev db r db' :
  power_ok db → control_power st v enable scope ev db = (r, db') → power_good db db'.
Proof.
  intros Hok. unfold control_power. intros [(e & -> & ->)|(u & -> & H)]%savepoint_cases; [by apply power_good_same|].
  tx_read H sta Hs. apply change_control_cases in H as (c & Hc & Hv & [->|[Hen [now E]]]); [by apply power_good_same|].
  destruct (Hok st c Hc) as [Hon Hoff]. eapply power_good_insert; [done|exact E| |].
  - split; [|done]. intros _. unfold commissioned. simpl.
    destruct (pw_enabled c); [by apply Hon|]. specialize (Hoff eq_refl). by destruct Hen as [?|[Hcc|?]].
  - intros c0 Hc0. rewrite Hc in Hc0. injection Hc0 as <-. unfold config_le. simpl. lia.
Qed.

Lemma note_event_good st db r db' : power_ok db → note_power_event st db = (r, db') → power_good db db'.
Proof.
  intros Hok. unfold note_power_event. destruct (station_power db !! st) as [c|] eqn:Hc.
  - rewrite (bind_ok_step _ _ _ (Some c) db) by (unfold gets; by rewrite Hc).
    rewrite (bind_ok_step _ _ _ (db_now db) db) by done. unfold when.
    destruct (pw_enabled c) eqn:Hen; intros [= <- <-]; [|by apply power_good_same].
    eapply power_good_insert; [done|simpl; by apply alter_as_insert| |].
    + apply (Hok st c Hc).
    + intros c0 Hc0. rewrite Hc in Hc0. injection Hc0 as <-. by split.
  - rewrite (bind_ok_step _ _ _ None db) by (unfold gets; by rewrite Hc). intros [= <- <-]. by apply power_good_same.
Qed.

Lemma keeps_power_start x st cn : keeps (λ db, station_power db = x) (note_power_start st cn).
Proof. unfold note_power_start. keeps_steps. by apply keeps_modify. Qed.

Lemma keeps_power_save x st ef bands : keeps (λ db, station_power db = x) (save_station_power_schedule st ef bands).
Proof. unfold save_station_power_schedule, fresh_id. keeps_steps; by apply keeps_modify. Qed.

Lemma put_good {dep : Deployment} owner st ef bands db r db' :
  power_ok db → put_power_schedule owner st ef bands db = (r, db') → power_good db db'.
Proof.
  intros Hok H. pose proof H as [(e & -> & ->)|(id & -> & _)]%savepoint_cases; [by apply power_good_same|].
  apply put_cases in H as (sta & db1 & u & _ & _ & Hs & Hn).
  assert (station_power db1 = station_power db) as E
    by (apply (run_frame station_power _ _ _ _ Hs); intros x; apply keeps_power_save).
  destruct (note_event_good st db1 (inr u) db') as [H1 H2]; [by intros k c; rewrite E; apply Hok|done|].
  split; [done|]. intros k c. rewrite <- E. apply H2.
Qed.

Lemma worker_good db db' : power_ok db → worker_step db db' → power_good db db'.
Proof.
  intros Hok Hw. split.
  - intros st c' Hc'. specialize (Hw st). rewrite Hc' in Hw. inversion Hw as [c ? (Hv & Hs & Hen & Hoff) Hc|]; subst.
    split; [|done]. intros [Hz [Hr Hn]]%Hen%(Hok st c); [|done]. unfold settings_of in Hs.
    injection Hs as Es1 Es2 Es3 _. unfold commissioned. by rewrite Es1, Es2, Es3.
  - intros st c Hc. specialize (Hw st). rewrite Hc in Hw. inversion Hw as [? c' (Hv & Hs & Hx1 & Hx2) Hx3 Hc'|]; subst.
    exists c'. split; [done|]. split; [lia|done].
Qed.

Lemma power_step_good {dep : Deployment} db db' : power_ok db → power_step db db' → power_good db db'.
Proof.
  intros Hok Hs. revert Hok. destruct Hs; intros Hok.
  - eauto using write_good.
  - eauto using control_good.
  - eauto using put_good.
  - eauto using note_event_good.
  - apply power_good_same; [done|]. eapply run_frame; [done|]. intros x. apply keeps_power_start.
  - by apply worker_good.
Qed.


(** ** A station being commissioned *)

Definition demo_power_db : Db :=
  set_charge_points {[ 40 := mkChargePoint 40 30 "online" (Some 0) 60 None None None None 0 None (Some 0) None None None None "CP-40" 0 None ]}
    (set_connectors {[ 41 := mkConnector 41 40 1 "available" None None 0 None None None None None None ]}
      (set_station_power {[ 30 := new_power 30 22000 ]} demo_station_db)).

Definition demo_setting (version : Z) (note : string) : PowerSetting :=
  mkSetting version 11000 [(41, 11000)] true true note.

Definition demo_scope : ActorScope := mkScope 1 (Some 3).
Definition demo_evidence : Evidence := mkEvidence "owner.power.configure" ["station_owner"].

