(* ===== verification/Access.v ===== *)
(** * Access: who may call what

    Models [src/src/modules/identity/authorization.py], [policy_routing.py],
    [scoped_routes.py] and, of [dependencies.py], what follows the look-up of
    the actor. A handler is what these functions read of it: the access policy
    it was decorated with, if any. *)

From Stdlib Require Import Ascii.
From S2P Require Import Prelude Text Store AuditTrail Wallet PowerControl.

(** ** Policies *)

(** [CurrentActor] *)
Record CurrentActor := mkActor { ac_user_id : Z; ac_roles : list string }.

Inductive DataScope := scope_owned | scope_own | scope_own_wallet | scope_all.

#[export] Instance DataScope_eq_dec : EqDecision DataScope.
Proof. solve_decision. Defined.

Record AccessPolicy := mkAccess {
  ap_kind : string; ap_permission : option string; ap_scope : option DataScope; ap_roles : list string
}.

Abbreviation Handler := (option AccessPolicy).

(** Python's truth value of an optional text. *)
Definition truthy (s : option string) : bool := match s with Some t => negb (bool_decide (t = "")) | None => false end.

(** The decorator [access_policy(policy)] applied to a handler: the policy it
    then carries, or the [ValueError]. *)
Definition access_policy (policy : AccessPolicy) (handler : Handler) : Exn + Handler :=
  let user := bool_decide (ap_kind policy = "user") in
  let scoped := bool_decide (is_Some (ap_scope policy)) in
  let roles := bool_decide (ap_roles policy ≠ []) in
  if negb (bool_decide (ap_kind policy ∈ ["user"; "public"; "device"; "webhook"])) then inl ValueError
  else if user && (negb (truthy (ap_permission policy)) || negb scoped || negb roles) then inl ValueError
  else if negb user && (truthy (ap_permission policy) || scoped || roles) then inl ValueError
  else match handler with
       | Some _ => inl ValueError
       | None => inr (Some policy)
       end.

Definition user_policy (permission : string) (scope : DataScope) (roles : list string) : Handler → Exn + Handler :=
  access_policy (mkAccess "user" (Some permission) (Some scope) roles).

Definition build_actor_scope (actor : CurrentActor) (scope : DataScope) : ActorScope :=
  mkScope (ac_user_id actor) (if bool_decide (scope = scope_all) then None else Some (ac_user_id actor)).

Definition get_allowed_roles (handler : Handler) : option (list string) :=
  match handler with
  | Some policy => if bool_decide (ap_kind policy = "user") then Some (ap_roles policy) else None
  | None => None
  end.

Definition isdisjoint (xs ys : list string) : bool := forallb (λ x, negb (bool_decide (x ∈ ys))) xs.

Definition enforce_role_policy (handler : Handler) (actor : CurrentActor) : Exn + () :=
  match get_allowed_roles handler with
  | Some allowed => if isdisjoint (ac_roles actor) allowed then inl (HTTPException 403) else inr ()
  | None => inl (HTTPException 403)
  end.

(** ** Dependencies: an endpoint is [None] when the route has none to call *)

Definition authorize_request (endpoint : option Handler) (actor : CurrentActor) : Exn + () :=
  match endpoint with
  | None => inl (HTTPException 403)
  | Some handler => enforce_role_policy handler actor
  end.

Definition get_request_scope (endpoint : option Handler) (actor : CurrentActor) : Exn + ActorScope :=
  match endpoint with
  | Some (Some policy as handler) =>
      match ap_scope policy with
      | Some scope =>
          if bool_decide (ap_kind policy = "user") then
            enforce_role_policy handler actor ≫= λ _, inr (build_actor_scope actor scope)
          else inl (HTTPException 403)
      | None => inl (HTTPException 403)
      end
  | _ => inl (HTTPException 403)
  end.

Definition get_authorization_evidence (endpoint : option Handler) (actor : CurrentActor) : Exn + Evidence :=
  match endpoint with
  | Some (Some policy as handler) =>
      match ap_permission policy with
      | Some permission =>
          if bool_decide (ap_kind policy = "user") then
            enforce_role_policy handler actor ≫= λ _,
            inr (mkEvidence permission (sorted_roles (ac_roles actor)))
          else inl (HTTPException 403)
      | None => inl (HTTPException 403)
      end
  | _ => inl (HTTPException 403)
  end.

(** ** Admission by the route class *)

Definition require_policy_declaration (endpoint : option Handler) : Exn + () :=
  match endpoint with
  | Some (Some _) => inr ()
  | _ => inl (HTTPException 403)
  end.

(** [PolicyRoute.get_route_handler] *)
Definition guarded (endpoint : Handler) : Exn + () :=
  match endpoint with
  | Some policy => if bool_decide (ap_kind policy ∈ ["user"; "public"]) then inr () else inl (HTTPException 403)
  | None => inl (HTTPException 403)
  end.

(** Whether [PolicyRoute.__init__] adds [Depends(authorize_request)]. *)
Definition needs_actor (endpoint : Handler) : bool :=
  match endpoint with Some policy => bool_decide (ap_kind policy = "user") | None => false end.

(** ** Areas: the same handler under an explicit scope *)

Fixpoint starts_with (p l : list ascii) : bool :=
  match p, l with
  | [], _ => true
  | a :: p', b :: l' => bool_decide (a = b) && starts_with p' l'
  | _, [] => false
  end.

(** [s.replace(old, new)]: [skip] characters of the last match are left out. *)
Fixpoint replace_from (old new : list ascii) (skip : nat) (l : list ascii) : list ascii :=
  match l, skip with
  | [], _ => []
  | _ :: r, S k => replace_from old new k r
  | c :: r, O => if starts_with old l then new ++ replace_from old new (pred (length old)) r
                 else c :: replace_from old new 0 r
  end.
Definition replace (old new s : string) : string := of_chars (replace_from (chars old) (chars new) 0 (chars s)).

(** [s.replace(old, new, 1)] *)
Fixpoint replace_first (old new l : list ascii) : list ascii :=
  if starts_with old l then new ++ drop (length old) l
  else match l with [] => [] | c :: r => c :: replace_first old new r end.
Definition replace_once (old new s : string) : string := of_chars (replace_first (chars old) (chars new) (chars s)).

Definition GLOBAL_READ_PERMISSIONS : list string :=
  ["owner.stations.list_stations"; "owner.stations.get_station"; "owner.stations.list_charge_points";
   "owner.photos.get_photo"; "owner.charging.cards"; "owner.charging.sessions"; "owner.charging.samples";
   "owner.charging.session_events"; "owner.charging.pending_messages"; "owner.monitor.read"].
Definition ACCOUNTING_READ_PERMISSIONS : list string :=
  ["owner.charging.sessions"; "owner.charging.samples"; "owner.charging.session_events"].
Definition OPS_CARD_WRITE_PERMISSIONS : list string := ["owner.charging.create_card"; "owner.charging.update_card"].

Record Route := mkRoute { rt_path : string; rt_methods : list string; rt_endpoint : Handler }.

(** [route.methods == {"GET"}] *)
Definition only_get (methods : list string) : bool := bool_decide (remove_dups methods = ["GET"]).

Definition variants (methods : list string) (permission : string) (policy : AccessPolicy) : list (string * AccessPolicy) :=
  ("owner", policy) ::
  (if only_get methods && bool_decide (permission ∈ GLOBAL_READ_PERMISSIONS) then
     ("ops", mkAccess "user" (Some (replace "owner." "ops." permission)) (Some scope_all) ["operator"]) ::
     ("admin", mkAccess "user" (Some (replace "owner." "admin." permission)) (Some scope_all) ["admin"]) ::
     (if bool_decide (permission ∈ ACCOUNTING_READ_PERMISSIONS)
      then [("accounting", mkAccess "user" (Some "accounting.sessions.read") (Some scope_all) ["accountant"])] else [])
   else if bool_decide (permission ∈ OPS_CARD_WRITE_PERMISSIONS)
   then [("ops", mkAccess "user" (Some "ops.cards.manage") (Some scope_all) ["operator"])] else []).

(** The link to a photo in an answer of an area. *)
Definition area_link (area url : string) : string :=
  replace_once "/api/v1/stations/" ("/api/v1/" +:+ area +:+ "/stations/") url.

(** [add_api_route(..., scoped_handler(route.endpoint, access, area))]: the
    wrapper carries no policy of its own before [access_policy] gives it one. *)
Definition add_area_route (route : Route) (v : string * AccessPolicy) : Exn + Route :=
  access_policy v.2 None ≫= λ handler,
  inr (mkRoute (replace_once "/api/v1/" ("/api/v1/" +:+ v.1 +:+ "/") (rt_path route)) (rt_methods route) handler).

Fixpoint add_area_routes (route : Route) (vs : list (string * AccessPolicy)) : Exn + list Route :=
  match vs with
  | [] => inr []
  | v :: vs' => add_area_route route v ≫= λ r, add_area_routes route vs' ≫= λ rs, inr (r :: rs)
  end.

Fixpoint scoped_routes (routes : list Route) : Exn + list Route :=
  match routes with
  | [] => inr []
  | route :: rest =>
      match rt_endpoint route with
      | Some (mkAccess _ (Some permission) (Some scope_owned) _ as policy) =>
          add_area_routes route (variants (rt_methods route) permission policy) ≫= λ rs,
          scoped_routes rest ≫= λ others, inr (rs ++ others)
      | _ => scoped_routes rest
      end
  end.

(** ** Facts *)

Lemma enforce_inr handler actor :
  enforce_role_policy handler actor = inr () →
  ∃ policy role, handler = Some policy ∧ ap_kind policy = "user"%string ∧ role ∈ ac_roles actor ∧ role ∈ ap_roles policy.
Proof.
  unfold enforce_role_policy, get_allowed_roles. destruct handler as [policy|]; [|done].
  case_bool_decide as Hk; [|done]. destruct (isdisjoint _ _) eqn:Hd; [done|]. intros _.
  destruct (list_find (λ x, x ∈ ap_roles policy) (ac_roles actor)) as [[i role]|] eqn:Hf.
  - apply list_find_Some in Hf as (Hi%list_elem_of_lookup_2 & Ha & _). eauto 10.
  - exfalso. apply Bool.not_true_iff_false in Hd. apply Hd. unfold isdisjoint. apply forallb_forall.
    intros x Hx%list_elem_of_In. apply list_find_None in Hf. rewrite Forall_forall in Hf.
    apply negb_true_iff, bool_decide_eq_false_2. intros Hin. by apply (Hf x).
Qed.

Lemma request_scope_inr handler actor sc :
  get_request_scope (Some handler) actor = inr sc →
  ∃ policy scope role, handler = Some policy ∧ ap_scope policy = Some scope ∧ sc = build_actor_scope actor scope ∧
    role ∈ ac_roles actor ∧ role ∈ ap_roles policy.
Proof.
  unfold get_request_scope. destruct handler as [policy|]; [|done]. destruct (ap_scope policy) as [scope|] eqn:Hs; [|done].
  case_bool_decide; [|done]. intros (u & Henf & [= <-])%sum_bind_ok. destruct u.
  apply enforce_inr in Henf as (p & role & [= <-] & _ & Hr & Ha). eauto 10.
Qed.

Lemma access_policy_inr policy handler h : access_policy policy handler = inr h → h = Some policy.
Proof. unfold access_policy. cbv zeta. repeat case_match; try done. by intros [= <-]. Qed.

Lemma elem_of_area_routes route vs rs r :
  add_area_routes route vs = inr rs → r ∈ rs →
  ∃ v, v ∈ vs ∧ rt_methods r = rt_methods route ∧ rt_endpoint r = Some v.2.
Proof.
  revert rs. induction vs as [|v vs IH]; intros rs; simpl; [intros [= <-]; set_solver|].
  intros (r0 & H0 & (rs' & Hrs & [= <-])%sum_bind_ok)%sum_bind_ok [->|Hr]%elem_of_cons.
  - unfold add_area_route in H0. apply sum_bind_ok in H0 as (h & Hh%access_policy_inr & [= <-]). subst h.
    exists v. split; [by left|done].
  - destruct (IH rs' Hrs Hr) as (v' & Hv & ?). exists v'. split; [by right|done].
Qed.

Lemma elem_of_scoped_routes routes out r :
  scoped_routes routes = inr out → r ∈ out →
  ∃ permission policy v, v ∈ variants (rt_methods r) permission policy ∧ ap_scope policy = Some scope_owned ∧
    rt_endpoint r = Some v.2.
Proof.
  revert out. induction routes as [|route rest IH]; intros out; cbn [scoped_routes]; [intros [= <-]; set_solver|].
  destruct (rt_endpoint route) as [[kind [permission|] [[]|] roles]|]; try (by apply IH).
  intros (rs & Hrs & (others & Ho & [= <-])%sum_bind_ok)%sum_bind_ok [Hr|Hr]%elem_of_app; [|by apply (IH others)].
  destruct (elem_of_area_routes _ _ _ _ Hrs Hr) as (v & Hv & Hm & He). rewrite <- Hm in Hv. eauto 10.
Qed.

(** A variant is the owner's own, or reads everything for one staff role, or
    lets operators write cards. *)
Lemma variants_cases methods perm policy v :
  v ∈ variants methods perm policy → v = ("owner"%string, policy) ∨
  ap_scope v.2 = Some scope_all ∧ ∃ x, ap_roles v.2 = [x] ∧ x ∈ ["operator"; "admin"; "accountant"] ∧
    (only_get methods = true ∨ x = "operator"%string ∧ ap_permission v.2 = Some "ops.cards.manage"%string).
Proof.
  unfold variants. intros [->|Hv]%elem_of_cons; [by left|right]. revert v Hv. apply Forall_forall.
  destruct (only_get methods), (bool_decide (perm ∈ GLOBAL_READ_PERMISSIONS)); simpl; case_bool_decide;
    repeat (constructor; [split; [done|]; eexists; split_and!; [done|set_solver|auto]|]); constructor.
Qed.

(** C26. The areas never widen what a request may see: on every route
    [scoped_routes] builds, an admitted actor is confined to its own data, or
    holds a staff role of that area and the route only reads — the one
    exception being the cards an operator administers. *)
Theorem area_scope_confined routes out r actor sc :
  scoped_routes routes = inr out → r ∈ out → get_request_scope (Some (rt_endpoint r)) actor = inr sc →
  sc_actor_id sc = ac_user_id actor ∧
  (sc_owner_id sc = Some (ac_user_id actor) ∨
   sc_owner_id sc = None ∧ (∃ role, role ∈ ac_roles actor ∧ role ∈ ["operator"; "admin"; "accountant"]) ∧
   (only_get (rt_methods r) = true ∨
    "operator" ∈ ac_roles actor ∧ (rt_endpoint r ≫= ap_permission) = Some "ops.cards.manage"%string)).
Proof.
  intros Hout Hr Hsc. destruct (elem_of_scoped_routes _ _ _ Hout Hr) as (perm & policy & v & Hv & Hown & He).
  rewrite He in *. apply request_scope_inr in Hsc as (p & scope & role & [= <-] & Hs & -> & Hrole & Hin).
  split; [done|]. apply variants_cases in Hv as [->|(Hall & x & Hx & Hst & Hor)].
  { left. simpl in Hs. rewrite Hown in Hs. by injection Hs as <-. }
  right. rewrite Hall in Hs. injection Hs as <-. rewrite Hx in Hin. apply list_elem_of_singleton in Hin as ->.
  split_and!; [done|eauto|]. destruct Hor as [?|[-> ?]]; [by left|by right].
Qed.

(** ** A concrete table of routes *)

Definition demo_routes : list Route :=
  [mkRoute "/api/v1/charging/sessions" ["GET"]
     (Some (mkAccess "user" (Some "owner.charging.sessions") (Some scope_owned) ["station_owner"]));
   mkRoute "/api/v1/charging/cards" ["POST"]
     (Some (mkAccess "user" (Some "owner.charging.create_card") (Some scope_owned) ["station_owner"]));
   mkRoute "/api/v1/stations" ["POST"]
     (Some (mkAccess "user" (Some "owner.stations.create_station") (Some scope_owned) ["station_owner"]));
   mkRoute "/api/v1/auth/login" ["POST"] (Some (mkAccess "public" None None []))].

Example demo_areas :
  (λ r, (rt_path r, rt_endpoint r ≫= ap_permission)) <$> (match scoped_routes demo_routes with inr l => l | inl _ => [] end) =
  [("/api/v1/owner/charging/sessions"%string, Some "owner.charging.sessions"%string);
   ("/api/v1/ops/charging/sessions"%string, Some "ops.charging.sessions"%string);
   ("/api/v1/admin/charging/sessions"%string, Some "admin.charging.sessions"%string);
   ("/api/v1/accounting/charging/sessions"%string, Some "accounting.sessions.read"%string);
   ("/api/v1/owner/charging/cards"%string, Some "owner.charging.create_card"%string);
   ("/api/v1/ops/charging/cards"%string, Some "ops.cards.manage"%string);
   ("/api/v1/owner/stations"%string, Some "owner.stations.create_station"%string)].
Proof. vm_compute. reflexivity. Qed.

Lemma area_scope_confined_witness :
  sc_owner_id (mkScope 7 None) = Some 7 ∨
  sc_owner_id (mkScope 7 None) = None ∧ (∃ role, role ∈ ["operator"%string] ∧ role ∈ ["operator"; "admin"; "accountant"]) ∧
  (only_get ["POST"] = true ∨ "operator" ∈ ["operator"%string] ∧ Some "ops.cards.manage"%string = Some "ops.cards.manage"%string).
Proof.
  refine (proj2 (area_scope_confined demo_routes _ (mkRoute "/api/v1/ops/charging/cards" ["POST"]
    (Some (mkAccess "user" (Some "ops.cards.manage") (Some scope_all) ["operator"]))) (mkActor 7 ["operator"]) (mkScope 7 None)
    ltac:(vm_compute; reflexivity) _ ltac:(vm_compute; reflexivity))).
  do 5 right. left.
Defined.
