(* ===== verification/Reservations.v ===== *)
(** * Reservations: holding a connector for a driver

    Models [src/src/modules/reservations/service.py], [reservations/fees.py] and
    [reservations/policy.py], with [charging/driver_provisioning.py]. The
    SHA-256 of a request's canonical text ([request_digest]) and of a tag
    ([tag_hash]) are parameters; [raw] is what [secrets.token_urlsafe] returned,
    [boot_accepted] what the socket registry says of a charger at that moment.
    Every function is one transaction under the row locks of [lock_target];
    times in event details are kept as integers. *)

From S2P Require Import Prelude Bands Clock Text Store AuditTrail Wallet Pricing Eligibility PowerSchedule PowerControl.

(** ** Words *)

(** [HOLDS] *)
Definition holds (s : RStatus) : bool :=
  match s with
  | rv_pending | rv_uncertain | rv_active | rv_cancel_pending | rv_expiry_release_pending => true
  | _ => false
  end.

(** [str(fee_decision)] *)
Definition fee_word (d : FeeDecision) : string :=
  match d with
  | fee_pending => "pending" | fee_legacy_exempt => "legacy_exempt" | fee_waived => "waived"
  | fee_charged => "charged" | fee_review => "review"
  end.

Definition seconds (n : Z) : Z := n * second_us.
Definition JOpt (o : option Z) : Json := match o with Some n => JInt n | None => JNull end.

(** ** The charger *)

Definition live (point : ChargePoint) (now : Z) : bool :=
  bool_decide (cp_archived_at point = None) && bool_decide (cp_status point = "online") &&
  bool_decide (is_Some (cp_last_boot_at point)) &&
  match cp_last_seen_at point with
  | Some seen => (seen <=? now) && (now - seen <=? seconds (2 * cp_heartbeat_interval_seconds point))
  | None => false
  end.

Inductive CapabilityStatus := cap_unverified | cap_supported | cap_unsupported.

#[export] Instance CapabilityStatus_dec : EqDecision CapabilityStatus.
Proof. solve_decision. Defined.

Definition capability_status (cap : option ReservationCapability) (point : ChargePoint) : CapabilityStatus :=
  match cap with
  | None => cap_unverified
  | Some c =>
      if negb (bool_decide (rc_boot_at c = cp_last_boot_at point)) || bool_decide (rc_checked_at c = None)
      then cap_unverified
      else if rc_supported c then cap_supported else cap_unsupported
  end.

Definition lock_target (connector_id : Z) : Tx (ChargePoint * Connector * Station) :=
  registered ← gets (λ db, connectors db !! connector_id);
  connector ← some_or registered (HTTPException 404);
  p ← gets (λ db, charge_points db !! cn_charge_point_id connector);
  point ← some_or p (HTTPException 404);
  s ← gets (λ db, stations db !! cp_station_id point);
  station ← some_or s (HTTPException 404);
  raise_if (bool_decide (is_Some (cp_archived_at point)) || bool_decide (is_Some (cn_archived_at connector)) ||
            bool_decide (is_Some (st_archived_at station))) (HTTPException 404);;
  mret (point, connector, station).

(** ** Rows *)

Definition update_reservation (id : Z) (f : Reservation → Reservation) : Tx () :=
  modify (λ db, set_reservations (alter f id (reservations db)) db).
Definition update_command (id : Z) (f : ReservationCommand → ReservationCommand) : Tx () :=
  modify (λ db, set_reservation_commands (alter f id (reservation_commands db)) db).
Definition update_capability (id : Z) (f : ReservationCapability → ReservationCapability) : Tx () :=
  modify (λ db, set_reservation_capabilities (alter f id (reservation_capabilities db)) db).

(** The reservation object of the transaction: its row as it is now. *)
Definition reservation_row (id : Z) : Tx Reservation :=
  r ← gets (λ db, reservations db !! id); some_or r AssertionError.

(** [event] *)
Definition event (reservation_id : Z) (action : string) (now : Z) (details : list (string * Json)) : Tx () :=
  id ← fresh_id;
  modify (λ db, set_reservation_events (reservation_events db ++
    [mkREvent id reservation_id action now details]) db).

Definition insert_command (id reservation_id : Z) (action : RAction) (now : Z) : Tx () :=
  dup ← gets (λ db, reservation_commands db !! id);
  raise_if (bool_decide (is_Some dup)) (IntegrityError "reservation_commands_pkey");;
  modify (λ db, set_reservation_commands
    (<[id := mkRCommand id reservation_id action rm_queued 0 now now None None None]> (reservation_commands db)) db).

Definition command_of (reservation_id : Z) (action : RAction) (db : Db) : option ReservationCommand :=
  select_where (λ c, (rm_reservation_id c =? reservation_id) && bool_decide (rm_action c = action))
    (reservation_commands db).

Definition connector_hold (connector_id : Z) (db : Db) : option Reservation :=
  select_where (λ r, (rv_connector_id r =? connector_id) && holds (rv_status r)) (reservations db).

Definition driver_hold (driver_id : Z) (db : Db) : option Reservation :=
  select_where (λ r, (rv_driver_id r =? driver_id) && holds (rv_status r)) (reservations db).

(** A transaction that still occupies the connector. *)
Definition occupies (connector_id : Z) (c : ChargingSession) : bool :=
  (cs_connector_id c =? connector_id) &&
  (bool_decide (cs_ended_at c = None) ||
   ((cs_billing_lifecycle_version c =? 1) && bool_decide (cs_connector_released_at c = None))).

Definition start_pending (s : DriverStartRequest) : bool :=
  bool_decide (sr_status s ∈ ["Pending"; "Accepted"]).

(** ** Fees *)

(** [quote]: the station's fee and the version of its policy. *)
Definition quote (station_id : Z) (db : Db) : Z * Z :=
  match reservation_policies db !! station_id with
  | Some p => (rp_fee_vnd p, rp_version p)
  | None => (0, 0)
  end.

(** [PUT /{station_id}/reservation-policy] *)
Definition update_policy (station_id actor_id fee_vnd expected_version : Z) (evidence : Evidence) : Tx (Z * Z) :=
  savepoint (
    s ← gets (λ db, stations db !! station_id);
    station ← some_or s (HTTPException 404);
    raise_if (bool_decide (is_Some (st_archived_at station))) (HTTPException 404);;
    raise_if (negb (st_owner_id station =? actor_id)) (HTTPException 403);;
    q ← gets (quote station_id);
    raise_if (negb (q.2 =? expected_version)) (HTTPException 409);;
    if q.1 =? fee_vnd then mret q
    else
      raise_if ((fee_vnd <? 0) || (1000000 <? fee_vnd)) (IntegrityError "ck_reservation_policy_fee");;
      modify (λ db, set_reservation_policies
        (<[station_id := mkPolicy station_id fee_vnd (q.2 + 1)]> (reservation_policies db)) db);;
      ghi_nhat_ky (Some actor_id) "reservation.policy_updated" "station" (uuid_str station_id)
        [("before_fee_vnd", JInt q.1); ("fee_vnd", JInt fee_vnd); ("version", JInt (q.2 + 1))]
        (Some (ev_permission evidence)) (Some (ev_roles evidence));;
      gets (quote station_id)).

Definition fee_decided (d : FeeDecision) (reason : string) (now : Z) (r : Reservation) : Reservation :=
  set_rv_fee_decided_at (Some now) (set_rv_fee_reason (Some reason) (set_rv_fee_decision d r)).

Definition decide_fee (id : Z) (decision : FeeDecision) (reason : string) (now : Z) : Tx () :=
  row ← reservation_row id;
  if bool_decide (rv_fee_decision row = decision) && bool_decide (rv_fee_reason row = Some reason) then mret ()
  else
    wallet ← gets (wallet_of_driver (rv_driver_id row));
    update_reservation id (fee_decided decision reason now);;
    event id "fee_decided" now
      [("decision", JStr (fee_word decision)); ("reason", JStr reason); ("fee_vnd", JInt (rv_fee_vnd row));
       ("ledger_id", JOpt (rv_fee_ledger_id row))];;
    ghi_nhat_ky None "reservation.fee_decided" "reservation" (uuid_str id)
      [("audit_version", JInt 1); ("driver_id", JStr (uuid_str (rv_driver_id row)));
       ("wallet_id", match wallet with Some w => JStr (uuid_str (w_id w)) | None => JNull end);
       ("reservation_id", JStr (uuid_str id)); ("before_decision", JStr (fee_word (rv_fee_decision row)));
       ("decision", JStr (fee_word decision)); ("reason", JStr reason); ("fee_vnd", JInt (rv_fee_vnd row));
       ("ledger_id", JOpt (rv_fee_ledger_id row))] None None;;
    mret ().

Definition observe_expiry (id : Z) (point : ChargePoint) (station : Station) (boot_accepted : bool) (now : Z) : Tx () :=
  row ← reservation_row id;
  if negb (bool_decide (rv_fee_decision row = fee_pending)) || (now <? rv_expires_at row) then mret ()
  else
    cap ← gets (λ db, reservation_capabilities db !! cp_id point);
    connector ← gets (λ db, connectors db !! rv_connector_id row);
    let eligible :=
      match rv_activated_at row with Some t => t <? rv_expires_at row | None => false end &&
      bool_decide (st_status station = "active") && live point now &&
      bool_decide (capability_status cap point = cap_supported) &&
      match cp_last_boot_at point with Some t => t <=? rv_created_at row | None => false end &&
      bool_decide (cp_error_code point ∈ [None; Some "NoError"]) &&
      negb (bool_decide (cp_raw_ocpp_status point = Some "Faulted")) &&
      match connector with Some cn => negb (bool_decide (cn_status cn ∈ ["Faulted"; "Unavailable"])) | None => false end &&
      boot_accepted in
    match rv_expiry_fee_eligible row with
    | None => update_reservation id (set_rv_expiry_fee_eligible (Some eligible))
    | Some _ => when (negb eligible) (update_reservation id (set_rv_expiry_fee_eligible (Some false)))
    end.

Definition mark_late_start (id source_time now : Z) (message_id : option string) : Tx () :=
  row ← reservation_row id;
  when ((0 <? rv_fee_vnd row) && negb (bool_decide (rv_fee_decision row = fee_legacy_exempt)) &&
        negb (rv_no_show_exempt row))
    (decide_fee id fee_review "late_start_after_fee_window" now);;
  let details := [("source_timestamp", JInt source_time); ("received_at", JInt now);
                  ("message_id", match message_id with Some m => JStr m | None => JNull end);
                  ("needs_review", JBool true)] in
  event id "late_start_observed" now details;;
  ghi_nhat_ky None "reservation.late_start_observed" "reservation" (uuid_str id) details None None;;
  mret ().

(** ** Release *)

Definition released (now : Z) (reason : string) (request_id : option Z) (r : Reservation) : Reservation :=
  set_rv_no_show_exempt (bool_decide (reason = "station_unavailable") ||
      (bool_decide (reason = "driver_cancel") && (now <? rv_expires_at r)))
    (set_rv_cancel_request_id request_id (set_rv_cancel_reason (Some reason) (set_rv_cancel_requested_at (Some now) r))).

Definition request_release (id now : Z) (reason : string) (request_id : option Z) : Tx () :=
  row ← reservation_row id;
  if negb (holds (rv_status row)) then mret ()
  else if bool_decide (is_Some (rv_cancel_requested_at row)) then mret ()
  else
    reserve ← gets (command_of id ReserveNow);
    update_reservation id (released now reason request_id);;
    row ← reservation_row id;
    when (rv_no_show_exempt row && bool_decide (rv_fee_decision row = fee_pending))
      (decide_fee id fee_waived reason now);;
    update_reservation id (set_rv_updated_at now);;
    match reserve with
    | Some c =>
        if bool_decide (rm_status c = rm_queued) && (rm_attempts c =? 0) then
          update_command (rm_id c) (set_rm_status rm_suppressed);;
          update_reservation id (λ r, set_rv_outcome (Some "not_sent")
            (set_rv_status (if bool_decide (reason = "expired") then rv_expired else rv_cancelled) r))
        else
          update_reservation id (set_rv_status
            (if bool_decide (reason = "expired") then rv_expiry_release_pending else rv_cancel_pending));;
          cmd ← fresh_id; insert_command cmd id CancelReservation now
    | None =>
        update_reservation id (set_rv_status
          (if bool_decide (reason = "expired") then rv_expiry_release_pending else rv_cancel_pending));;
        cmd ← fresh_id; insert_command cmd id CancelReservation now
    end;;
    event id "release_requested" now [("reason", JStr reason)].

(** One reservation past its fee window, in one transaction. *)
Definition fee_one (boot_accepted : bool) (id : Z) : Tx () :=
  savepoint (
    registered ← gets (λ db, reservations db !! id);
    match registered with
    | None => mret ()
    | Some reg =>
        target ← lock_target (rv_connector_id reg);
        let '(point, _, station) := target in
        row ← reservation_row id;
        now ← gets db_now;
        if negb (bool_decide (rv_fee_decision row = fee_pending)) || (now <? rv_expires_at row + seconds 30) then mret ()
        else
          observe_expiry id point station boot_accepted now;;
          row ← reservation_row id;
          if bool_decide (rv_status row = rv_consumed) || bool_decide (is_Some (rv_session_id row)) then
            decide_fee id fee_waived "consumed" now
          else if rv_no_show_exempt row ||
                  (bool_decide (rv_cancel_reason row = Some "driver_cancel") &&
                   match rv_cancel_requested_at row with Some t => t <? rv_expires_at row | None => false end) then
            decide_fee id fee_waived "cancelled_before_expiry" now
          else if bool_decide (rv_status row = rv_rejected) || bool_decide (rv_outcome row = Some "not_sent") then
            decide_fee id fee_waived "never_reserved" now
          else if rv_fee_vnd row =? 0 then
            request_release id now "expired" None;; decide_fee id fee_waived "zero_fee" now
          else if negb (bool_decide (rv_expiry_fee_eligible row = Some true)) ||
                  match cp_last_seen_at point with Some t => t <? rv_expires_at row | None => true end then
            request_release id now "expired" None;; decide_fee id fee_review "reservation_not_verified_at_expiry" now
          else
            request_release id now "expired" None;;
            wallet ← gets (wallet_of_driver (rv_driver_id row));
            match wallet with
            | Some w =>
                if bool_decide (w_status w = active) then
                  ledger ← ghi_so_cai (w_id w) reservation_fee (- rv_fee_vnd row) "reservation" (uuid_str id) None;
                  update_reservation id (set_rv_fee_ledger_id (Some (l_id ledger)));;
                  decide_fee id fee_charged "no_show" now
                else decide_fee id fee_review "wallet_unavailable" now
            | None => decide_fee id fee_review "wallet_unavailable" now
            end
    end).

(** ** Probing *)

Definition probe_capability (connector_id : Z) : Tx CapabilityStatus :=
  savepoint (
    target ← lock_target connector_id;
    let '(point, _, station) := target in
    now ← gets db_now;
    raise_if (negb (bool_decide (st_status station = "active")) || negb (live point now)) (HTTPException 409);;
    c ← gets (λ db, reservation_capabilities db !! cp_id point);
    match c with
    | None =>
        modify (λ db, set_reservation_capabilities (<[cp_id point :=
          mkCapability (cp_id point) (cp_last_boot_at point) false None now None None "queued"]>
          (reservation_capabilities db)) db)
    | Some cap =>
        if negb (bool_decide (rc_boot_at cap = cp_last_boot_at point)) then
          update_capability (cp_id point) (λ c, set_rc_outcome "queued" (set_rc_next_attempt_at now
            (set_rc_lease_token None (set_rc_locked_until None (set_rc_checked_at None (set_rc_supported false
              (set_rc_boot_at (cp_last_boot_at point) c)))))))
        else when (negb (rc_supported cap) && match rc_locked_until cap with Some t => t <=? now | None => true end)
          (update_capability (cp_id point) (λ c, set_rc_outcome "queued" (set_rc_next_attempt_at now
            (set_rc_checked_at None c))))
    end;;
    c ← gets (λ db, reservation_capabilities db !! cp_id point);
    mret (capability_status c point)).

(** ** Booking *)

Section booking.
Context {dep : Deployment}.
Context (tag_hash : string → string).

(** [raw[-4:]] *)
Definition tail4 (raw : string) : string := of_chars (reverse (take 4 (reverse (chars raw)))).

Definition ensure_driver_resources (raw : string) (driver_id : Z) : Tx DriverVirtualTag :=
  ensure_driver_wallet driver_id;;
  t ← gets (λ db, id_tags db !! driver_id);
  match t with
  | Some tag => mret tag
  | None =>
      dup ← gets (λ db, select_where (λ c, bool_decide (cc_tag_hash c = tag_hash raw)) (charging_cards db));
      raise_if (bool_decide (is_Some dup)) (IntegrityError "charging_cards_tag_hash_key");;
      card ← fresh_id;
      modify (λ db, set_charging_cards
        (<[card := mkCard card (tag_hash raw) (tail4 raw) driver_id driver_id "active" None]> (charging_cards db)) db);;
      modify (λ db, set_id_tags (<[driver_id := mkVirtualTag driver_id card raw]> (id_tags db)) db);;
      mret (mkVirtualTag driver_id card raw)
  end.

(** The canonical text of a request, hashed; [None] is the text without the
    accepted fee that older clients sent. *)
Context (request_digest : Z → option Z → option (option Z * option Z) → string).

Definition replayed (driver_id connector_id : Z) (arrival_at accepted_fee_vnd accepted_policy_version : option Z)
    (previous : Reservation) : bool :=
  let digest := request_digest connector_id arrival_at (Some (accepted_fee_vnd, accepted_policy_version)) in
  let legacy_retry :=
    bool_decide (rv_fee_decision previous = fee_legacy_exempt) && bool_decide (accepted_fee_vnd = None) &&
    bool_decide (accepted_policy_version = None) &&
    bool_decide (rv_request_hash previous = request_digest connector_id arrival_at None) in
  (rv_driver_id previous =? driver_id) && (bool_decide (rv_request_hash previous = digest) || legacy_retry).

Definition policy_accepted (fee version : Z) (accepted_fee_vnd accepted_policy_version : option Z) : bool :=
  match accepted_fee_vnd with Some f => f =? fee | None => true end &&
  match accepted_policy_version with Some v => v =? version | None => true end &&
  negb ((0 <? fee) && (bool_decide (accepted_fee_vnd = None) || bool_decide (accepted_policy_version = None))).

Definition create_reservation (raw : string) (driver_id request_id connector_id : Z) (arrival_at : option Z)
    (evidence : Evidence) (accepted_fee_vnd accepted_policy_version : option Z) : Tx Reservation :=
  savepoint (
    prev ← gets (λ db, reservations db !! request_id);
    match prev with
    | Some previous =>
        raise_if (negb (replayed driver_id connector_id arrival_at accepted_fee_vnd accepted_policy_version previous))
          (HTTPException 409);;
        mret previous
    | None =>
        cmd ← gets (λ db, reservation_commands db !! request_id);
        raise_if (bool_decide (is_Some cmd)) (HTTPException 409);;
        target ← lock_target connector_id;
        let '(point, connector, station) := target in
        now ← gets db_now;
        raise_if (bool_decide (is_Some arrival_at)) (HTTPException 422);;
        raise_if (negb (bool_decide (st_status station = "active")) || negb (live point now)) (HTTPException 409);;
        cap ← gets (λ db, reservation_capabilities db !! cp_id point);
        raise_if (negb (bool_decide (capability_status cap point = cap_supported))) (HTTPException 409);;
        hold ← gets (connector_hold connector_id);
        raise_if (bool_decide (is_Some hold)) (HTTPException 409);;
        raise_if (negb (bool_decide (cn_status connector = "Available"))) (HTTPException 409);;
        raise_if (bool_decide (cp_raw_ocpp_status point = Some "Faulted") ||
                  negb (bool_decide (cp_error_code point ∈ [None; Some "NoError"]))) (HTTPException 409);;
        occupied ← gets (λ db, select_where (occupies connector_id) (charging_sessions db));
        pending ← gets (λ db, select_where (λ s, (sr_connector_id s =? connector_id) && start_pending s)
                                (driver_start_requests db));
        raise_if (bool_decide (is_Some occupied) || bool_decide (is_Some pending)) (HTTPException 409);;
        u ← gets (λ db, users db !! driver_id);
        raise_if (match u with
                  | Some u => negb (bool_decide (u_status u = "active")) || negb (bool_decide ("driver" ∈ u_roles u))
                  | None => true
                  end) (HTTPException 403);;
        q ← gets (quote (st_id station));
        let '(fee, version) := q in
        raise_if (negb (policy_accepted fee version accepted_fee_vnd accepted_policy_version)) (HTTPException 409);;
        other ← gets (driver_hold driver_id);
        raise_if (bool_decide (is_Some other)) (HTTPException 409);;
        power ← gets (power_start_allowed (st_id station) None);
        raise_if (negb power) (HTTPException 409);;
        eligibility ← du_so_du_de_sac driver_id (st_id station) (Some now);
        raise_if (negb (allowed eligibility) || bool_decide (tariff_id eligibility = None)) (HTTPException 409);;
        tag ← ensure_driver_resources raw driver_id;
        raise_if (match minimum_balance_vnd eligibility, balance_vnd eligibility with
                  | Some m, Some b => b <? m + fee
                  | _, _ => false
                  end) (HTTPException 409);;
        identity ← gets (λ db, charging_cards db !! vt_card_id tag);
        raise_if (match identity with
                  | Some c => negb (bool_decide (cc_status c = "active")) ||
                              match cc_expires_at c with Some t => t <=? now | None => false end
                  | None => true
                  end) (HTTPException 409);;
        ocpp_id ← fresh_id;
        let row := mkReservation request_id ocpp_id driver_id (st_id station) (cp_id point) connector_id
          (vt_card_id tag) (request_digest connector_id arrival_at (Some (accepted_fee_vnd, accepted_policy_version)))
          rv_pending now now (now + 15 * seconds 60) now None None None None false None fee version fee_pending
          None None None None None in
        modify (λ db, set_reservations (<[request_id := row]> (reservations db)) db);;
        insert_command request_id request_id ReserveNow now;;
        event request_id "requested" now [];;
        ghi_nhat_ky (Some driver_id) "reservation.requested" "reservation" (uuid_str request_id)
          [("connector", JStr (uuid_str connector_id)); ("expires_at", JInt (rv_expires_at row))]
          (Some (ev_permission evidence)) (Some (ev_roles evidence));;
        mret row
    end).
End booking.

Definition cancel_reservation (driver_id reservation_id request_id : Z) (evidence : Evidence) : Tx Reservation :=
  savepoint (
    reg ← gets (λ db, reservations db !! reservation_id);
    registered ← some_or reg (HTTPException 404);
    raise_if (negb (rv_driver_id registered =? driver_id)) (HTTPException 403);;
    lock_target (rv_connector_id registered);;
    reservation ← reservation_row reservation_id;
    if bool_decide (rv_cancel_request_id reservation = Some request_id) &&
       bool_decide (rv_cancel_reason reservation = Some "driver_cancel") then mret reservation
    else
      command ← gets (λ db, reservation_commands db !! request_id);
      reused ← gets (λ db, select_where (λ r, bool_decide (rv_cancel_request_id r = Some request_id)) (reservations db));
      raise_if (bool_decide (is_Some command) || bool_decide (is_Some reused)) (HTTPException 409);;
      raise_if (bool_decide (rv_status reservation = rv_consumed)) (HTTPException 409);;
      if bool_decide (rv_status reservation ∈ [rv_cancel_pending; rv_expiry_release_pending]) then mret reservation
      else
        now ← gets db_now;
        raise_if (rv_expires_at reservation <=? now) (HTTPException 409);;
        raise_if (negb (bool_decide (rv_status reservation ∈ [rv_active; rv_uncertain]))) (HTTPException 409);;
        request_release reservation_id now "driver_cancel" (Some request_id);;
        ghi_nhat_ky (Some driver_id) "reservation.cancel_requested" "reservation" (uuid_str reservation_id)
          [("request_id", JStr (uuid_str request_id))] (Some (ev_permission evidence)) (Some (ev_roles evidence));;
        reservation_row reservation_id).

(** ** Starting on a held connector *)

Definition admissible (r : Reservation) (driver_id now : Z) : bool :=
  (rv_driver_id r =? driver_id) && bool_decide (rv_status r ∈ [rv_pending; rv_uncertain; rv_active]) &&
  bool_decide (rv_cancel_requested_at r = None) && (now <? rv_expires_at r).

Definition authorize_allowed (point_id : Z) (card : ChargingCard) (now : Z) (db : Db) : bool :=
  let held := filter (λ r, (rv_charge_point_id r =? point_id) && holds (rv_status r) = true) (rows (reservations db)) in
  match held with
  | [] => true
  | _ =>
      existsb (λ r, (rv_card_id r =? cc_id card) && admissible r (cc_driver_id card) now) held ||
      bool_decide (is_Some (select_where (λ cn, (cn_charge_point_id cn =? point_id) &&
        bool_decide (cn_archived_at cn = None) && negb (bool_decide (cn_id cn ∈ rv_connector_id <$> held)) &&
        bool_decide (cn_status cn ∈ ["Available"; "Preparing"])) (connectors db)))
  end.

Definition of_card (card : option ChargingCard) (r : Reservation) : bool :=
  match card with
  | Some c => (rv_card_id r =? cc_id c) && (rv_driver_id r =? cc_driver_id c)
  | None => false
  end.

(** [created_at - 30 s <= source_time < expires_at] *)
Definition source_timely (source_time : Z) (r : Reservation) : bool :=
  (rv_created_at r - seconds 30 <=? source_time) && (source_time <? rv_expires_at r).

Definition judge_hold (card : option ChargingCard) (ocpp_id : option Z) (source_time now : Z)
    (message_id : option string) (hold : Reservation) : Tx (bool * option Reservation) :=
  if negb (of_card card hold) || negb (bool_decide (ocpp_id = Some (rv_ocpp_id hold))) then mret (false, Some hold)
  else
    let timely := source_timely source_time hold && (source_time <=? now + seconds 30) &&
                  (now <=? rv_expires_at hold + seconds 30) in
    if source_timely source_time hold && (rv_expires_at hold + seconds 30 <? now) && negb (rv_no_show_exempt hold) then
      mark_late_start (rv_id hold) source_time now message_id;;
      r ← reservation_row (rv_id hold); mret (false, Some r)
    else
      let state_ok := bool_decide (rv_status hold ∈ [rv_pending; rv_uncertain; rv_active]) ||
        (bool_decide (rv_status hold ∈ [rv_expiry_release_pending; rv_expired]) &&
         bool_decide (rv_cancel_reason hold = Some "expired")) in
      mret (timely && state_ok, Some hold).

Definition validate_start (connector_id : Z) (card : option ChargingCard) (ocpp_id : option Z) (source_time now : Z)
    (message_id : option string) : Tx (bool * option Reservation) :=
  hold ← gets (connector_hold connector_id);
  let judge hold := match hold with
                    | None => mret (bool_decide (ocpp_id = None), None)
                    | Some h => judge_hold card ocpp_id source_time now message_id h
                    end in
  match ocpp_id with
  | None => judge hold
  | Some oid =>
      if match hold with Some h => rv_ocpp_id h =? oid | None => false end then judge hold
      else
        previous ← gets (λ db, select_where (λ r, (rv_ocpp_id r =? oid) && (rv_connector_id r =? connector_id)) (reservations db));
        match previous with
        | Some p =>
            if of_card card p && source_timely source_time p && negb (bool_decide (rv_status p = rv_consumed)) &&
               negb (rv_no_show_exempt p) then
              if (rv_expires_at p + seconds 30 <? now) || bool_decide (is_Some hold) then
                mark_late_start (rv_id p) source_time now message_id;;
                r ← reservation_row (rv_id p); mret (false, Some r)
              else if bool_decide (rv_status p = rv_expired) && bool_decide (rv_cancel_reason p = Some "expired")
              then judge (Some p) else judge hold
            else judge hold
        | None => judge hold
        end
  end.

Definition consume (id session_id now : Z) : Tx () :=
  update_reservation id (λ r, set_rv_outcome (Some "StartTransaction") (set_rv_updated_at now
    (set_rv_session_id (Some session_id) (set_rv_status rv_consumed r))));;
  row ← reservation_row id;
  when (bool_decide (rv_fee_decision row = fee_pending)) (decide_fee id fee_waived "consumed" now);;
  event id "consumed" now [("session_id", JInt session_id)].
