(* ===== verification/Identity.v ===== *)
(** * Identity: logins, sessions and accounts

    Models [src/src/modules/identity/service.py], [repository.py],
    [security.py], [role_assignment.py], [admin_service.py], the checks of
    [admin_schemas.py] and [schemas.py], and the handlers of [router.py] and
    [admin_router.py]. Argon2 and SHA-256 are fields of a class; the token a
    login draws, the salted hash of a new password and the tag of a new driver
    are arguments. [datetime.now] and the database's [now()] are [db_now]. A
    request that raises leaves the state it committed before, as [login] does
    when it counts a failed attempt. *)

From S2P Require Import Prelude Text Store AuditTrail Wallet PowerControl Access Reservations.

(** What [AuthService] is built with, and the two libraries it calls. *)
Class AuthEnv := {
  max_failed_attempts : Z;
  lock_duration : Z;
  session_ttl : Z;
  verify_password : string → string → bool;
  hash_session_token : string → string;
  card_hash : string → string
}.

(** A field of a JSON body: left out, [null] or a value. *)
Inductive Field (A : Type) := Absent | Null | Given (a : A).
Arguments Absent {A}. Arguments Null {A}. Arguments Given {A} a.

(** ** The repository *)

Definition normalize_email (email : string) : string := lower (strip email).

Definition find_user (email : string) (db : Db) : option (Z * UserRow) :=
  head (filter (λ p, u_email p.2 = email) (map_to_list (users db))).

Definition update_user (uid : Z) (f : UserRow → UserRow) : Tx () :=
  modify (λ db, set_users (alter f uid (users db)) db).

Definition session_live (hash : string) (now : Z) (db : Db) (s : LoginSession) : bool :=
  bool_decide (ss_token_hash s = hash) && (now <? ss_expires_at s) && bool_decide (ss_revoked_at s = None) &&
  match users db !! ss_user_id s with Some u => bool_decide (u_status u = "active") | None => false end.

Definition get_current_actor_by_session_hash (hash : string) (now : Z) (db : Db) : option CurrentActor :=
  s ← select_where (session_live hash now db) (login_sessions db);
  u ← users db !! ss_user_id s;
  Some (mkActor (ss_user_id s) (u_roles u)).

Definition delete_session_by_token_hash (hash : string) : Tx () :=
  modify (λ db, set_login_sessions (filter (λ p, ss_token_hash p.2 ≠ hash) (login_sessions db)) db).

Definition add_session (uid : Z) (hash : string) (expires_at : Z) : Tx () :=
  dup ← gets (λ db, select_where (λ s, bool_decide (ss_token_hash s = hash)) (login_sessions db));
  raise_if (bool_decide (is_Some dup)) (IntegrityError "sessions_token_hash_key");;
  id ← fresh_id;
  modify (λ db, set_login_sessions (<[id := mkLoginSession id uid hash expires_at None]> (login_sessions db)) db).

(** [UPDATE sessions SET revoked_at WHERE user_id AND revoked_at IS NULL]:
    the number of rows it changed. *)
Definition open_session (uid : Z) (s : LoginSession) : bool := (ss_user_id s =? uid) && bool_decide (ss_revoked_at s = None).

Definition revoke_sessions (uid now : Z) : Tx Z :=
  n ← gets (λ db, Z.of_nat (length (filter (λ s, open_session uid s = true) ((map_to_list (login_sessions db)).*2))));
  modify (λ db, set_login_sessions
    ((λ s, if open_session uid s then set_ss_revoked_at (Some now) s else s) <$> login_sessions db) db);;
  mret n.

Section auth.
Context {env : AuthEnv}.

(** ** Logging in and out *)

Definition _is_locked_until (locked_until : option Z) (current_time : Z) : bool :=
  match locked_until with Some t => current_time <? t | None => false end.

Definition _is_login_locked (user : option (Z * UserRow)) (attempt : option LoginIpAttempt) (now : Z) : bool :=
  match user with Some (_, u) => _is_locked_until (u_locked_until u) now | None => false end ||
  match attempt with Some a => _is_locked_until (ip_locked_until a) now | None => false end.

Definition _verify_login_password (user : option (Z * UserRow)) (password : string) : bool :=
  match user with Some (_, u) => verify_password (u_password_hash u) password | None => false end.

Definition fail_user (now : Z) (u : UserRow) : UserRow :=
  let n := u_failed_login_count u + 1 in
  set_u_updated_at now (set_u_failed_login_count n
    (if max_failed_attempts <=? n then set_u_locked_until (Some (now + lock_duration)) u else u)).

Definition fail_ip (now : Z) (attempt : option LoginIpAttempt) : LoginIpAttempt :=
  let a := match attempt with None => mkIpAttempt 1 None
           | Some a => set_ip_failed_login_count (ip_failed_login_count a + 1) a end in
  if max_failed_attempts <=? ip_failed_login_count a then set_ip_locked_until (Some (now + lock_duration)) a else a.

Definition _record_failed_attempt (user : option (Z * UserRow)) (attempt : option LoginIpAttempt) (ip_address : string)
    (now : Z) : Tx () :=
  match user with Some (uid, _) => update_user uid (fail_user now) | None => mret () end;;
  modify (λ db, set_login_ip_attempts (<[ip_address := fail_ip now attempt]> (login_ip_attempts db)) db).

(** The row is written, and [updated_at] with it, only when a value changes. *)
Definition reset_user (now : Z) (u : UserRow) : UserRow :=
  if (u_failed_login_count u =? 0) && bool_decide (u_locked_until u = None) then u
  else set_u_updated_at now (set_u_locked_until None (set_u_failed_login_count 0 u)).

Definition _reset_failed_attempts (uid : Z) (attempt : option LoginIpAttempt) (ip_address : string) (now : Z) : Tx () :=
  update_user uid (reset_user now);;
  match attempt with
  | Some a => modify (λ db, set_login_ip_attempts
      (<[ip_address := set_ip_locked_until None (set_ip_failed_login_count 0 a)]> (login_ip_attempts db)) db)
  | None => mret ()
  end.

Record LoginResult := mkLoginResult { lr_token : string; lr_expires_at : Z }.

(** The transaction of a login that succeeds; a token drawn twice violates the
    unique key and undoes it. *)
Definition accept_login (uid : Z) (attempt : option LoginIpAttempt) (ip_address token : string) (now : Z) : Tx LoginResult :=
  savepoint (
    _reset_failed_attempts uid attempt ip_address now;;
    add_session uid (hash_session_token token) (now + session_ttl);;
    mret (mkLoginResult token (now + session_ttl))).

Definition login (email password ip_address token : string) : Tx LoginResult :=
  now ← gets db_now;
  user ← gets (find_user (normalize_email email));
  attempt ← gets (λ db, login_ip_attempts db !! ip_address);
  raise_if (match user with Some (_, u) => negb (bool_decide (u_status u = "active")) | None => false end)
    InvalidCredentialsError;;
  raise_if (_is_login_locked user attempt now) LoginLockedError;;
  match user with
  | Some (uid, _) =>
      if _verify_login_password user password then accept_login uid attempt ip_address token now
      else _record_failed_attempt user attempt ip_address now;; raise InvalidCredentialsError
  | None => _record_failed_attempt user attempt ip_address now;; raise InvalidCredentialsError
  end.

Definition logout (token : option string) : Tx () :=
  match token with
  | None => mret ()
  | Some t => delete_session_by_token_hash (hash_session_token t)
  end.

(** ** The actor of a request *)

Definition get_current_actor (session_token : option string) : Tx CurrentActor :=
  token ← some_or session_token (HTTPException 401);
  now ← gets db_now;
  actor ← gets (get_current_actor_by_session_hash (hash_session_token token) now);
  some_or actor (HTTPException 401).

Definition lift_sum {A} (r : Exn + A) : Tx A := match r with inl e => raise e | inr a => mret a end.

(** A request to a [PolicyRoute]: the guard, then for a user policy the actor
    and its role. *)
Definition let_in (endpoint : Handler) (session_token : option string) : Tx (option CurrentActor) :=
  lift_sum (guarded endpoint);;
  if needs_actor endpoint then
    actor ← get_current_actor session_token;
    lift_sum (authorize_request (Some endpoint) actor);;
    mret (Some actor)
  else mret None.

(** ** Roles *)

Definition KNOWN_ROLES : list string := ["admin"; "operator"; "accountant"; "station_owner"; "driver"].
Definition FORBIDDEN_ROLE_PAIRS : list (list string) := [].

Definition subset (xs ys : list string) : bool := forallb (λ x, bool_decide (x ∈ ys)) xs.

Definition validate_role_assignment (roles : list string) (forbidden_pairs : option (list (list string))) : Tx () :=
  raise_if (bool_decide (roles = []) || negb (bool_decide (NoDup roles)) || negb (subset roles KNOWN_ROLES))
    (HTTPException 422);;
  raise_if (existsb (λ pair, subset pair roles) (default FORBIDDEN_ROLE_PAIRS forbidden_pairs)) (HTTPException 422).

(** [previous] and [final] of the source; the default role survives a
    replacement that still has it. *)
Definition default_after (u : UserRow) (final : list string) : option string :=
  match u_roles u, final with
  | [], [code] => Some code
  | _, _ => match u_default_role u with
            | Some code => if bool_decide (code ∈ final) then Some code else None
            | None => None
            end
  end.

(** [assignments] are the codes asked for that the catalogue has, where a code
    is unique. *)
Definition assign_user_roles (raw : string) (user_id : Z) (roles : list string) (replace : bool) : Tx () :=
  u ← gets (λ db, users db !! user_id);
  user ← some_or u (HTTPException 404);
  validate_role_assignment roles (Some []);;
  let final := if replace then roles else remove_dups (roles ++ u_roles user) in
  validate_role_assignment final None;;
  assignments ← gets (λ db, filter (λ c, c ∈ role_codes db) final);
  raise_if (negb (bool_decide (length assignments = length final))) (HTTPException 409);;
  update_user user_id (λ u, set_u_default_role (default_after u final) (set_u_roles assignments u));;
  when (bool_decide ("driver" ∈ final)) (ensure_driver_resources card_hash raw user_id;; mret ()).

Definition get_default_role (user_id : Z) (db : Db) : option string := users db !! user_id ≫= u_default_role.

Definition set_default_role (user_id : Z) (role : option string) : Tx () :=
  u ← gets (λ db, users db !! user_id);
  user ← some_or u (HTTPException 404);
  raise_if (match role with Some code => negb (bool_decide (code ∈ u_roles user)) | None => false end) (HTTPException 422);;
  now ← gets db_now;
  update_user user_id (λ u, set_u_updated_at now (set_u_default_role role u)).

(** ** Accounts *)

Record AccountResponse := mkAccount {
  ar_id : Z; ar_email : string; ar_roles : list string; ar_status : string; ar_created_at : Z; ar_updated_at : Z
}.

Definition account (uid : Z) (u : UserRow) : AccountResponse :=
  mkAccount uid (u_email u) (merge_sort string_le (u_roles u)) (u_status u) (u_created_at u) (u_updated_at u).

(** [self.db.scalar(select(User)...)] or 404 *)
Definition get_user (user_id : Z) : Tx UserRow :=
  u ← gets (λ db, users db !! user_id); some_or u (HTTPException 404).

Definition detail (user_id : Z) : Tx AccountResponse := u ← get_user user_id; mret (account user_id u).

(** The names of [ROLE_NAMES], as UTF-8. *)
Definition ROLE_NAMES : list (string * string) :=
  [("admin", "Quản trị"); ("operator", "Vận hành"); ("station_owner", "Chủ trạm"); ("driver", "Tài xế");
   ("accountant", "Kế toán")].

Definition role_name (code : string) : option (string * string) :=
  head (filter (λ p, p.1 = code) ROLE_NAMES).

Definition roles (db : Db) : list (string * string) := omap role_name (merge_sort string_le (role_codes db)).

(** [User.email.contains(text, autoescape=True)] *)
Fixpoint contains (p l : list Ascii.ascii) : bool :=
  starts_with p l || match l with [] => false | _ :: r => contains p r end.

Record AccountListQuery := mkAccountQuery {
  aq_page : Z; aq_page_size : Z; aq_search : option string; aq_role : option string; aq_status : option string
}.

Definition account_matches (q : AccountListQuery) (p : Z * UserRow) : bool :=
  match aq_search q with
  | Some s => bool_decide (strip s = "") || contains (chars (lower (strip s))) (chars (u_email p.2))
  | None => true
  end &&
  match aq_status q with Some st => bool_decide (u_status p.2 = st) | None => true end &&
  match aq_role q with Some role => bool_decide (role ∈ u_roles p.2) | None => true end.

(** [ORDER BY created_at DESC, id] *)
Definition listed_before (p q : Z * UserRow) : Prop :=
  u_created_at q.2 < u_created_at p.2 ∨ u_created_at q.2 = u_created_at p.2 ∧ p.1 ≤ q.1.

#[global] Instance listed_before_dec p q : Decision (listed_before p q).
Proof. unfold listed_before. apply _. Defined.

Definition page {A} (number size : Z) (l : list A) : list A :=
  take (Z.to_nat size) (drop (Z.to_nat ((number - 1) * size)) l).

Definition listed (q : AccountListQuery) (db : Db) : list (Z * UserRow) :=
  merge_sort listed_before (filter (λ p, account_matches q p = true) (map_to_list (users db))).

Record AccountListResponse := mkAccountList {
  al_items : list AccountResponse; al_page : Z; al_page_size : Z; al_total : Z; al_total_pages : Z
}.

Definition list_accounts (q : AccountListQuery) (db : Db) : AccountListResponse :=
  let total := Z.of_nat (length (listed q db)) in
  mkAccountList ((λ p, account p.1 p.2) <$> page (aq_page q) (aq_page_size q) (listed q db))
    (aq_page q) (aq_page_size q) total ((total + aq_page_size q - 1) / aq_page_size q).

Definition _lock_admin (actor : CurrentActor) : Tx () :=
  ok ← gets (λ db, is_admin db (Some (ac_user_id actor))); raise_if (negb ok) (HTTPException 403).

Definition account_state (a : AccountResponse) : string * list string * string := (ar_email a, ar_roles a, ar_status a).

Definition _audit (actor target : Z) (action : string) (before : option AccountResponse) (after : AccountResponse)
    (authorization : option Evidence) : Tx () :=
  now ← gets db_now;
  id ← fresh_id;
  modify (λ db, set_account_audits (account_audits db ++
    [mkAccountAudit id actor target action (ev_permission <$> authorization) (ev_roles <$> authorization)
       (account_state <$> before) (account_state after) now]) db).

(** *** Requests *)

(** [unique_roles], after the element type has been checked *)
Definition unique_roles (roles : list string) : option (list string) :=
  if bool_decide (NoDup roles) then Some (merge_sort string_le roles) else None.

Definition roles_field (roles : list string) : option (list string) :=
  if subset roles KNOWN_ROLES && bool_decide (1 ≤ length roles ≤ 5)%nat then unique_roles roles else None.

(** The characters of a secret of 12 to 1024. *)
Definition password_field (password : string) : bool := (12 <=? text_len password) && (text_len password <=? 1024).

(** [AccountUpdateRequest]: the roles and the status it carries. *)
Definition validate_changes (roles : Field (list string)) (status : Field string)
  : option (option (list string) * option string) :=
  match roles, status with
  | Null, _ | _, Null => None
  | Absent, Absent => None
  | Absent, Given st => if bool_decide (st ∈ ["active"; "suspended"]) then Some (None, Some st) else None
  | Given rs, Absent => r ← roles_field rs; Some (Some r, None)
  | Given rs, Given st =>
      if bool_decide (st ∈ ["active"; "suspended"]) then r ← roles_field rs; Some (Some r, Some st) else None
  end.

(** *** Operations *)

(** [INSERT INTO users]: the address is unique without regard to case. *)
Definition insert_user (email password_hash : string) : Tx Z :=
  let email := normalize_email email in
  dup ← gets (λ db, select_where (λ u, bool_decide (lower (u_email u) = lower email)) (users db));
  raise_if (bool_decide (is_Some dup)) (IntegrityError "uq_users_email_ci");;
  now ← gets db_now;
  id ← fresh_id;
  modify (λ db, set_users (<[id := mkUser "active" [] email password_hash 0 None now None now]> (users db)) db);;
  mret id.

Definition create (raw email password_hash : string) (new_roles : list string) (actor : CurrentActor)
    (authorization : option Evidence) : Tx AccountResponse :=
  try_except (savepoint (
    _lock_admin actor;;
    validate_role_assignment new_roles None;;
    uid ← insert_user email password_hash;
    assign_user_roles raw uid new_roles true;;
    user ← get_user uid;
    let result := account uid user in
    _audit (ac_user_id actor) uid "account_created" None result authorization;;
    mret result))
  (λ e, match e with IntegrityError _ => Some (raise (HTTPException 409)) | _ => None end).

Definition editable (u : UserRow) : bool := bool_decide (u_status u ∈ ["active"; "suspended"]).

Definition other_admin (user_id : Z) (db : Db) : bool :=
  existsb (λ p, negb (p.1 =? user_id) && is_admin db (Some p.1)) (map_to_list (users db)).

(** [payload] is what [validate_changes] returned. *)
Definition change (raw : string) (user_id expected_updated_at : Z) (payload_roles : option (list string))
    (payload_status : option string) (actor : CurrentActor) (authorization : option Evidence) : Tx AccountResponse :=
  savepoint (
    _lock_admin actor;;
    user ← get_user user_id;
    let before := account user_id user in
    raise_if (negb (ar_updated_at before =? expected_updated_at)) (HTTPException 409);;
    raise_if (negb (editable user)) (HTTPException 409);;
    let new_roles := default (ar_roles before) payload_roles in
    validate_role_assignment new_roles None;;
    let new_status := default (ar_status before) payload_status in
    let keeps_admin := bool_decide ("admin" ∈ new_roles) && bool_decide (new_status = "active") in
    let loses_admin := bool_decide ("admin" ∈ ar_roles before) && negb keeps_admin in
    raise_if ((user_id =? ac_user_id actor) && negb keeps_admin) (HTTPException 409);;
    other ← gets (other_admin user_id);
    raise_if (loses_admin && bool_decide (ar_status before = "active") && negb other) (HTTPException 409);;
    if bool_decide (new_roles = ar_roles before) && bool_decide (new_status = ar_status before) then mret before
    else
      match payload_roles with Some rs => assign_user_roles raw user_id rs true | None => mret () end;;
      now ← gets db_now;
      update_user user_id (λ u, set_u_updated_at now (set_u_status new_status u));;
      when (bool_decide (new_status = "suspended")) (revoke_sessions user_id now;; mret ());;
      after ← get_user user_id;
      let result := account user_id after in
      _audit (ac_user_id actor) user_id "account_updated" (Some before) result authorization;;
      mret result).

Definition reset_password (user_id expected_updated_at : Z) (password_hash : string) (actor : CurrentActor)
    (authorization : Evidence) : Tx AccountResponse :=
  savepoint (
    _lock_admin actor;;
    user ← get_user user_id;
    raise_if (negb (editable user)) (HTTPException 409);;
    raise_if (negb (u_updated_at user =? expected_updated_at)) (HTTPException 409);;
    let before := account user_id user in
    now ← gets db_now;
    update_user user_id (λ u, set_u_updated_at now (set_u_password_hash password_hash u));;
    revoked ← revoke_sessions user_id now;
    ghi_nhat_ky (Some (ac_user_id actor)) "account.credentials_reset" "user" (uuid_str user_id)
      [("revoked_sessions", JInt revoked)] (Some (ev_permission authorization)) (Some (ev_roles authorization));;
    after ← get_user user_id;
    let result := account user_id after in
    _audit (ac_user_id actor) user_id "account_password_reset" (Some before) result (Some authorization);;
    mret result).

(** ** The HTTP handlers *)

(** [login] of the router: what the client is told, or the cookie's value. *)
Definition login_request (email password : string) (client : option string) (token : string) : Tx string :=
  raise_if (negb ((1 <=? text_len password) && (text_len password <=? 1024))) (HTTPException 422);;
  try_except (r ← login email password (default "unknown"%string client) token; mret (lr_token r))
    (λ e, match e with
          | InvalidCredentialsError => Some (raise (HTTPException 401))
          | LoginLockedError => Some (raise (HTTPException 423))
          | _ => None
          end).

Definition ALL_ROLES : list string := ["admin"; "operator"; "accountant"; "station_owner"; "driver"].
Definition me_policy : Handler := Some (mkAccess "user" (Some "identity.me.read") (Some scope_own) ALL_ROLES).
Definition default_role_policy : Handler := Some (mkAccess "user" (Some "identity.default_role.choose") (Some scope_own) ALL_ROLES).
Definition manage_policy : Handler := Some (mkAccess "user" (Some "admin.accounts.manage") (Some scope_all) ["admin"]).

(** [CurrentUserResponse] *)
Record CurrentUser := mkCurrentUser { cu_id : Z; cu_email : string; cu_roles : list string; cu_default_role : option string }.

Definition get_current_user (actor : CurrentActor) : Tx CurrentUser :=
  u ← gets (λ db, users db !! ac_user_id actor);
  user ← some_or u (HTTPException 401);
  role ← gets (get_default_role (ac_user_id actor));
  mret (mkCurrentUser (ac_user_id actor) (u_email user) (sorted_roles (ac_roles actor)) role).

Definition admitted (endpoint : Handler) (token : option string) : Tx (CurrentActor * Evidence) :=
  a ← let_in endpoint token;
  actor ← some_or a (HTTPException 403);
  evidence ← lift_sum (get_authorization_evidence (Some endpoint) actor);
  mret (actor, evidence).

(** A session of [get_db_session] around the handler: it commits at the end
    and rolls back when it raised. *)
Definition me (token : option string) : Tx CurrentUser :=
  savepoint (a ← admitted me_policy token; get_current_user a.1).

Definition choose_default_role (token : option string) (role : string) : Tx CurrentUser :=
  savepoint (
    a ← admitted default_role_policy token;
    raise_if (negb (bool_decide (role ∈ ALL_ROLES))) (HTTPException 422);;
    set_default_role (ac_user_id a.1) (Some role);;
    get_current_user a.1).

Definition create_account (token : option string) (raw email password password_hash : string) (roles : list string)
  : Tx AccountResponse :=
  savepoint (
    a ← admitted manage_policy token;
    raise_if (negb (password_field password)) (HTTPException 422);;
    rs ← some_or (roles_field roles) (HTTPException 422);
    create raw email password_hash rs a.1 (Some a.2)).

Definition update_account (token : option string) (raw : string) (user_id expected_updated_at : Z)
    (roles : Field (list string)) (status : Field string) : Tx AccountResponse :=
  savepoint (
    a ← admitted manage_policy token;
    p ← some_or (validate_changes roles status) (HTTPException 422);
    change raw user_id expected_updated_at p.1 p.2 a.1 (Some a.2)).

Definition reset_account_password (token : option string) (user_id expected_updated_at : Z)
    (password confirm_password password_hash : string) : Tx AccountResponse :=
  savepoint (
    a ← admitted manage_policy token;
    raise_if (negb (password_field password) || negb (bool_decide (password = confirm_password))) (HTTPException 422);;
    reset_password user_id expected_updated_at password_hash a.1 a.2).
End auth.
