(* ===== verification/IdentitySpec.v ===== *)
(** * IdentitySpec: what logins and account changes guarantee

    Runs of requests to the handlers of Identity.v, and what holds along them:
    guesses at a password are bounded, a revoked token never works again, and
    an administrator remains. *)

From S2P Require Import Prelude Text Store AuditTrail Wallet PowerControl Access Reservations Identity.

(** ** Requests and runs *)

Inductive Request :=
  | RLogin (email password : string) (client : option string) (token : string)
  | RLogout (token : option string)
  | RMe (token : option string)
  | RChoose (token : option string) (role : string)
  | RCreate (token : option string) (raw email password password_hash : string) (new_roles : list string)
  | RUpdate (token : option string) (raw : string) (user_id expected : Z) (new_roles : Field (list string)) (status : Field string)
  | RReset (token : option string) (user_id expected : Z) (password confirm password_hash : string).

Definition void {A} (m : Tx A) : Tx () := m ≫= λ _, mret ().

Section runs.
Context {env : AuthEnv}.

Definition serve (r : Request) : Tx () :=
  match r with
  | RLogin e p c t => void (login_request e p c t)
  | RLogout t => logout t
  | RMe t => void (me t)
  | RChoose t role => void (choose_default_role t role)
  | RCreate t raw e p h rs => void (create_account t raw e p h rs)
  | RUpdate t raw u x rs st => void (update_account t raw u x rs st)
  | RReset t u x p c h => void (reset_account_password t u x p c h)
  end.

(** A request at a time. *)
Definition serve_at (r : Z * Request) (db : Db) : (Exn + ()) * Db := serve r.2 (set_db_now r.1 db).

Fixpoint serve_all (rs : list (Z * Request)) (db : Db) : Db :=
  match rs with [] => db | r :: rs' => serve_all rs' (serve_at r db).2 end.

(** ** The abstract machine: accounts, sessions and the next free key *)

Record View := mkView { v_users : gmap Z UserRow; v_sessions : gmap Z LoginSession; v_next : Z }.

Definition view (db : Db) : View := mkView (users db) (login_sessions db) (next_id db).

Definition active_admin (us : gmap Z UserRow) (a : Z) : Prop :=
  ∃ u, us !! a = Some u ∧ u_status u = "active"%string ∧ "admin" ∈ u_roles u.

(** The row an account change leaves: its roles and status are new, the
    address, the secret and the count of failures are not. *)
Definition account_row (now : Z) (roles : list string) (default_role : option string) (status : string) (u : UserRow) : UserRow :=
  mkUser status roles (u_email u) (u_password_hash u) (u_failed_login_count u) (u_locked_until u) now default_role (u_created_at u).

Definition revoke (uid now : Z) (s : LoginSession) : LoginSession :=
  if open_session uid s then set_ss_revoked_at (Some now) s else s.

(** What a request may do at time [now]; the label is the account a password
    was tested for and the hash of the token issued. *)
Inductive acct (now : Z) : option (Z * option string) → View → View → Prop :=
  | acct_idle us ss n n' : n ≤ n' → acct now None (mkView us ss n) (mkView us ss n')
  | acct_fail us ss n uid u :
      us !! uid = Some u → u_status u = "active"%string → _is_locked_until (u_locked_until u) now = false →
      acct now (Some (uid, None)) (mkView us ss n) (mkView (<[uid := fail_user now u]> us) ss n)
  | acct_accept us ss n n' uid u id hash until :
      us !! uid = Some u → u_status u = "active"%string → _is_locked_until (u_locked_until u) now = false →
      (∀ k s, ss !! k = Some s → ss_token_hash s ≠ hash) → n ≤ id < n' →
      acct now (Some (uid, Some hash)) (mkView us ss n)
        (mkView (<[uid := reset_user now u]> us) (<[id := mkLoginSession id uid hash until None]> ss) n')
  | acct_logout us ss n hash :
      acct now None (mkView us ss n) (mkView us (filter (λ p, ss_token_hash p.2 ≠ hash) ss) n)
  | acct_default us ss n uid u role :
      us !! uid = Some u → role ∈ u_roles u →
      acct now None (mkView us ss n) (mkView (<[uid := set_u_updated_at now (set_u_default_role (Some role) u)]> us) ss n)
  | acct_create us ss n n' actor id row :
      active_admin us actor → (∀ k u, us !! k = Some u → u_email u ≠ u_email row) → u_status row = "active"%string →
      n ≤ id < n' →
      acct now None (mkView us ss n) (mkView (<[id := row]> us) ss n')
  | acct_change us ss n n' actor uid u roles role status :
      active_admin us actor → us !! uid = Some u → editable u = true → status ∈ ["active"; "suspended"] →
      (uid = actor → "admin" ∈ roles ∧ status = "active"%string) → n ≤ n' →
      acct now None (mkView us ss n)
        (mkView (<[uid := account_row now roles role status u]> us)
                (if bool_decide (status = "suspended") then revoke uid now <$> ss else ss) n')
  | acct_reset us ss n n' actor uid u hash :
      active_admin us actor → us !! uid = Some u → editable u = true → n ≤ n' →
      acct now None (mkView us ss n)
        (mkView (<[uid := set_u_updated_at now (set_u_password_hash hash u)]> us) (revoke uid now <$> ss) n').

(** ** Frames *)

(** What depends on users, sessions and the supply of keys only. *)
Definition stable (I : Db → Prop) : Prop := ∀ db db',
  users db' = users db → login_sessions db' = login_sessions db → next_id db ≤ next_id db' → db_now db' = db_now db →
  I db → I db'.

Section frame.
Context (I : Db → Prop) (HI : stable I).

Lemma keeps_aside f :
  (∀ db, users (f db) = users db ∧ login_sessions (f db) = login_sessions db ∧ next_id db ≤ next_id (f db) ∧
         db_now (f db) = db_now db) →
  keeps (E := Exn) I (modify f).
Proof. intros Hf. apply keeps_modify. intros db. destruct (Hf db) as (?&?&?&?). by apply HI. Qed.

Lemma keeps_aside_fresh : keeps I fresh_id.
Proof. intros db H. apply (HI db); simpl; done || lia. Qed.

Lemma keeps_aside_audit a b c d e f g : keeps I (ghi_nhat_ky a b c d e f g).
Proof. apply keeps_audit. intros row db. apply HI; simpl; done || lia. Qed.

(** Writing tables beside users and sessions. *)
Ltac aside := apply keeps_aside; intros db; simpl; split_and!; done || lia.

Lemma keeps_aside_resources raw d : keeps I (ensure_driver_resources card_hash raw d).
Proof.
  unfold ensure_driver_resources, ensure_driver_wallet, insert_wallet. pose proof keeps_aside_fresh. keeps_steps; aside.
Qed.

Lemma keeps_aside_account_audit a t action before after ev : keeps I (_audit a t action before after ev).
Proof. unfold _audit. pose proof keeps_aside_fresh. keeps_steps; aside. Qed.

Lemma keeps_update_user uid f :
  (∀ db, I db → I (set_users (alter f uid (users db)) db)) → keeps I (update_user uid f).
Proof. apply keeps_modify. Qed.

Lemma keeps_validate rs p : keeps I (validate_role_assignment rs p).
Proof. unfold validate_role_assignment. keeps_steps. Qed.

Lemma keeps_assign raw uid rs b :
  (∀ db, I db → ∀ d l, I (set_users (alter (λ u, set_u_default_role (d u) (set_u_roles l u)) uid (users db)) db)) →
  keeps I (assign_user_roles raw uid rs b).
Proof.
  intros Hw. unfold assign_user_roles. pose proof keeps_validate. pose proof keeps_aside_resources.
  keeps_steps; apply keeps_update_user; intros db Hdb; by apply (Hw db Hdb (λ u, default_after u _)).
Qed.
End frame.

(** ** Refinement *)

Lemma view_keeps us ss n t :
  stable (λ db, users db = us ∧ login_sessions db = ss ∧ n ≤ next_id db ∧ db_now db = t).
Proof. intros db db' -> -> ? -> (-> & -> & ? & ?). split_and!; done || lia. Qed.

(** A computation that leaves users and sessions alone. *)
Lemma aside_view {A} (m : Tx A) db r db' :
  (∀ I, stable I → keeps I m) → m db = (r, db') →
  users db' = users db ∧ login_sessions db' = login_sessions db ∧ next_id db ≤ next_id db' ∧ db_now db' = db_now db.
Proof.
  intros Hm H.
  apply (keeps_run _ _ _ _ _ (Hm _ (view_keeps (users db) (login_sessions db) (next_id db) (db_now db)))) in H; [done|].
  split_and!; done || lia.
Qed.

Lemma is_admin_iff db a : is_admin db (Some a) = true ↔ active_admin (users db) a.
Proof.
  unfold is_admin, active_admin. simpl. destruct (users db !! a) as [u|]; [rewrite bool_decide_eq_true|]; naive_solver.
Qed.

Lemma find_user_Some email db uid u :
  find_user email db = Some (uid, u) → users db !! uid = Some u ∧ u_email u = email.
Proof.
  intros H%head_Some_elem_of. apply list_elem_of_filter in H as [He H%elem_of_map_to_list]. done.
Qed.

Lemma find_user_None email db : find_user email db = None → ∀ k u, users db !! k = Some u → u_email u ≠ email.
Proof.
  unfold find_user. intros H%head_None k u Hu He.
  assert ((k, u) ∈ filter (λ p : Z * UserRow, u_email p.2 = email) (map_to_list (users db))) as Hin.
  { apply list_elem_of_filter. split; [done|]. by apply elem_of_map_to_list. }
  rewrite H in Hin. by apply elem_of_nil in Hin.
Qed.

(** *** Logins *)

(** Refused before the password was compared, or for an unknown address. *)
Definition untested (r : Exn + string) (db db' : Db) : Prop :=
  users db' = users db ∧ login_sessions db' = login_sessions db ∧ next_id db' = next_id db ∧ ∃ e, r = inl e.

Lemma untested_same e db : untested (inl e) db db.
Proof. unfold untested. eauto. Qed.

Lemma accept_login_view uid u attempt ip token now db r db' :
  users db !! uid = Some u → u_status u = "active"%string → _is_locked_until (u_locked_until u) now = false →
  accept_login uid attempt ip token now db = (r, db') →
  (db' = db ∧ r = inl (IntegrityError "sessions_token_hash_key")) ∨
  (acct now (Some (uid, Some (hash_session_token token))) (view db) (view db') ∧ r = inr (mkLoginResult token (now + session_ttl))).
Proof.
  intros Hu Ha Hl. unfold accept_login, savepoint.
  destruct (_reset_failed_attempts uid attempt ip now db) as [r1 db1] eqn:H1.
  assert (r1 = inr () ∧ users db1 = <[uid := reset_user now u]> (users db) ∧ login_sessions db1 = login_sessions db ∧
    next_id db1 = next_id db) as (-> & Hu1 & Hs1 & Hn1).
  { rewrite <- (alter_as_insert _ _ _ _ Hu). unfold _reset_failed_attempts in H1. destruct attempt; by injection H1 as <- <-. }
  rewrite (bind_ok_step _ _ _ _ _ H1). unfold add_session. rewrite bind_assoc, bind_gets, Hs1.
  destruct (select_where _ (login_sessions db)) as [s|] eqn:Hd; [intros [= <- <-]; by left|].
  intros [= <- <-]. right. split; [|done]. unfold view. simpl. rewrite Hu1, Hs1, Hn1. apply acct_accept; [done..| |lia].
  intros k s Hk. rewrite select_where_None in Hd. by eapply bool_decide_eq_false_1, Hd.
Qed.

Lemma login_request_view email password client token db r db' :
  login_request email password client token db = (r, db') →
  untested r db db' ∧ (∀ uid u, find_user (normalize_email email) db = Some (uid, u) → u_status u = "active"%string →
                      r ≠ inl (HTTPException 401)) ∨
  ∃ uid u, find_user (normalize_email email) db = Some (uid, u) ∧
    ((r = inl (HTTPException 401) ∧ acct (db_now db) (Some (uid, None)) (view db) (view db') ∧
      users db' = <[uid := fail_user (db_now db) u]> (users db)) ∨
     (r = inr token ∧ acct (db_now db) (Some (uid, Some (hash_session_token token))) (view db) (view db'))).
Proof.
  unfold login_request, login. destruct (negb _).
  { intros [= <- <-]. left. split; [apply untested_same|done]. }
  rewrite bind_ok_step with (a := ()) (s1 := db) by done. unfold try_except.
  rewrite bind_assoc, bind_gets, bind_assoc, bind_gets, bind_assoc, bind_gets.
  set (ip := default _ client). destruct (find_user (normalize_email email) db) as [[uid u]|] eqn:Hf.
  2: { rewrite bind_assoc, (bind_ok_step _ _ _ () db), bind_assoc by done. unfold raise_if.
       destruct (_is_login_locked _ _ _); intros [= <- <-]; left; (split; [|done]); unfold untested; eauto. }
  destruct (find_user_Some _ _ _ _ Hf) as [Hu _]. case_bool_decide as Hact; cbn [negb].
  2: { intros [= <- <-]. left. split; [apply untested_same|]. by intros uid' u' [= <- <-]. }
  rewrite bind_assoc, (bind_ok_step _ _ _ () db), bind_assoc by done. unfold raise_if at 1.
  destruct (_is_login_locked _ _ _) eqn:Hlock.
  { intros [= <- <-]. left. split; [apply untested_same|done]. }
  apply orb_false_iff in Hlock as [Hlock _]. rewrite (bind_ok_step _ _ _ () db) by done.
  destruct (_verify_login_password _ _).
  - unfold mbind, M_bind. destruct (accept_login _ _ _ _ _ db) as [r1 db1] eqn:Hacc.
    apply accept_login_view with (u := u) in Hacc as [[-> ->]|[Hst ->]]; [..|done|done|done]; intros [= <- <-].
    + left. split; [apply untested_same|done].
    + right. eauto 10.
  - intros [= <- <-]. right. exists uid, u. split; [done|]. unfold view. simpl.
    rewrite (alter_as_insert _ _ _ _ Hu). left. split_and!; [done|by apply acct_fail|done].
Qed.

(** *** The account handlers *)

Lemma pure_lift_sum {A} (r : Exn + A) : pure_tx (lift_sum r).
Proof. by destruct r. Qed.

Lemma pure_if {A} (b : bool) (m m' : Tx A) : pure_tx m → pure_tx m' → pure_tx (if b then m else m').
Proof. by destruct b. Qed.

#[local] Hint Resolve pure_lift_sum pure_if : csms.

Lemma pure_admitted endpoint token : pure_tx (admitted endpoint token).
Proof. unfold admitted, let_in, get_current_actor. auto 20 with csms. Qed.

(** A handler that was refused, or the run of what follows the admission. *)
Lemma handler_cases {A} endpoint token (k : CurrentActor * Evidence → Tx A) db r db' :
  savepoint (a ← admitted endpoint token; k a) db = (r, db') →
  db' = db ∨ ∃ a v, k a db = (inr v, db') ∧ r = inr v.
Proof.
  intros [(e & -> & ->)|(v & -> & H)]%savepoint_cases; [by left|].
  apply bind_pure in H as [(e & _ & ? & _)|(a & _ & H)]; [done| |apply pure_admitted]. eauto.
Qed.

Lemma acct_same now db : acct now None (view db) (view db).
Proof. unfold view. by apply acct_idle. Qed.

Lemma get_user_inr uid db u db' : get_user uid db = (inr u, db') → users db !! uid = Some u ∧ db' = db.
Proof. intros H. unfold get_user in H. rewrite bind_gets in H. by apply some_or_inr in H. Qed.

Lemma choose_default_role_view token role db r db' :
  choose_default_role token role db = (r, db') → acct (db_now db) None (view db) (view db').
Proof.
  intros [->|(a & v & H & _)]%handler_cases; [apply acct_same|].
  apply bind_ok in H as ([] & db1 & [_ ->]%raise_if_inr & H). apply bind_ok in H as ([] & db1 & Hset & H).
  assert (db' = db1) as ->.
  { unfold get_current_user in H. rewrite bind_gets in H. apply bind_ok in H as (u & db2 & [_ ->]%some_or_inr & H).
    rewrite bind_gets in H. by injection H. }
  clear H. unfold set_default_role in Hset. rewrite bind_gets in Hset.
  apply bind_ok in Hset as (u & db2 & [Hu ->]%some_or_inr & Hset).
  apply bind_ok in Hset as ([] & db2 & [Hr ->]%raise_if_inr & Hset). rewrite bind_gets in Hset.
  injection Hset as <-. unfold view. simpl. rewrite (alter_as_insert _ _ _ _ Hu). apply acct_default; [done|].
  by apply negb_false_iff, bool_decide_eq_true_1 in Hr.
Qed.

Lemma lock_admin_inr actor db u db' :
  _lock_admin actor db = (inr u, db') → active_admin (users db) (ac_user_id actor) ∧ db' = db.
Proof.
  intros H. unfold _lock_admin in H. rewrite bind_gets in H. apply raise_if_inr in H as [H ->].
  apply negb_false_iff, is_admin_iff in H. done.
Qed.

Lemma validate_inr rs p db u db' :
  validate_role_assignment rs p db = (inr u, db') → NoDup rs ∧ subset rs KNOWN_ROLES = true ∧ db' = db.
Proof.
  intros ([] & db1 & [H ->]%raise_if_inr & [_ ->]%raise_if_inr)%bind_ok.
  apply orb_false_iff in H as [[_ H1]%orb_false_iff H2]. apply negb_false_iff in H1, H2.
  by apply bool_decide_eq_true_1 in H1.
Qed.

(** A replacement of roles gives exactly the roles asked for. *)
Lemma assign_view raw uid u rs db v db' :
  users db !! uid = Some u → assign_user_roles raw uid rs true db = (inr v, db') →
  users db' = <[uid := set_u_default_role (default_after u rs) (set_u_roles rs u)]> (users db) ∧
  login_sessions db' = login_sessions db ∧ next_id db ≤ next_id db' ∧ db_now db' = db_now db.
Proof.
  intros Hu H. unfold assign_user_roles in H. rewrite bind_gets, Hu in H.
  apply bind_ok in H as (u' & db1 & [[= <-] ->]%some_or_inr & H).
  apply bind_ok in H as ([] & db1 & (_ & _ & ->)%validate_inr & H).
  cbv zeta in H. apply bind_ok in H as ([] & db1 & (_ & _ & ->)%validate_inr & H). rewrite bind_gets in H.
  apply bind_ok in H as ([] & db1 & [Hlen%negb_false_iff%bool_decide_eq_true_1 ->]%raise_if_inr & H).
  assert (filter (λ c, c ∈ role_codes db) rs = rs) as Hall.
  { apply list_filter_all. intros c Hc. apply dec_stable. intros Hn.
    pose proof (length_filter_lt (λ c, c ∈ role_codes db) rs c Hc Hn). lia. }
  rewrite Hall in H. apply bind_ok in H as ([] & db1 & [= <-] & H).
  apply aside_view in H as (-> & -> & ? & ->).
  2: { intros I HI. pose proof (keeps_aside_resources I HI). keeps_steps. }
  simpl. by rewrite (alter_as_insert _ _ _ _ Hu).
Qed.

Lemma insert_user_inr email hash db id db' :
  insert_user email hash db = (inr id, db') →
  (∀ k u, users db !! k = Some u → u_email u ≠ normalize_email email) ∧ id = next_id db ∧ next_id db' = id + 1 ∧
  users db' = <[id := mkUser "active" [] (normalize_email email) hash 0 None (db_now db) None (db_now db)]> (users db) ∧
  login_sessions db' = login_sessions db ∧ db_now db' = db_now db.
Proof.
  intros H. unfold insert_user in H. cbv zeta in H. rewrite bind_gets in H.
  apply bind_ok in H as ([] & db1 & [Hd ->]%raise_if_inr & H). injection H as <- <-. split; [|done].
  intros k u Hk He. apply bool_decide_eq_false_1, eq_None_not_Some in Hd. rewrite select_where_None in Hd.
  specialize (Hd k u Hk). rewrite He in Hd. by apply bool_decide_eq_false_1 in Hd.
Qed.

(** The account and its record, after which users and sessions stay. *)
Lemma account_tail uid actor action before ev db r db' :
  (after ← get_user uid;
   let result := account uid after in
   _audit actor uid action before result ev;; mret result) db = (inr r, db') →
  users db' = users db ∧ login_sessions db' = login_sessions db ∧ next_id db ≤ next_id db' ∧ db_now db' = db_now db.
Proof.
  intros H. apply aside_view in H; [done|]. intros I HI. unfold get_user.
  pose proof (keeps_aside_account_audit I HI). keeps_steps.
Qed.

Lemma create_account_view token raw email password hash rs db r db' :
  create_account token raw email password hash rs db = (r, db') → acct (db_now db) None (view db) (view db').
Proof.
  intros [->|(a & v & H & _)]%handler_cases; [apply acct_same|].
  apply bind_ok in H as ([] & db1 & [_ ->]%raise_if_inr & H). apply bind_ok in H as (roles & db1 & [_ ->]%some_or_inr & H).
  apply try_ok in H; [|intros e k s1; destruct e; try done; intros [= <-]; by eexists].
  apply savepoint_ok in H. apply bind_ok in H as ([] & db1 & [Hadm ->]%lock_admin_inr & H).
  apply bind_ok in H as ([] & db1 & (_ & _ & ->)%validate_inr & H).
  apply bind_ok in H as (id & db1 & (He & -> & Hn1 & Hu1 & Hs1 & Ht1)%insert_user_inr & H).
  apply bind_ok in H as ([] & db2 & Has & H).
  eapply assign_view in Has as (Hu2 & Hs2 & Hn2 & Ht2); [|by rewrite Hu1, lookup_insert_eq].
  apply account_tail in H as (Hu3 & Hs3 & Hn3 & Ht3). unfold view. rewrite Hu3, Hu2, Hu1, Hs3, Hs2, Hs1, insert_insert_eq.
  apply (acct_create _ _ _ _ _ (ac_user_id a.1)); [done|done|done|lia].
Qed.

Lemma revoke_run uid now db :
  revoke_sessions uid now db = (inr (Z.of_nat (length (filter (λ s, open_session uid s = true)
    ((map_to_list (login_sessions db)).*2)))), set_login_sessions (revoke uid now <$> login_sessions db) db).
Proof. done. Qed.

Lemma reset_account_password_view token uid expected password confirm hash db r db' :
  reset_account_password token uid expected password confirm hash db = (r, db') →
  acct (db_now db) None (view db) (view db') ∧
  (∀ v, r = inr v → login_sessions db' = revoke uid (db_now db) <$> login_sessions db).
Proof.
  intros Hrun. destruct r as [e|v].
  { apply savepoint_cases in Hrun as [(? & _ & ->)|(? & [=] & _)]. split; [apply acct_same|done]. }
  apply savepoint_ok, bind_pure in Hrun as [(? & _ & [=] & _)|(a & _ & H)]; [|apply pure_admitted].
  apply bind_ok in H as ([] & db1 & [_ ->]%raise_if_inr & H). apply savepoint_ok in H.
  apply bind_ok in H as ([] & db1 & [Hadm ->]%lock_admin_inr & H). apply bind_ok in H as (u & db1 & [Hu ->]%get_user_inr & H).
  apply bind_ok in H as ([] & db1 & [Hed%negb_false_iff ->]%raise_if_inr & H).
  apply bind_ok in H as ([] & db1 & [_ ->]%raise_if_inr & H). cbv zeta in H. rewrite bind_gets in H.
  apply bind_ok in H as ([] & db1 & [= <-] & H). rewrite (bind_ok_step _ _ _ _ _ (revoke_run _ _ _)) in H.
  apply bind_ok in H as (id & db2 & Hlog & H).
  apply aside_view in Hlog as (Hu2 & Hs2 & Hn2 & _); [|intros I HI; by apply keeps_aside_audit].
  apply account_tail in H as (Hu3 & Hs3 & Hn3 & _). unfold view. rewrite Hu3, Hu2, Hs3, Hs2. simpl.
  rewrite (alter_as_insert _ _ _ _ Hu). split; [|done]. apply (acct_reset _ _ _ _ _ (ac_user_id a.1)); [done..|]. simpl in *. lia.
Qed.

Lemma validate_changes_status rs st pr ps :
  validate_changes rs st = Some (pr, ps) → (∀ x, ps = Some x → x ∈ ["active"; "suspended"]) ∧ (∀ x, st = Given x → ps = Some x).
Proof.
  unfold validate_changes. destruct rs as [| |rs], st as [| |st]; try done; [case_bool_decide|..|case_bool_decide]; try done.
  - intros [= <- <-]. split; [by intros x [= <-]|by intros x [= <-]].
  - destruct (roles_field rs); [|done]. intros [= <- <-]. done.
  - destruct (roles_field rs); [|done]. intros [= <- <-]. split; by intros x [= <-].
Qed.

Lemma elem_of_merge_roles c l : c ∈ merge_sort string_le l ↔ c ∈ l.
Proof. by rewrite (merge_sort_Permutation string_le l). Qed.

(** What [change] writes once its guards have passed. *)
Lemma change_writes raw uid u pr status actor before ev db r db' :
  users db !! uid = Some u →
  (match pr with Some rs => assign_user_roles raw uid rs true | None => mret () end;;
   now ← gets db_now;
   update_user uid (λ u, set_u_updated_at now (set_u_status status u));;
   when (bool_decide (status = "suspended"%string)) (revoke_sessions uid now;; mret ());;
   after ← get_user uid;
   let result := account uid after in
   _audit actor uid "account_updated" (Some before) result ev;; mret result) db = (inr r, db') →
  ∃ role, users db' = <[uid := account_row (db_now db) (default (u_roles u) pr) role status u]> (users db) ∧
    login_sessions db' = (if bool_decide (status = "suspended"%string) then revoke uid (db_now db) <$> login_sessions db
                          else login_sessions db) ∧ next_id db ≤ next_id db'.
Proof.
  intros Hu H. apply bind_ok in H as ([] & db1 & H1 & H).
  assert (∃ u1, users db1 = <[uid := u1]> (users db) ∧ login_sessions db1 = login_sessions db ∧ next_id db ≤ next_id db1 ∧
    db_now db1 = db_now db ∧ account_row (db_now db) (default (u_roles u) pr) (u_default_role u1) status u =
    set_u_updated_at (db_now db) (set_u_status status u1)) as (u1 & Hu1 & Hs1 & Hn1 & Ht1 & Hrow).
  { destruct pr as [rs|].
    - eapply assign_view in H1 as (Hu1 & Hs1 & Hn1 & Ht1); [|done]. eexists. split_and!; [exact Hu1|done..].
    - injection H1 as <-. exists u. split_and!; try done. by rewrite insert_id. }
  rewrite bind_gets, Ht1 in H. apply bind_ok in H as ([] & db2 & [= <-] & H). apply bind_ok in H as ([] & db3 & H3 & H).
  apply account_tail in H as (Hu4 & Hs4 & Hn4 & _). exists (u_default_role u1). rewrite Hu4, Hs4, Hrow.
  destruct (bool_decide (status = "suspended"%string)); cbn [when] in H3.
  - rewrite (bind_ok_step _ _ _ _ _ (revoke_run _ _ _)) in H3. injection H3 as <-. simpl in *. rewrite Hs1, Hu1.
    rewrite alter_insert_eq. split_and!; [done|done|lia].
  - injection H3 as <-. simpl in *. rewrite Hs1, Hu1, alter_insert_eq. split_and!; [done|done|lia].
Qed.

Lemma update_account_view token raw uid expected rs st db r db' :
  update_account token raw uid expected rs st db = (r, db') →
  acct (db_now db) None (view db) (view db') ∧
  (∀ v, r = inr v → st = Given "suspended"%string →
     login_sessions db' = revoke uid (db_now db) <$> login_sessions db ∨
     (db' = db ∧ ∃ u, users db !! uid = Some u ∧ u_status u = "suspended"%string)).
Proof.
  intros Hrun. destruct r as [e|v].
  { apply savepoint_cases in Hrun as [(? & _ & ->)|(? & [=] & _)]. split; [apply acct_same|done]. }
  apply savepoint_ok, bind_pure in Hrun as [(? & _ & [=] & _)|(a & _ & H)]; [|apply pure_admitted].
  apply bind_ok in H as ([pr ps] & db1 & [[Hps Hst]%validate_changes_status ->]%some_or_inr & H).
  apply savepoint_ok in H. simpl in H.
  apply bind_ok in H as ([] & db1 & [Hadm ->]%lock_admin_inr & H). apply bind_ok in H as (u & db1 & [Hu ->]%get_user_inr & H).
  cbv zeta in H. apply bind_ok in H as ([] & db1 & [_ ->]%raise_if_inr & H).
  apply bind_ok in H as ([] & db1 & [Hed%negb_false_iff ->]%raise_if_inr & H).
  apply bind_ok in H as ([] & db1 & (_ & _ & ->)%validate_inr & H).
  apply bind_ok in H as ([] & db1 & [Hself ->]%raise_if_inr & H). rewrite bind_gets in H.
  apply bind_ok in H as ([] & db1 & [_ ->]%raise_if_inr & H). set (status := default (u_status u) ps) in *.
  destruct (bool_decide (default (merge_sort string_le (u_roles u)) pr = _) && _) eqn:Hsame.
  { injection H as _ <-. split; [apply acct_same|]. intros _ _ Hsus. right. split; [done|]. exists u. split; [done|].
    apply andb_true_iff in Hsame as [_ Hs%bool_decide_eq_true_1]. subst status. by rewrite (Hst _ Hsus) in Hs. }
  apply change_writes with (u := u) in H as (role & Hu' & Hs' & Hn'); [|done].
  assert (status ∈ ["active"; "suspended"]) as Hin.
  { subst status. destruct ps as [x|]; simpl; [by apply Hps|]. by apply bool_decide_eq_true_1 in Hed. }
  unfold view. rewrite Hu', Hs'. split.
  - apply (acct_change _ _ _ _ _ (ac_user_id a.1)); [done..| |done]. intros ->. rewrite Z.eqb_refl in Hself.
    simpl in Hself. apply negb_false_iff, andb_true_iff in Hself as [Ha%bool_decide_eq_true_1 Hb%bool_decide_eq_true_1].
    split; [|done]. destruct pr; [done|]. by apply (elem_of_merge_roles _ (u_roles u)).
  - intros _ _ Hsus. left. subst status. rewrite (Hst _ Hsus). done.
Qed.

(** Every request is a step of the abstract machine. *)
Lemma serve_acct r db res db' :
  serve r db = (res, db') →
  ∃ l, acct (db_now db) l (view db) (view db') ∧
    (∀ uid o, l = Some (uid, o) → ∃ email password client token u,
       r = RLogin email password client token ∧ find_user (normalize_email email) db = Some (uid, u) ∧
       (∀ h, o = Some h → h = hash_session_token token)).
Proof.
  assert (∀ A (m : Tx A) x y, void m x = y → ∃ rm, m x = (rm, y.2)) as Hvoid.
  { intros A m x y <-. unfold void, mbind, M_bind. destruct (m x) as [[e|a] x']; eauto. }
  destruct r as [e p c t|t|t|t role|t raw e p h rs|t raw u x rs st|t u x p c h]; simpl; intros H.
  1,3-7: apply Hvoid in H as [rm H]; simpl in H.
  - apply login_request_view in H as [[(Hu & Hs & Hn & _) _]|(uid & u & Hf & [(_ & Hst & _)|(_ & Hst)])].
    + exists None. split; [|done]. unfold view. rewrite Hu, Hs, Hn. by apply acct_idle.
    + exists (Some (uid, None)). split; [done|]. intros ?? [= <- <-]. exists e, p, c, t, u. by split_and!.
    + exists (Some (uid, Some (hash_session_token t))). split; [done|]. intros ?? [= <- <-].
      exists e, p, c, t, u. split_and!; [done..|]. by intros h [= <-].
  - exists None. split; [|done]. apply savepoint_cases in H as [(? & _ & ->)|(v & _ & H)]; [apply acct_same|].
    apply bind_pure in H as [(? & _ & _ & ->)|(a & _ & H)]; [apply acct_same| |apply pure_admitted].
    assert (pure_tx (get_current_user a.1)) as Hp by (unfold get_current_user; auto with csms).
    specialize (Hp db). rewrite H in Hp. simpl in Hp. subst. apply acct_same.
  - exists None. split; [|done]. by eapply choose_default_role_view.
  - exists None. split; [|done]. by eapply create_account_view.
  - exists None. split; [|done]. by eapply update_account_view.
  - exists None. split; [|done]. by eapply reset_account_password_view.
  - exists None. split; [|done]. destruct t as [t|]; injection H as <- <-; [|apply acct_same]. apply acct_logout.
Qed.

(** ** Invariants of the abstract machine *)

(** Addresses are unique and keys not reused. *)
Definition users_ok (us : gmap Z UserRow) (n : Z) : Prop :=
  (∀ k, is_Some (us !! k) → k < n) ∧
  (∀ i j u w, us !! i = Some u → us !! j = Some w → u_email u = u_email w → i = j).

(** Token hashes are unique. *)
Definition sessions_ok (ss : gmap Z LoginSession) (n : Z) : Prop :=
  (∀ k, is_Some (ss !! k) → k < n) ∧
  (∀ i j s t, ss !! i = Some s → ss !! j = Some t → ss_token_hash s = ss_token_hash t → i = j).

(** A suspended account has no open session. *)
Definition closed (us : gmap Z UserRow) (ss : gmap Z LoginSession) : Prop := ∀ k s u,
  ss !! k = Some s → us !! ss_user_id s = Some u → u_status u = "suspended"%string → is_Some (ss_revoked_at s).

Definition accounts_ok (v : View) : Prop :=
  users_ok (v_users v) (v_next v) ∧ sessions_ok (v_sessions v) (v_next v) ∧ closed (v_users v) (v_sessions v).

Lemma users_ok_update us n n' uid u u' :
  us !! uid = Some u → u_email u' = u_email u → n ≤ n' → users_ok us n → users_ok (<[uid := u']> us) n'.
Proof.
  intros Hu He Hn [Hf Hi]. split.
  - intros k [w Hw]. assert (k < n); [|lia]. apply Hf. apply lookup_insert_Some in Hw as [[<- _]|[_ ?]]; eauto.
  - intros i j w x Hw Hx Hwx. apply lookup_insert_Some in Hw as [[<- <-]|[? Hw]], Hx as [[<- <-]|[? Hx]]; [done|..].
    + by apply (Hi uid j u x); [..|rewrite <- He].
    + by apply (Hi i uid w u); [..|rewrite <- He].
    + by apply (Hi i j w x).
Qed.

Lemma users_ok_insert us n n' id row :
  (∀ k u, us !! k = Some u → u_email u ≠ u_email row) → n ≤ id < n' → users_ok us n → users_ok (<[id := row]> us) n'.
Proof.
  intros He Hid [Hf Hi]. split.
  - intros k [w Hw]. apply lookup_insert_Some in Hw as [[<- _]|[_ ?]]; [lia|].
    assert (k < n); [eauto|lia].
  - intros i j w x Hw Hx Hwx. apply lookup_insert_Some in Hw as [[<- <-]|[? Hw]], Hx as [[<- <-]|[? Hx]]; [done|..].
    + by destruct (He j x Hx).
    + by destruct (He i w Hw).
    + by apply (Hi i j w x).
Qed.

Lemma sessions_ok_le ss n n' : n ≤ n' → sessions_ok ss n → sessions_ok ss n'.
Proof. intros Hn [Hf Hi]. split; [|done]. intros k Hk. specialize (Hf k Hk). lia. Qed.

Lemma sessions_ok_revoke ss n uid now : sessions_ok ss n → sessions_ok (revoke uid now <$> ss) n.
Proof.
  assert (∀ s, ss_token_hash (revoke uid now s) = ss_token_hash s) as Hh by (intros s; unfold revoke; by destruct (open_session _ _)).
  intros [Hf Hi]. split.
  - intros k Hk. apply Hf. by rewrite lookup_fmap, fmap_is_Some in Hk.
  - intros i j s t Hs Ht. apply lookup_fmap_Some in Hs as (s0 & <- & Hs), Ht as (t0 & <- & Ht). rewrite !Hh. by apply Hi.
Qed.

Lemma closed_update us ss uid u u' :
  us !! uid = Some u → (u_status u' = "suspended"%string → u_status u = "suspended"%string) → closed us ss →
  closed (<[uid := u']> us) ss.
Proof.
  intros Hu Hst Hc k s w Hs Hw Hsus. apply lookup_insert_Some in Hw as [[Hk <-]|[_ Hw]]; [|by eapply Hc].
  rewrite Hk in Hu. eapply Hc; eauto.
Qed.

Lemma closed_revoke us ss uid now : closed us ss → closed us (revoke uid now <$> ss).
Proof.
  intros Hc k s u Hs Hu Hsus. apply lookup_fmap_Some in Hs as (s0 & <- & Hs). unfold revoke in *.
  destruct (open_session uid s0); [by eexists|]. by eapply Hc.
Qed.

Lemma acct_ok now l v v' : acct now l v v' → accounts_ok v → accounts_ok v'.
Proof.
  intros Hst (Hus & Hss & Hc). destruct Hst; simpl in *; unfold accounts_ok; simpl.
  - split_and!; [|by eapply sessions_ok_le|done]. destruct Hus as [Hf Hi]. split; [|done]. intros k Hk.
    specialize (Hf k Hk). lia.
  - split_and!; [|done|]; [eapply users_ok_update|eapply closed_update]; try done; unfold fail_user; by case_match.
  - split_and!.
    + eapply (users_ok_update _ n); [done| |lia|done]. unfold reset_user. by case_match.
    + destruct Hss as [Hf Hi]. split.
      * intros k [s Hs]. apply lookup_insert_Some in Hs as [[<- _]|[_ Hs]]; [lia|]. assert (k < n) by eauto. lia.
      * intros i j s t Hs Ht Hh. apply lookup_insert_Some in Hs as [[<- <-]|[? Hs]], Ht as [[<- <-]|[? Ht]]; [done|..].
        -- by destruct (H2 j t Ht).
        -- by destruct (H2 i s Hs).
        -- by apply (Hi i j s t).
    + intros k s w Hs Hw Hsus. apply lookup_insert_Some in Hs as [[<- <-]|[_ Hs]].
      * simpl in Hw. rewrite lookup_insert_eq in Hw. injection Hw as <-. unfold reset_user in Hsus. case_match; simpl in Hsus; congruence.
      * eapply (closed_update us ss uid u (reset_user now u)); [done| |done..]. unfold reset_user. by case_match.
  - split_and!; [done|..].
    + destruct Hss as [Hf Hi]. split.
      * intros k [s [Hs _]%map_lookup_filter_Some]. eauto.
      * intros i j s t [Hs _]%map_lookup_filter_Some [Ht _]%map_lookup_filter_Some. by apply Hi.
    + intros k s u [Hs _]%map_lookup_filter_Some. by eapply Hc.
  - split_and!; [|done|]; [by eapply users_ok_update|by eapply closed_update].
  - split_and!; [by eapply users_ok_insert|eapply sessions_ok_le; [|done]; lia|].
    intros k s w Hs Hw Hsus. apply lookup_insert_Some in Hw as [[_ <-]|[_ Hw]]; [congruence|]. by eapply Hc.
  - split_and!.
    + eapply users_ok_update; [done| |done|done]. done.
    + eapply sessions_ok_le; [done|]. case_bool_decide; [by apply sessions_ok_revoke|done].
    + case_bool_decide as Hsus; [|by eapply closed_update].
      intros k s w Hs Hw Hw'. apply lookup_insert_Some in Hw as [[Hk <-]|[_ Hw]]; [|by eapply closed_revoke].
      apply lookup_fmap_Some in Hs as (s0 & <- & Hs). unfold revoke in *. destruct (open_session uid s0) eqn:Ho; [by eexists|].
      unfold open_session in Ho. subst uid. rewrite Z.eqb_refl in Ho. simpl in Ho. apply bool_decide_eq_false_1 in Ho.
      by apply not_eq_None_Some.
  - split_and!; [by eapply users_ok_update|eapply sessions_ok_le, sessions_ok_revoke; done|].
    apply closed_revoke. by eapply closed_update.
Qed.

(** An administrator remains: of the requests only [change] may touch roles or
    status, and the administrator who asks keeps both. *)
Lemma acct_admin now l v v' :
  acct now l v v' → accounts_ok v → (∃ a, active_admin (v_users v) a) → ∃ a, active_admin (v_users v') a.
Proof.
  assert (∀ us uid u u' a, us !! uid = Some u → u_status u' = u_status u → u_roles u' = u_roles u →
    active_admin us a → active_admin (<[uid := u']> us) a) as Hup.
  { intros us uid u u' a Hu Hs Hr (w & Hw & Hw1 & Hw2). destruct (decide (a = uid)) as [->|].
    - exists u'. rewrite lookup_insert_eq. simplify_eq. by rewrite Hs, Hr.
    - exists w. by rewrite lookup_insert_ne. }
  intros Hst Hok [a Ha]. destruct Hst; simpl in *; try (by eauto);
    try (exists a; eapply Hup; [done|..|done]; unfold fail_user, reset_user; by case_match).
  - exists a. destruct Ha as (w & Hw & ?). exists w. split; [|done]. rewrite lookup_insert_ne; [done|].
    intros ->. destruct Hok as [[Hf _] _]. simpl in Hf. assert (a < n) by eauto. lia.
  - exists actor. destruct (decide (uid = actor)) as [->|].
    + destruct (H3 eq_refl) as [Hr ->]. eexists. rewrite lookup_insert_eq. done.
    + destruct H as (w & Hw & ?). exists w. by rewrite lookup_insert_ne.
Qed.

Lemma serve_at_view r db : ∃ l, acct r.1 l (view db) (view (serve_at r db).2).
Proof.
  unfold serve_at. destruct (serve r.2 (set_db_now r.1 db)) as [res db'] eqn:H. apply serve_acct in H as (l & H & _). by exists l.
Qed.

(** ** Runs *)

Lemma serve_all_ok rs db :
  accounts_ok (view db) → (∃ a, active_admin (users db) a) →
  accounts_ok (view (serve_all rs db)) ∧ ∃ a, active_admin (users (serve_all rs db)) a.
Proof.
  revert db. induction rs as [|r rs IH]; intros db Hok Had; [done|]. destruct (serve_at_view r db) as [l Hst].
  apply IH; [by eapply acct_ok|]. by apply (acct_admin _ _ _ _ Hst).
Qed.

(** C25. The service never locks itself out: along every run of requests to
    the handlers — logins, changes of roles and status, password resets, by
    whoever holds a session — an active administrator remains, addresses and
    token hashes stay unique, and no suspended account has an open session. *)
Theorem an_admin_remains rs db :
  accounts_ok (view db) → (∃ a, is_admin db (Some a) = true) →
  accounts_ok (view (serve_all rs db)) ∧ ∃ a, is_admin (serve_all rs db) (Some a) = true.
Proof.
  intros Hok [a Ha%is_admin_iff]. destruct (serve_all_ok rs db Hok ltac:(by exists a)) as [? [b Hb]].
  split; [done|]. exists b. by apply is_admin_iff.
Qed.


(** *** Revoked tokens *)

(** Every session of the hash is revoked. *)
Definition dead (h : string) (ss : gmap Z LoginSession) : Prop :=
  ∀ k s, ss !! k = Some s → ss_token_hash s = h → is_Some (ss_revoked_at s).

Lemma dead_revoke h ss uid now : dead h ss → dead h (revoke uid now <$> ss).
Proof.
  intros Hd k s Hs Hh. apply lookup_fmap_Some in Hs as (s0 & <- & Hs). unfold revoke in *.
  destruct (open_session uid s0); [by eexists|]. by eapply Hd.
Qed.

Lemma acct_dead now l v v' h :
  acct now l v v' → (∀ uid, l ≠ Some (uid, Some h)) → dead h (v_sessions v) → dead h (v_sessions v').
Proof.
  intros Hst Hl Hd. destruct Hst; simpl in *; try done.
  - intros k s Hs Hh. apply lookup_insert_Some in Hs as [[<- <-]|[_ Hs]]; [|by eapply Hd].
    simpl in Hh. subst. by destruct (Hl uid).
  - intros k s [Hs _]%map_lookup_filter_Some. by eapply Hd.
  - case_bool_decide; [by apply dead_revoke|done].
  - by apply dead_revoke.
Qed.

(** The token a request issues if it succeeds. *)
Definition issues (r : Request) : option string := match r with RLogin _ _ _ token => Some token | _ => None end.

Lemma dead_run h rs db :
  (∀ t r, (t, r) ∈ rs → hash_session_token <$> issues r ≠ Some h) → dead h (login_sessions db) →
  dead h (login_sessions (serve_all rs db)).
Proof.
  revert db. induction rs as [|[t r] rs IH]; intros db Hi Hd; [done|]. apply IH; [intros t' r' ?; apply (Hi t'); by right|].
  unfold serve_at. simpl. destruct (serve r (set_db_now t db)) as [res db'] eqn:H. apply serve_acct in H as (l & Hst & Hl).
  apply (acct_dead _ _ _ _ h Hst); [|done]. intros uid ->. destruct (Hl uid (Some h) eq_refl) as (e & p & c & tok & u & -> & _ & Ho).
  apply (Hi t (RLogin e p c tok)); [by left|]. simpl. by rewrite <- (Ho h eq_refl).
Qed.

(** The request suspends the account or resets its password. *)
Definition shuts (uid : Z) (r : Request) : Prop :=
  match r with
  | RUpdate _ _ u _ _ st => u = uid ∧ st = Given "suspended"%string
  | RReset _ u _ _ _ _ => u = uid
  | _ => False
  end.

Lemma revoke_dead ss n uid now k s :
  sessions_ok ss n → ss !! k = Some s → ss_user_id s = uid → dead (ss_token_hash s) (revoke uid now <$> ss).
Proof.
  intros [_ Hi] Hk Hu j t Ht Hh. apply lookup_fmap_Some in Ht as (t0 & <- & Ht).
  assert (ss_token_hash t0 = ss_token_hash s) as Hh0 by (by unfold revoke in Hh; destruct (open_session uid t0)).
  assert (j = k) as -> by (by apply (Hi j k t0 s)). simplify_eq. unfold revoke, open_session. rewrite Z.eqb_refl. simpl.
  case_bool_decide; [by eexists|]. by apply not_eq_None_Some.
Qed.

Lemma shuts_dead uid r db k s :
  accounts_ok (view db) → login_sessions db !! k = Some s → ss_user_id s = uid → shuts uid r.2 → (serve_at r db).1 = inr () →
  dead (ss_token_hash s) (login_sessions (serve_at r db).2).
Proof.
  intros (Hus & Hss & Hc) Hk Hu Hr Hok. simpl in *. unfold serve_at in *. set (db0 := set_db_now r.1 db) in *.
  destruct (serve r.2 db0) as [res db'] eqn:Hrun. simpl in *. subst res.
  destruct r as [t []]; simpl in *; try done; unfold void in Hrun; apply bind_ok in Hrun as (v & db1 & Hrun & [= <-]).
  - destruct Hr as [-> ->]. apply update_account_view in Hrun as [_ Hs].
    destruct (Hs v eq_refl eq_refl) as [->|[-> (u & Hu' & Hsus)]]; [by eapply revoke_dead|].
    intros j s' Hj Hh. simpl in Hj. rewrite (proj2 Hss j k s' s Hj Hk Hh) in Hj. simplify_eq. by eapply Hc.
  - subst user_id. apply reset_account_password_view in Hrun as [_ Hs]. rewrite (Hs v eq_refl). by eapply revoke_dead.
Qed.

(** C24. Suspending an account or resetting its password ends every session it
    had, for good: no token of those sessions is accepted by any later
    request, whatever is done in between — the account reactivated, its owner
    logged in again, the old session logged out — unless a login draws the
    very same token again. *)
Theorem revoked_tokens_stay_dead uid r db k s rs token now :
  accounts_ok (view db) → login_sessions db !! k = Some s → ss_user_id s = uid →
  shuts uid r.2 → (serve_at r db).1 = inr () →
  (∀ t q, (t, q) ∈ rs → hash_session_token <$> issues q ≠ Some (ss_token_hash s)) →
  hash_session_token token = ss_token_hash s →
  (get_current_actor (Some token) (set_db_now now (serve_all rs (serve_at r db).2))).1 = inl (HTTPException 401).
Proof.
  intros Hok Hk Hu Hr Hres Hi Ht. pose proof (shuts_dead uid r db k s Hok Hk Hu Hr Hres) as Hd.
  apply (dead_run _ rs) in Hd; [|done]. unfold get_current_actor. rewrite (bind_ok_step _ _ _ token _) by done.
  rewrite !bind_gets. unfold get_current_actor_by_session_hash.
  destruct (select_where _ _) as [s'|] eqn:Hs; [|done]. apply select_where_Some in Hs as (j & Hj & Hlive). simpl in Hj.
  unfold session_live in Hlive. apply andb_true_iff in Hlive as [[[Hh%bool_decide_eq_true_1 _]%andb_true_iff
    Hrev%bool_decide_eq_true_1]%andb_true_iff _]. destruct (Hd j s' Hj) as [? ?]; congruence.
Qed.

(** *** Guessing *)

Definition is_login (email : string) (r : Request) : bool :=
  match r with RLogin e _ _ _ => bool_decide (normalize_email e = email) | _ => false end.

(** The address was refused (401) while its account was active: the answer
    that tells a wrong password. *)
Definition guess (email : string) (r : Z * Request) (db : Db) : bool :=
  is_login email r.2 &&
  match (serve_at r db).1 with inl (HTTPException 401) => true | _ => false end &&
  match find_user email db with Some (_, u) => bool_decide (u_status u = "active") | None => false end.

Definition entered (email : string) (r : Z * Request) (db : Db) : bool :=
  is_login email r.2 && match (serve_at r db).1 with inr _ => true | inl _ => false end.

Fixpoint guesses (email : string) (rs : list (Z * Request)) (db : Db) : Z :=
  match rs with
  | [] => 0
  | r :: rs' => (if guess email r db then 1 else 0) + guesses email rs' (serve_at r db).2
  end.

Fixpoint ever_entered (email : string) (rs : list (Z * Request)) (db : Db) : bool :=
  match rs with
  | [] => false
  | r :: rs' => entered email r db || ever_entered email rs' (serve_at r db).2
  end.

(** A step that tests no password of the account leaves its count alone. *)
Lemma acct_frame now l v v' uid u :
  acct now l v v' → accounts_ok v → v_users v !! uid = Some u → (∀ o, l ≠ Some (uid, o)) →
  ∃ u', v_users v' !! uid = Some u' ∧ u_email u' = u_email u ∧ u_failed_login_count u' = u_failed_login_count u ∧
    u_locked_until u' = u_locked_until u.
Proof.
  intros Hst Hok Hu Hl. destruct Hst; simpl in *; try (by exists u);
    try (rewrite lookup_insert_ne by (intros ->; by eapply Hl); by exists u);
    try (destruct (decide (uid0 = uid)) as [->|]; [rewrite lookup_insert_eq; simplify_eq; by eexists|
      rewrite lookup_insert_ne by done; by exists u]).
  rewrite lookup_insert_ne; [by exists u|]. intros ->. destruct Hok as [[Hf _] _]. simpl in Hf. assert (uid < n) by eauto. lia.
Qed.

Lemma find_user_unique email db uid u :
  users_ok (users db) (next_id db) → users db !! uid = Some u → u_email u = email → find_user email db = Some (uid, u).
Proof.
  intros [_ Hi] Hu He. destruct (find_user email db) as [[k w]|] eqn:Hf.
  - apply find_user_Some in Hf as [Hk Hw]. assert (k = uid) as -> by (apply (Hi k uid w u); congruence). by simplify_eq.
  - by destruct (find_user_None _ _ Hf uid u Hu).
Qed.

(** [k] wrong passwords so far; [max_failed_attempts] of them lock the account
    for what is left of the window from [t0]. *)
Definition counted (email : string) (uid t0 k : Z) (db : Db) : Prop :=
  accounts_ok (view db) ∧ ∃ u, users db !! uid = Some u ∧ u_email u = email ∧ k ≤ u_failed_login_count u ∧
  (max_failed_attempts ≤ k → ∃ t, u_locked_until u = Some t ∧ t0 + lock_duration ≤ t).

Lemma counted_le email uid t0 k k' db : k' ≤ k → counted email uid t0 k db → counted email uid t0 k' db.
Proof. intros Hk (Hok & u & Hu & He & Hc & Hl). split; [done|]. exists u. split_and!; try done; [lia|]. intros ?. apply Hl. lia. Qed.

(** One request: a guess needs fewer than [max_failed_attempts] before it. *)
Lemma counted_step email uid t0 k r db :
  counted email uid t0 k db → t0 ≤ r.1 < t0 + lock_duration → entered email r db = false →
  if guess email r db then k < max_failed_attempts ∧ counted email uid t0 (k + 1) (serve_at r db).2
  else counted email uid t0 k (serve_at r db).2.
Proof.
  intros (Hok & u & Hu & He & Hc & Hl) Ht Hen. destruct (serve_at_view r db) as [l0 Hst0].
  assert (accounts_ok (view (serve_at r db).2)) as Hok' by (by eapply acct_ok). clear l0 Hst0.
  assert (find_user email db = Some (uid, u)) as Hf by (by apply (find_user_unique email); [apply Hok|..]).
  unfold guess, entered in *. rewrite Hf. unfold serve_at in *. set (db0 := set_db_now r.1 db) in *.
  destruct (serve r.2 db0) as [res db'] eqn:Hrun. simpl in *. destruct (is_login email r.2) eqn:Hlog; simpl in *.
  - destruct r as [t [e p c tok| | | | | |]]; try done. simpl in *. apply bool_decide_eq_true_1 in Hlog.
    unfold void in Hrun. destruct (login_request e p c tok db0) as [rl db1] eqn:Hlr.
    assert (db1 = db' ∧ match rl with inl x => res = inl x | inr _ => res = inr () end) as [-> Hres].
    { destruct rl; [rewrite (bind_err_step _ _ _ _ _ Hlr) in Hrun|rewrite (bind_ok_step _ _ _ _ _ Hlr) in Hrun];
        by injection Hrun as <- <-. }
    apply login_request_view in Hlr as [[(Hu' & _ & _ & _) Hne]|(uid' & u' & Hf' & Hcase)]; rewrite Hlog in *.
    + assert (counted email uid t0 k db') as Hcount.
      { split; [done|]. exists u. by rewrite Hu'. }
      destruct rl as [x|]; subst res; [|done]. destruct (match x with HTTPException 401 => true | _ => false end) eqn:Hx; [|done].
      case_bool_decide as Hact; [|done]. exfalso. apply (Hne uid u Hf Hact). f_equal. by destruct x; repeat case_match.
    + change (find_user email db = Some (uid', u')) in Hf'. rewrite Hf in Hf'. injection Hf' as <- <-.
      destruct Hcase as [(-> & Hst & Hu')|(-> & _)]; subst res; [|done]. simpl.
      inversion Hst as [|us ss n ? u0 Hu0 Hact Hnl| | | | | |]; subst. simpl in Hu0. rewrite Hu in Hu0. injection Hu0 as <-.
      rewrite bool_decide_eq_true_2 by done. simpl.
      assert (k < max_failed_attempts) as Hk.
      { apply Z.nle_gt. intros Hm. destruct (Hl Hm) as (x & Hx & Hxt). unfold _is_locked_until in Hnl. rewrite Hx in Hnl.
        apply Z.ltb_ge in Hnl. simpl in Hnl. lia. }
      split; [done|]. split; [done|]. exists (fail_user t u). rewrite Hu'. simpl. rewrite lookup_insert_eq.
      split_and!; [done|unfold fail_user; by case_match|unfold fail_user; simpl; lia|].
      intros Hm. exists (t + lock_duration). unfold fail_user. rewrite (proj2 (Z.leb_le _ _)) by lia. simpl. split; [done|lia].
  - apply serve_acct in Hrun as (l & Hst & Hlab).
    destruct (acct_frame _ _ _ _ uid u Hst Hok Hu) as (u' & Hu' & He' & Hc' & Hl').
    + intros o ->. destruct (Hlab uid o eq_refl) as (e & p & c & tok & u1 & Hr & Hf1 & _). rewrite Hr in Hlog. simpl in Hlog.
      apply bool_decide_eq_false_1 in Hlog. apply Hlog. change (find_user (normalize_email e) db = Some (uid, u1)) in Hf1.
      apply find_user_Some in Hf1 as [Hu1 <-]. congruence.
    + split; [done|]. exists u'. rewrite He', Hc', Hl'. done.
Qed.

End runs.

(** ** A concrete service *)

(** Stand-ins for Argon2 and SHA-256. *)
#[local] Instance demo_env : AuthEnv := {
  max_failed_attempts := 5; lock_duration := 900000000; session_ttl := 86400000000;
  verify_password := λ h p, bool_decide (h = "argon2:" +:+ p);
  hash_session_token := λ t, "sha256:" +:+ t; card_hash := λ t, "card:" +:+ t
}.

Definition demo_accounts : Db :=
  set_role_codes KNOWN_ROLES (set_next_id 100 (set_users
    {[1 := mkUser "active" ["admin"] "root@csms.vn" "argon2:secret" 0 None 0 None 0;
      2 := mkUser "active" ["driver"] "lan@csms.vn" "argon2:lan" 0 None 0 (Some "driver") 0]}
   (set_login_sessions
    {[10 := mkLoginSession 10 1 "sha256:root" 86400000000 None;
      20 := mkLoginSession 20 2 "sha256:phone" 86400000000 None]} empty_db))).

(** Case analysis on the keys of a literal table. *)
Ltac literal H := repeat (apply lookup_insert_Some in H as [[<- <-]|[_ H]]); try (apply lookup_singleton_Some in H as [<- <-]).

Lemma demo_accounts_ok : accounts_ok (view demo_accounts).
Proof.
  unfold accounts_ok, users_ok, sessions_ok, closed. simpl. split_and!.
  - intros k [u Hu]. literal Hu; lia.
  - intros i j u w Hu Hw. literal Hu; literal Hw; done.
  - intros k [s Hs]. literal Hs; lia.
  - intros i j s t Hs Ht. literal Hs; literal Ht; done.
  - intros k s u Hs Hu. literal Hs; vm_compute in Hu; injection Hu as <-; done.
Qed.

(** The administrator suspends Lan, tries to drop its own role, and lets Lan
    back in, whose telephone then tries the old session. *)
Definition demo_suspension : Z * Request := (5, RUpdate (Some "root") "" 2 0 Absent (Given "suspended")).
Definition demo_later : list (Z * Request) :=
  [(6, RUpdate (Some "root") "" 1 0 (Given ["operator"]) Absent);
   (7, RUpdate (Some "root") "" 2 5 Absent (Given "active"));
   (8, RLogin "Lan@csms.vn " "lan" None "laptop")]%string.

Example demo_requests_run :
  (serve_at demo_suspension demo_accounts).1 = inr () ∧
  u_status <$> users (serve_all demo_later (serve_at demo_suspension demo_accounts).2) !! 2 = Some "active"%string ∧
  (get_current_actor (Some "laptop"%string)
    (set_db_now 9 (serve_all demo_later (serve_at demo_suspension demo_accounts).2))).1 = inr (mkActor 2 ["driver"]).
Proof. vm_compute. done. Qed.

Lemma an_admin_remains_witness :
  accounts_ok (view (serve_all (demo_suspension :: demo_later) demo_accounts)) ∧
  ∃ a, is_admin (serve_all (demo_suspension :: demo_later) demo_accounts) (Some a) = true.
Proof.
  apply (an_admin_remains (demo_suspension :: demo_later) demo_accounts demo_accounts_ok).
  exists 1. vm_compute. reflexivity.
Defined.

Lemma revoked_tokens_stay_dead_witness :
  (get_current_actor (Some "phone"%string)
    (set_db_now 9 (serve_all demo_later (serve_at demo_suspension demo_accounts).2))).1 = inl (HTTPException 401).
Proof.
  apply (revoked_tokens_stay_dead 2 demo_suspension demo_accounts 20 (mkLoginSession 20 2 "sha256:phone" 86400000000 None)
    demo_later "phone" 9 demo_accounts_ok); [reflexivity|reflexivity|done|vm_compute; reflexivity| |reflexivity].
  intros t q Hq. unfold demo_later in Hq.
  repeat (apply elem_of_cons in Hq as [[= -> ->]|Hq]; [vm_compute; discriminate|]). by apply elem_of_nil in Hq.
Defined.

(** Seven guesses in as many minutes: five are answered. *)
Definition demo_attack : list (Z * Request) :=
  (λ i, (60000000 * i, RLogin "lan@csms.vn" "123456" (Some ("10.0.0." +:+ str_int i)) "t"))%string <$> [1; 2; 3; 4; 5; 6; 7].

Example demo_attack_counted : guesses "lan@csms.vn" demo_attack demo_accounts = 5.
Proof. vm_compute. reflexivity. Qed.

