(* ===== verification/Catalogue.v ===== *)
(** * Catalogue: stations, chargers and their connectors

    Models [src/src/modules/stations/repository.py], [router.py],
    [charge_points_router.py], [operation_router.py], [timezones.py] and the
    checks of [schemas.py]. The zone database ([zone_known]) and the hash of a
    canonical request ([request_digest]) are parameters. What other
    transactions commit between a look-up of a charger's code and the insert
    ([others]) is an argument. Coordinates are in millionths of a degree, power
    in watts, voltage and current in hundredths. *)

From Stdlib Require Import Ascii.
From S2P Require Import Prelude Bands Clock Text Store AuditTrail Wallet Pricing PowerSchedule PowerControl Access Reservations Identity.

Section catalogue.
Context {dep : Deployment}.
Context (zone_known : string → bool).
Context (request_digest : string → string → Z → Z → option string → string).

(** ** Time zones *)

Definition validate_station_timezone (value : string) : option string :=
  let v := strip value in
  if bool_decide (v = "") || (64 <? text_len v) || negb (zone_known v) then None else Some v.

(** ** Searching *)

(** SQL's [LIKE], with its default escape character: [%] is any text, [_] any
    character. *)
Fixpoint like (p s : list ascii) {struct p} : bool :=
  match p with
  | [] => bool_decide (s = [])
  | "%"%char :: p' =>
      (fix any (s : list ascii) : bool := like p' s || match s with [] => false | _ :: s' => any s' end) s
  | "_"%char :: p' => match s with [] => false | _ :: s' => like p' s' end
  | "\"%char :: c :: p' => match s with [] => false | d :: s' => bool_decide (c = d) && like p' s' end
  | c :: p' => match s with [] => false | d :: s' => bool_decide (c = d) && like p' s' end
  end.

(** [column.ilike(pattern)] *)
Definition ilike (pattern value : string) : bool := like (chars (lower pattern)) (chars (lower value)).

(** ** Stations *)

Definition _build_station_conditions (scope : ActorScope) (status search : option string) (s : Station) : bool :=
  match sc_owner_id scope with Some o => st_owner_id s =? o | None => true end &&
  match status with Some v => bool_decide (st_status s = v) | None => true end &&
  (let q := strip (default ""%string search) in
   bool_decide (q = "") || ilike ("%" +:+ q +:+ "%") (st_name s) || ilike ("%" +:+ q +:+ "%") (st_address s)).

Definition list_stations (scope : ActorScope) (db : Db) : list Station :=
  filter (λ s, _build_station_conditions scope None None s = true) (rows (stations db)).

(** [ORDER BY created_at DESC, id ASC] *)
Definition newer_station (a b : Station) : Prop :=
  st_created_at b < st_created_at a ∨ st_created_at b = st_created_at a ∧ st_id a ≤ st_id b.
#[global] Instance newer_station_dec a b : Decision (newer_station a b).
Proof. unfold newer_station. apply _. Defined.

Definition found_stations (scope : ActorScope) (status search : option string) (db : Db) : list Station :=
  merge_sort newer_station (filter (λ s, _build_station_conditions scope status search s = true) (rows (stations db))).

(** The page and the total. *)
Definition list_stations_page (scope : ActorScope) (number size : Z) (status search : option string) (db : Db)
  : list Station * Z :=
  (page number size (found_stations scope status search db),
   Z.of_nat (length (filter (λ s, _build_station_conditions scope status search s = true) (rows (stations db))))).

Definition station_violation (owner latitude longitude : Z) (db : Db) : option string :=
  if (latitude <? -90000000) || (90000000 <? latitude) then Some "ck_stations_latitude_range"%string
  else if (longitude <? -180000000) || (180000000 <? longitude) then Some "ck_stations_longitude_range"%string
  else if negb (known_user db (Some owner)) then Some "stations_owner_id_fkey"%string else None.

(** The model validates the time zone when the attribute is set. *)
Definition create_station (owner_id : Z) (name address : string) (latitude longitude : Z) (timezone : string) : Tx Station :=
  tz ← some_or (validate_station_timezone timezone) ValueError;
  bad ← gets (station_violation owner_id latitude longitude);
  match bad with
  | Some c => raise (IntegrityError c)
  | None =>
      now ← gets db_now;
      id ← fresh_id;
      let row := mkStation id owner_id name "inactive" tz None address latitude longitude 1 now in
      modify (λ db, set_stations (<[id := row]> (stations db)) db);;
      mret row
  end.

Definition create_station_idempotent (actor_id idempotency_key : Z) (request_hash name address : string)
    (latitude longitude : Z) (timezone : string) : Tx Station :=
  record ← gets (λ db, station_idempotency db !! (actor_id, idempotency_key));
  match record with
  | Some r =>
      raise_if (negb (bool_decide (ik_request_hash r = request_hash))) StationIdempotencyConflictError;;
      s ← gets (λ db, stations db !! ik_station_id r);
      some_or s RuntimeError
  | None =>
      station ← create_station actor_id name address latitude longitude timezone;
      modify (λ db, set_station_idempotency
        (<[(actor_id, idempotency_key) := mkIdempotency request_hash (st_id station)]> (station_idempotency db)) db);;
      mret station
  end.

(** A transaction at one of the station's chargers, ended or not. *)
Definition session_at (station_id : Z) (db : Db) (c : ChargingSession) : bool :=
  match charge_points db !! cs_charge_point_id c with Some p => cp_station_id p =? station_id | None => false end.

Definition with_some {A B} (f : A → B → B) (o : option A) (b : B) : B := match o with Some a => f a b | None => b end.

Definition station_written (name address : option string) (latitude longitude : option Z) (timezone : option string)
    (s : Station) : Station :=
  let s := with_some set_st_timezone timezone s in
  let s := with_some set_st_name name s in
  let s := with_some set_st_address address s in
  let s := with_some set_st_latitude latitude s in
  let s := with_some set_st_longitude longitude s in
  set_st_status_version (st_status_version s + 1) s.

Definition update_station (station_id : Z) (scope : ActorScope) (name address : option string)
    (latitude longitude : option Z) (timezone : option string) : Tx (option Station) :=
  tz ← match timezone with
       | Some v => t ← some_or (validate_station_timezone v) ValueError; mret (Some t)
       | None => mret None
       end;
  found ← get_station_by_id station_id (sc_owner_id scope);
  match found with
  | None => mret None
  | Some station =>
      let moved := match tz with Some t => negb (bool_decide (t = st_timezone station)) | None => false end in
      has_session ← gets (λ db, select_where (session_at station_id db) (charging_sessions db));
      raise_if (moved && bool_decide (is_Some has_session)) StationTimezoneLockedError;;
      let row := station_written name address latitude longitude tz station in
      bad ← gets (station_violation (st_owner_id row) (st_latitude row) (st_longitude row));
      match bad with
      | Some c => raise (IntegrityError c)
      | None =>
          modify (λ db, set_stations (<[station_id := row]> (stations db)) db);;
          mret (Some row)
      end
  end.

(** ** Chargers *)

Definition code_taken (code : string) (excluding : option Z) (db : Db) : bool :=
  bool_decide (is_Some (select_where (λ c, bool_decide (lower (cp_code c) = lower code) &&
    match excluding with Some i => negb (cp_id c =? i) | None => true end) (charge_points db))).

Definition is_charge_point_code_available (code : string) (excluding : option Z) (db : Db) : bool :=
  negb (code_taken (strip code) excluding db).

(** [ConnectorConfiguration] *)
Record Configuration := mkConfiguration {
  cf_connector_number : Z; cf_connector_type : Field string; cf_current_type : Field string;
  cf_max_power_kw : Field Z; cf_voltage : Field Z; cf_amperage : Field Z
}.

(** [model_dump()]: a field left out is [None]; [exclude_unset]: it is kept. *)
Definition field_or_none {A} (f : Field A) : option A := match f with Given a => Some a | _ => None end.
Definition field_or {A} (f : Field A) (old : option A) : option A :=
  match f with Given a => Some a | Null => None | Absent => old end.

Definition configured_as (c : Connector) (connector_type current_type : option string) (power voltage amperage : option Z)
  : Connector :=
  mkConnector (cn_id c) (cn_charge_point_id c) (cn_connector_number c) (cn_status c) (cn_raw_ocpp_status c)
    (cn_last_status_notification_at c) (cn_status_updated_at c) (cn_archived_at c) voltage amperage connector_type
    current_type power.

Definition configure_new (f : Configuration) (c : Connector) : Connector :=
  if cn_connector_number c =? cf_connector_number f then
    configured_as c (field_or_none (cf_connector_type f)) (field_or_none (cf_current_type f))
      (field_or_none (cf_max_power_kw f)) (field_or_none (cf_voltage f)) (field_or_none (cf_amperage f))
  else c.

Definition configure (f : Configuration) (c : Connector) : Connector :=
  if cn_connector_number c =? cf_connector_number f then
    configured_as c (field_or (cf_connector_type f) (cn_connector_type c)) (field_or (cf_current_type f) (cn_current_type c))
      (field_or (cf_max_power_kw f) (cn_max_power_kw c)) (field_or (cf_voltage f) (cn_voltage c))
      (field_or (cf_amperage f) (cn_amperage c))
  else c.

(** [by_number[n]] for every configuration *)
Definition all_numbered (numbers : list Z) (fs : list Configuration) : bool :=
  forallb (λ f, bool_decide (cf_connector_number f ∈ numbers)) fs.

Fixpoint insert_connectors (point_id : Z) (numbers : list Z) (fs : list Configuration) (now : Z) : Tx () :=
  match numbers with
  | [] => mret ()
  | n :: numbers' =>
      id ← fresh_id;
      let row := foldl (λ c f, configure_new f c)
        (mkConnector id point_id n "unknown" None None now None None None None None None) fs in
      modify (λ db, set_connectors (<[id := row]> (connectors db)) db);;
      insert_connectors point_id numbers' fs now
  end.

Definition create_charge_point (others : Db → Db) (station_id : Z) (scope : ActorScope) (code : string)
    (connector_count : Z) (name : option string) (configurations : option (list Configuration)) : Tx (option ChargePoint) :=
  found ← get_station_by_id station_id (sc_owner_id scope);
  match found with
  | None => mret None
  | Some station =>
      free ← gets (is_charge_point_code_available code None);
      raise_if (negb free) ChargePointCodeAlreadyExistsError;;
      let numbers := seqZ 1 connector_count in
      let fs := default [] configurations in
      raise_if (negb (all_numbered numbers fs)) KeyError;;
      modify others;;
      taken ← gets (code_taken (strip code) None);
      raise_if taken ChargePointCodeAlreadyExistsError;;
      now ← gets db_now;
      id ← fresh_id;
      let row := mkChargePoint id (st_id station) "offline" None 60 None None None None now None None None None None None
        (strip code) now name in
      modify (λ db, set_charge_points (<[id := row]> (charge_points db)) db);;
      insert_connectors id numbers fs now;;
      mret (Some row)
  end.

Definition connectors_of (point_id : Z) (db : Db) : list Connector :=
  filter (λ c, cn_charge_point_id c = point_id) (rows (connectors db)).

(** The charger through the join with its station, for the owner of the scope. *)
Definition owned_charge_point (charge_point_id : Z) (scope : ActorScope) (db : Db) : option ChargePoint :=
  p ← charge_points db !! charge_point_id;
  s ← stations db !! cp_station_id p;
  match sc_owner_id scope with
  | Some o => if st_owner_id s =? o then Some p else None
  | None => Some p
  end.

Definition update_charge_point_code (others : Db → Db) (charge_point_id : Z) (scope : ActorScope) (code : option string)
    (name : option string) (name_provided : bool) (configurations : option (list Configuration)) : Tx (option ChargePoint) :=
  p ← gets (owned_charge_point charge_point_id scope);
  match p with
  | None =>
      existing ← gets (λ db, charge_points db !! charge_point_id);
      raise_if (bool_decide (is_Some existing) && bool_decide (is_Some (sc_owner_id scope))) ChargePointOwnershipDeniedError;;
      mret None
  | Some point =>
      raise_if (bool_decide (is_Some code) && bool_decide (is_Some (cp_code_locked_at point))) ChargePointCodeLockedError;;
      numbers ← gets (λ db, cn_connector_number <$> connectors_of charge_point_id db);
      let fs := default [] configurations in
      raise_if (negb (all_numbered numbers fs)) ConnectorConfigurationNotFoundError;;
      free ← gets (λ db, match code with
                         | Some c => is_charge_point_code_available (strip c) (Some charge_point_id) db
                         | None => true end);
      raise_if (negb free) ChargePointCodeAlreadyExistsError;;
      modify others;;
      taken ← gets (λ db, match code with Some c => code_taken (strip c) (Some charge_point_id) db | None => false end);
      raise_if taken ChargePointCodeAlreadyExistsError;;
      let write p := (if name_provided then set_cp_name name else id) (with_some (λ c, set_cp_code (strip c)) code p) in
      modify (λ db, set_charge_points (alter write charge_point_id (charge_points db)) db);;
      modify (λ db, set_connectors ((λ c, if cn_charge_point_id c =? charge_point_id
        then foldl (λ c f, configure f c) c fs else c) <$> connectors db) db);;
      gets (λ db, charge_points db !! charge_point_id)
  end.

Definition newer_point (a b : ChargePoint) : Prop :=
  cp_created_at b < cp_created_at a ∨ cp_created_at b = cp_created_at a ∧ cp_id a ≤ cp_id b.
#[global] Instance newer_point_dec a b : Decision (newer_point a b).
Proof. unfold newer_point. apply _. Defined.

Definition points_of (station_id : Z) (db : Db) : list ChargePoint :=
  filter (λ c, cp_station_id c = station_id) (rows (charge_points db)).

Definition list_charge_points_page (station_id : Z) (scope : ActorScope) (number size : Z)
  : Tx (option (list ChargePoint * Z)) :=
  found ← get_station_by_id station_id (sc_owner_id scope);
  match found with
  | None => mret None
  | Some station =>
      l ← gets (points_of (st_id station));
      mret (Some (page number size (merge_sort newer_point l), Z.of_nat (length l)))
  end.

(** ** Requests *)

(** A stripped text of [lo] to [hi] characters. *)
Definition text_field (lo hi : Z) (s : string) : option string :=
  let v := strip s in if (lo <=? text_len v) && (text_len v <=? hi) then Some v else None.

Definition range_field (bound v : Z) : option Z := if (- bound <=? v) && (v <=? bound) then Some v else None.

Record StationCreateRequest := mkStationCreate {
  sq_name : string; sq_address : string; sq_timezone : option string; sq_latitude : Z; sq_longitude : Z
}.

Definition valid_station_create (r : StationCreateRequest) : option StationCreateRequest :=
  name ← text_field 1 150 (sq_name r);
  address ← text_field 1 500 (sq_address r);
  tz ← match sq_timezone r with
       | Some v => t ← text_field 0 64 v; validate_station_timezone t
       | None => Some DEFAULT_STATION_TIMEZONE
       end;
  lat ← range_field 90000000 (sq_latitude r);
  lon ← range_field 180000000 (sq_longitude r);
  Some (mkStationCreate name address (Some tz) lat lon).

(** The payload's canonical JSON is hashed without the default time zone. *)
Definition _station_create_request_hash (r : StationCreateRequest) : string :=
  let tz := default DEFAULT_STATION_TIMEZONE (sq_timezone r) in
  request_digest (sq_name r) (sq_address r) (sq_latitude r) (sq_longitude r)
    (if bool_decide (tz = DEFAULT_STATION_TIMEZONE) then None else Some tz).

Record StationUpdateRequest := mkStationUpdate {
  su_name : Field string; su_address : Field string; su_timezone : Field string; su_latitude : Field Z; su_longitude : Field Z
}.

Definition given {A B} (f : A → option B) (x : Field A) : option (option B) :=
  match x with Absent => Some None | Null => None | Given a => b ← f a; Some (Some b) end.
Definition absent {A} (x : Field A) : bool := match x with Absent => true | _ => false end.

(** [reject_empty_or_null_payload] and the fields *)
Definition valid_station_update (r : StationUpdateRequest)
  : option (option string * option string * option string * option Z * option Z) :=
  name ← given (text_field 1 150) (su_name r);
  address ← given (text_field 1 500) (su_address r);
  tz ← given (λ v, t ← text_field 0 64 v; validate_station_timezone t) (su_timezone r);
  lat ← given (range_field 90000000) (su_latitude r);
  lon ← given (range_field 180000000) (su_longitude r);
  if absent (su_name r) && absent (su_address r) && absent (su_timezone r) && absent (su_latitude r) && absent (su_longitude r)
  then None else Some (name, address, tz, lat, lon).

Definition optional_field {A} (ok : A → bool) (x : Field A) : bool := match x with Given a => ok a | _ => true end.

(** [max_digits=8] with 3 or 2 decimals *)
Definition valid_configuration (f : Configuration) : bool :=
  (1 <=? cf_connector_number f) && (cf_connector_number f <=? 4) &&
  optional_field (λ t, bool_decide (is_Some (text_field 1 50 t))) (cf_connector_type f) &&
  optional_field (λ t, bool_decide (t ∈ ["AC"; "DC"])) (cf_current_type f) &&
  optional_field (λ v, (0 <? v) && (v <? 100000000)) (cf_max_power_kw f) &&
  optional_field (λ v, (0 <? v) && (v <? 100000000)) (cf_voltage f) &&
  optional_field (λ v, (0 <? v) && (v <? 100000000)) (cf_amperage f).

Definition stripped_configuration (f : Configuration) : Configuration :=
  mkConfiguration (cf_connector_number f) (match cf_connector_type f with Given t => Given (strip t) | x => x end)
    (cf_current_type f) (cf_max_power_kw f) (cf_voltage f) (cf_amperage f).

(** [validate_connectors]: one configuration for each connector. *)
Definition valid_create_connectors (count : Z) (fs : option (list Configuration)) : bool :=
  (1 <=? count) && (count <=? 4) &&
  match fs with
  | None => true
  | Some l => forallb valid_configuration l && bool_decide (sort_by id (cf_connector_number <$> l) = seqZ 1 count)
  end.

(** ** Handlers *)

(** What the routers turn into an HTTP answer. *)
Definition station_error (e : Exn) : option Z :=
  match e with
  | StationOwnershipDeniedError | ChargePointOwnershipDeniedError => Some 403
  | StationIdempotencyConflictError | StationTimezoneLockedError | ChargePointCodeAlreadyExistsError
  | ChargePointCodeLockedError => Some 409
  | ConnectorConfigurationNotFoundError => Some 422
  | _ => None
  end.

Definition answering {A} (m : Tx A) : Tx A :=
  try_except m (λ e, code ← station_error e; Some (raise (HTTPException code))).

Definition found_or_404 {A} (m : Tx (option A)) : Tx A := o ← answering m; some_or o (HTTPException 404).

Definition post_station (actor : CurrentActor) (idempotency_key : Z) (request : StationCreateRequest) : Tx Station :=
  savepoint (
    r ← some_or (valid_station_create request) (HTTPException 422);
    answering (create_station_idempotent (ac_user_id actor) idempotency_key (_station_create_request_hash r) (sq_name r)
      (sq_address r) (sq_latitude r) (sq_longitude r) (default DEFAULT_STATION_TIMEZONE (sq_timezone r)))).

Definition patch_station (scope : ActorScope) (station_id : Z) (request : StationUpdateRequest) : Tx Station :=
  savepoint (
    r ← some_or (valid_station_update request) (HTTPException 422);
    let '(name, address, tz, lat, lon) := r in
    found_or_404 (update_station station_id scope name address lat lon tz)).

Definition post_charge_point (others : Db → Db) (scope : ActorScope) (station_id : Z) (code : string) (connector_count : Z)
    (name : option string) (configurations : option (list Configuration)) : Tx ChargePoint :=
  savepoint (
    code ← some_or (text_field 1 64 code) (HTTPException 422);
    name ← match name with None => mret None | Some n => v ← some_or (text_field 1 150 n) (HTTPException 422); mret (Some v) end;
    raise_if (negb (valid_create_connectors connector_count configurations)) (HTTPException 422);;
    found_or_404 (create_charge_point others station_id scope code connector_count name
      (map stripped_configuration <$> configurations))).

(** [validate_patch] and the fields *)
Definition valid_patch (code name : Field string) (configurations : Field (list Configuration)) : bool :=
  negb (absent code && absent name && absent configurations) &&
  match code with Absent => true | Null => false | Given c => bool_decide (is_Some (text_field 1 64 c)) end &&
  optional_field (λ n, bool_decide (is_Some (text_field 1 150 n))) name &&
  match configurations with
  | Absent => true
  | Null => false
  | Given l => bool_decide (1 ≤ length l ≤ 4)%nat && forallb valid_configuration l &&
               bool_decide (NoDup (cf_connector_number <$> l))
  end.

Definition patch_charge_point (others : Db → Db) (scope : ActorScope) (charge_point_id : Z) (code name : Field string)
    (configurations : Field (list Configuration)) : Tx ChargePoint :=
  savepoint (
    raise_if (negb (valid_patch code name configurations)) (HTTPException 422);;
    found_or_404 (update_charge_point_code others charge_point_id scope (strip <$> field_or_none code)
      (strip <$> field_or_none name) (negb (absent name)) (map stripped_configuration <$> field_or_none configurations))).

(** ** Opening and closing a station *)

Record OperationRequest := mkOperation { op_status : string; op_expected_version : Z; op_reason : string }.

(** The model's checks, [require_suspend_reason] included; the reason is stripped. *)
Definition valid_operation (r : OperationRequest) : option OperationRequest :=
  reason ← text_field 0 500 (op_reason r);
  if bool_decide (op_status r ∈ ["active"; "suspended"]) && (1 <=? op_expected_version r) &&
     negb (bool_decide (op_status r = "suspended") && bool_decide (reason = ""))
  then Some (mkOperation (op_status r) (op_expected_version r) reason) else None.

(** The bands of the tariff cover the day, from [cursor] on. *)
Fixpoint bands_cover (cursor : Z) (bands : list TariffBand) : option Z :=
  match bands with
  | [] => Some cursor
  | b :: rest => if negb (tb_start_min b =? cursor) || (tb_energy_rate b <? 0) then None
                 else bands_cover (tb_end_min b) rest
  end.

Definition tariff_bands_of (tariff : option Tariff) (db : Db) : list TariffBand :=
  match tariff with
  | Some t => sort_by tb_start_min (filter (λ b, tb_tariff_id b = tf_id t) (tariff_bands db))
  | None => []
  end.

Definition described (s : Station) : bool :=
  negb (bool_decide (strip (st_name s) = "")) && negb (bool_decide (strip (st_address s) = "")) &&
  (-90000000 <=? st_latitude s) && (st_latitude s <=? 90000000) &&
  (-180000000 <=? st_longitude s) && (st_longitude s <=? 180000000).

(** What a station needs before it opens. *)
Definition check_opening (s : Station) : Tx () :=
  raise_if (negb (described s)) (HTTPException 409);;
  registered ← gets (registered_connectors (st_id s));
  raise_if (bool_decide (registered = [])) (HTTPException 409);;
  now ← gets db_now;
  tariff ← lay_bieu_gia_hieu_luc (st_id s) (AtTime now);
  bands ← gets (tariff_bands_of tariff);
  raise_if (negb (bool_decide (bands_cover 0 bands = Some 1440))) (HTTPException 409);;
  power ← gets (power_start_allowed (st_id s) None);
  raise_if (negb power) (HTTPException 409).

Definition change_operation (station_id : Z) (request : OperationRequest) (scope : ActorScope) (evidence : Evidence)
  : Tx Station :=
  savepoint (
    r ← some_or (valid_operation request) (HTTPException 422);
    found ← answering (get_station_by_id station_id (sc_owner_id scope));
    station ← some_or found (HTTPException 404);
    raise_if (bool_decide (is_Some (st_archived_at station))) (HTTPException 404);;
    raise_if (bool_decide (st_status station = "blocked")) (HTTPException 409);;
    if bool_decide (st_status station = op_status r) &&
       ((st_status_version station =? op_expected_version r) || (st_status_version station =? op_expected_version r + 1))
    then mret station
    else
      raise_if (negb (st_status_version station =? op_expected_version r)) (HTTPException 409);;
      raise_if (bool_decide (op_status r = "suspended") && negb (bool_decide (st_status station = "active"))) (HTTPException 409);;
      when (bool_decide (op_status r = "active")) (check_opening station);;
      let row := set_st_status_version (st_status_version station + 1) (set_st_status (op_status r) station) in
      modify (λ db, set_stations (<[station_id := row]> (stations db)) db);;
      ghi_nhat_ky (Some (sc_actor_id scope)) "station.operation_changed" "station" (uuid_str station_id)
        [("before", JStr (st_status station)); ("after", JStr (op_status r)); ("reason", JStr (op_reason r));
         ("version", JInt (st_status_version station + 1))]
        (Some (ev_permission evidence)) (Some (ev_roles evidence));;
      mret row).
End catalogue.
