(* ===== verification/CatalogueSpec.v ===== *)
(** * CatalogueSpec: what the station catalogue promises

    Runs of catalogue requests, with what other transactions commit in between:
    codes stay unique, a charger that has charged keeps its code, a station
    that has had a session keeps its time zone, and no owner changes another's
    rows. *)

From S2P Require Import Prelude Money Bands Clock Segmentation Text Store AuditTrail Wallet Pricing Invoicing InvoiceSpec PowerSchedule PowerControl Access Reservations Identity Catalogue.

Section promises.
Context {dep : Deployment}.
Context (zone_known : string → bool).
Context (request_digest : string → string → Z → Z → option string → string).

(** ** Requests *)

Inductive CRequest :=
  | CPostStation (actor : CurrentActor) (key : Z) (request : StationCreateRequest)
  | CPatchStation (scope : ActorScope) (station_id : Z) (request : StationUpdateRequest)
  | CPostPoint (others : Db → Db) (scope : ActorScope) (station_id : Z) (code : string) (count : Z) (name : option string)
      (fs : option (list Configuration))
  | CPatchPoint (others : Db → Db) (scope : ActorScope) (point_id : Z) (code name : Field string)
      (fs : Field (list Configuration))
  | COperate (scope : ActorScope) (station_id : Z) (request : OperationRequest) (evidence : Evidence).

Definition cserve (r : CRequest) : Tx () :=
  match r with
  | CPostStation a k q => post_station zone_known request_digest a k q;; mret ()
  | CPatchStation s i q => patch_station zone_known s i q;; mret ()
  | CPostPoint o s i c n name fs => post_charge_point o s i c n name fs;; mret ()
  | CPatchPoint o s i c name fs => patch_charge_point o s i c name fs;; mret ()
  | COperate s i q e => change_operation i q s e;; mret ()
  end.

Fixpoint cserve_all (rs : list CRequest) (db : Db) : Db :=
  match rs with [] => db | r :: rs' => cserve_all rs' (cserve r db).2 end.

(** ** The state and what is promised *)

(** Rows are filed under their key, keys are not reused, and codes are unique
    without regard to case. *)
Definition catalogue_ok (db : Db) : Prop :=
  (∀ i p, charge_points db !! i = Some p → cp_id p = i ∧ i < next_id db) ∧
  (∀ i s, stations db !! i = Some s → st_id s = i ∧ i < next_id db) ∧
  (∀ i j p q, charge_points db !! i = Some p → charge_points db !! j = Some q → lower (cp_code p) = lower (cp_code q) → i = j).

(** The station has had a transaction. *)
Definition used (station_id : Z) (db : Db) : Prop :=
  ∃ k c p, charging_sessions db !! k = Some c ∧ charge_points db !! cs_charge_point_id c = Some p ∧ cp_station_id p = station_id.

(** What never changes: where a charger stands, the code of one that has
    charged, who owns a station, and the time zone of one that was used. *)
Definition charger_kept (p p' : ChargePoint) : Prop :=
  cp_station_id p' = cp_station_id p ∧
  (is_Some (cp_code_locked_at p) → is_Some (cp_code_locked_at p') ∧ cp_code p' = cp_code p).

Definition promises (db db' : Db) : Prop :=
  next_id db ≤ next_id db' ∧
  (∀ i p, charge_points db !! i = Some p → ∃ p', charge_points db' !! i = Some p' ∧ charger_kept p p') ∧
  (∀ i s, stations db !! i = Some s → ∃ s', stations db' !! i = Some s' ∧ st_owner_id s' = st_owner_id s ∧
     (used i db → st_timezone s' = st_timezone s)) ∧
  (∀ k c, charging_sessions db !! k = Some c → ∃ c', charging_sessions db' !! k = Some c' ∧
     cs_charge_point_id c' = cs_charge_point_id c).

#[global] Instance charger_kept_preorder : PreOrder charger_kept.
Proof.
  split; [by intros p|]. intros p q r [Hs Hc] [Hs' Hc']. split; [congruence|]. intros Hl.
  destruct (Hc Hl) as [Hl' Hq]. destruct (Hc' Hl') as [? ?]. split; [done|congruence].
Qed.

Lemma promises_used i db db' : promises db db' → used i db → used i db'.
Proof.
  intros (_ & Hp & _ & Hc) (k & c & p & Hk & Hcp & Hst). destruct (Hc k c Hk) as (c' & Hk' & Heq).
  destruct (Hp _ p Hcp) as (p' & Hp' & Hs & _). exists k, c', p'. rewrite Heq. split_and!; [done..|congruence].
Qed.

#[global] Instance promises_preorder : PreOrder promises.
Proof.
  split.
  - intros db. split; [lia|]. split_and!; intros; eexists; split_and!; eauto; reflexivity.
  - intros a b c Hab Hbc. pose proof (λ i, promises_used i _ _ Hab) as Hu.
    destruct Hab as (Hn & Hp & Hs & Hc), Hbc as (Hn' & Hp' & Hs' & Hc'). split; [lia|]. split_and!.
    + intros i p Hi. destruct (Hp i p Hi) as (q & Hq & Hpq). destruct (Hp' i q Hq) as (r & Hr & Hqr).
      exists r. split; [done|]. by etrans.
    + intros i s Hi. destruct (Hs i s Hi) as (t & Ht & Ho & Hz). destruct (Hs' i t Ht) as (u & Hu' & Ho' & Hz').
      exists u. split_and!; [done|congruence|]. intros Hus. rewrite (Hz' (Hu i Hus)). auto.
    + intros k x Hk. destruct (Hc k x Hk) as (y & Hy & Hxy). destruct (Hc' k y Hy) as (z & Hz & Hyz). exists z.
      split; [done|congruence].
Qed.

(** A step that keeps the promises and the state's shape. *)
Definition good (db db' : Db) : Prop := promises db db' ∧ catalogue_ok db'.

Definition fair (others : Db → Db) : Prop := ∀ db, catalogue_ok db → good db (others db).

(** Other transactions keep the promises too; none writes a charger whose row
    the request has locked. *)
Definition cfair (r : CRequest) : Prop :=
  match r with
  | CPostPoint o _ _ _ _ _ _ => fair o
  | CPatchPoint o _ i _ _ _ => fair o ∧ ∀ db, charge_points (o db) !! i = charge_points db !! i
  | _ => True
  end.

(** *** Steps that touch one table *)

Lemma promises_aside db db' :
  charge_points db' = charge_points db → stations db' = stations db → charging_sessions db' = charging_sessions db →
  next_id db ≤ next_id db' → promises db db'.
Proof.
  intros Hp Hs Hc Hn. split; [done|]. rewrite Hp, Hs, Hc. split_and!; intros; eexists; split_and!; eauto; reflexivity.
Qed.

Lemma ok_aside db db' :
  charge_points db' = charge_points db → stations db' = stations db → next_id db ≤ next_id db' →
  catalogue_ok db → catalogue_ok db'.
Proof.
  intros Hp Hs Hn (H1 & H2 & H3). unfold catalogue_ok. rewrite Hp, Hs. split_and!; [|..|done].
  - intros i p Hi. destruct (H1 i p Hi). split; [done|lia].
  - intros i s Hi. destruct (H2 i s Hi). split; [done|lia].
Qed.

Lemma good_aside db db' :
  charge_points db' = charge_points db → stations db' = stations db → charging_sessions db' = charging_sessions db →
  next_id db ≤ next_id db' → catalogue_ok db → good db db'.
Proof. intros. split; [by apply promises_aside|by eapply ok_aside]. Qed.

Lemma promises_good_trans a b c : good a b → good b c → good a c.
Proof. intros [Hab _] [Hbc ?]. split; [by etrans|done]. Qed.

Lemma good_refl db : catalogue_ok db → good db db.
Proof. by split. Qed.

Lemma good_fresh db : catalogue_ok db → good db (set_next_id (next_id db + 1) db).
Proof. intros. apply good_aside; simpl; done || lia. Qed.

(** A station row written over one with the same key and owner. *)
Lemma good_station db i s s' :
  stations db !! i = Some s → st_id s' = st_id s → st_owner_id s' = st_owner_id s →
  (used i db → st_timezone s' = st_timezone s) → catalogue_ok db → good db (set_stations (<[i := s']> (stations db)) db).
Proof.
  intros Hi Hid Ho Hz (H1 & H2 & H3). split.
  - split; [simpl; lia|]. split_and!; [intros; eexists; split; [done|reflexivity]| |intros; by eexists].
    intros j t Hj. simpl. destruct (decide (j = i)) as [->|].
    + rewrite lookup_insert_eq. simplify_eq. by eexists.
    + rewrite lookup_insert_ne by done. by exists t.
  - split_and!; [done| |done]. intros j t Hj. simpl in Hj. apply lookup_insert_Some in Hj as [[<- <-]|[_ Hj]]; [|by apply H2].
    rewrite Hid. by apply H2.
Qed.

(** A new station. *)
Lemma good_new_station db s :
  st_id s = next_id db → catalogue_ok db →
  good db (set_stations (<[next_id db := s]> (stations db)) (set_next_id (next_id db + 1) db)).
Proof.
  intros Hid (H1 & H2 & H3). assert (∀ i t, stations db !! i = Some t → i ≠ next_id db) as Hf.
  { intros i t Hi ->. destruct (H2 _ _ Hi). lia. }
  split.
  - split; [simpl; lia|]. split_and!; [intros; eexists; split; [done|reflexivity]| |intros; by eexists].
    intros i t Hi. simpl. rewrite lookup_insert_ne by (symmetry; eauto). by exists t.
  - split_and!; simpl; [|..|done].
    + intros i p Hi. destruct (H1 i p Hi). split; [done|lia].
    + intros i t Hi. apply lookup_insert_Some in Hi as [[<- <-]|[_ Hi]]; [split; [done|lia]|]. destruct (H2 i t Hi). split; [done|lia].
Qed.

Lemma code_taken_false code ex db i p :
  code_taken code ex db = false → charge_points db !! i = Some p → Some (cp_id p) ≠ ex → lower (cp_code p) ≠ lower code.
Proof.
  unfold code_taken. intros H%bool_decide_eq_false_1%eq_None_not_Some Hi Hne Heq. rewrite select_where_None in H.
  specialize (H i p Hi). rewrite bool_decide_eq_true_2 in H by done. simpl in H. destruct ex as [x|]; [|done].
  apply negb_false_iff, Z.eqb_eq in H. congruence.
Qed.

(** A new charger with a free code. *)
Lemma good_new_point db p :
  cp_id p = next_id db → code_taken (cp_code p) None db = false → catalogue_ok db →
  good db (set_charge_points (<[next_id db := p]> (charge_points db)) (set_next_id (next_id db + 1) db)).
Proof.
  intros Hid Hfree (H1 & H2 & H3). assert (∀ i q, charge_points db !! i = Some q → i ≠ next_id db) as Hf.
  { intros i q Hi ->. destruct (H1 _ _ Hi). lia. }
  split.
  - split; [simpl; lia|]. split_and!; [|intros; by eexists|intros; by eexists].
    intros i q Hi. simpl. rewrite lookup_insert_ne by (symmetry; eauto). by exists q.
  - split_and!; simpl.
    + intros i q Hi. apply lookup_insert_Some in Hi as [[<- <-]|[_ Hi]]; [split; [done|lia]|]. destruct (H1 i q Hi). split; [done|lia].
    + intros i t Hi. destruct (H2 i t Hi). split; [done|lia].
    + intros i j a b Ha Hb Hab. apply lookup_insert_Some in Ha as [[<- <-]|[_ Ha]], Hb as [[<- <-]|[_ Hb]]; [done|..|by eapply H3].
      * by destruct (code_taken_false _ _ _ _ _ Hfree Hb ltac:(done)).
      * by destruct (code_taken_false _ _ _ _ _ Hfree Ha ltac:(done)).
Qed.

(** A charger rewritten: the code is free, or kept. *)
Lemma good_point db i p f :
  charge_points db !! i = Some p → cp_id (f p) = cp_id p → charger_kept p (f p) →
  cp_code (f p) = cp_code p ∨ code_taken (cp_code (f p)) (Some i) db = false →
  catalogue_ok db → good db (set_charge_points (alter f i (charge_points db)) db).
Proof.
  intros Hi Hid Hk Hc (H1 & H2 & H3). rewrite (alter_as_insert _ _ _ _ Hi). split.
  - split; [simpl; lia|]. split_and!; [|intros; by eexists|intros; by eexists].
    intros j q Hj. simpl. destruct (decide (j = i)) as [->|]; [rewrite lookup_insert_eq; simplify_eq; by eexists|].
    rewrite lookup_insert_ne by done. by exists q.
  - assert (∀ j q, i ≠ j → charge_points db !! j = Some q → lower (cp_code (f p)) ≠ lower (cp_code q)) as Hne.
    { intros j q Hij Hj Heq. destruct Hc as [Hc|Hc]; [rewrite Hc in Heq; by apply Hij, (H3 i j p q)|].
      apply (code_taken_false _ _ _ _ _ Hc Hj); [|done]. destruct (H1 j q Hj) as [-> _]. congruence. }
    split_and!; simpl; [|done|].
    + intros j q Hj. apply lookup_insert_Some in Hj as [[<- <-]|[_ Hj]]; [rewrite Hid|]; by apply H1.
    + intros j k a b Ha Hb Hab. apply lookup_insert_Some in Ha as [[<- <-]|[? Ha]], Hb as [[<- <-]|[? Hb]]; [done|..|by eapply H3].
      * by destruct (Hne k b).
      * by destruct (Hne j a).
Qed.

(** *** The requests *)

Lemma answering_ok {A} (m : Tx A) db a db' : answering m db = (inr a, db') → m db = (inr a, db').
Proof. apply try_ok. intros e k s1. destruct (station_error e); [|done]. intros [= <-]. by eexists. Qed.

Lemma found_ok {A} (m : Tx (option A)) db a db' : found_or_404 m db = (inr a, db') → m db = (inr (Some a), db').
Proof. intros (o & db1 & H%answering_ok & [-> ->]%some_or_inr)%bind_ok. done. Qed.

Lemma get_station_inr i owner db o db' :
  get_station_by_id i owner db = (inr o, db') →
  db' = db ∧ (∀ s, o = Some s → stations db !! i = Some s ∧ (∀ w, owner = Some w → st_owner_id s = w)).
Proof.
  unfold get_station_by_id. rewrite bind_gets. destruct (stations db !! i) as [s|], owner as [w|].
  - destruct (st_owner_id s =? w) eqn:E; [|done]. intros [= <- <-]. split; [done|]. intros ? [= <-].
    apply Z.eqb_eq in E. split; [done|]. by intros ? [= <-].
  - intros [= <- <-]. split; [done|]. intros ? [= <-]. done.
  - intros [= <- <-]. done.
  - intros [= <- <-]. done.
Qed.

(** What a successful request returned, or nothing happened. *)
Lemma request_cases {A} (m : Tx A) db r db' :
  (savepoint m;; mret ()) db = (r, db') → db' = db ∨ ∃ a, savepoint m db = (inr a, db').
Proof.
  unfold mbind, M_bind. destruct (savepoint m db) as [r0 db0] eqn:E. pose proof E as E'.
  apply savepoint_cases in E as [(e & -> & ->)|(a & -> & H)]; intros [= <- <-]; [by left|]. right. eauto.
Qed.

Lemma post_station_writes actor key request db s db' :
  post_station zone_known request_digest actor key request db = (inr s, db') →
  db' = db ∨ ∃ st f, st_id st = next_id db ∧
    db' = set_station_idempotency f (set_stations (<[next_id db := st]> (stations db)) (set_next_id (next_id db + 1) db)).
Proof.
  intros H. unfold post_station in H. apply savepoint_ok in H. apply bind_ok in H as (r & db1 & [_ ->]%some_or_inr & H).
  apply answering_ok in H. unfold create_station_idempotent in H. rewrite bind_gets in H. destruct (station_idempotency db !! _) as [rec|].
  { apply bind_ok in H as ([] & db1 & [_ ->]%raise_if_inr & H). rewrite bind_gets in H. apply some_or_inr in H as [_ ->]. by left. }
  apply bind_ok in H as (st & db1 & Hc & H). injection H as _ <-. unfold create_station in Hc.
  apply bind_ok in Hc as (tz & db2 & [_ ->]%some_or_inr & Hc). rewrite bind_gets in Hc.
  destruct (station_violation _ _ _ db); [done|]. injection Hc as <- <-. right. eexists _, _. split; [|reflexivity]. done.
Qed.

Lemma post_station_good actor key request db s db' :
  catalogue_ok db → post_station zone_known request_digest actor key request db = (inr s, db') → good db db'.
Proof.
  intros Hok [->|(st & f & Hid & ->)]%post_station_writes; [by apply good_refl|].
  match goal with |- good db (set_station_idempotency _ ?d) => assert (good db d) as Hnew by (by apply good_new_station) end.
  eapply promises_good_trans; [exact Hnew|]. apply good_aside; [done..|apply Hnew].
Qed.

Lemma patch_station_writes scope i request db s db' :
  patch_station zone_known scope i request db = (inr s, db') →
  ∃ st row, stations db !! i = Some st ∧ (∀ o, sc_owner_id scope = Some o → st_owner_id st = o) ∧
    db' = set_stations (<[i := row]> (stations db)) db ∧ st_id row = st_id st ∧ st_owner_id row = st_owner_id st ∧
    (used i db → st_timezone row = st_timezone st).
Proof.
  intros H. unfold patch_station in H. apply savepoint_ok in H.
  apply bind_ok in H as ([[[[name address] tz] lat] lon] & db1 & [_ ->]%some_or_inr & H). apply found_ok in H.
  unfold update_station in H. apply bind_ok in H as (tz' & db1 & Htz & H).
  assert (db1 = db) as -> by (destruct tz; [apply bind_ok in Htz as (? & ? & [_ ->]%some_or_inr & [= _ <-])|injection Htz as _ <-]; done).
  apply bind_ok in H as (found & db1 & [-> Hfound]%get_station_inr & H). destruct found as [st|]; [|done].
  destruct (Hfound st eq_refl) as [Hst Hown]. rewrite bind_gets in H. apply bind_ok in H as ([] & db1 & [Hz ->]%raise_if_inr & H).
  cbv zeta in H. rewrite bind_gets in H. destruct (station_violation _ _ _ db); [done|]. injection H as _ <-.
  exists st. eexists. split_and!; [done|done|reflexivity|by destruct tz', name, address, lat, lon..|].
  intros (k & c & p & Hk & Hp & Hps). destruct tz' as [t|]; [|by destruct name, address, lat, lon].
  assert (bool_decide (is_Some (select_where (session_at i db) (charging_sessions db))) = true) as Hsome.
  { apply bool_decide_eq_true_2, not_eq_None_Some. intros Hn. rewrite select_where_None in Hn. specialize (Hn k c Hk).
    unfold session_at in Hn. rewrite Hp, Hps, Z.eqb_refl in Hn. done. }
  rewrite Hsome, andb_true_r in Hz. apply negb_false_iff, bool_decide_eq_true_1 in Hz. by destruct name, address, lat, lon.
Qed.

Lemma run_modify {A} f (k : () → Tx A) db : (modify f ≫= k) db = k () (f db).
Proof. done. Qed.

Lemma insert_connectors_aside point numbers fs now db r db' :
  insert_connectors point numbers fs now db = (r, db') →
  charge_points db' = charge_points db ∧ stations db' = stations db ∧ charging_sessions db' = charging_sessions db ∧
  next_id db ≤ next_id db'.
Proof.
  revert db. induction numbers as [|n numbers IH]; intros db; [intros [= <- <-]; split_and!; done || lia|].
  intros H. cbn [insert_connectors] in H.
  rewrite (bind_ok_step fresh_id _ db (next_id db) (set_next_id (next_id db + 1) db)) in H by done.
  cbv zeta in H. rewrite run_modify in H.
  apply IH in H as (-> & -> & -> & Hn). simpl in *. split_and!; done || lia.
Qed.

Lemma post_charge_point_writes others scope i code count name fs db p db' :
  post_charge_point others scope i code count name fs db = (inr p, db') →
  let db0 := others db in
  ∃ st row numbers cs now, stations db !! i = Some st ∧ (∀ o, sc_owner_id scope = Some o → st_owner_id st = o) ∧
    cp_id row = next_id db0 ∧ code_taken (cp_code row) None db0 = false ∧
    insert_connectors (next_id db0) numbers cs now
      (set_charge_points (<[next_id db0 := row]> (charge_points db0)) (set_next_id (next_id db0 + 1) db0)) = (inr (), db').
Proof.
  intros H. unfold post_charge_point in H. apply savepoint_ok in H.
  apply bind_ok in H as (code' & db1 & [_ ->]%some_or_inr & H). apply bind_ok in H as (name' & db1 & Hn & H).
  assert (db1 = db) as -> by (destruct name; [apply bind_ok in Hn as (? & ? & [_ ->]%some_or_inr & [= _ <-])|injection Hn as _ <-]; done).
  apply bind_ok in H as ([] & db1 & [_ ->]%raise_if_inr & H). apply found_ok in H. unfold create_charge_point in H.
  apply bind_ok in H as (found & db1 & [-> Hfound]%get_station_inr & H). destruct found as [st|]; [|done].
  destruct (Hfound st eq_refl) as [Hst Hown].
  rewrite bind_gets in H. apply bind_ok in H as ([] & db1 & [_ ->]%raise_if_inr & H). cbv zeta in H.
  apply bind_ok in H as ([] & db1 & [_ ->]%raise_if_inr & H). rewrite run_modify, bind_gets in H.
  apply bind_ok in H as ([] & db1 & [Ht ->]%raise_if_inr & H). rewrite bind_gets in H. cbv zeta. set (db0 := others db) in *.
  rewrite (bind_ok_step fresh_id _ db0 (next_id db0) (set_next_id (next_id db0 + 1) db0)), run_modify in H by done.
  apply bind_ok in H as ([] & db2 & Hin & H). injection H as _ <-. exists st. eexists _, _, _, _.
  split_and!; [done|done| | |exact Hin]; done.
Qed.

Lemma post_charge_point_good others scope i code count name fs db p db' :
  catalogue_ok db → fair others → post_charge_point others scope i code count name fs db = (inr p, db') → good db db'.
Proof.
  intros Hok Hf (st & row & numbers & cs & now & _ & _ & Hid & Hfree & Hin)%post_charge_point_writes. pose proof (Hf db Hok) as Ho.
  apply insert_connectors_aside in Hin as (H1 & H2 & H3 & H4). eapply promises_good_trans; [exact Ho|].
  pose proof (good_new_point _ row Hid Hfree (proj2 Ho)) as Hnew.
  eapply promises_good_trans; [exact Hnew|]. by apply good_aside; [..|apply Hnew].
Qed.

Lemma owned_charge_point_Some i scope db p :
  owned_charge_point i scope db = Some p →
  charge_points db !! i = Some p ∧ ∃ s, stations db !! cp_station_id p = Some s ∧ (∀ o, sc_owner_id scope = Some o → st_owner_id s = o).
Proof.
  unfold owned_charge_point. destruct (charge_points db !! i) as [q|]; simpl; [|done].
  destruct (stations db !! cp_station_id q) as [s|] eqn:Hs; simpl; [|done]. destruct (sc_owner_id scope) as [o|].
  - destruct (st_owner_id s =? o) eqn:E; [|done]. intros [= <-]. apply Z.eqb_eq in E. split; [done|]. exists s. split; [done|].
    by intros ? [= <-].
  - intros [= <-]. split; [done|]. by exists s.
Qed.

Lemma patch_charge_point_writes others scope i code name fs db p db' :
  patch_charge_point others scope i code name fs db = (inr p, db') →
  let db0 := others db in
  ∃ q f g, charge_points db !! i = Some q ∧
    (∃ s, stations db !! cp_station_id q = Some s ∧ (∀ o, sc_owner_id scope = Some o → st_owner_id s = o)) ∧
    cp_id (f q) = cp_id q ∧ charger_kept q (f q) ∧
    (cp_code (f q) = cp_code q ∨ code_taken (cp_code (f q)) (Some i) db0 = false) ∧
    db' = set_connectors ((λ c, if cn_charge_point_id c =? i then g c else c) <$> connectors db0)
            (set_charge_points (alter f i (charge_points db0)) db0).
Proof.
  intros H. unfold patch_charge_point in H. apply savepoint_ok in H.
  apply bind_ok in H as ([] & db1 & [_ ->]%raise_if_inr & H). apply found_ok in H. unfold update_charge_point_code in H.
  rewrite bind_gets in H. destruct (owned_charge_point i scope db) as [q|] eqn:Hq.
  2: { rewrite bind_gets in H. apply bind_ok in H as ([] & db1 & [_ ->]%raise_if_inr & H). done. }
  apply owned_charge_point_Some in Hq as [Hi Hown]. set (c := strip <$> field_or_none code) in *.
  apply bind_ok in H as ([] & db1 & [Hl ->]%raise_if_inr & H). rewrite bind_gets in H. cbv zeta in H.
  apply bind_ok in H as ([] & db1 & [_ ->]%raise_if_inr & H). rewrite bind_gets in H.
  apply bind_ok in H as ([] & db1 & [_ ->]%raise_if_inr & H). rewrite run_modify, bind_gets in H.
  apply bind_ok in H as ([] & db1 & [Ht ->]%raise_if_inr & H). rewrite !run_modify in H. injection H as _ <-.
  exists q. eexists _, _. split_and!; [done|done| | | |reflexivity]; simpl.
  - by destruct (negb (absent name)), c.
  - split; [by destruct (negb (absent name)), c|]. intros Hlock. destruct c as [x|]; [|by destruct (negb (absent name))].
    simpl in Hl. by rewrite bool_decide_eq_true_2 in Hl.
  - destruct c as [x|]; [right|left]; destruct (negb (absent name)); done.
Qed.

Lemma patch_charge_point_good others scope i code name fs db p db' :
  catalogue_ok db → fair others → charge_points (others db) !! i = charge_points db !! i →
  patch_charge_point others scope i code name fs db = (inr p, db') → good db db'.
Proof.
  intros Hok Hf Hrow (q & f & g & Hi & _ & Hid & Hkept & Hcode & ->)%patch_charge_point_writes. cbv zeta in *.
  pose proof (Hf db Hok) as Ho. rewrite Hi in Hrow. pose proof (good_point _ i q f Hrow Hid Hkept Hcode (proj2 Ho)) as Hnew.
  eapply promises_good_trans; [exact Ho|]. eapply promises_good_trans; [exact Hnew|]. apply good_aside; [done..|apply Hnew].
Qed.

Lemma check_opening_pure s : pure_tx (check_opening s).
Proof. unfold check_opening, lay_bieu_gia_hieu_luc, _station. auto 20 with csms. Qed.

(** What [change_operation] wrote: nothing, or the new status and version and a line in the log. *)
Lemma change_operation_cases i request scope evidence db s db' :
  change_operation i request scope evidence db = (inr s, db') →
  ∃ r st, valid_operation request = Some r ∧ stations db !! i = Some st ∧
    (∀ o, sc_owner_id scope = Some o → st_owner_id st = o) ∧ st_archived_at st = None ∧
    ((db' = db ∧ s = st ∧ st_status st = op_status r ∧
      (st_status_version st = op_expected_version r ∨ st_status_version st = op_expected_version r + 1)) ∨
     (st_status_version st = op_expected_version r ∧ s = set_st_status_version (st_status_version st + 1) (set_st_status (op_status r) st) ∧
      (op_status r = "active"%string → check_opening st db = (inr (), db)) ∧
      ∃ row, db' = audited row (set_stations (<[i := s]> (stations db)) db))).
Proof.
  intros H. unfold change_operation in H. apply savepoint_ok in H. apply bind_ok in H as (r & db1 & [Hr ->]%some_or_inr & H).
  apply bind_ok in H as (found & db1 & [-> Hfound]%answering_ok%get_station_inr & H).
  apply bind_ok in H as (st & db1 & [-> ->]%some_or_inr & H). destruct (Hfound st eq_refl) as [Hst Hown].
  apply bind_ok in H as ([] & db1 & [Hb%bool_decide_eq_false_1%eq_None_not_Some ->]%raise_if_inr & H).
  apply bind_ok in H as ([] & db1 & [_ ->]%raise_if_inr & H).
  exists r, st. split_and!; [done..|]. destruct (_ && _) eqn:Hsame.
  { injection H as <- <-. left. apply andb_true_iff in Hsame as [?%bool_decide_eq_true_1 Hv%orb_true_iff].
    rewrite !Z.eqb_eq in Hv. done. }
  right. apply bind_ok in H as ([] & db1 & [Hv%negb_false_iff%Z.eqb_eq ->]%raise_if_inr & H).
  apply bind_ok in H as ([] & db1 & [_ ->]%raise_if_inr & H). apply bind_ok in H as ([] & db1 & Hopen & H).
  assert (db1 = db ∧ (op_status r = "active"%string → check_opening st db = (inr (), db))) as [-> Hready].
  { case_bool_decide as Ha; cbn [when] in Hopen; [|by injection Hopen as <-].
    pose proof (check_opening_pure st db) as Hp. rewrite Hopen in Hp. simpl in Hp. subst. done. }
  cbv zeta in H. rewrite run_modify in H. apply bind_ok in H as (id & db1 & Hlog & H). injection H as <- <-.
  apply ghi_nhat_ky_cases in Hlog as [(? & [=] & _)|(? & ? & _ & _ & _ & _ & _ & _ & ->)]. split_and!; try done. by eexists.
Qed.

Lemma change_operation_good i request scope evidence db s db' :
  catalogue_ok db → change_operation i request scope evidence db = (inr s, db') → good db db'.
Proof.
  intros Hok H. apply change_operation_cases in H as (r & st & _ & Hst & _ & _ & [(-> & _)|(_ & -> & _ & row & ->)]); [by apply good_refl|].
  match goal with |- good _ (audited _ ?d) => assert (good db d) as Hnew by (by apply (good_station _ _ st)) end.
  eapply promises_good_trans; [exact Hnew|]. apply good_aside; [done..|simpl; lia|apply Hnew].
Qed.

Lemma cserve_good r db : catalogue_ok db → cfair r → good db (cserve r db).2.
Proof.
  intros Hok Hf. destruct (cserve r db) as [res db'] eqn:H. simpl.
  destruct r as [a k q|sc i q|o sc i c n name fs|o sc i c name fs|sc i q ev]; simpl in H, Hf;
    apply request_cases in H as [->|[x H]]; try (by apply good_refl).
  - by apply (post_station_good a k q db x).
  - apply patch_station_writes in H as (st & row & Hst & _ & -> & ? & ? & ?). by apply (good_station _ _ st).
  - by apply (post_charge_point_good o sc i c n name fs db x).
  - destruct Hf as [Hf Hrow]. by apply (patch_charge_point_good o sc i c name fs db x).
  - by apply (change_operation_good i q sc ev db x).
Qed.

Lemma cserve_all_good rs db : catalogue_ok db → Forall cfair rs → good db (cserve_all rs db).
Proof.
  intros Hok Hrs. revert db Hok. induction Hrs as [|r rs Hr Hrs IH]; intros db Hok; [by apply good_refl|].
  pose proof (cserve_good r db Hok Hr) as Hg. eapply promises_good_trans; [exact Hg|]. apply IH, Hg.
Qed.

(** C27. What the catalogue promises survives every run of requests, with
    whatever other transactions that keep the same promises commit in between:
    charger codes stay unique without regard to case, a charger whose code was
    locked by its first transaction keeps it, chargers stay at their station
    and stations with their owner, and the time zone of a station that was
    ever used no longer changes. *)
Theorem catalogue_promises_kept rs db :
  catalogue_ok db → Forall cfair rs → catalogue_ok (cserve_all rs db) ∧ promises db (cserve_all rs db).
Proof. intros Hok Hrs. destruct (cserve_all_good rs db Hok Hrs). done. Qed.

(** ** Owners *)

(** The owner a request acts for, if it is confined to one. *)
Definition request_owner (r : CRequest) : option Z :=
  match r with
  | CPostStation a _ _ => Some (ac_user_id a)
  | CPatchStation sc _ _ | CPostPoint _ sc _ _ _ _ _ | CPatchPoint _ sc _ _ _ _ | COperate sc _ _ _ => sc_owner_id sc
  end.

Definition alone (r : CRequest) : Prop :=
  match r with CPostPoint o _ _ _ _ _ _ | CPatchPoint o _ _ _ _ _ => o = id | _ => True end.

(** The chargers and connectors of the station. *)
Definition point_at (station_id : Z) (db : Db) (j : Z) (p : ChargePoint) : Prop :=
  charge_points db !! j = Some p ∧ cp_station_id p = station_id.

Definition untouched (i : Z) (db db' : Db) : Prop :=
  stations db' !! i = stations db !! i ∧
  (∀ j p, point_at i db j p → charge_points db' !! j = Some p) ∧
  (∀ j p k c, point_at i db j p → connectors db !! k = Some c → cn_charge_point_id c = j → connectors db' !! k = Some c).

Definition connectors_fresh (db : Db) : Prop := ∀ k, is_Some (connectors db !! k) → k < next_id db.

Lemma insert_connectors_kept point numbers fs now db r db' :
  connectors_fresh db → insert_connectors point numbers fs now db = (r, db') →
  ∀ k c, connectors db !! k = Some c → connectors db' !! k = Some c.
Proof.
  revert db. induction numbers as [|n numbers IH]; intros db Hf; [by intros [= <- <-]|].
  intros H k c Hk. cbn [insert_connectors] in H.
  rewrite (bind_ok_step fresh_id _ db (next_id db) (set_next_id (next_id db + 1) db)) in H by done.
  cbv zeta in H. rewrite run_modify in H. eapply IH in H; [exact H| |].
  - intros j [d Hd]. simpl in *. apply lookup_insert_Some in Hd as [[<- _]|[_ Hd]]; [lia|]. assert (j < next_id db) by (apply Hf; eauto). lia.
  - simpl. rewrite lookup_insert_ne; [done|]. intros <-. assert (next_id db < next_id db) by (apply Hf; eauto). lia.
Qed.

Lemma untouched_refl i db : untouched i db db.
Proof. split; [done|]. split; [by intros j p []|by intros]. Qed.

Lemma untouched_station i j row db :
  i ≠ j → untouched i db (set_stations (<[j := row]> (stations db)) db).
Proof. intros Hij. split; simpl; [by rewrite lookup_insert_ne|]. split; [by intros k p []|by intros]. Qed.

Lemma cserve_untouched r o i s db :
  catalogue_ok db → connectors_fresh db → alone r → request_owner r = Some o →
  stations db !! i = Some s → st_owner_id s ≠ o → untouched i db (cserve r db).2.
Proof.
  intros (Hp & Hst & _) Hcf Hal Ho Hi Hne. destruct (cserve r db) as [res db'] eqn:H. simpl.
  assert (i < next_id db) as Hlt by (by apply (Hst i s)).
  destruct r as [a k q|sc j q|oth sc j c n name fs|oth sc j c name fs|sc j q ev]; simpl in H, Hal, Ho;
    apply request_cases in H as [->|[x H]]; try (by apply untouched_refl).
  - apply post_station_writes in H as [->|(st & f & _ & ->)]; [by apply untouched_refl|].
    split; simpl; [rewrite lookup_insert_ne by lia; done|]. split; [by intros k' p []|by intros].
  - apply patch_station_writes in H as (st & row & Hj & Hown & -> & _). apply untouched_station. intros ->.
    specialize (Hown o Ho). congruence.
  - subst oth. apply post_charge_point_writes in H as (st & row & ns & cs & now & Hj & Hown & _ & _ & Hin). simpl in Hin.
    pose proof (insert_connectors_aside _ _ _ _ _ _ _ Hin) as (H1 & H2 & _ & _). simpl in H1, H2. split; [by rewrite H2|]. split.
    + intros k p [Hk _]. rewrite H1. rewrite lookup_insert_ne; [done|]. intros <-. destruct (Hp _ p Hk). lia.
    + intros k p m c' _ Hm _. eapply insert_connectors_kept; [|exact Hin|done]. intros l Hl. simpl in *. specialize (Hcf l Hl). lia.
  - subst oth. apply patch_charge_point_writes in H as (q & f & g & Hj & (t & Ht & Hown) & _ & _ & _ & ->). simpl.
    assert (∀ k p, point_at i db k p → j ≠ k) as Hjk.
    { intros k p [Hk Hpi] ->. rewrite Hj in Hk. injection Hk as ->. rewrite Hpi, Hi in Ht. injection Ht as <-.
      specialize (Hown o Ho). congruence. }
    split; [done|]. split; simpl.
    + intros k p Hkp. rewrite lookup_alter_ne by eauto. apply Hkp.
    + intros k p m c' Hkp Hm Hck. rewrite lookup_fmap, Hm. simpl. rewrite (proj2 (Z.eqb_neq _ _)); [done|].
      intros Heq. apply (Hjk k p Hkp). congruence.
  - apply change_operation_cases in H as (r & st & _ & Hj & Hown & _ & [(-> & _)|(_ & -> & _ & row & ->)]); [by apply untouched_refl|].
    apply (untouched_station i j). intros ->. specialize (Hown o Ho). congruence.
Qed.


(** ** Opening a station *)

Lemma bands_cover_contiguous bands cursor stop :
  bands_cover cursor bands = Some stop →
  Forall (λ b, 0 ≤ tb_energy_rate b) bands ∧ (∀ m, cursor ≤ m < stop → Exists (λ b, tb_start_min b ≤ m < tb_end_min b) bands).
Proof.
  revert cursor. induction bands as [|b bands IH]; intros cursor; simpl; [intros [= <-]; split; [constructor|lia]|].
  destruct (negb _ || _) eqn:E; [done|]. apply orb_false_iff in E as [E1%negb_false_iff%Z.eqb_eq E2%Z.ltb_ge].
  intros [Hr He]%IH. split; [by constructor|]. intros m Hm. destruct (decide (m < tb_end_min b)); [left; lia|right; apply He; lia].
Qed.

Lemma check_opening_inr s db db' :
  check_opening s db = (inr (), db') →
  described s = true ∧ registered_connectors (st_id s) db ≠ [] ∧ power_start_allowed (st_id s) None db = true ∧
  ∃ st, stations db !! st_id s = Some st ∧
  ∃ tariff, effective (st_id s) (Pricing.ngay_dia_phuong (st_timezone st) (db_now db)) db = Some tariff ∧
    Forall (λ b, 0 ≤ tb_energy_rate b) (tariff_bands_of (Some tariff) db) ∧
    ∀ m, 0 ≤ m < 1440 → Exists (λ b, tb_start_min b ≤ m < tb_end_min b) (tariff_bands_of (Some tariff) db).
Proof.
  intros H. unfold check_opening in H. apply bind_ok in H as ([] & db1 & [Hd%negb_false_iff ->]%raise_if_inr & H).
  rewrite bind_gets in H. apply bind_ok in H as ([] & db1 & [Hr%bool_decide_eq_false_1 ->]%raise_if_inr & H). rewrite bind_gets in H.
  apply bind_ok in H as (tariff & db1 & Ht & H). unfold lay_bieu_gia_hieu_luc, _station in Ht.
  apply bind_ok in Ht as (st & db2 & Hst & Ht). rewrite bind_gets in Hst. apply some_or_inr in Hst as [Hst ->]. injection Ht as Ht <-.
  rewrite bind_gets in H. apply bind_ok in H as ([] & db1 & [Hb%negb_false_iff%bool_decide_eq_true_1 ->]%raise_if_inr & H).
  rewrite bind_gets in H. apply raise_if_inr in H as [Hp%negb_false_iff ->]. split_and!; [done..|].
  exists st. split; [done|]. destruct tariff as [tariff|]; [|by simpl in Hb]. exists tariff. split; [exact Ht|]. by apply bands_cover_contiguous.
Qed.

(** C29. A station that opens is ready to charge: when [change_operation]
    moves it to active, it is named, addressed and placed, a connector is
    registered, a tariff is in force whose bands price every minute of the day
    with no negative rate, and its power control lets a session start; and the
    version the request expected was the current one and is now used up. *)
Theorem station_opens_ready i request scope evidence db s db' :
  catalogue_ok db → change_operation i request scope evidence db = (inr s, db') → db' ≠ db → st_status s = "active"%string →
  (∃ row, stations db' = <[i := s]> (stations db) ∧ audit_logs db' = audit_logs db ++ [row]) ∧
  st_status_version s = op_expected_version request + 1 ∧
  described s = true ∧ registered_connectors i db ≠ [] ∧ power_start_allowed i None db = true ∧
  ∃ tariff, effective i (Pricing.ngay_dia_phuong (st_timezone s) (db_now db)) db = Some tariff ∧
    Forall (λ b, 0 ≤ tb_energy_rate b) (tariff_bands_of (Some tariff) db) ∧
    ∀ m, 0 ≤ m < 1440 → Exists (λ b, tb_start_min b ≤ m < tb_end_min b) (tariff_bands_of (Some tariff) db).
Proof.
  intros (_ & Hids & _) H Hne Hact.
  apply change_operation_cases in H as (r & st & Hr & Hst & _ & _ & [(-> & _)|(Hv & -> & Hopen & row & ->)]); [done|].
  simpl in Hact. destruct (check_opening_inr _ _ _ (Hopen Hact)) as (Hd & Hc & Hp & st' & Hst' & tariff & Ht & Hrates & Hcov).
  destruct (Hids i st Hst) as [Hid _]. rewrite Hid in *. rewrite Hst in Hst'. injection Hst' as <-.
  assert (op_expected_version r = op_expected_version request) as Hexp.
  { unfold valid_operation in Hr. destruct (text_field _ _ _); simpl in Hr; [|done]. destruct (_ && _); [|done]. by injection Hr as <-. }
  split_and!; [by exists row|simpl; lia|done|done|done|]. exists tariff. done.
Qed.

(** An operation answered twice happens once: the same request repeated on
    the state it left — its answer lost — returns the same station and writes
    nothing, not even to the log. *)
Theorem operation_retry_is_noop i request scope evidence db s db' :
  change_operation i request scope evidence db = (inr s, db') → change_operation i request scope evidence db' = (inr s, db').
Proof.
  intros H. pose proof H as H0.
  apply change_operation_cases in H as (r & st & Hr & Hst & Hown & Har & [(-> & _)|(Hv & Hs & _ & row & ->)]); [done|]. clear H0.
  set (db' := audited _ _). assert (stations db' !! i = Some s) as Hs' by (simpl; by rewrite lookup_insert_eq).
  assert (op_status r ≠ "blocked"%string) as Hnb.
  { unfold valid_operation in Hr. destruct (text_field _ _ _); simpl in Hr; [|done]. destruct (_ && _) eqn:E; [|done].
    injection Hr as <-. simpl. apply andb_true_iff in E as [[E%bool_decide_eq_true_1 _]%andb_true_iff _]. intros Hb. rewrite Hb in E. by apply (bool_decide_eq_true_2 _) in E. }
  unfold change_operation, savepoint. rewrite Hr, (bind_ok_step _ _ _ r db') by done.
  assert (answering (get_station_by_id i (sc_owner_id scope)) db' = (inr (Some s), db')) as Hget.
  { unfold answering, try_except, get_station_by_id. rewrite bind_gets, Hs'. destruct (sc_owner_id scope) as [o|]; [|done].
    rewrite Hs. simpl. rewrite (Hown o eq_refl), Z.eqb_refl. done. }
  rewrite (bind_ok_step _ _ _ _ _ Hget), (bind_ok_step _ _ _ s db') by done. subst s. simpl. rewrite Har.
  rewrite (bind_ok_step _ _ _ () db') by done. rewrite (bool_decide_eq_false_2 _ Hnb).
  rewrite (bind_ok_step _ _ _ () db') by done. rewrite (bool_decide_eq_true_2 (op_status r = op_status r)) by done. simpl.
  rewrite Hv, Z.eqb_refl, orb_true_r. done.
Qed.
End promises.

(** ** A concrete catalogue *)

(** Station 30 of owner 3 has been used; station 31 belongs to owner 4. *)
Definition demo_catalogue : Db :=
  set_users {[3 := mkUser "active" ["station_owner"] "minh@csms.vn" "" 0 None 0 None 0;
              4 := mkUser "active" ["station_owner"] "hoa@csms.vn" "" 0 None 0 None 0]}
    (set_stations {[30 := mkStation 30 3 "Tram A" "inactive" "Asia/Ho_Chi_Minh" None "1 Le Loi" 10776900 106700900 1 0;
                    31 := mkStation 31 4 "Tram B" "inactive" "Asia/Ho_Chi_Minh" None "2 Hue" 10000000 106000000 1 0]}
      (set_charge_points {[40 := set_cp_code_locked_at (Some (hours 14)) bill_charge_point;
                           50 := set_cp_code "CP-50" (mkChargePoint 50 31 "offline" None 60 None None None None 0 None None None None
                             None None "CP-50" 0 None)]} bill_db)).

#[local] Existing Instance demo_deployment.
Definition demo_zone (z : string) : bool := bool_decide (z ∈ ["Asia/Ho_Chi_Minh"; "UTC"]).
Definition demo_digest (name address : string) (lat lon : Z) (tz : option string) : string := name +:+ address +:+ default "" tz.

(** Case analysis on the keys of a literal table. *)
Ltac keyed H := repeat (apply lookup_insert_Some in H as [[<- <-]|[_ H]]); try (apply lookup_singleton_Some in H as [<- <-]).

Lemma demo_catalogue_ok : catalogue_ok demo_catalogue.
Proof.
  split_and!.
  - intros i p Hp. change (charge_points demo_catalogue) with ({[40 := set_cp_code_locked_at (Some (hours 14)) bill_charge_point;
      50 := set_cp_code "CP-50" (mkChargePoint 50 31 "offline" None 60 None None None None 0 None None None None
      None None "CP-50" 0 None)]} : gmap Z ChargePoint) in Hp. keyed Hp; split; vm_compute; reflexivity.
  - intros i s Hs. cbn in Hs. keyed Hs; split; vm_compute; reflexivity.
  - intros i j p q Hp Hq. cbn in Hp, Hq. keyed Hp; keyed Hq; vm_compute; done.
Qed.

Definition demo_owner : ActorScope := mkScope 3 (Some 3).
Definition demo_owner_evidence : Evidence := mkEvidence "owner.stations.change_operation" ["station_owner"].

(** A move of the zone, a new code for the locked charger, a code taken by
    another owner and a charger for another's station are all refused. *)
Definition demo_catalogue_run : list CRequest :=
  [CPatchStation demo_owner 30 (mkStationUpdate Absent Absent (Given "UTC") Absent Absent);
   CPatchPoint id demo_owner 40 (Given "CP-99") Absent Absent;
   CPostPoint id demo_owner 30 " cp-50" 1 None None;
   CPostPoint id demo_owner 31 "CP-60" 1 None None;
   CPostPoint id demo_owner 30 "CP-60" 2 None None;
   CPatchStation demo_owner 30 (mkStationUpdate (Given "Tram A1") Absent Absent Absent Absent)]%string.

Example demo_catalogue_answers :
  (λ r, (cserve demo_zone demo_digest r demo_catalogue).1) <$> demo_catalogue_run =
  [inl (HTTPException 409); inl (HTTPException 409); inl (HTTPException 409); inl (HTTPException 403); inr (); inr ()].
Proof. vm_compute. reflexivity. Qed.

Lemma catalogue_promises_kept_witness :
  catalogue_ok (cserve_all demo_zone demo_digest demo_catalogue_run demo_catalogue) ∧
  promises demo_catalogue (cserve_all demo_zone demo_digest demo_catalogue_run demo_catalogue).
Proof.
  apply (catalogue_promises_kept demo_zone demo_digest demo_catalogue_run demo_catalogue demo_catalogue_ok).
  assert (fair id) as Hid by (intros db Hok; by apply good_refl).
  repeat (apply Forall_cons_2; [first [exact I|exact Hid|exact (conj Hid (λ _, eq_refl))]|]). apply Forall_nil_2.
Defined.


Definition demo_opening : OperationRequest := mkOperation "active" 1 "".
Definition demo_opened : Station :=
  mkStation 30 3 "Tram A" "active" "Asia/Ho_Chi_Minh" None "1 Le Loi" 10776900 106700900 2 0.
Definition demo_open_db : Db := (change_operation 30 demo_opening demo_owner demo_owner_evidence demo_catalogue).2.

Lemma demo_opening_ran :
  change_operation 30 demo_opening demo_owner demo_owner_evidence demo_catalogue = (inr demo_opened, demo_open_db).
Proof. apply ran. vm_compute. reflexivity. Qed.

Lemma station_opens_ready_witness :
  st_status_version demo_opened = 2 ∧ power_start_allowed 30 None demo_catalogue = true ∧
  ∃ tariff, effective 30 (Pricing.ngay_dia_phuong "Asia/Ho_Chi_Minh" (db_now demo_catalogue)) demo_catalogue = Some tariff.
Proof.
  destruct (station_opens_ready 30 demo_opening demo_owner demo_owner_evidence demo_catalogue demo_opened demo_open_db
    demo_catalogue_ok demo_opening_ran) as (_ & Hv & _ & _ & Hp & tariff & Ht & _).
  - intros H. apply (f_equal (λ db, st_status <$> stations db !! 30)) in H. vm_compute in H. discriminate.
  - reflexivity.
  - split_and!; [exact Hv|exact Hp|]. by exists tariff.
Defined.

Lemma operation_retry_is_noop_witness :
  change_operation 30 demo_opening demo_owner demo_owner_evidence demo_open_db = (inr demo_opened, demo_open_db).
Proof. exact (operation_retry_is_noop 30 demo_opening demo_owner demo_owner_evidence demo_catalogue demo_opened demo_open_db demo_opening_ran). Defined.
