(* ===== verification/Discovery.v ===== *)
(** * Discovery: what drivers are shown of stations

    Models [src/src/modules/stations/discovery.py] and
    [discovery_router.py]: which connectors are offered as free, the
    alternatives to a reserved connector, the summary of a station with its
    price of the moment, and the search. *)

From Stdlib Require Import Ascii.
From S2P Require Import Prelude Bands Clock Text Store AuditTrail Wallet Pricing Monitoring PowerSchedule PowerControl Access Reservations Identity Catalogue.

Section discovery.
Context {dep : Deployment}.

(** ** Connectors *)

Definition has_row {A} (P : A → bool) (t : gmap Z A) : bool := bool_decide (is_Some (select_where P t)).

Definition available_connector (now : Z) (point : ChargePoint) (connector : Connector) (db : Db) : bool :=
  bool_decide (cp_status point = "online") && bool_decide (is_Some (cp_last_boot_at point)) &&
  negb (expired now point) && match cp_last_seen_at point with Some t => t <=? now | None => false end &&
  negb (bool_decide (cp_raw_ocpp_status point = Some "Faulted"%string)) &&
  bool_decide (cp_error_code point ∈ [None; Some "NoError"%string]) &&
  bool_decide (cn_status connector = "Available") &&
  negb (has_row (occupies (cn_id connector)) (charging_sessions db)) &&
  negb (has_row (λ s, (sr_connector_id s =? cn_id connector) && start_pending s && (now <? sr_lease_until s))
          (driver_start_requests db)) &&
  negb (bool_decide (is_Some (connector_hold (cn_id connector) db))).

Definition reservation_supported (point : ChargePoint) (db : Db) : bool :=
  match reservation_capabilities db !! cp_id point with
  | Some c => rc_supported c && bool_decide (is_Some (rc_checked_at c)) &&
              bool_decide (is_Some (rc_boot_at c)) && bool_decide (rc_boot_at c = cp_last_boot_at point)
  | None => false
  end.

(** [ORDER BY code, connector_number, id] *)
Definition listed_first (a b : Connector * ChargePoint) : Prop :=
  let '(c, p) := a in let '(d, q) := b in
  string_le (cp_code p) (cp_code q) ∧
  (cp_code p = cp_code q → cn_connector_number c < cn_connector_number d ∨
     cn_connector_number c = cn_connector_number d ∧ cn_id c ≤ cn_id d).
#[global] Instance listed_first_dec a b : Decision (listed_first a b).
Proof. destruct a, b. unfold listed_first. apply _. Defined.

Definition is_alternative (connector : Connector) (now : Z) (db : Db) (r : Connector * ChargePoint) : bool :=
  let '(cn, point) := r in
  negb (cn_id cn =? cn_id connector) && bool_decide (cn_connector_type cn = cn_connector_type connector) &&
  bool_decide (cn_current_type cn = cn_current_type connector) && available_connector now point cn db &&
  negb (has_row (λ s, (sr_connector_id s =? cn_id cn) && start_pending s) (driver_start_requests db)) &&
  reservation_supported point db.

Definition reservation_alternatives (connector : Connector) (station : Station) (now : Z) (db : Db)
  : list (Z * string * Z) :=
  if negb (bool_decide (st_status station = "active")) || bool_decide (is_Some (st_archived_at station)) then []
  else (λ r, (cn_id r.1, cp_code r.2, cn_connector_number r.1)) <$>
       take 3 (merge_sort listed_first (filter (λ r, is_alternative connector now db r = true)
         (registered_connectors (st_id station) db))).

(** ** Summaries *)

Record ConnectorView := mkConnectorView {
  cv_id : Z; cv_connector_type : option string; cv_current_type : option string; cv_max_power_kw : option Z;
  cv_available : bool; cv_reservation_supported : bool
}.

Record Summary := mkSummary {
  sm_available_connectors : Z; sm_total_connectors : Z; sm_connectors : list ConnectorView;
  sm_energy_rate : option Z; sm_idle_rate : option Z; sm_grace_minutes : option Z
}.

(** [ORDER BY connector_type, id], nulls last *)
Definition type_before (a b : Connector * ChargePoint) : Prop :=
  match cn_connector_type a.1, cn_connector_type b.1 with
  | Some s, Some t => string_le s t ∧ (s = t → cn_id a.1 ≤ cn_id b.1)
  | Some _, None => True
  | None, Some _ => False
  | None, None => cn_id a.1 ≤ cn_id b.1
  end.
#[global] Instance type_before_dec a b : Decision (type_before a b).
Proof. unfold type_before. repeat case_match; apply _. Defined.

Definition connector_view (now : Z) (db : Db) (r : Connector * ChargePoint) : ConnectorView :=
  mkConnectorView (cn_id r.1) (cn_connector_type r.1) (cn_current_type r.1) (cn_max_power_kw r.1)
    (available_connector now r.2 r.1 db) (reservation_supported r.2 db).

(** The band of the tariff in force at the station's local minute. *)
Definition price_now (station : Station) (now : Z) (db : Db) : option (Tariff * TariffBand) :=
  tariff ← effective (st_id station) (Pricing.ngay_dia_phuong (st_timezone station) now) db;
  let minute := phut_trong_ngay (st_timezone station) now in
  band ← first_where (λ b, (tb_tariff_id b =? tf_id tariff) && (tb_start_min b <=? minute) && (minute <? tb_end_min b))
           (tariff_bands db);
  Some (tariff, band).

Definition summary (now : Z) (db : Db) (station : Station) : Summary :=
  let views := connector_view now db <$> merge_sort type_before (registered_connectors (st_id station) db) in
  let price := price_now station now db in
  mkSummary (Z.of_nat (length (filter (λ v, cv_available v = true) views))) (Z.of_nat (length views)) views
    ((λ p, tb_energy_rate p.2) <$> price) ((λ p, tf_idle_rate p.1) <$> price) ((λ p, tf_grace_minutes p.1) <$> price).

Definition summaries (stations : list Station) (now : Z) (db : Db) : gmap Z Summary :=
  list_to_map ((λ s, (st_id s, summary now db s)) <$> stations).

(** ** Searching *)

(** [search.replace("\", "\\").replace("%", "\%").replace("_", "\_")] *)
Definition escaped (search : string) : string := replace "_" "\_" (replace "%" "\%" (replace "\" "\\" search)).

Definition discoverable (search : string) (s : Station) : bool :=
  bool_decide (st_status s = "active") && bool_decide (st_archived_at s = None) &&
  (bool_decide (search = "") || ilike ("%" +:+ escaped search +:+ "%") (st_name s) ||
   ilike ("%" +:+ escaped search +:+ "%") (st_address s)).

Definition by_name (a b : Station) : Prop :=
  string_le (st_name a) (st_name b) ∧ (st_name a = st_name b → st_id a ≤ st_id b).
#[global] Instance by_name_dec a b : Decision (by_name a b).
Proof. unfold by_name. apply _. Defined.

Record DiscoveryResponse := mkDiscovery {
  di_items : list (Station * option Summary); di_page : Z; di_total : Z; di_total_pages : Z; di_generated_at : Z;
  di_search_too_broad : bool
}.

(** The query's fields are checked: a page of 1 to 100 rows, a search of at
    most 100 characters, stripped. *)
Definition valid_discovery (number size : Z) (search : string) : option string :=
  if (1 <=? number) && (1 <=? size) && (size <=? 100) then text_field 0 100 search else None.

Definition discover_stations (number size : Z) (search : string) : Tx DiscoveryResponse :=
  search ← some_or (valid_discovery number size search) (HTTPException 422);
  found ← gets (λ db, filter (λ s, discoverable search s = true) (rows (stations db)));
  now ← gets db_now;
  let total := Z.of_nat (length found) in
  let total_pages := (total + size - 1) / size in
  if 500 <? total then mret (mkDiscovery [] number total total_pages now true)
  else
    let shown := page number size (merge_sort by_name found) in
    projection ← gets (summaries shown now);
    mret (mkDiscovery ((λ s, (s, projection !! st_id s)) <$> shown) number total total_pages now false).

(** ** A search finds texts, not patterns *)

Definition special (c : ascii) : bool := bool_decide (c ∈ ["\"%char; "%"%char; "_"%char]).
Definition escape_char (c : ascii) : list ascii := if special c then ["\"%char; c] else [c].

Lemma replace_char c new l :
  replace_from [c] new 0 l = l ≫= λ x, if bool_decide (x = c) then new else [x].
Proof.
  induction l as [|x l IH]; [done|]. rewrite bind_cons. cbn [replace_from starts_with length pred]. rewrite IH.
  destruct (decide (x = c)) as [->|Hne].
  - by rewrite !bool_decide_eq_true_2.
  - by rewrite !bool_decide_eq_false_2.
Qed.

Lemma chars_replace_char c new s :
  chars (replace (of_chars [c]) new s) = chars s ≫= λ x, if bool_decide (x = c) then chars new else [x].
Proof. unfold replace. rewrite !chars_of_chars. apply replace_char. Qed.

Lemma chars_escaped s : chars (escaped s) = chars s ≫= escape_char.
Proof.
  unfold escaped. change "_"%string with (of_chars ["_"%char]) at 1. change "%"%string with (of_chars ["%"%char]) at 1.
  change "\"%string with (of_chars ["\"%char]) at 1. rewrite !chars_replace_char.
  induction (chars s) as [|c l IH]; [done|]. rewrite !bind_cons, !bind_app, IH. f_equal. unfold escape_char, special.
  destruct (decide (c = "\"%char)) as [->|H1]; [done|]. rewrite (bool_decide_eq_false_2 (c = _)) by done. cbn [mbind list_bind app].
  destruct (decide (c = "%"%char)) as [->|H2]; [done|]. rewrite (bool_decide_eq_false_2 (c = _)) by done. cbn [mbind list_bind app].
  destruct (decide (c = "_"%char)) as [->|H3]; [done|]. rewrite (bool_decide_eq_false_2 (c = _)) by done.
  rewrite bool_decide_eq_false_2; [done|]. rewrite !elem_of_cons, elem_of_nil. naive_solver.
Qed.

Lemma like_any p s : like ("%"%char :: p) s = like p s || match s with [] => false | _ :: s' => like ("%"%char :: p) s' end.
Proof. by destruct s. Qed.

Lemma like_all s : like ["%"%char] s = true.
Proof. induction s as [|c s IH]; [done|]. rewrite like_any, IH. apply orb_true_r. Qed.

Lemma like_escape_char c p s :
  like (escape_char c ++ p) s = match s with [] => false | d :: s' => bool_decide (c = d) && like p s' end.
Proof.
  unfold escape_char. destruct (special c) eqn:E; [by destruct s|]. apply bool_decide_eq_false_1 in E.
  rewrite !elem_of_cons, elem_of_nil in E.
  assert (c ≠ "\"%char ∧ c ≠ "%"%char ∧ c ≠ "_"%char) as (H1 & H2 & H3) by naive_solver. clear E.
  cbn [app like]. destruct c as [[] [] [] [] [] [] [] []]; try done; destruct p, s; done.
Qed.

Lemma like_prefix q s : like ((q ≫= escape_char) ++ ["%"%char]) s = starts_with q s.
Proof.
  revert s. induction q as [|c q IH]; intros s; [apply like_all|]. rewrite bind_cons, <- app_assoc, like_escape_char.
  destruct s as [|d s]; [done|]. cbn [starts_with]. by rewrite IH.
Qed.

Lemma like_contains q s : like ("%"%char :: (q ≫= escape_char) ++ ["%"%char]) s = contains q s.
Proof.
  induction s as [|d s IH]; rewrite like_any, like_prefix; [by destruct q|]. rewrite IH. by destruct q.
Qed.

Lemma lower_special c : special (lower_char c) = special c ∧ (special c = true → lower_char c = c).
Proof. destruct c as [[] [] [] [] [] [] [] []]; vm_compute; done. Qed.

Lemma lower_escaped q : chars (lower (escaped q)) = chars (lower q) ≫= escape_char.
Proof.
  unfold lower. rewrite !chars_of_chars, chars_escaped. induction (chars q) as [|c l IH]; [done|].
  rewrite fmap_cons, !bind_cons, fmap_app, IH. f_equal. destruct (lower_special c) as [Hs Hc]. unfold escape_char. rewrite Hs.
  destruct (special c); [|done]. rewrite !fmap_cons. by rewrite Hc.
Qed.

Lemma chars_lower_app s t : chars (lower (s +:+ t)) = chars (lower s) ++ chars (lower t).
Proof.
  unfold lower. rewrite !chars_of_chars. rewrite <- fmap_app. f_equal.
  induction s as [|c s IH]; [done|]. simpl. by rewrite IH.
Qed.

(** A driver's search is for a text, not for a pattern: with the
    characters [%], [_] and [\] escaped, the SQL pattern matches exactly the
    names that contain the words searched for, without regard to case. *)
Theorem discovery_search_exact q value :
  ilike ("%" +:+ escaped q +:+ "%") value = contains (chars (lower q)) (chars (lower value)).
Proof. unfold ilike. rewrite !chars_lower_app, lower_escaped. apply like_contains. Qed.

(** The catalogue's own search does not escape: there the words are a pattern. *)
Example catalogue_search_is_pattern :
  ilike ("%" +:+ "5%" +:+ "%") "Tram 500" = true ∧ ilike ("%" +:+ escaped "5%" +:+ "%") "Tram 500" = false.
Proof. vm_compute. done. Qed.

(** ** Alternatives can be booked *)

(** What [create_reservation] asks of the connector, its charger and station. *)
Definition bookable (point : ChargePoint) (connector : Connector) (station : Station) (db : Db) : Prop :=
  st_status station = "active"%string ∧ live point (db_now db) = true ∧
  capability_status (reservation_capabilities db !! cp_id point) point = cap_supported ∧
  connector_hold (cn_id connector) db = None ∧ cn_status connector = "Available"%string ∧
  cp_raw_ocpp_status point ≠ Some "Faulted"%string ∧ cp_error_code point ∈ [None; Some "NoError"%string] ∧
  select_where (occupies (cn_id connector)) (charging_sessions db) = None ∧
  select_where (λ s, (sr_connector_id s =? cn_id connector) && start_pending s) (driver_start_requests db) = None.

Lemma has_row_false {A} (P : A → bool) t : has_row P t = false → select_where P t = None.
Proof. intros H%bool_decide_eq_false_1. by apply eq_None_not_Some. Qed.

(** "Not expired" of the monitor is "live" of the booking. *)
Lemma available_live now point connector db :
  cp_archived_at point = None → available_connector now point connector db = true →
  live point now = true ∧ cn_status connector = "Available"%string ∧ cp_raw_ocpp_status point ≠ Some "Faulted"%string ∧
  cp_error_code point ∈ [None; Some "NoError"%string] ∧ connector_hold (cn_id connector) db = None ∧
  select_where (occupies (cn_id connector)) (charging_sessions db) = None.
Proof.
  intros Har H. unfold available_connector in H. repeat (apply andb_true_iff in H as [H ?]).
  repeat match goal with
  | H : bool_decide _ = true |- _ => apply bool_decide_eq_true_1 in H
  | H : negb _ = true |- _ => apply negb_true_iff in H
  | H : bool_decide _ = false |- _ => apply bool_decide_eq_false_1 in H
  | H : has_row _ _ = false |- _ => apply has_row_false in H
  end.
  split_and!; try done; [|by apply eq_None_not_Some]. unfold live, expired in *.
  rewrite !bool_decide_eq_true_2 by done. destruct (cp_last_seen_at point) as [t|]; [|done]. simpl.
  apply andb_true_iff. split; [done|]. apply Z.leb_le. unfold silence_us, seconds, second_us in *.
  match goal with H : (_ <? _) = false |- _ => apply Z.ltb_ge in H end. lia.
Qed.

Lemma reservation_supported_status point db :
  reservation_supported point db = true →
  capability_status (reservation_capabilities db !! cp_id point) point = cap_supported.
Proof.
  unfold reservation_supported, capability_status. destruct (reservation_capabilities db !! cp_id point) as [c|]; [|done].
  intros H. repeat (apply andb_true_iff in H as [H ?]). repeat match goal with
  | H : bool_decide _ = true |- _ => apply bool_decide_eq_true_1 in H end.
  rewrite bool_decide_eq_true_2 by done. rewrite bool_decide_eq_false_2 by (by apply not_eq_None_Some). simpl. by rewrite H.
Qed.

Lemma elem_of_registered sid db cn p :
  (cn, p) ∈ registered_connectors sid db →
  ∃ k, connectors db !! k = Some cn ∧ charge_points db !! cn_charge_point_id cn = Some p ∧ cp_station_id p = sid ∧
    cp_archived_at p = None ∧ cn_archived_at cn = None.
Proof.
  unfold registered_connectors. intros (c & Hin & Hc)%list_elem_of_bind. apply elem_of_rows in Hc as [k Hk].
  destruct (charge_points db !! cn_charge_point_id c) as [q|] eqn:Hq; [|by apply elem_of_nil in Hin].
  destruct (_ && _) eqn:E; [|by apply elem_of_nil in Hin]. apply list_elem_of_singleton in Hin. injection Hin as -> ->.
  apply andb_true_iff in E as [[E1%Z.eqb_eq E2%bool_decide_eq_true_1]%andb_true_iff E3%bool_decide_eq_true_1]. eauto 10.
Qed.

(** An alternative that is suggested can be booked: every connector
    [reservation_alternatives] offers instead of a reserved one is another
    connector of the same station and of the same type, and passes each check
    [create_reservation] makes of a connector, its charger and its station in
    the same state. *)
Theorem alternatives_bookable connector station db id code number :
  (∀ k c, connectors db !! k = Some c → cn_id c = k) → stations db !! st_id station = Some station →
  (id, code, number) ∈ reservation_alternatives connector station (db_now db) db →
  ∃ point cn, lock_target id db = (inr (point, cn, station), db) ∧ bookable point cn station db ∧
    cp_code point = code ∧ cn_connector_number cn = number ∧ id ≠ cn_id connector ∧ cp_station_id point = st_id station ∧
    cn_connector_type cn = cn_connector_type connector ∧ cn_current_type cn = cn_current_type connector.
Proof.
  intros Hids Hst. unfold reservation_alternatives. destruct (_ || _) eqn:Hopen; [by intros ?%elem_of_nil|].
  apply orb_false_iff in Hopen as [Hact%negb_false_iff%bool_decide_eq_true_1 Harch%bool_decide_eq_false_1%eq_None_not_Some].
  intros ([cn p] & [= -> -> ->] & (i & Hi%list_elem_of_lookup_2 & _)%elem_of_take)%list_elem_of_fmap.
  rewrite merge_sort_Permutation in Hi. apply list_elem_of_filter in Hi as [Halt Hreg].
  apply elem_of_registered in Hreg as (k & Hk & Hp & Hsid & Hpa & Hca). rewrite <- (Hids k cn Hk) in Hk.
  unfold is_alternative in Halt. repeat (apply andb_true_iff in Halt as [Halt ?]).
  apply negb_true_iff, Z.eqb_neq in Halt. destruct (available_live _ _ _ _ Hpa ltac:(done)) as (? & ? & ? & ? & ? & ?).
  exists p, cn. split; [|split].
  - unfold lock_target. rewrite bind_gets, Hk. simpl. rewrite (bind_ok_step _ _ _ cn db) by done.
    rewrite bind_gets, Hp, (bind_ok_step _ _ _ p db), bind_gets, Hsid, Hst, (bind_ok_step _ _ _ station db) by done.
    by rewrite Hpa, Hca, Harch.
  - split_and!; try done; [by apply reservation_supported_status|]. by apply has_row_false, negb_true_iff.
  - split_and!; try done; by apply (bool_decide_eq_true_1 _).
Qed.
End discovery.

(** ** A charger with two connectors, one of them reserved *)

Definition demo_pair_db : Db :=
  set_reservation_capabilities {[ 40 := mkCapability 40 (Some 0) true (Some 0) 0 None None "supported" ]}
    (set_charge_points {[ 40 := mkChargePoint 40 30 "online" (Some 0) 3600 None None None None 0 None (Some 0) None None
                            None None "CP-40" 0 None ]}
      (set_connectors {[ 41 := mkConnector 41 40 1 "Reserved" (Some "Reserved") None 0 None None None (Some "CCS2") (Some "DC") None;
                         42 := mkConnector 42 40 2 "Available" (Some "Available") None 0 None None None (Some "CCS2") (Some "DC") None ]}
        demo_tariff_db))%string.

Definition demo_reserved : Connector :=
  mkConnector 41 40 1 "Reserved" (Some "Reserved") None 0 None None None (Some "CCS2") (Some "DC") None.

Definition demo_place : Station :=
  mkStation 30 3 "Tram A" "active" "Asia/Ho_Chi_Minh" None "1 Le Loi" 10776900 106700900 1 0.

Lemma alternatives_bookable_witness :
  ∃ point cn, lock_target 42 demo_pair_db = (inr (point, cn, demo_place), demo_pair_db) ∧
    bookable point cn demo_place demo_pair_db ∧ cp_code point = "CP-40"%string.
Proof.
  destruct (alternatives_bookable demo_reserved demo_place demo_pair_db 42 "CP-40" 2) as (point & cn & Ht & Hb & Hc & _).
  - intros k c Hc. change (connectors demo_pair_db) with ({[ 41 := demo_reserved;
      42 := mkConnector 42 40 2 "Available" (Some "Available") None 0 None None None (Some "CCS2") (Some "DC") None ]} : gmap Z Connector) in Hc.
    apply lookup_insert_Some in Hc as [[<- <-]|[_ [<- <-]%lookup_singleton_Some]]; reflexivity.
  - reflexivity.
  - change ((42, "CP-40"%string, 2) ∈ [(42, "CP-40"%string, 2)]). apply list_elem_of_here.
  - by exists point, cn.
Defined.
