(* ===== verification/ReservationWorker.v ===== *)
(** * ReservationWorker: reservations on the wire

    Models [src/src/modules/reservations/worker.py]. A command is claimed in one
    transaction, sent, and concluded in another with the outcome [wire]
    reported; the socket registry and that outcome are arguments, as is the
    command timeout of the settings. Tokens are identities like any other. *)

From Stdlib Require Import Ascii.
From S2P Require Import Prelude Bands Clock Text Store AuditTrail Wallet Pricing Eligibility PowerSchedule PowerControl Reservations.

(** ** Payloads *)

(** [dict.get] *)
Definition field (k : string) (fields : list (string * Json)) : option Json :=
  snd <$> first_where (λ p, bool_decide (p.1 = k)) fields.

(** [value.split(",")] *)
Fixpoint split_comma (l : list ascii) : list (list ascii) :=
  match l with
  | [] => [[]]
  | c :: rest =>
      if decide (c = ","%char) then [] :: split_comma rest
      else match split_comma rest with
           | [] => [[c]]
           | part :: parts => (c :: part) :: parts
           end
  end.

Definition profile_values (values : list Json) : list Json :=
  v ← values;
  match v with
  | JObj fields =>
      match field "key" fields, field "value" fields with
      | Some (JStr "SupportedFeatureProfiles"), Some w => [w]
      | _, _ => []
      end
  | _ => []
  end.

Definition names_reservation (v : Json) : bool :=
  match v with
  | JStr s => bool_decide ("Reservation" ∈ (λ part, strip (of_chars part)) <$> split_comma (chars s))
  | _ => false
  end.

(** What [GetConfiguration] answered: [None] when it is no list. *)
Definition reservation_support (payload : list (string * Json)) : option bool :=
  match field "configurationKey" payload with
  | Some (JList values) => Some (existsb names_reservation (profile_values values))
  | _ => None
  end.

Example support_ex :
  reservation_support [("configurationKey", JList [JObj [("key", JStr "SupportedFeatureProfiles");
    ("value", JStr "Core, Reservation,SmartCharging")]])] = Some true.
Proof. reflexivity. Qed.

(** ** Capabilities *)

Definition probe_due (point : ChargePoint) (cap : ReservationCapability) (now : Z) : bool :=
  live point now && (rc_next_attempt_at cap <=? now) &&
  negb (bool_decide (rc_boot_at cap = cp_last_boot_at point) && bool_decide (is_Some (rc_checked_at cap))) &&
  match rc_locked_until cap with Some t => t <=? now | None => true end.

(** The first transaction of [probe_one]: the token and the boot probed. *)
Definition probe_claim (boot_accepted : bool) (point_id : Z) : Tx (option (Z * option Z)) :=
  p ← gets (λ db, charge_points db !! point_id);
  c ← gets (λ db, reservation_capabilities db !! point_id);
  now ← gets db_now;
  match p, c with
  | Some point, Some cap =>
      if probe_due point cap now && boot_accepted then
        token ← fresh_id;
        update_capability point_id (λ c, set_rc_supported false (set_rc_checked_at None
          (set_rc_boot_at (cp_last_boot_at point) (set_rc_locked_until (Some (now + seconds 60))
            (set_rc_lease_token (Some token) c)))));;
        mret (Some (token, cp_last_boot_at point))
      else mret None
  | _, _ => mret None
  end.

(** The second, with the outcome and payload of the call. *)
Definition probe_conclude (point_id token : Z) (boot : option Z) (outcome : string) (payload : list (string * Json)) : Tx () :=
  p ← gets (λ db, charge_points db !! point_id);
  c ← gets (λ db, reservation_capabilities db !! point_id);
  match p, c with
  | Some point, Some cap =>
      if negb (bool_decide (rc_lease_token cap = Some token)) || negb (bool_decide (cp_last_boot_at point = boot))
      then mret ()
      else
        now ← gets db_now;
        update_capability point_id (λ c, set_rc_locked_until None (set_rc_lease_token None c));;
        match bool_decide (outcome = "Accepted"), reservation_support payload with
        | true, Some supported =>
            update_capability point_id (λ c,
              set_rc_outcome (if supported then "supported" else "unsupported")
                (set_rc_supported supported (set_rc_checked_at (Some now) c)))
        | _, _ =>
            update_capability point_id (λ c, set_rc_next_attempt_at (now + seconds 30) (set_rc_outcome outcome c))
        end
  | _, _ => mret ()
  end.

(** ** Commands *)

Record Delivery := mkDelivery {
  dl_command_id : Z; dl_reservation_id : Z; dl_token : Z; dl_action : RAction; dl_payload : list (string * Json)
}.

Definition reject_command (command_id reservation_id : Z) (outcome : string) : Tx () :=
  update_command command_id (λ c, set_rm_outcome (Some outcome) (set_rm_status rm_done c));;
  update_reservation reservation_id (λ r, set_rv_outcome (Some outcome) (set_rv_status rv_rejected r)).

Section commands.
Context (reservation_command_timeout_seconds : Z).

Definition send (command : ReservationCommand) (reservation_id now : Z) (payload : list (string * Json)) : Tx (option Delivery) :=
  token ← fresh_id;
  update_command (rm_id command) (λ c,
    set_rm_locked_until (Some (now + seconds (60 + 2 * reservation_command_timeout_seconds)))
      (set_rm_lease_token (Some token) (set_rm_attempts (rm_attempts c + 1) (set_rm_status rm_sending c))));;
  mret (Some (mkDelivery (rm_id command) reservation_id token (rm_action command) payload)).

Definition claim_reserve (point : ChargePoint) (connector : Connector) (station : Station) (r : Reservation)
    (command : ReservationCommand) (now : Z) : Tx (option Delivery) :=
  let active := bool_decide (st_status station = "active") in
  if negb active || (rv_expires_at r <=? now) || bool_decide (is_Some (rv_cancel_requested_at r)) then
    request_release (rv_id r) now (if active then "expired" else "station_unavailable") None;; mret None
  else
    cap ← gets (λ db, reservation_capabilities db !! cp_id point);
    if match cap with
       | Some c => negb (rc_supported c) || bool_decide (rc_checked_at c = None) ||
                   negb (bool_decide (rc_boot_at c = cp_last_boot_at point))
       | None => true
       end then
      reject_command (rm_id command) (rv_id r) "capability_changed";;
      update_reservation (rv_id r) (set_rv_updated_at now);;
      event (rv_id r) "rejected" now [("outcome", JStr "capability_changed")];; mret None
    else
      t ← gets (λ db, id_tags db !! rv_driver_id r);
      match t with
      | Some tag =>
          if vt_card_id tag =? rv_card_id r then
            send command (rv_id r) now
              [("connectorId", JInt (cn_connector_number connector)); ("reservationId", JInt (rv_ocpp_id r));
               ("idTag", JStr (vt_id_tag tag)); ("expiryDate", JInt (rv_expires_at r))]
          else reject_command (rm_id command) (rv_id r) "identity_changed";; mret None
      | None => reject_command (rm_id command) (rv_id r) "identity_changed";; mret None
      end.

Definition claim (boot_accepted : bool) (command_id : Z) : Tx (option Delivery) :=
  savepoint (
    candidate ← gets (λ db, reservation_commands db !! command_id);
    match candidate with
    | None => mret None
    | Some command =>
        reg ← gets (λ db, reservations db !! rm_reservation_id command);
        match reg with
        | None => mret None
        | Some r =>
            target ← lock_target (rv_connector_id r);
            let '(point, connector, station) := target in
            now ← gets db_now;
            if negb (bool_decide (rm_status command = rm_queued)) || (now <? rm_next_attempt_at command) then mret None
            else if negb (holds (rv_status r)) then
              update_command command_id (set_rm_status rm_suppressed);; mret None
            else if negb boot_accepted || negb (live point now) then mret None
            else
              match rm_action command with
              | ReserveNow => claim_reserve point connector station r command now
              | CancelReservation =>
                  reserve ← gets (command_of (rv_id r) ReserveNow);
                  if match reserve with Some c => bool_decide (rm_status c = rm_sending) | None => false end then mret None
                  else send command (rv_id r) now [("reservationId", JInt (rv_ocpp_id r))]
              end
        end
    end).
End commands.

Definition refused (outcome : string) : bool :=
  bool_decide (outcome ∈ ["Occupied"; "Rejected"; "Unavailable"; "Faulted"]).

(** [15 * 2 ** min(attempts - 1, 4)] seconds, at most five minutes *)
Definition retry_delay (attempts : Z) : Z := Z.min 300 (15 * 2 ^ Z.min (attempts - 1) 4).

Definition conclude_reserve (id now : Z) (outcome : string) : Tx () :=
  r ← reservation_row id;
  if negb (holds (rv_status r)) then mret ()
  else
    update_reservation id (λ r,
      if refused outcome then set_rv_status rv_rejected r
      else if bool_decide (rv_cancel_requested_at r = None)
           then set_rv_status (if bool_decide (outcome = "Accepted") then rv_active else rv_uncertain) r else r);;
    when (bool_decide (outcome = "Accepted") && bool_decide (rv_activated_at r = None))
      (update_reservation id (set_rv_activated_at (Some now)));;
    update_reservation id (λ r, set_rv_updated_at now (set_rv_outcome (Some outcome) r));;
    event id "reserve_outcome" now [("outcome", JStr outcome)].

Definition conclude_cancel (command_id id now : Z) (outcome : string) : Tx () :=
  if bool_decide (outcome = "Accepted") then
    update_command command_id (set_rm_status rm_done);;
    r ← reservation_row id;
    when (holds (rv_status r)) (
      update_reservation id (λ r, set_rv_updated_at now (set_rv_outcome (Some outcome)
        (set_rv_status (if bool_decide (rv_cancel_reason r = Some "expired") then rv_expired else rv_cancelled) r)));;
      event id "release_confirmed" now [])
  else
    update_command command_id (λ c,
      set_rm_next_attempt_at (now + seconds (retry_delay (rm_attempts c))) (set_rm_status rm_queued c));;
    r ← reservation_row id;
    when (holds (rv_status r))
      (update_reservation id (λ r, set_rv_updated_at now (set_rv_outcome (Some outcome) r))).

(** The second transaction of [deliver], with the outcome of the call. *)
Definition deliver (d : Delivery) (outcome : string) : Tx () :=
  savepoint (
    reg ← gets (λ db, reservations db !! dl_reservation_id d);
    match reg with
    | None => mret ()
    | Some r =>
        lock_target (rv_connector_id r);;
        c ← gets (λ db, reservation_commands db !! dl_command_id d);
        command ← some_or c AssertionError;
        if negb (bool_decide (rm_lease_token command = Some (dl_token d))) then mret ()
        else
          now ← gets db_now;
          update_command (dl_command_id d) (λ c,
            set_rm_lease_token None (set_rm_locked_until None (set_rm_outcome (Some outcome) c)));;
          match dl_action d with
          | ReserveNow =>
              update_command (dl_command_id d) (set_rm_status
                (if refused outcome || bool_decide (outcome = "Accepted") then rm_done else rm_uncertain));;
              conclude_reserve (dl_reservation_id d) now outcome
          | CancelReservation => conclude_cancel (dl_command_id d) (dl_reservation_id d) now outcome
          end
    end).

(** ** Reconciliation *)

(** A lease that ran out: a reserve stays uncertain, a cancel is sent again. *)
Definition expire_lease (id now : Z) (c : ReservationCommand) : Tx () :=
  when (bool_decide (rm_status c = rm_sending) &&
        match rm_locked_until c with Some t => t <=? now | None => false end) (
    update_command (rm_id c) (λ c, set_rm_next_attempt_at now
      (set_rm_status (match rm_action c with ReserveNow => rm_uncertain | CancelReservation => rm_queued end)
        (set_rm_outcome (Some "lease_expired") (set_rm_locked_until None (set_rm_lease_token None c)))));;
    r ← reservation_row id;
    when (bool_decide (rm_action c = ReserveNow) && bool_decide (rv_status r = rv_pending)) (
      update_reservation id (λ r, set_rv_updated_at now (set_rv_outcome (Some "lease_expired") (set_rv_status rv_uncertain r)));;
      event id "uncertain" now [])).

(** The connector is free again: a source-ordered [Available] after the expiry. *)
Definition release_observed (point : ChargePoint) (connector : Connector) (r : Reservation) (now : Z) : bool :=
  (rv_expires_at r + seconds 30 <=? now) && live point now &&
  bool_decide (cn_status connector = "Available") && bool_decide (cn_raw_ocpp_status connector = Some "Available") &&
  match cn_last_status_notification_at connector with
  | Some t => (rv_expires_at r <=? t) && (t <=? now + seconds 30)
  | None => false
  end && (rv_expires_at r <=? cn_status_updated_at connector).

Definition commands_of (id : Z) (db : Db) : list ReservationCommand :=
  filter (λ c, rm_reservation_id c = id) (rows (reservation_commands db)).

Definition reconcile (boot_accepted : bool) (id : Z) : Tx () :=
  savepoint (
    reg ← gets (λ db, reservations db !! id);
    match reg with
    | None => mret ()
    | Some r =>
        target ← lock_target (rv_connector_id r);
        let '(point, connector, station) := target in
        if negb (holds (rv_status r)) then mret ()
        else
          now ← gets db_now;
          observe_expiry id point station boot_accepted now;;
          commands ← gets (commands_of id);
          when (match cp_last_boot_at point with Some t => rv_created_at r <? t | None => false end &&
                bool_decide (rv_status r = rv_active)) (
            update_reservation id (λ r, set_rv_updated_at now (set_rv_outcome (Some "charger_reboot") (set_rv_status rv_uncertain r)));;
            event id "uncertain" now [("outcome", JStr "charger_reboot")]);;
          for_each commands (expire_lease id now);;
          (if negb (bool_decide (st_status station = "active")) then request_release id now "station_unavailable" None
           else when (rv_expires_at r <=? now) (request_release id now "expired" None));;
          when (release_observed point connector r now) (
            occupied ← gets (λ db, select_where (occupies (cn_id connector)) (charging_sessions db));
            when (bool_decide (occupied = None)) (
              update_reservation id (λ r, set_rv_updated_at now (set_rv_outcome (Some "expiry_observed")
                (set_rv_status (if rv_no_show_exempt r then rv_cancelled else rv_expired) r)));;
              for_each commands (λ c, update_command (rm_id c) (λ c,
                if bool_decide (rm_status c = rm_queued) then set_rm_status rm_suppressed c else c));;
              event id "expiry_observed" now []))
    end).
