(* ===== verification/Privacy.v ===== *)
(** * Privacy: requests to be forgotten

    Models [src/src/modules/privacy/service.py], [executor.py], the passes of
    [worker.py], the checks of [schemas.py], the handlers of [router.py], the
    gates and the stages of [migrations/versions/l170028a2026_privacy_execution.sql]. The
    statements that move a person's rows to an anonymous subject are a
    parameter of the executor. Times strictly grow along the audit log, so its
    last line is the newest. *)

From S2P Require Import Prelude Clock Text Store AuditTrail Wallet WalletAdmin Topup Pricing PowerSchedule PowerControl Access Reservations Identity ReservationWorker.

Definition VERSION : string := "CSMS-PRIVACY-2026-01".

Section privacy.
Context {env : AuthEnv}.

(** ** Holds *)

(** A transaction that is not over, or not settled. *)
Definition unsettled (user_id : Z) (c : ChargingSession) : bool :=
  bool_decide (cs_driver_id c = Some user_id) &&
  (bool_decide (cs_ended_at c = None) || bool_decide (cs_settlement_completed_at c = None)).

Definition hold_rows (user_id : Z) (db : Db) : list AuditLog :=
  filter (λ a, al_object_type a = "user"%string ∧ al_object_id a = uuid_str user_id ∧ al_action a = "privacy.legal_hold"%string)
    (audit_logs db).

(** [str(value)] of what the log holds under "reason" *)
Definition hold_reason (data : list (string * Json)) : string :=
  match field "reason" data with
  | Some (JStr s) => s
  | Some JNull => "None"
  | Some (JInt n) => str_int n
  | Some (JBool b) => if b then "True" else "False"
  | _ => "Tài khoản đang bị tạm giữ pháp lý"
  end.

(** The flag is a JSON boolean, as [set_legal_hold] writes it. *)
Definition on_hold (data : list (string * Json)) : bool :=
  match field "hold" data with Some (JBool b) => b | _ => false end.

Definition check_legal_hold (user_id : Z) (db : Db) : bool * option string :=
  if bool_decide (is_Some (select_where (unsettled user_id) (charging_sessions db)))
  then (true, Some "Người dùng đang có phiên sạc đang hoạt động hoặc chưa hoàn tất quyết toán"%string)
  else match last (hold_rows user_id db) with
       | Some row => if on_hold (al_data row) then (true, Some (hold_reason (al_data row))) else (false, None)
       | None => (false, None)
       end.

Definition _lock_user (user_id : Z) : Tx UserRow := get_user user_id.

Definition set_legal_hold (user_id : Z) (hold : bool) (reason : string) (actor_id : Z) (authorization : option Evidence)
  : Tx (bool * option string) :=
  savepoint (
    user ← _lock_user user_id;
    raise_if (bool_decide (u_status user = "anonymized")) (HTTPException 409);;
    ghi_nhat_ky (Some actor_id) "privacy.legal_hold" "user" (uuid_str user_id)
      [("hold", JBool hold); ("reason", JStr reason)]
      (Some (match authorization with Some e => ev_permission e | None => "admin.privacy.manage" end))
      (ev_roles <$> authorization);;
    mret (hold, if hold then Some reason else None)).

(** ** Requests *)

(** [PrivacyReceipt]: what is shown of a request. *)
Record Receipt := mkReceipt {
  re_id : Z; re_user_id : Z; re_status : string; re_reason : string; re_created_at : Z; re_reviewed_at : option Z;
  re_decision_reason : option string; re_policy_version : option string; re_wallet_balance_vnd : option Z;
  re_blockers : list string; re_execution_status : string; re_checkpoint : Z; re_last_error : option string
}.

Definition job_of (request_id : Z) (db : Db) : option PrivacyJob :=
  select_where (λ j, pj_request_id j =? request_id) (privacy_jobs db).

Definition cable_open (user_id : Z) (c : ChargingSession) : bool :=
  bool_decide (cs_driver_id c = Some user_id) && bool_decide (cs_connector_released_at c = None).

Definition booking_open (user_id : Z) (r : Reservation) : bool :=
  (rv_driver_id r =? user_id) && (holds (rv_status r) || bool_decide (rv_fee_decision r ∈ [fee_pending; fee_review])).

Definition blockers (q : PrivacyRequest) (db : Db) : list string :=
  let uid := pq_user_id q in
  (if negb (bool_decide (pq_policy_version q = Some VERSION)) && bool_decide (pq_status q = "approved")
   then ["approved_data_class_policy_required"] else []) ++
  (if bool_decide (pq_status q = "approved") then []
   else [if bool_decide (pq_status q = "pending") then "approval_required" else "request_rejected"]) ++
  (if (check_legal_hold uid db).1 then ["legal_hold_or_unsettled_charging"] else []) ++
  (if bool_decide (is_Some (select_where (cable_open uid) (charging_sessions db))) then ["connector_release_required"] else []) ++
  (if bool_decide (is_Some (select_where (booking_open uid) (reservations db))) then ["reservation_or_fee_pending"] else []) ++
  match wallet_of_driver uid db with
  | Some w => if w_balance_vnd w =? 0 then []
              else [if 0 <? w_balance_vnd w then "refund_required" else "debt_resolution_required"]
  | None => []
  end.

Definition _receipt (q : PrivacyRequest) (db : Db) : Receipt :=
  let job := job_of (pq_id q) db in
  mkReceipt (pq_id q) (pq_user_id q) (pq_status q) (pq_reason q) (pq_created_at q) (pq_reviewed_at q) (pq_decision_reason q)
    (pq_policy_version q) (w_balance_vnd <$> wallet_of_driver (pq_user_id q) db)
    (if bool_decide (pj_status <$> job = Some "completed"%string) then [] else blockers q db)
    (match job with Some j => pj_status j | None => "blocked" end) (match job with Some j => pj_checkpoint j | None => 0 end)
    (job ≫= pj_last_error).

Definition active_request (user_id : Z) (q : PrivacyRequest) : bool :=
  (pq_user_id q =? user_id) && bool_decide (pq_status q ∈ ["pending"; "approved"]).

Definition update_request (id : Z) (f : PrivacyRequest → PrivacyRequest) : Tx () :=
  modify (λ db, set_privacy_requests (alter f id (privacy_requests db)) db).

(** The wrong password is counted and committed before the refusal. *)
Definition create_request (user_id : Z) (password reason : string) : Tx Receipt :=
  user ← _lock_user user_id;
  now ← gets db_now;
  raise_if (negb (bool_decide (u_status user = "active")) || _is_locked_until (u_locked_until user) now) (HTTPException 403);;
  if negb (verify_password (u_password_hash user) password) then
    update_user user_id (fail_user now);; raise (HTTPException 403)
  else
    savepoint (
      update_user user_id (reset_user now);;
      found ← gets (λ db, select_where (active_request user_id) (privacy_requests db));
      request ← match found with
                | Some q => mret q
                | None =>
                    id ← fresh_id;
                    let q := mkPrivacyRequest id user_id reason "pending" now None None None None in
                    modify (λ db, set_privacy_requests (<[id := q]> (privacy_requests db)) db);;
                    ghi_nhat_ky (Some user_id) "privacy.request_created" "privacy_request" (uuid_str id)
                      [("status", JStr "pending")] (Some "driver.privacy.request"%string) (Some ["driver"%string]);;
                    mret q
                end;
      gets (_receipt request)).

(** [ORDER BY created_at DESC, id DESC LIMIT 100] *)
Definition newer_request (a b : PrivacyRequest) : Prop :=
  pq_created_at b < pq_created_at a ∨ pq_created_at b = pq_created_at a ∧ pq_id b ≤ pq_id a.
#[global] Instance newer_request_dec a b : Decision (newer_request a b).
Proof. unfold newer_request. apply _. Defined.

Definition list_requests (user_id : option Z) (db : Db) : list Receipt :=
  (λ q, _receipt q db) <$> take 100 (merge_sort newer_request
    (filter (λ q, match user_id with Some u => pq_user_id q =? u | None => true end = true) (rows (privacy_requests db)))).

Record ReviewDecision := mkDecision { de_decision : string; de_reason : string; de_policy_version : string }.

(** [PrivacyDecision]: the texts are stripped, then measured. *)
Definition stripped (lo hi : Z) (s : string) : option string :=
  let v := strip s in if (lo <=? text_len v) && (text_len v <=? hi) then Some v else None.

Definition valid_decision (d : ReviewDecision) : option ReviewDecision :=
  reason ← stripped 3 500 (de_reason d);
  version ← stripped 1 100 (de_policy_version d);
  if bool_decide (de_decision d ∈ ["approved"; "rejected"]) then Some (mkDecision (de_decision d) reason version) else None.

Definition get_request (request_id : Z) : Tx PrivacyRequest :=
  q ← gets (λ db, privacy_requests db !! request_id); some_or q (HTTPException 404).

(** The unique key on [privacy_jobs.request_id]. *)
Definition insert_job (request_id : Z) : Tx () :=
  dup ← gets (job_of request_id);
  raise_if (bool_decide (is_Some dup)) (IntegrityError "privacy_jobs_request_id_key");;
  now ← gets db_now;
  id ← fresh_id;
  modify (λ db, set_privacy_jobs (<[id := mkPrivacyJob id request_id "queued" 0 None now now]> (privacy_jobs db)) db).

Definition reviewed (d : ReviewDecision) (actor_id now : Z) (q : PrivacyRequest) : PrivacyRequest :=
  set_pq_reviewed_at (Some now) (set_pq_reviewer_id (Some actor_id) (set_pq_policy_version (Some (de_policy_version d))
    (set_pq_decision_reason (Some (de_reason d)) (set_pq_status (de_decision d) q)))).

Definition review_request (request_id : Z) (payload : ReviewDecision) (actor_id : Z) (authorization : Evidence) : Tx Receipt :=
  savepoint (
    request ← get_request request_id;
    raise_if (negb (bool_decide (pq_status request = "pending"))) (HTTPException 409);;
    raise_if (pq_user_id request =? actor_id) (HTTPException 409);;
    policies ← gets privacy_policies;
    let approved := bool_decide (de_decision payload = "approved") in
    raise_if (approved && (negb (bool_decide (de_policy_version payload = VERSION)) || negb (bool_decide (VERSION ∈ policies))))
      (HTTPException 409);;
    now ← gets db_now;
    update_request request_id (reviewed payload actor_id now);;
    when approved (insert_job request_id);;
    ghi_nhat_ky (Some actor_id) "privacy.request_reviewed" "privacy_request" (uuid_str request_id)
      [("status", JStr (de_decision payload)); ("policy_version", JStr (de_policy_version payload))]
      (Some (ev_permission authorization)) (Some (ev_roles authorization));;
    request ← get_request request_id;
    gets (_receipt request)).

(** ** Execution *)

Definition running (j : PrivacyJob) : bool := bool_decide (pj_status j ∈ ["queued"; "processing"; "completed"]).

(** [f"Xác nhận hoàn tiền bên ngoài: {reason}"[:500]] *)
Definition refund_reason (reason : string) : string := text_take 500 ("Xác nhận hoàn tiền bên ngoài: " +:+ reason).

Definition confirm_refund (w : Wallet) (actor_id user_id : Z) (authorization : Evidence) (reason : string)
    (external_refund_confirmed : bool) (expected_balance_vnd : option Z) : Tx () :=
  raise_if (negb external_refund_confirmed) (HTTPException 409);;
  raise_if (negb (bool_decide (expected_balance_vnd = Some (w_balance_vnd w)))) (HTTPException 409);;
  audit_id ← fresh_id;
  try_except (dieu_chinh_vi (w_id w) actor_id (- w_balance_vnd w) (refund_reason reason) audit_id;; mret ())
    (λ e, match e with WalletReconciliationError _ => Some (raise (HTTPException 409)) | _ => None end);;
  ghi_nhat_ky (Some actor_id) "privacy.external_refund_confirmed" "user" (uuid_str user_id)
    [("reason", JStr reason); ("amount_vnd", JInt (w_balance_vnd w)); ("method", JStr "external_manual")]
    (Some (ev_permission authorization)) (Some (ev_roles authorization));;
  mret ().

Definition requeue (request_id : Z) (job : option PrivacyJob) : Tx () :=
  match job with
  | None => insert_job request_id
  | Some j => when (bool_decide (pj_status j = "needs_review"))
      (modify (λ db, set_privacy_jobs (alter (λ j, set_pj_last_error None (set_pj_status "queued" j)) (pj_id j) (privacy_jobs db)) db))
  end.

Definition enqueue_execution (request_id actor_id : Z) (authorization : Evidence) (reason : string)
    (external_refund_confirmed : bool) (expected_balance_vnd : option Z) : Tx Receipt :=
  savepoint (
    job ← gets (job_of request_id);
    request ← get_request request_id;
    raise_if ((pq_user_id request =? actor_id) || negb (bool_decide (pq_status request = "approved")) ||
              negb (bool_decide (pq_policy_version request = Some VERSION))) (HTTPException 409);;
    _lock_user (pq_user_id request);;
    if match job with Some j => running j | None => false end then gets (_receipt request)
    else
      wallet ← gets (wallet_of_driver (pq_user_id request));
      receipt ← gets (_receipt request);
      raise_if (negb (bool_decide (filter (λ c, c ≠ "refund_required"%string) (re_blockers receipt) = []))) (HTTPException 409);;
      match wallet with
      | Some w => when (0 <? w_balance_vnd w)
          (confirm_refund w actor_id (pq_user_id request) authorization reason external_refund_confirmed expected_balance_vnd)
      | None => mret ()
      end;;
      requeue request_id job;;
      ghi_nhat_ky (Some actor_id) "privacy.execution_queued" "privacy_request" (uuid_str request_id)
        [("reason", JStr reason); ("policy_version", JStr VERSION)]
        (Some (ev_permission authorization)) (Some (ev_roles authorization));;
      gets (_receipt request)).

(** The old endpoint: it never changes an account. *)
Definition anonymize_user (confirm_phrase : string) : Tx () :=
  raise_if (negb (bool_decide (strip confirm_phrase = "CONFIRM_ANONYMIZE"))) (HTTPException 422);;
  raise (HTTPException 409).

(** The cleanup of expired rows is blocked: it only leaves a line in the log. *)
Definition run_retention_cleanup (actor_id : option Z) (permission : option string) : Tx Z :=
  savepoint (
    ghi_nhat_ky actor_id "system.retention_cleanup_blocked" "system" "retention"
      [("reason_code", JStr "retention_policy_unavailable"); ("total_deleted", JInt 0)]
      (Some (match permission with Some p => if bool_decide (p = "") then "admin.privacy.manage" else p
             | None => "admin.privacy.manage" end))
      None;;
    mret 0).

(** ** The routes *)

Definition privacy_view : Handler := Some (mkAccess "user" (Some "admin.privacy.view") (Some scope_all) ["admin"]).
Definition privacy_manage : Handler := Some (mkAccess "user" (Some "admin.privacy.manage") (Some scope_all) ["admin"]).
Definition privacy_own : Handler := Some (mkAccess "user" (Some "driver.privacy.request") (Some scope_own) ["driver"]).

Definition execute_retention_cleanup (token : option string) : Tx Z :=
  a ← admitted privacy_manage token; run_retention_cleanup (Some (ac_user_id a.1)) (Some (ev_permission a.2)).

(** [Field(min_length=3, max_length=500)] *)
Definition reason_field (reason : string) : bool := (3 <=? text_len reason) && (text_len reason <=? 500).

Definition anonymize_user_account (token : option string) (reason confirm_phrase : string) : Tx () :=
  admitted privacy_manage token;;
  raise_if (negb (reason_field reason)) (HTTPException 422);;
  anonymize_user confirm_phrase.

Definition get_account_legal_hold (token : option string) (user_id : Z) : Tx (bool * option string) :=
  admitted privacy_view token;; get_user user_id;; gets (check_legal_hold user_id).

Definition update_account_legal_hold (token : option string) (user_id : Z) (hold : bool) (reason : string)
  : Tx (bool * option string) :=
  a ← admitted privacy_manage token;
  raise_if (negb (reason_field reason)) (HTTPException 422);;
  set_legal_hold user_id hold reason (ac_user_id a.1) (Some a.2).

Definition driver_self_anonymize (token : option string) (current_password : string) (reason : option string) : Tx Receipt :=
  a ← admitted privacy_own token;
  raise_if (negb ((1 <=? text_len current_password) && (text_len current_password <=? 1024))) (HTTPException 422);;
  raise_if (match reason with Some r => 500 <? text_len r | None => false end) (HTTPException 422);;
  create_request (ac_user_id a.1) current_password
    (match reason with
     | Some r => if bool_decide (r = "") then "Yêu cầu xử lý dữ liệu cá nhân"%string else r
     | None => "Yêu cầu xử lý dữ liệu cá nhân"%string
     end).

Definition driver_privacy_requests (token : option string) : Tx (list Receipt) :=
  a ← admitted privacy_own token; gets (list_requests (Some (ac_user_id a.1))).

Definition admin_privacy_requests (token : option string) : Tx (list Receipt) :=
  admitted privacy_view token;; gets (list_requests None).

Definition review_privacy_request (token : option string) (request_id : Z) (payload : ReviewDecision) : Tx Receipt :=
  a ← admitted privacy_manage token;
  d ← some_or (valid_decision payload) (HTTPException 422);
  review_request request_id d (ac_user_id a.1) a.2.

(** [PrivacyExecutionPayload] *)
Record Execution := mkExecution {
  xp_external_refund_confirmed : bool; xp_expected_balance_vnd : option Z; xp_confirm_phrase : string; xp_reason : string
}.

Definition valid_execution (p : Execution) : option string :=
  if bool_decide (xp_confirm_phrase p = "EXECUTE_PRIVACY_REQUEST") &&
     match xp_expected_balance_vnd p with Some n => 0 <=? n | None => true end
  then stripped 3 500 (xp_reason p) else None.

Definition execute_privacy_request (token : option string) (request_id : Z) (payload : Execution) : Tx Receipt :=
  a ← admitted privacy_manage token;
  reason ← some_or (valid_execution payload) (HTTPException 422);
  enqueue_execution request_id (ac_user_id a.1) a.2 reason (xp_external_refund_confirmed payload) (xp_expected_balance_vnd payload).
End privacy.

(** ** The gates of the database *)

(** [EXISTS (SELECT 1 FROM t WHERE P)] *)
Definition mine {A} (P : A → bool) (t : gmap Z A) : bool := bool_decide (is_Some (select_where P t)).

(** [check_gates]: the first message it raises, if any. *)
Definition check_gates (job_id : Z) (db : Db) : option string :=
  match privacy_jobs db !! job_id ≫= λ j, privacy_requests db !! pj_request_id j with
  | None => Some "policy_or_approval_required"
  | Some q =>
      let uid := pq_user_id q in
      if negb (bool_decide (pq_status q = "approved")) ||
         match pq_policy_version q with Some v => negb (bool_decide (v ∈ privacy_policies db)) | None => true end
      then Some "policy_or_approval_required"
      else match users db !! uid with
      | None => Some "subject_not_active"
      | Some u =>
          if negb (bool_decide (u_status u ∈ ["active"; "pending_deletion"])) then Some "subject_not_active"
          else if existsb (λ c, negb (bool_decide (c = "driver"))) (u_roles u) || mine (λ s, st_owner_id s =? uid) (stations db)
          then Some "non_driver_obligations"
          else if mine (λ w, (w_driver_id w =? uid) && negb (w_balance_vnd w =? 0)) (wallets db)
          then Some "wallet_refund_or_debt_required"
          else if mine (λ c, unsettled uid c || cable_open uid c) (charging_sessions db) then Some "charging_or_cable_open"
          else if mine (λ r, (sr_driver_id r =? uid) && start_pending r) (driver_start_requests db) then Some "remote_start_open"
          else if mine (booking_open uid) (reservations db) then Some "reservation_or_fee_open"
          else if mine (λ t, (t_driver_id t =? uid) && bool_decide (t_status t = pending ∨ t_status t = needs_review)) (wallet_topups db)
          then Some "topup_open"
          else if match last (hold_rows uid db) with
                  | Some row => on_hold (al_data row) | None => false end
          then Some "legal_hold"
          else if mine (λ t, (t_driver_id t =? uid) && (contains (chars (uuid_str uid)) (chars (t_order_id t)) ||
                   contains (chars (lower (u_email u))) (chars (lower (default "" (t_gateway_transaction_id t)))))) (wallet_topups db)
          then Some "financial_reference_requires_review"
          else None
      end
  end.

(** ** The executor *)

Definition SAFE_CODES : list string :=
  ["wallet_refund_or_debt_required"; "charging_or_cable_open"; "remote_start_open"; "reservation_or_fee_open"; "topup_open";
   "legal_hold"; "non_driver_obligations"; "financial_reference_requires_review"; "subject_not_active"; "subject_collision"].

Definition safe_code (message : string) : string := if bool_decide (message ∈ SAFE_CODES) then message else "execution_failed".

(** [UPDATE privacy_jobs SET status='needs_review' ... WHERE id AND checkpoint<3] *)
Definition to_review (now : Z) (message : string) (j : PrivacyJob) : PrivacyJob :=
  if pj_checkpoint j <? 3 then
    set_pj_updated_at now (set_pj_last_error (Some (safe_code message)) (set_pj_status "needs_review" j))
  else j.

Section executor.
(** The statements of checkpoint 1 that move the person's rows to a new subject
    and blank what names the person: a new database or the message raised. *)
Context (redact : Z → Db → string + Db).

Definition set_job (job_id : Z) (f : PrivacyJob → PrivacyJob) (db : Db) : Db :=
  set_privacy_jobs (alter f job_id (privacy_jobs db)) db.

Definition freeze (uid : Z) (db : Db) : Db :=
  let now := db_now db in
  set_charging_cards ((λ c, if cc_driver_id c =? uid
      then mkCard (cc_id c) (cc_tag_hash c) (cc_tag_tail c) (cc_driver_id c) (cc_issuer_id c) "revoked" (cc_expires_at c)
      else c) <$> charging_cards db)
  (set_login_sessions ((λ s, if ss_user_id s =? uid then set_ss_revoked_at (Some (default now (ss_revoked_at s))) s else s)
      <$> login_sessions db)
  (set_users (alter (λ u, set_u_updated_at now (set_u_status "pending_deletion" u)) uid (users db)) db)).

Definition completed_line (q : PrivacyRequest) (db : Db) : Db :=
  audited (mkAuditLog (next_id db) None "privacy.request_completed" "privacy_request" (uuid_str (pq_id q))
    [("policy_version", from_option JStr JNull (pq_policy_version q)); ("financial_values_preserved", JBool true)]
    (Some "system.privacy.execute"%string) None) db.

(** [execute_stage]: one transaction, the checkpoint it reaches or the message
    it raises. *)
Definition execute_stage (job_id : Z) (db : Db) : (string + Z) * Db :=
  match privacy_jobs db !! job_id with
  | None => (inl "job_not_found"%string, db)
  | Some j =>
      if pj_checkpoint j =? 3 then (inr 3, db)
      else if bool_decide (pj_status j = "needs_review") then (inl "job_requires_review"%string, db)
      else match privacy_requests db !! pj_request_id j with
      | None => (inl "policy_or_approval_required"%string, db)
      | Some q =>
          let now := db_now db in
          match (if pj_checkpoint j <? 2 then check_gates job_id db else None) with
          | Some message => (inl message, db)
          | None =>
              if pj_checkpoint j =? 0 then
                (inr 1, set_job job_id (λ j, set_pj_updated_at now (set_pj_checkpoint 1 (set_pj_status "processing" j)))
                          (freeze (pq_user_id q) db))
              else if pj_checkpoint j =? 1 then
                match redact job_id (set_job job_id (set_pj_status "processing") db) with
                | inl message => (inl message, db)
                | inr db' => (inr 2, set_job job_id (λ j, set_pj_updated_at now (set_pj_last_error None (set_pj_checkpoint 2 j))) db')
                end
              else
                (inr 3, set_job job_id (λ j, set_pj_updated_at now (set_pj_last_error None (set_pj_checkpoint 3
                          (set_pj_status "completed" j)))) (completed_line q db))
          end
      end
  end.

(** The checkpoint reached, or the message of the stage that failed, whose
    transaction is undone. [None] when [fuel] runs out. *)
Fixpoint run_stages (fuel : nat) (job_id checkpoint : Z) (db : Db) : option ((string + Z) * Db) :=
  if checkpoint <? 3 then
    match fuel with
    | O => None
    | S fuel' =>
        match execute_stage job_id db with
        | (inl message, _) => Some (inl message, db)
        | (inr c, db') => run_stages fuel' job_id c db'
        end
    end
  else Some (inr checkpoint, db).

(** [locked]: whether the job's advisory lock was free. The result is [-1], the
    last checkpoint, or the exception that is raised again. *)
Definition execute_job (fuel : nat) (locked : bool) (job_id : Z) (db : Db) : option ((string + Z) * Db) :=
  if negb locked then Some (inr (-1), db)
  else
    let checkpoint := match privacy_jobs db !! job_id with Some j => pj_checkpoint j | None => 0 end in
    match run_stages fuel job_id checkpoint db with
    | None => None
    | Some (inr c, db') => Some (inr c, db')
    | Some (inl message, db') =>
        Some (inl message, set_privacy_jobs (alter (to_review (db_now db') message) job_id (privacy_jobs db')) db')
    end.

(** [ORDER BY created_at LIMIT 10] *)
Definition due_jobs (db : Db) : list Z :=
  pj_id <$> take 10 (sort_by pj_created_at (filter (λ j, bool_decide (pj_status j ∈ ["queued"; "processing"]) &&
    (pj_checkpoint j <? 3) = true) (rows (privacy_jobs db)))).

(** One pass of [privacy_execution_loop]: a job that raises does not stop the rest. *)
Fixpoint execute_each (fuel : nat) (ids : list Z) (db : Db) : option Db :=
  match ids with
  | [] => Some db
  | id :: ids' => match execute_job fuel true id db with Some (_, db') => execute_each fuel ids' db' | None => None end
  end.
Definition execution_pass (fuel : nat) (db : Db) : option Db := execute_each fuel (due_jobs db) db.
End executor.
