(* ===== verification/PrivacySpec.v ===== *)
(** * PrivacySpec: what erasing an account guarantees

    The gates the database checks against what the page of a request shows;
    the executor ends, and erases only behind those gates; the refund that
    comes first is exact and made once. *)

From S2P Require Import Prelude Clock Text Store AuditTrail Wallet WalletAdmin Topup Pricing PowerSchedule PowerControl Access Reservations Identity ReservationWorker Privacy.

(** ** Gates and blockers *)

Lemma mine_false {A} (P : A → bool) (t : gmap Z A) : mine P t = false ↔ ∀ k x, t !! k = Some x → P x = false.
Proof. unfold mine. rewrite bool_decide_eq_false, <- eq_None_not_Some. apply select_where_None. Qed.

Lemma if_nil {A} (b : bool) (x : A) l : (if b then x :: l else []) = [] ↔ b = false.
Proof. by destruct b. Qed.

Lemma if_none {A} (b : bool) (x : A) (o : option A) : (if b then Some x else o) = None ↔ b = false ∧ o = None.
Proof. destruct b; naive_solver. Qed.

(** What the gates ask beyond the page: the account is a driver's, still there,
    owns no station, waits for no start and no payment, and no payment's
    reference names the person. *)
Record erasable (uid : Z) (u : UserRow) (db : Db) : Prop := mkErasable {
  er_status : u_status u ∈ ["active"; "pending_deletion"]%string;
  er_roles : ∀ c, c ∈ u_roles u → c = "driver"%string;
  er_stations : ∀ k s, stations db !! k = Some s → st_owner_id s ≠ uid;
  er_starts : ∀ k r, driver_start_requests db !! k = Some r → sr_driver_id r = uid → start_pending r = false;
  er_topups : ∀ k t, wallet_topups db !! k = Some t → t_driver_id t = uid → t_status t ≠ pending ∧ t_status t ≠ needs_review;
  er_references : ∀ k t, wallet_topups db !! k = Some t → t_driver_id t = uid →
    contains (chars (uuid_str uid)) (chars (t_order_id t)) = false ∧
    contains (chars (lower (u_email u))) (chars (lower (default "" (t_gateway_transaction_id t)))) = false
}.

Lemma held_false uid db :
  (check_legal_hold uid db).1 = false ↔
  mine (unsettled uid) (charging_sessions db) = false ∧
  match last (hold_rows uid db) with Some row => on_hold (al_data row) | None => false end = false.
Proof.
  unfold check_legal_hold, mine. destruct (bool_decide _); [naive_solver|].
  destruct (last _) as [row|]; [destruct (on_hold _)|]; naive_solver.
Qed.

Lemma wallet_clear uid db :
  ledger_ok db →
  match wallet_of_driver uid db with
  | Some w => if w_balance_vnd w =? 0 then []
              else [if 0 <? w_balance_vnd w then "refund_required" else "debt_resolution_required"]
  | None => []
  end = ([] : list string) ↔
  mine (λ w, (w_driver_id w =? uid) && negb (w_balance_vnd w =? 0)) (wallets db) = false.
Proof.
  intros [Hh _]. rewrite mine_false. unfold wallet_of_driver. destruct (select_where _ _) as [w|] eqn:E.
  - apply select_where_Some in E as (k & Hk & Hd%Z.eqb_eq). split.
    + intros H k' w' Hk'. destruct (Z.eqb_spec (w_driver_id w') uid) as [Hd'|]; [|done].
      assert (k' = k) as -> by (apply (history_driver _ _ Hh _ _ _ _ Hk' Hk); congruence). rewrite Hk in Hk'. injection Hk' as <-.
      by destruct (w_balance_vnd w =? 0).
    + intros H. specialize (H _ _ Hk). rewrite Hd, Z.eqb_refl in H. by destruct (w_balance_vnd w =? 0).
  - rewrite select_where_None in E. split; [|done]. intros _ k w Hk. by rewrite (E _ _ Hk).
Qed.

Lemma blockers_nil q db :
  ledger_ok db →
  blockers q db = [] ↔
  pq_status q = "approved"%string ∧ pq_policy_version q = Some VERSION ∧
  mine (λ c, unsettled (pq_user_id q) c || cable_open (pq_user_id q) c) (charging_sessions db) = false ∧
  match last (hold_rows (pq_user_id q) db) with Some row => on_hold (al_data row) | None => false end = false ∧
  mine (booking_open (pq_user_id q)) (reservations db) = false ∧
  mine (λ w, (w_driver_id w =? pq_user_id q) && negb (w_balance_vnd w =? 0)) (wallets db) = false.
Proof.
  intros Hok. unfold blockers. rewrite !app_nil, !if_nil, held_false, (wallet_clear _ _ Hok).
  change (bool_decide (is_Some (select_where ?P ?t))) with (mine P t).
  assert (mine (λ c, unsettled (pq_user_id q) c || cable_open (pq_user_id q) c) (charging_sessions db) = false ↔
    mine (unsettled (pq_user_id q)) (charging_sessions db) = false ∧
    mine (cable_open (pq_user_id q)) (charging_sessions db) = false) as ->.
  { rewrite !mine_false. setoid_rewrite orb_false_iff. naive_solver. }
  destruct (decide (pq_status q = "approved"%string)) as [Hs|Hs].
  - rewrite (bool_decide_eq_true_2 _ Hs), andb_true_r, negb_false_iff, bool_decide_eq_true. naive_solver.
  - rewrite (bool_decide_eq_false_2 _ Hs). naive_solver.
Qed.

(** C30. The two lists of obstacles agree: when the only policy on file is the one
    the service knows, the gates the database checks before it erases an
    account pass exactly when the page of the request shows no blocker and the
    account is one that can go (a driver's, present, with no station, no
    pending start or payment and no payment reference that names the person).
    In particular no erasure starts while a blocker is shown. *)
Theorem gates_match_page job_id db j q u :
  ledger_ok db → privacy_policies db = [VERSION] →
  privacy_jobs db !! job_id = Some j → privacy_requests db !! pj_request_id j = Some q →
  users db !! pq_user_id q = Some u →
  check_gates job_id db = None ↔ blockers q db = [] ∧ erasable (pq_user_id q) u db.
Proof.
  intros Hok Hp Hj Hq Hu. rewrite (blockers_nil _ _ Hok). unfold check_gates. rewrite Hj. simpl. rewrite Hq, Hu, Hp.
  rewrite !if_none, !orb_false_iff, !negb_false_iff, !bool_decide_eq_true.
  assert ((match pq_policy_version q with Some v => negb (bool_decide (v ∈ [VERSION])) | None => true end) = false ↔
    pq_policy_version q = Some VERSION) as ->.
  { destruct (pq_policy_version q) as [v|]; [|done]. rewrite negb_false_iff, bool_decide_eq_true, list_elem_of_singleton. naive_solver. }
  assert (existsb (λ c, negb (bool_decide (c = "driver"%string))) (u_roles u) = false ↔ ∀ c, c ∈ u_roles u → c = "driver"%string) as ->.
  { rewrite <- not_true_iff_false, existsb_exists. setoid_rewrite <- list_elem_of_In. split.
    - intros H c Hc. destruct (decide (c = "driver"%string)); [done|]. exfalso. apply H. exists c. by rewrite bool_decide_eq_false_2.
    - intros H (c & Hc & Hn). by rewrite (H c Hc) in Hn. }
  rewrite (mine_false (λ s, st_owner_id s =? _)), (mine_false (λ r, (sr_driver_id r =? _) && _)), !(mine_false _ (wallet_topups db)).
  split.
  - intros ((Hs & Hv) & Hst & (Hr & Hso) & Hw & Hc & Hsr & Hb & Ht & Hh & Href & _). split; [by split_and!|].
    split; try done.
    + intros k s Hk. specialize (Hso k s Hk). lia.
    + intros k r Hk Hd. specialize (Hsr k r Hk). by rewrite Hd, Z.eqb_refl in Hsr.
    + intros k t Hk Hd. specialize (Ht k t Hk). rewrite Hd, Z.eqb_refl in Ht. apply bool_decide_eq_false in Ht. naive_solver.
    + intros k t Hk Hd. specialize (Href k t Hk). rewrite Hd, Z.eqb_refl in Href. by apply orb_false_iff in Href.
  - intros ((Hs & Hv & Hc & Hh & Hb & Hw) & [Hst Hr Hso Hsr Ht Href]). split_and!; try done.
    + intros k s Hk. specialize (Hso k s Hk). lia.
    + intros k r Hk. destruct (Z.eqb_spec (sr_driver_id r) (pq_user_id q)) as [Hd|]; [|done]. by apply (Hsr k).
    + intros k t Hk. destruct (Z.eqb_spec (t_driver_id t) (pq_user_id q)) as [Hd|]; [|done]. apply bool_decide_eq_false.
      specialize (Ht k t Hk Hd). naive_solver.
    + intros k t Hk. destruct (Z.eqb_spec (t_driver_id t) (pq_user_id q)) as [Hd|]; [|done]. by apply orb_false_iff, (Href k).
Qed.

(** ** The executor *)

(** What the table of jobs checks by itself. *)
Record jobs_ok (db : Db) : Prop := mkJobsOk {
  jo_id : ∀ k j, privacy_jobs db !! k = Some j → pj_id j = k;
  jo_checkpoint : ∀ k j, privacy_jobs db !! k = Some j → 0 ≤ pj_checkpoint j ≤ 3;
  jo_status : ∀ k j, privacy_jobs db !! k = Some j → pj_status j ∈ ["queued"; "processing"; "needs_review"; "completed"]%string;
  jo_request : ∀ k k' j j', privacy_jobs db !! k = Some j → privacy_jobs db !! k' = Some j' →
    pj_request_id j = pj_request_id j' → k = k';
  jo_fresh : ∀ k j, privacy_jobs db !! k = Some j → k < next_id db
}.

Definition completed (j : PrivacyJob) : Prop := pj_status j = "completed"%string ∧ pj_checkpoint j = 3.

Definition in_review (j : PrivacyJob) : Prop :=
  pj_status j = "needs_review"%string ∧ 0 ≤ pj_checkpoint j < 3 ∧
  ∃ code, pj_last_error j = Some code ∧ code ∈ "execution_failed"%string :: SAFE_CODES.

Definition settled (j : PrivacyJob) : Prop := completed j ∨ in_review j.

Section executor_facts.
Context (redact : Z → Db → string + Db).
(** None of the statements names [privacy_jobs]. *)
Context (redact_jobs : ∀ id db db', redact id db = inr db' → privacy_jobs db' = privacy_jobs db).

(** What a stage that succeeds does to its own job. *)
Definition advanced (j j' : PrivacyJob) : Prop :=
  pj_checkpoint j' = pj_checkpoint j + 1 ∧ (pj_checkpoint j' = 3 → pj_status j' = "completed"%string).

Lemma set_job_jobs id f db j : privacy_jobs db !! id = Some j → privacy_jobs (set_job id f db) = <[id := f j]> (privacy_jobs db).
Proof. intros H. simpl. by apply alter_as_insert. Qed.

Lemma execute_stage_step id db j r db' :
  privacy_jobs db !! id = Some j → 0 ≤ pj_checkpoint j < 3 → execute_stage redact id db = (r, db') →
  (∃ m, r = inl m) ∨
  (r = inr (pj_checkpoint j + 1) ∧ ∃ j', privacy_jobs db' = <[id := j']> (privacy_jobs db) ∧ advanced j j').
Proof.
  intros Hj Hc. unfold execute_stage. rewrite Hj. cbv zeta.
  destruct (Z.eqb_spec (pj_checkpoint j) 3); [lia|]. case_bool_decide; [intros [= <- _]; eauto|].
  destruct (privacy_requests db !! _) as [q|]; [|intros [= <- _]; eauto].
  destruct (if _ : bool then _ else _); [intros [= <- _]; eauto|].
  destruct (Z.eqb_spec (pj_checkpoint j) 0) as [H0|].
  { intros [= <- <-]. right. rewrite H0. split; [done|]. eexists. split; [by rewrite (set_job_jobs _ _ _ j)|].
    split; simpl; [by rewrite H0|done]. }
  destruct (Z.eqb_spec (pj_checkpoint j) 1) as [H1|].
  - destruct (redact _ _) as [m|db1] eqn:E; [intros [= <- _]; eauto|]. intros [= <- <-]. right. rewrite H1. split; [done|].
    apply redact_jobs in E. rewrite (set_job_jobs _ _ _ j Hj) in E.
    eexists. split.
    + rewrite (set_job_jobs _ _ _ (set_pj_status "processing" j)), E, insert_insert_eq; [done|]. rewrite E. apply lookup_insert_eq.
    + split; simpl; [by rewrite H1|done].
  - intros [= <- <-]. right. assert (pj_checkpoint j = 2) as H2 by lia. rewrite H2. split; [done|].
    eexists. split; [by rewrite (set_job_jobs _ _ _ j)|]. split; simpl; [by rewrite H2|done].
Qed.

Lemma run_stages_ends fuel id db j :
  privacy_jobs db !! id = Some j → 0 ≤ pj_checkpoint j ≤ 3 → 3 - pj_checkpoint j ≤ Z.of_nat fuel →
  ∃ r db' j', run_stages redact fuel id (pj_checkpoint j) db = Some (r, db') ∧
    privacy_jobs db' = <[id := j']> (privacy_jobs db) ∧
    match r with
    | inr c => c = 3 ∧ pj_checkpoint j' = 3 ∧ (pj_checkpoint j < 3 → pj_status j' = "completed"%string) ∧
               (pj_checkpoint j = 3 → j' = j)
    | inl _ => 0 ≤ pj_checkpoint j' < 3 ∧ pj_checkpoint j < 3
    end.
Proof.
  revert db j. induction fuel as [|fuel IH]; intros db j Hj Hc Hf; simpl; destruct (Z.ltb_spec (pj_checkpoint j) 3); try lia.
  1, 3: exists (inr (pj_checkpoint j)), db, j; split_and!; [done|by rewrite insert_id|lia|lia|lia|done].
  destruct (execute_stage redact id db) as [r db1] eqn:E.
  destruct (execute_stage_step _ _ _ _ _ Hj ltac:(lia) E) as [[m ->]|[-> (j1 & Hj1 & Ha & Hs)]].
  - eexists _, _, j. split_and!; [done|by rewrite insert_id|simpl; lia].
  - rewrite <- Ha. destruct (IH db1 j1) as (r & db2 & j2 & Hrun & Hj2 & Hr); [by rewrite Hj1, lookup_insert_eq|lia|lia|].
    exists r, db2, j2. split_and!; [done|by rewrite Hj2, Hj1, insert_insert_eq|].
    destruct r as [m|c]; [lia|]. destruct Hr as (-> & H3 & Hlt & Heq). split_and!; [done|done| |lia].
    intros _. destruct (Z.eq_dec (pj_checkpoint j1) 3) as [He|He]; [|apply Hlt; lia]. rewrite (Heq He). auto.
Qed.

Lemma safe_code_safe m : safe_code m ∈ "execution_failed"%string :: SAFE_CODES.
Proof. unfold safe_code. case_bool_decide; [by right|by left]. Qed.

Lemma execute_job_ends id db j :
  privacy_jobs db !! id = Some j → 0 ≤ pj_checkpoint j ≤ 3 →
  ∃ r db' j', execute_job redact 3 true id db = Some (r, db') ∧ privacy_jobs db' = <[id := j']> (privacy_jobs db) ∧
    (pj_checkpoint j = 3 → j' = j) ∧ (pj_checkpoint j < 3 → settled j').
Proof.
  intros Hj Hc. unfold execute_job. rewrite Hj. simpl negb. cbv iota zeta.
  destruct (run_stages_ends 3 id db j Hj Hc ltac:(lia)) as ([m|c] & db' & j' & -> & Hj' & Hr).
  - eexists _, _, _. split_and!; [done| | |].
    + simpl. rewrite (alter_as_insert _ _ _ _ (eq_trans (f_equal (.!! id) Hj') (lookup_insert_eq _ _ _))). by rewrite Hj', insert_insert_eq.
    + lia.
    + intros _. right. unfold to_review. destruct (Z.ltb_spec (pj_checkpoint j') 3); [|lia].
      split_and!; [done|simpl; lia|simpl; lia|]. eexists. split; [done|]. apply safe_code_safe.
  - destruct Hr as (-> & H3 & Hlt & Heq). eexists _, db', j'. split_and!; [done|done|done|]. intros H. left. split; auto.
Qed.

(** A job a pass may meet: it has stages left, or is settled. *)
Definition meets (db : Db) (id : Z) : Prop :=
  ∃ j, privacy_jobs db !! id = Some j ∧ (0 ≤ pj_checkpoint j < 3 ∨ settled j).

Definition done_with (db : Db) (id : Z) : Prop := ∃ j, privacy_jobs db !! id = Some j ∧ settled j.

Lemma settled_checkpoint j : settled j → 0 ≤ pj_checkpoint j ≤ 3.
Proof. intros [[_ ?]|(_ & ? & _)]; lia. Qed.

Lemma execute_job_meets id db : meets db id →
  ∃ r db', execute_job redact 3 true id db = Some (r, db') ∧ done_with db' id ∧
    (∀ k, k ≠ id → privacy_jobs db' !! k = privacy_jobs db !! k).
Proof.
  intros (j & Hj & Hm). assert (0 ≤ pj_checkpoint j ≤ 3) as Hc by (destruct Hm; [lia|by apply settled_checkpoint]).
  destruct (execute_job_ends id db j Hj Hc) as (r & db' & j' & Hrun & Hj' & H3 & Hlt).
  exists r, db'. split_and!; [done| |].
  - exists j'. split; [by rewrite Hj', lookup_insert_eq|]. destruct (Z.eq_dec (pj_checkpoint j) 3) as [He|]; [|apply Hlt; lia].
    rewrite (H3 He). destruct Hm; [lia|done].
  - intros k Hk. by rewrite Hj', lookup_insert_ne.
Qed.

Lemma execute_each_settles ids db : (∀ id, id ∈ ids → meets db id) →
  ∃ db', execute_each redact 3 ids db = Some db' ∧ (∀ id, id ∈ ids ∨ done_with db id → done_with db' id) ∧
    (∀ k, k ∉ ids → privacy_jobs db' !! k = privacy_jobs db !! k).
Proof.
  revert db. induction ids as [|id ids IH]; intros db Hm; simpl.
  { exists db. split_and!; [done| |done]. intros id [[]%elem_of_nil|?]; done. }
  destruct (execute_job_meets id db) as (r & db1 & -> & Hd & Hf); [apply Hm; by left|].
  assert (∀ k, meets db k → meets db1 k) as Hmk.
  { intros k (j & Hj & Hk). destruct (decide (k = id)) as [->|Hne]; [destruct Hd as (j' & ? & ?); exists j'; auto|].
    exists j. by rewrite Hf. }
  destruct (IH db1) as (db' & -> & Hall & Hrest); [intros k Hk; apply Hmk, Hm; by right|].
  exists db'. split_and!; [done| |].
  - intros k Hk. apply Hall. destruct (decide (k = id)) as [->|Hne]; [by right|].
    destruct Hk as [[?|?]%elem_of_cons|(j & Hj & Hs)]; [done|by left|]. right. exists j. by rewrite Hf.
  - intros k [Hne Hk]%not_elem_of_cons. by rewrite Hrest, Hf.
Qed.

Lemma elem_of_due db id : jobs_ok db → id ∈ due_jobs db →
  ∃ j, privacy_jobs db !! id = Some j ∧ pj_status j ∈ ["queued"; "processing"]%string ∧ 0 ≤ pj_checkpoint j < 3.
Proof.
  intros Hok (j & -> & Hj)%list_elem_of_fmap. apply elem_of_take in Hj as (i & Hi & _). apply list_elem_of_lookup_2 in Hi.
  rewrite sort_by_perm in Hi. apply list_elem_of_filter in Hi as [[Hs%bool_decide_eq_true Hc%Z.ltb_lt]%andb_true_iff Hr].
  apply elem_of_rows in Hr as (k & Hk). exists j. pose proof (jo_checkpoint _ Hok _ _ Hk).
  rewrite (jo_id _ Hok _ _ Hk). split_and!; [done|done|lia|lia].
Qed.

(** What the rewriting of the rows was applied to. *)
Definition behind_gates (id uid : Z) (db1 : Db) : Prop :=
  check_gates id db1 = None ∧
  u_status <$> users db1 !! uid = Some "pending_deletion"%string ∧
  (∀ k s, login_sessions db1 !! k = Some s → ss_user_id s = uid → is_Some (ss_revoked_at s)) ∧
  (∀ k c, charging_cards db1 !! k = Some c → cc_driver_id c = uid → cc_status c = "revoked"%string).

Lemma check_gates_set_job id f db :
  (∀ j, pj_request_id (f j) = pj_request_id j) → check_gates id (set_job id f db) = check_gates id db.
Proof.
  intros Hf. unfold check_gates, set_job. simpl. rewrite lookup_alter_eq.
  destruct (privacy_jobs db !! id); simpl; [by rewrite Hf|done].
Qed.

Lemma frozen_behind id uid u db :
  users db !! uid = Some u → check_gates id (freeze uid db) = None → behind_gates id uid (freeze uid db).
Proof.
  intros Hu Hg. split_and!; [done| | |]; simpl.
  - by rewrite lookup_alter_eq, Hu.
  - intros k s. rewrite lookup_fmap_Some. intros (s0 & <- & _). destruct (Z.eqb_spec (ss_user_id s0) uid); [by eexists|done].
  - intros k c. rewrite lookup_fmap_Some. intros (c0 & <- & _). destruct (Z.eqb_spec (cc_driver_id c0) uid); done.
Qed.

Lemma gates_user id db : check_gates id db = None →
  ∃ j q u, privacy_jobs db !! id = Some j ∧ privacy_requests db !! pj_request_id j = Some q ∧ users db !! pq_user_id q = Some u.
Proof.
  unfold check_gates. destruct (privacy_jobs db !! id) as [j|]; [|done]. simpl.
  destruct (privacy_requests db !! _) as [q|] eqn:Hq; [|done].
  destruct (_ || _); [done|]. destruct (users db !! _) as [u|] eqn:Hu; [|done]. eauto 10.
Qed.

(** The first stage of a job. *)
Lemma first_stage id db j r db' :
  privacy_jobs db !! id = Some j → pj_checkpoint j = 0 → execute_stage redact id db = (inr r, db') →
  r = 1 ∧ check_gates id db = None ∧ ∃ q f, privacy_requests db !! pj_request_id j = Some q ∧
    db' = set_job id f (freeze (pq_user_id q) db) ∧
    (∀ j, pj_request_id (f j) = pj_request_id j ∧ pj_checkpoint (f j) = 1 ∧ pj_status (f j) = "processing"%string).
Proof.
  intros Hj Hc. unfold execute_stage. rewrite Hj, Hc. simpl. case_bool_decide; [done|].
  destruct (privacy_requests db !! _) as [q|] eqn:Hq; [|done]. destruct (check_gates id db); [done|].
  intros [= <- <-]. split_and!; [done|done|]. eexists q, _. by split_and!.
Qed.

(** The second. *)
Lemma second_stage id db j r db' :
  privacy_jobs db !! id = Some j → pj_checkpoint j = 1 → execute_stage redact id db = (inr r, db') →
  check_gates id db = None ∧ ∃ db2, redact id (set_job id (set_pj_status "processing") db) = inr db2.
Proof.
  intros Hj Hc. unfold execute_stage. rewrite Hj, Hc. simpl. case_bool_decide; [done|].
  destruct (privacy_requests db !! _) as [q|] eqn:Hq; [|done]. destruct (check_gates id db); [done|].
  destruct (redact _ _) as [|db2]; [done|]. eauto.
Qed.
End executor_facts.

(** C32. A pass of the executor ends, and settles every job it took: whatever
    the state of the jobs, three stages per job are enough; each job that was
    due ends completed at the last checkpoint, or waits for a reviewer with an
    error code from the list that may be shown; the jobs that were not due are
    as before. *)
Theorem privacy_pass_settles redact db :
  (∀ id db db', redact id db = inr db' → privacy_jobs db' = privacy_jobs db) →
  jobs_ok db →
  ∃ db', execution_pass redact 3 db = Some db' ∧
    (∀ id, id ∈ due_jobs db → ∃ j, privacy_jobs db' !! id = Some j ∧ settled j) ∧
    (∀ id, id ∉ due_jobs db → privacy_jobs db' !! id = privacy_jobs db !! id).
Proof.
  intros Hr Hok. destruct (execute_each_settles redact Hr (due_jobs db) db) as (db' & Hrun & Hd & Hf).
  - intros id (j & Hj & _ & Hc)%elem_of_due; [|done]. exists j. auto.
  - exists db'. split_and!; [done| |done]. intros id Hid. apply Hd. by left.
Qed.


(** ** The refund *)

(** The tables a request to execute reads are the same. *)
Definition same_privacy (db db' : Db) : Prop :=
  privacy_jobs db' = privacy_jobs db ∧ privacy_requests db' = privacy_requests db ∧ users db' = users db ∧ next_id db ≤ next_id db'.

Lemma same_privacy_refl db : same_privacy db db.
Proof. by split_and!. Qed.

(** One entry of [amount] is posted to wallet [w], which moves by it. *)
Definition paid_out (w : Wallet) (amount : Z) (db db' : Db) : Prop :=
  ∃ row, wallet_ledger db' = wallet_ledger db ++ [row] ∧ l_wallet_id row = w_id w ∧ l_amount_vnd row = amount ∧
    wallets db' = alter (set_w_balance_vnd (w_balance_vnd w + amount)) (w_id w) (wallets db).

Lemma pure_evidence a p : pure_tx (_evidence a p).
Proof. unfold _evidence. auto 20 with csms. Qed.
#[export] Hint Resolve pure_evidence : csms.

Lemma dieu_chinh_vi_moves w actor amount reason aid db row db' :
  wallets db !! w_id w = Some w → wallet_audits db !! aid = None →
  dieu_chinh_vi (w_id w) actor amount reason aid db = (inr row, db') →
  same_privacy db db' ∧ paid_out w amount db db'.
Proof.
  intros Hw Ha H. unfold dieu_chinh_vi in H.
  tx_read H ev Hev. tx_read H v Hv. tx_read H g1 Hg1. tx_read H g2 Hg2. tx_read H w0 Hw0.
  apply lock_wallet_ok in Hw0. simplify_eq. rewrite bind_gets, Ha in H. tx_read H g3 Hg3. rewrite bind_gets in H.
  destruct (by_reference adjustment (uuid_str aid) db) as [e|] eqn:Hby.
  { apply bind_ok in H as (? & ? & ? & _). done. }
  unfold wallet_issues in H. rewrite bind_gets in H. destruct (wallet_issues_of db w) as [total issues].
  tx_read H g4 Hg4. tx_read H after Hafter. apply savepoint_ok in H. cbv zeta in H.
  apply bind_ok in H as ([] & db1 & Hins & H). unfold insert_wallet_audit in Hins. rewrite bind_gets in Hins.
  simpl in Hins. rewrite Ha in Hins. injection Hins as <-.
  apply bind_ok in H as (entry & db2 & Hpost & H).
  apply bind_ok in H as (? & db3 & [(ex & Hex & _)|(rs & p & _ & _ & _ & _ & _ & _ & ->)]%ghi_nhat_ky_cases & H); [done|].
  injection H as <- <-.
  apply ghi_so_cai_key in Hpost as (_ & Hwid & Ham & [[_ Hk]|(_ & -> & w2 & Hw2 & Hb)]).
  - rewrite uuid_str_strip in Hk. change (by_reference adjustment (uuid_str aid) db = Some entry) in Hk. congruence.
  - simpl in Hw2. rewrite Hw in Hw2. injection Hw2 as <-. split.
    + split_and!; try done. simpl. lia.
    + exists entry. split_and!; [done|done|done|]. simpl. by rewrite Hwid, Hb.
Qed.

Lemma confirm_refund_moves w actor uid ev reason conf expected db db' :
  wallets db !! w_id w = Some w → (∀ id a, wallet_audits db !! id = Some a → id < next_id db) →
  confirm_refund w actor uid ev reason conf expected db = (inr (), db') →
  conf = true ∧ expected = Some (w_balance_vnd w) ∧ same_privacy db db' ∧ paid_out w (- w_balance_vnd w) db db'.
Proof.
  intros Hw Ha H. unfold confirm_refund in H.
  apply bind_ok in H as ([] & ? & [Hc%negb_false_iff ->]%raise_if_inr & H).
  apply bind_ok in H as ([] & ? & [He%negb_false_iff%bool_decide_eq_true ->]%raise_if_inr & H).
  apply bind_ok in H as (aid & db1 & [= <- <-] & H). apply bind_ok in H as ([] & db2 & Hadj & H).
  apply try_ok in Hadj. 2: { intros [] k s1; try done. intros [= <-]. by eexists. }
  apply bind_ok in Hadj as (row & db3 & Hadj & [= <-]).
  apply dieu_chinh_vi_moves in Hadj as [(Hj & Hq & Hu & Hn) (row' & Hl & Hrow)]; [|done|].
  2: { simpl. destruct (wallet_audits db !! next_id db) eqn:E; [|done]. specialize (Ha _ _ E). lia. }
  apply bind_ok in H as (? & db4 & [(ex & Hex & _)|(rs & p & _ & _ & _ & _ & _ & _ & ->)]%ghi_nhat_ky_cases & H); [done|].
  injection H as <-. split_and!; [done|done| |].
  - split_and!; simpl in *; try done. lia.
  - exists row'. by split.
Qed.

Lemma job_of_unique rid db k j : jobs_ok db → privacy_jobs db !! k = Some j → pj_request_id j = rid → job_of rid db = Some j.
Proof.
  intros Hok Hk <-. apply (select_where_unique _ _ k); [done|by rewrite Z.eqb_refl|].
  intros k' y Hy Heq%Z.eqb_eq. rewrite (jo_request _ Hok _ _ _ _ Hy Hk Heq) in Hy. congruence.
Qed.

Lemma job_of_inv rid db j : jobs_ok db → job_of rid db = Some j → privacy_jobs db !! pj_id j = Some j ∧ pj_request_id j = rid.
Proof. intros Hok (k & Hk & Hr%Z.eqb_eq)%select_where_Some. by rewrite (jo_id _ Hok _ _ Hk). Qed.

(** The job is queued, and nothing else of what matters here moves. *)
Lemma requeue_queues rid db db1 db' :
  jobs_ok db → same_privacy db db1 → match job_of rid db with Some j => running j | None => false end = false →
  requeue rid (job_of rid db) db1 = (inr (), db') →
  (∃ j, job_of rid db' = Some j ∧ pj_status j = "queued"%string) ∧
  wallets db' = wallets db1 ∧ wallet_ledger db' = wallet_ledger db1.
Proof.
  intros Hok (Hj & _ & _ & Hn) Hrun. unfold requeue. destruct (job_of rid db) as [j|] eqn:E; intros H.
  - apply job_of_inv in E as [Hk Hr]; [|done].
    assert (pj_status j = "needs_review"%string) as Hs.
    { apply bool_decide_eq_false in Hrun. pose proof (jo_status _ Hok _ _ Hk). set_solver. }
    rewrite Hs in H. injection H as <-. split; [|done].
    rewrite <- Hj in Hk. eexists. split; [|shelve]. apply (select_where_unique _ _ (pj_id j)).
    + simpl. by rewrite lookup_alter_eq, Hk.
    + simpl. by rewrite Hr, Z.eqb_refl.
    + simpl. intros k' y Hy Heq%Z.eqb_eq. destruct (decide (k' = pj_id j)) as [->|Hne].
      * rewrite lookup_alter_eq, Hk in Hy. by injection Hy as <-.
      * rewrite lookup_alter_ne, Hj in Hy by done. rewrite Hj in Hk. exfalso. apply Hne.
        apply (jo_request _ Hok _ _ _ _ Hy Hk). congruence.
    Unshelve. done.
  - unfold insert_job in H. rewrite bind_gets in H. assert (job_of rid db1 = None) as Hnone by (unfold job_of in *; by rewrite Hj).
    rewrite Hnone, bool_decide_eq_false_2 in H by (by intros [? ?]).
    injection H as <-. split; [|done]. eexists. split; [|shelve]. apply (select_where_unique _ _ (next_id db1)).
    + simpl. by rewrite lookup_insert_eq.
    + simpl. by rewrite Z.eqb_refl.
    + simpl. intros k' y Hy Heq. unfold job_of in Hnone. rewrite select_where_None in Hnone.
      apply lookup_insert_Some in Hy as [[_ <-]|[_ Hy]]; [done|]. rewrite (Hnone _ _ Hy) in Heq. done.
    Unshelve. done.
Qed.

Lemma debt_blocks q db w : wallet_of_driver (pq_user_id q) db = Some w → w_balance_vnd w < 0 →
  "debt_resolution_required"%string ∈ blockers q db.
Proof.
  intros Hw Hneg. unfold blockers. rewrite Hw, !elem_of_app. repeat right.
  destruct (Z.eqb_spec (w_balance_vnd w) 0); [lia|]. destruct (Z.ltb_spec 0 (w_balance_vnd w)); [lia|]. by left.
Qed.

Section refund.
Context (rid actor : Z) (ev : Evidence) (reason : string) (conf : bool) (expected : option Z).

(** A job that runs is left alone, whoever asks. *)
Lemma enqueue_running db j :
  job_of rid db = Some j → running j = true → (enqueue_execution rid actor ev reason conf expected db).2 = db.
Proof.
  intros Hj Hr. destruct (enqueue_execution _ _ _ _ _ _ db) as [r db'] eqn:H. simpl.
  apply savepoint_cases in H as [(e & _ & ->)|(a & _ & H)]; [done|].
  rewrite bind_gets, Hj in H. cbv iota in H. rewrite Hr in H.
  apply bind_ok in H as (q & db1 & Hq & H). unfold get_request in Hq. rewrite bind_gets in Hq. apply some_or_inr in Hq as [_ ->].
  apply bind_ok in H as ([] & db1 & [_ ->]%raise_if_inr & H).
  apply bind_ok in H as (u & db1 & Hu & H). unfold _lock_user, get_user in Hu. rewrite bind_gets in Hu. apply some_or_inr in Hu as [_ ->].
  by injection H as _ <-.
Qed.

Lemma keeps_confirm_refund w uid : keeps ledger_ok (confirm_refund w actor uid ev reason conf expected).
Proof.
  unfold confirm_refund. keeps_steps. apply keeps_try; [keeps_steps|]. intros [] k; try done. intros [= <-]. keeps_steps.
Qed.
#[local] Hint Resolve keeps_confirm_refund : csms_keeps.

Lemma keeps_enqueue : keeps ledger_ok (enqueue_execution rid actor ev reason conf expected).
Proof. unfold enqueue_execution, get_request, _lock_user, get_user, requeue, insert_job. keeps_steps. Qed.

(** What a request that was not running yet does when it is accepted. *)
Lemma enqueue_refunds db q w receipt db' :
  ledger_ok db → jobs_ok db → (∀ id a, wallet_audits db !! id = Some a → id < next_id db) →
  privacy_requests db !! rid = Some q → pq_id q = rid → wallet_of_driver (pq_user_id q) db = Some w →
  match job_of rid db with Some j => running j | None => false end = false →
  enqueue_execution rid actor ev reason conf expected db = (inr receipt, db') →
  actor ≠ pq_user_id q ∧ 0 ≤ w_balance_vnd w ∧
  (∃ j, job_of rid db' = Some j ∧ pj_status j = "queued"%string) ∧
  (w_balance_vnd w = 0 ∧ wallet_ledger db' = wallet_ledger db ∧ wallets db' = wallets db ∨
   conf = true ∧ expected = Some (w_balance_vnd w) ∧ paid_out w (- w_balance_vnd w) db db').
Proof.
  intros Hok Hjobs Haud Hq Hjq Hw Hrun H. apply savepoint_ok in H. rewrite bind_gets in H.
  apply bind_ok in H as (q0 & db1 & Hq0 & H). unfold get_request in Hq0. rewrite bind_gets, Hq in Hq0. injection Hq0 as <- <-.
  apply bind_ok in H as ([] & db1 & [[[Hact _]%orb_false_iff _]%orb_false_iff ->]%raise_if_inr & H).
  apply bind_ok in H as (u & db1 & Hu & H). unfold _lock_user, get_user in Hu. rewrite bind_gets in Hu. apply some_or_inr in Hu as [_ ->].
  rewrite Hrun in H. rewrite !bind_gets, Hw in H.
  apply bind_ok in H as ([] & db1 & [Hb%negb_false_iff%bool_decide_eq_true ->]%raise_if_inr & H).
  assert (0 ≤ w_balance_vnd w) as Hpos.
  { apply Z.nlt_ge. intros Hneg. apply (debt_blocks q db w Hw) in Hneg.
    assert ("debt_resolution_required"%string ∈ re_blockers (_receipt q db)) as Hin.
    { unfold _receipt. simpl. rewrite bool_decide_eq_false_2; [done|]. rewrite Hjq.
      destruct (job_of rid db) as [j|]; [|done]. intros [= Hs]. unfold running in Hrun. by rewrite Hs in Hrun. }
    assert ("debt_resolution_required"%string ∈ filter (λ c, c ≠ "refund_required"%string) (re_blockers (_receipt q db))) as Hf
      by (by apply list_elem_of_filter). rewrite Hb in Hf. by apply elem_of_nil in Hf. }
  apply bind_ok in H as ([] & db1 & Hpay & H). apply bind_ok in H as ([] & db2 & Hre & H).
  apply bind_ok in H as (a & db3 & [(ex & Hex & _)|(rs & p & _ & _ & _ & _ & _ & _ & ->)]%ghi_nhat_ky_cases & H); [done|].
  injection H as _ <-. unfold wallet_of_driver in Hw. apply select_where_Some in Hw as (k & Hk & _).
  pose proof (history_id _ _ (proj1 Hok) _ _ Hk) as Hid. rewrite <- Hid in Hk.
  split_and!; [lia|done| |]; destruct (Z.ltb_spec 0 (w_balance_vnd w)); simpl in Hpay.
  - apply confirm_refund_moves in Hpay as (_ & _ & Hs & _); [|done|done].
    by apply (requeue_queues rid db db1) in Hre as [Hjob _].
  - injection Hpay as <-. by apply (requeue_queues rid db db) in Hre as [Hjob _]; [|done|apply same_privacy_refl|done].
  - apply confirm_refund_moves in Hpay as (Hc & He & Hs & (row & Hl & Hrow)); [|done|done].
    apply (requeue_queues rid db db1) in Hre as (_ & Hw' & Hl'); [|done..].
    right. split_and!; [done|done|]. exists row. simpl. by rewrite Hl', Hw'.
  - injection Hpay as <-. apply (requeue_queues rid db db) in Hre as (_ & Hw' & Hl'); [|done|apply same_privacy_refl|done].
    left. split; [lia|done].
Qed.
End refund.


(** ** Examples *)

(** Driver 2 has 50000 in the wallet and asked to be forgotten; administrator 1
    approved, and the first run stopped at the balance. *)
Definition demo_file : PrivacyRequest :=
  mkPrivacyRequest 50 2 "bye" "approved" 0 (Some 1) (Some 0) (Some "ok"%string) (Some VERSION).
Definition demo_job : PrivacyJob := mkPrivacyJob 51 50 "needs_review" 0 (Some "wallet_refund_or_debt_required"%string) 0 0.

Definition demo_leaving : Db :=
  set_privacy_policies [VERSION] (set_privacy_requests {[ 50 := demo_file ]} (set_privacy_jobs {[ 51 := demo_job ]}
    (set_next_id 100 demo_topup_db))).

Definition demo_clerk : Evidence := mkEvidence "admin.privacy.manage" ["admin"%string].

Definition demo_refunded : Db := (enqueue_execution 50 1 demo_clerk "bank transfer" true (Some 50000) demo_leaving).2.

Lemma demo_leaving_books : ledger_ok demo_leaving.
Proof.
  assert (ledger_ok demo_topup_db) as H.
  { eapply (keeps_run ledger_ok); [apply (keeps_ghi_so_cai 10 gateway_topup 50000 "gateway_transaction" "gw-1" None)|exact demo_db_ok|].
    apply surjective_pairing. }
  exact H.
Qed.

Lemma one_job_ok db j :
  privacy_jobs db = {[ pj_id j := j ]} → 0 ≤ pj_checkpoint j ≤ 3 → pj_id j < next_id db →
  pj_status j ∈ ["queued"; "processing"; "needs_review"; "completed"]%string → jobs_ok db.
Proof.
  intros Heq Hc Hn Hs. assert (∀ k j', privacy_jobs db !! k = Some j' → k = pj_id j ∧ j' = j) as Hone.
  { intros k j' H. rewrite Heq in H. by apply lookup_singleton_Some in H as [-> ->]. }
  split.
  - by intros k j' [-> ->]%Hone.
  - by intros k j' [-> ->]%Hone.
  - by intros k j' [-> ->]%Hone.
  - by intros k k' j1 j2 [-> _]%Hone [-> _]%Hone.
  - by intros k j' [-> ->]%Hone.
Qed.

Lemma demo_refunded_books : ledger_ok demo_refunded.
Proof.
  eapply (keeps_run ledger_ok); [apply (keeps_enqueue 50 1 demo_clerk "bank transfer" true (Some 50000))|exact demo_leaving_books|].
  apply surjective_pairing.
Qed.

Definition demo_queued : PrivacyJob := set_pj_last_error None (set_pj_status "queued" demo_job).

Lemma demo_refunded_job : privacy_jobs demo_refunded = {[ 51 := demo_queued ]}.
Proof. vm_compute. reflexivity. Qed.

Lemma gates_match_page_witness :
  blockers demo_file demo_refunded = [] ∧
  (∀ k s, stations demo_refunded !! k = Some s → st_owner_id s ≠ 2).
Proof.
  destruct (gates_match_page 51 demo_refunded demo_queued demo_file (mkUser "active" ["driver"%string] "driver@example.com" "" 0 None 0 None 0)) as [H _].
  - exact demo_refunded_books.
  - reflexivity.
  - vm_compute. reflexivity.
  - vm_compute. reflexivity.
  - vm_compute. reflexivity.
  - destruct H as [Hb He]; [vm_compute; reflexivity|]. split; [exact Hb|exact (er_stations _ _ _ He)].
Defined.

Lemma privacy_pass_settles_witness :
  ∃ db', execution_pass (λ _ db, inr db) 3 demo_refunded = Some db' ∧ ∃ j, privacy_jobs db' !! 51 = Some j ∧ settled j.
Proof.
  destruct (privacy_pass_settles (λ _ db, inr db) demo_refunded) as (db' & Hrun & Hall & _).
  - by intros id db db' [= ->].
  - apply (one_job_ok demo_refunded demo_queued); [apply demo_refunded_job|vm_compute; split; discriminate|reflexivity|by left].
  - exists db'. split; [exact Hrun|]. apply Hall. vm_compute. by left.
Defined.

Definition demo_forgotten : Db :=
  match execute_job (λ _ db, inr db) 3 true 51 demo_refunded with Some (_, db) => db | None => demo_refunded end.


Lemma demo_refund :
  enqueue_execution 50 1 demo_clerk "bank transfer" true (Some 50000) demo_leaving = (inr (_receipt demo_file demo_refunded), demo_refunded).
Proof.
  assert ((enqueue_execution 50 1 demo_clerk "bank transfer" true (Some 50000) demo_leaving).1 = inr (_receipt demo_file demo_refunded)) as H
    by (vm_compute; reflexivity).
  unfold demo_refunded in *. by apply ran.
Qed.

