(* ===== verification/ReservationSpec.v ===== *)
(** * ReservationSpec: holds are exclusive, fees are charged once

    The invariant of the reservation tables, how a reservation may evolve, and
    the proof that every operation of [Reservations] and [ReservationWorker]
    respects both, in every interleaving. *)

From S2P Require Import Prelude Bands Clock Text Store AuditTrail Wallet Pricing Eligibility PowerSchedule PowerControl Reservations ReservationWorker.

(** ** The invariant *)

(** A reserve request is sent at most once. *)
Definition reserve_once (c : ReservationCommand) : Prop :=
  rm_action c = ReserveNow → 0 ≤ rm_attempts c ≤ 1 ∧ (rm_status c = rm_queued → rm_attempts c = 0).

Record reservations_ok (db : Db) : Prop := mkReservationsOk {
  res_keyed : ∀ k r, reservations db !! k = Some r → rv_id r = k;
  res_connector : ∀ k k' r r', reservations db !! k = Some r → reservations db !! k' = Some r' →
    holds (rv_status r) = true → holds (rv_status r') = true → rv_connector_id r = rv_connector_id r' → k = k';
  res_driver : ∀ k k' r r', reservations db !! k = Some r → reservations db !! k' = Some r' →
    holds (rv_status r) = true → holds (rv_status r') = true → rv_driver_id r = rv_driver_id r' → k = k';
  cmd_keyed : ∀ k c, reservation_commands db !! k = Some c → rm_id c = k;
  cmd_once : ∀ k c, reservation_commands db !! k = Some c → reserve_once c;
  cmd_fk : ∀ k c, reservation_commands db !! k = Some c → ∃ r, reservations db !! rm_reservation_id c = Some r ∧
    (rm_action c = CancelReservation → is_Some (rv_cancel_requested_at r));
  cmd_unique : ∀ k k' c c', reservation_commands db !! k = Some c → reservation_commands db !! k' = Some c' →
    rm_reservation_id c = rm_reservation_id c' → rm_action c = rm_action c' → k = k'
}.

(** What never changes about a reservation: who holds what, when, at which fee. *)
Definition terms (r : Reservation) : list Z := [rv_id r; rv_ocpp_id r; rv_driver_id r; rv_station_id r;
  rv_charge_point_id r; rv_connector_id r; rv_card_id r; rv_created_at r; rv_arrival_at r; rv_expires_at r;
  rv_fee_vnd r; rv_fee_policy_version r].

(** How a reservation evolves: its terms stay; once released it stays released,
    except that an expired one may still be consumed by a start made in time;
    a fee decision is never undone, a request to cancel never withdrawn. *)
Record evolves (r r' : Reservation) : Prop := mkEvolves {
  ev_terms : terms r' = terms r;
  ev_released : holds (rv_status r) = false →
    rv_status r' = rv_status r ∨ (rv_status r = rv_expired ∧ rv_status r' = rv_consumed);
  ev_decided : rv_fee_decision r ≠ fee_pending → rv_fee_decision r' ≠ fee_pending;
  ev_exempt : rv_fee_decision r = fee_legacy_exempt → rv_fee_decision r' = fee_legacy_exempt;
  ev_cancelled : is_Some (rv_cancel_requested_at r) → is_Some (rv_cancel_requested_at r');
  ev_charged : is_Some (rv_fee_ledger_id r) → is_Some (rv_fee_ledger_id r')
}.

#[export] Instance evolves_preorder : PreOrder evolves.
Proof.
  split.
  - intros r. split; auto.
  - intros r1 r2 r3 [A1 A2 A3 A4 A5 A6] [B1 B2 B3 B4 B5 B6]. split; [congruence| |auto..].
    intros H1. destruct (A2 H1) as [E|[E1 E2]].
    + rewrite E in B2. destruct (B2 H1) as [?|[? ?]]; [left; congruence|right; split; congruence].
    + rewrite E2 in B2. destruct (B2 eq_refl) as [?|[? ?]]; [right; split; congruence|congruence].
Qed.

Definition reservations_le (db db' : Db) : Prop :=
  ∀ k r, reservations db !! k = Some r → ∃ r', reservations db' !! k = Some r' ∧ evolves r r'.

#[export] Instance reservations_le_preorder : PreOrder reservations_le.
Proof.
  split; [intros db k r Hr; exists r; split; [done|reflexivity]|]. intros d1 d2 d3 H12 H23 k r Hr.
  destruct (H12 k r Hr) as (r2 & Hr2 & E2). destruct (H23 k r2 Hr2) as (r3 & Hr3 & E3).
  exists r3. split; [done|]. by etrans.
Qed.

(** ** Reasoning about a transaction *)

(** A command keeps its action and its reservation. *)
Definition commands_le (db db' : Db) : Prop :=
  ∀ k c, reservation_commands db !! k = Some c → ∃ c', reservation_commands db' !! k = Some c' ∧
    rm_action c' = rm_action c ∧ rm_reservation_id c' = rm_reservation_id c.

#[export] Instance commands_le_preorder : PreOrder commands_le.
Proof.
  split; [intros db k c Hc; by exists c|]. intros d1 d2 d3 H12 H23 k c Hc.
  destruct (H12 k c Hc) as (c2 & Hc2 & E2 & E2'). destruct (H23 k c2 Hc2) as (c3 & Hc3 & E3 & E3').
  exists c3. split; [done|]. split; congruence.
Qed.

Record good (db db' : Db) : Prop := mkGood {
  good_ok : reservations_ok db';
  good_rows : reservations_le db db';
  good_commands : commands_le db db'
}.

(** [hoare P m Q]: run from a database in order of which [P] holds, a successful
    [m] leaves one in order of which [Q] holds, and reservations only evolved. *)
Definition hoare {A} (P : Db → Prop) (m : Tx A) (Q : A → Db → Prop) : Prop :=
  ∀ db a db', reservations_ok db → P db → m db = (inr a, db') → good db db' ∧ Q a db'.

(** The reservation's row is [r], and [F] holds of the commands. *)
Definition known (id : Z) (r : Reservation) (F : gmap Z ReservationCommand → Prop) (db : Db) : Prop :=
  reservations db !! id = Some r ∧ F (reservation_commands db).

Lemma good_trans d1 d2 d3 : good d1 d2 → good d2 d3 → good d1 d3.
Proof. intros [_ H1 H2] [H3 H4 H5]. split; [done|by etrans|by etrans]. Qed.

Lemma good_same db db' :
  reservations_ok db → reservations db' = reservations db → reservation_commands db' = reservation_commands db → good db db'.
Proof.
  intros [K1 K2 K3 K4 K5 K6 K7] H1 H2. split; [split; rewrite ?H1, ?H2; done| |].
  - intros k r Hr. rewrite H1. exists r. split; [done|reflexivity].
  - intros k c Hc. rewrite H2. by exists c.
Qed.

(** A row evolves and holds nothing it did not hold. *)
Lemma good_update id f db db' :
  reservations_ok db → reservations db' = alter f id (reservations db) → reservation_commands db' = reservation_commands db →
  (∀ r, reservations db !! id = Some r → evolves r (f r)) → good db db'.
Proof.
  intros [K1 K2 K3 K4 K5 K6 K7] H1 H2 Hf.
  assert (∀ k r', reservations db' !! k = Some r' → ∃ r, reservations db !! k = Some r ∧ evolves r r') as Hback.
  { intros k r'. rewrite H1. destruct (decide (k = id)) as [->|Hne].
    - rewrite lookup_alter_eq. destruct (reservations db !! id) as [r|] eqn:Hr; [|done]. intros [= <-]. eauto.
    - rewrite lookup_alter_ne by done. intros Hr. exists r'. split; [done|reflexivity]. }
  assert (reservations_le db db') as Hle.
  { intros k r Hr. rewrite H1. destruct (decide (k = id)) as [->|Hne].
    - rewrite lookup_alter_eq, Hr. simpl. eauto.
    - rewrite lookup_alter_ne by done. exists r. split; [done|reflexivity]. }
  assert (∀ r r', evolves r r' → holds (rv_status r') = true → holds (rv_status r) = true) as Hh.
  { intros r r' E H. destruct (holds (rv_status r)) eqn:Er; [done|].
    destruct (ev_released _ _ E Er) as [Es|[Es1 Es2]]; [congruence|]. by rewrite Es2 in H. }
  assert (∀ r r', evolves r r' → rv_connector_id r' = rv_connector_id r ∧ rv_driver_id r' = rv_driver_id r ∧ rv_id r' = rv_id r)
    as Ht by (intros r r' [E _ _ _ _ _]; unfold terms in E; by simplify_eq).
  split; [split|done|intros k c Hc; rewrite H2; by exists c]; rewrite ?H2; try done.
  - intros k r' (r & Hr & E)%Hback. destruct (Ht _ _ E) as (_ & _ & ->). by apply K1.
  - intros k k' r1 r2 (s1 & Hs1 & E1)%Hback (s2 & Hs2 & E2)%Hback Hh1 Hh2.
    destruct (Ht _ _ E1) as (-> & _), (Ht _ _ E2) as (-> & _). apply K2; eauto.
  - intros k k' r1 r2 (s1 & Hs1 & E1)%Hback (s2 & Hs2 & E2)%Hback Hh1 Hh2.
    destruct (Ht _ _ E1) as (_ & -> & _), (Ht _ _ E2) as (_ & -> & _). apply K3; eauto.
  - intros k c Hc. destruct (K6 k c Hc) as (r & Hr & Hcan). destruct (Hle _ _ Hr) as (r' & Hr' & E).
    exists r'. split; [done|]. intros ?. by apply (ev_cancelled _ _ E), Hcan.
Qed.

(** A command moves on. *)
Lemma good_command k g db db' :
  reservations_ok db → reservation_commands db' = alter g k (reservation_commands db) → reservations db' = reservations db →
  (∀ c, reservation_commands db !! k = Some c → rm_id (g c) = rm_id c ∧ rm_reservation_id (g c) = rm_reservation_id c ∧
     rm_action (g c) = rm_action c ∧ reserve_once (g c)) → good db db'.
Proof.
  intros [K1 K2 K3 K4 K5 K6 K7] H1 H2 Hg.
  assert (∀ j c', reservation_commands db' !! j = Some c' → ∃ c, reservation_commands db !! j = Some c ∧
    rm_id c' = rm_id c ∧ rm_reservation_id c' = rm_reservation_id c ∧ rm_action c' = rm_action c ∧ reserve_once c') as Hback.
  { intros j c'. rewrite H1. destruct (decide (j = k)) as [->|Hne].
    - rewrite lookup_alter_eq. destruct (reservation_commands db !! k) as [c|] eqn:Hc; [|done]. intros [= <-].
      exists c. split; [done|]. by apply Hg.
    - rewrite lookup_alter_ne by done. intros Hc. exists c'. eauto 10. }
  split; [split; rewrite ?H2; try done| |].
  - intros j c' (c & Hc & -> & _)%Hback. by apply K4.
  - by intros j c' (c & Hc & _ & _ & _ & Ho)%Hback.
  - intros j c' (c & Hc & _ & -> & -> & _)%Hback. by apply (K6 j).
  - intros j j' c1 c2 (d1 & Hd1 & _ & -> & -> & _)%Hback (d2 & Hd2 & _ & -> & -> & _)%Hback. by apply K7.
  - intros j r Hr. rewrite H2. exists r. split; [done|reflexivity].
  - intros j c Hc. rewrite H1. destruct (decide (j = k)) as [->|Hne].
    + rewrite lookup_alter_eq, Hc. simpl. eexists. split; [done|]. by destruct (Hg c Hc) as (_ & ? & ? & _).
    + rewrite lookup_alter_ne by done. by exists c.
Qed.

(** A command is added, the only one of its kind for its reservation. *)
Lemma good_insert_command k id action now db db' :
  reservations_ok db → reservation_commands db !! k = None →
  reservation_commands db' = <[k := mkRCommand k id action rm_queued 0 now now None None None]> (reservation_commands db) →
  reservations db' = reservations db →
  (∃ r, reservations db !! id = Some r ∧ (action = CancelReservation → is_Some (rv_cancel_requested_at r))) →
  (∀ j c, reservation_commands db !! j = Some c → rm_reservation_id c = id → rm_action c ≠ action) → good db db'.
Proof.
  intros [K1 K2 K3 K4 K5 K6 K7] Hk H1 H2 Hr Hno. split; [split; rewrite ?H2; try done; rewrite H1| |].
  - by intros j c [[<- <-]|[_ Hc]]%lookup_insert_Some; [|apply K4].
  - intros j c [[<- <-]|[_ Hc]]%lookup_insert_Some; [|by eapply K5]. intros _. simpl. lia.
  - intros j c [[<- <-]|[_ Hc]]%lookup_insert_Some; [done|by apply (K6 j)].
  - intros j j' c c' [[<- <-]|[? Hc]]%lookup_insert_Some [[<- <-]|[? Hc']]%lookup_insert_Some; simpl;
      [done|intros ? ?; exfalso; by eapply Hno..|by apply K7].
  - intros j r Hj. rewrite H2. exists r. split; [done|reflexivity].
  - intros j c Hc. rewrite H1, lookup_insert_ne by congruence. by exists c.
Qed.

(** *** Rules *)

(** Reads nothing else than, and writes neither of, the two tables. *)
Definition quiet {A} (m : Tx A) : Prop := ∀ x y, keeps (λ db, reservations db = x ∧ reservation_commands db = y) m.

(** Assertions that depend on the two tables only. *)
Definition stable (P : Db → Prop) : Prop :=
  ∀ db db', reservations db' = reservations db → reservation_commands db' = reservation_commands db → P db → P db'.

Lemma h_bind {A B} P (m : Tx A) (k : A → Tx B) R Q :
  hoare P m R → (∀ a, hoare (R a) (k a) Q) → hoare P (m ≫= k) Q.
Proof.
  intros Hm Hk db b db' Hok HP (a & d1 & H1 & H2)%bind_ok. destruct (Hm db a d1 Hok HP H1) as [G1 HR].
  destruct (Hk a d1 b db' (good_ok _ _ G1) HR H2) as [G2 HQ]. split; [by eapply good_trans|done].
Qed.

Lemma h_pre {A} (P P' : Db → Prop) (m : Tx A) Q : (∀ db, P' db → P db) → hoare P m Q → hoare P' m Q.
Proof. intros H Hm db a db' Hok HP. apply Hm; auto. Qed.

Lemma h_post {A} P (m : Tx A) (Q Q' : A → Db → Prop) : (∀ a db, Q a db → Q' a db) → hoare P m Q → hoare P m Q'.
Proof. intros H Hm db a db' Hok HP E. destruct (Hm db a db' Hok HP E). auto. Qed.

Lemma h_exists {A X} (P : X → Db → Prop) (m : Tx A) Q : (∀ x, hoare (P x) m Q) → hoare (λ db, ∃ x, P x db) m Q.
Proof. intros H db a db' Hok [x HP]. by apply (H x). Qed.

Lemma h_prop {A} (X : Prop) P (m : Tx A) Q : (X → hoare P m Q) → hoare (λ db, X ∧ P db) m Q.
Proof. intros H db a db' Hok [HX HP]. by apply (H HX). Qed.

Lemma h_ret {A} P (a : A) (Q : A → Db → Prop) : (∀ db, P db → Q a db) → hoare P (mret a) Q.
Proof. intros H db b db' Hok HP [= <- <-]. split; [by apply good_same|auto]. Qed.

(** Reading a value that the rest depends on. *)
Lemma h_gets {A B} P (f : Db → A) (k : A → Tx B) Q :
  (∀ a, hoare (λ db, P db ∧ f db = a) (k a) Q) → hoare P (gets f ≫= k) Q.
Proof. intros H db b db' Hok HP. rewrite (bind_ok_step _ _ _ (f db) db) by done. by apply H. Qed.

Lemma h_read {A B} P (f : Db → A) (k : A → Tx B) Q : (∀ a, hoare P (k a) Q) → hoare P (gets f ≫= k) Q.
Proof. intros H. apply h_gets. intros a. eapply h_pre, H. by intros db [? _]. Qed.

Lemma h_raise_if {B} P b e (k : () → Tx B) Q : (b = false → hoare P (k ()) Q) → hoare P (raise_if b e ≫= k) Q.
Proof. intros H. eapply h_bind with (R := λ u db, P db ∧ b = false).
  - intros db [] db' Hok HP [Hb ->]%raise_if_inr. split; [by apply good_same|done].
  - intros [] db a db' Hok [HP Hb]. by apply H.
Qed.

Lemma h_some_or {A B} P (o : option A) e (k : A → Tx B) Q :
  (∀ a, o = Some a → hoare P (k a) Q) → hoare P (some_or o e ≫= k) Q.
Proof. intros H. eapply h_bind with (R := λ a db, P db ∧ o = Some a).
  - intros db a db' Hok HP [Ho ->]%some_or_inr. split; [by apply good_same|done].
  - intros a db b db' Hok [HP Ho]. by apply (H a).
Qed.

Lemma h_quiet {A} P (m : Tx A) : quiet m → stable P → hoare P m (λ _, P).
Proof.
  intros Hm HP db a db' Hok Hdb H. destruct (keeps_run _ m db (inr a) db' (Hm (reservations db) (reservation_commands db)))
    as [H1 H2]; [done|done|]. split; [by apply good_same|by eapply HP].
Qed.

Lemma h_when P b m (Q : () → Db → Prop) : (b = true → hoare P m Q) → (b = false → ∀ db, P db → Q () db) → hoare P (when b m) Q.
Proof. intros H1 H2. destruct b; [by apply H1|]. apply h_ret. auto. Qed.

Lemma h_savepoint {A} P (m : Tx A) Q : hoare P m Q → hoare P (savepoint m) Q.
Proof. intros Hm db a db' Hok HP H%savepoint_ok. by apply Hm. Qed.

Lemma h_row {B} P id (k : Reservation → Tx B) Q :
  (∀ r, hoare (λ db, P db ∧ reservations db !! id = Some r) (k r) Q) → hoare P (reservation_row id ≫= k) Q.
Proof.
  intros H. eapply h_bind, H. unfold reservation_row. intros db a db' Hok HP (o & d1 & [= <- <-] & [Ho ->]%some_or_inr)%bind_ok.
  split; [by apply good_same|done].
Qed.

Lemma h_row_known {B} id r F (k : Reservation → Tx B) Q :
  hoare (known id r F) (k r) Q → hoare (known id r F) (reservation_row id ≫= k) Q.
Proof. intros H. apply h_row. intros r' db a db' Hok [[Hr HF] Hr']. simplify_eq. by apply H. Qed.

Lemma h_update id f r r' F :
  r' = f r → evolves r r' → hoare (known id r F) (update_reservation id f) (λ _, known id r' F).
Proof.
  intros -> Hf db [] db' Hok [Hr HF] [= <-]. split.
  - apply (good_update id f db); [done..|]. intros r' Hr'. by simplify_eq.
  - split; [|done]. simpl. by rewrite lookup_alter_eq, Hr.
Qed.

Lemma stable_known id r F : stable (known id r F).
Proof. intros db db' H1 H2 [Hr HF]. split; congruence. Qed.
Lemma stable_and P Q : stable P → stable Q → stable (λ db, P db ∧ Q db).
Proof. intros HP HQ db db' H1 H2 [? ?]. split; [by eapply HP|by eapply HQ]. Qed.
Lemma stable_true : stable (λ _, True).
Proof. done. Qed.

(** ** The operations *)

#[export] Hint Extern 2 (keeps (λ _, reservations _ = _ ∧ _) (modify _)) => apply keeps_modify; by intros : csms_keeps.

Lemma quiet_fresh_id : quiet fresh_id.
Proof. intros x y. unfold fresh_id. keeps_steps. Qed.
Lemma quiet_event id a now d : quiet (event id a now d).
Proof. intros x y. unfold event, fresh_id. keeps_steps. Qed.
Lemma quiet_audit a b c d e f g : quiet (ghi_nhat_ky a b c d e f g).
Proof. intros x y. by apply keeps_audit. Qed.
Lemma quiet_ghi_so_cai wid et amount rt ref actor : quiet (ghi_so_cai wid et amount rt ref actor).
Proof.
  intros x y db H. destruct (ghi_so_cai _ _ _ _ _ _ db) as [r db'] eqn:E.
  apply ghi_so_cai_under_cases in E
    as [(? & _ & [-> | ->])|(row & w & _ & _ & _ & _ & _ & _ & [(-> & _)|(_ & _ & [(_ & _ & _ & ->)|(_ & _ & _ & ->)])])];
    done.
Qed.
Lemma quiet_pure {A} (m : Tx A) : pure_tx m → quiet m.
Proof. intros Hm x y db H. by rewrite (Hm db). Qed.
Lemma pure_lock_target cn : pure_tx (lock_target cn).
Proof. unfold lock_target. auto 20 with csms. Qed.
Lemma pure_reservation_row id : pure_tx (reservation_row id).
Proof. unfold reservation_row. auto with csms. Qed.
#[export] Hint Resolve pure_lock_target pure_reservation_row : csms.

Create HintDb csms_hoare.
#[export] Hint Resolve quiet_fresh_id quiet_event quiet_audit quiet_ghi_so_cai stable_known stable_and stable_true : csms_hoare.

(** One step through a quiet computation. *)
Ltac h_skip := eapply h_bind; [apply h_quiet; [first [solve [auto with csms_hoare]|apply quiet_pure; solve [auto with csms]]
  |solve [auto with csms_hoare]]|intros ?].

(** [evolves r (f r)] for a setter of columns that may change freely. *)
Ltac evolve := split; simpl; try done; naive_solver.
Ltac h_if := match goal with |- hoare _ (if ?b then _ else _) _ => destruct b eqn:? end.
Ltac h_set := eapply h_bind; [eapply h_update; [reflexivity|evolve]|intros ?].

Lemma evolves_fee d reason now r :
  d ≠ fee_pending → rv_fee_decision r ≠ fee_legacy_exempt → evolves r (fee_decided d reason now r).
Proof. intros Hd Hr. by split; simpl; auto. Qed.

(** A row after a fee decision, or with that decision already. *)
Definition fee_image (d : FeeDecision) (reason : string) (now : Z) (r r' : Reservation) : Prop :=
  r' = r ∧ rv_fee_decision r = d ∨ r' = fee_decided d reason now r.

Lemma h_decide id d reason now r F :
  d ≠ fee_pending → rv_fee_decision r ≠ fee_legacy_exempt →
  hoare (known id r F) (decide_fee id d reason now) (λ _ db, ∃ r', fee_image d reason now r r' ∧ known id r' F db).
Proof.
  intros Hd HR. unfold decide_fee. apply h_row_known.
  destruct (bool_decide (rv_fee_decision r = d) && _) eqn:E.
  - apply h_ret. intros db Hr. apply andb_true_iff in E as [E%bool_decide_eq_true _]. exists r. split; [by left|done].
  - apply h_read. intros w. eapply h_bind; [eapply h_update; [reflexivity|by apply evolves_fee]|]. intros u. h_skip. h_skip.
    apply h_ret. intros db Hr. eexists. split; [by right|done].
Qed.

(** The charger was reachable and the reservation active before it expired. *)
Definition verified_at_expiry (point : ChargePoint) (station : Station) (ba : bool) (now : Z) (r : Reservation) : Prop :=
  (∃ t, rv_activated_at r = Some t ∧ t < rv_expires_at r) ∧ st_status station = "active" ∧ live point now = true ∧ ba = true.

Lemma h_observe id point station ba now r F :
  hoare (known id r F) (observe_expiry id point station ba now)
    (λ _ db, ∃ b, known id (set_rv_expiry_fee_eligible b r) F db ∧
       (rv_fee_decision r = fee_pending → rv_expires_at r ≤ now → b = Some true → verified_at_expiry point station ba now r)).
Proof.
  assert (set_rv_expiry_fee_eligible (rv_expiry_fee_eligible r) r = r) as Heta by (by destruct r).
  unfold observe_expiry. apply h_row_known. destruct (negb _ || _) eqn:Hg.
  { apply h_ret. intros db Hdb. exists (rv_expiry_fee_eligible r). rewrite Heta. split; [done|]. intros Hp He. exfalso.
    rewrite Hp, bool_decide_eq_true_2 in Hg by done. simpl in Hg. lia. }
  apply h_read. intros cap. apply h_read. intros cn. set (eligible := _ && ba).
  assert (eligible = true → verified_at_expiry point station ba now r) as Hel.
  { unfold eligible. rewrite !andb_true_iff. intros ((((((((Ha & Hs) & Hl) & _) & _) & _) & _) & _) & Hb).
    apply bool_decide_eq_true in Hs. destruct (rv_activated_at r) as [t|] eqn:Et; [|done].
    split_and!; [exists t; split; [done|lia]|done..]. }
  clearbody eligible. destruct (rv_expiry_fee_eligible r) as [old|] eqn:Eo.
  - apply h_when; intros He.
    + eapply h_post; [|eapply h_update; [reflexivity|evolve]]. intros u db Hdb. exists (Some false). split; [done|]. by intros _ _ [=].
    + intros db Hdb. exists (Some old). rewrite Heta. split; [done|]. intros _ _ _. apply Hel. by destruct eligible.
  - eapply h_post; [|eapply h_update; [reflexivity|evolve]]. intros u db Hdb. exists (Some eligible). split; [done|].
    intros _ _ [= ->]. by apply Hel.
Qed.

(** *** Release *)

(** Both sides of a release: the row afterwards. *)
Definition release_image (now : Z) (reason : string) (request_id : option Z) (r r' : Reservation) : Prop :=
  holds (rv_status r) = false ∧ r' = r ∨ is_Some (rv_cancel_requested_at r) ∧ r' = r ∨
  holds (rv_status r) = true ∧ rv_cancel_requested_at r = None ∧
  ∃ r1 st o, (r1 = released now reason request_id r ∨
      rv_no_show_exempt (released now reason request_id r) = true ∧ rv_fee_decision r = fee_pending ∧
      r1 = fee_decided fee_waived reason now (released now reason request_id r)) ∧
    r' = set_rv_status st (set_rv_updated_at now (set_rv_outcome o r1)) ∧
    (st = (if bool_decide (reason = "expired") then rv_expired else rv_cancelled) ∨
     st = (if bool_decide (reason = "expired") then rv_expiry_release_pending else rv_cancel_pending)).

Lemma h_command k g id r (F F' : gmap Z ReservationCommand → Prop) :
  (∀ C c, F C → C !! k = Some c → reserve_once c → rm_id (g c) = rm_id c ∧ rm_reservation_id (g c) = rm_reservation_id c ∧
     rm_action (g c) = rm_action c ∧ reserve_once (g c)) →
  (∀ C, F C → F' (alter g k C)) → hoare (known id r F) (update_command k g) (λ _, known id r F').
Proof.
  intros Hg HF db [] db' Hok [Hr HFd] [= <-]. split.
  - apply (good_command k g db); [done..|]. intros c Hc. apply (Hg _ c HFd Hc). by apply (cmd_once _ Hok k).
  - split; [done|]. by apply HF.
Qed.

Lemma h_insert_command k id action now r F :
  (action = CancelReservation → is_Some (rv_cancel_requested_at r)) →
  (∀ C, F C → ∀ j c, C !! j = Some c → rm_reservation_id c = id → rm_action c ≠ action) →
  hoare (known id r F) (insert_command k id action now) (λ _, known id r (λ _, True)).
Proof.
  intros Hcan Hno db [] db' Hok [Hr HF] H. unfold insert_command in H. apply bind_ok in H as (dup & d1 & [= <- <-] & H).
  apply bind_ok in H as (u & d2 & [Hd ->]%raise_if_inr & [= <-]). apply bool_decide_eq_false in Hd. split; [|done].
  apply (good_insert_command k id action now db); [done|by apply eq_None_not_Some|done|done|by exists r|by apply Hno].
Qed.

Lemma h_ok {A} (P P' : Db → Prop) (m : Tx A) Q :
  (∀ db, reservations_ok db → P' db → P db) → hoare P m Q → hoare P' m Q.
Proof. intros H Hm db a db' Hok HP. apply Hm; auto. Qed.

Abbreviation any := (λ _ : gmap Z ReservationCommand, True).

Definition no_cancel (id : Z) (C : gmap Z ReservationCommand) : Prop :=
  ∀ j c, C !! j = Some c → rm_reservation_id c = id → rm_action c ≠ CancelReservation.

(** The end of a release that must be told to the charger. *)
Lemma h_release_sent id now r st :
  is_Some (rv_cancel_requested_at r) → holds (rv_status r) = true →
  hoare (known id r (no_cancel id))
    (update_reservation id (set_rv_status st);; cmd ← fresh_id; insert_command cmd id CancelReservation now)
    (λ _, known id (set_rv_status st r) any).
Proof.
  intros Hc Hh. eapply h_bind; [eapply h_update; [reflexivity|split; simpl; auto; congruence]|intros u]. h_skip.
  by apply h_insert_command.
Qed.

(** The end of one the charger never heard of. *)
Lemma h_release_unsent id c r st F :
  holds (rv_status r) = true →
  hoare (known id r F)
    (update_command (rm_id c) (set_rm_status rm_suppressed);;
     update_reservation id (λ r, set_rv_outcome (Some "not_sent") (set_rv_status st r)))
    (λ _, known id (set_rv_outcome (Some "not_sent") (set_rv_status st r)) any).
Proof.
  intros Hh. eapply h_bind; [apply (h_command _ _ _ _ F any); [|done]|intros u].
  - intros C d _ _ Ho. split_and!; [done..|]. intros Ha. destruct (Ho Ha). by split.
  - eapply h_update; [reflexivity|]. split; simpl; auto; congruence.
Qed.

Lemma h_request_release id now reason req r :
  hoare (known id r any) (request_release id now reason req)
    (λ _ db, ∃ r', release_image now reason req r r' ∧ known id r' any db).
Proof.
  unfold request_release. apply h_row_known. destruct (holds (rv_status r)) eqn:Hh; cbn [negb].
  2: { apply h_ret. intros db Hr. exists r. split; [by left|done]. }
  destruct (bool_decide (is_Some _)) eqn:Hc; [apply bool_decide_eq_true in Hc|apply bool_decide_eq_false in Hc].
  { apply h_ret. intros db Hr. exists r. split; [by right; left|done]. }
  apply (h_ok (known id r (no_cancel id))).
  { intros db Hok [Hr _]. split; [done|]. intros j c Hj Hid Ha. destruct (cmd_fk _ Hok j c Hj) as (r' & Hr' & Hs).
    rewrite Hid, Hr in Hr'. injection Hr' as <-. by apply Hc, Hs. }
  apply h_read. intros reserve. set (rel := released now reason req r).
  eapply h_bind; [eapply (h_update _ _ _ rel); [reflexivity|split; simpl; auto; by eauto]|intros u]. apply h_row_known.
  (* the fee, when the release is exempt *)
  eapply h_bind with (R := λ _ db, ∃ r1, (r1 = rel ∨ rv_no_show_exempt rel = true ∧ rv_fee_decision r = fee_pending ∧
    r1 = fee_decided fee_waived reason now rel) ∧ known id r1 (no_cancel id) db).
  { apply h_when.
    - intros [Hn Hp%bool_decide_eq_true]%andb_true_iff. eapply h_post; [|apply h_decide; [done|by rewrite Hp]].
      intros _ db (r' & Hi & Hr'). exists r'. split; [|done]. destruct Hi as [[-> ?]| ->]; [by left|right]. done.
    - intros _ db Hr. exists rel. split; [by left|done]. }
  intros _. apply h_exists. intros r1.
  assert (r1 = rel ∨ rv_no_show_exempt rel = true ∧ rv_fee_decision r = fee_pending ∧ r1 = fee_decided fee_waived reason now rel →
    is_Some (rv_cancel_requested_at r1) ∧ holds (rv_status r1) = true) as Hr1.
  { intros [-> |(_ & _ & ->)]; simpl; eauto. }
  apply (h_ok (λ db, (r1 = rel ∨ rv_no_show_exempt rel = true ∧ rv_fee_decision r = fee_pending ∧
    r1 = fee_decided fee_waived reason now rel) ∧ known id r1 (no_cancel id) db)); [done|].
  apply h_prop. intros Hcase. destruct (Hr1 Hcase) as [Hc1 Hh1]. h_set.
  assert (∀ st o, st = (if bool_decide (reason = "expired") then rv_expired else rv_cancelled) ∨
      st = (if bool_decide (reason = "expired") then rv_expiry_release_pending else rv_cancel_pending) →
    release_image now reason req r (set_rv_status st (set_rv_updated_at now (set_rv_outcome o r1)))) as Himg.
  { intros st o Hs. right. right. split; [done|]. split; [by apply eq_None_not_Some|]. exists r1, st, o. auto. }
  assert (set_rv_outcome (rv_outcome r1) r1 = r1) as Heta by (by destruct r1).
  eapply h_bind with (R := λ _ db, ∃ r', release_image now reason req r r' ∧ known id r' any db).
  2: { intros _. apply h_quiet; [auto with csms_hoare|]. intros db db' E1 E2 (r' & ? & Hr'). exists r'.
       split; [done|]. by eapply stable_known. }
  assert (hoare (known id (set_rv_updated_at now r1) (no_cancel id))
    (update_reservation id (set_rv_status (if bool_decide (reason = "expired") then rv_expiry_release_pending else rv_cancel_pending));;
     cmd ← fresh_id; insert_command cmd id CancelReservation now)
    (λ _ db, ∃ r', release_image now reason req r r' ∧ known id r' any db)) as Hsent.
  { eapply h_post; [|by apply h_release_sent]. intros u2 db Hr. eexists. split; [|exact Hr].
    rewrite <- Heta at 1. apply (Himg _ (rv_outcome r1)). by right. }
  destruct reserve as [c|]; [destruct (bool_decide (rm_status c = rm_queued) && (rm_attempts c =? 0))|]; [|exact Hsent..].
  eapply h_post; [|by apply h_release_unsent]. intros u2 db Hr. eexists. split; [|exact Hr].
  apply (Himg _ (Some "not_sent")). by left.
Qed.

(** A row of which [R] holds. *)
Definition with_row (id : Z) (R : Reservation → Prop) (db : Db) : Prop := ∃ r, R r ∧ known id r any db.

Lemma h_with_row {A} id (R : Reservation → Prop) (m : Tx A) Q :
  (∀ r, R r → hoare (known id r any) m Q) → hoare (with_row id R) m Q.
Proof. intros H. apply h_exists. intros r. apply h_prop. apply H. Qed.

Lemma known_row id r F db : known id r F db → with_row id (λ _, True) db.
Proof. intros [Hr _]. by exists r. Qed.

Lemma stable_with_row id R : stable (with_row id R).
Proof. intros db db' E1 E2 (r & HR & Hr). exists r. split; [done|]. by eapply stable_known. Qed.
#[export] Hint Resolve stable_with_row : csms_hoare.

(** Nothing to know afterwards. *)
Abbreviation safe P m := (hoare P m (λ _ _, True)).

Lemma h_safe {A} P (m : Tx A) Q : hoare P m Q → safe P m.
Proof. by apply h_post. Qed.

Lemma h_for_each {A} (l : list A) body P : (∀ x, hoare P (body x) (λ _, P)) → hoare P (for_each l body) (λ _, P).
Proof.
  intros Hb. induction l as [|x l IH]; cbn [for_each]; [by apply h_ret|]. eapply h_bind; [apply Hb|]. by intros [].
Qed.

Lemma h_mark_late_start id src now msg r :
  hoare (known id r any) (mark_late_start id src now msg) (λ _, with_row id (λ _, True)).
Proof.
  unfold mark_late_start. apply h_row_known.
  eapply h_bind with (R := λ _, with_row id (λ _, True)).
  { apply h_when.
    - intros [[_ Hl%negb_true_iff%bool_decide_eq_false]%andb_true_iff _]%andb_true_iff.
      eapply h_post; [|by apply h_decide]. intros u db (r' & _ & Hr'). by exists r'.
    - intros _ db Hr. by exists r. }
  intros _. h_skip. h_skip. by apply h_ret.
Qed.

(** A start that may consume the reservation. *)
Definition startable (r : Reservation) : Prop := holds (rv_status r) = true ∨ rv_status r = rv_expired.

Definition start_verdict (v : bool * option Reservation) (db : Db) : Prop :=
  match v with
  | (true, Some h) => startable h ∧ known (rv_id h) h any db
  | _ => True
  end.

Lemma h_judge card oid src now msg h P :
  (∀ db, P db → known (rv_id h) h any db) → hoare P (judge_hold card oid src now msg h) start_verdict.
Proof.
  intros HP. unfold judge_hold. destruct (negb _ || _); [by apply h_ret|]. case_match.
  - eapply h_bind; [eapply h_pre; [exact HP|apply h_mark_late_start]|]. intros u. apply h_row. intros r. by apply h_ret.
  - apply h_ret. intros db Hdb. unfold start_verdict. case_match eqn:E; [|done]. split; [|by apply HP].
    apply andb_true_iff in E as [_ E]. unfold startable.
    apply orb_true_iff in E as [E%bool_decide_eq_true|[E%bool_decide_eq_true _]%andb_true_iff];
      repeat (apply elem_of_cons in E as [->|E]; [by auto|]); by apply elem_of_nil in E.
Qed.

(** The row a query found, known under its own key. *)
Lemma found_known P db r : reservations_ok db → select_where P (reservations db) = Some r → known (rv_id r) r any db.
Proof. intros Hok (k & Hk & _)%select_where_Some. split; [|done]. by rewrite (res_keyed _ Hok k r Hk). Qed.

Lemma h_validate_start cn card oid src now msg P :
  hoare P (validate_start cn card oid src now msg) start_verdict.
Proof.
  unfold validate_start. apply h_gets. intros hold.
  assert (∀ P', (∀ db, P' db → match hold with Some h => known (rv_id h) h any db | None => True end) →
    hoare P' (match hold with
              | None => mret (bool_decide (oid = None), None)
              | Some h => judge_hold card oid src now msg h
              end) start_verdict) as Hjudge.
  { intros P' HP'. destruct hold as [h|]; [by apply h_judge|]. apply h_ret. intros db _. by destruct (bool_decide _). }
  apply (h_ok (λ db, match hold with Some h => known (rv_id h) h any db | None => True end)).
  { intros db Hok [_ <-]. unfold connector_hold. destruct (select_where _ _) as [h|] eqn:E; [|done]. by eapply found_known. }
  destruct oid as [o|]; [|by apply Hjudge]. h_if; [by apply Hjudge|].
  apply h_gets. intros previous. destruct previous as [p|]; [|apply Hjudge; by intros db [? _]].
  apply (h_ok (λ db, match hold with Some h => known (rv_id h) h any db | None => True end ∧ known (rv_id p) p any db)).
  { intros db Hok [Hh Hp]. split; [done|]. by eapply found_known. }
  h_if; [|apply Hjudge; by intros db [? _]]. h_if.
  - eapply h_bind; [eapply h_pre; [by intros db [_ Hp]; exact Hp|apply h_mark_late_start]|].
    intros u. apply h_row. intros r. by apply h_ret.
  - h_if; [|apply Hjudge; by intros db [? _]]. apply h_judge. by intros db [_ ?].
Qed.

Lemma h_consume id sid now r : startable r → safe (known id r any) (consume id sid now).
Proof.
  intros Hs. unfold consume. eapply h_bind; [eapply h_update; [reflexivity|]|intros u].
  { split; simpl; auto. intros H. destruct Hs as [Hs|Hs]; [congruence|auto]. }
  apply h_row_known. eapply h_bind with (R := λ _, with_row id (λ _, True)).
  - apply h_when.
    + intros Hp%bool_decide_eq_true. eapply h_post; [|apply h_decide; [done|by rewrite Hp]]. intros v db (r' & _ & Hr'). by exists r'.
    + intros _ db Hr. exact (known_row _ _ _ _ Hr).
  - intros v. eapply h_safe, h_quiet; auto with csms_hoare.
Qed.

(** *** The worker *)

Lemma h_conclude_reserve id now outcome r : safe (known id r any) (conclude_reserve id now outcome).
Proof.
  unfold conclude_reserve. apply h_row_known. destruct (holds (rv_status r)) eqn:Hh; cbn [negb]; [|by apply h_ret].
  eapply h_bind; [eapply h_update; [reflexivity|]|intros u].
  { destruct (refused outcome); [|destruct (bool_decide (rv_cancel_requested_at r = None)); [|reflexivity]];
      split; simpl; auto; congruence. }
  set (r1 := if refused outcome then _ else _). eapply h_bind with (R := λ _, with_row id (λ _, True)).
  { apply h_when; [intros _|intros _ db Hr; exact (known_row _ _ _ _ Hr)]. eapply h_post; [|eapply h_update; [reflexivity|evolve]].
    intros v db Hr. exact (known_row _ _ _ _ Hr). }
  intros v. eapply h_bind with (R := λ _, with_row id (λ _, True)).
  { apply h_with_row. intros r2 _. eapply h_post; [|eapply h_update; [reflexivity|evolve]]. intros x db Hr. exact (known_row _ _ _ _ Hr). }
  intros x. eapply h_safe, h_quiet; auto with csms_hoare.
Qed.

(** A command no longer queued keeps its one attempt. *)
Lemma h_command_any k g id r F :
  (∀ c, reserve_once c → rm_id (g c) = rm_id c ∧ rm_reservation_id (g c) = rm_reservation_id c ∧
     rm_action (g c) = rm_action c ∧ reserve_once (g c)) →
  hoare (known id r F) (update_command k g) (λ _, known id r any).
Proof. intros Hg. apply h_command; [|done]. intros C c _ _ Ho. by apply Hg. Qed.

Ltac once := intros c0 Ho0; split_and!; [done..|]; intros Ha0; destruct (Ho0 Ha0) as [Hb0 Hq0]; split; simpl in *; [done|]; try done.

Lemma h_conclude_cancel k id now outcome r F :
  (∀ C c, F C → C !! k = Some c → rm_action c = CancelReservation) →
  safe (known id r F) (conclude_cancel k id now outcome).
Proof.
  intros HF. unfold conclude_cancel.
  assert (∀ f, (∀ c, rm_id (f c) = rm_id c ∧ rm_reservation_id (f c) = rm_reservation_id c ∧ rm_action (f c) = rm_action c) →
    hoare (known id r F) (update_command k f) (λ _, known id r any)) as Hup.
  { intros f Hf. apply h_command; [|done]. intros C c HC Hc _. destruct (Hf c) as (? & ? & Ha). split_and!; [done..|].
    intros Hr. rewrite Ha, (HF C c HC Hc) in Hr. done. }
  h_if; (eapply h_bind; [apply Hup; done|intros u]); apply h_row_known.
  - apply h_when; [intros Hh|done]. eapply h_bind; [eapply h_update; [reflexivity|]|intros v].
    { split; simpl; auto. congruence. }
    eapply h_safe, h_quiet; auto with csms_hoare.
  - apply h_when; [intros Hh|done]. eapply h_safe, h_update; [reflexivity|evolve].
Qed.

Lemma h_deliver d outcome :
  safe (λ db, ∀ c, reservation_commands db !! dl_command_id d = Some c → rm_action c = dl_action d) (deliver d outcome).
Proof.
  unfold deliver. apply h_savepoint, h_gets. intros [r|]; [|by apply h_ret].
  apply (h_pre (known (dl_reservation_id d) r (λ C, ∀ c, C !! dl_command_id d = Some c → rm_action c = dl_action d)));
    [by intros db [H1 H2]|].
  h_skip. apply h_read. intros c. apply h_some_or. intros command ->. h_if; [by apply h_ret|]. apply h_read. intros now.
  set (F := λ C : gmap Z ReservationCommand, ∀ c, C !! dl_command_id d = Some c → rm_action c = dl_action d).
  assert (∀ f C, (∀ c, rm_action (f c) = rm_action c) → F C → F (alter f (dl_command_id d) C)) as HF.
  { intros f C Hf HC c. rewrite lookup_alter_eq. intros (c0 & Hc0 & ->)%fmap_Some. rewrite Hf. by apply HC. }
  eapply h_bind; [apply (h_command _ _ _ _ F F); [|intros C; by apply HF]|intros u].
  { intros C c0 _ _ Ho. split_and!; [done..|]. intros Ha. by destruct (Ho Ha). }
  destruct (dl_action d) eqn:Ed.
  - eapply h_bind; [apply h_command_any|intros v; apply h_conclude_reserve].
    intros c0 Ho. split_and!; [done..|]. intros Ha. destruct (Ho Ha) as [Hb _]. split; [done|]. simpl. by destruct (_ || _).
  - apply h_conclude_cancel. intros C c0 HC. apply HC.
Qed.

Lemma h_expire_lease id now c (R : Reservation → Prop) :
  (∀ r, R r → holds (rv_status r) = true) → (∀ r, R r → R (set_rv_updated_at now
     (set_rv_outcome (Some "lease_expired") (set_rv_status rv_uncertain r)))) →
  hoare (with_row id R) (expire_lease id now c) (λ _, with_row id R).
Proof.
  intros Hh HR. unfold expire_lease. apply h_when; [intros _|done]. apply h_with_row. intros r Hr.
  eapply h_bind; [apply h_command_any|intros u].
  { intros c0 Ho. split_and!; [done..|]. intros Ha. destruct (Ho Ha) as [Hb _]. simpl in *. by rewrite Ha. }
  apply h_row_known. apply h_when.
  - intros _. eapply h_bind; [eapply h_update; [reflexivity|]|intros v].
    { split; simpl; auto. rewrite Hh; done. }
    eapply h_post; [|apply h_quiet; auto with csms_hoare]. intros x db Hk. eexists. split; [|exact Hk]. by apply HR.
  - intros _ db Hk. by exists r.
Qed.

(** Released here and now, or still held. *)
Definition held_or_released (r : Reservation) : Prop :=
  holds (rv_status r) = true ∨ rv_status r = (if rv_no_show_exempt r then rv_cancelled else rv_expired).

Lemma release_held now reason r r' :
  reason = "expired" ∨ reason = "station_unavailable" → holds (rv_status r) = true →
  release_image now reason None r r' → held_or_released r'.
Proof.
  intros Hreason Hh [[? _]|[[_ ->]|(_ & _ & r1 & st & o & Hr1 & -> & Hst)]]; [congruence|by left|].
  assert (rv_no_show_exempt r1 = bool_decide (reason = "station_unavailable") ||
    (bool_decide (reason = "driver_cancel") && (now <? rv_expires_at r))) as He by (by destruct Hr1 as [-> |(_ & _ & ->)]).
  unfold held_or_released. simpl. rewrite He. destruct Hreason as [-> | ->]; simpl; destruct Hst as [-> | ->]; simpl; auto.
Qed.

Lemma h_reconcile ba id : safe (λ _, True) (reconcile ba id).
Proof.
  unfold reconcile. apply h_savepoint, h_gets. intros [r|]; [|by apply h_ret].
  apply (h_pre (known id r any)); [by intros db [_ H]|]. h_skip. destruct a as [[point connector] station].
  destruct (holds (rv_status r)) eqn:Hh; cbn [negb]; [|by apply h_ret]. apply h_read. intros now.
  set (held := λ r : Reservation, holds (rv_status r) = true).
  eapply h_bind; [apply h_observe|intros u]. apply h_exists. intros b.
  apply (h_pre (known id (set_rv_expiry_fee_eligible b r) any)); [by intros db [H _]|]. apply h_read. intros commands.
  eapply h_bind with (R := λ _, with_row id held).
  { apply h_when.
    - intros _. eapply h_bind; [eapply h_update; [reflexivity|]|intros v]; [split; simpl; auto; congruence|].
      eapply h_post; [|apply h_quiet; auto with csms_hoare]. intros x db Hk. eexists. by split; [|exact Hk].
    - intros _ db Hk. eexists. by split; [|exact Hk]. }
  intros v. eapply h_bind; [apply h_for_each; intros c; by apply h_expire_lease|intros x].
  eapply h_bind with (R := λ _, with_row id held_or_released).
  { apply h_with_row. intros r1 Hr1. h_if; [|apply h_when; [intros _|intros _ db Hk; exists r1; split; [by left|done]]];
      (eapply h_post; [|apply h_request_release]; intros y db (r' & Hi & Hk); exists r'; split; [|done];
       eapply release_held; [|done|exact Hi]; auto). }
  intros y. apply h_when; [intros _|done]. apply h_read. intros occ. apply h_when; [intros _|done].
  eapply h_bind with (R := λ _, with_row id (λ _, True)).
  { apply h_with_row. intros r1 Hr1. eapply h_post; [|eapply h_update; [reflexivity|]].
    - intros z db Hk. exact (known_row _ _ _ _ Hk).
    - split; simpl; auto. intros Hn. destruct Hr1 as [?|Hr1]; [congruence|]. by left. }
  intros z. eapply h_bind; [apply h_for_each; intros c|intros w; eapply h_safe, h_quiet; auto with csms_hoare].
  apply h_with_row. intros r1 _. eapply h_post; [|apply h_command_any].
  - intros w db Hk. exact (known_row _ _ _ _ Hk).
  - intros c0 Ho. destruct (bool_decide (rm_status c0 = rm_queued)); [|done]. split_and!; [done..|]. intros Ha.
    destruct (Ho Ha) as [Hb _]. by split.
Qed.

Lemma h_reject_command k id outcome r F :
  holds (rv_status r) = true →
  hoare (known id r F) (reject_command k id outcome) (λ _, with_row id (λ r, rv_status r = rv_rejected)).
Proof.
  intros Hh. unfold reject_command. eapply h_bind; [apply h_command_any|intros u].
  { intros c0 Ho. split_and!; [done..|]. intros Ha. destruct (Ho Ha) as [Hb _]. by split. }
  eapply h_post; [|eapply h_update; [reflexivity|split; simpl; auto; congruence]].
  intros v db Hk. eexists. by split; [|exact Hk].
Qed.

(** A delivery names a command, its action and its reservation. *)
Definition delivery_of (d : Delivery) (db : Db) : Prop :=
  ∃ c, reservation_commands db !! dl_command_id d = Some c ∧ rm_action c = dl_action d ∧
    rm_reservation_id c = dl_reservation_id d.

Definition claimed (o : option Delivery) (db : Db) : Prop := match o with Some d => delivery_of d db | None => True end.

Section claim.
Context (timeout : Z).

Lemma h_send command id now payload r :
  rm_status command = rm_queued → rm_reservation_id command = id →
  hoare (known id r (λ C, C !! rm_id command = Some command)) (send timeout command id now payload) claimed.
Proof.
  intros Hq Hid. unfold send. h_skip.
  eapply h_bind; [apply (h_command _ _ _ _ _ (λ C, ∃ c, C !! rm_id command = Some c ∧
    rm_action c = rm_action command ∧ rm_reservation_id c = id))|intros u].
  - intros C c HC Hc Ho. simplify_eq. split_and!; [done..|]. intros Ha. destruct (Ho Ha) as [_ H0]. simpl.
    rewrite (H0 Hq). done.
  - intros C HC. rewrite lookup_alter_eq, HC. simpl. eexists. split; [done|]. by split.
  - apply h_ret. intros db [_ (c & Hc & Ha & Hr)]. by exists c.
Qed.

Lemma h_claim_reserve point connector station r command now :
  holds (rv_status r) = true → rm_status command = rm_queued → rm_reservation_id command = rv_id r →
  hoare (known (rv_id r) r (λ C, C !! rm_id command = Some command))
    (claim_reserve timeout point connector station r command now) claimed.
Proof.
  intros Hh Hq Hid. unfold claim_reserve. h_if.
  - eapply h_bind; [eapply h_pre; [|apply h_request_release]; by intros db [H _]|intros u]. by apply h_ret.
  - apply h_read. intros cap. h_if.
    + eapply h_bind; [by apply h_reject_command|intros u]. eapply h_bind with (R := λ _, with_row (rv_id r) (λ _, True)).
      { apply h_with_row. intros r1 _. eapply h_post; [|eapply h_update; [reflexivity|evolve]].
        intros v db Hk. exact (known_row _ _ _ _ Hk). }
      intros v. h_skip. by apply h_ret.
    + apply h_read. intros [tag|]; [h_if; [by apply h_send|]|];
        (eapply h_bind; [by apply h_reject_command|intros u; by apply h_ret]).
Qed.

Lemma h_claim ba k : hoare (λ _, True) (claim timeout ba k) claimed.
Proof.
  unfold claim. apply h_savepoint, h_gets. intros [command|]; [|by apply h_ret]. apply h_gets. intros [r|]; [|by apply h_ret].
  apply (h_ok (λ db, (rm_id command = k ∧ rm_reservation_id command = rv_id r) ∧
    known (rv_id r) r (λ C, C !! rm_id command = Some command) db)).
  { intros db Hok [[_ Hc] Hr]. rewrite (cmd_keyed _ Hok k command Hc), (res_keyed _ Hok _ _ Hr). done. }
  apply h_prop. intros [Hk Hid]. h_skip. destruct a as [[point connector] station]. apply h_read. intros now.
  destruct (negb (bool_decide (rm_status command = rm_queued)) || _) eqn:Hq; [by apply h_ret|].
  apply orb_false_iff in Hq as [Hq%negb_false_iff%bool_decide_eq_true _].
  destruct (holds (rv_status r)) eqn:Hh; cbn [negb].
  - h_if; [by apply h_ret|]. destruct (rm_action command) eqn:Ha; [by apply h_claim_reserve|].
    apply h_read. intros reserve. h_if; [by apply h_ret|]. by apply h_send.
  - eapply h_bind; [apply h_command_any|intros u; by apply h_ret].
    intros c0 Ho. split_and!; [done..|]. intros Hc. destruct (Ho Hc) as [Hb _]. by split.
Qed.
End claim.

(** *** Fees, cancellation and booking *)

(** A release leaves the fee open, or waives it. *)
Lemma release_fee now reason req r r' :
  release_image now reason req r r' → rv_fee_decision r ≠ fee_legacy_exempt → rv_fee_decision r' ≠ fee_legacy_exempt.
Proof. intros [[_ ->]|[[_ ->]|(_ & _ & r1 & st & o & [->|(_ & _ & ->)] & -> & _)]]; done. Qed.

Lemma h_release_decide id now d reason r :
  d ≠ fee_pending → rv_fee_decision r ≠ fee_legacy_exempt →
  hoare (known id r any) (request_release id now "expired" None;; decide_fee id d reason now) (λ _, with_row id (λ r, rv_fee_decision r = d)).
Proof.
  intros Hd Hl. eapply h_bind; [apply h_request_release|intros u]. apply h_exists. intros r'. apply h_prop. intros Hi.
  eapply h_post; [|apply h_decide; [done|by eapply release_fee]].
  intros v db (r2 & [[-> ?]| ->] & Hk); eexists; (split; [|exact Hk]); done.
Qed.

Lemma h_fee_one ba id : safe (λ _, True) (fee_one ba id).
Proof.
  unfold fee_one. apply h_savepoint, h_gets. intros [reg|]; [|by apply h_ret].
  apply (h_pre (known id reg any)); [by intros db [_ H]|]. h_skip. destruct a as [[point connector] station].
  apply h_row_known. apply h_read. intros now. h_if; [by apply h_ret|].
  assert (rv_fee_decision reg = fee_pending) as Hp.
  { match goal with H : _ || _ = false |- _ => apply orb_false_iff in H as [H%negb_false_iff%bool_decide_eq_true _] end. done. }
  eapply h_bind; [apply h_observe|intros u]. apply h_exists. intros b.
  set (r := set_rv_expiry_fee_eligible b reg). assert (rv_fee_decision r ≠ fee_legacy_exempt) as Hl by (simpl; congruence).
  apply (h_pre (known id r any)); [by intros db [H _]|]. apply h_row_known.
  repeat (h_if; [first [by eapply h_safe, h_decide|by eapply h_safe, h_release_decide]|]).
  eapply h_bind; [apply h_request_release|intros v]. apply h_exists. intros r'. apply h_prop. intros Hi.
  pose proof (release_fee _ _ _ _ _ Hi Hl) as Hl'. apply h_read. intros [w|]; [|by eapply h_safe, h_decide].
  h_if; [|by eapply h_safe, h_decide]. h_skip.
  eapply h_bind; [eapply h_update; [reflexivity|evolve]|intros x]. by eapply h_safe, h_decide.
Qed.

Lemma h_cancel driver id req ev : safe (λ _, True) (cancel_reservation driver id req ev).
Proof.
  unfold cancel_reservation. apply h_savepoint, h_gets. intros reg. apply h_some_or. intros r ->.
  apply (h_pre (known id r any)); [by intros db [_ H]|]. apply h_raise_if. intros _. h_skip. apply h_row_known.
  h_if; [by apply h_ret|]. apply h_read. intros command. apply h_read. intros reused.
  apply h_raise_if. intros _. apply h_raise_if. intros _. h_if; [by apply h_ret|]. apply h_read. intros now.
  apply h_raise_if. intros _. apply h_raise_if. intros _.
  eapply h_bind; [apply h_request_release|intros u]. apply h_exists. intros r'. apply h_prop. intros _. h_skip.
  eapply h_safe, h_quiet; [apply quiet_pure|]; auto with csms csms_hoare.
Qed.

(** Nobody holds the connector, and the driver holds nothing. *)
Record bookable (req cn driver : Z) (db : Db) : Prop := mkBookable {
  book_row : reservations db !! req = None;
  book_command : reservation_commands db !! req = None;
  book_connector : ∀ k r, reservations db !! k = Some r → holds (rv_status r) = true → rv_connector_id r ≠ cn;
  book_driver : ∀ k r, reservations db !! k = Some r → holds (rv_status r) = true → rv_driver_id r ≠ driver
}.

Lemma stable_bookable req cn driver : stable (bookable req cn driver).
Proof. intros db db' E1 E2 [? ? ? ?]. split; rewrite ?E1, ?E2; done. Qed.
#[export] Hint Resolve stable_bookable : csms_hoare.

Lemma good_book req row db db' :
  reservations_ok db → bookable req (rv_connector_id row) (rv_driver_id row) db → rv_id row = req →
  reservations db' = <[req := row]> (reservations db) → reservation_commands db' = reservation_commands db → good db db'.
Proof.
  intros [K1 K2 K3 K4 K5 K6 K7] [B1 B2 B3 B4] Hid H1 H2.
  assert (∀ k r, reservations db !! k = Some r → reservations db' !! k = Some r) as Hup
    by (intros k r Hr; rewrite H1, lookup_insert_ne by congruence; done).
  split; [split; rewrite ?H2; try done; rewrite ?H1| |].
  - by intros k r [[<- <-]|[_ Hr]]%lookup_insert_Some; [|apply K1].
  - intros k k' r r' [[<- <-]|[_ Hr]]%lookup_insert_Some [[<- <-]|[_ Hr']]%lookup_insert_Some Hh Hh' Heq;
      [done|by destruct (B3 _ _ Hr' Hh')|by destruct (B3 _ _ Hr Hh)|by apply (K2 _ _ r r')].
  - intros k k' r r' [[<- <-]|[_ Hr]]%lookup_insert_Some [[<- <-]|[_ Hr']]%lookup_insert_Some Hh Hh' Heq;
      [done|by destruct (B4 _ _ Hr' Hh')|by destruct (B4 _ _ Hr Hh)|by apply (K3 _ _ r r')].
  - intros k c Hc. destruct (K6 k c Hc) as (r & Hr & Hcan). exists r. split; [rewrite <- H1; by apply Hup|done].
  - intros k r Hr. exists r. split; [by apply Hup|reflexivity].
  - intros k c Hc. rewrite H2. by exists c.
Qed.

Lemma h_gets_ok {A B} P (P' : A → Db → Prop) (f : Db → A) (k : A → Tx B) Q :
  (∀ db, reservations_ok db → P db → P' (f db) db) → (∀ a, hoare (P' a) (k a) Q) → hoare P (gets f ≫= k) Q.
Proof. intros HP H. apply h_gets. intros a. apply (h_ok (P' a)); [|done]. intros db Hok [Hdb <-]. auto. Qed.

(** No row and no command has the request's identity. *)
Definition unused (req : Z) (db : Db) : Prop := reservations db !! req = None ∧ reservation_commands db !! req = None.

Lemma stable_unused req : stable (unused req).
Proof. intros db db' E1 E2 [? ?]. split; congruence. Qed.
#[export] Hint Resolve stable_unused : csms_hoare.

Section create.
Context {dep : Deployment} (tag_hash : string → string).
Context (request_digest : Z → option Z → option (option Z * option Z) → string).

Lemma quiet_resources raw driver : quiet (ensure_driver_resources tag_hash raw driver).
Proof. intros x y. unfold ensure_driver_resources, ensure_driver_wallet, insert_wallet, fresh_id. keeps_steps. Qed.

Lemma pure_lay s d : pure_tx (lay_bieu_gia_hieu_luc s d).
Proof. unfold lay_bieu_gia_hieu_luc. auto with csms. Qed.
Lemma pure_eligibility driver s now : pure_tx (du_so_du_de_sac driver s now).
Proof.
  unfold du_so_du_de_sac. apply pure_bind; [auto with csms|intros t]. apply pure_bind; [apply pure_lay|intros tf].
  apply pure_bind; [auto with csms|intros w]. apply pure_bind; [destruct tf; auto with csms|auto with csms].
Qed.
#[local] Hint Resolve quiet_resources : csms_hoare.
#[local] Hint Resolve pure_eligibility : csms.

Lemma h_create raw driver req cn arrival ev fee version :
  safe (λ _, True) (create_reservation tag_hash request_digest raw driver req cn arrival ev fee version).
Proof.
  unfold create_reservation. apply h_savepoint, h_gets. intros [previous|].
  { apply h_raise_if. intros _. by apply h_ret. }
  apply h_gets. intros cmd. apply h_raise_if. intros Hcmd%bool_decide_eq_false.
  apply (h_pre (unused req)).
  { intros db [[_ H1] <-]. split; [done|]. by apply eq_None_not_Some. }
  h_skip. destruct a as [[point connector] station]. apply h_read. intros now.
  do 2 (apply h_raise_if; intros _). apply h_read. intros cap. apply h_raise_if. intros _.
  apply (h_gets_ok _ (λ o db, unused req db ∧
    (o = None → ∀ k r, reservations db !! k = Some r → holds (rv_status r) = true → rv_connector_id r ≠ cn))).
  { intros db _ Hdb. split; [done|]. intros Hn k r Hr Hh <-. unfold connector_hold in Hn. rewrite select_where_None in Hn. specialize (Hn k r Hr).
    simpl in Hn. rewrite Z.eqb_refl, Hh in Hn. done. }
  intros hold. apply h_raise_if. intros Hhold%bool_decide_eq_false.
  apply (h_pre (λ db, unused req db ∧
    ∀ k r, reservations db !! k = Some r → holds (rv_status r) = true → rv_connector_id r ≠ cn)).
  { intros db [? H]. split; [done|]. by apply H, eq_None_not_Some. }
  do 2 (apply h_raise_if; intros _). apply h_read. intros occupied. apply h_read. intros pending.
  apply h_raise_if. intros _. apply h_read. intros u. apply h_raise_if. intros _. apply h_read. intros [f v].
  apply h_raise_if. intros _.
  apply (h_gets_ok _ (λ o db, o = None → bookable req cn driver db)).
  { intros db _ [[Hr Hc] Hcn] Hn. split; [done..|]. intros k r Hk Hh <-. unfold driver_hold in Hn. rewrite select_where_None in Hn. specialize (Hn k r Hk).
    simpl in Hn. rewrite Z.eqb_refl, Hh in Hn. done. }
  intros other. apply h_raise_if. intros Hother%bool_decide_eq_false.
  apply (h_pre (bookable req cn driver)). { intros db H. by apply H, eq_None_not_Some. }
  apply h_read. intros power. apply h_raise_if. intros _. h_skip. apply h_raise_if. intros _. h_skip.
  apply h_raise_if. intros _. apply h_read. intros identity. apply h_raise_if. intros _. h_skip. cbv zeta.
  match goal with |- hoare _ (modify (λ db, set_reservations (<[_ := ?x]> _) db) ≫= _) _ => set (row := x) end.
  eapply h_bind with (R := λ _, known req row (λ C, ∀ j c, C !! j = Some c → rm_reservation_id c = req → rm_action c ≠ ReserveNow)).
  { intros db [] db' Hok Hb [= <-]. split; [by apply (good_book req row db)|]. split; [by apply lookup_insert_eq|].
    intros j c Hj Hid _. destruct (cmd_fk _ Hok j c Hj) as (r & Hr & _). rewrite Hid in Hr.
    pose proof (book_row _ _ _ _ Hb). simpl in *. congruence. }
  intros u0. eapply h_bind; [apply h_insert_command; [done|auto]|intros u1]. h_skip. h_skip. by apply h_ret.
Qed.
End create.
