(* ===== verification/ReservationRuns.v ===== *)
(** * ReservationRuns: reservations in any interleaving

    The transactions of the HTTP handlers, of the charging module and of the
    workers, with the commands that are on the wire, as a step relation; what
    holds in every run, and what a no-show is charged. *)

From S2P Require Import Prelude Bands Clock Text Store AuditTrail Wallet Pricing Eligibility PowerSchedule PowerControl Reservations ReservationWorker ReservationSpec.

(** ** Money *)

(** The wallets are [W], the ledger [L]. *)
Definition funds (W : gmap Z Wallet) (L : list WalletLedger) (db : Db) : Prop := wallets db = W ∧ wallet_ledger db = L.

(** Whatever [m] keeps may be carried through it. *)
Lemma h_frame {A} (P R : Db → Prop) (m : Tx A) Q :
  hoare P m Q → keeps R m → hoare (λ db, P db ∧ R db) m (λ a db, Q a db ∧ R db).
Proof.
  intros Hm HR db a db' Hok [HP Hdb] H. destruct (Hm db a db' Hok HP H) as [G HQ]. split_and!; [done..|]. by eapply keeps_run.
Qed.

Section keepers.
Context (W : gmap Z Wallet) (L : list WalletLedger).

#[local] Hint Extern 2 (keeps (funds _ _) (modify _)) => apply keeps_modify; by intros : csms_keeps.
#[local] Hint Extern 2 (keeps (funds _ _) (update_reservation _ _)) => apply keeps_modify; by intros : csms_keeps.
#[local] Hint Extern 2 (keeps (funds _ _) (update_command _ _)) => apply keeps_modify; by intros : csms_keeps.
#[local] Hint Extern 2 (keeps (funds _ _) (ghi_nhat_ky _ _ _ _ _ _ _)) => apply keeps_audit; by intros : csms_keeps.

Lemma funds_event id a now d : keeps (funds W L) (event id a now d).
Proof. unfold event, fresh_id. keeps_steps. Qed.
#[local] Hint Resolve funds_event : csms_keeps.

Lemma funds_row id : keeps (funds W L) (reservation_row id).
Proof. unfold reservation_row. keeps_steps. Qed.
#[local] Hint Resolve funds_row : csms_keeps.

Lemma funds_decide id d reason now : keeps (funds W L) (decide_fee id d reason now).
Proof. unfold decide_fee. keeps_steps. Qed.
#[local] Hint Resolve funds_decide : csms_keeps.

Lemma funds_observe id point station ba now : keeps (funds W L) (observe_expiry id point station ba now).
Proof. unfold observe_expiry. keeps_steps. Qed.

Lemma funds_release id now reason req : keeps (funds W L) (request_release id now reason req).
Proof. unfold request_release, insert_command, fresh_id. keeps_steps. Qed.
End keepers.

(** A reservation that was held until it expired, and nobody came. *)
Record no_show (point : ChargePoint) (station : Station) (ba : bool) (now : Z) (r : Reservation) : Prop := mkNoShow {
  ns_status : rv_status r ≠ rv_consumed ∧ rv_status r ≠ rv_rejected;
  ns_session : rv_session_id r = None;
  ns_exempt : rv_no_show_exempt r = false;
  ns_sent : rv_outcome r ≠ Some "not_sent";
  ns_fee : rv_fee_vnd r ≠ 0;
  ns_verified : verified_at_expiry point station ba now r
}.

(** The driver's wallet paid the fee, under the reservation's key. *)
Definition fee_paid (W : gmap Z Wallet) (L : list WalletLedger) (id : Z) (r r' : Reservation) (db' : Db) : Prop :=
  ∃ w row, W !! w_id w = Some w ∧ w_driver_id w = rv_driver_id r ∧ w_status w = active ∧
    rv_fee_ledger_id r' = Some (l_id row) ∧ l_wallet_id row = w_id w ∧ l_amount_vnd row = - rv_fee_vnd r ∧
    by_reference reservation_fee (strip (uuid_str id)) db' = Some row ∧
    (funds W L db' ∨
     funds (alter (set_w_balance_vnd (w_balance_vnd w - rv_fee_vnd r)) (w_id w) W) (L ++ [row]) db').

(** The fee is waived or left to review, and no money moved; or it was paid by a no-show. *)
Definition settled (W : gmap Z Wallet) (L : list WalletLedger) (point : ChargePoint) (station : Station) (ba : bool)
    (now id : Z) (r r' : Reservation) (db' : Db) : Prop :=
  rv_fee_decision r' ∈ [fee_waived; fee_review] ∧ funds W L db' ∨
  rv_fee_decision r' = fee_charged ∧ no_show point station ba now r ∧ fee_paid W L id r r' db'.

Section settle.
Context (W : gmap Z Wallet) (L : list WalletLedger) (point : ChargePoint) (station : Station) (ba : bool) (now id : Z).
Context (reg : Reservation).

Definition settles (_ : ()) (db : Db) : Prop :=
  ∃ r', known id r' any db ∧ settled W L point station ba now id reg r' db.

Lemma h_uncharged d reason r :
  d ∈ [fee_waived; fee_review] → rv_fee_decision r ≠ fee_legacy_exempt →
  hoare (λ db, known id r any db ∧ funds W L db) (decide_fee id d reason now) settles.
Proof.
  intros Hd Hl. assert (d ≠ fee_pending) as Hp by (intros ->; set_solver).
  eapply h_post; [|apply h_frame; [by apply h_decide|apply funds_decide]].
  intros u db [(r' & Hi & Hk) Hb]. exists r'. split; [done|]. left. split; [|done].
  by destruct Hi as [[-> ->]| ->].
Qed.

Lemma h_uncharged_release d reason r :
  d ∈ [fee_waived; fee_review] → rv_fee_decision r ≠ fee_legacy_exempt →
  hoare (λ db, known id r any db ∧ funds W L db) (request_release id now "expired" None;; decide_fee id d reason now) settles.
Proof.
  intros Hd Hl. eapply h_bind; [apply h_frame; [apply h_request_release|apply funds_release]|intros u].
  intros db a db' Hok [(r' & Hi & Hk) Hb]. eapply (h_uncharged d reason r'); [done|by eapply release_fee|done|done].
Qed.

(** The row's key and its debit, after the posting. *)
Definition debited (w : Wallet) (row : WalletLedger) (db : Db) : Prop :=
  l_wallet_id row = w_id w ∧ l_amount_vnd row = - rv_fee_vnd reg ∧
  by_reference reservation_fee (strip (uuid_str id)) db = Some row ∧
  (funds W L db ∨ funds (alter (set_w_balance_vnd (w_balance_vnd w - rv_fee_vnd reg)) (w_id w) W) (L ++ [row]) db).

Lemma h_debit w r :
  W !! w_id w = Some w →
  hoare (λ db, known id r any db ∧ funds W L db)
    (ghi_so_cai (w_id w) reservation_fee (- rv_fee_vnd reg) "reservation" (uuid_str id) None)
    (λ row db, known id r any db ∧ debited w row db).
Proof.
  intros Hw db row db' Hok [Hk [HW HL]] H.
  destruct (h_quiet (known id r any) _ (quiet_ghi_so_cai _ _ _ _ _ _) (stable_known _ _ _) db row db' Hok Hk H) as [G Hk'].
  split; [done|]. split; [done|]. apply ghi_so_cai_key in H as (Hkey & H1 & H2 & [[-> _]|(_ & -> & w2 & Hw2 & Hb)]).
  - split_and!; [done..|]. by left.
  - rewrite HW, Hw in Hw2. injection Hw2 as <-. split_and!; [done..|]. right.
    split; simpl; [rewrite H1, Hb, HW|rewrite HL]; done.
Qed.

(** Neither the ledger nor the wallets are touched by what follows. *)
Lemma keeps_debited w row (m : Tx ()) :
  (∀ W L, keeps (funds W L) m) → keeps (debited w row) m.
Proof.
  intros Hm db (H1 & H2 & H3 & H4). destruct (Hm _ _ db (conj eq_refl eq_refl)) as [E1 E2].
  split_and!; [done..|unfold by_reference; by rewrite E2|]. unfold funds. by rewrite E1, E2.
Qed.

Lemma h_charge w row r :
  W !! w_id w = Some w → w_driver_id w = rv_driver_id reg → w_status w = active →
  no_show point station ba now reg → rv_fee_decision r ≠ fee_legacy_exempt →
  hoare (λ db, known id r any db ∧ debited w row db)
    (update_reservation id (set_rv_fee_ledger_id (Some (l_id row)));; decide_fee id fee_charged "no_show" now) settles.
Proof.
  intros Hw Hd Hs Hn Hl. eapply h_bind.
  { apply h_frame; [eapply h_update; [reflexivity|evolve]|]. apply keeps_debited. intros W' L'. by apply keeps_modify. }
  intros u. eapply h_post.
  2: { apply h_frame; [by apply h_decide|]. apply keeps_debited. intros W' L'. apply funds_decide. }
  intros v db [(r' & Hi & Hk) (H1 & H2 & H3 & H4)]. exists r'. split; [done|]. right.
  assert (rv_fee_decision r' = fee_charged ∧ rv_fee_ledger_id r' = Some (l_id row)) as [Hc Hi'].
  { by destruct Hi as [[-> ?]| ->]. }
  split_and!; [done..|]. exists w, row. split_and!; done.
Qed.
End settle.

(** ** Runs *)

Section runs.
Context {dep : Deployment} (tag_hash : string → string).
Context (request_digest : Z → option Z → option (option Z * option Z) → string).
Context (timeout : Z).

(** The database, and what was sent and not yet concluded. *)
Definition World : Type := Db * list Delivery.

Inductive reservation_step : World → World → Prop :=
| step_create raw driver req cn arrival ev fee version r db db' ds :
    create_reservation tag_hash request_digest raw driver req cn arrival ev fee version db = (inr r, db') →
    reservation_step (db, ds) (db', ds)
| step_cancel driver id req ev r db db' ds :
    cancel_reservation driver id req ev db = (inr r, db') → reservation_step (db, ds) (db', ds)
| step_claim ba k o db db' ds :
    claim timeout ba k db = (inr o, db') → reservation_step (db, ds) (db', option_list o ++ ds)
| step_deliver d outcome db db' l1 l2 :
    deliver d outcome db = (inr (), db') → reservation_step (db, l1 ++ d :: l2) (db', l1 ++ l2)
| step_crash d db l1 l2 : reservation_step (db, l1 ++ d :: l2) (db, l1 ++ l2)
| step_reconcile ba id db db' ds : reconcile ba id db = (inr (), db') → reservation_step (db, ds) (db', ds)
| step_fee ba id db db' ds : fee_one ba id db = (inr (), db') → reservation_step (db, ds) (db', ds)
| step_start cn card oid src now msg h sid db d1 d2 db' ds :
    validate_start cn card oid src now msg db = (inr (true, Some h), d1) →
    reservations d2 = reservations d1 → reservation_commands d2 = reservation_commands d1 →
    consume (rv_id h) sid now d2 = (inr (), db') → reservation_step (db, ds) (db', ds)
| step_refused cn card oid src now msg v db db' ds :
    validate_start cn card oid src now msg db = (inr v, db') → reservation_step (db, ds) (db', ds)
| step_other db db' ds :
    reservations db' = reservations db → reservation_commands db' = reservation_commands db →
    reservation_step (db, ds) (db', ds).

(** The tables are in order, and every delivery is one of a command. *)
Definition world_ok (w : World) : Prop := reservations_ok w.1 ∧ Forall (λ d, delivery_of d w.1) w.2.

Lemma delivery_le d db db' : commands_le db db' → delivery_of d db → delivery_of d db'.
Proof.
  intros Hle (c & Hc & Ha & Hr). destruct (Hle _ _ Hc) as (c' & Hc' & Ha' & Hr'). exists c'. split; [done|]. split; congruence.
Qed.

Lemma deliveries_le ds db db' : good db db' → Forall (λ d, delivery_of d db) ds → Forall (λ d, delivery_of d db') ds.
Proof. intros [_ _ Hc] H. eapply Forall_impl; [exact H|]. intros d. by apply delivery_le. Qed.

Lemma world_good db db' ds :
  good db db' → Forall (λ d, delivery_of d db) ds → world_ok (db', ds) ∧ reservations_le db db'.
Proof. intros G Hds. split; [split; [by apply (good_ok db)|by eapply deliveries_le]|by destruct G]. Qed.

Lemma safe_step {A} (m : Tx A) db a db' ds :
  safe (λ _, True) m → world_ok (db, ds) → m db = (inr a, db') → world_ok (db', ds) ∧ reservations_le db db'.
Proof.
  intros Hm [Hok Hds] H. destruct (Hm db a db' Hok I H) as [G _]. by apply world_good.
Qed.

Lemma forall_drop {A} (P : A → Prop) l1 d l2 : Forall P (l1 ++ d :: l2) → P d ∧ Forall P (l1 ++ l2).
Proof. rewrite !Forall_app, Forall_cons. naive_solver. Qed.

Lemma reservation_step_ok w w' : reservation_step w w' → world_ok w → world_ok w' ∧ reservations_le w.1 w'.1.
Proof.
  intros Hs Hw. destruct Hs.
  - eapply safe_step; [apply h_create|done..].
  - eapply safe_step; [apply h_cancel|done..].
  - destruct Hw as [Hok Hds]. destruct (h_claim timeout ba k db o db' Hok I H) as [G Hc].
    split; [|by destruct G]. split; [by apply (good_ok db)|]. simpl. apply Forall_app.
    split; [destruct o as [d|]; repeat constructor; exact Hc|by eapply deliveries_le].
  - destruct Hw as [Hok Hds]. apply forall_drop in Hds as [Hd Hds].
    assert (∀ c, reservation_commands db !! dl_command_id d = Some c → rm_action c = dl_action d) as Hd'.
    { destruct Hd as (c0 & Hc0 & Ha & _). intros c Hc. simpl in *. by simplify_eq. }
    destruct (h_deliver d outcome db () db' Hok Hd' H) as [G _]. by apply world_good.
  - destruct Hw as [Hok Hds]. apply forall_drop in Hds as [Hd Hds]. split; [by split|reflexivity].
  - eapply safe_step; [apply h_reconcile|done..].
  - eapply safe_step; [apply h_fee_one|done..].
  - destruct Hw as [Hok Hds]. destruct (h_validate_start cn card oid src now msg (λ _, True) db _ d1 Hok I H) as [G1 [Hst Hk]].
    pose proof (good_same d1 d2 (good_ok _ _ G1) H0 H1) as G2. pose proof (stable_known _ _ _ _ _ H0 H1 Hk) as Hk2.
    destruct (h_consume (rv_id h) sid now h Hst d2 () db' (good_ok _ _ G2) Hk2 H2) as [G3 _].
    pose proof (good_trans _ _ _ (good_trans _ _ _ G1 G2) G3) as G. by apply world_good.
  - eapply safe_step; [eapply h_safe, h_validate_start|done..].
  - destruct Hw as [Hok Hds]. pose proof (good_same _ _ Hok H H0) as G. by apply world_good.
Qed.

Lemma reservation_run_ok w w' : rtc reservation_step w w' → world_ok w → world_ok w' ∧ reservations_le w.1 w'.1.
Proof.
  induction 1 as [w|w w1 w' Hs _ IH]; intros Hw; [split; [done|reflexivity]|].
  destruct (reservation_step_ok _ _ Hs Hw) as [H1 L1]. destruct (IH H1) as [H2 L2]. split; [done|]. by etrans.
Qed.

(** C7. Whatever the order in which drivers book and cancel, workers claim,
    send, conclude, lose and reconcile commands, fees are decided and
    transactions start: no connector and no driver ever has two reservations
    that hold; a reserve request is sent at most once; every reservation keeps
    its terms, a released one is never held again, and its fee decision and its
    cancellation are never taken back. *)
Theorem reservations_exclusive w w' :
  rtc reservation_step w w' → world_ok w →
  (∀ k k' r r', reservations w'.1 !! k = Some r → reservations w'.1 !! k' = Some r' →
     holds (rv_status r) = true → holds (rv_status r') = true →
     rv_connector_id r = rv_connector_id r' ∨ rv_driver_id r = rv_driver_id r' → k = k') ∧
  (∀ k c, reservation_commands w'.1 !! k = Some c → rm_action c = ReserveNow → rm_attempts c ≤ 1) ∧
  (∀ k r, reservations w.1 !! k = Some r → ∃ r', reservations w'.1 !! k = Some r' ∧ terms r' = terms r ∧
     (holds (rv_status r) = false → holds (rv_status r') = false) ∧
     (rv_fee_decision r ≠ fee_pending → rv_fee_decision r' ≠ fee_pending) ∧
     (is_Some (rv_cancel_requested_at r) → is_Some (rv_cancel_requested_at r'))).
Proof.
  intros Hrun Hw. destruct (reservation_run_ok _ _ Hrun Hw) as [[Hok _] Hle]. split_and!.
  - intros k k' r r' Hr Hr' Hh Hh' [E|E]; [by apply (res_connector _ Hok k k' r r')|by apply (res_driver _ Hok k k' r r')].
  - intros k c Hc Ha. by destruct (cmd_once _ Hok k c Hc Ha) as [[_ ?] _].
  - intros k r Hr. destruct (Hle k r Hr) as (r' & Hr' & [E1 E2 E3 _ E5 _]). exists r'. split_and!; try done.
    intros Hh. destruct (E2 Hh) as [-> |[_ ->]]; done.
Qed.

End runs.

(** ** What a no-show is charged *)

Lemma h_run {A} P (m : Tx A) Q db a db' :
  reservations_ok db → P db → hoare P m Q → m db = (inr a, db') → good db db' ∧ Q a db'.
Proof. intros Hok HP Hm. by apply Hm. Qed.

Lemma h_row_funds {B} id r W L (k : Reservation → Tx B) Q :
  hoare (λ db, known id r any db ∧ funds W L db) (k r) Q →
  hoare (λ db, known id r any db ∧ funds W L db) (reservation_row id ≫= k) Q.
Proof. intros H. apply h_row. intros r' db a db' Hok [[[Hr HF] Hb] Hr']. simplify_eq. by apply H. Qed.

(** What the guards of [fee_one] have excluded when it charges. *)
Lemma no_show_checked point station ba now r c x y e :
  bool_decide (rv_status r = rv_consumed) || bool_decide (is_Some (rv_session_id r)) = false →
  rv_no_show_exempt r || c = false →
  bool_decide (rv_status r = rv_rejected) || bool_decide (rv_outcome r = Some "not_sent") = false →
  (rv_fee_vnd r =? 0) = false → negb (bool_decide (x = Some true)) || y = e → e = false →
  (x = Some true → verified_at_expiry point station ba now r) → no_show point station ba now r.
Proof.
  intros [H1%bool_decide_eq_false H2%bool_decide_eq_false]%orb_false_iff [H3 _]%orb_false_iff
    [H4%bool_decide_eq_false H5%bool_decide_eq_false]%orb_false_iff H6 H7 -> Hv.
  apply orb_false_iff in H7 as [H7%negb_false_iff%bool_decide_eq_true _].
  split; [done|by apply eq_None_not_Some|done|done|lia|by apply Hv].
Qed.

(** The driver's wallet, from the wallets alone. *)
Lemma h_wallet {B} driver W L P (k : option Wallet → Tx B) Q :
  history W L → (∀ o, (∀ w, o = Some w → W !! w_id w = Some w ∧ w_driver_id w = driver) →
    hoare (λ db, P db ∧ funds W L db) (k o) Q) →
  hoare (λ db, P db ∧ funds W L db) (gets (wallet_of_driver driver) ≫= k) Q.
Proof.
  intros Hh Hk. apply h_gets. intros o db a db' Hok [[HP [HW HL]] Ho] H. eapply (Hk o); [|done| |exact H].
  - intros w ->. by eapply wallet_of_driver_Some.
  - by split.
Qed.

Lemma fee_one_settles ba id db db' r :
  reservations_ok db → ledger_ok db → reservations db !! id = Some r → rv_fee_decision r = fee_pending →
  rv_expires_at r + seconds 30 ≤ db_now db → fee_one ba id db = (inr (), db') →
  ∃ point cn station r', lock_target (rv_connector_id r) db = (inr (point, cn, station), db) ∧
    reservations db' !! id = Some r' ∧
    settled (wallets db) (wallet_ledger db) point station ba (db_now db) id r r' db'.
Proof.
  intros Hok Hled Hr Hp Hdue H. unfold fee_one in H. apply savepoint_ok in H.
  rewrite (bind_ok_step _ _ _ (Some r) db) in H by (unfold gets; by rewrite Hr).
  apply bind_ok in H as ([[point cn] station] & d1 & Ht & H). 
  pose proof (pure_lock_target (rv_connector_id r) db) as Hd1. rewrite Ht in Hd1. simpl in Hd1. subst d1.
  rewrite (bind_ok_step _ _ _ r db) in H by (unfold reservation_row, mbind, M_bind, gets; by rewrite Hr).
  rewrite (bind_ok_step _ _ _ (db_now db) db) in H by done.
  exists point, cn, station. set (now := db_now db) in *.
  assert (negb (bool_decide (rv_fee_decision r = fee_pending)) || (now <? rv_expires_at r + seconds 30) = false) as Hg.
  { rewrite Hp, bool_decide_eq_true_2 by done. simpl. lia. }
  rewrite Hg in H.
  enough (good db db' ∧ settles (wallets db) (wallet_ledger db) point station ba now id r () db') as [_ (r' & [Hr' _] & Hs)].
  { by exists r'. }
  clearbody now. revert H.
  apply (h_run (λ d, known id r any d ∧ funds (wallets db) (wallet_ledger db) d)); [done|by split|].
  eapply h_bind; [apply h_frame; [apply h_observe|apply funds_observe]|intros u].
  apply (h_pre (λ d, ∃ b, (b = Some true → verified_at_expiry point station ba now r) ∧
    known id (set_rv_expiry_fee_eligible b r) any d ∧ funds (wallets db) (wallet_ledger db) d)).
  { intros d [(b & Hk & Hv) Hf]. exists b. split; [|done]. apply Hv; [done|]. unfold seconds, second_us in Hdue. lia. }
  apply h_exists. intros b. apply h_prop. intros Hv. set (r1 := set_rv_expiry_fee_eligible b r).
  assert (rv_fee_decision r1 ≠ fee_legacy_exempt) as Hl by (simpl; congruence).
  apply h_row_funds.
  h_if; [by apply h_uncharged; [set_solver|]|]. rename Heqb0 into Hcons.
  h_if; [by apply h_uncharged; [set_solver|]|]. rename Heqb0 into Hex.
  h_if; [by apply h_uncharged; [set_solver|]|]. rename Heqb0 into Hsent.
  h_if; [by apply h_uncharged_release; [set_solver|]|]. rename Heqb0 into Hfee.
  h_if; [by apply h_uncharged_release; [set_solver|]|]. rename Heqb0 into Hver.
  pose proof (no_show_checked point station ba now r _ _ _ _ Hcons Hex Hsent Hfee Hver eq_refl Hv) as Hns.
  eapply h_bind; [apply h_frame; [apply h_request_release|apply funds_release]|intros v].
  apply (h_pre (λ d, ∃ r2, rv_fee_decision r2 ≠ fee_legacy_exempt ∧ known id r2 any d ∧ funds (wallets db) (wallet_ledger db) d)).
  { intros d [(r2 & Hi & Hk) Hf]. exists r2. split; [by eapply release_fee|done]. }
  apply h_exists. intros r2. apply h_prop. intros Hl2. destruct Hled as [Hh _].
  apply h_wallet; [done|]. intros [w|] Hw; [|by apply h_uncharged; [set_solver|]].
  destruct (Hw w eq_refl) as [Hw1 Hw2].
  h_if; [|by apply h_uncharged; [set_solver|]]. rename Heqb0 into Hact. apply bool_decide_eq_true in Hact.
  eapply h_bind; [by apply (h_debit _ _ id r w)|intros row]. by apply h_charge.
Qed.

(** A fee once decided is left alone. *)
Lemma fee_one_idle ba id db r :
  reservations db !! id = Some r → rv_fee_decision r ≠ fee_pending → (fee_one ba id db).2 = db.
Proof.
  intros Hr Hp. unfold fee_one, savepoint. rewrite (bind_ok_step _ _ _ (Some r) db) by (unfold gets; by rewrite Hr).
  destruct (lock_target (rv_connector_id r) db) as [[e|[[point cn] station]] d1] eqn:Ht.
  { by rewrite (bind_err_step _ _ _ e d1). }
  pose proof (pure_lock_target (rv_connector_id r) db) as Hd1. rewrite Ht in Hd1. simpl in Hd1. subst d1.
  rewrite (bind_ok_step _ _ _ _ _ Ht), (bind_ok_step _ _ _ r db) by (unfold reservation_row, mbind, M_bind, gets; by rewrite Hr).
  rewrite (bind_ok_step _ _ _ (db_now db) db), bool_decide_eq_false_2 by done. done.
Qed.

(** C8. A fee whose window is over is decided by the first pass of the fee
    worker: it is waived or left to review without moving money, or the wallet
    of the driver pays exactly the agreed fee, under the reservation's key, and
    then the reservation was active before it expired, was neither consumed,
    cancelled, rejected nor unsent, and its charger was live. Whatever happens
    afterwards, no later pass changes anything. *)
Theorem no_show_fee_once `{Deployment} tag_hash digest timeout ba id db db' ds r :
  world_ok (db, ds) → ledger_ok db → reservations db !! id = Some r → rv_fee_decision r = fee_pending →
  rv_expires_at r + seconds 30 ≤ db_now db → fee_one ba id db = (inr (), db') →
  (∃ point cn station r', lock_target (rv_connector_id r) db = (inr (point, cn, station), db) ∧
    reservations db' !! id = Some r' ∧
    settled (wallets db) (wallet_ledger db) point station ba (db_now db) id r r' db') ∧
  ∀ w ba', rtc (reservation_step tag_hash digest timeout) (db', ds) w → (fee_one ba' id w.1).2 = w.1.
Proof.
  intros Hw Hled Hr Hp Hdue Hrun. pose proof Hw as [Hok _].
  destruct (fee_one_settles ba id db db' r Hok Hled Hr Hp Hdue Hrun) as (point & cn & station & r' & Ht & Hr' & Hs).
  split; [by exists point, cn, station, r'|]. intros w ba' Hsteps.
  destruct (reservation_step_ok tag_hash digest timeout (db, ds) (db', ds)) as [Hw' _]; [by eapply step_fee|done|].
  destruct (reservation_run_ok _ _ _ _ _ Hsteps Hw') as [_ Hle]. destruct (Hle id r' Hr') as (r2 & Hr2 & E).
  apply (fee_one_idle ba' id w.1 r2 Hr2), (ev_decided _ _ E).
  destruct Hs as [[Hd _]|[-> _]]; [|done]. intros E'. rewrite E' in Hd. set_solver.
Qed.

(** ** A reservation, end to end *)

Definition demo_driver_db : Db :=
  set_reservation_policies {[ 30 := mkPolicy 30 20000 1 ]}
    (set_reservation_capabilities {[ 40 := mkCapability 40 (Some 0) true (Some 0) 0 None None "supported" ]}
      (set_charge_points {[ 40 := mkChargePoint 40 30 "online" (Some 0) 3600 None None None None 0 None (Some 0) None None None None "CP-40" 0 None ]}
        (set_connectors {[ 41 := mkConnector 41 40 1 "Available" (Some "Available") None 0 None None None None None None ]} demo_tariff_db))).

(** The driver topped up, so that the books agree. *)
Definition demo_funded_db : Db :=
  (ghi_so_cai 10 gateway_topup 500000 "gateway_transaction" "gw-1" None demo_driver_db).2.

#[local] Existing Instance demo_deployment.
Definition demo_digest : Z → option Z → option (option Z * option Z) → string := λ _ _ _, "digest".
Definition demo_create := create_reservation id demo_digest "driver-tag" 2 7 41 None demo_evidence (Some 20000) (Some 1).
Definition demo_booked : Db := (demo_create demo_funded_db).2.
Definition demo_sent : Db := (claim 30 true 7 demo_booked).2.
Definition demo_delivery : Delivery :=
  mkDelivery 7 7 207 ReserveNow [("connectorId", JInt 1); ("reservationId", JInt 204);
    ("idTag", JStr "driver-tag"); ("expiryDate", JInt (seconds 900))].
Definition demo_active : Db := (deliver demo_delivery "Accepted" demo_sent).2.

(** The clock moves, and the charger is heard of. *)
Definition at_time (now : Z) (db : Db) : Db :=
  set_charge_points (alter (set_cp_last_seen_at (Some now)) 40 (charge_points db)) (set_db_now now db).
Definition demo_overdue : Db := at_time (seconds 930) demo_active.

Lemma demo_world_ok : world_ok (demo_funded_db, []).
Proof.
  assert (reservations demo_funded_db = ∅ ∧ reservation_commands demo_funded_db = ∅) as [E1 E2] by (vm_compute; done).
  split; [|constructor]. split; simpl; rewrite ?E1, ?E2; intros *; rewrite lookup_empty; done.
Defined.

Definition demo_row : Reservation :=
  mkReservation 7 204 2 30 40 41 203 "digest" rv_pending 0 0 (seconds 900) 0 None None None None false None 20000 1
    fee_pending None None None None None.

Lemma demo_steps : rtc (reservation_step id demo_digest 30) (demo_funded_db, []) (demo_overdue, []).
Proof.
  apply (rtc_l _ _ (demo_booked, [])).
  { eapply (step_create _ _ _ "driver-tag" 2 7 41 None demo_evidence (Some 20000) (Some 1) demo_row).
    unfold demo_booked, demo_create. apply ran. vm_compute. reflexivity. }
  apply (rtc_l _ _ (demo_sent, [demo_delivery])).
  { apply (step_claim _ _ _ true 7 (Some demo_delivery) demo_booked demo_sent []). unfold demo_sent. apply ran. vm_compute. reflexivity. }
  apply (rtc_l _ _ (demo_active, [])).
  { apply (step_deliver _ _ _ demo_delivery "Accepted" demo_sent demo_active [] []). unfold demo_active. apply ran. vm_compute. reflexivity. }
  apply rtc_once. apply step_other; reflexivity.
Defined.

Lemma reservations_exclusive_witness :
  ∃ r, reservations demo_overdue !! 7 = Some r ∧ rv_status r = rv_active ∧
    ∀ k' r', reservations demo_overdue !! k' = Some r' → holds (rv_status r') = true → rv_connector_id r' = 41 → k' = 7.
Proof.
  destruct (reservations_exclusive id demo_digest 30 _ _ demo_steps demo_world_ok) as (Hex & _).
  eexists. split; [vm_compute; reflexivity|]. split; [reflexivity|].
  intros k' r' Hr' Hh Hcn. eapply Hex; [exact Hr'|vm_compute; reflexivity|exact Hh|reflexivity|left; exact Hcn].
Defined.

(** The driver's wallet when the window is over: the top-up and nothing else. *)
Lemma demo_overdue_ledger : ledger_ok demo_overdue.
Proof.
  assert (ledger_ok demo_funded_db) as H.
  { apply (keeps_ghi_so_cai 10 gateway_topup 500000 "gateway_transaction" "gw-1" None demo_driver_db). exact demo_db_ok. }
  unfold ledger_ok in *. assert (wallets demo_overdue = wallets demo_funded_db) as -> by (vm_compute; reflexivity).
  assert (wallet_ledger demo_overdue = wallet_ledger demo_funded_db) as -> by (vm_compute; reflexivity). exact H.
Defined.

Definition demo_charged : Db := (fee_one true 7 demo_overdue).2.

Lemma no_show_fee_once_witness :
  (fee_one true 7 demo_charged).2 = demo_charged ∧
  w_balance_vnd <$> wallets demo_overdue !! 10 = Some 500000 ∧ w_balance_vnd <$> wallets demo_charged !! 10 = Some 480000.
Proof.
  assert (∃ r, reservations demo_overdue !! 7 = Some r ∧ rv_fee_decision r = fee_pending ∧ rv_expires_at r = seconds 900)
    as (r & Hr & Hp & He) by (eexists; split; [vm_compute; reflexivity|split; reflexivity]).
  assert (fee_one true 7 demo_overdue = (inr (), demo_charged)) as Hrun.
  { unfold demo_charged. apply ran. vm_compute. reflexivity. }
  pose proof (proj1 (reservation_run_ok _ _ _ _ _ demo_steps demo_world_ok)) as Hw.
  assert (rv_expires_at r + seconds 30 ≤ db_now demo_overdue) as Hdue.
  { rewrite He. change (db_now demo_overdue) with (seconds 930). unfold seconds, second_us. lia. }
  split; [|split; vm_compute; reflexivity].
  exact (proj2 (no_show_fee_once id demo_digest 30 true 7 demo_overdue demo_charged [] r Hw demo_overdue_ledger Hr Hp Hdue Hrun)
    (demo_charged, []) true (rtc_refl _ _)).
Defined.

(** ** Where the windows meet *)

(** The card the reservation was made with. *)
Definition demo_card : ChargingCard := mkCard 203 "driver-tag" "-tag" 2 2 "active" None.

(** At the last instant of the fee window, thirty seconds after the expiry,
    the no-show fee is charged, and the start is still accepted: the driver is
    charged for not coming to a reservation that a transaction consumed. *)
Lemma fee_window_overlap :
  let now := seconds 930 in
  let '(verdict, db1) := validate_start 41 (Some demo_card) (Some 204) (seconds 899) now None demo_charged in
  let '(_, db2) := consume 7 1000 now db1 in
  match verdict with inr (ok, Some h) => ok && (rv_id h =? 7) | _ => false end = true ∧
  (λ r, (rv_status r, rv_fee_decision r, rv_fee_reason r)) <$> reservations db2 !! 7 =
    Some (rv_consumed, fee_charged, Some "no_show").
Proof. vm_compute. split; reflexivity. Qed.

(** A reservation whose request was never sent, because the charger stayed away
    until after the expiry. *)
Definition demo_unsent : Db :=
  set_connectors {[ 41 := mkConnector 41 40 1 "Available" (Some "Available") (Some (seconds 935)) (seconds 935) None None None None None None ]}
    (at_time (seconds 940) demo_booked).

(** [fee_one] alone would waive its fee; once a reconciliation saw the
    connector available, the outcome that says so is overwritten and the fee is
    left to review. *)
Lemma unsent_outcome_overwritten :
  let fee db := (λ r, (rv_fee_decision r, rv_fee_reason r)) <$> reservations db !! 7 in
  let released := (request_release 7 (seconds 900) "expired" None demo_unsent).2 in
  fee (fee_one true 7 released).2 = Some (fee_waived, Some "never_reserved") ∧
  rm_attempts <$> reservation_commands (reconcile true 7 demo_unsent).2 !! 7 = Some 0 ∧
  fee (fee_one true 7 (reconcile true 7 demo_unsent).2).2 = Some (fee_review, Some "reservation_not_verified_at_expiry").
Proof. vm_compute. split_and!; reflexivity. Qed.
