(* ===== verification/Sessions.v ===== *)
(** * Sessions: admitting a driver and starting a transaction

    Models [authorize] and [start_transaction] of
    [src/src/modules/charging/service.py], the start requests of
    [charging/driver.py] they settle, and [ocpp/configuration_gate.py]. The
    SHA-256 of a tag is a parameter. *)

From S2P Require Import Prelude Bands Clock Text Store AuditTrail Wallet Pricing Eligibility Closure Occupation Monitoring MeterUnits Metering PowerSchedule PowerControl Reservations.

(** ** Configuration of the charger *)

Definition newest_verified (point_id : Z) (db : Db) : list ConfigurationIntent :=
  filter (λ i, ci_charge_point_id i = point_id ∧ ci_key i = "HeartbeatInterval" ∧ ci_state i = "verified")
    (rows (configuration_intents db)).

(** [verified_at] is set with the state. *)
Definition verified_heartbeat (point_id default_ : Z) (db : Db) : Z :=
  match last (sort_by (λ i, default 0 (ci_verified_at i)) (newest_verified point_id db)) with
  | Some i => ci_value i
  | None => default_
  end.

Definition reboot_heartbeat (point_id : Z) (db : Db) : option Z :=
  ci_value <$> select_where (λ i, (ci_charge_point_id i =? point_id) && bool_decide (ci_key i = "HeartbeatInterval") &&
    bool_decide (ci_state i ∈ ["reboot_required"; "resetting"])) (configuration_intents db).

Definition reset_pending (point_id : Z) (db : Db) : bool :=
  bool_decide (is_Some (select_where (λ i, (ci_charge_point_id i =? point_id) && bool_decide (is_Some (ci_reset_id i)) &&
    bool_decide (ci_state i ∈ ["resetting"; "reboot_required"])) (configuration_intents db))).

(** ** Requests of drivers to start *)

Definition update_start (id : Z) (f : DriverStartRequest → DriverStartRequest) : Tx () :=
  modify (λ db, set_driver_start_requests (alter f id (driver_start_requests db)) db).

(** The newest request of the driver for the connector that no transaction answered. *)
Definition open_start (driver_id connector_id : Z) (db : Db) : option DriverStartRequest :=
  last (sort_by sr_created_at (filter (λ s, sr_driver_id s = driver_id ∧ sr_connector_id s = connector_id ∧
    sr_session_id s = None ∧ sr_status s ∈ ["Pending"; "Accepted"; "StartNotConfirmed"; "Timeout"; "Disconnected"])
    (rows (driver_start_requests db)))).

(** Only a card that is a driver's virtual tag has such a request. *)
Definition settle_start (connector_id : Z) (card : option ChargingCard)
    (f : Z → DriverStartRequest → DriverStartRequest) : Tx () :=
  match card with
  | None => mret ()
  | Some c =>
      tag ← gets (λ db, select_where (λ t, vt_card_id t =? cc_id c) (id_tags db));
      match tag with
      | None => mret ()
      | Some _ =>
          request ← gets (open_start (cc_driver_id c) connector_id);
          match request with
          | None => mret ()
          | Some r => now ← gets db_now; update_start (sr_id r) (f now)
          end
      end
  end.

Definition reason_word (r : EligibilityReason) : string :=
  match r with
  | wallet_missing => "wallet_missing" | wallet_locked => "wallet_locked"
  | wallet_low => "wallet_low" | tariff_unavailable => "tariff_unavailable"
  end.

Definition reject_remote_start (connector_id : Z) (card : option ChargingCard) (eligibility : ChargingEligibility) : Tx () :=
  settle_start connector_id card (λ now r, set_sr_lease_until now
    (set_sr_minimum_balance_vnd (minimum_balance_vnd eligibility) (set_sr_balance_vnd (balance_vnd eligibility)
      (set_sr_rejection_reason (reason_word <$> reason eligibility) (set_sr_status "Rejected" r))))).

Definition reject_unavailable_start (connector_id : Z) (card : option ChargingCard) (reason : string) : Tx () :=
  settle_start connector_id card (λ now r, set_sr_lease_until now
    (set_sr_rejection_reason (Some reason) (set_sr_status "Rejected" r))).

Definition attach_remote_start (transaction : ChargingSession) (card : option ChargingCard) : Tx () :=
  when (bool_decide (cs_authorization_status transaction = "Accepted"))
    (settle_start (cs_connector_id transaction) card (λ now r, set_sr_lease_until now
      (set_sr_status "Started" (set_sr_session_id (Some (cs_id transaction)) r)))).

Section sessions.
Context {dep : Deployment} (tag_hash : string → string).

(** ** Authorization *)

(** The card of a tag and the state of its driver. *)
Definition card_of (tag : string) (db : Db) : option (ChargingCard * UserRow) :=
  card ← select_where (λ c, bool_decide (cc_tag_hash c = tag_hash tag) && bool_decide (is_Some (users db !! cc_driver_id c)))
    (charging_cards db);
  user ← users db !! cc_driver_id card;
  Some (card, user).

Definition judge_card (row : option (ChargingCard * UserRow)) (now : Z) : string :=
  match row with
  | None => "Invalid"
  | Some (card, user) =>
      if negb (bool_decide (cc_status card = "active")) || negb (bool_decide (u_status user = "active")) ||
         negb (bool_decide ("driver" ∈ u_roles user)) then "Blocked"
      else if match cc_expires_at card with Some t => t <=? now | None => false end then "Expired"
      else "Accepted"
  end.

Definition station_open (station : option Station) : bool :=
  match station with
  | Some s => bool_decide (st_archived_at s = None) && bool_decide (st_status s = "active")
  | None => false
  end.

Definition note_attempt (charger_id : Z) (tag result : string) : Tx () :=
  id ← fresh_id;
  modify (λ db, set_authorization_attempts (authorization_attempts db ++
    [mkAttempt id charger_id (tail4 tag) result (db_now db)]) db).

(** A further condition an accepted tag must meet. *)
Definition provided (b : bool) (result : string) : string :=
  if bool_decide (result = "Accepted") && negb b then "Blocked" else result.

(** The verdict, the card, and what the wallet lacked. *)
Definition authorize (charger : ChargePoint) (tag : string) (reservation_context : bool) :
    Tx (string * option ChargingCard * option ChargingEligibility) :=
  resetting ← gets (reset_pending (cp_id charger));
  if (resetting : bool) then mret ("Blocked", None, None)
  else
    row ← gets (card_of tag);
    station ← gets (λ db, stations db !! cp_station_id charger);
    now ← gets db_now;
    let result := if station_open station then judge_card row now else "Blocked" in
    admitted ← gets (λ db : Db, match row with
                           | Some (card, _) => reservation_context || authorize_allowed (cp_id charger) card now db
                           | None => false
                           end);
    let result := provided admitted result in
    power ← gets (power_start_allowed (cp_station_id charger) None);
    let result := provided power result in
    verdict ← match row with
              | Some (card, _) =>
                  if bool_decide (result = "Accepted") then
                    eligibility ← du_so_du_de_sac (cc_driver_id card) (cp_station_id charger) None;
                    if allowed eligibility then mret ("Accepted", None)
                    else raise_if (bool_decide (reason eligibility = None)) RuntimeError;; mret ("Blocked", Some eligibility)
                  else mret (result, None)
              | None => mret (result, None)
              end;
    note_attempt (cp_id charger) tag verdict.1;;
    mret (verdict.1, fst <$> row, verdict.2).

(** ** Starting *)

Record StartPayload := mkStartPayload {
  sp_id_tag : string; sp_connector_id : Z; sp_meter_start : Z; sp_timestamp : Z; sp_reservation_id : option Z
}.

(** The last session on the charger's connector of that number. *)
Definition previous_session (charger_id number : Z) (db : Db) : option ChargingSession :=
  last (sort_by cs_id (filter (λ c, (cs_charge_point_id c =? charger_id) &&
    match connectors db !! cs_connector_id c with
    | Some cn => (cn_connector_number cn =? number) && bool_decide (cn_archived_at cn = None)
    | None => false
    end = true) (rows (charging_sessions db)))).

Definition open_on (connector_id : Z) (c : ChargingSession) : bool :=
  (cs_connector_id c =? connector_id) && bool_decide (cs_ended_at c = None).

Definition replaced (now : Z) (c : ChargingSession) : ChargingSession :=
  set_cs_abnormal_since None (set_review (review "replaced_open_session")
    (set_cs_stop_reason (Some "ReplacedByNewTransaction") (set_cs_ended_at (Some now) c))).

Definition unreleased (c : ChargingSession) : bool :=
  (cs_billing_lifecycle_version c =? 1) && bool_decide (is_Some (cs_ended_at c)) &&
  bool_decide (cs_connector_released_at c = None).

(** ["authorization_" + result.lower()] *)
Definition authorization_reason (result : string) : string :=
  if bool_decide (result = "Blocked") then "authorization_blocked"
  else if bool_decide (result = "Expired") then "authorization_expired" else "authorization_invalid".

Definition new_session (id : Z) (charger : ChargePoint) (connector_id : Z) (card : option ChargingCard) (result : string)
    (p : StartPayload) (replaces : bool) (now : Z) : ChargingSession :=
  let reasons := if bool_decide (result = "Accepted") then [] else review (authorization_reason result) [] in
  let reasons := if sp_meter_start p <? 0 then review "negative_start_meter" reasons else reasons in
  let reasons := if replaces then review "replaced_open_session" reasons else reasons in
  mkSession id (cp_id charger) connector_id (cc_driver_id <$> card) (tail4 (sp_id_tag p)) result (sp_timestamp p) None None 1
    (if billing_available_confirms_unplug then "available" else "explicit") None None None (sp_meter_start p * micro) None None
    None None None None None None reasons now.

Definition insert_session (row : Z → ChargingSession) : Tx ChargingSession :=
  id ← fresh_id;
  other ← gets (λ db, select_where (open_on (cs_connector_id (row id))) (charging_sessions db));
  raise_if (bool_decide (is_Some other)) (IntegrityError "uq_charging_sessions_open_connector");;
  modify (λ db, set_charging_sessions (<[id := row id]> (charging_sessions db)) db);;
  mret (row id).

Definition lock_charge_point_code_for_charging (charger_id now : Z) : Tx () :=
  modify (λ db, set_charge_points (alter (λ c, if bool_decide (cp_code_locked_at c = None)
    then set_cp_code_locked_at (Some now) c else c) charger_id (charge_points db)) db).

(** A start that is turned away. *)
Definition turn_away (charger : ChargePoint) (call : Call) (connector_id : Z) (card : option ChargingCard) (why : string) :
    Tx (Z * string) :=
  reject_unavailable_start connector_id card why;; pending (cp_id charger) call why;; mret (0, "Blocked").

(** The transaction is opened. *)
Definition open_session (charger : ChargePoint) (p : StartPayload) (previous : option ChargingSession) (connector_id : Z)
    (card : option ChargingCard) (result : string) (reservation : option Reservation) : Tx (Z * string) :=
  now ← gets db_now;
  old ← gets (λ db, select_where (open_on connector_id) (charging_sessions db));
  match old with Some c => update_session (cs_id c) (replaced now) | None => mret () end;;
  match previous with
  | Some c => update_session (cs_id c) (λ c, if unreleased c then flag "occupation_replaced_before_release" c else c)
  | None => mret ()
  end;;
  transaction ← insert_session (λ id, new_session id charger connector_id card result p (bool_decide (is_Some old)) now);
  match reservation with Some r => consume (rv_id r) (cs_id transaction) now | None => mret () end;;
  lock_charge_point_code_for_charging (cp_id charger) now;;
  attach_remote_start transaction card;;
  when (bool_decide (result = "Accepted")) (note_power_start (cp_station_id charger) connector_id);;
  mret (cs_id transaction, result).

Definition start_transaction (charger : ChargePoint) (call : Call) (p : StartPayload) : Tx (Z * string) :=
  previous ← gets (previous_session (cp_id charger) (sp_connector_id p));
  registered ← gets (find_connector (cp_id charger) (sp_connector_id p));
  connector ← some_or registered ValueError;
  verdict ← authorize charger (sp_id_tag p) true;
  let '(result, card, wallet_failure) := verdict in
  now ← gets db_now;
  held ← validate_start (cn_id connector) card (sp_reservation_id p) (sp_timestamp p) now (Some (ca_message_id call));
  let '(reservation_allowed, reservation) := held in
  if negb reservation_allowed || (bool_decide (is_Some reservation) && negb (bool_decide (result = "Accepted")) &&
                                  match wallet_failure with None => true | Some _ => false end)
  then turn_away charger call (cn_id connector) card "reservation_unavailable"
  else
    station ← gets (λ db, stations db !! cp_station_id charger);
    if negb (station_open station) then turn_away charger call (cn_id connector) card "station_unavailable"
    else
      power ← gets (power_start_allowed (cp_station_id charger) None);
      if negb power then turn_away charger call (cn_id connector) card "power_unavailable"
      else
        match wallet_failure with
        | Some eligibility =>
            reject_remote_start (cn_id connector) card eligibility;;
            why ← some_or (reason eligibility) AssertionError;
            pending (cp_id charger) call (reason_word why);;
            mret (0, "Blocked")
        | None => open_session charger p previous (cn_id connector) card result reservation
        end.
End sessions.
