(* ===== verification/Control.v ===== *)
(** * Control: commands to chargers

    Models [src/src/modules/ocpp/control.py] and, of
    [src/src/modules/charging/driver.py], the two transactions around the wire
    of [remote_start], [expire_start_requests] and [virtual_tag]. What the
    socket registry knows of the charger is an argument, as is the reply to a
    call. *)

From Stdlib Require Import Ascii.
From S2P Require Import Prelude Bands Clock Text Store AuditTrail Wallet Pricing Eligibility Closure Occupation Monitoring MeterUnits Metering PowerSchedule PowerControl Reservations ReservationWorker Sessions.

Definition COMMAND_TIMEOUT : Z := seconds 30.
Definition STOP_CONFIRMATION_SECONDS : Z := 120.
Definition START_CONFIRMATION_SECONDS : Z := 60.

(** ** Results *)

Definition insert_control (row : ControlRequest) : Tx () :=
  dup ← gets (λ db, control_requests db !! co_id row);
  raise_if (bool_decide (is_Some dup)) (IntegrityError "ocpp_control_requests_pkey");;
  modify (λ db, set_control_requests (<[co_id row := row]> (control_requests db)) db).

(** [INSERT ... ON CONFLICT DO NOTHING] *)
Definition record_result (command_id : Z) (status : string) (now : Z) : Tx () :=
  request ← gets (λ db, control_requests db !! command_id);
  raise_if (bool_decide (request = None)) (IntegrityError "ocpp_control_results_command_id_fkey");;
  modify (λ db, match control_results db !! command_id with
                | Some _ => db
                | None => set_control_results (<[command_id := mkResult status now]> (control_results db)) db
                end).

Definition command_status (command_id : Z) (db : Db) : string :=
  match control_results db !! command_id with
  | Some r => if bool_decide (cr_status r = "") then "Pending" else cr_status r
  | None => "Pending"
  end.

(** What came back for a call. *)
Inductive Wire := Replied (kind : Z) (payload : list (string * Json)) | NoReply | Broken.

Definition send_command (w : Wire) : string :=
  match w with
  | Replied kind payload =>
      if kind =? 3 then
        match field "status" payload with
        | Some (JStr "Accepted") => "Accepted"
        | Some (JStr "Rejected") => "Rejected"
        | _ => "ProtocolError"
        end
      else "ProtocolError"
  | NoReply => "Timeout"
  | Broken => "Disconnected"
  end.

(** ** Commands *)

(** A charger, by its UUID, or a transaction, by its number. *)
Inductive Target := OfPoint (id : Z) | OfSession (id : Z).

Definition target_json (t : Target) : Json :=
  match t with OfPoint id => JStr (uuid_str id) | OfSession id => JInt id end.

(** [code.upper().startswith("DEMO-STG-")] *)
Definition upper_char (c : ascii) : ascii :=
  if (97 <=? code c) && (code c <=? 122) then chr (code c - 32) else c.
Definition demo_code (s : string) : bool :=
  bool_decide (take 9 (upper_char <$> chars s) = chars "DEMO-STG-").

(** The transaction of a session, as [session.get] finds it. *)
Definition session_of (t : Target) : Tx (option ChargingSession) :=
  match t with
  | OfSession id => gets (λ db, charging_sessions db !! id)
  | OfPoint _ => raise DataError
  end.

(** A JSON string of plain characters. *)
Definition quoted (s : string) : string := String "034"%char (s +:+ String "034"%char EmptyString).

(** [data] is the JSON text of an object, its keys sorted. *)
Definition demo_payload (c : ChargingSession) (cn : Connector) : list (string * Json) :=
  [("vendorId", JStr "CSMS-DEMO"); ("messageId", JStr "Unplug");
   ("data", JStr ("{" +:+ quoted "connectorId" +:+ ": " +:+ str_int (cn_connector_number cn) +:+ ", " +:+
      quoted "transactionId" +:+ ": " +:+ str_int (cs_id c) +:+ "}"))].

Definition matches_target (t : Target) (action : string) (r : ControlRequest) : bool :=
  match t with
  | OfPoint id => bool_decide (action = "Reset") && (co_charge_point_id r =? id)
  | OfSession id => negb (bool_decide (action = "Reset")) && bool_decide (co_transaction_id r = Some id)
  end.

(** A charger that answers: admitted on its socket and heard of lately. *)
Definition reachable (boot_accepted : bool) (now : Z) (c : ChargePoint) : bool :=
  boot_accepted &&
  match cp_last_seen_at c with
  | Some t => now - seconds (2 * cp_heartbeat_interval_seconds c) <=? t
  | None => false
  end.

Definition audit_action (action : string) : string :=
  if bool_decide (action = "Reset") then "ocpp.reset"
  else if bool_decide (action = "RemoteStopTransaction") then "ocpp.remote_stop" else "demo.unplug_requested".

Section control.
Context {dep : Deployment}.

(** The owned session a driver's command is about. *)
Definition driver_session (action : string) (target : Target) (driver_id : option Z) : Tx (option ChargingSession) :=
  match driver_id with
  | None => mret None
  | Some d =>
      raise_if (bool_decide (action = "Reset")) (HTTPException 403);;
      c ← session_of target;
      charging ← some_or c (HTTPException 404);
      raise_if (negb (bool_decide (cs_driver_id charging = Some d))) (HTTPException 403);;
      mret (Some charging)
  end.

Definition command_payload (action : string) (target : Target) (reset_type : string) (charging : option ChargingSession) :
    Tx (list (string * Json)) :=
  if bool_decide (action = "DataTransfer") then
    c ← some_or charging AssertionError;
    point ← gets (λ db, charge_points db !! cs_charge_point_id c);
    connector ← gets (λ db, connectors db !! cs_connector_id c);
    raise_if (match point with Some p => negb (demo_code (cp_code p)) | None => true end) (HTTPException 404);;
    raise_if (negb (bool_decide (cs_release_detection c = "available"))) (HTTPException 409);;
    cn ← some_or connector (HTTPException 404);
    mret (demo_payload c cn)
  else mret (if bool_decide (action = "Reset") then [("type", JStr reset_type)] else [("transactionId", target_json target)]).

(** The charger and the transaction a new command is for. *)
Definition command_target (action : string) (target : Target) (charging : option ChargingSession) : Tx (Z * option Z) :=
  if bool_decide (action = "Reset") then
    match target with OfPoint id => mret (id, None) | OfSession _ => raise (HTTPException 422) end
  else
    c ← match charging with Some c => mret (Some c) | None => session_of target end;
    charging ← some_or c (HTTPException 404);
    raise_if (bool_decide (action = "RemoteStopTransaction") && bool_decide (is_Some (cs_ended_at charging))) (HTTPException 409);;
    raise_if (bool_decide (action = "DataTransfer") && bool_decide (is_Some (cs_connector_released_at charging))) (HTTPException 409);;
    mret (cs_charge_point_id charging, Some (cs_id charging)).

(** What the first transaction of a command ends with: its status, or the
    payload to put on the wire. *)
Inductive Begun := Answered (status : string) | Send (payload : list (string * Json)).

Definition execute_command (actor_id command_id : Z) (action : string) (target : Target) (reset_type : string)
    (authorization : option Evidence) (driver_id : option Z) (boot_accepted : bool) : Tx Begun :=
  savepoint (
    raise_if (negb (bool_decide (action ∈ ["Reset"; "RemoteStopTransaction"; "DataTransfer"]))) (HTTPException 422);;
    raise_if (match driver_id with Some d => negb (d =? actor_id) | None => false end) (HTTPException 403);;
    raise_if (bool_decide (action = "DataTransfer") &&
              (bool_decide (driver_id = None) || negb demo_driver_unplug_enabled)) (HTTPException 404);;
    now ← gets db_now;
    charging ← driver_session action target driver_id;
    payload ← command_payload action target reset_type charging;
    previous ← gets (λ db, control_requests db !! command_id);
    match previous with
    | Some r =>
        raise_if (negb (co_actor_id r =? actor_id) || negb (bool_decide (co_action r = action)) ||
                  negb (json_eqb (JObj (co_payload r)) (JObj payload)) || negb (matches_target target action r))
          (HTTPException 409);;
        status ← gets (command_status command_id);
        mret (Answered status)
    | None =>
        t ← command_target action target charging;
        let '(charger_id, transaction_id) := t in
        p ← gets (λ db, charge_points db !! charger_id);
        charger ← some_or p (HTTPException 404);
        s ← gets (λ db, stations db !! cp_station_id charger);
        station ← some_or s (HTTPException 404);
        raise_if (bool_decide (is_Some (st_archived_at station))) (HTTPException 404);;
        user ← gets (λ db, users db !! actor_id);
        insert_control (mkControl command_id (match user with Some u => u_email u | None => uuid_str actor_id end)
          (cp_code charger) actor_id charger_id transaction_id action (ev_permission <$> authorization)
          (ev_roles <$> authorization) payload now);;
        ghi_nhat_ky (Some actor_id) (audit_action action)
          (if bool_decide (action = "Reset") then "charge_point" else "charging_session")
          (match transaction_id with Some tid => str_int tid | None => uuid_str charger_id end)
          [("request_id", JStr (uuid_str command_id))] (ev_permission <$> authorization) (ev_roles <$> authorization);;
        if bool_decide (is_Some (cp_archived_at charger)) || negb (reachable boot_accepted now charger) then
          record_result command_id "Offline" now;; mret (Answered "Offline")
        else mret (Send payload)
    end).

(** The second transaction, with what the wire said. *)
Definition conclude_command (command_id : Z) (w : Wire) : Tx string :=
  savepoint (
    now ← gets db_now;
    record_result command_id (send_command w) now;;
    gets (command_status command_id)).

(** *** Deadlines *)

Definition overdue (now : Z) (db : Db) (r : ControlRequest) : bool :=
  bool_decide (control_results db !! co_id r = None) && (co_created_at r <? now - (COMMAND_TIMEOUT + seconds 1)).

(** A stop the charger accepted two minutes ago, of a transaction still open. *)
Definition unconfirmed_stop (now : Z) (db : Db) (r : ControlRequest) : option Z :=
  if bool_decide (co_action r = "RemoteStopTransaction") then
    match control_results db !! co_id r, co_transaction_id r with
    | Some result, Some tid =>
        if bool_decide (cr_status result = "Accepted") && (cr_received_at result <=? now - seconds STOP_CONFIRMATION_SECONDS) &&
           match charging_sessions db !! tid with Some c => bool_decide (cs_ended_at c = None) | None => false end
        then Some tid else None
    | _, _ => None
    end
  else None.

Definition flag_stop (now tid : Z) : Tx () :=
  c ← gets (λ db, charging_sessions db !! tid);
  match c with
  | None => mret ()
  | Some charging =>
      when (bool_decide (cs_ended_at charging = None) &&
            negb (bool_decide ("remote_stop_not_confirmed" ∈ cs_review_reasons charging))) (
        update_session tid (λ c, set_cs_review_reasons (cs_review_reasons c ++ ["remote_stop_not_confirmed"]) c);;
        id ← fresh_id;
        modify (λ db, set_session_events (session_events db ++
          [mkEvent id tid "remote_stop_not_confirmed" None [] now]) db))
  end.

Definition scan_control_deadlines (at_ : option Z) : Tx () :=
  now ← clock at_;
  late ← gets (λ db, filter (λ r, overdue now db r = true) (rows (control_requests db)));
  for_each late (λ r, record_result (co_id r) "Timeout" now);;
  stops ← gets (λ db, omap (unconfirmed_stop now db) (rows (control_requests db)));
  for_each (remove_dups stops) (flag_stop now).

(** ** Starting on behalf of a driver *)

Definition active_start (s : DriverStartRequest) : bool := bool_decide (sr_status s ∈ ["Pending"; "Accepted"]).

Definition expire_start (now : Z) (r : DriverStartRequest) : Tx () :=
  if bool_decide (sr_status r = "Pending") then
    update_start (sr_id r) (λ r, set_sr_reply_at (Some now) (set_sr_reply_status "Timeout" (set_sr_status "Timeout" r)));;
    record_result (sr_id r) "Timeout" now
  else update_start (sr_id r) (set_sr_status "StartNotConfirmed").

Definition expire_start_requests (at_ : option Z) : Tx Z :=
  now ← clock at_;
  requests ← gets (λ db, filter (λ s, active_start s = true ∧ sr_lease_until s ≤ now) (rows (driver_start_requests db)));
  for_each requests (expire_start now);;
  mret (Z.of_nat (length requests)).

(** The word a request is shown with. *)
Definition start_status (now : Z) (r : DriverStartRequest) : string :=
  if bool_decide (sr_status r = "Accepted") && (sr_lease_until r <=? now) then "StartNotConfirmed" else sr_status r.

Context (tag_hash : string → string).

Definition virtual_tag (raw : string) (driver_id : Z) : Tx string :=
  tag ← ensure_driver_resources tag_hash raw driver_id;
  card ← gets (λ db, charging_cards db !! vt_card_id tag);
  now ← gets db_now;
  raise_if (match card with
            | Some c => negb (bool_decide (cc_status c = "active")) ||
                        match cc_expires_at c with Some t => t <=? now | None => false end
            | None => true
            end) (HTTPException 409);;
  mret (vt_id_tag tag).

(** A session that keeps the connector, or the driver, busy. *)
Definition engaged (connector_id driver_id : Z) (c : ChargingSession) : bool :=
  (bool_decide (cs_ended_at c = None) ||
   ((cs_billing_lifecycle_version c =? 1) && bool_decide (cs_connector_released_at c = None))) &&
  ((cs_connector_id c =? connector_id) || bool_decide (cs_driver_id c = Some driver_id)).

Definition insert_start (row : DriverStartRequest) : Tx () :=
  dup ← gets (λ db, driver_start_requests db !! sr_id row);
  raise_if (bool_decide (is_Some dup)) (IntegrityError "driver_start_requests_pkey");;
  modify (λ db, set_driver_start_requests (<[sr_id row := row]> (driver_start_requests db)) db).

Definition remote_start (raw : string) (driver_id request_id connector_id : Z) (authorization : option Evidence)
    (boot_accepted : bool) : Tx Begun :=
  savepoint (
    now ← gets db_now;
    prev ← gets (λ db, driver_start_requests db !! request_id);
    match prev with
    | Some previous =>
        raise_if (negb (sr_driver_id previous =? driver_id) || negb (sr_connector_id previous =? connector_id)) (HTTPException 409);;
        mret (Answered (start_status now previous))
    | None =>
        reg ← gets (λ db, connectors db !! connector_id);
        connector ← some_or reg (HTTPException 404);
        point ← gets (λ db, charge_points db !! cn_charge_point_id connector);
        resetting ← gets (λ db, match point with Some p => reset_pending (cp_id p) db | None => false end);
        raise_if resetting (HTTPException 409);;
        station ← gets (λ db, p ← point; stations db !! cp_station_id p);
        reservation ← gets (connector_hold connector_id);
        raise_if (match reservation with
                  | Some r => negb (bool_decide (rv_status r = rv_active) && admissible r driver_id now)
                  | None => false
                  end) (HTTPException 409);;
        u ← gets (λ db, users db !! driver_id);
        driver ← some_or u (HTTPException 403);
        raise_if (negb (bool_decide (u_status driver = "active")) || negb (bool_decide ("driver" ∈ u_roles driver))) (HTTPException 403);;
        charger ← some_or point (HTTPException 409);
        raise_if (bool_decide (is_Some (cn_archived_at connector)) || bool_decide (is_Some (cp_archived_at charger)) ||
                  negb (station_open station)) (HTTPException 409);;
        expire_start_requests (Some now);;
        power ← gets (power_start_allowed (cp_station_id charger) None);
        raise_if (negb power) (HTTPException 409);;
        lease ← gets (λ db, select_where (λ s, active_start s && ((sr_connector_id s =? connector_id) || (sr_driver_id s =? driver_id)))
                              (driver_start_requests db));
        occupied ← gets (λ db, select_where (engaged connector_id driver_id) (charging_sessions db));
        raise_if (bool_decide (is_Some lease) || bool_decide (is_Some occupied)) (HTTPException 409);;
        raise_if (negb (bool_decide (cn_status connector ∈ ["Available"; "Preparing"])) &&
                  negb (bool_decide (cn_status connector = "Reserved") && bool_decide (is_Some reservation))) (HTTPException 409);;
        eligibility ← du_so_du_de_sac driver_id (cp_station_id charger) None;
        raise_if (negb (allowed eligibility) && bool_decide (reason eligibility = None)) RuntimeError;;
        raise_if (negb (allowed eligibility)) (HTTPException 409);;
        let online := reachable boot_accepted now charger in
        let status := if online then "Pending" else "Offline" in
        insert_start (mkStartRequest request_id driver_id connector_id (cp_id charger) now status status None None None None
          (now + COMMAND_TIMEOUT + seconds 1) None);;
        insert_control (mkControl request_id (u_email driver) (cp_code charger) driver_id (cp_id charger) None
          "RemoteStartTransaction" (ev_permission <$> authorization) (ev_roles <$> authorization)
          [("connectorId", JInt (cn_connector_number connector))] now);;
        if negb online then record_result request_id "Offline" now;; mret (Answered "Offline")
        else
          tag ← virtual_tag raw driver_id;
          mret (Send [("connectorId", JInt (cn_connector_number connector)); ("idTag", JStr tag)])
    end).

(** A transaction may have started before the reply came. *)
Definition conclude_start (request_id : Z) (w : Wire) : Tx string :=
  savepoint (
    r ← gets (λ db, driver_start_requests db !! request_id);
    completed ← some_or r AssertionError;
    received ← gets db_now;
    when (bool_decide (sr_reply_status completed = "Pending")) (
      record_result request_id (send_command w) received;;
      outcome ← gets (command_status request_id);
      update_start request_id (λ r,
        let r := set_sr_reply_at (Some received) (set_sr_reply_status outcome r) in
        if bool_decide (sr_status r ∈ ["Started"; "Rejected"]) then r
        else set_sr_lease_until (if bool_decide (outcome = "Accepted") then received + seconds START_CONFIRMATION_SECONDS else received)
               (set_sr_status outcome r)));;
    r ← gets (λ db, driver_start_requests db !! request_id);
    final ← some_or r AssertionError;
    mret (start_status received final)).
End control.
