(* ===== verification/ControlSpec.v ===== *)
(** * ControlSpec: a command is sent once and answered once

    Runs of the control module: requests are never rewritten, a command is put
    on the wire at most once, its first result stays, and the deadline scan
    leaves no old command without one. *)

From S2P Require Import Prelude Bands Clock Text Store AuditTrail Wallet Pricing Eligibility Closure Occupation Monitoring MeterUnits Metering MeteringSpec PowerSchedule PowerControl Reservations ReservationWorker ReservationSpec Sessions Control.

(** ** What every operation keeps *)

(** At least the requests [C] and the results [R] are stored. *)
Definition logged (C : gmap Z ControlRequest) (R : gmap Z ControlResult) (db : Db) : Prop :=
  C ⊆ control_requests db ∧ R ⊆ control_results db.

Section logged.
Context (C : gmap Z ControlRequest) (R : gmap Z ControlResult).

Lemma logged_insert_control row : keeps (logged C R) (insert_control row).
Proof.
  intros db [HC HR]. unfold insert_control, mbind, M_bind, gets. simpl.
  destruct (bool_decide _) eqn:E; simpl; [done|]. apply bool_decide_eq_false in E.
  split; [|done]. simpl. apply insert_subseteq_r; [|done]. eapply lookup_weaken_None; [|exact HC]. by apply eq_None_not_Some.
Qed.

Lemma logged_record_result k s now : keeps (logged C R) (record_result k s now).
Proof.
  intros db [HC HR]. unfold record_result, mbind, M_bind, gets. simpl. destruct (bool_decide _); simpl; [done|].
  destruct (control_results db !! k) eqn:E; [done|]. split; [done|]. simpl.
  apply insert_subseteq_r; [|done]. by eapply lookup_weaken_None.
Qed.
#[local] Hint Resolve logged_insert_control logged_record_result : csms_keeps.
#[local] Hint Extern 2 (keeps (logged _ _) (modify _)) => apply keeps_modify; by intros : csms_keeps.
#[local] Hint Extern 2 (keeps (logged _ _) (update_start _ _)) => apply keeps_modify; by intros : csms_keeps.
#[local] Hint Extern 2 (keeps (logged _ _) (update_session _ _)) => apply keeps_modify; by intros : csms_keeps.
#[local] Hint Extern 2 (keeps (logged _ _) (ghi_nhat_ky _ _ _ _ _ _ _)) => apply keeps_audit; by intros : csms_keeps.
#[local] Hint Extern 2 (keeps (logged _ _) (raise _)) => by apply keeps_raise : csms_keeps.

Context {dep : Deployment} (tag_hash : string → string).

Lemma logged_fresh_id : keeps (logged C R) fresh_id.
Proof. unfold fresh_id. keeps_steps. Qed.
#[local] Hint Resolve logged_fresh_id : csms_keeps.

Lemma logged_clock o : keeps (logged C R) (clock o).
Proof. unfold clock. keeps_steps. Qed.
#[local] Hint Resolve logged_clock : csms_keeps.

Lemma logged_scan o : keeps (logged C R) (scan_control_deadlines o).
Proof. unfold scan_control_deadlines, flag_stop. keeps_steps. Qed.

Lemma logged_expire o : keeps (logged C R) (expire_start_requests o).
Proof. unfold expire_start_requests, expire_start. keeps_steps. Qed.
#[local] Hint Resolve logged_expire : csms_keeps.

Lemma logged_tag raw d : keeps (logged C R) (virtual_tag tag_hash raw d).
Proof. unfold virtual_tag, ensure_driver_resources, ensure_driver_wallet, insert_wallet. keeps_steps. Qed.
#[local] Hint Resolve logged_tag : csms_keeps.

Lemma logged_eligibility d s now : keeps (logged C R) (du_so_du_de_sac d s now).
Proof. apply pure_keeps, pure_eligibility. Qed.
#[local] Hint Resolve logged_eligibility : csms_keeps.

Lemma logged_execute a k act t rt auth d ba : keeps (logged C R) (execute_command a k act t rt auth d ba).
Proof. unfold execute_command, driver_session, command_payload, command_target, session_of. keeps_steps. Qed.

Lemma logged_conclude k w : keeps (logged C R) (conclude_command k w).
Proof. unfold conclude_command. keeps_steps. Qed.

Lemma logged_remote_start raw d k cn auth ba : keeps (logged C R) (remote_start tag_hash raw d k cn auth ba).
Proof. unfold remote_start, insert_start. keeps_steps. Qed.

Lemma logged_conclude_start k w : keeps (logged C R) (conclude_start k w).
Proof. unfold conclude_start. keeps_steps. Qed.
End logged.

#[export] Hint Resolve logged_insert_control logged_record_result logged_fresh_id logged_clock logged_expire logged_tag
  logged_eligibility : csms_keeps.
#[export] Hint Extern 2 (keeps (logged _ _) (modify _)) => apply keeps_modify; by intros : csms_keeps.
#[export] Hint Extern 2 (keeps (logged _ _) (ghi_nhat_ky _ _ _ _ _ _ _)) => apply keeps_audit; by intros : csms_keeps.
#[export] Hint Extern 2 (keeps (logged _ _) (raise _)) => by apply keeps_raise : csms_keeps.

(** ** Sending *)

Definition is_send (b : Begun) : bool := match b with Send _ => true | Answered _ => false end.

(** A computation that never asks to send, from a state in which [I] holds. *)
Definition silent (I : Db → Prop) (m : Tx Begun) : Prop :=
  ∀ db b db', I db → m db = (inr b, db') → is_send b = false.

Lemma silent_bind {A} I (m : Tx A) k : keeps I m → (∀ a, silent I (k a)) → silent I (m ≫= k).
Proof. intros Hm Hk db b db' HI (a & d1 & H1 & H2)%bind_ok. eapply (Hk a d1); [|exact H2]. by eapply keeps_run. Qed.

Lemma silent_savepoint I m : silent I m → silent I (savepoint m).
Proof. intros Hm db b db' HI H%savepoint_ok. by eapply Hm. Qed.

Lemma silent_ret I s : silent I (mret (Answered s)).
Proof. by intros db b db' _ [= <- _]. Qed.

Lemma silent_raise I e : silent I (raise e).
Proof. by intros db b db' _ [=]. Qed.

(** The identity is taken. *)
Lemma silent_taken k r R row (m : () → Tx Begun) :
  co_id row = k → silent (logged {[k := r]} R) (insert_control row ≫= m).
Proof.
  intros <- db b db' [HC _] (u & d1 & H1 & _)%bind_ok. exfalso. apply bind_ok in H1 as (o & d2 & [= <- <-] & H1).
  apply bind_ok in H1 as (v & d3 & [Hd _]%raise_if_inr & _). apply bool_decide_eq_false in Hd. apply Hd.
  exists r. eapply lookup_weaken; [|exact HC]. apply lookup_singleton_eq.
Qed.

(** After it, the request of a command that asks to send is stored. *)
Definition stores (k : Z) (m : Tx Begun) : Prop :=
  ∀ db b db', m db = (inr b, db') → is_send b = true → is_Some (control_requests db' !! k).

Lemma stores_bind {A} k (m : Tx A) f : (∀ a, stores k (f a)) → stores k (m ≫= f).
Proof. intros Hf db b db' (a & d1 & H1 & H2)%bind_ok. by apply (Hf a d1). Qed.

Lemma stores_savepoint k m : stores k m → stores k (savepoint m).
Proof. intros Hm db b db' H%savepoint_ok. by apply (Hm db). Qed.

Lemma stores_answer k s : stores k (mret (Answered s)).
Proof. by intros db b db' [= <- _]. Qed.

Lemma stores_raise k e : stores k (raise e).
Proof. by intros db b db' [=]. Qed.

Lemma stores_insert k row (m : () → Tx Begun) :
  co_id row = k → (∀ C R, keeps (logged C R) (m ())) → stores k (insert_control row ≫= m).
Proof.
  intros <- Hm db b db' ([] & d1 & H1 & H2)%bind_ok _. apply bind_ok in H1 as (o & d2 & [= <- <-] & H1).
  apply bind_ok in H1 as (v & d3 & [_ ->]%raise_if_inr & [= <-]).
  set (d := set_control_requests _ _) in H2. assert (logged {[co_id row := row]} ∅ d) as Hd.
  { split; [|apply map_empty_subseteq]. apply map_singleton_subseteq_l. apply lookup_insert_eq. }
  destruct (keeps_run _ _ _ _ _ (Hm _ _) Hd H2) as [H _].
  exists row. eapply lookup_weaken; [|exact H]. apply lookup_singleton_eq.
Qed.

Ltac silent_steps :=
  repeat first
    [ apply silent_ret | apply silent_raise | by apply silent_taken
    | apply silent_savepoint
    | match goal with
      | |- silent _ (_ ≫= _) => apply silent_bind; [solve [keeps_steps]|intros ?]
      | |- silent _ _ => case_match
      end ].

Ltac stores_steps :=
  repeat first
    [ apply stores_answer | apply stores_raise | apply stores_savepoint
    | apply stores_insert; [done|intros; solve [keeps_steps]]
    | match goal with
      | |- stores _ (_ ≫= _) => apply stores_bind; intros ?
      | |- stores _ _ => case_match
      end ].

Section sending.
Context {dep : Deployment} (tag_hash : string → string).

Lemma execute_silent a k act t rt auth d ba r R :
  silent (logged {[k := r]} R) (execute_command a k act t rt auth d ba).
Proof. unfold execute_command, driver_session, command_payload, command_target, session_of. silent_steps. Qed.

Lemma remote_start_silent raw d k cn auth ba r R :
  silent (logged {[k := r]} R) (remote_start tag_hash raw d k cn auth ba).
Proof. unfold remote_start, insert_start. silent_steps. Qed.

Lemma execute_stores a k act t rt auth d ba : stores k (execute_command a k act t rt auth d ba).
Proof. unfold execute_command. stores_steps. Qed.

Lemma remote_start_stores raw d k cn auth ba : stores k (remote_start tag_hash raw d k cn auth ba).
Proof. unfold remote_start. stores_steps. Qed.
End sending.

(** ** Runs *)

Section runs.
Context {dep : Deployment} (tag_hash : string → string).

(** The database, and the commands put on the wire so far. *)
Definition Sent : Type := Db * list Z.

Definition sending (k : Z) (b : Begun) (sent : list Z) : list Z := if is_send b then k :: sent else sent.

Inductive control_step : Sent → Sent → Prop :=
| ctl_execute a k act t rt auth d ba b db db' sent :
    execute_command a k act t rt auth d ba db = (inr b, db') → control_step (db, sent) (db', sending k b sent)
| ctl_conclude k w st db db' sent : k ∈ sent → conclude_command k w db = (inr st, db') → control_step (db, sent) (db', sent)
| ctl_start raw d k cn auth ba b db db' sent :
    remote_start tag_hash raw d k cn auth ba db = (inr b, db') → control_step (db, sent) (db', sending k b sent)
| ctl_started k w st db db' sent : k ∈ sent → conclude_start k w db = (inr st, db') → control_step (db, sent) (db', sent)
| ctl_scan now db db' sent : scan_control_deadlines now db = (inr (), db') → control_step (db, sent) (db', sent)
| ctl_expire now n db db' sent : expire_start_requests now db = (inr n, db') → control_step (db, sent) (db', sent)
| ctl_other db db' sent :
    control_requests db' = control_requests db → control_results db' = control_results db → control_step (db, sent) (db', sent).

(** Nothing is on the wire twice, and all of it is on record. *)
Definition sent_ok (w : Sent) : Prop := NoDup w.2 ∧ ∀ k, k ∈ w.2 → is_Some (control_requests w.1 !! k).

(** Requests and results are only added. *)
Definition record_le (db db' : Db) : Prop :=
  control_requests db ⊆ control_requests db' ∧ control_results db ⊆ control_results db'.

#[export] Instance record_le_preorder : PreOrder record_le.
Proof. split; [by intros db|]. intros d1 d2 d3 [? ?] [? ?]. split; by etrans. Qed.

Lemma logged_le {A} (m : Tx A) db r db' : (∀ C R, keeps (logged C R) m) → m db = (r, db') → record_le db db'.
Proof. intros Hm H. by apply (keeps_run _ m db r db' (Hm (control_requests db) (control_results db))). Qed.

Lemma sent_le db db' sent : sent_ok (db, sent) → record_le db db' → sent_ok (db', sent).
Proof. intros [H1 H2] [Hle _]. split; [done|]. intros k Hk. destruct (H2 k Hk) as [r Hr]. exists r. by eapply lookup_weaken. Qed.

Lemma sending_ok db db' k m b sent :
  (∀ r R, silent (logged {[k := r]} R) m) → stores k m → (∀ C R, keeps (logged C R) m) →
  m db = (inr b, db') → sent_ok (db, sent) → sent_ok (db', sending k b sent) ∧ record_le db db'.
Proof.
  intros Hsil Hst Hk H Hok. pose proof (logged_le m db _ db' Hk H) as Hle. pose proof (sent_le db db' sent Hok Hle) as Hok'.
  split; [|done]. unfold sending. destruct (is_send b) eqn:Hb; [|done]. destruct Hok' as [Hnd Hin]. split; simpl.
  - apply NoDup_cons. split; [|done]. intros Hks. destruct (proj2 Hok k Hks) as [r Hr]. simpl in Hr.
    assert (is_send b = false) by (eapply (Hsil r ∅ db); [|exact H]; split; [by apply map_singleton_subseteq_l|apply map_empty_subseteq]).
    congruence.
  - intros j [-> |Hj]%elem_of_cons; [by eapply Hst|by apply Hin].
Qed.

Lemma control_step_ok w w' : control_step w w' → sent_ok w → sent_ok w' ∧ record_le w.1 w'.1.
Proof.
  intros Hs Hok. destruct Hs; simpl.
  - eapply sending_ok; [apply execute_silent|apply execute_stores|intros C R; apply logged_execute|done|done].
  - assert (record_le db db') as Hle by (eapply logged_le; [intros C R; apply logged_conclude|done]). split; [by eapply sent_le|done].
  - eapply sending_ok; [apply remote_start_silent|apply remote_start_stores|intros C R; apply logged_remote_start|done|done].
  - assert (record_le db db') as Hle by (eapply logged_le; [intros C R; apply logged_conclude_start|done]). split; [by eapply sent_le|done].
  - assert (record_le db db') as Hle by (eapply logged_le; [intros C R; apply logged_scan|done]). split; [by eapply sent_le|done].
  - assert (record_le db db') as Hle by (eapply logged_le; [intros C R; apply logged_expire|done]). split; [by eapply sent_le|done].
  - assert (record_le db db') as Hle by (split; [by rewrite H|by rewrite H0]). split; [by eapply sent_le|done].
Qed.

Lemma control_run_ok w w' : rtc control_step w w' → sent_ok w → sent_ok w' ∧ record_le w.1 w'.1.
Proof.
  induction 1 as [w|w w1 w' Hs _ IH]; intros Hw; [split; [done|reflexivity]|].
  destruct (control_step_ok _ _ Hs Hw) as [H1 L1]. destruct (IH H1) as [H2 L2]. split; [done|]. by etrans.
Qed.

(** C12. A command reaches a charger at most once and has one outcome. In every
    interleaving of administrators' and drivers' commands, replies, deadline
    scans and anything else that leaves the two tables alone, no command is put
    on the wire twice, whatever requests are repeated or processes restarted;
    a stored request and the first recorded result never change; and repeating
    the request of a stored command never sends it again. *)
Theorem commands_sent_once w w' :
  rtc control_step w w' → sent_ok w →
  NoDup w'.2 ∧ control_requests w.1 ⊆ control_requests w'.1 ∧ control_results w.1 ⊆ control_results w'.1 ∧
  (∀ a k act t rt auth d ba b db', is_Some (control_requests w.1 !! k) →
     execute_command a k act t rt auth d ba w'.1 = (inr b, db') → is_send b = false) ∧
  (∀ raw d k cn auth ba b db', is_Some (control_requests w.1 !! k) →
     remote_start tag_hash raw d k cn auth ba w'.1 = (inr b, db') → is_send b = false).
Proof.
  intros Hrun Hok. destruct (control_run_ok _ _ Hrun Hok) as [[Hnd _] [HC HR]].
  assert (∀ k, is_Some (control_requests w.1 !! k) → ∃ r, logged {[k := r]} ∅ w'.1) as Hlog.
  { intros k [r Hr]. exists r. split; [|apply map_empty_subseteq]. apply map_singleton_subseteq_l. by eapply lookup_weaken. }
  split_and!; [done..| |].
  - intros a k act t rt auth d ba b db' [r Hl]%Hlog H. by eapply execute_silent.
  - intros raw d k cn auth ba b db' [r Hl]%Hlog H. by eapply remote_start_silent.
Qed.
End runs.

(** ** Deadlines *)

Abbreviation unconfirmed := "remote_stop_not_confirmed" (only parsing).

(** A session as it was, or with the reason added. *)
Definition flagged_stop (c c' : ChargingSession) : Prop :=
  c' = c ∨ unconfirmed ∉ cs_review_reasons c ∧ c' = set_cs_review_reasons (cs_review_reasons c ++ [unconfirmed]) c.

Definition sessions_flagged (db db' : Db) : Prop :=
  ∀ k c, charging_sessions db !! k = Some c → ∃ c', charging_sessions db' !! k = Some c' ∧ flagged_stop c c'.

#[export] Instance sessions_flagged_preorder : PreOrder sessions_flagged.
Proof.
  split; [intros db k c Hc; exists c; split; [done|by left]|].
  intros d1 d2 d3 H12 H23 k c Hc. destruct (H12 k c Hc) as (c2 & Hc2 & F2). destruct (H23 k c2 Hc2) as (c3 & Hc3 & F3).
  exists c3. split; [done|]. destruct F2 as [-> |[Hn ->]]; [done|]. destruct F3 as [-> |[Hn' _]]; [by right|].
  simpl in Hn'. set_solver.
Qed.

Lemma record_all now l db :
  (∀ r, r ∈ l → is_Some (control_requests db !! co_id r)) →
  ∃ db', for_each l (λ r, record_result (co_id r) "Timeout" now) db = (inr (), db') ∧
    control_requests db' = control_requests db ∧ charging_sessions db' = charging_sessions db ∧
    control_results db ⊆ control_results db' ∧ ∀ r, r ∈ l → is_Some (control_results db' !! co_id r).
Proof.
  revert db. induction l as [|r l IH]; intros db Hl; cbn [for_each].
  { exists db. split_and!; try done. by intros r ?%elem_of_nil. }
  assert (∃ d1, record_result (co_id r) "Timeout" now db = (inr (), d1) ∧ control_requests d1 = control_requests db ∧
    charging_sessions d1 = charging_sessions db ∧ control_results db ⊆ control_results d1 ∧
    is_Some (control_results d1 !! co_id r)) as (d1 & H1 & E1 & E2 & E3 & E4).
  { unfold record_result. destruct (Hl r) as [q Hq]; [set_solver|].
    rewrite (bind_ok_step _ _ _ (Some q) db) by (unfold gets; by rewrite Hq).
    rewrite (bind_ok_step _ _ _ () db) by done. eexists. split; [done|]. simpl.
    destruct (control_results db !! co_id r) as [x|] eqn:Ex; simpl; split_and!; try done.
    - by apply insert_subseteq.
    - rewrite lookup_insert_eq. done. }
  rewrite (bind_ok_step _ _ _ () d1) by done. destruct (IH d1) as (db' & H2 & F1 & F2 & F3 & F4).
  { intros q Hq. rewrite E1. apply Hl. set_solver. }
  exists db'. split_and!; [done|congruence|congruence|by etrans|].
  intros q [-> |Hq]%elem_of_cons; [|by apply F4]. destruct E4 as [x Hx]. exists x. by eapply lookup_weaken.
Qed.

Lemma flag_stop_run now tid db :
  ∃ db', flag_stop now tid db = (inr (), db') ∧ control_requests db' = control_requests db ∧
    control_results db' = control_results db ∧ sessions_flagged db db' ∧
    ∀ c, charging_sessions db !! tid = Some c → cs_ended_at c = None →
      ∃ c', charging_sessions db' !! tid = Some c' ∧ unconfirmed ∈ cs_review_reasons c'.
Proof.
  unfold flag_stop. rewrite (bind_ok_step _ _ _ (charging_sessions db !! tid) db) by done.
  destruct (charging_sessions db !! tid) as [c|] eqn:Hc; [|exists db; by split_and!].
  destruct (bool_decide (cs_ended_at c = None)) eqn:He; [|exists db; split_and!; try done].
  2: { intros c' [= <-] Hn. by rewrite bool_decide_eq_true_2 in He. }
  destruct (bool_decide (unconfirmed ∈ cs_review_reasons c)) eqn:Hr; cbn [negb andb when].
  { exists db. split_and!; try done. intros c' [= <-] _. exists c. split; [done|]. by apply bool_decide_eq_true in Hr. }
  apply bool_decide_eq_false in Hr. eexists. split; [reflexivity|]. split_and!; try done.
  - intros k c0. simpl. destruct (decide (k = tid)) as [->|Hne].
    + rewrite lookup_alter_eq, Hc. intros [= <-]. simpl. eexists. split; [done|]. by right.
    + rewrite lookup_alter_ne by done. intros Hk. exists c0. split; [done|by left].
  - intros c' [= <-] _. simpl. rewrite lookup_alter_eq, Hc. simpl. eexists. split; [done|]. simpl. set_solver.
Qed.

Lemma flag_all now l db :
  ∃ db', for_each l (flag_stop now) db = (inr (), db') ∧ control_requests db' = control_requests db ∧
    control_results db' = control_results db ∧ sessions_flagged db db' ∧
    ∀ tid c, tid ∈ l → charging_sessions db !! tid = Some c → cs_ended_at c = None →
      ∃ c', charging_sessions db' !! tid = Some c' ∧ unconfirmed ∈ cs_review_reasons c'.
Proof.
  revert db. induction l as [|t l IH]; intros db; cbn [for_each].
  { exists db. split_and!; try done. by intros tid c ?%elem_of_nil. }
  destruct (flag_stop_run now t db) as (d1 & H1 & E1 & E2 & E3 & E4). rewrite (bind_ok_step _ _ _ () d1) by done.
  destruct (IH d1) as (db' & H2 & F1 & F2 & F3 & F4). exists db'. split_and!; [done|congruence|congruence|by etrans|].
  intros tid c Hin Hc He. destruct (E3 tid c Hc) as (c1 & Hc1 & Hf1). apply elem_of_cons in Hin as [-> |Hin].
  - destruct (E4 c Hc He) as (c2 & Hc2 & Hu). destruct (F3 t c2 Hc2) as (c3 & Hc3 & Hf). exists c3. split; [done|].
    destruct Hf as [-> |[_ ->]]; [done|]. simpl. set_solver.
  - apply (F4 tid c1 Hin Hc1). by destruct Hf1 as [-> |[_ ->]].
Qed.

(** The deadline scan never fails. After it every command older than the
    wire timeout and a second has a result, and every open session whose stop a
    charger accepted two minutes ago without ending it is marked for review;
    recorded results stay, and sessions change in nothing else. *)
Theorem control_deadlines_met {dep : Deployment} now db :
  (∀ k r, control_requests db !! k = Some r → co_id r = k) →
  ∃ db', scan_control_deadlines (Some now) db = (inr (), db') ∧
    (∀ k r, control_requests db !! k = Some r → co_created_at r < now - (COMMAND_TIMEOUT + seconds 1) →
       is_Some (control_results db' !! k)) ∧
    (∀ k r result tid c, control_requests db !! k = Some r → co_action r = "RemoteStopTransaction" →
       co_transaction_id r = Some tid → control_results db !! k = Some result → cr_status result = "Accepted" →
       cr_received_at result ≤ now - seconds STOP_CONFIRMATION_SECONDS → charging_sessions db !! tid = Some c →
       cs_ended_at c = None → ∃ c', charging_sessions db' !! tid = Some c' ∧ unconfirmed ∈ cs_review_reasons c') ∧
    control_results db ⊆ control_results db' ∧ sessions_flagged db db'.
Proof.
  intros Hkey. unfold scan_control_deadlines. rewrite (bind_ok_step _ _ _ now db) by done.
  rewrite (bind_ok_step _ _ _ (filter (λ r, overdue now db r = true) (rows (control_requests db))) db) by done.
  set (late := filter _ _). destruct (record_all now late db) as (d1 & H1 & E1 & E2 & E3 & E4).
  { intros r Hr. unfold late in Hr. apply list_elem_of_filter in Hr as [_ (k & Hk)%elem_of_rows]. exists r. by rewrite (Hkey k r Hk). }
  rewrite (bind_ok_step _ _ _ () d1) by done.
  rewrite (bind_ok_step _ _ _ (omap (unconfirmed_stop now d1) (rows (control_requests d1))) d1) by done.
  destruct (flag_all now (remove_dups (omap (unconfirmed_stop now d1) (rows (control_requests d1)))) d1)
    as (db' & H2 & F1 & F2 & F3 & F4).
  exists db'. split_and!; [done| | |by rewrite F2|intros k c; rewrite <- E2; apply F3].
  - intros k r Hr Hold. rewrite F2. destruct (control_results db !! k) as [x|] eqn:Ex.
    { exists x. by eapply lookup_weaken. }
    rewrite <- (Hkey k r Hr). apply E4, list_elem_of_filter. split; [|apply elem_of_rows; eauto].
    unfold overdue. rewrite (Hkey k r Hr), Ex. simpl. lia.
  - intros k r result tid c Hr Ha Ht Hx Hs Hold Hc He. apply (F4 tid c); [|by rewrite E2|done].
    apply elem_of_remove_dups, list_elem_of_omap. exists r. split; [rewrite E1; apply elem_of_rows; eauto|].
    unfold unconfirmed_stop. rewrite (Hkey k r Hr), Ha, bool_decide_eq_true_2 by done.
    rewrite (lookup_weaken _ _ _ _ Hx E3), Ht, Hs, E2, Hc, He. rewrite !bool_decide_eq_true_2 by done. simpl.
    destruct (cr_received_at result <=? now - seconds STOP_CONFIRMATION_SECONDS) eqn:El; [done|lia].
Qed.

(** ** A reset that is not answered *)

Section demo.
#[local] Existing Instance demo_deployment.

Definition reset_9 : Tx Begun := execute_command 1 9 "Reset" (OfPoint 40) "Soft" (Some demo_evidence) None true.
Definition reset_sent : Db := (reset_9 demo_power_db).2.
Definition reset_done : Db := (conclude_command 9 NoReply reset_sent).2.

Lemma commands_sent_once_witness :
  control_results reset_done !! 9 = Some (mkResult "Timeout" 0) ∧ (reset_9 reset_done).1 = inr (Answered "Timeout") ∧
  ∀ b db', reset_9 reset_done = (inr b, db') → is_send b = false.
Proof.
  split; [vm_compute; reflexivity|]. split; [vm_compute; reflexivity|]. intros b db' H.
  assert (control_step id (demo_power_db, []) (reset_sent, [9])) as H1.
  { apply (ctl_execute id 1 9 "Reset" (OfPoint 40) "Soft" (Some demo_evidence) None true
      (Send [("type", JStr "Soft")]) demo_power_db reset_sent []). unfold reset_sent, reset_9. apply ran. vm_compute. reflexivity. }
  assert (control_step id (reset_sent, [9]) (reset_done, [9])) as H2.
  { apply (ctl_conclude id 9 NoReply "Timeout"); [by left|]. unfold reset_done. apply ran. vm_compute. reflexivity. }
  assert (sent_ok (reset_sent, [9])) as Hok.
  { split; [by apply NoDup_singleton|]. intros k Hk%list_elem_of_singleton. subst k. vm_compute. eauto. }
  destruct (commands_sent_once id (reset_sent, [9]) (reset_done, [9]) (rtc_once _ _ H2) Hok) as (_ & _ & _ & Hno & _).
  eapply Hno; [|exact H]. vm_compute. eauto.
Defined.

Definition overdue_db : Db := set_db_now (seconds 60) reset_sent.

Lemma control_deadlines_met_witness :
  ∃ db', scan_control_deadlines (Some (seconds 60)) overdue_db = (inr (), db') ∧ is_Some (control_results db' !! 9).
Proof.
  assert (∀ k r, control_requests overdue_db !! k = Some r → co_id r = k) as Hkey.
  { assert (∃ q, control_requests overdue_db = {[ 9 := q ]} ∧ co_id q = 9) as (q & -> & Hq)
      by (eexists; split; [vm_compute; reflexivity|reflexivity]).
    intros k r [<- <-]%lookup_singleton_Some. exact Hq. }
  destruct (control_deadlines_met (seconds 60) overdue_db Hkey) as (db' & Hrun & Hold & _).
  exists db'. split; [exact Hrun|]. eapply Hold; [vm_compute; reflexivity|vm_compute; reflexivity].
Defined.
End demo.
