(* ===== verification/SessionSpec.v ===== *)
(** * SessionSpec: who may start, and what a start leaves behind *)

From S2P Require Import Prelude Bands Clock Text Store AuditTrail Wallet Pricing Eligibility Closure Occupation Monitoring MeterUnits Metering PowerSchedule PowerControl Reservations ReservationWorker ReservationSpec ReservationRuns Sessions.

(** ** Frames *)

(** The sessions are [x]. *)
Definition sessions_are (x : gmap Z ChargingSession) (db : Db) : Prop := charging_sessions db = x.

Section frames.
Context (x : gmap Z ChargingSession) {dep : Deployment} (tag_hash : string → string).

#[local] Hint Extern 2 (keeps (sessions_are _) (modify _)) => apply keeps_modify; by intros : csms_keeps.
#[local] Hint Extern 2 (keeps (sessions_are _) (update_start _ _)) => apply keeps_modify; by intros : csms_keeps.
#[local] Hint Extern 2 (keeps (sessions_are _) (update_reservation _ _)) => apply keeps_modify; by intros : csms_keeps.
#[local] Hint Extern 2 (keeps (sessions_are _) (update_connector_power _ _)) => apply keeps_modify; by intros : csms_keeps.
#[local] Hint Extern 2 (keeps (sessions_are _) (ghi_nhat_ky _ _ _ _ _ _ _)) => apply keeps_audit; by intros : csms_keeps.

Lemma still_settle_start cn card f : keeps (sessions_are x) (settle_start cn card f).
Proof. unfold settle_start. keeps_steps. Qed.
#[local] Hint Resolve still_settle_start : csms_keeps.

Lemma still_pending k call why : keeps (sessions_are x) (pending k call why).
Proof. unfold pending, fresh_id. keeps_steps. Qed.
#[local] Hint Resolve still_pending : csms_keeps.

Lemma still_event id a now d : keeps (sessions_are x) (event id a now d).
Proof. unfold event, fresh_id. keeps_steps. Qed.
#[local] Hint Resolve still_event : csms_keeps.

Lemma still_decide id d reason now : keeps (sessions_are x) (decide_fee id d reason now).
Proof. unfold decide_fee, reservation_row. keeps_steps. Qed.
#[local] Hint Resolve still_decide : csms_keeps.

Lemma still_judge card o src now msg h : keeps (sessions_are x) (judge_hold card o src now msg h).
Proof. unfold judge_hold, mark_late_start, reservation_row. keeps_steps. Qed.
#[local] Hint Resolve still_judge : csms_keeps.

Lemma still_validate cn card o src now msg : keeps (sessions_are x) (validate_start cn card o src now msg).
Proof. unfold validate_start, mark_late_start, reservation_row. keeps_steps. Qed.

Lemma still_consume id sid now : keeps (sessions_are x) (consume id sid now).
Proof. unfold consume, reservation_row. keeps_steps. Qed.

Lemma still_lock_code k now : keeps (sessions_are x) (lock_charge_point_code_for_charging k now).
Proof. unfold lock_charge_point_code_for_charging. keeps_steps. Qed.

Lemma still_attach c card : keeps (sessions_are x) (attach_remote_start c card).
Proof. unfold attach_remote_start. keeps_steps. Qed.

Lemma still_power st cn : keeps (sessions_are x) (note_power_start st cn).
Proof. unfold note_power_start. keeps_steps. Qed.

Lemma still_attempt k tag r : keeps (sessions_are x) (note_attempt k tag r).
Proof. unfold note_attempt, fresh_id. keeps_steps. Qed.

Lemma still_turn_away point call cn card why : keeps (sessions_are x) (turn_away point call cn card why).
Proof. unfold turn_away, reject_unavailable_start. keeps_steps. Qed.

Lemma still_reject cn card e : keeps (sessions_are x) (reject_remote_start cn card e).
Proof. unfold reject_remote_start. keeps_steps. Qed.
End frames.

(** ** Authorization *)

Section authorize.
Context {dep : Deployment} (tag_hash : string → string).

(** Everything an accepted tag had to satisfy. *)
Record admitted (charger : ChargePoint) (tag : string) (ctx : bool) (card : ChargingCard) (db : Db) : Prop := mkAdmitted {
  ad_reset : reset_pending (cp_id charger) db = false;
  ad_card : ∃ user, card_of tag_hash tag db = Some (card, user) ∧ cc_status card = "active" ∧
    u_status user = "active" ∧ "driver" ∈ u_roles user ∧ ∀ t, cc_expires_at card = Some t → db_now db < t;
  ad_station : station_open (stations db !! cp_station_id charger) = true;
  ad_hold : ctx || authorize_allowed (cp_id charger) card (db_now db) db = true;
  ad_power : power_start_allowed (cp_station_id charger) None db = true;
  ad_wallet : ∃ e, du_so_du_de_sac (cc_driver_id card) (cp_station_id charger) None db = (inr e, db) ∧ allowed e = true
}.

Lemma judge_accepted row now :
  judge_card row now = "Accepted" → ∃ card user, row = Some (card, user) ∧ cc_status card = "active" ∧
    u_status user = "active" ∧ "driver" ∈ u_roles user ∧ ∀ t, cc_expires_at card = Some t → now < t.
Proof.
  unfold judge_card. destruct row as [[card user]|]; [|done]. destruct (negb _ || _ || _) eqn:E; [done|].
  apply orb_false_iff in E as [[E1%negb_false_iff E2%negb_false_iff]%orb_false_iff E3%negb_false_iff].
  apply bool_decide_eq_true in E1, E2, E3. destruct (match cc_expires_at card with Some t => _ | None => _ end) eqn:E; [done|].
  intros _. exists card, user. split_and!; [done..|]. intros t Ht. rewrite Ht in E. lia.
Qed.

Lemma provided_accepted b r : provided b r = "Accepted" → b = true ∧ r = "Accepted".
Proof. unfold provided. destruct (bool_decide (r = "Accepted")) eqn:E, b; try done; naive_solver. Qed.

(** The database after an attempt was noted. *)
Definition attempted (db db' : Db) : Prop :=
  ∃ n l, next_id db ≤ n ∧ db' = set_authorization_attempts l (set_next_id n db).

#[local] Hint Resolve pure_eligibility : csms.

Lemma authorize_spec charger tag ctx db r card wf db' :
  authorize tag_hash charger tag ctx db = (inr (r, card, wf), db') →
  (db' = db ∨ attempted db db') ∧ (is_Some wf → r = "Blocked") ∧
  (r = "Accepted" → wf = None ∧ ∃ c, card = Some c ∧ admitted charger tag ctx c db).
Proof.
  unfold authorize. intros H. rewrite bind_gets in H. destruct (reset_pending (cp_id charger) db) eqn:Hreset.
  { injection H as <- <- <- <-. split; [by left|]. split; [by intros [? ?]|done]. }
  rewrite !bind_gets in H. cbv zeta in H. set (row := card_of tag_hash tag db) in *.
  match type of H with context [provided ?p (provided ?ok ?r0)] =>
    set (r2 := provided p (provided ok r0)) in H; assert (r2 = "Accepted" → p = true ∧ ok = true ∧ r0 = "Accepted") as Hacc
      by (intros [-> [-> ->]%provided_accepted]%provided_accepted; done); clearbody r2 end.
  apply bind_ok in H as (verdict & d1 & Hv & H). apply bind_ok in H as ([] & d2 & Hn & H). injection H as <- <- <- <-.
  assert (attempted d1 d2) as Hd2 by (injection Hn as <-; eexists _, _; split; [|reflexivity]; lia).
  destruct row as [[card user]|] eqn:Hrow.
  2: { injection Hv as <- <-. split; [by right|]. split; [by intros [? ?]|]. simpl. intros (_ & _ & E)%Hacc.
       destruct (station_open _); [|done]. by apply judge_accepted in E as (? & ? & ? & _). }
  destruct (bool_decide (r2 = "Accepted")) eqn:Hr2; [apply bool_decide_eq_true in Hr2|apply bool_decide_eq_false in Hr2].
  2: { injection Hv as <- <-. split; [by right|]. split; [by intros [? ?]|]. by intros ?. }
  tx_read Hv e He. destruct (allowed e) eqn:Hal.
  - injection Hv as <- <-. split; [by right|]. split; [by intros [? ?]|]. simpl. intros _. split; [done|].
    exists card. split; [done|]. destruct (Hacc Hr2) as (Hp & Hh & E). destruct (station_open _) eqn:Hst; [|done].
    apply judge_accepted in E as (card' & user' & [= <- <-] & H1 & H2 & H3 & H4). split; eauto 10.
  - apply bind_ok in Hv as (w & d3 & [_ ->]%raise_if_inr & [= <- <-]). split; [by right|]. done.
Qed.
End authorize.

(** ** The reservation in front of a start *)

(** What a start that is allowed by the reservations found. *)
Definition hold_checked (cn : Z) (card : option ChargingCard) (oid : option Z) (ro : option Reservation) (db : Db) : Prop :=
  match ro with
  | None => connector_hold cn db = None ∧ oid = None
  | Some h => of_card card h = true ∧ oid = Some (rv_ocpp_id h) ∧ rv_connector_id h = cn ∧
      (∃ k, reservations db !! k = Some h) ∧
      (connector_hold cn db = Some h ∨ connector_hold cn db = None ∧ rv_status h = rv_expired)
  end.

Lemma judge_true card oid src now msg h db ro db' :
  judge_hold card oid src now msg h db = (inr (true, ro), db') →
  db' = db ∧ ro = Some h ∧ of_card card h = true ∧ oid = Some (rv_ocpp_id h).
Proof.
  unfold judge_hold. destruct (negb _ || _) eqn:E; [done|].
  apply orb_false_iff in E as [E1%negb_false_iff E2%negb_false_iff%bool_decide_eq_true].
  destruct (_ && negb _); [|by intros [= _ <- <-]].
  intros (u & d1 & _ & (r & d2 & _ & [=])%bind_ok)%bind_ok.
Qed.

Lemma validate_true cn card oid src now msg db ro db' :
  validate_start cn card oid src now msg db = (inr (true, ro), db') → db' = db ∧ hold_checked cn card oid ro db.
Proof.
  unfold validate_start. rewrite bind_gets. set (hold := connector_hold cn db).
  assert (∀ h, hold = Some h → (∃ k, reservations db !! k = Some h) ∧ rv_connector_id h = cn) as Hhold.
  { intros h (k & Hk & Hc)%select_where_Some. split; [eauto|]. apply andb_true_iff in Hc as [Hc _]. lia. }
  assert (∀ o, o = hold ∨ (∃ h, o = Some h ∧ hold = None ∧ rv_status h = rv_expired ∧ rv_connector_id h = cn ∧ ∃ k, reservations db !! k = Some h) →
    match o with
    | None => mret (bool_decide (oid = None), None)
    | Some h => judge_hold card oid src now msg h
    end db = (inr (true, ro), db') → db' = db ∧ hold_checked cn card oid ro db) as Hj.
  { intros [h|] Ho H.
    - apply judge_true in H as (-> & -> & H1 & H2). split; [done|]. unfold hold_checked.
      destruct Ho as [Ho|(h' & [= <-] & Hn & Hs & Hc & Hk)]; [|by split_and!; auto].
      symmetry in Ho. destruct (Hhold h Ho). split_and!; auto.
    - injection H as Hb <- <-. split; [done|]. destruct Ho as [Ho|(? & [=] & _)]. split; [done|]. by apply bool_decide_eq_true in Hb. }
  destruct oid as [oid|]; [|intros H; apply (Hj hold); [by left|done]].
  destruct (match hold with Some h => _ | None => _ end); [intros H; apply (Hj hold); [by left|done]|].
  rewrite bind_gets. destruct (select_where _ _) as [q|] eqn:Hq; [|intros H; apply (Hj hold); [by left|done]].
  apply select_where_Some in Hq as (k & Hk & Hc). apply andb_true_iff in Hc as [_ Hc].
  destruct (_ && negb (rv_no_show_exempt q)); [|intros H; apply (Hj hold); [by left|done]].
  destruct (_ || bool_decide (is_Some hold)) eqn:Hl.
  { intros (u & d1 & _ & (r & d2 & _ & [=])%bind_ok)%bind_ok. }
  apply orb_false_iff in Hl as [_ Hn%bool_decide_eq_false].
  destruct (_ && _) eqn:He; [|intros H; apply (Hj hold); [by left|done]].
  apply andb_true_iff in He as [He%bool_decide_eq_true _]. intros H. apply (Hj (Some q)); [|done]. right.
  exists q. split_and!; [done|by apply eq_None_not_Some|done|lia|eauto].
Qed.

(** ** Opening *)

(** The sessions table: numbered by the sequence, one open session per connector. *)
Record sessions_ok (db : Db) : Prop := mkSessionsOk {
  so_keyed : keyed db;
  so_numbered : ∀ k c, charging_sessions db !! k = Some c → k < next_id db;
  so_open : ∀ k k' c c', charging_sessions db !! k = Some c → charging_sessions db !! k' = Some c' →
    cs_ended_at c = None → cs_ended_at c' = None → cs_connector_id c = cs_connector_id c' → k = k'
}.

(** A session before and after another one starts on the connector. *)
Record retired (cn now : Z) (c c' : ChargingSession) : Prop := mkRetired {
  rt_same : cs_id c' = cs_id c ∧ cs_charge_point_id c' = cs_charge_point_id c ∧ cs_connector_id c' = cs_connector_id c ∧
    cs_driver_id c' = cs_driver_id c ∧ cs_started_at c' = cs_started_at c ∧ cs_meter_start_uwh c' = cs_meter_start_uwh c ∧
    cs_energy_uwh c' = cs_energy_uwh c;
  rt_reasons : ∀ x, x ∈ cs_review_reasons c → x ∈ cs_review_reasons c';
  rt_end : if open_on cn c then cs_ended_at c' = Some now ∧ "replaced_open_session" ∈ cs_review_reasons c'
           else cs_ended_at c' = cs_ended_at c
}.

Definition all_retired (cn now : Z) (S S' : gmap Z ChargingSession) : Prop :=
  (∀ k c, S !! k = Some c → ∃ c', S' !! k = Some c' ∧ retired cn now c c') ∧
  (∀ k c', S' !! k = Some c' → ∃ c, S !! k = Some c ∧ retired cn now c c').

Lemma elem_of_review r x l : x ∈ l → x ∈ review r l.
Proof. unfold review. case_decide; set_solver. Qed.
Lemma review_elem r l : r ∈ review r l.
Proof. unfold review. case_decide; set_solver. Qed.

Lemma retired_same cn now c : open_on cn c = false → retired cn now c c.
Proof. intros H. split; [done|done|by rewrite H]. Qed.

Lemma retired_replaced cn now c : open_on cn c = true → retired cn now c (replaced now c).
Proof. intros H. split; [done|by intros x; apply elem_of_review|rewrite H]. split; [done|]. apply review_elem. Qed.

(** The open session, if any, is the one that is replaced. *)
Lemma retired_old cn now db :
  sessions_ok db →
  all_retired cn now (charging_sessions db)
    (match select_where (open_on cn) (charging_sessions db) with
     | Some c => alter (replaced now) (cs_id c) (charging_sessions db)
     | None => charging_sessions db
     end).
Proof.
  intros [Hk _ Ho]. destruct (select_where _ _) as [o|] eqn:E.
  - apply select_where_Some in E as (k0 & H0 & Hop). rewrite (Hk k0 o H0).
    assert (∀ k c, charging_sessions db !! k = Some c → k ≠ k0 → open_on cn c = false) as Hothers.
    { intros k c Hc Hne. destruct (open_on cn c) eqn:Hoc; [|done]. unfold open_on in *.
      apply andb_true_iff in Hop as [Hop1 Hop2%bool_decide_eq_true]. apply andb_true_iff in Hoc as [Hoc1 Hoc2%bool_decide_eq_true].
      exfalso. apply Hne, (Ho k k0 c o); try done. lia. }
    split; intros k c.
    + destruct (decide (k = k0)) as [->|Hne].
      * rewrite H0, lookup_alter_eq, H0. intros [= <-]. eexists. split; [done|]. by apply retired_replaced.
      * rewrite lookup_alter_ne by done. intros Hc. exists c. split; [done|]. apply retired_same. eauto.
    + destruct (decide (k = k0)) as [->|Hne].
      * rewrite lookup_alter_eq, H0. intros [= <-]. eexists. split; [done|]. by apply retired_replaced.
      * rewrite lookup_alter_ne by done. intros Hc. exists c. split; [done|]. apply retired_same. eauto.
  - rewrite select_where_None in E. split; intros k c Hc; exists c; (split; [done|apply retired_same; eauto]).
Qed.

Lemma retired_flag cn now k reason S S1 :
  all_retired cn now S S1 → all_retired cn now S (alter (λ c, if unreleased c then flag reason c else c) k S1).
Proof.
  assert (∀ c c1, retired cn now c c1 → retired cn now c (if unreleased c1 then flag reason c1 else c1)) as Hf.
  { intros c c1 R. destruct (unreleased c1); [|done]. unfold flag. case_decide; [done|]. destruct R as [R1 R2 R3].
    split; simpl; [done|set_solver|]. destruct (open_on cn c); set_solver. }
  intros [H1 H2]. split; intros j c.
  - intros (c1 & Hc1 & R)%H1. destruct (decide (j = k)) as [->|Hne].
    + rewrite lookup_alter_eq, Hc1. eexists. split; [done|]. by apply Hf.
    + rewrite lookup_alter_ne by done. eauto.
  - destruct (decide (j = k)) as [->|Hne].
    + rewrite lookup_alter_eq. intros (c1 & Hc1 & ->)%fmap_Some. destruct (H2 _ _ Hc1) as (c0 & H0 & R). exists c0.
      split; [done|]. by apply Hf.
    + rewrite lookup_alter_ne by done. apply H2.
Qed.

(** The reservation is consumed by the transaction. *)
Definition consumed_by (id sid : Z) (db : Db) : Prop :=
  ∃ r, reservations db !! id = Some r ∧ rv_status r = rv_consumed ∧ rv_session_id r = Some sid.

Section consumed.
Context (id sid : Z).
#[local] Hint Extern 2 (keeps (consumed_by _ _) (modify _)) => apply keeps_modify; by intros : csms_keeps.
#[local] Hint Extern 2 (keeps (consumed_by _ _) (update_start _ _)) => apply keeps_modify; by intros : csms_keeps.
#[local] Hint Extern 2 (keeps (consumed_by _ _) (update_connector_power _ _)) => apply keeps_modify; by intros : csms_keeps.
#[local] Hint Extern 2 (keeps (consumed_by _ _) (ghi_nhat_ky _ _ _ _ _ _ _)) => apply keeps_audit; by intros : csms_keeps.

Lemma consumed_decided d reason now : keeps (consumed_by id sid) (update_reservation id (fee_decided d reason now)).
Proof.
  apply keeps_modify. intros db (r & Hr & Hs & Hi). eexists. simpl. rewrite lookup_alter_eq, Hr. split; [done|]. by split.
Qed.
#[local] Hint Resolve consumed_decided : csms_keeps.

Lemma consumed_event j a now d : keeps (consumed_by id sid) (event j a now d).
Proof. unfold event, fresh_id. keeps_steps. Qed.
#[local] Hint Resolve consumed_event : csms_keeps.

Lemma consume_consumes now db u db' :
  is_Some (reservations db !! id) → consume id sid now db = (inr u, db') → consumed_by id sid db'.
Proof.
  intros [r Hr] Hc. unfold consume in Hc. apply bind_ok in Hc as ([] & d1 & Hu & H). injection Hu as <-. eapply keeps_run; [|  |exact H].
  - unfold decide_fee, reservation_row. keeps_steps.
  - eexists. simpl. rewrite lookup_alter_eq, Hr. split; [done|]. by split.
Qed.

Lemma consumed_rest {A} (a : A) (c : ChargingSession) card k now st cn b :
  keeps (consumed_by id sid) (lock_charge_point_code_for_charging k now;; attach_remote_start c card;;
    when b (note_power_start st cn);; mret a).
Proof. unfold lock_charge_point_code_for_charging, attach_remote_start, settle_start, note_power_start. keeps_steps. Qed.
End consumed.

Section opening.
Context {dep : Deployment} (tag_hash : string → string).

Lemma insert_session_run row db c db' :
  insert_session row db = (inr c, db') →
  c = row (next_id db) ∧ select_where (open_on (cs_connector_id c)) (charging_sessions db) = None ∧
  charging_sessions db' = <[next_id db := c]> (charging_sessions db) ∧ reservations db' = reservations db.
Proof.
  unfold insert_session. rewrite (bind_ok_step _ _ _ (next_id db) (set_next_id (next_id db + 1) db)) by done.
  rewrite bind_gets. intros (u & d1 & [Hd ->]%raise_if_inr & H)%bind_ok. apply bool_decide_eq_false in Hd.
  injection H as <- <-. split_and!; try done. by apply eq_None_not_Some.
Qed.

Lemma open_session_spec charger p previous cn card result ro db tid st db' :
  sessions_ok db → (∀ h, ro = Some h → is_Some (reservations db !! rv_id h)) →
  open_session charger p previous cn card result ro db = (inr (tid, st), db') →
  st = result ∧ tid = next_id db ∧ (∀ h, ro = Some h → consumed_by (rv_id h) tid db') ∧
  ∃ S1 b, all_retired cn (db_now db) (charging_sessions db) S1 ∧ select_where (open_on cn) S1 = None ∧
    charging_sessions db' = <[tid := new_session tid charger cn card result p b (db_now db)]> S1.
Proof.
  intros Hok Hro H. unfold open_session in H. rewrite !bind_gets in H.
  set (now := db_now db) in *. set (old := select_where (open_on cn) (charging_sessions db)) in *.
  apply bind_ok in H as ([] & d1 & H1 & H). apply bind_ok in H as ([] & d2 & H2 & H).
  apply bind_ok in H as (c & d3 & H3 & H). apply bind_ok in H as ([] & d4 & H4 & H).
  pose proof (retired_old cn now db Hok) as R. fold old in R.
  assert (next_id d2 = next_id db ∧ reservations d2 = reservations db ∧
    all_retired cn now (charging_sessions db) (charging_sessions d2)) as (E1 & E2 & R2).
  { assert (next_id d1 = next_id db ∧ reservations d1 = reservations db ∧
      all_retired cn now (charging_sessions db) (charging_sessions d1)) as (F1 & F2 & F3).
    { destruct old as [o|]; [injection H1 as <-|injection H1 as <-]; done. }
    destruct previous as [q|]; [injection H2 as <-|injection H2 as <-]; [|done].
    split_and!; [done..|]. by apply retired_flag. }
  apply insert_session_run in H3 as (-> & Hn & E3 & E4). rewrite E1 in *. set (s := new_session _ _ _ _ _ _ _ _) in *.
  assert (charging_sessions db' = charging_sessions d3 ∧ tid = next_id db ∧ st = result) as (E5 & -> & ->).
  { assert (charging_sessions d4 = charging_sessions d3) as <-.
    { destruct ro as [h|]; [|by injection H4 as <-]. by apply (keeps_run _ _ _ _ _ (still_consume (charging_sessions d3) _ _ _) eq_refl H4). }
    apply bind_ok in H as ([] & d5 & H5 & H). apply bind_ok in H as ([] & d6 & H6 & H).
    apply bind_ok in H as ([] & d7 & H7 & H). injection H as <- <- <-. split; [|done].
    apply (keeps_run _ _ _ _ _ (still_lock_code (charging_sessions d4) _ _) eq_refl) in H5.
    apply (keeps_run _ _ _ _ _ (still_attach (charging_sessions d4) _ _) H5) in H6.
    eapply (keeps_run (sessions_are (charging_sessions d4))); [|exact H6|exact H7].
    apply keeps_when, still_power. }
  split_and!; [done..| |].
  - intros h ->. assert (is_Some (reservations d3 !! rv_id h)) as Hs by (rewrite E4, E2; by apply Hro).
    pose proof (consume_consumes _ _ _ _ _ _ Hs H4) as Hc.
    change (cs_id s) with (next_id db) in *. revert H.
    match goal with |- ?m d4 = _ → _ => assert (keeps (consumed_by (rv_id h) (next_id db)) m) as Hk end.
    { apply consumed_rest. }
    intros H. exact (keeps_run _ _ _ _ _ Hk Hc H).
  - exists (charging_sessions d2), (bool_decide (is_Some old)). split_and!; [done|exact Hn|]. by rewrite E5, E3.
Qed.

(** What the attempt left alone. *)
Lemma attempted_frame db d :
  d = db ∨ attempted db d → sessions_ok db →
  sessions_ok d ∧ charging_sessions d = charging_sessions db ∧ reservations d = reservations db ∧ stations d = stations db ∧
  db_now d = db_now db ∧ (∀ st, power_start_allowed st None d = power_start_allowed st None db) ∧ next_id db ≤ next_id d.
Proof.
  intros [-> |(n & l & Hn & ->)] Hok; [done|]. split_and!; try done. destruct Hok as [H1 H2 H3]. split; [done| |done].
  intros k c Hc. simpl. specialize (H2 k c Hc). lia.
Qed.

(** A start that was not turned away. *)
Definition started (charger : ChargePoint) (p : StartPayload) (cn : Connector) (tid : Z) (status : string) (db db' : Db) : Prop :=
  ∃ c, charging_sessions db !! tid = None ∧ charging_sessions db' !! tid = Some c ∧ 0 < tid ∧
    cs_connector_id c = cn_id cn ∧ cs_ended_at c = None ∧ cs_started_at c = sp_timestamp p ∧
    cs_meter_start_uwh c = sp_meter_start p * micro ∧ cs_authorization_status c = status ∧
    (status ≠ "Accepted" → cs_review_reasons c ≠ []) ∧
    (status = "Accepted" → ∃ card, admitted tag_hash charger (sp_id_tag p) true card db ∧ cs_driver_id c = Some (cc_driver_id card)) ∧
    (∀ h, connector_hold (cn_id cn) db = Some h → consumed_by (rv_id h) tid db' ∧ status = "Accepted" ∧
       cs_driver_id c = Some (rv_driver_id h) ∧ sp_reservation_id p = Some (rv_ocpp_id h)).

Lemma new_session_reviewed id charger cn card r p b now :
  r ≠ "Accepted" → cs_review_reasons (new_session id charger cn card r p b now) ≠ [].
Proof.
  intros Hr. unfold new_session. rewrite bool_decide_eq_false_2 by done. cbn [cs_review_reasons].
  assert (∀ x l, l ≠ [] → review x l ≠ []) as Hrev by (intros x l Hl; unfold review; case_decide; destruct l; done).
  assert (review (authorization_reason r) [] ≠ []) as H by done.
  destruct (sp_meter_start p <? 0), b; auto.
Qed.

(** The session a start opens, the attempt already noted. *)
Lemma open_started charger p previous cn card result ro db d1 tid st db' :
  sessions_ok db → reservations_ok db → 0 < next_id db → d1 = db ∨ attempted db d1 →
  (result = "Accepted" → ∃ c, card = Some c ∧ admitted tag_hash charger (sp_id_tag p) true c db) →
  (is_Some ro → result = "Accepted") → hold_checked (cn_id cn) card (sp_reservation_id p) ro d1 →
  open_session charger p previous (cn_id cn) card result ro d1 = (inr (tid, st), db') →
  started charger p cn tid st db db' ∧
  (∀ k c, charging_sessions db !! k = Some c → ∃ c', charging_sessions db' !! k = Some c' ∧ retired (cn_id cn) (db_now db) c c') ∧
  (∀ k c, charging_sessions db' !! k = Some c → cs_connector_id c = cn_id cn → cs_ended_at c = None → k = tid).
Proof.
  intros Hok Hres Hid Hatt Hacc Hro Hchk H.
  destruct (attempted_frame _ _ Hatt Hok) as (Hok1 & Es & Er & _ & En & _ & Hn).
  apply open_session_spec in H as (-> & -> & Hcons & S1 & b & HR & Hnone & Hs); [|done|].
  2: { intros h ->. destruct Hchk as (_ & _ & _ & (k & Hk) & _). rewrite Er in Hk. rewrite (res_keyed _ Hres _ _ Hk), Er, Hk. done. }
  rewrite Es, En in *. rewrite Hs. set (s := new_session _ _ _ _ _ _ _ _).
  assert (∀ k, is_Some (S1 !! k) → k ≠ next_id d1) as Hfresh.
  { intros k [c1 Hc1] ->. destruct (proj2 HR _ _ Hc1) as (c0 & Hc0 & _). pose proof (so_numbered _ Hok _ _ Hc0). lia. }
  split_and!.
  - exists s. split_and!; try done; [|by rewrite Hs, lookup_insert_eq|lia|apply new_session_reviewed| |].
    + destruct (charging_sessions db !! next_id d1) as [c0|] eqn:Hc0; [|done]. pose proof (so_numbered _ Hok _ _ Hc0). lia.
    + intros (c & -> & Had)%Hacc. by exists c.
    + intros h Hh. destruct ro as [h'|]; [|destruct Hchk as [Hch _]; unfold connector_hold in *; rewrite Er in Hch; congruence].
      destruct Hchk as (Hof & Hoid & _ & _ & Hor). unfold connector_hold in *. rewrite Er in Hor.
      assert (h' = h) as -> by (destruct Hor as [?|[? _]]; congruence). unfold of_card in Hof. destruct card as [c|]; [|done].
      apply andb_true_iff in Hof as [_ Hd]. split_and!; [by apply Hcons|by apply Hro| |done].
      simpl. f_equal. lia.
  - intros k c Hc. destruct (proj1 HR k c Hc) as (c' & Hc' & R). exists c'. split; [|done]. rewrite lookup_insert_ne; [done|].
    intros <-. by apply (Hfresh (next_id d1)).
  - intros k c [[<- _]|[_ Hc]]%lookup_insert_Some Hcc He; [done|]. exfalso. rewrite select_where_None in Hnone.
    specialize (Hnone k c Hc). unfold open_on in Hnone. rewrite Hcc, Z.eqb_refl, He in Hnone. done.
Qed.

Lemma turned_away charger call cn card why d tid status d' :
  turn_away charger call cn card why d = (inr (tid, status), d') →
  tid = 0 ∧ status = "Blocked" ∧ charging_sessions d' = charging_sessions d.
Proof.
  intros H. pose proof (keeps_run _ _ _ _ _ (still_turn_away (charging_sessions d) _ _ _ _ _) eq_refl H) as E.
  unfold turn_away in H. apply bind_ok in H as (u & d1 & _ & H). apply bind_ok in H as (v & d2 & _ & [= <- <- _]). done.
Qed.

(** C11. A start is admitted or leaves no trace among the sessions. Either it is
    turned away with transaction 0 and no session is touched; or exactly one new
    open session exists on the connector, numbered by the sequence, every
    session that was open there has ended and is marked for review, nothing
    else about other sessions changes, the station is open and its power
    control admits a car. A start answered Accepted has a valid card of an active
    driver with a sufficient wallet; any other one is marked for review. On a
    reserved connector only the holder's card with the reservation's number
    starts, and the reservation is consumed by that transaction. *)
Theorem start_transaction_admits charger call p db tid status db' :
  sessions_ok db → reservations_ok db → 0 < next_id db →
  start_transaction tag_hash charger call p db = (inr (tid, status), db') →
  (tid = 0 ∧ status = "Blocked" ∧ charging_sessions db' = charging_sessions db) ∨
  ∃ cn, find_connector (cp_id charger) (sp_connector_id p) db = Some cn ∧ started charger p cn tid status db db' ∧
    station_open (stations db !! cp_station_id charger) = true ∧ power_start_allowed (cp_station_id charger) None db = true ∧
    (∀ k c, charging_sessions db !! k = Some c → ∃ c', charging_sessions db' !! k = Some c' ∧ retired (cn_id cn) (db_now db) c c') ∧
    (∀ k c, charging_sessions db' !! k = Some c → cs_connector_id c = cn_id cn → cs_ended_at c = None → k = tid).
Proof.
  intros Hok Hres Hid H. unfold start_transaction in H. rewrite !bind_gets in H.
  apply bind_ok in H as (cn & d0 & [Hcn ->]%some_or_inr & H).
  apply bind_ok in H as ([[result card] wf] & d1 & Hau & H). apply authorize_spec in Hau as (Hatt & Hwf & Hacc).
  destruct (attempted_frame _ _ Hatt Hok) as (Hok1 & Es & Er & Est & En & Ep & Hn). rewrite bind_gets in H.
  apply bind_ok in H as ([allow ro] & d2 & Hval & H).
  pose proof (keeps_run _ _ _ _ _ (still_validate (charging_sessions d1) _ _ _ _ _ _) eq_refl Hval) as Ev. unfold sessions_are in Ev.
  assert (charging_sessions d2 = charging_sessions db) as Es2 by congruence.
  destruct (negb allow || _) eqn:Hheld.
  { apply turned_away in H as (-> & -> & ->). left. done. }
  rewrite bind_gets in H. destruct (station_open (stations d2 !! _)) eqn:Hst; cbn [negb] in H.
  2: { apply turned_away in H as (-> & -> & ->). left. done. }
  rewrite bind_gets in H. destruct (power_start_allowed _ None d2) eqn:Hpw; cbn [negb] in H.
  2: { apply turned_away in H as (-> & -> & ->). left. done. }
  apply orb_false_iff in Hheld as [->%negb_false_iff Hheld]. apply validate_true in Hval as [-> Hchk].
  rewrite Est in Hst. rewrite Ep in Hpw. destruct wf as [e|].
  { apply bind_ok in H as ([] & d3 & H3 & H). apply bind_ok in H as (why & d4 & [_ ->]%some_or_inr & H).
    apply bind_ok in H as ([] & d5 & H5 & [= <- <- <-]). left. split_and!; [done..|].
    apply (keeps_run _ _ _ _ _ (still_reject (charging_sessions d1) _ _ _) eq_refl) in H3.
    apply (keeps_run _ _ _ _ _ (still_pending (charging_sessions d1) _ _ _) H3) in H5. unfold sessions_are in H5. congruence. }
  right. exists cn. split; [done|].
  assert (is_Some ro → result = "Accepted") as Hro.
  { intros Hr. rewrite bool_decide_eq_true_2 in Hheld by done. destruct (bool_decide (result = "Accepted")) eqn:Ea; [|done].
    by apply bool_decide_eq_true in Ea. }
  assert (result = "Accepted" → ∃ c, card = Some c ∧ admitted tag_hash charger (sp_id_tag p) true c db) as Hcard
    by (by intros (_ & ?)%Hacc).
  by destruct (open_started _ _ _ _ _ _ _ _ _ _ _ _ Hok Hres Hid Hatt Hcard Hro Hchk H) as (? & ? & ?).
Qed.
End opening.

(** ** The holder of a reservation arrives *)

Section demo.
#[local] Existing Instance demo_deployment.

Definition demo_point : ChargePoint :=
  mkChargePoint 40 30 "online" (Some 0) 3600 None None None None 0 None (Some 0) None None None None "CP-40" 0 None.
Definition demo_start_call : Call := mkCall "m-1" "StartTransaction" [("idTag", JStr "driver-tag"); ("connectorId", JInt 1)].
Definition demo_start : StartPayload := mkStartPayload "driver-tag" 1 1000 (seconds 20) (Some 204).
Definition demo_started : Db := (start_transaction id demo_point demo_start_call demo_start demo_active).2.

Lemma start_transaction_admits_witness :
  ∃ tid cn, start_transaction id demo_point demo_start_call demo_start demo_active = (inr (tid, "Accepted"), demo_started) ∧
    started id demo_point demo_start cn tid "Accepted" demo_active demo_started.
Proof.
  assert (charging_sessions demo_active = ∅) as He by (vm_compute; reflexivity).
  assert (sessions_ok demo_active) as Hs.
  { split; [intros k c|intros k c|intros k k' c c']; rewrite He, lookup_empty; done. }
  assert (reservations_ok demo_active) as Hr.
  { destruct (reservation_run_ok _ _ _ _ _ demo_steps demo_world_ok) as [[Hok _] _].
    exact (good_ok _ _ (good_same demo_overdue demo_active Hok eq_refl eq_refl)). }
  assert (∃ tid, start_transaction id demo_point demo_start_call demo_start demo_active = (inr (tid, "Accepted"), demo_started) ∧ tid ≠ 0)
    as (tid & Hrun & Hne) by (eexists; split; [unfold demo_started; apply ran; vm_compute; reflexivity|discriminate]).
  assert (0 < next_id demo_active) as Hid by (vm_compute; reflexivity).
  destruct (start_transaction_admits id demo_point demo_start_call demo_start demo_active tid "Accepted" demo_started Hs Hr Hid Hrun)
    as [(E & _)|(cn & _ & Hst & _)]; [destruct (Hne E)|]. exists tid, cn. exact (conj Hrun Hst).
Defined.
End demo.
