(* ===== verification/Dispatcher.v ===== *)
(** * Dispatcher: a charger's calls, answered once

    Models [src/src/modules/ocpp/dispatcher.py] and [charging_call] of
    [charging/service.py]. A call arrives as a frame; what Pydantic makes of its
    payload, and the SHA-256 of its canonical text, are parameters. A reply is
    kept as the frame it encodes. The socket's [boot_accepted] is passed in and
    returned; a call that raises leaves it and the database as they were. *)

From S2P Require Import Prelude Bands Clock Text Store AuditTrail Wallet Pricing Eligibility Closure Occupation Monitoring MeterUnits Metering PowerSchedule PowerControl Reservations Sessions.

Record BootPayload := mkBoot { bo_vendor : string; bo_model : string; bo_firmware : option string }.

(** What a payload may be read as. *)
Record Schemas := mkSchemas {
  boot_of : list (string * Json) → string + BootPayload;
  heartbeat_ok : list (string * Json) → bool;
  status_of : list (string * Json) → option StatusPayload;
  authorize_of : list (string * Json) → option string;
  start_of : list (string * Json) → option StartPayload;
  meter_of : list (string * Json) → option MeterPayload;
  stop_of : list (string * Json) → option StopPayload
}.

Definition is_null (v : Json) : bool := match v with JNull => true | _ => false end.
Definition has_null (payload : list (string * Json)) : bool := existsb (λ p, is_null p.2) payload.

Definition is_result (r : Reply) : bool := match r with CallResult _ _ => true | CallError _ _ _ => false end.

(** [reply[2].get("status") == "Accepted"] *)
Definition boot_approved (r : Reply) : bool :=
  match r with
  | CallResult _ payload => existsb (λ p, bool_decide (p.1 = "status") && match p.2 with JStr s => bool_decide (s = "Accepted") | _ => false end) payload
  | CallError _ _ _ => false
  end.

Definition update_point (id : Z) (f : ChargePoint → ChargePoint) : Tx () :=
  modify (λ db, set_charge_points (alter f id (charge_points db)) db).

(** A station that takes chargers. *)
Definition admits (station : option Station) : bool :=
  match station with
  | Some s => bool_decide (st_archived_at s = None) && negb (bool_decide (st_status s = "blocked"))
  | None => false
  end.

(** [except (ValidationError, ValueError)] around a handler. *)
Definition guarded {A} (m : Tx A) (refuse : A) : Tx A :=
  try_except m (λ e, match e with ValueError => Some (mret refuse) | _ => None end).

Section dispatcher.
Context {dep : Deployment} (tag_hash : string → string) (digest : string → list (string * Json) → string) (schemas : Schemas).

(** ** Boot *)

Definition boot_reply (call : Call) (status : string) (now interval : Z) : Reply :=
  CallResult (ca_message_id call) [("status", JStr status); ("currentTime", JInt now); ("interval", JInt interval)].

Definition booted (b : BootPayload) (named : bool) (now : Z) (interval : option Z) (c : ChargePoint) : ChargePoint :=
  let c := set_cp_model (Some (bo_model b)) (set_cp_vendor (Some (bo_vendor b)) c) in
  let c := if named then set_cp_firmware_version (bo_firmware b) c else c in
  let c := set_cp_last_boot_at (Some now) c in
  let c := match interval with Some i => set_cp_heartbeat_interval_seconds i c | None => c end in
  set_cp_status_updated_at now (set_cp_status "online" c).

(** The code of the first error Pydantic reports. *)
Definition boot_error (kind : string) : string :=
  if bool_decide (kind = "missing") then "OccurrenceConstraintViolation"
  else if bool_decide (kind = "string_type") then "TypeConstraintViolation" else "PropertyConstraintViolation".

Definition boot_notification (point : ChargePoint) (boot_accepted : bool) (call : Call) : Tx (Reply * bool) :=
  let refuse code := mret (CallError (ca_message_id call) code "Invalid BootNotification payload", boot_accepted) in
  match boot_of schemas (ca_payload call) with
  | inl kind => refuse (boot_error kind)
  | inr b =>
      if has_null (ca_payload call) then refuse "PropertyConstraintViolation"
      else
        station ← gets (λ db, stations db !! cp_station_id point);
        let accepted := admits station in
        now ← gets db_now;
        interval ← gets (verified_heartbeat (cp_id point) ocpp_heartbeat_interval_seconds);
        pending_interval ← gets (reboot_heartbeat (cp_id point));
        (if accepted then
           when (negb boot_accepted) (note_reconnection (cp_id point));;
           update_point (cp_id point) (booted b (existsb (λ p, bool_decide (p.1 = "firmwareVersion")) (ca_payload call)) now
             (match pending_interval with None => Some interval | Some _ => None end))
         else update_point (cp_id point) (set_cp_status "offline"));;
        mret (boot_reply call (if accepted then "Accepted" else "Rejected") now (default interval pending_interval), accepted)
  end.

(** A boot whose reply is stored: the socket is admitted anew. *)
Definition replay_boot (point : ChargePoint) (boot_accepted : bool) (call : Call) (stored : Reply) : Tx (Reply * bool) :=
  station ← gets (λ db, stations db !! cp_station_id point);
  let accepted := boot_approved stored && admits station in
  if boot_approved stored && negb accepted then
    update_point (cp_id point) (set_cp_status "offline");;
    now ← gets db_now;
    mret (boot_reply call "Rejected" now ocpp_heartbeat_interval_seconds, accepted)
  else
    when (accepted && negb boot_accepted) (note_reconnection (cp_id point));;
    mret (stored, accepted).

(** ** Other calls *)

Definition monitoring_call (point : ChargePoint) (call : Call) : Tx Reply :=
  let result payload := CallResult (ca_message_id call) payload in
  guarded (
    raise_if (has_null (ca_payload call)) ValueError;;
    if bool_decide (ca_action call = "Heartbeat") then
      raise_if (negb (heartbeat_ok schemas (ca_payload call))) ValueError;;
      update_point (cp_id point) (set_cp_status "online");;
      now ← gets db_now;
      mret (result [("currentTime", JInt now)])
    else
      status ← some_or (status_of schemas (ca_payload call)) ValueError;
      applied ← report_status (cp_id point) status;
      when applied (note_connector_status (cp_id point) (sp_connector status) (status_str (sp_status status)));;
      mret (result []))
  (CallError (ca_message_id call) "PropertyConstraintViolation" "Invalid monitoring payload").

Definition id_tag_info (status : string) : string * Json := ("idTagInfo", JObj [("status", JStr status)]).

(** The answer of a charging handler and the samples it leaves to store. *)
Definition charging_call (point : ChargePoint) (call : Call) : Tx (list (string * Json) * list MeterSample) :=
  raise_if (has_null (ca_payload call)) ValueError;;
  if bool_decide (ca_action call = "Authorize") then
    tag ← some_or (authorize_of schemas (ca_payload call)) ValueError;
    v ← authorize tag_hash point tag false;
    mret ([id_tag_info v.1.1], [])
  else if bool_decide (ca_action call = "StartTransaction") then
    p ← some_or (start_of schemas (ca_payload call)) ValueError;
    r ← start_transaction tag_hash point call p;
    mret ([("transactionId", JInt r.1); id_tag_info r.2], [])
  else if bool_decide (ca_action call = "MeterValues") then
    p ← some_or (meter_of schemas (ca_payload call)) ValueError;
    rows ← meter_values (cp_id point) call p;
    mret ([], rows)
  else
    p ← some_or (stop_of schemas (ca_payload call)) ValueError;
    stop_transaction (cp_id point) call p;;
    mret ([], []).

Definition answer_charging (point : ChargePoint) (call : Call) : Tx (Reply * list MeterSample) :=
  guarded (r ← charging_call point call; mret (CallResult (ca_message_id call) r.1, r.2))
    (CallError (ca_message_id call) "PropertyConstraintViolation" "Invalid charging payload", []).

(** The handler of a call no reply is stored for: the reply, the socket and the
    samples to store with it. *)
Definition handle (point : ChargePoint) (boot_accepted : bool) (call : Call) : Tx (Reply * bool * list MeterSample) :=
  if bool_decide (ca_action call = "BootNotification") then
    r ← boot_notification point boot_accepted call; mret (r, [])
  else if bool_decide (ca_action call ∈ ["Heartbeat"; "StatusNotification"]) then
    r ← monitoring_call point call; mret (r, boot_accepted, [])
  else if bool_decide (ca_action call ∈ ["Authorize"; "StartTransaction"; "StopTransaction"; "MeterValues"]) then
    r ← answer_charging point call; mret (r.1, boot_accepted, r.2)
  else mret (CallError (ca_message_id call) "NotImplemented" "Action is not implemented", boot_accepted, []).

Definition store_reply (point_id : Z) (call : Call) (response : Reply) : Tx () :=
  now ← gets db_now;
  modify (λ db, set_message_replies (<[(point_id, ca_message_id call) :=
    mkReply (digest (ca_action call) (ca_payload call)) response now]> (message_replies db)) db).

Definition process_call (record_seen : bool) (point_id : Z) (boot_accepted : bool) (call : Call) : Tx (Reply * bool) :=
  charger ← (if record_seen then lock_and_mark_seen point_id else gets (λ db, charge_points db !! point_id));
  let security text := mret (CallError (ca_message_id call) "SecurityError" text, boot_accepted) in
  match charger with
  | None => security "Charger registration is unavailable"
  | Some point =>
      if bool_decide (is_Some (cp_archived_at point)) then security "Charger registration is unavailable"
      else if negb (bool_decide (ca_action call = "BootNotification")) && negb boot_accepted then
        security "BootNotification must be accepted first"
      else
        cached ← gets (λ db, message_replies db !! (point_id, ca_message_id call));
        match cached with
        | Some stored =>
            if bool_decide (ca_action call = "BootNotification") then replay_boot point boot_accepted call (mr_response stored)
            else mret (mr_response stored, boot_accepted)
        | None =>
            r ← handle point boot_accepted call;
            let '(response, accepted, samples) := r in
            insert_meter_rows samples;;
            store_reply point_id call response;;
            when (bool_decide (ca_action call ∈ ["BootNotification"; "StatusNotification"; "StartTransaction"; "StopTransaction"]) &&
                  is_result response) (note_power_event (cp_station_id point));;
            mret (response, accepted)
        end
  end.

(** One transaction; an exception restores the socket as well. *)
Definition dispatch_call (record_seen : bool) (point_id : Z) (boot_accepted : bool) (call : Call) : Tx (Reply * bool) :=
  savepoint (process_call record_seen point_id boot_accepted call).

Definition prune_replies : Tx () :=
  now ← gets db_now;
  modify (λ db, set_message_replies (filter (λ kv, now - 7 * 86400 * second_us ≤ mr_created_at kv.2) (message_replies db)) db).
End dispatcher.
