(* ===== verification/ReplyFrame.v ===== *)
(** * ReplyFrame: the handlers neither read nor write the stored replies

    [steady m]: [m] leaves the clock alone, and run with another reply table it
    has the same outcome and the same effect on everything else. One rule per
    combinator, then one lemma per handler the dispatcher calls. *)

From S2P Require Import Prelude Bands Clock Text Store AuditTrail Wallet Pricing Eligibility Invoicing Notifications Closure Occupation Monitoring MeterUnits Metering PowerSchedule PowerControl Reservations Sessions Dispatcher.

Create HintDb csms_steady discriminated.

Local Abbreviation Table := (gmap (Z * string) OcppMessageReply).
Local Abbreviation on x db := (set_message_replies x db).

Definition steady {A} (m : Tx A) : Prop :=
  ∀ db, db_now (m db).2 = db_now db ∧ ∀ x : Table, m (on x db) = ((m db).1, on x (m db).2).

(** ** Rules *)

Lemma steady_ret {A} (a : A) : steady (mret a).
Proof. done. Qed.
Lemma steady_raise {A} e : steady (raise (A := A) e).
Proof. done. Qed.
Lemma steady_raise_if b e : steady (raise_if b e).
Proof. by destruct b. Qed.
Lemma steady_some_or {A} (o : option A) e : steady (some_or o e).
Proof. by destruct o. Qed.
Lemma steady_lift {A} (r : Exn + A) : steady (lift r).
Proof. done. Qed.
Lemma steady_gets {A} (f : Db → A) : (∀ x db, f (on x db) = f db) → steady (gets f).
Proof. intros Hf db. split; [done|]. intros x. unfold gets. by rewrite Hf. Qed.
Lemma steady_modify f :
  (∀ db, db_now (f db) = db_now db) → (∀ x db, f (on x db) = on x (f db)) → steady (modify f).
Proof. intros Ht Hf db. split; [apply Ht|]. intros x. unfold modify. by rewrite Hf. Qed.

Lemma steady_bind {A B} (m : Tx A) (k : A → Tx B) : steady m → (∀ a, steady (k a)) → steady (m ≫= k).
Proof.
  intros Hm Hk db. destruct (Hm db) as [Ht Hx]. unfold mbind, M_bind. destruct (m db) as [[e|a] d1].
  - split; [done|]. intros x. by rewrite Hx.
  - destruct (Hk a d1) as [Ht1 Hx1]. split; [simpl in *; congruence|]. intros x. rewrite Hx. apply Hx1.
Qed.
Lemma steady_savepoint {A} (m : Tx A) : steady m → steady (savepoint m).
Proof.
  intros Hm db. destruct (Hm db) as [Ht Hx]. unfold savepoint. destruct (m db) as [[e|a] d1]; (split; [done|]); intros x;
    by rewrite Hx.
Qed.
Lemma steady_try {A} (m : Tx A) h : steady m → (∀ e k, h e = Some k → steady k) → steady (try_except m h).
Proof.
  intros Hm Hh db. destruct (Hm db) as [Ht Hx]. unfold try_except. destruct (m db) as [[e|a] d1].
  - destruct (h e) as [k|] eqn:E.
    + destruct (Hh e k E d1) as [Ht1 Hx1]. split; [simpl in *; congruence|]. intros x. rewrite Hx. simpl. rewrite E. apply Hx1.
    + split; [done|]. intros x. rewrite Hx. simpl. by rewrite E.
  - split; [done|]. intros x. by rewrite Hx.
Qed.
Lemma steady_when b m : steady m → steady (when b m).
Proof. by destruct b. Qed.
Lemma steady_for_each {A} (l : list A) body : (∀ a, steady (body a)) → steady (for_each l body).
Proof. intros Hb. induction l; [done|]. by apply steady_bind. Qed.

#[export] Hint Resolve steady_ret steady_raise steady_raise_if steady_some_or steady_lift : csms_steady.
#[export] Hint Extern 1 (steady (gets _)) => apply steady_gets; reflexivity : csms_steady.
#[export] Hint Extern 1 (steady (modify _)) => apply steady_modify; reflexivity : csms_steady.

Ltac steady_steps :=
  repeat first
    [ solve [auto with csms_steady nocore]
    | match goal with
      | |- steady (_ ≫= _) => apply steady_bind; [|intros ?]
      | |- steady (savepoint _) => apply steady_savepoint
      | |- steady (when _ _) => apply steady_when
      | |- steady (for_each _ _) => apply steady_for_each; intros ?
      | |- steady _ => case_match
      end ].

(** What a steady computation keeps. *)
Lemma steady_clock {A} (m : Tx A) db r db' : steady m → m db = (r, db') → db_now db' = db_now db.
Proof. intros Hm E. destruct (Hm db) as [Ht _]. by rewrite E in Ht. Qed.

Lemma steady_moved {A} (m : Tx A) x db r db' : steady m → m db = (r, db') → m (on x db) = (r, on x db').
Proof. intros Hm E. destruct (Hm db) as [_ Hx]. by rewrite Hx, E. Qed.

Lemma on_self db : on (message_replies db) db = db.
Proof. by destruct db. Qed.

Lemma steady_table {A} (m : Tx A) db r db' : steady m → m db = (r, db') → message_replies db' = message_replies db.
Proof.
  intros Hm E. pose proof (steady_moved m (message_replies db) db r db' Hm E) as E2. rewrite on_self, E in E2.
  injection E2 as E2. by rewrite E2.
Qed.

(** ** Shared pieces *)

Lemma steady_fresh_id : steady fresh_id.
Proof. unfold fresh_id. steady_steps. Qed.
#[export] Hint Resolve steady_fresh_id : csms_steady.

Lemma steady_update_start k f : steady (update_start k f).
Proof. unfold update_start. steady_steps. Qed.
Lemma steady_update_session k f : steady (update_session k f).
Proof. unfold update_session. steady_steps. Qed.
Lemma steady_update_point k f : steady (update_point k f).
Proof. unfold update_point. steady_steps. Qed.
Lemma steady_update_power k f : steady (update_power k f).
Proof. unfold update_power. steady_steps. Qed.
Lemma steady_update_connector_power k f : steady (update_connector_power k f).
Proof. unfold update_connector_power. steady_steps. Qed.
Lemma steady_update_reservation k f : steady (update_reservation k f).
Proof. unfold update_reservation. steady_steps. Qed.
Lemma steady_update_interval i f : steady (update_interval i f).
Proof. unfold update_interval. steady_steps. Qed.
Lemma steady_session_row k : steady (session_row k).
Proof. unfold session_row. steady_steps. Qed.
Lemma steady_reservation_row k : steady (reservation_row k).
Proof. unfold reservation_row. steady_steps. Qed.
Lemma steady_add_event k a actor d : steady (add_event k a actor d).
Proof. unfold add_event. steady_steps. Qed.
#[export] Hint Resolve steady_update_start steady_update_session steady_update_point steady_update_power steady_update_connector_power
  steady_update_reservation steady_update_interval steady_session_row steady_reservation_row steady_add_event : csms_steady.

Lemma steady_identifier v n : steady (_identifier v n).
Proof. unfold _identifier. steady_steps. Qed.
#[export] Hint Resolve steady_identifier : csms_steady.
Lemma steady_identifiers l : steady (identifiers l).
Proof. induction l; cbn [identifiers]; steady_steps. Qed.
#[export] Hint Resolve steady_identifiers : csms_steady.

Lemma steady_audit a b c d e f g : steady (ghi_nhat_ky a b c d e f g).
Proof. unfold ghi_nhat_ky, optional. steady_steps. Qed.
#[export] Hint Resolve steady_audit : csms_steady.

Section handlers.
Context {dep : Deployment} (tag_hash : string → string) (schemas : Schemas).

(** ** Occupation, notifications, meter samples *)

Lemma steady_release k t i src : steady (release k t i src).
Proof. unfold release. steady_steps. Qed.
#[local] Hint Resolve steady_release : csms_steady.
Lemma steady_note_on c s t : steady (note_on_session c s t).
Proof. unfold note_on_session, occupy, insert_interval. steady_steps. Qed.
#[local] Hint Resolve steady_note_on : csms_steady.
Lemma steady_note_status cn s t : steady (note_status cn s t).
Proof. unfold note_status. steady_steps. Qed.
Lemma steady_note_stop k : steady (note_stop k).
Proof. unfold note_stop. steady_steps. Qed.
Lemma steady_offline_gap k : steady (note_offline_gap k).
Proof. unfold note_offline_gap. steady_steps. Qed.
#[local] Hint Resolve steady_note_status steady_note_stop steady_offline_gap : csms_steady.

Lemma steady_lay_bieu_gia s d : steady (lay_bieu_gia_hieu_luc s d).
Proof. unfold lay_bieu_gia_hieu_luc, _station. steady_steps. Qed.
Lemma steady_version_frames s t : steady (version_frames s t false).
Proof. unfold version_frames, when. steady_steps. Qed.
#[local] Hint Resolve steady_lay_bieu_gia steady_version_frames : csms_steady.
Lemma steady_daily_loop s n : ∀ day cached acc, steady (daily_loop s false day n cached acc).
Proof. induction n as [|n IH]; intros day cached acc; cbn [daily_loop]; unfold locked_tariff, _station; steady_steps. Qed.
#[local] Hint Resolve steady_daily_loop : csms_steady.
Lemma steady_estimated charging station at_ : steady (estimated_amount charging station at_).
Proof.
  unfold estimated_amount. destruct (cs_ended_at charging), (cs_review_reasons charging); try done.
  apply steady_try; [|intros x k; case_match; [by intros [= <-]|done]]. unfold estimate, _daily_tariffs, _meter_values. steady_steps.
Qed.
#[local] Hint Resolve steady_estimated : csms_steady.
Lemma steady_notify c k a b d : steady (notify_event c k a b d).
Proof. unfold notify_event, insert_notification. steady_steps. Qed.
#[local] Hint Resolve steady_notify : csms_steady.

Lemma steady_insert_rows l : steady (insert_meter_rows l).
Proof. unfold insert_meter_rows. steady_steps. Qed.
Lemma steady_pending k call why : steady (pending k call why).
Proof. unfold pending. steady_steps. Qed.
Lemma steady_store_samples k blocks b known : steady (store_samples k blocks b known).
Proof. unfold store_samples, store_recovery_samples. steady_steps. Qed.
#[local] Hint Resolve steady_insert_rows steady_pending steady_store_samples : csms_steady.
Lemma steady_meter_values k call p : steady (meter_values k call p).
Proof. unfold meter_values. steady_steps. Qed.
Lemma steady_stop k call p : steady (stop_transaction k call p).
Proof. unfold stop_transaction. steady_steps. Qed.
Lemma steady_reconnection k : steady (note_reconnection k).
Proof. unfold note_reconnection. steady_steps. Qed.
Lemma steady_connector_status k n s : steady (note_connector_status k n s).
Proof. unfold note_connector_status. steady_steps. Qed.
#[local] Hint Resolve steady_meter_values steady_stop steady_reconnection steady_connector_status : csms_steady.

(** ** Contact, status and power *)

Lemma steady_mark_seen k : steady (lock_and_mark_seen k).
Proof. unfold lock_and_mark_seen, record_contact. steady_steps. Qed.
Lemma steady_report k p : steady (report_status k p).
Proof. unfold report_status. steady_steps. Qed.
Lemma steady_power st : steady (note_power_event st).
Proof. unfold note_power_event. steady_steps. Qed.
#[local] Hint Resolve steady_report steady_power : csms_steady.

(** ** Starts *)

Lemma steady_settle_start cn card f : steady (settle_start cn card f).
Proof. unfold settle_start. steady_steps. Qed.
Lemma steady_event id a now d : steady (event id a now d).
Proof. unfold event. steady_steps. Qed.
#[local] Hint Resolve steady_settle_start steady_event : csms_steady.
Lemma steady_decide id d reason now : steady (decide_fee id d reason now).
Proof. unfold decide_fee. steady_steps. Qed.
#[local] Hint Resolve steady_decide : csms_steady.
Lemma steady_late id src now msg : steady (mark_late_start id src now msg).
Proof. unfold mark_late_start. steady_steps. Qed.
#[local] Hint Resolve steady_late : csms_steady.
Lemma steady_judge card o src now msg h : steady (judge_hold card o src now msg h).
Proof. unfold judge_hold. steady_steps. Qed.
#[local] Hint Resolve steady_judge : csms_steady.
Lemma steady_validate cn card o src now msg : steady (validate_start cn card o src now msg).
Proof. unfold validate_start. steady_steps. Qed.
Lemma steady_consume id sid now : steady (consume id sid now).
Proof. unfold consume. steady_steps. Qed.
Lemma steady_eligibility d s now : steady (du_so_du_de_sac d s now).
Proof. unfold du_so_du_de_sac, clock. steady_steps. Qed.
#[local] Hint Resolve steady_validate steady_consume steady_eligibility : csms_steady.
Lemma steady_authorize point tag ctx : steady (authorize tag_hash point tag ctx).
Proof. unfold authorize, note_attempt. steady_steps. Qed.
Lemma steady_open point p prev cn card r res : steady (open_session point p prev cn card r res).
Proof.
  unfold open_session, insert_session, lock_charge_point_code_for_charging, attach_remote_start, note_power_start. steady_steps.
Qed.
#[local] Hint Resolve steady_authorize steady_open : csms_steady.
Lemma steady_start point call p : steady (start_transaction tag_hash point call p).
Proof. unfold start_transaction, turn_away, reject_unavailable_start, reject_remote_start. steady_steps. Qed.
#[local] Hint Resolve steady_start : csms_steady.

(** ** The dispatcher's branches *)

Lemma steady_guarded {A} (m : Tx A) r : steady m → steady (guarded m r).
Proof. intros Hm. apply steady_try; [done|]. intros [] k; try done. by intros [= <-]. Qed.
Lemma steady_boot point b call : steady (boot_notification schemas point b call).
Proof. unfold boot_notification. steady_steps. Qed.
Lemma steady_replay_boot point b call r : steady (replay_boot point b call r).
Proof. unfold replay_boot. steady_steps. Qed.
Lemma steady_monitoring point call : steady (monitoring_call schemas point call).
Proof. unfold monitoring_call. apply steady_guarded. steady_steps. Qed.
Lemma steady_charging point call : steady (answer_charging tag_hash schemas point call).
Proof. unfold answer_charging. apply steady_guarded. unfold charging_call. steady_steps. Qed.
#[local] Hint Resolve steady_boot steady_monitoring steady_charging : csms_steady.
Lemma steady_handle point b call : steady (handle tag_hash schemas point b call).
Proof. unfold handle. steady_steps. Qed.
End handlers.

#[export] Hint Resolve steady_mark_seen steady_handle steady_replay_boot steady_insert_rows steady_power : csms_steady.
