(* ===== verification/DispatcherSpec.v ===== *)
(** * DispatcherSpec: the dispatcher refines exactly-once processing

    The abstract machine keeps a world without a reply table and remembers, per
    charger and message, the answer it gave and when. It performs a call it does
    not remember and repeats the answer of one it does. The dispatcher with its
    table behaves the same on every sequence of calls from any chargers, prunings,
    clock ticks and other work of the server. *)

From S2P Require Import Prelude Bands Clock Text Store AuditTrail Wallet Pricing Eligibility Closure Occupation Monitoring MeterUnits Metering PowerSchedule PowerControl Reservations ReservationWorker ReservationRuns Sessions Dispatcher ReplyFrame.

(** ** The abstract machine *)

Local Abbreviation Memo := (gmap (Z * string) (Reply * Z)).
Local Abbreviation on x db := (set_message_replies x db).

Definition week_us : Z := 7 * 86400 * second_us.

Record Abs := mkAbs { a_world : Db; a_memo : Memo }.

(** What the server is asked: a call on a socket, the pruning of replies, time, or
    any other work that has nothing to do with the replies. *)
Inductive Request :=
  | Receive (point_id : Z) (record_seen boot_accepted : bool) (call : Call)
  | Prune
  | Tick (d : Z)
  | Other (m : Tx ()).

Definition request_ok (q : Request) : Prop :=
  match q with Other m => steady m | Tick d => 0 ≤ d | _ => True end.

(** What became of a request. *)
Inductive Outcome :=
  | Performed (key : Z * string) (t : Z) (answer : Reply * bool)
  | Repeated (key : Z * string) (answer : Reply * bool)
  | Readmitted (key : Z * string) (answer : Reply * bool)
  | Refused (answer : Reply * bool)
  | Aborted
  | Silent.

Definition observed (o : Outcome) : option (Reply * bool) :=
  match o with
  | Performed _ _ v | Repeated _ v | Readmitted _ v | Refused v => Some v
  | Aborted | Silent => None
  end.

Section machine.
Context {dep : Deployment} (tag_hash : string → string) (digest : string → list (string * Json) → string) (schemas : Schemas).

Definition contact (record_seen : bool) (point_id : Z) : Tx (option ChargePoint) :=
  if record_seen then lock_and_mark_seen point_id else gets (λ db, charge_points db !! point_id).

(** The charger that may speak, or why not. *)
Definition entitled (boot_accepted : bool) (call : Call) (charger : option ChargePoint) : string + ChargePoint :=
  match charger with
  | Some point =>
      if bool_decide (cp_archived_at point = None) then
        if bool_decide (ca_action call = "BootNotification") || boot_accepted then inr point
        else inl "BootNotification must be accepted first"
      else inl "Charger registration is unavailable"
  | None => inl "Charger registration is unavailable"
  end.

(** The work of a call, its answer stored nowhere. *)
Definition perform (point : ChargePoint) (boot_accepted : bool) (call : Call) : Tx (Reply * bool) :=
  r ← handle tag_hash schemas point boot_accepted call;
  let '(response, accepted, samples) := r in
  insert_meter_rows samples;;
  when (bool_decide (ca_action call ∈ ["BootNotification"; "StatusNotification"; "StartTransaction"; "StopTransaction"]) &&
        is_result response) (note_power_event (cp_station_id point));;
  mret (response, accepted).

Definition abs_receive (pid : Z) (seen b : bool) (call : Call) (σ : Abs) : Outcome * Abs :=
  let key := (pid, ca_message_id call) in
  match contact seen pid (a_world σ) with
  | (inl _, _) => (Aborted, σ)
  | (inr charger, w) =>
      match entitled b call charger with
      | inl text => (Refused (CallError (ca_message_id call) "SecurityError" text, b), mkAbs w (a_memo σ))
      | inr point =>
          match a_memo σ !! key with
          | Some (r, _) =>
              if bool_decide (ca_action call = "BootNotification") then
                match replay_boot point b call r w with
                | (inr v, w') => (Readmitted key v, mkAbs w' (a_memo σ))
                | (inl _, _) => (Aborted, σ)
                end
              else (Repeated key (r, b), mkAbs w (a_memo σ))
          | None =>
              match perform point b call w with
              | (inr v, w') => (Performed key (db_now w') v, mkAbs w' (<[key := (v.1, db_now w')]> (a_memo σ)))
              | (inl _, _) => (Aborted, σ)
              end
          end
      end
  end.

Definition abs_step (q : Request) (σ : Abs) : Outcome * Abs :=
  match q with
  | Receive pid seen b call => abs_receive pid seen b call σ
  | Prune => (Silent, mkAbs (a_world σ) (filter (λ kv, db_now (a_world σ) - week_us ≤ kv.2.2) (a_memo σ)))
  | Tick d => (Silent, mkAbs (set_db_now (db_now (a_world σ) + d) (a_world σ)) (a_memo σ))
  | Other m => (Silent, mkAbs (m (a_world σ)).2 (a_memo σ))
  end.

Definition abs_run (qs : list Request) (σ : Abs) : list Outcome * Abs :=
  foldl (λ s q, let '(o, σ') := abs_step q s.2 in (s.1 ++ [o], σ')) ([], σ) qs.

(** ** The dispatcher *)

Definition code_step (q : Request) (db : Db) : option (Reply * bool) * Db :=
  match q with
  | Receive pid seen b call =>
      let '(r, db') := dispatch_call tag_hash digest schemas seen pid b call db in
      (match r with inr v => Some v | inl _ => None end, db')
  | Prune => (None, (prune_replies db).2)
  | Tick d => (None, set_db_now (db_now db + d) db)
  | Other m => (None, (m db).2)
  end.

Definition code_run (qs : list Request) (db : Db) : list (option (Reply * bool)) * Db :=
  foldl (λ s q, let '(o, db') := code_step q s.2 in (s.1 ++ [o], db')) ([], db) qs.

Definition memory (t : gmap (Z * string) OcppMessageReply) : Memo := (λ r, (mr_response r, mr_created_at r)) <$> t.
Definition abstracts (db : Db) (σ : Abs) : Prop := a_world σ = on ∅ db ∧ a_memo σ = memory (message_replies db).

(** ** Simulation *)

Lemma steady_contact seen pid : steady (contact seen pid).
Proof. unfold contact. destruct seen; auto with csms_steady nocore. Qed.

Lemma steady_perform point b call : steady (perform point b call).
Proof. unfold perform. steady_steps. Qed.

Definition record_reply (pid : Z) (call : Call) (r : Reply) (db : Db) : Db :=
  on (<[(pid, ca_message_id call) := mkReply (digest (ca_action call) (ca_payload call)) r (db_now db)]> (message_replies db)) db.

(** A call that is not stored: the work, then its answer in the table. *)
Lemma process_fresh pid point b call db :
  ∀ res db', (r ← handle tag_hash schemas point b call;
    let '(response, accepted, samples) := r in
    insert_meter_rows samples;;
    store_reply digest pid call response;;
    when (bool_decide (ca_action call ∈ ["BootNotification"; "StatusNotification"; "StartTransaction"; "StopTransaction"]) &&
          is_result response) (note_power_event (cp_station_id point));;
    mret (response, accepted)) db = (res, db') →
  ∃ d, perform point b call db = (res, d) ∧ ∀ v, res = inr v → db' = record_reply pid call v.1 d.
Proof.
  intros res db' H. unfold perform. unfold mbind at 1, M_bind at 1 in H. unfold mbind at 1, M_bind at 1.
  destruct (handle _ _ _ _ _ db) as [[e|[[r acc] l]] d1] eqn:Eh; [injection H as <- <-; by exists d1|].
  unfold mbind at 1, M_bind at 1 in H. unfold mbind at 1, M_bind at 1.
  destruct (insert_meter_rows l d1) as [[e|[]] d2] eqn:Ei; [injection H as <- <-; by exists d2|].
  set (w := when _ _) in *. assert (steady w) as Hw by (unfold w; steady_steps).
  rewrite (bind_ok_step _ _ _ () (record_reply pid call r d2)) in H by done.
  destruct (w d2) as [rw d3] eqn:Ew. pose proof (steady_clock _ _ _ _ Hw Ew) as Et. pose proof (steady_table _ _ _ _ Hw Ew) as Em.
  unfold record_reply in H. unfold mbind at 1, M_bind at 1 in H. rewrite (steady_moved _ _ _ _ _ Hw Ew) in H.
  unfold mbind, M_bind. rewrite Ew. destruct rw as [e|[]]; injection H as <- <-; exists d3; (split; [done|]); intros v Hv; [done|].
  injection Hv as <-. unfold record_reply. by rewrite Et, Em.
Qed.

Lemma contact_entitled b call charger {A} (refuse : string → A) (k : ChargePoint → A) :
  match charger with
  | None => refuse "Charger registration is unavailable"
  | Some point =>
      if bool_decide (is_Some (cp_archived_at point)) then refuse "Charger registration is unavailable"
      else if negb (bool_decide (ca_action call = "BootNotification")) && negb b then refuse "BootNotification must be accepted first"
      else k point
  end = match entitled b call charger with inl text => refuse text | inr point => k point end.
Proof.
  unfold entitled. destruct charger as [point|]; [|done]. destruct (cp_archived_at point); [done|]. simpl.
  by destruct (bool_decide (ca_action call = "BootNotification")), b.
Qed.

Lemma receive_simulated pid seen b call db σ :
  abstracts db σ →
  let '(res, db') := dispatch_call tag_hash digest schemas seen pid b call db in
  let '(o, σ') := abs_receive pid seen b call σ in
  observed o = match res with inr v => Some v | inl _ => None end ∧ abstracts db' σ'.
Proof.
  intros [Hw Hm]. destruct (dispatch_call _ _ _ _ _ _ _ _) as [res db'] eqn:H. unfold abs_receive. rewrite Hw, Hm.
  unfold dispatch_call, savepoint, process_call in H. fold (contact seen pid) in H.
  destruct (contact seen pid db) as [rc d1] eqn:Ec. pose proof (steady_contact seen pid) as Hc.
  pose proof (steady_table _ _ _ _ Hc Ec) as Em. rewrite (steady_moved _ _ _ _ _ Hc Ec).
  unfold mbind at 1, M_bind at 1 in H. rewrite Ec in H. destruct rc as [e|charger]; [by injection H as <- <-|].
  rewrite (contact_entitled b call charger (λ text, mret (CallError (ca_message_id call) "SecurityError" text, b))) in H.
  destruct (entitled b call charger) as [text|point].
  { injection H as <- <-. split; [done|]. split; [done|]. simpl. by rewrite ?Em. }
  rewrite bind_gets in H. unfold memory at 1. rewrite lookup_fmap, <- Em.
  destruct (message_replies d1 !! _) as [stored|] eqn:Es; simpl.
  - case_bool_decide.
    + pose proof (steady_replay_boot point b call (mr_response stored)) as Hr.
      destruct (replay_boot _ _ _ _ d1) as [rr d2] eqn:Er. rewrite (steady_moved _ _ _ _ _ Hr Er).
      destruct rr as [e|v]; injection H as <- <-; (split; [done|]); (split; [done|]); simpl; [by rewrite ?Em|].
      by rewrite (steady_table _ _ _ _ Hr Er).
    + injection H as <- <-. split; [done|]. split; [done|]. simpl. by rewrite ?Em.
  - destruct ((handle _ _ _ _ _ ≫= _) d1) as [rr d2] eqn:Ef in H. apply process_fresh in Ef as (d & Ep & Hd).
    pose proof (steady_perform point b call) as Hp. rewrite (steady_moved _ _ _ _ _ Hp Ep).
    destruct rr as [e|v]; injection H as <- <-; (split; [done|]).
    + split; [done|]. simpl. by rewrite ?Em.
    + rewrite (Hd v eq_refl). split; [done|]. simpl. unfold memory. rewrite fmap_insert. simpl.
      by rewrite (steady_table _ _ _ _ Hp Ep).
Qed.

Lemma step_simulated q db σ :
  request_ok q → abstracts db σ →
  observed (abs_step q σ).1 = (code_step q db).1 ∧ abstracts (code_step q db).2 (abs_step q σ).2.
Proof.
  intros Hq Ha. destruct q as [pid seen b call| |d|m]; simpl.
  - pose proof (receive_simulated pid seen b call db σ Ha) as H. destruct (dispatch_call _ _ _ _ _ _ _ _).
    by destruct (abs_receive _ _ _ _ _).
  - split; [done|]. destruct Ha as [Hw Hm]. split; [by rewrite Hw|]. simpl. rewrite Hm, Hw. unfold memory.
    by rewrite map_filter_fmap.
  - destruct Ha as [Hw Hm]. split; [done|]. split; [by rewrite Hw|done].
  - destruct Ha as [Hw Hm]. split; [done|]. destruct (m db) as [r d] eqn:E. split; simpl.
    + by rewrite Hw, (steady_moved _ _ _ _ _ Hq E).
    + by rewrite (steady_table _ _ _ _ Hq E).
Qed.

Lemma run_simulated qs db σ :
  Forall request_ok qs → abstracts db σ →
  observed <$> (abs_run qs σ).1 = (code_run qs db).1 ∧ abstracts (code_run qs db).2 (abs_run qs σ).2.
Proof.
  intros Hqs Ha. unfold abs_run, code_run. induction qs as [|q qs IH] using rev_ind; [done|].
  apply Forall_app in Hqs as [Hqs Hq]. inversion_clear Hq. rewrite !foldl_app. simpl.
  destruct (IH Hqs) as [IH1 IH2]. destruct (foldl _ ([], σ) qs) as [log σ1], (foldl _ ([], db) qs) as [out d1].
  simpl in *. destruct (step_simulated q d1 σ1) as [H1 H2]; [done|done|].
  destruct (abs_step q σ1) as [o σ2], (code_step q d1) as [o' d2]. simpl in *. rewrite fmap_app. simpl. by rewrite IH1, H1.
Qed.

(** ** What the abstract machine promises *)

(** A step either performs a call it does not remember, or repeats one it does,
    or forgets answers older than a week. *)
Definition step_spec (o : Outcome) (σ σ' : Abs) : Prop :=
  match o with
  | Performed key t v => a_memo σ !! key = None ∧ t = db_now (a_world σ') ∧ a_memo σ' = <[key := (v.1, t)]> (a_memo σ)
  | Repeated key v => (∃ t, a_memo σ !! key = Some (v.1, t)) ∧ a_memo σ' = a_memo σ
  | _ => a_memo σ' ⊆ a_memo σ ∧
      ∀ key r t, a_memo σ !! key = Some (r, t) → a_memo σ' !! key = Some (r, t) ∨ t < db_now (a_world σ') - week_us
  end.

Lemma memo_kept (memo : Memo) t0 :
  memo ⊆ memo ∧ ∀ key r t, memo !! key = Some (r, t) → memo !! key = Some (r, t) ∨ t < t0.
Proof. split; [done|auto]. Qed.
#[local] Hint Resolve memo_kept : core.
#[local] Hint Extern 1 (_ ≤ _) => reflexivity : core.

Lemma abs_step_spec q σ o σ' :
  request_ok q → abs_step q σ = (o, σ') → db_now (a_world σ) ≤ db_now (a_world σ') ∧ step_spec o σ σ'.
Proof.
  intros Hq H. destruct q as [pid seen b call| |d|m]; simpl in H.
  - unfold abs_receive in H. destruct (contact seen pid (a_world σ)) as [[e|charger] w] eqn:Ec; [injection H as <- <-; simpl; by auto|].
    pose proof (steady_clock _ _ _ _ (steady_contact seen pid) Ec) as Et.
    destruct (entitled b call charger) as [text|point]; [injection H as <- <-; simpl; rewrite Et; by auto|].
    destruct (a_memo σ !! _) as [[r t]|] eqn:Em.
    + case_bool_decide; [|injection H as <- <-; simpl; rewrite Et; by eauto].
      destruct (replay_boot _ _ _ _ w) as [[e|v] w'] eqn:Er; injection H as <- <-; [simpl; by auto|].
      simpl. rewrite (steady_clock _ _ _ _ (steady_replay_boot _ _ _ _) Er), Et. by auto.
    + destruct (perform _ _ _ w) as [[e|v] w'] eqn:Ep; injection H as <- <-; [simpl; by auto|].
      simpl. rewrite (steady_clock _ _ _ _ (steady_perform _ _ _) Ep), Et. by auto.
  - injection H as <- <-. simpl. split; [done|]. split; [apply map_filter_subseteq|]. intros key r t Hk.
    destruct (decide (db_now (a_world σ) - week_us ≤ t)); [|right; lia]. left. by apply map_lookup_filter_Some.
  - injection H as <- <-. simpl in *. split; [lia|]. by auto.
  - injection H as <- <-. simpl. destruct (Hq (a_world σ)) as [-> _]. by auto.
Qed.

(** Of every two performances of a message the second is over a week later, and
    an answer that is repeated was given by a performance. *)
Record exactly_once (log : list Outcome) : Prop := mkOnce {
  eo_spaced : ∀ i j key t t' v v', (i < j)%nat → log !! i = Some (Performed key t v) → log !! j = Some (Performed key t' v') →
    t + week_us < t';
  eo_repeated : ∀ j key v, log !! j = Some (Repeated key v) →
    ∃ i t a, (i < j)%nat ∧ log !! i = Some (Performed key t (v.1, a))
}.

Record remembers (log : list Outcome) (σ : Abs) : Prop := mkRemembers {
  rm_once : exactly_once log;
  rm_logged : ∀ key r t, a_memo σ !! key = Some (r, t) → ∃ i a, log !! i = Some (Performed key t (r, a));
  rm_known : ∀ i key t v, log !! i = Some (Performed key t v) →
    t < db_now (a_world σ) - week_us ∨ ∃ r t', a_memo σ !! key = Some (r, t') ∧ t ≤ t'
}.

Lemma lookup_snoc_inv {A} (l : list A) x i y : (l ++ [x]) !! i = Some y → l !! i = Some y ∨ i = length l ∧ y = x.
Proof.
  intros [H|[Hl H]]%lookup_app_Some; [by left|]. right. destruct (i - length l)%nat eqn:E; [|done].
  injection H as <-. split; [lia|done].
Qed.

(** A step that performs nothing. *)
Lemma remembers_quiet log σ o σ' :
  remembers log σ → (∀ key t v, o ≠ Performed key t v) → (∀ key v, o = Repeated key v → ∃ t, a_memo σ !! key = Some (v.1, t)) →
  db_now (a_world σ) ≤ db_now (a_world σ') → a_memo σ' ⊆ a_memo σ →
  (∀ key r t, a_memo σ !! key = Some (r, t) → a_memo σ' !! key = Some (r, t) ∨ t < db_now (a_world σ') - week_us) →
  remembers (log ++ [o]) σ'.
Proof.
  intros [[Hs Hr] Hl Hk] Hne Hrep Ht Hsub Hkeep. split; [split| |].
  - intros i j key t t' v v' Hij [Hi|[_ Hi]]%lookup_snoc_inv [Hj|[_ Hj]]%lookup_snoc_inv; [by eapply Hs|exfalso; by eapply Hne..].
  - intros j key v [Hj|[-> Hj]]%lookup_snoc_inv.
    + destruct (Hr _ _ _ Hj) as (i & t & a & Hi & Hp). exists i, t, a. split; [done|]. by apply lookup_app_l_Some.
    + destruct (Hrep _ _ (eq_sym Hj)) as [t Hm]. destruct (Hl _ _ _ Hm) as (i & a & Hi). exists i, t, a.
      split; [by eapply lookup_lt_Some|]. by apply lookup_app_l_Some.
  - intros key r t Hm. apply (lookup_weaken _ (a_memo σ)) in Hm; [|done]. destruct (Hl _ _ _ Hm) as (i & a & Hi). exists i, a. by apply lookup_app_l_Some.
  - intros i key t v [Hi|[_ Hi]]%lookup_snoc_inv; [|exfalso; by eapply Hne].
    destruct (Hk _ _ _ _ Hi) as [?|(r & t' & Hm & Hle)]; [left; lia|].
    destruct (Hkeep _ _ _ Hm); [right; eauto|left; lia].
Qed.

Lemma remembers_performed log σ key t v σ' :
  remembers log σ → db_now (a_world σ) ≤ db_now (a_world σ') → a_memo σ !! key = None → t = db_now (a_world σ') →
  a_memo σ' = <[key := (v.1, t)]> (a_memo σ) → remembers (log ++ [Performed key t v]) σ'.
Proof.
  intros [[Hs Hr] Hl Hk] Ht Hnone -> Hm'.
  assert (∀ i t1 v1, log !! i = Some (Performed key t1 v1) → t1 + week_us < db_now (a_world σ')) as Hold.
  { intros i t1 v1 Hi. destruct (Hk _ _ _ _ Hi) as [?|(? & ? & ? & _)]; [lia|congruence]. }
  split; [split| |].
  - intros i j key' t t' w w' Hij Hi Hj. apply lookup_snoc_inv in Hj as [Hj|[-> [= -> -> ->]]].
    + apply lookup_snoc_inv in Hi as [Hi|[-> _]]; [by eapply Hs|]. apply lookup_lt_Some in Hj. lia.
    + apply lookup_snoc_inv in Hi as [Hi|[-> _]]; [by eapply Hold|lia].
  - intros j key' w [Hj|[_ [=]]]%lookup_snoc_inv. destruct (Hr _ _ _ Hj) as (i & t & a & Hi & Hp). exists i, t, a.
    split; [done|]. by apply lookup_app_l_Some.
  - intros key' r t. rewrite Hm'. intros [[<- [= <- <-]]|[Hne Hm]]%lookup_insert_Some.
    + exists (length log), v.2. rewrite lookup_app_r, Nat.sub_diag by lia. by destruct v.
    + destruct (Hl _ _ _ Hm) as (i & a & Hi). exists i, a. by apply lookup_app_l_Some.
  - intros i key' t w Hi. rewrite Hm'. apply lookup_snoc_inv in Hi as [Hi|[_ [= -> -> ->]]].
    + destruct (decide (key' = key)) as [->|Hne]; [left; specialize (Hold _ _ _ Hi); lia|].
      rewrite lookup_insert_ne by done. destruct (Hk _ _ _ _ Hi); [left; lia|by right].
    + right. rewrite lookup_insert_eq. eauto.
Qed.

Lemma abs_run_once qs σ : Forall request_ok qs → a_memo σ = ∅ → remembers (abs_run qs σ).1 (abs_run qs σ).2.
Proof.
  intros Hqs Hm. unfold abs_run. induction qs as [|q qs IH] using rev_ind.
  { split; [split; intros; done|intros key r t; simpl; by rewrite Hm, lookup_empty|done]. }
  apply Forall_app in Hqs as [Hqs Hq]. inversion_clear Hq. rewrite foldl_app. simpl. specialize (IH Hqs).
  destruct (foldl _ _ qs) as [log σ1]. simpl in *. destruct (abs_step q σ1) as [o σ2] eqn:E.
  apply abs_step_spec in E as [Ht Hs]; [|done]. simpl. destruct o; simpl in Hs;
    [by destruct Hs as (? & ? & ?); eapply remembers_performed| |apply (remembers_quiet log σ1); naive_solver..].
  destruct Hs as [Hr He]. apply (remembers_quiet log σ1); rewrite ?He; try done; naive_solver.
Qed.

(** C9. The dispatcher refines exactly-once processing: on every sequence of
    calls from any chargers, prunings, clock ticks and other work, its answers are
    those of the abstract machine, which keeps no reply table and runs the work of
    a call only when it remembers no answer to it; the two stay in step. Starting
    without stored replies, the same message is performed again only more than a
    week later, and every repeated answer is the one an earlier performance gave. *)
Theorem dispatcher_exactly_once qs db :
  Forall request_ok qs → message_replies db = ∅ →
  let abs := abs_run qs (mkAbs db ∅) in
  observed <$> abs.1 = (code_run qs db).1 ∧ abstracts (code_run qs db).2 abs.2 ∧ exactly_once abs.1.
Proof.
  intros Hqs He. assert (abstracts db (mkAbs db ∅)) as Ha.
  { split; simpl; rewrite <- ?He; [by rewrite on_self|]. rewrite He. unfold memory. by rewrite fmap_empty. }
  destruct (run_simulated qs db _ Hqs Ha) as [H1 H2]. split; [done|]. split; [done|]. by apply abs_run_once.
Qed.
End machine.

(** ** A start that is sent again *)

Section demo.
#[local] Existing Instance demo_deployment.

Definition demo_schemas : Schemas :=
  mkSchemas (λ _, inl "missing") (λ _, true) (λ _, None) (λ _, None)
    (λ _, Some (mkStartPayload "driver-tag" 1 1000 (seconds 20) (Some 204))) (λ _, None) (λ _, None).
Definition demo_call : Call := mkCall "m-1" "StartTransaction" [("idTag", JStr "driver-tag"); ("connectorId", JInt 1)].
Definition demo_requests : list Request :=
  [Receive 40 true true demo_call; Tick (seconds 10); Prune; Receive 40 true true demo_call].

Lemma dispatcher_exactly_once_witness :
  ∃ r, (code_run id (λ _ _, "") demo_schemas demo_requests demo_active).1 = [Some (r, true); None; None; Some (r, true)] ∧
    is_result r = true ∧ exactly_once (abs_run id demo_schemas demo_requests (mkAbs demo_active ∅)).1.
Proof.
  assert (Forall request_ok demo_requests) as Hq by (unfold demo_requests; repeat apply Forall_cons_2; [exact I|vm_compute; discriminate|exact I|exact I|apply Forall_nil_2]).
  assert (message_replies demo_active = ∅) as He by (vm_compute; reflexivity).
  destruct (dispatcher_exactly_once id (λ _ _, "") demo_schemas demo_requests demo_active Hq He) as (_ & _ & H).
  eexists. split; [vm_compute; reflexivity|]. split; [reflexivity|exact H].
Defined.
End demo.
