(* ===== verification/PowerWorker.v ===== *)
(** * PowerWorker: applying the limits to the chargers

    Models [src/src/modules/power/worker.py] and the adapter of
    [ocpp/configuration_adapter.py]. A coroutine is a [Task]: transactions,
    exchanges with a charger and looks at the socket registry, in the order of
    the code; [apply_phase] runs tasks side by side. What a charger answers, and
    whether it is connected, is up to the environment. The hash behind [uuid5]
    and the parser of ISO dates are parameters. *)

From Stdlib Require Import Ascii.
From S2P Require Import Prelude Bands Clock Text Store AuditTrail Wallet Pricing Eligibility Allocation Closure Occupation Monitoring MeterUnits Metering PowerSchedule PowerControl Reservations ReservationWorker Sessions.

(** ** Coroutines *)

Record Device := mkDevice {
  dv_connector_id : Z; dv_charge_point_id : Z; dv_code : string; dv_number : Z; dv_boot_at : option Z; dv_rated_w : Z;
  dv_profile_id : Z; dv_reserved_w : Z; dv_confirmed_w : Z; dv_baseline_boot_at : option Z; dv_pending_command_id : option Z;
  dv_transaction_id : option Z; dv_needs_power : bool; dv_online : bool; dv_authorized : bool; dv_started_at : option Z;
  dv_min_w : Z
}.

Abbreviation Payload := (list (string * Json)).

(** What became of a call: no admitted socket, a reply, silence, a lost socket. *)
Inductive Net := Unreachable | Reached (kind : Z) (payload : Payload) (error_code : string) | Silence | Lost.

Inductive Task (A : Type) : Type :=
  | Done (r : Exn + A)
  | Atomic (B : Type) (m : Tx B) (k : Exn + B → Task A)
  | Exchange (d : Device) (action : string) (payload : Payload) (k : Net → Task A)
  | Sockets (k : gmap Z bool → Task A).
Arguments Done {A} _.
Arguments Atomic {A} _ _ _.
Arguments Exchange {A} _ _ _ _.
Arguments Sockets {A} _.

#[export] Instance Task_ret : MRet Task := λ A a, Done (inr a).

Fixpoint task_bind {A B} (t : Task A) (f : A → Task B) : Task B :=
  match t with
  | Done (inl e) => Done (inl e)
  | Done (inr a) => f a
  | Atomic C m k => Atomic C m (λ r, task_bind (k r) f)
  | Exchange d action payload k => Exchange d action payload (λ n, task_bind (k n) f)
  | Sockets k => Sockets (λ s, task_bind (k s) f)
  end.
#[export] Instance Task_bind : MBind Task := λ A B f t, task_bind t f.

(** [async with SessionFactory() as db, db.begin()] *)
Definition tx {A} (m : Tx A) : Task A := Atomic A m Done.

(** The worker's script: tasks in sequence, and groups of them side by side. *)
Inductive Plan : Type :=
  | Finish (r : Exn + ())
  | Run (B : Type) (t : Task B) (k : B → Plan)
  | Gather (ts : list (Task (option Device))) (k : list (Exn + option Device) → Plan).
Arguments Run {B} _ _.

Definition quit : Plan := Finish (inr ()).

(** ** The station as the worker sees it *)

(** Volts and amperes are in hundredths, as the columns store them. *)
Definition resolve_min_w (c : Connector) : Z :=
  match cn_voltage c, cn_amperage c with
  | Some v, Some a => v * Z.min 600 a / 10000
  | Some v, None => if 50000 <=? v then 6000 else if 38000 <=? v then 4150 else v * 600 / 10000
  | None, _ => 1380
  end.

(** Admitted on its socket and heard of within two heartbeats. *)
Definition device_live (sockets : gmap Z bool) (now : Z) (cn : Connector) (cp : ChargePoint) : bool :=
  default false (sockets !! cp_id cp) &&
  match cp_last_seen_at cp with
  | Some t => now - seconds (2 * cp_heartbeat_interval_seconds cp) <=? t
  | None => false
  end && bool_decide (cn_archived_at cn = None) && bool_decide (cp_archived_at cp = None).

(** The open session of a connector at the station; there is at most one. *)
Definition active_session (station_id connector_id : Z) (db : Db) : option ChargingSession :=
  select_where (λ c, charging_at station_id db c && (cs_connector_id c =? connector_id)) (charging_sessions db).

Definition device_of (station_id : Z) (sockets : gmap Z bool) (now : Z) (db : Db) (cap : ConnectorPower) : option Device :=
  cn ← connectors db !! kp_connector_id cap;
  cp ← charge_points db !! cn_charge_point_id cn;
  let sess := active_session station_id (cn_id cn) db in
  let accepted := match sess with Some s => bool_decide (cs_authorization_status s = "Accepted") | None => false end in
  Some (mkDevice (kp_connector_id cap) (cp_id cp) (cp_code cp) (cn_connector_number cn) (cp_last_boot_at cp) (kp_rated_w cap)
    (kp_profile_id cap) (kp_reserved_w cap) (kp_confirmed_w cap) (kp_baseline_boot_at cap) (kp_pending_command_id cap)
    (cs_id <$> sess) (bool_decide (cn_raw_ocpp_status cn ∈ [Some "Charging"; Some "SuspendedEVSE"]) && accepted)
    (device_live sockets now cn cp) (match sess with None => true | Some _ => accepted end) (cs_started_at <$> sess)
    (resolve_min_w cn)).

Definition device_rows (station_id : Z) (sockets : gmap Z bool) (db : Db) : list Device :=
  omap (device_of station_id sockets (db_now db) db) (sort_by kp_connector_id (power_rows station_id db)).

Definition devices (station_id : Z) : Task (list Device) :=
  Sockets (λ sockets, tx (gets (device_rows station_id sockets))).

(** ** The wire *)

Record ConfigurationKey := mkKey { ck_key : string; ck_readonly : bool; ck_value : option string }.

(** Validation of [ConfigurationKey]: no other field, [key] a string, [readonly] a boolean. *)
Definition configuration_key (v : Json) : option ConfigurationKey :=
  match v with
  | JObj fields =>
      if forallb (λ p, bool_decide (p.1 ∈ ["key"; "readonly"; "value"])) fields then
        match field "key" fields, field "readonly" fields, default JNull (field "value" fields) with
        | Some (JStr k), Some (JBool b), JNull => Some (mkKey k b None)
        | Some (JStr k), Some (JBool b), JStr v => Some (mkKey k b (Some v))
        | _, _, _ => None
        end
      else None
  | _ => None
  end.

Definition json_opt (o : option string) : Json := match o with Some s => JStr s | None => JNull end.

Definition dump_key (k : ConfigurationKey) : Json :=
  JObj [("key", JStr (ck_key k)); ("readonly", JBool (ck_readonly k)); ("value", json_opt (ck_value k))].

Definition json_string (v : Json) : option string := match v with JStr s => Some s | _ => None end.

(** [ConfigurationReply.model_validate]: the entries and the unknown keys. *)
Definition configuration_reply (payload : Payload) : option (list ConfigurationKey * list string) :=
  if forallb (λ p, bool_decide (p.1 ∈ ["configurationKey"; "unknownKey"])) payload then
    match default (JList []) (field "configurationKey" payload), default (JList []) (field "unknownKey" payload) with
    | JList ks, JList us => ks' ← mapM configuration_key ks; us' ← mapM json_string us; Some (ks', us')
    | _, _ => None
    end
  else None.

Definition dump_reply (r : list ConfigurationKey * list string) : Payload :=
  [("configurationKey", JList (dump_key <$> r.1)); ("unknownKey", JList (JStr <$> r.2))].

Definition configuration_call (action : string) (n : Net) : string * Payload :=
  match n with
  | Unreachable => ("Offline", [])
  | Silence => ("Timeout", [])
  | Lost => ("Disconnected", [])
  | Reached kind payload error_code =>
      if negb (kind =? 3) then (if bool_decide (error_code = "NotSupported") then "NotSupported" else "ProtocolError", [])
      else if bool_decide (action = "GetConfiguration") then
        match configuration_reply payload with
        | Some (ks, us) =>
            if negb (bool_decide (NoDup (ck_key <$> ks))) || existsb (λ k, bool_decide (k ∈ us)) (ck_key <$> ks)
            then ("ProtocolError", []) else ("Accepted", dump_reply (ks, us))
        | None => ("ProtocolError", [])
        end
      else
        match field "status" payload with
        | Some (JStr s) =>
            if bool_decide (s ∈ ["Accepted"; "Rejected"; "NotSupported"; "RebootRequired"]) then (s, []) else ("ProtocolError", [])
        | _ => ("ProtocolError", [])
        end
  end.

Definition wire (action : string) (n : Net) : string * Payload :=
  if bool_decide (action = "GetConfiguration") then configuration_call action n
  else
    match n with
    | Unreachable => ("Offline", [])
    | Silence => ("Timeout", [])
    | Lost => ("Disconnected", [])
    | Reached kind payload _ =>
        if negb (kind =? 3) then ("ProtocolError", [])
        else
          match field "status" payload with
          | Some (JStr s) =>
              if bool_decide (s ∈ ["Accepted"; "Rejected"; "Unknown"]) then (s, payload) else ("ProtocolError", [])
          | _ => ("ProtocolError", [])
          end
    end.

Definition update_intent (id : Z) (f : PowerCommand → PowerCommand) : Tx () :=
  modify (λ db, set_power_commands (alter f id (power_commands db)) db).

Definition insert_intent (id station_id connector_id generation : Z) (action : string) (payload : Payload) : Tx () :=
  modify (λ db, set_power_commands (<[id := mkPowerCommand id station_id connector_id generation action payload "Pending"
    (db_now db) None]> (power_commands db)) db).

(** The durable intent of a command: written before anything is sent. *)
Definition begin_command (d : Device) (station_id generation : Z) (action : string) (payload : Payload)
    (request_id : option Z) : Tx Z :=
  id ← match request_id with Some id => mret id | None => fresh_id end;
  existing ← gets (λ db, power_commands db !! id);
  match existing with
  | None => insert_intent id station_id (dv_connector_id d) generation action payload
  | Some c => raise_if (negb (bool_decide (pc_action c = action)) || negb (json_eqb (JObj (pc_payload c)) (JObj payload))) ValueError
  end;;
  mret id.

Definition end_command (id : Z) (outcome : string) : Tx () :=
  intent ← gets (λ db, power_commands db !! id);
  raise_if (bool_decide (intent = None)) AssertionError;;
  now ← gets db_now;
  update_intent id (λ c, set_pc_completed_at (Some now) (set_pc_status outcome c)).

Definition command (d : Device) (station_id generation : Z) (action : string) (payload : Payload) (request_id : option Z) :
    Task (string * Payload) :=
  id ← tx (begin_command d station_id generation action payload request_id);
  Exchange d action payload (λ n,
    let reply := wire action n in
    tx (end_command id reply.1);; mret reply).

(** ** Capabilities *)

(** [str.split(",")] *)
Definition parts (s : string) : list string := of_chars <$> split_comma (chars s).

Definition digit (c : ascii) : option Z :=
  if (48 <=? code c) && (code c <=? 57) then Some (code c - 48) else None.

(** The digits of [int(text)]: single underscores may separate them. *)
Fixpoint digits (acc : Z) (l : list ascii) : option Z :=
  match l with
  | [] => Some acc
  | c :: rest =>
      match digit c, rest with
      | Some d, _ => digits (10 * acc + d) rest
      | None, e :: _ => if (code c =? 95) && bool_decide (is_Some (digit e)) then digits acc rest else None
      | None, [] => None
      end
  end.

Definition natural (l : list ascii) : option Z :=
  match l with
  | c :: _ => if bool_decide (is_Some (digit c)) then digits 0 l else None
  | [] => None
  end.

Definition py_int (s : string) : option Z :=
  match chars (strip s) with
  | c :: rest =>
      if code c =? 45 then Z.opp <$> natural rest else if code c =? 43 then natural rest else natural (c :: rest)
  | [] => None
  end.

(** The keys and values of the reply, all of them strings and the keys distinct. *)
Fixpoint config_of (acc : gmap string string) (values : list Json) : option (gmap string string) :=
  match values with
  | [] => Some acc
  | JObj fields :: rest =>
      match field "key" fields, field "value" fields with
      | Some (JStr k), Some (JStr v) => if bool_decide (is_Some (acc !! k)) then None else config_of (<[k := v]> acc) rest
      | _, _ => None
      end
  | _ :: _ => None
  end.

Definition supports_power (config : gmap string string) : bool :=
  bool_decide ("SmartCharging" ∈ parts (default "" (config !! "SupportedFeatureProfiles"))) &&
  (let units := parts (default "" (config !! "ChargingScheduleAllowedChargingRateUnit")) in
   bool_decide ("Power" ∈ units) || bool_decide ("W" ∈ units)) &&
  match py_int (default "-1" (config !! "ChargeProfileMaxStackLevel")) with Some n => 1 <=? n | None => false end.

Definition capability_request : Payload :=
  [("key", JList [JStr "SupportedFeatureProfiles"; JStr "ChargingScheduleAllowedChargingRateUnit"; JStr "ChargeProfileMaxStackLevel"])].

Definition capabilities (d : Device) (station_id generation : Z) : Task bool :=
  r ← command d station_id generation "GetConfiguration" capability_request None;
  mret match bool_decide (r.1 = "Accepted"), field "configurationKey" r.2 with
       | true, Some (JList values) => match config_of ∅ values with Some config => supports_power config | None => false end
       | _, _ => false
       end.

(** ** One limit on one connector *)

Definition profile (d : Device) (watts : Z) (baseline : bool) : Payload :=
  let default_ := baseline || bool_decide (dv_transaction_id d = None) in
  let charging :=
    [("chargingProfileId", JInt (dv_profile_id d * 2 + (if baseline then 0 else 1)));
     ("stackLevel", JInt (if default_ then 0 else 1));
     ("chargingProfilePurpose", JStr (if default_ then "TxDefaultProfile" else "TxProfile"));
     ("chargingProfileKind", JStr "Absolute");
     ("chargingSchedule", JObj [("chargingRateUnit", JStr "W");
        ("chargingSchedulePeriod", JList [JObj [("startPeriod", JInt 0); ("limit", JInt watts)]])])] in
  [("connectorId", JInt (dv_number d));
   ("csChargingProfiles", JObj (match dv_transaction_id d with
      | Some t => if baseline then charging else charging ++ [("transactionId", JInt t)]
      | None => charging
      end))].

(** [0 <= limit <= watts] *)
Definition within (watts : Z) (limit : Json) : bool :=
  match limit with
  | JInt n => (0 <=? n) && (n <=? watts)
  | JFloat m e => (0 <=? m) && (if 0 <=? e then m * 2 ^ e <=? watts else m <=? watts * 2 ^ (- e))
  | _ => false
  end.

(** No period of the readback allows more than [watts]. *)
Fixpoint periods_ok (watts duration previous : Z) (l : list Json) : bool :=
  match l with
  | [] => true
  | JObj fields :: rest =>
      match field "startPeriod" fields with
      | Some (JInt start) =>
          (previous <? start) && (start <? duration) && within watts (default JNull (field "limit" fields)) &&
          periods_ok watts duration start rest
      | _ => false
      end
  | _ :: _ => false
  end.

Definition starts_now (l : list Json) : bool :=
  match l with
  | JObj fields :: _ => match field "startPeriod" fields with Some (JInt s) => s =? 0 | _ => false end
  | _ => false
  end.

(** The charger's own account of the connector: at most [watts]. *)
Definition readback (number watts : Z) (payload : Payload) : bool :=
  match field "connectorId" payload, field "chargingSchedule" payload with
  | Some (JInt n), Some (JObj schedule) =>
      (n =? number) &&
      match field "chargingRateUnit" schedule, field "duration" schedule, field "chargingSchedulePeriod" schedule with
      | Some (JStr u), Some (JInt duration), Some (JList l) =>
          bool_decide (u = "W") && (60 <=? duration) && periods_ok watts duration (-1) l && starts_now l
      | _, _, _ => false
      end
  | _, _ => false
  end.

Section worker.
Context {dep : Deployment} (fromisoformat : string → option (Z * bool)) (uuid5 : string → Z).

(** [scheduleStart] is aware, not in the future and not older than the call. *)
Definition schedule_fresh (now : Z) (payload : Payload) : bool :=
  match field "scheduleStart" payload with
  | Some (JStr s) =>
      match fromisoformat s with
      | Some (t, true) => (t <=? now) && (now - t <=? seconds (power_command_timeout_seconds + 1))
      | _ => false
      end
  | _ => false
  end.

Definition verify_request (d : Device) : Payload :=
  [("connectorId", JInt (dv_number d)); ("duration", JInt 60); ("chargingRateUnit", JStr "W")].

Definition verify_limit (d : Device) (station_id generation watts : Z) : Task bool :=
  r ← command d station_id generation "GetCompositeSchedule" (verify_request d) None;
  now ← tx (gets db_now);
  mret (bool_decide (r.1 = "Accepted") && schedule_fresh now r.2 && readback (dv_number d) watts r.2).

(** The watts are taken before anything is sent: [None] when they are not there. *)
Definition reserve_limit (d : Device) (station_id generation watts : Z) (payload : Payload) : Tx (option Z) :=
  config ← gets (λ db, station_power db !! station_id);
  cap ← gets (λ db, connector_power db !! dv_connector_id d);
  config ← some_or config AssertionError;
  cap ← some_or cap AssertionError;
  total ← gets (total_reserved station_id);
  if (kp_reserved_w cap <? watts) &&
     (negb (pw_generation config =? generation) || (pw_limit_w config <? total - kp_reserved_w cap + watts))
  then mret None
  else
    prior ← gets (λ db, p ← kp_pending_command_id cap; power_commands db !! p);
    id ← match prior with
         | Some p => if json_eqb (JObj (pc_payload p)) (JObj payload) then mret (pc_id p) else fresh_id
         | None => fresh_id
         end;
    known ← gets (λ db, power_commands db !! id);
    when (bool_decide (known = None))
      (insert_intent id station_id (dv_connector_id d) generation "SetChargingProfile" payload);;
    update_connector_power (dv_connector_id d) (λ cap, set_kp_desired_w watts (set_kp_pending_command_id (Some id)
      (set_kp_reserved_w (Z.max (kp_reserved_w cap) watts) cap)));;
    mret (Some id).

(** The readback was good: the watts above it are free again, unless another
    car is plugged in by now. *)
Definition confirm_limit (d : Device) (watts : Z) (baseline : bool) : Tx bool :=
  current ← gets (λ db, cs_id <$> select_where (open_on (dv_connector_id d)) (charging_sessions db));
  if negb baseline && negb (bool_decide (current = dv_transaction_id d)) then mret false
  else
    cap ← gets (λ db, connector_power db !! dv_connector_id d);
    raise_if (bool_decide (cap = None)) AssertionError;;
    raise_if (watts <? 0) (IntegrityError "ck_connector_power");;
    update_connector_power (dv_connector_id d) (λ cap,
      let cap := set_kp_pending_command_id None (set_kp_reserved_w watts (set_kp_confirmed_w watts cap)) in
      if baseline then set_kp_baseline_boot_at (dv_boot_at d) cap else cap);;
    mret true.

Definition set_limit (d : Device) (station_id generation watts : Z) (baseline : bool) : Task bool :=
  let payload := profile d watts baseline in
  request ← tx (reserve_limit d station_id generation watts payload);
  match request with
  | None => mret false
  | Some id =>
      r ← command d station_id generation "SetChargingProfile" payload (Some id);
      if negb (bool_decide (r.1 = "Accepted")) then mret false
      else
        ok ← verify_limit d station_id generation watts;
        if negb ok then mret false else tx (confirm_limit d watts baseline)
  end.

(** ** Failure *)

(** The charger that failed is told to stop; its watts stay reserved. *)
Definition stop_request (tid : Z) : Payload := [("transactionId", JInt tid)].

Definition mark_degraded (station_id : Z) (issue : string) : Tx () :=
  config ← gets (λ db, station_power db !! station_id);
  raise_if (bool_decide (config = None)) AssertionError;;
  update_power station_id (λ c, set_pw_issue (Some issue) (set_pw_state pw_degraded c)).

Definition degrade (station_id generation : Z) (issue : string) (failed : option Device) : Task () :=
  tx (mark_degraded station_id issue);;
  match failed with
  | Some d =>
      match dv_transaction_id d with
      | Some tid =>
          command d station_id generation "RemoteStopTransaction" (stop_request tid)
            (Some (uuid5 ("csms:power:stop:" +:+ uuid_str station_id +:+ ":" +:+ str_int tid)));;
          mret ()
      | None => mret ()
      end
  | None => mret ()
  end.

(** ** A phase of limits, charger by charger *)

(** [groups.setdefault(charge_point_id, []).append(device)] *)
Fixpoint add_group (d : Device) (groups : list (Z * list Device)) : list (Z * list Device) :=
  match groups with
  | [] => [(dv_charge_point_id d, [d])]
  | (k, l) :: rest => if k =? dv_charge_point_id d then (k, l ++ [d]) :: rest else (k, l) :: add_group d rest
  end.
Definition grouped (changes : list Device) : list (list Device) := (foldl (λ g d, add_group d g) [] changes).*2.

Fixpoint apply_charger (station_id generation : Z) (targets : gmap Z Z) (group : list Device) : Task (option Device) :=
  match group with
  | [] => mret None
  | d :: rest =>
      match targets !! dv_connector_id d with
      | None => Done (inl KeyError)
      | Some watts =>
          ok ← set_limit d station_id generation watts false;
          if (ok : bool) then apply_charger station_id generation targets rest else mret (Some d)
      end
  end.

Fixpoint degrade_all (station_id generation : Z) (issue : string) (l : list Device) : Task () :=
  match l with [] => mret () | d :: rest => degrade station_id generation issue (Some d);; degrade_all station_id generation issue rest end.

(** The first exception, and the devices that failed. *)
Fixpoint first_exn (l : list (Exn + option Device)) : option Exn :=
  match l with [] => None | inl e :: _ => Some e | inr _ :: rest => first_exn rest end.
Definition failures (l : list (Exn + option Device)) : list Device :=
  omap (λ r, match r with inr o => o | inl _ => None end) l.

(** At most five groups run at a time; here all of them may. *)
Definition apply_phase (changes : list Device) (targets : gmap Z Z) (station_id generation : Z) (k : bool → Plan) : Plan :=
  Gather (apply_charger station_id generation targets <$> grouped changes) (λ results,
    match first_exn results with
    | Some e => Finish (inl e)
    | None =>
        let failed := failures results in
        Run (degrade_all station_id generation "power_profile_not_verified" failed) (λ _, k (bool_decide (failed = [])))
    end).

(** ** The worker *)

Definition planned (now limit : Z) (changed : bool) (c : StationPower) : StationPower :=
  set_pw_last_plan_at (Some now)
    (if changed then set_pw_dirty_at None (set_pw_generation (pw_generation c + 1) (set_pw_limit_w limit c)) else c).

(** What to plan for: the generation, the limit and whether control is being
    switched off; [None] when there is nothing to do yet. *)
Definition begin_plan (station_id : Z) : Tx (option (Z * Z * Z * bool)) :=
  now ← gets db_now;
  config ← gets (λ db, station_power db !! station_id);
  match config with
  | None => mret None
  | Some c =>
      if negb (pw_enabled c) then mret None
      else
        scheduled ← gets (get_current_power_limit_w station_id (Some now));
        let target := default (pw_limit_w c) scheduled in
        let changed := negb (pw_limit_w c =? target) ||
          (bool_decide (is_Some scheduled) && negb (pw_applied_limit_w c =? target) && bool_decide (pw_state c = pw_ready)) in
        if negb changed &&
           (match pw_last_plan_at c with Some t => now - t <? seconds 5 | None => false end ||
            match pw_dirty_at c with Some t => now - t <? seconds 2 | None => false end)
        then mret None
        else
          raise_if (changed && (target <=? 0)) (IntegrityError "ck_power_limits");;
          update_power station_id (planned now target changed);;
          mret (Some (now, if changed then pw_generation c + 1 else pw_generation c, target, negb (pw_target_enabled c)))
  end.

Definition current_generation (station_id : Z) : Tx Z :=
  config ← gets (λ db, station_power db !! station_id);
  c ← some_or config AssertionError;
  mret (pw_generation c).

Definition mark_disabled (station_id generation : Z) : Tx () :=
  config ← gets (λ db, station_power db !! station_id);
  c ← some_or config AssertionError;
  when ((pw_generation c =? generation) && negb (pw_target_enabled c))
    (update_power station_id (λ c, set_pw_issue None (set_pw_state pw_disabled (set_pw_enabled false c)))).

Definition mark_applying (station_id : Z) : Tx () :=
  config ← gets (λ db, station_power db !! station_id);
  raise_if (bool_decide (config = None)) AssertionError;;
  update_power station_id (set_pw_state pw_applying).

Definition mark_applied (station_id generation limit : Z) (offline : bool) : Tx () :=
  config ← gets (λ db, station_power db !! station_id);
  c ← some_or config AssertionError;
  when (pw_generation c =? generation)
    (update_power station_id (λ c,
      set_pw_state (if offline then pw_degraded else pw_ready)
        (set_pw_issue (if offline then Some "offline_budget_retained" else None)
          (set_pw_dirty_at None (set_pw_applied_limit_w limit c))))).

Definition give_up_plan (station_id generation : Z) (issue : string) (failed : option Device) : Plan :=
  Run (degrade station_id generation issue failed) (λ _, quit).

(** Zero limits on every idle connector, then the profiles are cleared. *)
Fixpoint zero_all (station_id generation : Z) (l : list Device) (k : Plan) : Plan :=
  match l with
  | [] => k
  | d :: rest =>
      if bool_decide (is_Some (dv_transaction_id d)) || negb (dv_online d)
      then give_up_plan station_id generation "power_disable_waiting_for_device" None
      else Run (set_limit d station_id generation 0 true) (λ ok : bool,
        if ok then zero_all station_id generation rest k
        else give_up_plan station_id generation "power_disable_failed" (Some d))
  end.

Definition clear_profile (d : Device) (station_id generation : Z) (baseline : bool) : Task bool :=
  r ← command d station_id generation "ClearChargingProfile"
        [("id", JInt (dv_profile_id d * 2 + (if baseline then 0 else 1)))] None;
  mret (bool_decide (r.1 ∈ ["Accepted"; "Unknown"])).

Fixpoint clear_all (station_id generation : Z) (l : list (Device * bool)) (k : Plan) : Plan :=
  match l with
  | [] => k
  | (d, baseline) :: rest =>
      Run (clear_profile d station_id generation baseline) (λ ok : bool,
        if ok then clear_all station_id generation rest k
        else give_up_plan station_id generation "power_disable_failed" (Some d))
  end.

Definition disable_plan (station_id generation : Z) (inputs : list Device) : Plan :=
  zero_all station_id generation inputs
    (Run (tx (current_generation station_id)) (λ g,
      if negb (g =? generation) then quit
      else clear_all station_id generation (inputs ≫= λ d, [(d, false); (d, true)])
             (Run (tx (mark_disabled station_id generation)) (λ _, quit)))).

(** A charger that booted since gets a zero profile before anything else. *)
Fixpoint baseline_all (station_id generation : Z) (l : list Device) (k : Plan) : Plan :=
  match l with
  | [] => k
  | d :: rest =>
      if bool_decide (dv_baseline_boot_at d = dv_boot_at d) && bool_decide (is_Some (dv_baseline_boot_at d))
      then baseline_all station_id generation rest k
      else
        let unverified := give_up_plan station_id generation "power_capability_unverified" (Some d) in
        if negb (dv_online d) then unverified
        else Run (capabilities d station_id generation) (λ able : bool,
          if negb able then unverified
          else Run (set_limit d station_id generation 0 true) (λ ok : bool,
            if ok then baseline_all station_id generation rest k
            else give_up_plan station_id generation "power_baseline_failed" (Some d)))
  end.

Definition demand_of (now : Z) (d : Device) : option SessionDemand :=
  if dv_online d && dv_needs_power d then
    tid ← dv_transaction_id d;
    Some (mkDemand tid (default now (dv_started_at d)) (dv_confirmed_w d) (dv_rated_w d) (dv_min_w d))
  else None.

(** [device_by_tx.get(tid)]: the last device of the transaction. *)
Definition device_by_tx (inputs : list Device) (tid : Z) : option Device :=
  last (filter (λ d, dv_online d = true ∧ dv_needs_power d = true ∧ dv_transaction_id d = Some tid) inputs).

Definition note_preempted (station_id limit tid connector_id : Z) (reason : string) : Tx () :=
  update_session tid (set_cs_stop_reason (Some "power_schedule_preempted"));;
  ghi_nhat_ky None "power.session_preempted" "charging_session" (str_int tid)
    [("reason", JStr (if decide (reason = "") then "Dừng phiên do hạ hạn mức công suất giờ cao điểm (LIFO)" else reason));
     ("station_id", JStr (uuid_str station_id)); ("limit_w", JInt limit); ("connector_id", JStr (uuid_str connector_id))]
    None None;;
  mret ().

Fixpoint preempt_all (station_id generation limit : Z) (reason : string) (inputs : list Device) (l : list Z) : Task () :=
  match l with
  | [] => mret ()
  | tid :: rest =>
      match device_by_tx inputs tid with
      | Some d =>
          command d station_id generation "RemoteStopTransaction" (stop_request tid)
            (Some (uuid5 ("csms:power:preempt:" +:+ uuid_str station_id +:+ ":" +:+ str_int tid)));;
          tx (note_preempted station_id limit tid (dv_connector_id d) reason)
      | None => mret ()
      end;;
      preempt_all station_id generation limit reason inputs rest
  end.

(** The watts an online device is to have. *)
Definition target_w (r : AllocationResult) (d : Device) : Z :=
  match dv_transaction_id d with
  | Some tid => if bool_decide (tid ∈ to_preempt r) || negb (dv_needs_power d) then 0 else default 0 (target_of r tid)
  | None => 0
  end.

Definition targets_of (r : AllocationResult) (inputs : list Device) : gmap Z Z :=
  foldl (λ m d, if dv_online d then <[dv_connector_id d := target_w r d]> m else m) ∅ inputs.

Definition to_change (targets : gmap Z Z) (d : Device) : bool :=
  dv_online d && (negb (bool_decide (targets !! dv_connector_id d = Some (dv_confirmed_w d))) ||
                  bool_decide (is_Some (dv_pending_command_id d))).

Definition conclude_plan (station_id generation limit : Z) (inputs : list Device) : Plan :=
  Run (tx (mark_applied station_id generation limit (existsb (λ d, negb (dv_online d)) inputs))) (λ _, quit).

(** Reductions and uncertain limits before any increase. *)
Definition apply_targets (station_id generation limit : Z) (inputs : list Device) (targets : gmap Z Z) : Plan :=
  let changes := filter (λ d, to_change targets d = true) inputs in
  let lower d := default 0 (targets !! dv_connector_id d) <=? dv_reserved_w d in
  if bool_decide (changes = []) then conclude_plan station_id generation limit inputs
  else
    Run (tx (mark_applying station_id)) (λ _,
      apply_phase (filter (λ d, lower d = true) changes) targets station_id generation (λ ok,
        if negb ok then quit
        else
          Run (tx (current_generation station_id)) (λ g,
            if negb (g =? generation) then quit
            else
              apply_phase (filter (λ d, lower d = false) changes) targets station_id generation (λ ok,
                if negb ok then quit else conclude_plan station_id generation limit inputs)))).

Definition allocate_plan (station_id generation limit now : Z) (inputs : list Device) : Plan :=
  let pinned := sumZ (dv_reserved_w <$> filter (λ d, dv_online d = false) inputs) in
  if limit <? pinned then give_up_plan station_id generation "offline_budget_exceeds_requested_limit" None
  else
    let r := phan_bo_cong_suat (limit - pinned) (omap (demand_of now) inputs) in
    Run (preempt_all station_id generation limit (preemption_reason r) inputs (to_preempt r)) (λ _,
      if is_degraded r then give_up_plan station_id generation "insufficient_power_limit" None
      else apply_targets station_id generation limit inputs (targets_of r inputs)).

Definition _reconcile (station_id : Z) : Plan :=
  Run (tx (begin_plan station_id)) (λ plan,
    match plan with
    | None => quit
    | Some (now, generation, limit, disabling) =>
        let incomplete := give_up_plan station_id generation "power_configuration_incomplete" None in
        Run (devices station_id) (λ inputs,
          if bool_decide (inputs = []) then incomplete
          else
            Run (tx (gets (λ db, length (registered_connectors station_id db)))) (λ count,
              if negb (bool_decide (count = length inputs)) then incomplete
              else
                let unauthorized := filter (λ d, is_Some (dv_transaction_id d) ∧ dv_authorized d = false) inputs in
                if negb (bool_decide (unauthorized = [])) then
                  Run (degrade_all station_id generation "power_unauthorized_session" unauthorized) (λ _, quit)
                else if disabling : bool then disable_plan station_id generation inputs
                else
                  baseline_all station_id generation inputs
                    (Run (devices station_id) (allocate_plan station_id generation limit now))))
    end).
End worker.
