(* ===== verification/PowerWorkerSpec.v ===== *)
(** * PowerWorkerSpec: no watt is lent twice

    The workers of all stations run side by side, are interleaved with the rest
    of the server at every transaction and every exchange, and may die anywhere.
    Whatever a charger may be enforcing is reserved for it, and reservations are
    raised only within the station's limit. The proof is a small rely-guarantee
    logic over the worker's tasks: a task owns connectors, may rely on nobody else
    touching their reservations, and guarantees to touch no others. *)

From S2P Require Import Prelude Bands Clock Text Store AuditTrail Wallet Pricing Eligibility Allocation Closure Occupation Monitoring MeterUnits Metering PowerSchedule PowerControl Reservations ReservationWorker Sessions PowerWorker.

(** ** Totals *)

Definition contribution (s : Z) (o : option ConnectorPower) : Z :=
  match o with Some cap => if decide (kp_station_id cap = s) then kp_reserved_w cap else 0 | None => 0 end.

Lemma total_contributions s (m : gmap Z ConnectorPower) l :
  NoDup l → (∀ c, is_Some (m !! c) → c ∈ l) →
  sumZ (kp_reserved_w <$> filter (λ c, kp_station_id c = s) (rows m)) = sumZ ((λ c, contribution s (m !! c)) <$> l).
Proof.
  revert l. induction m as [|i x m Hi IH] using map_ind; intros l Hnd Hl.
  { unfold rows. rewrite map_to_list_empty. simpl. rewrite sumZ_fmap_zero; [done|]. intros c _. by rewrite lookup_empty. }
  assert (i ∈ l) as [l1 [l2 ->]]%list_elem_of_split by (apply Hl; rewrite lookup_insert_eq; eauto).
  apply NoDup_app in Hnd as (Hn1 & Hd1 & Hn2). apply NoDup_cons in Hn2 as [Hi2 Hn2].
  assert (i ∉ l1) as Hi1 by (intros H; apply (Hd1 _ H); set_solver).
  assert (∀ c, c ∈ l1 ++ l2 → (<[i:=x]> m) !! c = m !! c) as Hsame.
  { intros c Hc. apply lookup_insert_ne. intros ->. set_solver. }
  assert (sumZ (kp_reserved_w <$> filter (λ c, kp_station_id c = s) (rows (<[i:=x]> m))) =
    contribution s (Some x) + sumZ (kp_reserved_w <$> filter (λ c, kp_station_id c = s) (rows m))) as ->.
  { unfold rows. rewrite map_to_list_insert by done. rewrite fmap_cons, filter_cons. simpl. case_decide; [|lia]. by rewrite fmap_cons, sumZ_cons. }
  rewrite (IH (l1 ++ l2)).
  - rewrite !fmap_app, !fmap_cons, !sumZ_app, !sumZ_cons, lookup_insert_eq.
    rewrite (sumZ_fmap_ext (λ c, contribution s (<[i:=x]> m !! c)) (λ c, contribution s (m !! c)) l1)
      by (intros c Hc; rewrite Hsame by set_solver; done).
    rewrite (sumZ_fmap_ext (λ c, contribution s (<[i:=x]> m !! c)) (λ c, contribution s (m !! c)) l2)
      by (intros c Hc; rewrite Hsame by set_solver; done). lia.
  - apply NoDup_app. set_solver.
  - intros c Hc. destruct (decide (c = i)) as [->|Hne]; [rewrite Hi in Hc; by destruct Hc|].
    assert (c ∈ l1 ++ i :: l2) by (apply Hl; by rewrite lookup_insert_ne). set_solver.
Qed.

(** Totals compare row by row. *)
Lemma reserved_total_le s db db' :
  (∀ c, contribution s (connector_power db' !! c) ≤ contribution s (connector_power db !! c)) →
  total_reserved s db' ≤ total_reserved s db.
Proof.
  intros H. unfold total_reserved, power_rows.
  set (l := elements (dom (connector_power db) ∪ dom (connector_power db'))).
  rewrite !(total_contributions s _ l); [by apply sumZ_fmap_le; intros; apply H|..];
    try apply NoDup_elements; intros c Hc; apply elem_of_elements, elem_of_union; rewrite !elem_of_dom; auto.
Qed.

(** Totals when one row changes. *)
Lemma total_alter s db db' c f cap :
  connector_power db !! c = Some cap → connector_power db' = alter f c (connector_power db) →
  kp_station_id cap = s → kp_station_id (f cap) = s →
  total_reserved s db' = total_reserved s db - kp_reserved_w cap + kp_reserved_w (f cap).
Proof.
  intros Hc Hdb' Hs Hf. unfold total_reserved, power_rows. rewrite Hdb'.
  set (l := elements (dom (connector_power db))).
  assert (c ∈ l) as Hl by (apply elem_of_elements, elem_of_dom; eauto).
  rewrite !(total_contributions s _ l).
  2,4: apply NoDup_elements.
  2: intros k Hk; by apply elem_of_elements, elem_of_dom.
  2: { intros k Hk. apply elem_of_elements, elem_of_dom. destruct (decide (k = c)) as [->|Hne]; [eauto|].
       by rewrite lookup_alter_ne in Hk by done. }
  pose proof (NoDup_elements (dom (connector_power db))) as Hnd. fold l in Hnd. clearbody l.
  apply list_elem_of_split in Hl as (l1 & l2 & ->). apply NoDup_app in Hnd as (_ & Hd1 & [Hc2 _]%NoDup_cons).
  assert (∀ k, k ∈ l1 ∨ k ∈ l2 → alter f c (connector_power db) !! k = connector_power db !! k) as Hsame.
  { intros k Hk. apply lookup_alter_ne. intros ->. destruct Hk as [Hk|Hk]; [apply (Hd1 _ Hk); set_solver|done]. }
  rewrite !fmap_app, !fmap_cons, !sumZ_app, !sumZ_cons, lookup_alter_eq, Hc. simpl. rewrite !decide_True by done.
  rewrite (sumZ_fmap_ext (λ k, contribution s (alter f c (connector_power db) !! k)) (λ k, contribution s (connector_power db !! k)) l1)
    by (intros k Hk; rewrite Hsame by auto; done).
  rewrite (sumZ_fmap_ext (λ k, contribution s (alter f c (connector_power db) !! k)) (λ k, contribution s (connector_power db !! k)) l2)
    by (intros k Hk; rewrite Hsame by auto; done). lia.
Qed.

(** ** What a charger may be enforcing *)

(** An exchange on the wire. *)
Record Item := mkItem { it_device : Device; it_action : string; it_payload : Payload; it_net : Net }.

(** The limit a profile sets. *)
Definition limit_of (payload : Payload) : option Z :=
  match field "csChargingProfiles" payload with
  | Some (JObj p) =>
      match field "chargingSchedule" p with
      | Some (JObj s) =>
          match field "chargingSchedulePeriod" s with
          | Some (JList [JObj q]) => match field "limit" q with Some (JInt w) => Some w | _ => None end
          | _ => None
          end
      | _ => None
      end
  | _ => None
  end.

Lemma limit_of_profile d w b : limit_of (profile d w b) = Some w.
Proof. unfold profile. by destruct (dv_transaction_id d), b. Qed.

(** The highest limit the charger may be enforcing on a connector, [None] when
    it is not known to be limited, and the last limit sent to it. A profile may
    take effect whatever became of the call; the charger's own readback at or
    below the last limit says that earlier ones are gone. *)
Record Ghost := mkGhost { g_limit : option Z; g_last : option Z }.

Definition exchange (g : Ghost) (it : Item) : Ghost :=
  if bool_decide (it_action it = "SetChargingProfile") then
    match limit_of (it_payload it) with
    | Some w => mkGhost (Z.max w <$> g_limit g) (Some w)
    | None => mkGhost None None
    end
  else if bool_decide (it_action it = "ClearChargingProfile") then mkGhost None (g_last g)
  else if bool_decide (it_action it = "GetCompositeSchedule") then
    match g_last g with
    | Some w =>
        let r := wire (it_action it) (it_net it) in
        if bool_decide (r.1 = "Accepted") && readback (dv_number (it_device it)) w r.2 then mkGhost (Some w) (Some w) else g
    | None => g
    end
  else g.

Definition ghost (c : Z) (log : list Item) : Ghost :=
  foldl exchange (mkGhost None None) (filter (λ it, dv_connector_id (it_device it) = c) log).

Definition enforced (c : Z) (log : list Item) : option Z := g_limit (ghost c log).

Lemma ghost_snoc c log it :
  ghost c (log ++ [it]) = if decide (dv_connector_id (it_device it) = c) then exchange (ghost c log) it else ghost c log.
Proof.
  unfold ghost. rewrite filter_app, foldl_app, filter_cons. by case_decide.
Qed.

Lemma ghost_other c log items :
  (∀ it, it ∈ items → dv_connector_id (it_device it) ≠ c) → ghost c (log ++ items) = ghost c log.
Proof.
  intros H. unfold ghost. rewrite filter_app. replace (filter (λ it, dv_connector_id (it_device it) = c) items) with (@nil Item);
    [by rewrite app_nil_r|]. symmetry. apply list_filter_none. done.
Qed.

(** ** The system *)

Definition State : Type := Db * list Item.

Definition tstep {A} (s : State) (t : Task A) (s' : State) (t' : Task A) : Prop :=
  match t with
  | Done _ => False
  | Atomic B m k => ∃ r, savepoint m s.1 = (r, s'.1) ∧ s'.2 = s.2 ∧ t' = k r
  | Exchange d action payload k => ∃ n, s' = (s.1, s.2 ++ [mkItem d action payload n]) ∧ t' = k n
  | Sockets k => ∃ sockets, s' = s ∧ t' = k sockets
  end.

Definition pstep (s : State) (p : Plan) (s' : State) (p' : Plan) : Prop :=
  match p with
  | Finish _ => False
  | Run t k =>
      (∃ t', tstep s t s' t' ∧ p' = Run t' k) ∨
      (∃ r, t = Done r ∧ s' = s ∧ p' = match r with inl e => Finish (inl e) | inr b => k b end)
  | Gather ts k =>
      (∃ i t t', ts !! i = Some t ∧ tstep s t s' t' ∧ p' = Gather (<[i := t']> ts) k) ∨
      (∃ rs, ts = Done <$> rs ∧ s' = s ∧ p' = k rs)
  end.

Section system.
Context {dep : Deployment} (fromisoformat : string → option (Z * bool)) (uuid5 : string → Z).
(** The station of a connector: connectors do not move. *)
Context (owner : Z → Z).

(** The row of a connector before and after something that does not own it. *)
Definition row_same (o o' : option ConnectorPower) : Prop :=
  match o, o' with
  | Some cap, Some cap' => kp_reserved_w cap' = kp_reserved_w cap ∧ kp_station_id cap' = kp_station_id cap ∧
      kp_connector_id cap' = kp_connector_id cap
  | None, None => True
  | None, Some cap' => kp_reserved_w cap' = 0
  | Some _, None => False
  end.

Definition rows_ok (db : Db) : Prop :=
  ∀ c cap, connector_power db !! c = Some cap → kp_connector_id cap = c ∧ kp_station_id cap = owner c ∧ 0 ≤ kp_reserved_w cap.

(** The rest of the server: reservations of connectors stay as they are, rows may
    be added without watts, anything else may happen. *)
Definition environment (db db' : Db) : Prop :=
  rows_ok db' ∧ ∀ c, row_same (connector_power db !! c) (connector_power db' !! c).

Record World := mkWorld { wo_state : State; wo_jobs : gmap Z Plan }.

Inductive sys_step : World → World → Prop :=
  | sys_start st s jobs : jobs !! st = None →
      sys_step (mkWorld s jobs) (mkWorld s (<[st := _reconcile fromisoformat uuid5 st]> jobs))
  | sys_work st s s' p p' jobs : jobs !! st = Some p → pstep s p s' p' →
      sys_step (mkWorld s jobs) (mkWorld s' (<[st := p']> jobs))
  | sys_end st s jobs : sys_step (mkWorld s jobs) (mkWorld s (delete st jobs))
  | sys_other s db' jobs : environment s.1 db' → sys_step (mkWorld s jobs) (mkWorld (db', s.2) jobs).

(** ** Invariant and interference *)

Record covered (s : State) : Prop := mkCovered {
  cv_rows : rows_ok s.1;
  cv_limit : ∀ c w, enforced c s.2 = Some w → ∃ cap, connector_power s.1 !! c = Some cap ∧ w ≤ kp_reserved_w cap
}.

(** Watts are taken within the limit or not at all. *)
Definition within_budget (db db' : Db) : Prop :=
  ∀ st, total_reserved st db' ≤ total_reserved st db ∨
    ∃ config, station_power db' !! st = Some config ∧ total_reserved st db' ≤ pw_limit_w config.

Definition touches (C : Z → Prop) (s s' : State) : Prop :=
  (∀ c, ¬ C c → row_same (connector_power s.1 !! c) (connector_power s'.1 !! c)) ∧
  ∃ items, s'.2 = s.2 ++ items ∧ ∀ it, it ∈ items → C (dv_connector_id (it_device it)).

Definition others (C : Z → Prop) : State → State → Prop := touches (λ c, ¬ C c).

Lemma row_same_refl o : row_same o o.
Proof. by destruct o. Qed.

Lemma row_same_trans o1 o2 o3 : row_same o1 o2 → row_same o2 o3 → row_same o1 o3.
Proof. destruct o1, o2, o3; simpl; try done; intuition congruence. Qed.

Lemma touches_refl C s : touches C s s.
Proof. split; [intros; apply row_same_refl|]. exists []. rewrite app_nil_r. split; [done|]. set_solver. Qed.

Lemma touches_trans C s1 s2 s3 : touches C s1 s2 → touches C s2 s3 → touches C s1 s3.
Proof.
  intros [R1 (i1 & E1 & H1)] [R2 (i2 & E2 & H2)]. split; [intros c Hc; eapply row_same_trans; eauto|].
  exists (i1 ++ i2). rewrite E2, E1, app_assoc. split; [done|]. set_solver.
Qed.

Lemma touches_weaken (C D : Z → Prop) s s' : (∀ c, C c → D c) → touches C s s' → touches D s s'.
Proof. intros HCD [R (i & E & H)]. split; [intros c Hc; apply R; auto|]. exists i. split; [done|]. intros it Hit. auto. Qed.

(** ** Tasks that respect their share *)

Definition step_ok (C : Z → Prop) (s s' : State) : Prop := covered s' ∧ touches C s s' ∧ within_budget s.1 s'.1.

Fixpoint safe {A} (C : Z → Prop) (t : Task A) (Q : Exn + A → State → Prop) (s : State) : Prop :=
  match t with
  | Done r => Q r s
  | Atomic B m k => ∀ s1 r db', others C s s1 → covered s1 → savepoint m s1.1 = (r, db') →
      step_ok C s1 (db', s1.2) ∧ safe C (k r) Q (db', s1.2)
  | Exchange d action payload k => ∀ s1 n, others C s s1 → covered s1 →
      let s2 := (s1.1, s1.2 ++ [mkItem d action payload n]) in step_ok C s1 s2 ∧ safe C (k n) Q s2
  | Sockets k => ∀ s1 sockets, others C s s1 → covered s1 → safe C (k sockets) Q s1
  end.

Lemma power_safe_step {A} C (t : Task A) Q s s' t' :
  safe C t Q s → covered s → tstep s t s' t' → step_ok C s s' ∧ safe C t' Q s'.
Proof.
  intros Hs Hc Ht. destruct t as [r|B m k|d a p k|k]; simpl in Ht; [done|..].
  - destruct Ht as (r & Hm & E & ->). destruct s' as [db' log']; simpl in *. subst log'.
    by apply (Hs s r db'); [apply touches_refl|..].
  - destruct Ht as (n & -> & ->). by apply (Hs s n); [apply touches_refl|].
  - destruct Ht as (socks & -> & ->). split; [split; [done|split; [apply touches_refl|by left]]|].
    by apply Hs; [apply touches_refl|].
Qed.

(** Safety survives the steps of others. *)
Lemma safe_stable {A} C (t : Task A) (Q : Exn + A → State → Prop) s s1 :
  (∀ r, Q r s → Q r s1) → safe C t Q s → others C s s1 → safe C t Q s1.
Proof.
  intros HQ Hs Ho. destruct t; simpl in *; [by apply HQ|..].
  - intros s2 r db' H2. apply Hs. by eapply touches_trans.
  - intros s2 n H2. apply Hs. by eapply touches_trans.
  - intros s2 socks H2. apply Hs. by eapply touches_trans.
Qed.

Lemma safe_bind {A B} C (t : Task A) (f : A → Task B) (Q1 : Exn + A → State → Prop) (Q : Exn + B → State → Prop) s :
  safe C t Q1 s → (∀ a s, Q1 (inr a) s → safe C (f a) Q s) → (∀ e s, Q1 (inl e) s → Q (inl e) s) →
  safe C (t ≫= f) Q s.
Proof.
  intros Ht Hf He. revert s Ht. unfold mbind, Task_bind.
  induction t as [r|X m k IH|d a p k IH|k IH]; intros s Ht; simpl in *.
  - destruct r as [e|a]; [by apply He|by apply Hf].
  - intros s1 r db' H1 H2 H3. destruct (Ht s1 r db' H1 H2 H3). split; [done|]. by apply IH.
  - intros s1 n H1 H2. destruct (Ht s1 n H1 H2). split; [done|]. by apply IH.
  - intros s1 socks H1 H2. by apply IH, Ht.
Qed.

Lemma safe_weaken {A} C (t : Task A) (Q1 Q : Exn + A → State → Prop) s :
  safe C t Q1 s → (∀ r s, Q1 r s → Q r s) → safe C t Q s.
Proof.
  intros Ht HQ. revert s Ht. induction t as [r|X m k IH|d a p k IH|k IH]; intros s Ht; simpl in *.
  - by apply HQ.
  - intros s1 r db' H1 H2 H3. destruct (Ht s1 r db' H1 H2 H3). split; [done|]. by apply IH.
  - intros s1 n H1 H2. destruct (Ht s1 n H1 H2). split; [done|]. by apply IH.
  - intros s1 socks H1 H2. by apply IH, Ht.
Qed.

(** ** Plans *)

(** A group that failed names a device of its own. *)
Definition names (C : Z → Prop) (r : Exn + option Device) : Prop := ∀ d, r = inr (Some d) → C (dv_connector_id d).

(** Nothing is known of the state when a plan goes on: whatever it needs it
    has read, and what it has read it passes on. *)
Fixpoint plan_safe (C : Z → Prop) (p : Plan) : Prop :=
  match p with
  | Finish _ => True
  | Run t k => ∀ s, covered s → safe C t (λ r _, match r with inr b => plan_safe C (k b) | inl _ => True end) s
  | Gather ts k =>
      (∃ Cs : list (Z → Prop), length Cs = length ts ∧
         (∀ i D, Cs !! i = Some D → ∀ c, D c → C c) ∧
         (∀ i j D D', i ≠ j → Cs !! i = Some D → Cs !! j = Some D' → ∀ c, D c → ¬ D' c) ∧
         (∀ i D t, Cs !! i = Some D → ts !! i = Some t → ∀ s, covered s → safe D t (λ r _, names C r) s)) ∧
      ∀ rs, Forall (names C) rs → plan_safe C (k rs)
  end.

(** The same of a plan in progress. *)
Definition job_safe (C : Z → Prop) (p : Plan) (s : State) : Prop :=
  match p with
  | Finish _ => True
  | Run t k => safe C t (λ r _, match r with inr b => plan_safe C (k b) | inl _ => True end) s
  | Gather ts k =>
      (∃ Cs : list (Z → Prop), length Cs = length ts ∧
         (∀ i D, Cs !! i = Some D → ∀ c, D c → C c) ∧
         (∀ i j D D', i ≠ j → Cs !! i = Some D → Cs !! j = Some D' → ∀ c, D c → ¬ D' c) ∧
         (∀ i D t, Cs !! i = Some D → ts !! i = Some t → safe D t (λ r _, names C r) s)) ∧
      ∀ rs, Forall (names C) rs → plan_safe C (k rs)
  end.

Lemma plan_job C p s : plan_safe C p → covered s → job_safe C p s.
Proof. destruct p as [r|B t k|ts k]; [done|intros H ?; by apply H|]. intros [(Cs & H1 & H2 & H3 & H4) H5] Hc. split; [|done]. exists Cs. eauto 10. Qed.

Lemma others_weaken (C D : Z → Prop) s s' : (∀ c, D c → C c) → others C s s' → others D s s'.
Proof. intros H. apply touches_weaken. intros c Hc HD. apply Hc, H, HD. Qed.

Lemma job_stable C p s s1 : job_safe C p s → others C s s1 → job_safe C p s1.
Proof.
  destruct p as [r|B t k|ts k]; [done|intros H Ho; by apply (safe_stable C t _ s s1)|].
  intros [(Cs & H1 & H2 & H3 & H4) H5] Ho. split; [|done]. exists Cs. split_and!; [done..|].
  intros i D t HD Ht. apply (safe_stable D t _ s s1); [done|by eapply H4|]. eapply others_weaken; [|done]. by eapply H2.
Qed.

Lemma job_step C p s s' p' :
  job_safe C p s → covered s → pstep s p s' p' → step_ok C s s' ∧ job_safe C p' s'.
Proof.
  assert (∀ C s, covered s → step_ok C s s) as Hrefl.
  { intros D x Hx. split; [done|]. split; [apply touches_refl|by left]. }
  intros Hj Hc Hp. destruct p as [r|B t k|ts k]; simpl in Hp; [done|..].
  - destruct Hp as [(t' & Ht & ->)|(r & -> & -> & ->)]; [by apply (power_safe_step C t)|].
    split; [by apply Hrefl|]. simpl in Hj. destruct r as [e|b]; [done|]. by apply plan_job.
  - destruct Hj as [(Cs & H1 & H2 & H3 & H4) H5]. destruct Hp as [(i & t & t' & Hi & Ht & ->)|(rs & -> & -> & ->)].
    2: { split; [by apply Hrefl|]. apply plan_job; [|done]. apply H5, Forall_lookup. intros i r Hi. rewrite length_fmap in H1.
         assert (is_Some (Cs !! i)) as [D HD] by (apply lookup_lt_is_Some; rewrite H1; by eapply lookup_lt_Some).
         apply (H4 i D (Done r) HD). by rewrite list_lookup_fmap, Hi. }
    assert (is_Some (Cs !! i)) as [D HD] by (apply lookup_lt_is_Some; rewrite H1; by eapply lookup_lt_Some).
    destruct (power_safe_step D t _ s s' t' (H4 i D t HD Hi) Hc Ht) as [(Hcov & Hto & Hb) Hs'].
    split; [split; [done|]; split; [|done]; eapply touches_weaken; [|done]; by eapply H2|].
    split; [|done]. exists Cs. rewrite length_insert. split_and!; [done..|].
    intros j E u HE Hu. apply list_lookup_insert_Some in Hu as [(<- & -> & _)|[Hne Hu]].
    + by replace E with D by congruence.
    + apply (safe_stable E u _ s s'); [done|by eapply H4|]. eapply touches_weaken; [|done].
      intros c HDc HEc. by eapply (H3 i j).
Qed.
(** ** Transactions that leave the reservations alone *)

Definition still {A} (m : Tx A) : Prop := ∀ x, keeps (λ db, connector_power db = x) m.

Lemma still_run {A} (m : Tx A) db r db' : still m → savepoint m db = (r, db') → connector_power db' = connector_power db.
Proof. intros Hm H. by apply (keeps_run _ _ _ _ _ (keeps_savepoint _ _ (Hm (connector_power db))) eq_refl H). Qed.

Lemma same_others C (s : State) db' : connector_power db' = connector_power s.1 → others C s (db', s.2).
Proof.
  intros H. split; [intros; simpl; rewrite H; apply row_same_refl|]. exists []. rewrite app_nil_r. split; [done|]. set_solver.
Qed.

Lemma same_step C (s : State) db' : connector_power db' = connector_power s.1 → covered s → step_ok C s (db', s.2).
Proof.
  intros H [Hr Hl]. split; [split; simpl|split].
  - intros c cap. rewrite H. apply Hr.
  - intros c w. rewrite H. apply Hl.
  - split; [intros; simpl; rewrite H; apply row_same_refl|]. exists []. rewrite app_nil_r. split; [done|]. set_solver.
  - intros st. left. unfold total_reserved, power_rows. simpl. by rewrite H.
Qed.

(** A fact others cannot falsify. *)
Definition stable (C : Z → Prop) (P : State → Prop) : Prop := ∀ s s', P s → others C s s' → P s'.

Lemma safe_still {A} C (m : Tx A) (P : State → Prop) (Q : Exn + A → State → Prop) s :
  still m → stable C P → P s →
  (∀ r s1 db', P (db', s1.2) → covered s1 → savepoint m s1.1 = (r, db') → Q r (db', s1.2)) → safe C (tx m) Q s.
Proof.
  intros Hm HP Hs HQ s1 r db' Ho Hc Hr. pose proof (still_run _ _ _ _ Hm Hr) as E. split; [by apply same_step|].
  apply (HQ r s1 db'); [|done|done]. apply (HP s1); [by apply (HP s)|]. by apply same_others.
Qed.

#[local] Hint Extern 2 (keeps _ (modify _)) => apply keeps_modify; by intros : csms_keeps.
#[local] Hint Extern 2 (keeps _ (update_power _ _)) => apply keeps_modify; by intros : csms_keeps.
#[local] Hint Extern 2 (keeps _ (update_session _ _)) => apply keeps_modify; by intros : csms_keeps.
#[local] Hint Extern 2 (keeps _ (update_intent _ _)) => apply keeps_modify; by intros : csms_keeps.
#[local] Hint Extern 2 (keeps _ (insert_intent _ _ _ _ _ _)) => apply keeps_modify; by intros : csms_keeps.
#[local] Hint Extern 2 (keeps _ (ghi_nhat_ky _ _ _ _ _ _ _)) => apply keeps_audit; by intros : csms_keeps.

Lemma still_gets {A} (f : Db → A) : still (gets f).
Proof. intros x. apply keeps_gets. Qed.
Lemma still_begin_command d st g a p r : still (begin_command d st g a p r).
Proof. intros x. unfold begin_command, fresh_id. keeps_steps. Qed.
Lemma still_end_command id o : still (end_command id o).
Proof. intros x. unfold end_command. keeps_steps. Qed.
Lemma still_degraded st issue : still (mark_degraded st issue).
Proof. intros x. unfold mark_degraded. keeps_steps. Qed.
Lemma still_begin_plan st : still (begin_plan st).
Proof. intros x. unfold begin_plan. keeps_steps. Qed.
Lemma still_generation st : still (current_generation st).
Proof. intros x. unfold current_generation. keeps_steps. Qed.
Lemma still_disabled st g : still (mark_disabled st g).
Proof. intros x. unfold mark_disabled. keeps_steps. Qed.
Lemma still_applying st : still (mark_applying st).
Proof. intros x. unfold mark_applying. keeps_steps. Qed.
Lemma still_applied st g l b : still (mark_applied st g l b).
Proof. intros x. unfold mark_applied. keeps_steps. Qed.
Lemma still_preempted st l t c r : still (note_preempted st l t c r).
Proof. intros x. unfold note_preempted. keeps_steps. Qed.
#[local] Hint Resolve still_gets still_begin_command still_end_command still_degraded still_begin_plan still_generation
  still_disabled still_applying still_applied still_preempted : core.

(** ** Commands *)

(** What an exchange may do to the invariant, knowing [P]. *)
Lemma safe_command C d st g action payload rid (P : State → Prop) (P' : Net → State → Prop) (Q : Exn + (string * Payload) → State → Prop) s :
  C (dv_connector_id d) → stable C P → (∀ n, stable C (P' n)) → P s →
  (∀ s1 n, P s1 → covered s1 → let s2 := (s1.1, s1.2 ++ [mkItem d action payload n]) in covered s2 ∧ P' n s2) →
  (∀ n s1, P' n s1 → Q (inr (wire action n)) s1) → (∀ e s1, Q (inl e) s1) →
  safe C (command d st g action payload rid) Q s.
Proof.
  intros HC HP HP' Hs Hx HQ He. unfold command.
  apply (safe_bind C _ _ (λ _ s1, P s1)); [by apply (safe_still C _ P)| |by auto].
  intros id s1 Hs1 s2 n Ho Hc. assert (P s2) as H2 by (by apply (HP s1)). destruct (Hx s2 n H2 Hc) as [Hc3 H3]. split.
  - split; [done|]. split; [|by left]. split; [intros; apply row_same_refl|]. exists [mkItem d action payload n]. split; [done|].
    intros it ->%list_elem_of_singleton. done.
  - apply (safe_bind C _ _ (λ _ s1, P' n s1)); [by apply (safe_still C _ (P' n))| |by auto]. intros [] s4 H4. by apply HQ.
Qed.

(** Exchanges that set no limit and read none back. *)
Lemma covered_quiet (s : State) d action payload n :
  action ≠ "SetChargingProfile" → action ≠ "GetCompositeSchedule" → covered s →
  covered (s.1, s.2 ++ [mkItem d action payload n]).
Proof.
  intros H1 H2 [Hr Hl]. split; [done|]. intros c w. unfold enforced. simpl. rewrite ghost_snoc. case_decide; [|by apply Hl].
  unfold exchange. simpl. rewrite (bool_decide_eq_false_2 _ H1), (bool_decide_eq_false_2 _ H2).
  case_bool_decide; [done|by apply Hl].
Qed.

Lemma safe_quiet C d st g action payload rid s :
  C (dv_connector_id d) → action ≠ "SetChargingProfile" → action ≠ "GetCompositeSchedule" →
  safe C (command d st g action payload rid) (λ _ _, True) s.
Proof.
  intros HC H1 H2. apply (safe_command C d st g action payload rid (λ _, True) (λ _ _, True)); try done.
  intros s1 n _ Hc. split; [by apply covered_quiet|done].
Qed.

(** ** Setting a limit *)

Section limit.
Context (C : Z → Prop) (d : Device) (st g w : Z) (b : bool) (HC : C (dv_connector_id d)) (Hown : owner (dv_connector_id d) = st).
Local Abbreviation c := (dv_connector_id d).

(** The watts are reserved. *)
Definition reserved (s : State) : Prop := ∃ cap, connector_power s.1 !! c = Some cap ∧ w ≤ kp_reserved_w cap.
(** They are the last limit sent. *)
Definition sent (s : State) : Prop := reserved s ∧ g_last (ghost c s.2) = Some w.
(** The charger read them back. *)
Definition verified (s : State) : Prop := sent s ∧ enforced c s.2 = Some w.

Lemma others_own s s' : others C s s' → row_same (connector_power s.1 !! c) (connector_power s'.1 !! c) ∧ ghost c s'.2 = ghost c s.2.
Proof.
  intros [Hr (items & E & Hi)]. split; [apply Hr; auto|]. rewrite E. apply ghost_other. intros it Hit Heq. apply (Hi it Hit). by rewrite Heq.
Qed.

Lemma stable_reserved : stable C reserved.
Proof.
  intros s s' (cap & Hc & Hw) [Hr _]%others_own. rewrite Hc in Hr. unfold reserved.
  destruct (connector_power s'.1 !! c) as [cap'|]; [|done]. exists cap'. destruct Hr as (Hr & _). split; [done|lia].
Qed.
Lemma stable_sent : stable C sent.
Proof. intros s s' [H1 H2] Ho. split; [by apply (stable_reserved s)|]. apply others_own in Ho as [_ ->]. done. Qed.
Lemma stable_verified : stable C verified.
Proof. intros s s' [H1 H2] Ho. split; [by apply (stable_sent s)|]. apply others_own in Ho as [_ E]. unfold enforced. by rewrite E. Qed.

(** A row that changed, the others as they were. *)
Lemma alter_touches (s : State) f db' :
  connector_power db' = alter f c (connector_power s.1) → touches C s (db', s.2).
Proof.
  intros E. split; [|exists []; rewrite app_nil_r; split; [done|set_solver]].
  intros k Hk. simpl. rewrite E, lookup_alter_ne by (intros <-; done). apply row_same_refl.
Qed.

Lemma alter_covered (s : State) f cap db' :
  connector_power db' = alter f c (connector_power s.1) → connector_power s.1 !! c = Some cap → covered s →
  kp_connector_id (f cap) = kp_connector_id cap → kp_station_id (f cap) = kp_station_id cap → 0 ≤ kp_reserved_w (f cap) →
  (∀ v, enforced c s.2 = Some v → v ≤ kp_reserved_w (f cap)) → covered (db', s.2).
Proof.
  intros E Hc [Hr Hl] H1 H2 H3 H4. destruct (Hr _ _ Hc) as (Hi & Ho & _). split; simpl.
  - intros k cap'. rewrite E. destruct (decide (k = c)) as [->|Hne].
    + rewrite lookup_alter_eq, Hc. intros [= <-]. by rewrite H1, H2.
    + rewrite lookup_alter_ne by done. apply Hr.
  - intros k v Hv. rewrite E. destruct (decide (k = c)) as [->|Hne].
    + rewrite lookup_alter_eq, Hc. eexists. split; [done|]. by apply H4.
    + rewrite lookup_alter_ne by done. by apply Hl.
Qed.

Lemma alter_elsewhere (s : State) f db' cap st' :
  connector_power db' = alter f c (connector_power s.1) → connector_power s.1 !! c = Some cap →
  kp_station_id (f cap) = kp_station_id cap → kp_station_id cap ≠ st' → total_reserved st' db' ≤ total_reserved st' s.1.
Proof.
  intros E Hc Hf Hne. apply reserved_total_le. intros k. rewrite E. destruct (decide (k = c)) as [->|Hk].
  - rewrite lookup_alter_eq, Hc. simpl. rewrite Hf, !decide_False by done. lia.
  - by rewrite lookup_alter_ne.
Qed.

(** What the reservation does to the row. *)
Definition taken (id : Z) (cap : ConnectorPower) : ConnectorPower :=
  set_kp_desired_w w (set_kp_pending_command_id (Some id) (set_kp_reserved_w (Z.max (kp_reserved_w cap) w) cap)).

Lemma reserve_cases payload db r db' :
  savepoint (reserve_limit d st g w payload) db = (r, db') →
  (connector_power db' = connector_power db ∧ ∀ id, r ≠ inr (Some id)) ∨
  ∃ id config cap, r = inr (Some id) ∧ station_power db !! st = Some config ∧ connector_power db !! c = Some cap ∧
    station_power db' = station_power db ∧ connector_power db' = alter (taken id) c (connector_power db) ∧
    (kp_reserved_w cap < w → total_reserved st db - kp_reserved_w cap + w ≤ pw_limit_w config).
Proof.
  intros H. destruct r as [e|o].
  { left. unfold savepoint in H. destruct (reserve_limit _ _ _ _ _ db) as [[?|?] ?]; [by injection H as <- <-|done]. }
  apply savepoint_ok in H. unfold reserve_limit in H. rewrite !bind_gets in H.
  apply bind_ok in H as (config & d1 & [Hcfg ->]%some_or_inr & H). apply bind_ok in H as (cap & d2 & [Hcap ->]%some_or_inr & H).
  rewrite bind_gets in H. destruct (_ && _) eqn:Hl in H; [injection H as <- <-; by left|].
  rewrite bind_gets in H. apply bind_ok in H as (id & d3 & Hid & H).
  assert (station_power d3 = station_power db ∧ connector_power d3 = connector_power db) as [E1 E2].
  { destruct (kp_pending_command_id cap ≫= _); [destruct (json_eqb _ _)|]; injection Hid as <- <-; done. }
  rewrite bind_gets in H. apply bind_ok in H as ([] & d4 & Hw & H). apply bind_ok in H as ([] & d5 & Hu & [= <- <-]).
  assert (station_power d4 = station_power d3 ∧ connector_power d4 = connector_power d3) as [E3 E4].
  { unfold when in Hw. destruct (bool_decide _); injection Hw as <-; done. }
  right. exists id, config, cap. injection Hu as <-. split_and!; [done..|simpl; congruence|simpl; by rewrite E4, E2|].
  intros Hlt. apply andb_false_iff in Hl as [Hl|Hl]; [lia|]. apply orb_false_iff in Hl as [_ Hl]. lia.
Qed.

Lemma safe_reserve payload s :
  safe C (tx (reserve_limit d st g w payload)) (λ r s1, match r with inr (Some _) => reserved s1 | _ => True end) s.
Proof.
  intros s1 r db' Ho Hc Hr. destruct (reserve_cases _ _ _ _ Hr) as [[E Hne]|(id & config & cap & -> & Hcfg & Hcap & E1 & E2 & Hb)].
  { split; [by apply same_step|]. destruct r as [?|[?|]]; [done|by destruct (Hne z)|done]. }
  destruct (cv_rows _ Hc _ _ Hcap) as (Hk1 & Hk2 & Hk3). split; [split; [|split]|].
  - eapply alter_covered; [exact E2|done|done|done|done|simpl; lia|]. intros v Hv. simpl. destruct (cv_limit _ Hc _ _ Hv) as (cap' & Hcap' & Hle). replace cap' with cap in * by congruence. lia.
  - by eapply alter_touches.
  - intros st'. destruct (decide (kp_station_id cap = st')) as [<-|Hne]; [|left; by eapply alter_elsewhere].
    pose proof (total_alter _ s1.1 db' c (taken id) cap Hcap E2 eq_refl eq_refl) as Ht. simpl in *.
    destruct (Z_lt_dec (kp_reserved_w cap) w) as [Hlt|Hge]; [|left; lia].
    destruct (decide (kp_station_id cap = st)) as [Hst|Hst].
    + right. exists config. rewrite E1, Hst. split; [done|]. specialize (Hb Hlt). rewrite Hst in Ht. lia.
    + exfalso. congruence.
  - exists (taken id cap). simpl. rewrite E2, lookup_alter_eq, Hcap. split; [done|]. simpl. lia.
Qed.

(** The profile is on its way. *)
Lemma covered_sent s n :
  reserved s → covered s → let s2 := (s.1, s.2 ++ [mkItem d "SetChargingProfile" (profile d w b) n]) in covered s2 ∧ sent s2.
Proof.
  intros (cap & Hcap & Hw) [Hr Hl]. assert (ghost c (s.2 ++ [mkItem d "SetChargingProfile" (profile d w b) n]) =
    mkGhost (Z.max w <$> enforced c s.2) (Some w)) as Hg.
  { rewrite ghost_snoc, decide_True by done. unfold exchange. cbn [it_action it_payload]. by rewrite bool_decide_eq_true_2, limit_of_profile. }
  split; [split; [done|]|split; [by exists cap|simpl; by rewrite Hg]].
  intros k v. unfold enforced. simpl in *. destruct (decide (k = c)) as [->|Hne].
  - rewrite Hg. simpl. intros (v' & Hv & ->)%fmap_Some. destruct (Hl _ _ Hv) as (cap' & Hcap' & Hle). exists cap'.
    replace cap' with cap in * by congruence. split; [done|lia].
  - rewrite ghost_snoc, decide_False by (simpl; congruence). by apply Hl.
Qed.

(** The charger's account of it. *)
Lemma covered_read s n :
  sent s → covered s → let s2 := (s.1, s.2 ++ [mkItem d "GetCompositeSchedule" (verify_request d) n]) in
  covered s2 ∧ sent s2 ∧
  (let r := wire "GetCompositeSchedule" n in r.1 = "Accepted" → readback (dv_number d) w r.2 = true → verified s2).
Proof.
  intros [(cap & Hcap & Hw) Hlast] [Hr Hl]. set (it := mkItem d "GetCompositeSchedule" (verify_request d) n).
  set (ok := bool_decide ((wire "GetCompositeSchedule" n).1 = "Accepted") && readback (dv_number d) w (wire "GetCompositeSchedule" n).2).
  assert (ghost c (s.2 ++ [it]) = if ok then mkGhost (Some w) (Some w) else ghost c s.2) as Hg.
  { rewrite ghost_snoc, decide_True by done. unfold exchange. cbn [it it_action it_net it_device].
    rewrite bool_decide_eq_false_2 by done. rewrite bool_decide_eq_false_2 by done. rewrite bool_decide_eq_true_2 by done. by rewrite Hlast. }
  assert (covered (s.1, s.2 ++ [it])) as Hcov.
  { split; [done|]. intros k v. unfold enforced. simpl in *. destruct (decide (k = c)) as [->|Hne].
    - rewrite Hg. destruct ok; [|by apply Hl]. intros [= <-]. eauto.
    - rewrite ghost_snoc, decide_False by (simpl; congruence). by apply Hl. }
  assert (sent (s.1, s.2 ++ [it])) as Hsent by (split; [by exists cap|simpl; rewrite Hg; by destruct ok]).
  simpl. split; [done|]. split; [done|]. intros Ha Hrb. split; [done|]. unfold enforced. simpl. rewrite Hg. unfold ok.
  by rewrite bool_decide_eq_true_2, Hrb.
Qed.

Lemma safe_verify s :
  sent s → safe C (verify_limit fromisoformat d st g w)
    (λ r s1, match r with inr true => verified s1 | _ => True end) s.
Proof.
  intros Hs. unfold verify_limit.
  set (P' n s1 := sent s1 ∧ (let r := wire "GetCompositeSchedule" n in r.1 = "Accepted" → readback (dv_number d) w r.2 = true → verified s1)).
  assert (∀ n, stable C (P' n)) as HP'.
  { intros n s1 s2 [H1 H2] Ho. split; [by apply (stable_sent s1)|]. intros r Ha Hb. by apply (stable_verified s1); [apply H2|]. }
  apply (safe_bind C _ _ (λ r s1, ∀ v, r = inr v → ∃ n, v = wire "GetCompositeSchedule" n ∧ P' n s1)).
  - apply (safe_command C d st g _ _ None sent P'); [done|apply stable_sent|done|done| |naive_solver|naive_solver].
    intros s1 n Hs1 Hc. destruct (covered_read s1 n Hs1 Hc) as (H1 & H2 & H3). by split.
  - intros v s1 Hv. destruct (Hv v eq_refl) as (n & -> & HP).
    apply (safe_bind C _ _ (λ _ s1, P' n s1)); [by apply (safe_still C _ (P' n))| |done].
    intros now s2 [H1 H2]. simpl. destruct (bool_decide (_ = "Accepted")) eqn:Ha, (schedule_fresh fromisoformat now _), (readback (dv_number d) w _) eqn:Hb;
      try done. apply bool_decide_eq_true in Ha. by apply H2.
  - done.
Qed.

Definition settled (cap : ConnectorPower) : ConnectorPower :=
  let cap := set_kp_pending_command_id None (set_kp_reserved_w w (set_kp_confirmed_w w cap)) in
  if b then set_kp_baseline_boot_at (dv_boot_at d) cap else cap.

Lemma settled_same cap :
  kp_connector_id (settled cap) = kp_connector_id cap ∧ kp_station_id (settled cap) = kp_station_id cap ∧ kp_reserved_w (settled cap) = w.
Proof. unfold settled. by destruct b. Qed.

Lemma confirm_cases db r db' :
  savepoint (confirm_limit d w b) db = (r, db') →
  connector_power db' = connector_power db ∨ connector_power db' = alter settled c (connector_power db) ∧ 0 ≤ w.
Proof.
  intros H. destruct r as [e|o].
  { left. unfold savepoint in H. destruct (confirm_limit _ _ _ db) as [[?|?] ?]; [by injection H as <- <-|done]. }
  apply savepoint_ok in H. unfold confirm_limit in H. rewrite bind_gets in H. destruct (negb b && _); [injection H as <- <-; by left|].
  rewrite bind_gets in H. apply bind_ok in H as (u1 & d1 & [_ ->]%raise_if_inr & H). apply bind_ok in H as (u2 & d2 & [Hw ->]%raise_if_inr & H).
  apply bind_ok in H as (u3 & d3 & Hu & [= <- <-]). injection Hu as <- <-. right. split; [done|lia].
Qed.

Lemma safe_confirm s : verified s → safe C (tx (confirm_limit d w b)) (λ _ _, True) s.
Proof.
  intros Hs s1 r db' Ho Hc Hr. split; [|done]. apply (stable_verified s) in Ho; [|done].
  destruct Ho as [[(cap & Hcap & Hw) _] He]. destruct (confirm_cases _ _ _ Hr) as [E|[E H0]]; [by apply same_step|].
  destruct (settled_same cap) as (S1 & S2 & S3). split; [|split].
  - eapply alter_covered; [exact E|done|done|done|done|lia|]. intros v Hv. rewrite S3. replace v with w by congruence. done.
  - by eapply alter_touches.
  - intros st'. left. destruct (decide (kp_station_id cap = st')) as [<-|Hne]; [|by eapply alter_elsewhere].
    simpl. rewrite (total_alter _ s1.1 db' c settled cap Hcap E eq_refl S2). lia.
Qed.

Lemma safe_set_limit s : safe C (set_limit fromisoformat d st g w b) (λ _ _, True) s.
Proof.
  unfold set_limit. apply (safe_bind C _ _ _ _ _ (safe_reserve (profile d w b) s)); [|done].
  intros [id|] s1 H1; [|done].
  apply (safe_bind C _ _ (λ r s1, match r with inr _ => sent s1 | inl _ => True end)); [| |done].
  - apply (safe_command C d st g _ _ _ reserved (λ _, sent)); [done|apply stable_reserved|intros _; apply stable_sent|done| |done|done].
    intros s2 n H2 Hc. by apply covered_sent.
  - intros v s2 H2. destruct (negb _); [done|]. apply (safe_bind C _ _ _ _ _ (safe_verify s2 H2)); [|done].
    intros [] s3 H3; [|done]. by apply safe_confirm.
Qed.
End limit.
(** ** The worker's script *)

Definition owned (st : Z) (c : Z) : Prop := owner c = st.
Definition of_station (st : Z) (l : list Device) : Prop := ∀ d, d ∈ l → owner (dv_connector_id d) = st.

Section script.
Context (st g : Z).

Lemma safe_degrade C issue failed s :
  (∀ d, failed = Some d → C (dv_connector_id d)) → safe C (degrade uuid5 st g issue failed) (λ _ _, True) s.
Proof.
  intros HC. unfold degrade. apply (safe_bind C _ _ (λ _ _, True)); [by apply (safe_still C _ (λ _, True))| |done].
  intros [] s1 _. destruct failed as [d|]; [|done]. destruct (dv_transaction_id d); [|done].
  apply (safe_bind C _ _ (λ _ _, True)); [by apply safe_quiet; [apply HC|..]|done|done].
Qed.

Lemma safe_degrade_all C issue l s :
  (∀ d, d ∈ l → C (dv_connector_id d)) → safe C (degrade_all uuid5 st g issue l) (λ _ _, True) s.
Proof.
  revert s. induction l as [|d l IH]; intros s HC; [done|]. cbn [degrade_all].
  apply (safe_bind C _ _ (λ _ _, True)); [|intros [] s1 _; apply IH; set_solver|done].
  apply safe_degrade. intros d' [= <-]. set_solver.
Qed.

Lemma plan_give_up issue failed : (∀ d, failed = Some d → owned st (dv_connector_id d)) → plan_safe (owned st) (give_up_plan uuid5 st g issue failed).
Proof.
  intros HC s _. apply (safe_weaken _ _ (λ _ _, True)); [by apply safe_degrade|]. by intros [] ? _.
Qed.

Lemma plan_run {B} C (t : Task B) k : (∀ s, safe C t (λ _ _, True) s) → (∀ b, plan_safe C (k b)) → plan_safe C (Run t k).
Proof. intros Ht Hk s _. apply (safe_weaken _ _ (λ _ _, True)); [done|]. by intros [] ? _. Qed.

Lemma plan_tx {B} C (m : Tx B) k : still m → (∀ b, plan_safe C (k b)) → plan_safe C (Run (tx m) k).
Proof. intros Hm Hk. apply plan_run; [|done]. intros s. by apply (safe_still C _ (λ _, True)). Qed.

Lemma plan_quit C : plan_safe C quit.
Proof. done. Qed.
#[local] Hint Resolve plan_quit : core.

Lemma plan_zero_all l k : of_station st l → plan_safe (owned st) k → plan_safe (owned st) (zero_all fromisoformat uuid5 st g l k).
Proof.
  induction l as [|d l IH]; intros Hl Hk; [done|]. cbn [zero_all]. assert (owned st (dv_connector_id d)) as Hd by (apply Hl; set_solver).
  destruct (_ || _); [by apply plan_give_up|]. apply plan_run; [intros s; by apply safe_set_limit|].
  intros [|]; [|apply plan_give_up; by intros ? [= <-]]. apply IH; [|done]. intros d' Hd'. apply Hl. set_solver.
Qed.

Lemma plan_clear_all l k :
  of_station st l.*1 → plan_safe (owned st) k → plan_safe (owned st) (clear_all uuid5 st g l k).
Proof.
  induction l as [|[d b] l IH]; intros Hl Hk; [done|]. cbn [clear_all]. assert (owned st (dv_connector_id d)) as Hd by (apply Hl; set_solver).
  apply plan_run.
  - intros s. unfold clear_profile. apply (safe_bind _ _ _ (λ _ _, True)); [by apply safe_quiet|done|done].
  - intros [|]; [|apply plan_give_up; by intros ? [= <-]]. apply IH; [|done]. intros d' Hd'. apply Hl. set_solver.
Qed.

Lemma plan_disable l : of_station st l → plan_safe (owned st) (disable_plan fromisoformat uuid5 st g l).
Proof.
  intros Hl. apply plan_zero_all; [done|]. apply plan_tx; [done|]. intros g'. destruct (negb _); [done|].
  apply plan_clear_all; [|by apply plan_tx]. intros d Hd. apply Hl. apply list_elem_of_fmap in Hd as ([d' b] & -> & H).
  apply list_elem_of_bind in H as (d0 & H & Hd). set_solver.
Qed.

Lemma plan_baseline_all l k : of_station st l → plan_safe (owned st) k → plan_safe (owned st) (baseline_all fromisoformat uuid5 st g l k).
Proof.
  induction l as [|d l IH]; intros Hl Hk; [done|]. cbn [baseline_all]. assert (owned st (dv_connector_id d)) as Hd by (apply Hl; set_solver).
  assert (of_station st l) as Hl' by (intros d' Hd'; apply Hl; set_solver).
  destruct (_ && _); [by apply IH|]. destruct (negb _); [apply plan_give_up; by intros ? [= <-]|]. apply plan_run.
  - intros s. unfold capabilities. apply (safe_bind _ _ _ (λ _ _, True)); [by apply safe_quiet|done|done].
  - intros able. destruct (negb able); [apply plan_give_up; by intros ? [= <-]|].
    apply plan_run; [intros s; by apply safe_set_limit|]. intros [|]; [by apply IH|]. apply plan_give_up. by intros ? [= <-].
Qed.

(** *** Side by side *)

Lemma add_group_perm d gs : concat (add_group d gs).*2 ≡ₚ d :: concat gs.*2.
Proof.
  induction gs as [|[k l] gs IH]; [done|]. simpl. destruct (k =? _); simpl.
  - rewrite <- app_assoc. simpl. by rewrite Permutation_middle.
  - rewrite IH. by rewrite Permutation_middle.
Qed.

Lemma grouped_perm l : concat (grouped l) ≡ₚ l.
Proof.
  unfold grouped. change l with (concat (@nil (Z * list Device)).*2 ++ l) at 2.
  generalize (@nil (Z * list Device)). induction l as [|d l IH]; intros gs; simpl; [by rewrite app_nil_r|].
  rewrite IH, add_group_perm. simpl. by rewrite Permutation_middle.
Qed.

Lemma safe_apply_charger (C : Z → Prop) targets l s :
  (∀ d, d ∈ l → C (dv_connector_id d)) → of_station st l →
  safe C (apply_charger fromisoformat st g targets l) (λ r _, names (owned st) r) s.
Proof.
  revert s. induction l as [|d l IH]; intros s HC Hl; [done|]. cbn [apply_charger]. destruct (targets !! _); [|done].
  assert (owned st (dv_connector_id d)) as Hd by (apply Hl; set_solver).
  apply (safe_bind C _ _ (λ _ _, True)); [apply safe_set_limit; [apply HC; set_solver|done]| |done].
  intros [|] s1 _; [|by intros ? [= <-]]. apply IH; [intros d' Hd'; apply HC; set_solver|intros d' Hd'; apply Hl; set_solver].
Qed.

(** The connectors of a group. *)
Definition share (l : list Device) (c : Z) : Prop := c ∈ dv_connector_id <$> l.

Lemma shares_disjoint (gs : list (list Device)) i j l l' c :
  NoDup (dv_connector_id <$> concat gs) → i ≠ j → gs !! i = Some l → gs !! j = Some l' → share l c → ¬ share l' c.
Proof.
  revert i j. induction gs as [|x gs IH]; intros i j Hnd Hij Hi Hj Hc Hc'; [done|]. simpl in Hnd. rewrite fmap_app in Hnd.
  apply NoDup_app in Hnd as (_ & Hd & Hn). assert (∀ k y, gs !! k = Some y → share y c → c ∈ dv_connector_id <$> concat gs) as Hin.
  { intros k y Hk Hy. apply list_elem_of_fmap in Hy as (d & -> & Hd'). apply list_elem_of_fmap. exists d. split; [done|].
    apply list_elem_of_In, in_concat. exists y. rewrite <- !list_elem_of_In. split; [|done]. by eapply list_elem_of_lookup_2. }
  destruct i as [|i], j as [|j]; simpl in *; [done| | |].
  - injection Hi as ->. apply (Hd c Hc). by eapply Hin.
  - injection Hj as ->. apply (Hd c Hc'). by eapply Hin.
  - eapply (IH i j); eauto.
Qed.

Lemma plan_apply_phase changes targets k :
  of_station st changes → NoDup (dv_connector_id <$> changes) → (∀ b, plan_safe (owned st) (k b)) →
  plan_safe (owned st) (apply_phase fromisoformat uuid5 changes targets st g k).
Proof.
  intros Hst Hnd Hk. pose proof (grouped_perm changes) as Hp. unfold apply_phase.
  assert (∀ l, l ∈ grouped changes → of_station st l) as Hsub.
  { intros l Hl d Hd. apply Hst. rewrite <- Hp. apply list_elem_of_In, in_concat. exists l. by rewrite <- !list_elem_of_In. }
  split.
  - exists (share <$> grouped changes). rewrite !length_fmap. split; [done|]. split_and!.
    + intros i D HD c Hc. apply list_lookup_fmap_Some in HD as (l & -> & Hl). apply list_elem_of_fmap in Hc as (d & -> & Hd).
      eapply Hsub; [|done]. by eapply list_elem_of_lookup_2.
    + intros i j D D' Hij HD HD' c. apply list_lookup_fmap_Some in HD as (l & -> & Hl), HD' as (l' & -> & Hl').
      apply (shares_disjoint (grouped changes) i j); try done. by rewrite Hp.
    + intros i D t HD Ht s _. apply list_lookup_fmap_Some in HD as (l & -> & Hl), Ht as (l' & -> & Hl').
      replace l' with l by congruence. apply safe_apply_charger.
      * intros d Hd. by apply list_elem_of_fmap_2.
      * apply Hsub. by eapply list_elem_of_lookup_2.
  - intros rs Hrs. destruct (first_exn rs); [done|]. apply plan_run; [|done]. intros s. apply safe_degrade_all. intros d Hd.
    unfold failures in Hd. apply list_elem_of_omap in Hd as (r & Hr & E). destruct r as [e|o]; [done|]. subst o.
    rewrite Forall_forall in Hrs. by apply (Hrs _ Hr).
Qed.

(** *** The whole of it *)

Lemma safe_preempt_all limit reason inputs l s :
  of_station st inputs → safe (owned st) (preempt_all uuid5 st g limit reason inputs l) (λ _ _, True) s.
Proof.
  intros Hi. revert s. induction l as [|tid l IH]; intros s; [done|]. cbn [preempt_all].
  apply (safe_bind _ _ _ (λ _ _, True)); [|intros [] s1 _; apply IH|done].
  destruct (device_by_tx inputs tid) as [d|] eqn:Hd; [|done].
  assert (owned st (dv_connector_id d)) as Ho.
  { apply Hi. unfold device_by_tx in Hd. apply last_Some_elem_of in Hd. by apply list_elem_of_filter in Hd as [_ ?]. }
  apply (safe_bind _ _ _ (λ _ _, True)); [by apply safe_quiet| |done]. intros v s1 _. by apply (safe_still _ _ (λ _, True)).
Qed.

Lemma plan_conclude limit inputs : plan_safe (owned st) (conclude_plan st g limit inputs).
Proof. by apply plan_tx. Qed.
#[local] Hint Resolve plan_conclude : core.

Lemma plan_apply_targets limit inputs targets :
  of_station st inputs → NoDup (dv_connector_id <$> inputs) →
  plan_safe (owned st) (apply_targets fromisoformat uuid5 st g limit inputs targets).
Proof.
  intros Hi Hnd. unfold apply_targets. set (changes := filter _ inputs).
  assert (∀ P `{!∀ d : Device, Decision (P d)}, of_station st (filter P changes) ∧ NoDup (dv_connector_id <$> filter P changes)) as Hf.
  { intros P HP. split.
    - intros d [_ [_ Hd]%list_elem_of_filter]%list_elem_of_filter. by apply Hi.
    - apply NoDup_fmap_filter, NoDup_fmap_filter, Hnd. }
  destruct (bool_decide _); [done|]. apply plan_tx; [done|]. intros _.
  apply plan_apply_phase; [apply Hf|apply Hf|]. intros ok. destruct (negb ok); [done|]. apply plan_tx; [done|]. intros g'.
  destruct (negb _); [done|]. apply plan_apply_phase; [apply Hf|apply Hf|]. intros ok'. by destruct (negb ok').
Qed.

Lemma plan_allocate limit now inputs :
  of_station st inputs → NoDup (dv_connector_id <$> inputs) →
  plan_safe (owned st) (allocate_plan fromisoformat uuid5 st g limit now inputs).
Proof.
  intros Hi Hnd. unfold allocate_plan. destruct (_ <? _); [by apply plan_give_up|].
  apply plan_run; [intros s; by apply safe_preempt_all|]. intros _. destruct (is_degraded _); [by apply plan_give_up|].
  by apply plan_apply_targets.
Qed.

(** The devices read: of this station, each connector once. *)
Lemma device_rows_ok sockets db :
  rows_ok db → of_station st (device_rows st sockets db) ∧ NoDup (dv_connector_id <$> device_rows st sockets db).
Proof.
  intros Hr. unfold device_rows. set (f := device_of st sockets (db_now db) db).
  assert (∀ cap d, f cap = Some d → dv_connector_id d = kp_connector_id cap) as Hf.
  { intros cap d. unfold f, device_of. destruct (connectors db !! _); simpl; [|done]. destruct (charge_points db !! _); simpl; [|done].
    by intros [= <-]. }
  assert (sort_by kp_connector_id (power_rows st db) ≡ₚ power_rows st db) as Hp by apply sort_by_perm. split.
  - intros d (cap & Hc & E)%list_elem_of_omap. rewrite (Hf _ _ E). rewrite Hp in Hc. unfold power_rows in Hc.
    apply list_elem_of_filter in Hc as [Hst (k & Hk)%elem_of_rows]. destruct (Hr _ _ Hk) as (H1 & H2 & _). congruence.
  - assert (NoDup (kp_connector_id <$> sort_by kp_connector_id (power_rows st db))) as Hnd.
    { rewrite Hp. unfold power_rows. apply NoDup_fmap_filter. unfold rows.
      assert (kp_connector_id <$> (map_to_list (connector_power db)).*2 = (map_to_list (connector_power db)).*1) as ->.
      { rewrite <- list_fmap_compose. apply list_fmap_ext. intros i [k cap] Hi. apply list_elem_of_lookup_2, elem_of_map_to_list in Hi.
        simpl. by apply (Hr k cap). }
      apply NoDup_fst_map_to_list. }
    revert Hnd. generalize (sort_by kp_connector_id (power_rows st db)). intros l Hnd. induction l as [|cap l IH]; [constructor|].
    rewrite fmap_cons in Hnd. apply NoDup_cons in Hnd as [Hni Hnd]. simpl. destruct (f cap) as [d|] eqn:E; [|by apply IH].
    rewrite fmap_cons. apply NoDup_cons. split; [|by apply IH]. rewrite (Hf _ _ E).
    intros (d' & Hd' & (cap' & Hc' & E')%list_elem_of_omap)%list_elem_of_fmap. apply Hni. rewrite Hd', (Hf _ _ E'). by apply list_elem_of_fmap_2.
Qed.

Lemma plan_devices k :
  (∀ l, of_station st l → NoDup (dv_connector_id <$> l) → plan_safe (owned st) (k l)) → plan_safe (owned st) (Run (devices st) k).
Proof.
  intros Hk s _ s1 sockets _ Hc. apply (safe_still _ _ (λ _, True)); [done|done|done|].
  intros r s2 db' _ Hc2 [= <- <-]. destruct (device_rows_ok sockets s2.1 (cv_rows _ Hc2)). by apply Hk.
Qed.
End script.

Lemma plan_reconcile st : plan_safe (owned st) (_reconcile fromisoformat uuid5 st).
Proof.
  apply plan_tx; [done|]. intros [[[[now g] limit] disabling]|]; [|done]. apply plan_devices. intros inputs Hi Hnd.
  destruct (bool_decide _); [by apply plan_give_up|]. apply plan_tx; [done|]. intros count. cbv zeta.
  destruct (negb (bool_decide (count = _))); [by apply plan_give_up|]. destruct (negb _).
  { apply plan_run; [|done]. intros s. apply safe_degrade_all. intros d [_ Hd]%list_elem_of_filter. by apply Hi. }
  destruct disabling; [by apply plan_disable|]. apply plan_baseline_all; [done|]. apply plan_devices. intros. by apply plan_allocate.
Qed.

(** ** Every run *)

Record world_ok (w : World) : Prop := mkWorldOk {
  wk_covered : covered (wo_state w);
  wk_jobs : ∀ st p, wo_jobs w !! st = Some p → job_safe (owned st) p (wo_state w)
}.

Lemma environment_touches C (s : State) db' : environment s.1 db' → touches C s (db', s.2).
Proof. intros [_ H]. split; [intros c _; apply H|]. exists []. rewrite app_nil_r. split; [done|]. set_solver. Qed.

Lemma environment_covered (s : State) db' : covered s → environment s.1 db' → covered (db', s.2).
Proof.
  intros [Hr Hl] [Hr' Hs]. split; [done|]. intros c w He. destruct (Hl _ _ He) as (cap & Hcap & Hw). specialize (Hs c). simpl in *.
  rewrite Hcap in Hs. destruct (connector_power db' !! c) as [cap'|]; [|done]. exists cap'. destruct Hs as [-> _]. done.
Qed.

Lemma environment_budget (s : State) db' : covered s → environment s.1 db' → within_budget s.1 db'.
Proof.
  intros [Hr _] [_ Hs] st. left. apply reserved_total_le. intros c. specialize (Hs c). unfold contribution.
  destruct (connector_power s.1 !! c) as [cap|], (connector_power db' !! c) as [cap'|]; simpl in Hs; try done.
  - destruct Hs as (-> & -> & _). done.
  - rewrite Hs. by case_decide.
Qed.

Lemma world_step w w' : world_ok w → sys_step w w' → world_ok w' ∧ within_budget (wo_state w).1 (wo_state w').1.
Proof.
  intros [Hc Hj] Hw. inversion Hw as [st s jobs Hn|st s s' p p' jobs Hp Hstep|st s jobs|s db' jobs He]; subst; simpl in *.
  - split; [|by left]. split; [done|]. simpl. intros st' p [[<- <-]|[_ Hp]]%lookup_insert_Some; [|by apply Hj].
    apply plan_job; [apply plan_reconcile|done].
  - destruct (job_step (owned st) p s s' p' (Hj _ _ Hp) Hc Hstep) as [(Hc' & Ht & Hb) Hj']. split; [|done]. split; [done|]. simpl.
    intros st' q [[<- <-]|[Hne Hq]]%lookup_insert_Some; [done|]. apply (job_stable _ q s s'); [by apply Hj|].
    eapply touches_weaken; [|done]. intros c H1 H2. unfold owned in *. congruence.
  - split; [|by left]. split; [done|]. simpl. intros st' p [_ Hp]%lookup_delete_Some. by apply Hj.
  - split; [|by eapply environment_budget]. split; simpl; [by apply environment_covered|].
    intros st p Hp. apply (job_stable _ p s); [by apply Hj|]. by apply environment_touches.
Qed.

Lemma world_run w w' : rtc sys_step w w' → world_ok w → world_ok w'.
Proof. induction 1 as [|x y z Hxy _ IH]; [done|]. intros Hx. apply IH. by eapply world_step. Qed.

(** C10. No watt is lent twice. Workers of any number of stations plan, are
    interleaved with each other and with the rest of the server at every
    transaction and exchange, may be cut off anywhere and start again, and
    chargers may answer anything or not at all. At every moment the limits the
    chargers of a station may be enforcing add up to no more than what the
    station has reserved, connector by connector; and no step raises what a
    station has reserved above the station's limit. *)
Theorem power_never_oversubscribed db w w' :
  rows_ok db → rtc sys_step (mkWorld (db, []) ∅) w → sys_step w w' →
  (∀ c v, enforced c (wo_state w').2 = Some v → ∃ cap, connector_power (wo_state w').1 !! c = Some cap ∧ v ≤ kp_reserved_w cap) ∧
  (∀ st, sumZ ((λ cap, default 0 (enforced (kp_connector_id cap) (wo_state w').2)) <$> power_rows st (wo_state w').1)
     ≤ total_reserved st (wo_state w').1) ∧
  (∀ st, total_reserved st (wo_state w').1 ≤ total_reserved st (wo_state w).1 ∨
     ∃ config, station_power (wo_state w').1 !! st = Some config ∧ total_reserved st (wo_state w').1 ≤ pw_limit_w config).
Proof.
  intros Hr Hrun Hstep. assert (world_ok w) as Hw by (apply (world_run _ _ Hrun); split; [by split|]; simpl; intros st p; by rewrite lookup_empty).
  destruct (world_step _ _ Hw Hstep) as [[[Hr' Hl'] _] Hb]. split; [done|]. split; [|done].
  intros st. apply sumZ_fmap_le. intros cap [_ (k & Hk)%elem_of_rows]%list_elem_of_filter. destruct (Hr' _ _ Hk) as (Hid & _ & H0).
  rewrite Hid. destruct (enforced k _) as [v|] eqn:E; [|done]. simpl. destruct (Hl' _ _ E) as (cap' & Hcap' & Hv).
  by replace cap with cap' by congruence.
Qed.
End system.

(** ** What the rest of the server does to reservations *)

Section environment.
Context (owner : Z → Z).
Local Abbreviation E db0 := (environment owner db0).

Lemma environment_refl db : rows_ok owner db → E db db.
Proof. intros H. split; [done|]. intros c. apply row_same_refl. Qed.

Lemma environment_same db0 db db' : E db0 db → connector_power db' = connector_power db → E db0 db'.
Proof. intros [H1 H2] Heq. split; [intros c cap; rewrite Heq; apply H1|intros c; rewrite Heq; apply H2]. Qed.

Lemma environment_row db0 k f :
  (∀ cap, row_same (Some cap) (Some (f cap))) → keeps (E db0) (update_connector_power k f).
Proof.
  intros Hf db [H1 H2]. simpl. split; simpl.
  - intros c cap. simpl. destruct (decide (c = k)) as [->|Hne].
    + rewrite lookup_alter_eq. intros (cap0 & H0 & ->)%fmap_Some. destruct (Hf cap0) as (-> & -> & ->). by apply H1.
    + rewrite lookup_alter_ne by done. apply H1.
  - intros c. eapply row_same_trans; [apply H2|]. simpl. destruct (decide (c = k)) as [->|Hne].
    + rewrite lookup_alter_eq. destruct (connector_power db !! k); [apply Hf|done].
    + rewrite lookup_alter_ne by done. apply row_same_refl.
Qed.

#[local] Hint Extern 2 (keeps (E _) (modify _)) => apply keeps_modify; intros; eapply environment_same; [eassumption|done] : csms_keeps.
#[local] Hint Extern 2 (keeps (E _) (update_power _ _)) => apply keeps_modify; intros; eapply environment_same; [eassumption|done] : csms_keeps.
#[local] Hint Extern 2 (keeps (E _) (ghi_nhat_ky _ _ _ _ _ _ _)) => apply keeps_audit; intros; eapply environment_same; [eassumption|done] : csms_keeps.
#[local] Hint Extern 2 (keeps (E _) (update_connector_power _ _)) => by apply environment_row : csms_keeps.

(** A new car, or any event at the station. *)
Lemma environment_start db0 st cn : keeps (E db0) (note_power_start st cn).
Proof. unfold note_power_start. keeps_steps. Qed.
Lemma environment_event db0 st : keeps (E db0) (note_power_event st).
Proof. unfold note_power_event. keeps_steps. Qed.

(** Switching control on or off. *)
Lemma environment_switch db0 st v en scope ev : keeps (E db0) (change_control st v en scope ev).
Proof. unfold change_control. keeps_steps. Qed.

Lemma environment_rate db0 st v : owner v.1 = st → keeps (E db0) (rate_connector st v).
Proof.
  intros Ho. unfold rate_connector. apply keeps_bind; [apply keeps_raise_if|]. intros _ db Hdb. rewrite bind_gets.
  destruct (connector_power db !! v.1) as [cap|] eqn:Hc; [by apply (environment_row db0 v.1 (set_kp_rated_w v.2))|].
  destruct Hdb as [H1 H2]. split; simpl.
  - intros c cap. simpl. intros [[<- <-]|[_ Hcap]]%lookup_insert_Some; [by rewrite <- Ho|by apply H1].
  - intros c. eapply row_same_trans; [apply H2|]. simpl. destruct (decide (c = v.1)) as [->|Hne].
    + by rewrite lookup_insert_eq, Hc.
    + rewrite lookup_insert_ne by done. apply row_same_refl.
Qed.

(** Saving settings for the station's own connectors. *)
Lemma environment_save st body scope ev db u db' :
  rows_ok owner db → (∀ r, r ∈ registered_connectors st db → owner (cn_id r.1) = st) →
  save_settings st body scope ev db = (inr u, db') → E db db'.
Proof.
  intros Hr Hreg H. unfold save_settings in H. rewrite bind_gets in H.
  apply bind_ok in H as (u1 & d1 & [_ ->]%raise_if_inr & H). apply bind_ok in H as (u2 & d2 & [_ ->]%raise_if_inr & H).
  rewrite bind_gets in H. apply bind_ok in H as (u3 & d3 & [Hids ->]%raise_if_inr & H).
  assert (∀ v, v ∈ se_connectors body → owner v.1 = st) as Hown.
  { intros v Hv. apply orb_false_iff in Hids as [_ Hids%negb_false_iff%bool_decide_eq_true].
    assert (v.1 ∈ (list_to_set (connector_ids (registered_connectors st db)) : gset Z)) as Hin.
    { rewrite <- Hids. apply elem_of_list_to_set. by apply list_elem_of_fmap_2. }
    apply elem_of_list_to_set, list_elem_of_fmap in Hin as (r & -> & Hin). by apply Hreg. }
  assert (∀ l, (∀ v, v ∈ l → owner v.1 = st) → keeps (E db) (for_each l (rate_connector st))) as Hfor.
  { induction l as [|v l IH]; intros Hl; [apply keeps_ret|]. cbn [for_each].
    apply keeps_bind; [apply environment_rate, Hl; set_solver|intros _; apply IH; set_solver]. }
  refine (keeps_run (E db) _ db _ _ _ (environment_refl _ Hr) H). specialize (Hfor _ Hown). keeps_steps.
Qed.
End environment.

(** ** Running a plan *)

Section exec.
Context (ask : State → Device → string → Payload → Net) (sockets : gmap Z bool).

Fixpoint exec_task {A} (t : Task A) (s : State) : (Exn + A) * State :=
  match t with
  | Done r => (r, s)
  | Atomic B m k => let '(r, db') := savepoint m s.1 in exec_task (k r) (db', s.2)
  | Exchange d action payload k =>
      let n := ask s d action payload in exec_task (k n) (s.1, s.2 ++ [mkItem d action payload n])
  | Sockets k => exec_task (k sockets) s
  end.

(** One group after the other. *)
Fixpoint exec_all {A} (ts : list (Task A)) (s : State) : list (Exn + A) * State :=
  match ts with
  | [] => ([], s)
  | t :: rest => let '(r, s1) := exec_task t s in let '(rs, s2) := exec_all rest s1 in (r :: rs, s2)
  end.

Fixpoint exec_plan (p : Plan) (s : State) : (Exn + ()) * State :=
  match p with
  | Finish r => (r, s)
  | Run t k => match exec_task t s with (inl e, s') => (inl e, s') | (inr b, s') => exec_plan (k b) s' end
  | Gather ts k => let '(rs, s') := exec_all ts s in exec_plan (k rs) s'
  end.

Lemma exec_task_steps {A} (t : Task A) s r s' :
  exec_task t s = (r, s') → rtc (λ x y, tstep x.1 x.2 y.1 y.2) (s, t) (s', Done r).
Proof.
  revert s. induction t as [r0|B m k IH|d a p k IH|k IH]; intros s; simpl.
  - intros [= <- <-]. apply rtc_refl.
  - destruct (savepoint m s.1) as [r1 db'] eqn:E. intros H%IH. eapply rtc_l; [|exact H]. simpl. by exists r1.
  - intros H%IH. eapply rtc_l; [|exact H]. simpl. by eexists.
  - intros H%IH. eapply rtc_l; [|exact H]. simpl. by eexists.
Qed.

Lemma exec_all_steps (ts : list (Task (option Device))) s rs s' pre k :
  exec_all ts s = (rs, s') →
  rtc (λ x y, pstep x.1 x.2 y.1 y.2) (s, Gather (pre ++ ts) k) (s', Gather (pre ++ (Done <$> rs)) k).
Proof.
  revert s rs pre. induction ts as [|t ts IH]; intros s rs pre; simpl; [intros [= <- <-]; apply rtc_refl|].
  destruct (exec_task t s) as [r s1] eqn:Et. destruct (exec_all ts s1) as [rs' s2] eqn:Es. intros [= <- <-].
  transitivity (s1, Gather (pre ++ Done r :: ts) k).
  - apply exec_task_steps in Et. clear IH Es.
    assert (∀ x y, rtc (λ x y, tstep x.1 x.2 y.1 y.2) x y →
      rtc (λ x y, pstep x.1 x.2 y.1 y.2) (x.1, Gather (pre ++ x.2 :: ts) k) (y.1, Gather (pre ++ y.2 :: ts) k)) as H; [|exact (H _ _ Et)].
    induction 1 as [|[x1 x2] [y1 y2] z Hxy _ IHz]; [apply rtc_refl|]. eapply rtc_l; [|exact IHz]. simpl. left. simpl in Hxy.
    exists (length pre), x2, y2. rewrite lookup_app_r, Nat.sub_diag by lia. split; [done|]. split; [done|].
    by rewrite insert_app_r_alt, Nat.sub_diag by lia.
  - specialize (IH s1 rs' (pre ++ [Done r]) Es). by rewrite <- !app_assoc in IH.
Qed.

Lemma exec_plan_steps p s r s' :
  exec_plan p s = (r, s') → rtc (λ x y, pstep x.1 x.2 y.1 y.2) (s, p) (s', Finish r).
Proof.
  revert s. induction p as [r0|B t k IH|ts k IH]; intros s; simpl; [intros [= <- <-]; apply rtc_refl|..].
  - destruct (exec_task t s) as [r1 s1] eqn:Et. intros H. apply exec_task_steps in Et.
    assert (∀ x y, rtc (λ x y, tstep x.1 x.2 y.1 y.2) x y →
      rtc (λ x y, pstep x.1 x.2 y.1 y.2) (x.1, Run x.2 k) (y.1, Run y.2 k)) as Hrun.
    { induction 1 as [|[x1 x2] [y1 y2] z Hxy _ IHz]; [apply rtc_refl|]. eapply rtc_l; [|exact IHz]. simpl. left. eauto. }
    etrans; [exact (Hrun _ _ Et)|].
    apply (rtc_l _ _ (s1, match r1 with inl e => Finish (inl e) | inr b => k b end)).
    + simpl. right. exists r1. split_and!; done.
    + destruct r1 as [e|b]; [injection H as <- <-; apply rtc_refl|by apply IH].
  - destruct (exec_all ts s) as [rs s1] eqn:Es. intros H. etrans; [exact (exec_all_steps ts s rs s1 [] k Es)|].
    eapply rtc_l; [|exact (IH rs s1 H)]. simpl. right. by exists rs.
Qed.
End exec.

(** ** A car gets its share *)

Section demo.
#[local] Existing Instance demo_deployment.

Definition demo_worker_db : Db :=
  set_charging_sessions {[ 7 := mkSession 7 40 41 (Some 2) "-tag" "Accepted" 0 None None 1 "explicit" None None None 0 None None
      None None None None None None [] 0 ]}
    (set_connectors {[ 41 := mkConnector 41 40 1 "Charging" (Some "Charging") None 0 None None None None None None ]}
      (set_connector_power {[ 41 := mkConnectorPower 41 30 11000 0 0 0 None None 5 ]}
        (set_station_power {[ 30 := set_pw_target_enabled true (set_pw_enabled true (new_power 30 22000)) ]} demo_power_db))).

(** A charger that does what it is told. *)
Definition last_limit (log : list Item) : Z := default 0 (last (omap (λ it, limit_of (it_payload it)) log)).
Definition obedient (s : State) (d : Device) (action : string) (payload : Payload) : Net :=
  if bool_decide (action = "GetConfiguration") then
    Reached 3 [("configurationKey", JList ((λ p, JObj [("key", JStr p.1); ("readonly", JBool true); ("value", JStr p.2)]) <$>
      [("SupportedFeatureProfiles", "Core,SmartCharging"); ("ChargingScheduleAllowedChargingRateUnit", "Current,Power");
       ("ChargeProfileMaxStackLevel", "8")]))] ""
  else if bool_decide (action = "GetCompositeSchedule") then
    Reached 3 [("status", JStr "Accepted"); ("connectorId", JInt (dv_number d)); ("scheduleStart", JStr "1970-01-01T00:00:00Z");
      ("chargingSchedule", JObj [("duration", JInt 60); ("chargingRateUnit", JStr "W");
         ("chargingSchedulePeriod", JList [JObj [("startPeriod", JInt 0); ("limit", JInt (last_limit s.2))]])])] ""
  else Reached 3 [("status", JStr "Accepted")] "".

Definition demo_iso (s : string) : option (Z * bool) := Some (0, true).
Definition demo_uuid5 (s : string) : Z := 1000000 + Z.of_nat (String.length s).
Definition demo_plan : (Exn + ()) * State :=
  exec_plan obedient {[ 40 := true ]} (_reconcile demo_iso demo_uuid5 30) (demo_worker_db, []).

(** The steps of a plan are steps of the system. *)
Lemma plan_in_system iso u5 owner st x y jobs :
  rtc (λ x y, pstep x.1 x.2 y.1 y.2) x y →
  rtc (sys_step iso u5 owner) (mkWorld x.1 (<[st := x.2]> jobs)) (mkWorld y.1 (<[st := y.2]> jobs)).
Proof.
  induction 1 as [|[s1 p1] [s2 p2] z Hxy _ IH]; [apply rtc_refl|]. eapply rtc_l; [|exact IH].
  simpl. rewrite <- (insert_insert_eq jobs st p2 p1). eapply sys_work; [apply lookup_insert_eq|exact Hxy].
Qed.

Definition demo_owner (c : Z) : Z := 30.
Definition demo_before : World := mkWorld demo_plan.2 {[ 30 := Finish (inr ()) ]}.
Definition demo_after : World := mkWorld demo_plan.2 (delete 30 {[ 30 := Finish (inr ()) ]}).

Lemma power_never_oversubscribed_witness :
  rtc (sys_step demo_iso demo_uuid5 demo_owner) (mkWorld (demo_worker_db, []) ∅) demo_before ∧
  enforced 41 (wo_state demo_after).2 = Some 11000 ∧
  sumZ ((λ cap, default 0 (enforced (kp_connector_id cap) (wo_state demo_after).2)) <$> power_rows 30 (wo_state demo_after).1)
    ≤ total_reserved 30 (wo_state demo_after).1.
Proof.
  assert (rows_ok demo_owner demo_worker_db) as Hr.
  { intros c cap Hc. change (connector_power demo_worker_db) with ({[ 41 := mkConnectorPower 41 30 11000 0 0 0 None None 5 ]} : gmap Z ConnectorPower) in Hc.
    apply lookup_singleton_Some in Hc as [<- <-]. repeat split. discriminate. }
  assert (rtc (sys_step demo_iso demo_uuid5 demo_owner) (mkWorld (demo_worker_db, []) ∅) demo_before) as Hrun.
  { eapply rtc_l; [apply (sys_start _ _ _ 30); reflexivity|].
    assert (exec_plan obedient {[ 40 := true ]} (_reconcile demo_iso demo_uuid5 30) (demo_worker_db, []) = (inr (), demo_plan.2)) as He
      by (unfold demo_plan; apply ran; vm_compute; reflexivity).
    apply exec_plan_steps in He. exact (plan_in_system demo_iso demo_uuid5 demo_owner 30 _ _ ∅ He). }
  assert (sys_step demo_iso demo_uuid5 demo_owner demo_before demo_after) as Hstep by (unfold demo_before, demo_after; apply sys_end).
  destruct (power_never_oversubscribed demo_iso demo_uuid5 demo_owner demo_worker_db demo_before demo_after Hr Hrun Hstep) as (_ & Hsum & _).
  split; [exact Hrun|]. split; [vm_compute; reflexivity|exact (Hsum 30)].
Defined.
End demo.
