(* ===== verification/Configuration.v ===== *)
(** * Configuration: changing a charger's settings

    Models [src/src/modules/ocpp/configuration.py]. A worker is a [Prog]:
    transactions, which may look at the socket registry, and calls to the
    charger, in the order of the code. The identifier a worker leaves on the row
    ([_processing_id]) is an argument, as the context variable is in the code.
    What a charger answers, and whether it is connected, is up to the
    environment. *)

From Stdlib Require Import Ascii.
From S2P Require Import Prelude Clock Text Store AuditTrail Wallet Pricing Eligibility Occupation Monitoring MeterUnits Metering PowerSchedule PowerControl Reservations Sessions Control PowerWorker.

Definition LIMITS (key : string) : option (Z * Z) :=
  if bool_decide (key = "HeartbeatInterval") then Some (30, 600)
  else if bool_decide (key = "MeterValueSampleInterval") then Some (5, 300) else None.

Definition ACTIVE : list string := ["queued"; "sending"; "accepted"; "reboot_required"; "resetting"].

Definition is_active (i : ConfigurationIntent) : bool := bool_decide (ci_state i ∈ ACTIVE).

(** The codes of the chargers with an admitted socket. *)
Abbreviation Registry := (string → bool).

Definition charger (identifier : Z) : Tx ChargePoint :=
  c ← gets (λ db, charge_points db !! identifier);
  row ← some_or c (HTTPException 404);
  s ← gets (λ db, stations db !! cp_station_id row);
  raise_if (bool_decide (is_Some (cp_archived_at row)) ||
            match s with Some st => bool_decide (is_Some (st_archived_at st)) | None => true end) (HTTPException 404);;
  mret row.

Definition connection_for (reg : Registry) (row : ChargePoint) : Tx bool :=
  now ← gets db_now;
  mret (reg (lower (strip (cp_code row))) &&
        match cp_last_seen_at row with
        | Some t => now - seconds (cp_heartbeat_interval_seconds row * 2) <=? t
        | None => false
        end).

Definition update_setting (id : Z) (f : ConfigurationIntent → ConfigurationIntent) : Tx () :=
  modify (λ db, set_configuration_intents (alter f id (configuration_intents db)) db).

Definition intent_result (actor_id point_id : Z) (action : string) (data : list (string * Json)) : Tx () :=
  ghi_nhat_ky (Some actor_id) action "charge_point" (uuid_str point_id) data None None;; mret ().

(** ** Requests of operators *)

Section requests.
Context (reg : Registry) (evidence : Evidence).

Definition submit (point_id identifier actor_id : Z) (key : string) (value : Z) : Tx ConfigurationIntent :=
  raise_if (match LIMITS key with Some (lo, hi) => negb ((lo <=? value) && (value <=? hi)) | None => true end)
    (HTTPException 422);;
  p ← gets (λ db, configuration_intents db !! identifier);
  match p with
  | Some previous =>
      raise_if (negb (bool_decide ((ci_charge_point_id previous, ci_actor_id previous, ci_key previous, ci_value previous)
                                   = (point_id, actor_id, key, value)))) (HTTPException 409);;
      mret previous
  | None =>
      used ← gets (λ db, select_where (λ i, bool_decide (ci_reset_id i = Some identifier)) (configuration_intents db));
      raise_if (bool_decide (is_Some used)) (HTTPException 409);;
      point ← charger point_id;
      waiting ← gets (λ db, select_where (λ i, (ci_charge_point_id i =? point_id) && is_active i) (configuration_intents db));
      raise_if (bool_decide (is_Some waiting)) (HTTPException 409);;
      conn ← connection_for reg point;
      raise_if (negb conn) (HTTPException 409);;
      now ← gets db_now;
      let row := mkIntent identifier point_id key value "queued" None None actor_id None None None None None now now now in
      modify (λ db, set_configuration_intents (<[identifier := row]> (configuration_intents db)) db);;
      ghi_nhat_ky (Some actor_id) "ocpp.configuration_requested" "charge_point" (uuid_str point_id)
        [("request_id", JStr (uuid_str identifier)); ("key", JStr key); ("new_value", JInt value)]
        (Some (ev_permission evidence)) (Some (ev_roles evidence));;
      mret row
  end.

Definition busy (point_id : Z) (db : Db) : bool :=
  bool_decide (is_Some (select_where (λ c, (cs_charge_point_id c =? point_id) && bool_decide (cs_ended_at c = None)) (charging_sessions db))) ||
  bool_decide (is_Some (select_where (λ s, (sr_charge_point_id s =? point_id) && bool_decide (sr_status s ∈ ["Pending"; "Accepted"]))
    (driver_start_requests db))) ||
  bool_decide (is_Some (select_where (λ c, (cn_charge_point_id c =? point_id) && bool_decide (cn_archived_at c = None) &&
    bool_decide (cn_raw_ocpp_status c ∈ [Some "Preparing"; Some "Charging"; Some "SuspendedEV"; Some "SuspendedEVSE"; Some "Finishing"]))
    (connectors db))).

Definition queue_reset (reset_id actor_id now : Z) (i : ConfigurationIntent) : ConfigurationIntent :=
  set_ci_next_attempt_at now (set_ci_updated_at now (set_ci_outcome (Some "ResetQueued") (set_ci_state "resetting"
    (set_ci_reset_actor_id (Some actor_id) (set_ci_processing_id None (set_ci_reset_id (Some reset_id) i)))))).

Definition request_reset (point_id identifier reset_id actor_id : Z) : Tx () :=
  point ← charger point_id;
  r ← gets (λ db, configuration_intents db !! identifier);
  row ← some_or r (HTTPException 404);
  raise_if (negb (ci_charge_point_id row =? point_id)) (HTTPException 404);;
  match ci_reset_id row with
  | Some previous =>
      raise_if (negb (previous =? reset_id) || negb (bool_decide (ci_reset_actor_id row = Some actor_id))) (HTTPException 409)
  | None =>
      raise_if (negb (bool_decide (ci_state row = "reboot_required"))) (HTTPException 409);;
      conn ← connection_for reg point;
      raise_if (negb conn) (HTTPException 409);;
      b ← gets (busy point_id);
      raise_if b (HTTPException 409);;
      used ← gets (λ db, select_where (λ i, bool_decide (ci_reset_id i = Some reset_id) || (ci_id i =? reset_id)) (configuration_intents db));
      raise_if (bool_decide (is_Some used)) (HTTPException 409);;
      now ← gets db_now;
      update_setting identifier (queue_reset reset_id actor_id now);;
      ghi_nhat_ky (Some actor_id) "ocpp.configuration_reset_requested" "charge_point" (uuid_str point_id)
        [("request_id", JStr (uuid_str identifier)); ("reset_id", JStr (uuid_str reset_id)); ("type", JStr "Soft")]
        (Some (ev_permission evidence)) (Some (ev_roles evidence));;
      mret ()
  end.
End requests.

(** ** Workers *)

(** A message to a charger; [None]: the identifier is drawn for the occasion. *)
Record Msg := mkMsg { mg_point : Z; mg_action : string; mg_payload : Payload; mg_message_id : option Z }.

Inductive Prog (A : Type) : Type :=
  | Stop (r : Exn + A)
  | Commit (B : Type) (m : Registry → Tx B) (k : B → Prog A)
  | Send (m : Msg) (k : Net → Prog A).
Arguments Stop {A} _.
Arguments Commit {A} _ _ _.
Arguments Send {A} _ _.

#[export] Instance Prog_ret : MRet Prog := λ A a, Stop (inr a).

Fixpoint prog_bind {A B} (p : Prog A) (f : A → Prog B) : Prog B :=
  match p with
  | Stop (inl e) => Stop (inl e)
  | Stop (inr a) => f a
  | Commit C m k => Commit C m (λ b, prog_bind (k b) f)
  | Send m k => Send m (λ n, prog_bind (k n) f)
  end.
#[export] Instance Prog_bind : MBind Prog := λ A B f p, prog_bind p f.

Definition commit {A} (m : Registry → Tx A) : Prog A := Commit A m (λ a, Stop (inr a)).

Definition too_long (e : ConfigurationKey) : bool :=
  bool_decide (is_Some (LIMITS (ck_key e))) && match ck_value e with Some v => 100 <? text_len v | None => false end.

Definition read_reply (n : Net) : string * option (list ConfigurationKey * list string) :=
  let r := configuration_call "GetConfiguration" n in
  if negb (bool_decide (r.1 = "Accepted")) then (r.1, None)
  else
    match configuration_reply r.2 with
    | Some parsed => if existsb too_long parsed.1 then ("ProtocolError", None) else (r.1, Some parsed)
    | None => ("ProtocolError", None)
    end.

Definition read (point : Z) (keys : list string) : Prog (string * option (list ConfigurationKey * list string)) :=
  Send (mkMsg point "GetConfiguration" [("key", JList (JStr <$> keys))] None) (λ n, mret (read_reply n)).

Definition entry_for (key : string) (parsed : list ConfigurationKey) : option ConfigurationKey :=
  head (filter (λ e, ck_key e = key) parsed).

Section worker.
Context (pid : Z).

Definition record_result (state outcome : string) (actual : option string) (now : Z) (i : ConfigurationIntent) :
    ConfigurationIntent :=
  let i := set_ci_next_attempt_at (now + seconds (if bool_decide (state = "accepted") then 40 else 10))
    (set_ci_updated_at now (set_ci_actual_value actual (set_ci_outcome (Some outcome) (set_ci_state state i)))) in
  if bool_decide (state = "verified") then set_ci_verified_at (Some now) i else i.

Definition finish (identifier : Z) (state outcome : string) (actual : option string) : Tx () :=
  r ← gets (λ db, configuration_intents db !! identifier);
  row ← some_or r AssertionError;
  if negb (bool_decide (ci_processing_id row = Some pid)) then mret ()
  else
    let changed := negb (bool_decide ((ci_state row, ci_outcome row, ci_actual_value row) = (state, Some outcome, actual))) in
    now ← gets db_now;
    update_setting identifier (record_result state outcome actual now);;
    when (bool_decide (state = "verified") && bool_decide (ci_key row = "HeartbeatInterval")) (
      p ← gets (λ db, charge_points db !! ci_charge_point_id row);
      raise_if (bool_decide (p = None)) AssertionError;;
      modify (λ db, set_charge_points (alter (set_cp_heartbeat_interval_seconds (ci_value row)) (ci_charge_point_id row)
        (charge_points db)) db));;
    when changed (
      intent_result (ci_actor_id row) (ci_charge_point_id row) "ocpp.configuration_result"
        [("request_id", JStr (uuid_str identifier)); ("key", JStr (ci_key row)); ("old_value", json_opt (ci_old_value row));
         ("new_value", JInt (ci_value row)); ("actual_value", json_opt actual); ("state", JStr state); ("result", JStr outcome)]).

Definition reset_was_requested (identifier : Z) : Tx bool :=
  gets (λ db, match configuration_intents db !! identifier with Some i => bool_decide (is_Some (ci_reset_id i)) | None => false end).

Definition finish_ (identifier : Z) (state outcome : string) (actual : option string) : Prog () :=
  commit (λ _, finish identifier state outcome actual).

(** [pending_reboot and await reset_was_requested(identifier)] *)
Definition awaiting_reset (pending_reboot : bool) (identifier : Z) : Prog bool :=
  if pending_reboot then commit (λ _, reset_was_requested identifier) else mret false.

Definition verify (identifier point : Z) (key : string) (value : Z) (pending_reboot : bool) : Prog () :=
  r ← read point [key];
  match r.2 with
  | None =>
      b ← awaiting_reset pending_reboot identifier;
      finish_ identifier (if (b : bool) then "resetting" else if bool_decide (r.1 = "ProtocolError") then "needs_review"
                          else if pending_reboot then "reboot_required" else "accepted") r.1 None
  | Some (parsed, unknown) =>
      match entry_for key parsed with
      | None =>
          b ← awaiting_reset pending_reboot identifier;
          finish_ identifier (if (b : bool) then "resetting" else "needs_review") "ReadbackUnsupported" None
      | Some entry =>
          if bool_decide (key ∈ unknown) || ck_readonly entry then
            b ← awaiting_reset pending_reboot identifier;
            finish_ identifier (if (b : bool) then "resetting" else "needs_review") "ReadbackUnsupported" (ck_value entry)
          else if bool_decide (ck_value entry = Some (str_int value)) then
            finish_ identifier "verified" "Verified" (ck_value entry)
          else
            b ← awaiting_reset pending_reboot identifier;
            finish_ identifier (if (b : bool) then "resetting" else if pending_reboot then "reboot_required" else "needs_review")
              "ReadbackMismatch" (ck_value entry)
      end
  end.

(** What the lease hands to the rest of the worker. *)
Record Lease := mkLease {
  ls_point : Z; ls_state : string; ls_key : string; ls_value : Z; ls_reset_queued : bool; ls_reset_id : option Z
}.

Definition abandon (row : ConfigurationIntent) (state outcome : string) (now : Z) : Tx (option Lease) :=
  update_setting (ci_id row) (λ i, set_ci_updated_at now (set_ci_outcome (Some outcome) (set_ci_state state i)));;
  intent_result (ci_actor_id row) (ci_charge_point_id row) "ocpp.configuration_result"
    [("request_id", JStr (uuid_str (ci_id row))); ("key", JStr (ci_key row)); ("new_value", JInt (ci_value row));
     ("state", JStr state); ("result", JStr outcome)];;
  mret None.

Definition is_reset_queued (i : ConfigurationIntent) : bool :=
  bool_decide (ci_state i = "resetting") && bool_decide (ci_outcome i ∈ [Some "ResetQueued"; Some "ChargingBlocked"]).

Definition take_lease (now : Z) (i : ConfigurationIntent) : ConfigurationIntent :=
  let i1 := set_ci_processing_id (Some pid) i in
  let i2 := if bool_decide (ci_state i = "queued") then set_ci_state "sending" i1 else i1 in
  let i3 := if is_reset_queued i then set_ci_outcome (Some "ResetSending") i2 else i2 in
  set_ci_next_attempt_at (now + seconds 120) i3.

Definition is_not_found (e : Exn) : bool := match e with HTTPException c => c =? 404 | _ => false end.

(** The first transaction: the lease, or a reason to leave the row alone. *)
Definition lease (identifier : Z) (reg : Registry) : Tx (option Lease) :=
  r ← gets (λ db, configuration_intents db !! identifier);
  now ← gets db_now;
  match r with
  | None => mret None
  | Some row =>
      if negb (is_active row) || (now <? ci_next_attempt_at row) then mret None
      else
        p ← try_except (c ← charger (ci_charge_point_id row); mret (Some c))
              (λ e, if is_not_found e then Some (mret None) else None);
        match p with
        | None => abandon row (if bool_decide (ci_state row = "queued") then "failed" else "needs_review") "Archived" now
        | Some point =>
            conn ← connection_for reg point;
            if negb conn then
              update_setting identifier (set_ci_next_attempt_at (now + seconds 10));;
              (if bool_decide (ci_state row = "queued") then abandon row "failed" "Offline" now else mret None)
            else
              update_setting identifier (take_lease now);;
              mret (Some (mkLease (cp_id point) (ci_state row) (ci_key row) (ci_value row) (is_reset_queued row) (ci_reset_id row)))
        end
  end.

(** The last look before the write: still ours, still to be sent. *)
Definition dispatch (identifier : Z) (key : string) (value : Z) (old : string) : Tx bool :=
  r ← gets (λ db, configuration_intents db !! identifier);
  stored ← some_or r AssertionError;
  if negb (bool_decide (ci_processing_id stored = Some pid)) || negb (bool_decide (ci_state stored = "sending")) then mret false
  else
    update_setting identifier (set_ci_old_value (Some old));;
    intent_result (ci_actor_id stored) (ci_charge_point_id stored) "ocpp.configuration_dispatch"
      [("request_id", JStr (uuid_str identifier)); ("key", JStr key); ("old_value", JStr old); ("new_value", JInt value)];;
    mret true.

Definition change_configuration (identifier point : Z) (key : string) (value : Z) (old : string) : Prog () :=
  Send (mkMsg point "ChangeConfiguration" [("key", JStr key); ("value", JStr (str_int value))] (Some identifier)) (λ n,
    let outcome := (configuration_call "ChangeConfiguration" n).1 in
    if bool_decide (outcome ∈ ["Rejected"; "NotSupported"; "ProtocolError"]) then finish_ identifier "failed" outcome None
    else if bool_decide (outcome = "RebootRequired") then finish_ identifier "reboot_required" outcome (Some old)
    else
      finish_ identifier "accepted" outcome (if bool_decide (outcome = "Accepted") then Some old else None);;
      verify identifier point key value false).

Definition write (identifier point : Z) (key : string) (value : Z) : Prog () :=
  r ← read point [key];
  match r.2 with
  | None => finish_ identifier "failed" r.1 None
  | Some (parsed, _) =>
      match entry_for key parsed with
      | Some entry =>
          match ck_readonly entry, ck_value entry with
          | false, Some old =>
              go ← commit (λ _, dispatch identifier key value old);
              if (go : bool) then change_configuration identifier point key value old else mret ()
          | _, _ => finish_ identifier "failed" "NotSupported" None
          end
      | None => finish_ identifier "failed" "NotSupported" None
      end
  end.

Definition reset (identifier point reset_id : Z) : Prog () :=
  blocked ← commit (λ _, gets (busy point));
  if (blocked : bool) then finish_ identifier "resetting" "ChargingBlocked" None
  else
    Send (mkMsg point "Reset" [("type", JStr "Soft")] (Some reset_id)) (λ n,
      let outcome := (configuration_call "Reset" n).1 in
      if bool_decide (outcome = "Accepted") then finish_ identifier "reboot_required" "ResetAccepted" None
      else if bool_decide (outcome ∈ ["Timeout"; "Disconnected"; "ProtocolError"; "RebootRequired"])
      then finish_ identifier "resetting" ("Reset" +:+ outcome) None
      else finish_ identifier "needs_review" ("Reset" +:+ outcome) None).

Definition _process (identifier : Z) : Prog () :=
  l ← commit (lease identifier);
  match l with
  | None => mret ()
  | Some l =>
      if bool_decide (ls_state l = "queued") then write identifier (ls_point l) (ls_key l) (ls_value l)
      else if ls_reset_queued l then
        match ls_reset_id l with
        | Some reset_id => reset identifier (ls_point l) reset_id
        | None => Stop (inl AssertionError)
        end
      else verify identifier (ls_point l) (ls_key l) (ls_value l) (bool_decide (ls_state l ∈ ["reboot_required"; "resetting"]))
  end.
End worker.

(** [_processing_id.set(uuid4())] *)
Definition process (identifier : Z) : Prog () :=
  pid ← commit (λ _, fresh_id);
  _process pid identifier.

(** The intents a cycle hands to its workers. *)
Definition cycle (db : Db) : list Z :=
  ci_id <$> firstn 20 (sort_by ci_created_at
    (filter (λ i, is_active i = true ∧ ci_next_attempt_at i ≤ db_now db) (rows (configuration_intents db)))).
