(* ===== verification/ConfigurationSpec.v ===== *)
(** * ConfigurationSpec: a setting is written at most once

    Workers take intents side by side, are interleaved with the operators'
    requests and the rest of the server at every transaction and every call,
    and may die anywhere. The right to send a write is a token that lives in the
    row, in a worker or, once used, in the log of the wire: a transaction moves
    tokens and never makes one. *)

From S2P Require Import Prelude Clock Text Store AuditTrail Wallet Pricing Eligibility Occupation Monitoring MeterUnits Metering PowerSchedule PowerControl Reservations Sessions Control PowerWorker Configuration.

(** ** The system *)

Record Job := mkJob { jb_intent : Z; jb_prog : Prog () }.

Record Fleet := mkFleet { fl_db : Db; fl_log : list (Msg * Net); fl_jobs : list Job }.

(** A transaction rolls back when it raises, and the coroutine ends. *)
Definition run_commit (reg : Registry) (p : Prog ()) (db : Db) : option (Prog () * Db) :=
  match p with
  | Commit B m k => Some match m reg db with (inr b, db') => (k b, db') | (inl e, _) => (Stop (inl e), db) end
  | _ => None
  end.

Definition run_send (p : Prog ()) (n : Net) : option (Msg * Prog ()) :=
  match p with Send m k => Some (m, k n) | _ => None end.

Definition points_keyed (db : Db) : Prop := ∀ k c, charge_points db !! k = Some c → cp_id c = k.

(** The rest of the server leaves the intents alone. *)
Definition elsewhere (db db' : Db) : Prop :=
  configuration_intents db' = configuration_intents db ∧ (points_keyed db → points_keyed db').

Inductive fleet_step : Fleet → Fleet → Prop :=
  | step_spawn id db log jobs : fleet_step (mkFleet db log jobs) (mkFleet db log (jobs ++ [mkJob id (process id)]))
  | step_commit reg id p p' db db' log l1 l2 : run_commit reg p db = Some (p', db') →
      fleet_step (mkFleet db log (l1 ++ mkJob id p :: l2)) (mkFleet db' log (l1 ++ mkJob id p' :: l2))
  | step_send n id p p' m db log l1 l2 : run_send p n = Some (m, p') →
      fleet_step (mkFleet db log (l1 ++ mkJob id p :: l2)) (mkFleet db (log ++ [(m, n)]) (l1 ++ mkJob id p' :: l2))
  | step_die j db log l1 l2 : fleet_step (mkFleet db log (l1 ++ j :: l2)) (mkFleet db log (l1 ++ l2))
  | step_submit reg ev point id actor key value r db db' log jobs :
      submit reg ev point id actor key value db = (inr r, db') → fleet_step (mkFleet db log jobs) (mkFleet db' log jobs)
  | step_reset reg ev point id rid actor r db db' log jobs :
      request_reset reg ev point id rid actor db = (inr r, db') → fleet_step (mkFleet db log jobs) (mkFleet db' log jobs)
  | step_else db db' log jobs : elsewhere db db' → fleet_step (mkFleet db log jobs) (mkFleet db' log jobs).

(** ** What the wire shows *)

Definition sent (action : string) (mid : Z) (log : list (Msg * Net)) : nat :=
  length (filter (λ e, mg_action e.1 = action ∧ mg_message_id e.1 = Some mid) log).

(** A readback that shows the wanted value, writable and known. *)
Definition confirms (key : string) (value : Z) (n : Net) : bool :=
  match (read_reply n).2 with
  | Some (parsed, unknown) =>
      match entry_for key parsed with
      | Some e => negb (bool_decide (key ∈ unknown) || ck_readonly e) && bool_decide (ck_value e = Some (str_int value))
      | None => false
      end
  | None => false
  end.

(** ** Tokens *)

Definition queued_ (o : option ConfigurationIntent) : nat :=
  match o with Some i => if bool_decide (ci_state i = "queued") then 1 else 0 | None => 1 end.
Definition reset_queued_ (i : ConfigurationIntent) : nat := if is_reset_queued i then 1 else 0.

(** What a worker holds and knows: the two tokens, the columns of its row that
    never change, its reset and whether it has read the wanted value. *)
Record Cap := mkCap {
  c_change : bool; c_reset : bool; c_facts : option (Z * string * Z); c_rid : option Z; c_read : bool
}.

Definition no_cap : Cap := mkCap false false None None false.

Definition columns (i : ConfigurationIntent) : Z * string * Z := (ci_charge_point_id i, ci_key i, ci_value i).

Record intents_ok (db : Db) : Prop := mkIntentsOk {
  io_id : ∀ k i, configuration_intents db !! k = Some i → ci_id i = k;
  io_reset : ∀ k k' i i' r, configuration_intents db !! k = Some i → configuration_intents db !! k' = Some i' →
    ci_reset_id i = Some r → ci_reset_id i' = Some r → k = k';
  io_points : points_keyed db
}.

Record knows (id : Z) (c : Cap) (db : Db) : Prop := mkKnows {
  kn_facts : ∀ f, c_facts c = Some f → ∃ i, configuration_intents db !! id = Some i ∧ columns i = f;
  kn_rid : ∀ r, c_rid c = Some r → ∃ i, configuration_intents db !! id = Some i ∧ ci_reset_id i = Some r;
  kn_reset : c_reset c = true → is_Some (c_rid c);
  kn_read : c_read c = true → is_Some (c_facts c)
}.

Definition b2n (b : bool) : nat := if b then 1 else 0.

(** A row from one moment to a later one. *)
Record row_step (i i' : ConfigurationIntent) : Prop := mkRowStep {
  rs_id : ci_id i' = ci_id i;
  rs_columns : columns i' = columns i;
  rs_reset : ci_reset_id i' = ci_reset_id i
}.

(** What a worker's transaction may do. *)
Record moves (id : Z) (c c' : Cap) (db db' : Db) : Prop := mkMoves {
  mv_others : ∀ j, j ≠ id → configuration_intents db' !! j = configuration_intents db !! j;
  mv_points : points_keyed db';
  mv_knows : knows id c' db';
  mv_row : match configuration_intents db !! id, configuration_intents db' !! id with
    | Some i, Some i' => row_step i i' ∧
        (queued_ (Some i') + b2n (c_change c') ≤ queued_ (Some i) + b2n (c_change c))%nat ∧
        (reset_queued_ i' + b2n (c_reset c') ≤ reset_queued_ i + b2n (c_reset c))%nat ∧
        (ci_state i' = "verified" → ci_state i = "verified" ∨ c_read c = true)
    | None, None => (b2n (c_change c') ≤ b2n (c_change c))%nat ∧ (b2n (c_reset c') ≤ b2n (c_reset c))%nat
    | _, _ => False
    end;
  mv_read : c_read c' = true → c_read c = true ∧ c_facts c' = c_facts c
}.

Definition may_send (id : Z) (c : Cap) (m : Msg) : Prop :=
  (mg_action m = "ChangeConfiguration" →
    c_change c = true ∧ mg_message_id m = Some id ∧ ∃ point key value, c_facts c = Some (point, key, value) ∧
      mg_point m = point ∧ mg_payload m = [("key", JStr key); ("value", JStr (str_int value))]) ∧
  (mg_action m = "Reset" →
    c_reset c = true ∧ mg_message_id m = c_rid c ∧ ∃ point key value, c_facts c = Some (point, key, value) ∧ mg_point m = point) ∧
  (mg_action m = "GetConfiguration" → mg_message_id m = None).

Definition reads (c : Cap) (m : Msg) (n : Net) : bool :=
  match c_facts c with
  | Some (point, key, value) =>
      bool_decide (mg_action m = "GetConfiguration" ∧ mg_point m = point) && confirms key value n
  | None => false
  end.

Definition after_send (c : Cap) (m : Msg) (n : Net) : Cap :=
  mkCap (c_change c && negb (bool_decide (mg_action m = "ChangeConfiguration")))
    (c_reset c && negb (bool_decide (mg_action m = "Reset"))) (c_facts c) (c_rid c) (c_read c || reads c m n).

Fixpoint permitted (id : Z) (p : Prog ()) (c : Cap) : Prop :=
  match p with
  | Stop _ => True
  | Commit B m k => ∀ reg db b db', intents_ok db → knows id c db → m reg db = (inr b, db') →
      ∃ c', moves id c c' db db' ∧ permitted id (k b) c'
  | Send m k => may_send id c m ∧ ∀ n, permitted id (k n) (after_send c m n)
  end.

(** ** The transactions *)

Definition frame_ (x : gmap Z ConfigurationIntent) (db : Db) : Prop := configuration_intents db = x ∧ points_keyed db.

Lemma keeps_intent_result x a p act data : keeps (frame_ x) (intent_result a p act data).
Proof. unfold intent_result. apply keeps_bind; [apply keeps_audit; intros ? ? [??]; by split|intros; apply keeps_ret]. Qed.

Lemma points_keyed_alter f k db :
  (∀ c, cp_id (f c) = cp_id c) → points_keyed db →
  points_keyed (set_charge_points (alter f k (charge_points db)) db).
Proof.
  intros Hf H j c. simpl. destruct (decide (k = j)) as [->|Hne].
  - rewrite lookup_alter_eq. destruct (charge_points db !! j) as [c0|] eqn:E; [|done]. intros [= <-]. rewrite Hf. by apply H.
  - rewrite lookup_alter_ne by done. apply H.
Qed.

(** A result is dropped when the row is no longer the worker's. *)
Lemma finish_effect pid id st oc act db u db' :
  points_keyed db → finish pid id st oc act db = (inr u, db') →
  db' = db ∨ ∃ i now, configuration_intents db !! id = Some i ∧ points_keyed db' ∧
    configuration_intents db' = alter (record_result st oc act now) id (configuration_intents db).
Proof.
  intros Hp H. unfold finish in H. rewrite bind_gets in H. apply bind_ok in H as (row & s1 & [Hr ->]%some_or_inr & H).
  destruct (negb _); [injection H as _ <-; by left|]. right. rewrite bind_gets in H.
  apply bind_ok in H as ([] & s2 & [= <-] & H). eexists row, (db_now db). split; [done|].
  enough (frame_ (alter (record_result st oc act (db_now db)) id (configuration_intents db)) db') as [? ?] by done.
  refine (keeps_run (frame_ _) _ _ _ _ _ _ H); [|by split].
  apply keeps_bind; [|intros _; apply keeps_when, keeps_intent_result]. apply keeps_when.
  apply keeps_bind; [auto with csms_keeps|intros c]. apply keeps_bind; [auto with csms_keeps|intros _].
  apply keeps_modify. intros s [Hx Hk]. split; [done|]. by apply points_keyed_alter.
Qed.

Lemma record_row_step st oc act now i : row_step i (record_result st oc act now i).
Proof. unfold record_result. case_bool_decide; by split. Qed.

Lemma record_state st oc act now i : ci_state (record_result st oc act now i) = st.
Proof. unfold record_result. by case_bool_decide. Qed.

Lemma queued_record st oc act now i : st ≠ "queued" → queued_ (Some (record_result st oc act now i)) = 0%nat.
Proof. intros H. unfold queued_. by rewrite record_state, bool_decide_eq_false_2. Qed.

Lemma reset_queued_record st oc act now i :
  reset_queued_ (record_result st oc act now i) =
  b2n (bool_decide (st = "resetting") && bool_decide (oc ∈ ["ResetQueued"; "ChargingBlocked"])).
Proof.
  unfold reset_queued_, is_reset_queued. rewrite record_state.
  assert (ci_outcome (record_result st oc act now i) = Some oc) as -> by (unfold record_result; by case_bool_decide).
  rewrite (bool_decide_ext (Some oc ∈ [Some "ResetQueued"; Some "ChargingBlocked"]) (oc ∈ ["ResetQueued"; "ChargingBlocked"])); [done|].
  rewrite !elem_of_cons, !elem_of_nil. naive_solver.
Qed.

(** Knowledge survives what never changes. *)
Lemma knows_step id c db db' :
  knows id c db →
  (∀ i, configuration_intents db !! id = Some i → ∃ i', configuration_intents db' !! id = Some i' ∧ row_step i i') →
  knows id c db'.
Proof.
  intros [Hf Hr H3 H4] Hs. split; [| |done|done].
  - intros f (i & Hi & <-)%Hf. destruct (Hs i Hi) as (i' & Hi' & [_ E _]). eauto.
  - intros r (i & Hi & E)%Hr. destruct (Hs i Hi) as (i' & Hi' & [_ _ E']). exists i'. split; [done|congruence].
Qed.

Lemma row_step_refl i : row_step i i.
Proof. done. Qed.

(** A transaction that leaves the intents alone. *)
Lemma moves_same id c db db' :
  knows id c db → points_keyed db' → configuration_intents db' = configuration_intents db → moves id c c db db'.
Proof.
  intros Hk Hp E. split; rewrite ?E; try done.
  - eapply knows_step; [done|]. rewrite E. eauto using row_step_refl.
  - destruct (_ !! id); [|done]. split_and!; [done|lia|lia|tauto].
Qed.

(** A transaction that rewrites the worker's row. *)
Lemma intent_moves_alter id c c' f i db db' :
  configuration_intents db !! id = Some i → configuration_intents db' = alter f id (configuration_intents db) →
  points_keyed db' → row_step i (f i) → (knows id c db → knows id c' db') → knows id c db →
  (queued_ (Some (f i)) + b2n (c_change c') ≤ queued_ (Some i) + b2n (c_change c))%nat →
  (reset_queued_ (f i) + b2n (c_reset c') ≤ reset_queued_ i + b2n (c_reset c))%nat →
  (ci_state (f i) = "verified" → ci_state i = "verified" ∨ c_read c = true) →
  (c_read c' = true → c_read c = true ∧ c_facts c' = c_facts c) → moves id c c' db db'.
Proof.
  intros Hi E Hp Hr Hk Hk0 H1 H2 H3 H4. split; try done.
  - intros j Hj. by rewrite E, lookup_alter_ne.
  - by apply Hk.
  - by rewrite E, lookup_alter_eq, Hi.
Qed.

Definition drop_reset (c : Cap) : Cap := mkCap (c_change c) false (c_facts c) (c_rid c) (c_read c).

Lemma knows_drop id c db : knows id c db → knows id (drop_reset c) db.
Proof. intros [H1 H2 H3 H4]. by split. Qed.

(** Recording a result gives a token back at most to the one who has it. *)
Lemma finish_moves pid id st oc act c db u db' :
  intents_ok db → knows id c db → finish pid id st oc act db = (inr u, db') →
  st ≠ "queued" → (st = "resetting" → oc ∈ ["ResetQueued"; "ChargingBlocked"] → c_reset c = true) →
  (st = "verified" → c_read c = true) →
  moves id c (drop_reset c) db db'.
Proof.
  intros [_ _ Hp] Hk H Hq Hr Hv. apply finish_effect in H as [->|(i & now & Hi & Hp' & E)]; [| |done].
  - assert (moves id c c db db) as [M1 M2 M3 M4 M5] by by apply moves_same. split; [done|done|by apply knows_drop| |done].
    destruct (configuration_intents db !! id); simpl; [|lia].
    split_and!; [done|lia|simpl in *; lia|tauto].
  - eapply intent_moves_alter; [exact Hi|exact E|done|apply record_row_step| |done|..].
    + intros _. apply knows_drop. eapply knows_step; [done|]. rewrite E, lookup_alter_eq, Hi. simpl.
      intros i0 [= <-]. eexists. split; [done|]. apply record_row_step.
    + rewrite queued_record by done. simpl. lia.
    + rewrite reset_queued_record. simpl. case_bool_decide; [|simpl; lia]. case_bool_decide; [|simpl; lia].
      rewrite Hr by done. simpl. lia.
    + rewrite record_state. auto.
    + done.
Qed.

Lemma pure_charger id : pure_tx (charger id).
Proof. unfold charger. auto 20 with csms. Qed.

Lemma pure_connection_for reg row : pure_tx (connection_for reg row).
Proof. unfold connection_for. auto with csms. Qed.
#[local] Hint Resolve pure_charger pure_connection_for : csms.

Lemma charger_ok id db c db' : charger id db = (inr c, db') → charge_points db !! id = Some c ∧ db' = db.
Proof.
  intros H. pose proof (pure_charger id db) as Hp. rewrite H in Hp. simpl in Hp. split; [|done].
  unfold charger in H. rewrite bind_gets in H. apply bind_ok in H as (row & s1 & [Hr ->]%some_or_inr & H).
  rewrite bind_gets in H. apply bind_ok in H as ([] & s2 & [_ ->]%raise_if_inr & H). by injection H as <-.
Qed.

Lemma abandon_effect row st oc now db r db' :
  points_keyed db → abandon row st oc now db = (inr r, db') →
  r = None ∧ points_keyed db' ∧ configuration_intents db' =
    alter (λ i, set_ci_updated_at now (set_ci_outcome (Some oc) (set_ci_state st i))) (ci_id row) (configuration_intents db).
Proof.
  intros Hp H. unfold abandon in H. apply bind_ok in H as ([] & s1 & [= <-] & H).
  apply bind_ok in H as ([] & s2 & Hres & H). injection H as <- <-. split; [done|].
  enough (frame_ (alter (λ i, set_ci_updated_at now (set_ci_outcome (Some oc) (set_ci_state st i))) (ci_id row) (configuration_intents db)) s2)
    as [? ?] by done.
  refine (keeps_run (frame_ _) _ _ _ _ _ _ Hres); [apply keeps_intent_result|by split].
Qed.

(** Rewriting a row to a state from which nothing is sent. *)
Lemma moves_quiet id c f i db db' :
  knows id c db → configuration_intents db !! id = Some i →
  configuration_intents db' = alter f id (configuration_intents db) → points_keyed db' → row_step i (f i) →
  (queued_ (Some (f i)) ≤ queued_ (Some i))%nat → (reset_queued_ (f i) ≤ reset_queued_ i)%nat →
  (ci_state (f i) = "verified" → ci_state i = "verified") → moves id c c db db'.
Proof.
  intros Hk Hi E Hp Hr H1 H2 H3. eapply intent_moves_alter; [exact Hi|exact E|done|done| |done|lia|lia|auto|done].
  intros _. eapply knows_step; [done|]. rewrite E, lookup_alter_eq, Hi. intros i0 [= <-]. simpl. eauto.
Qed.

(** What a lease hands over, and the tokens that come with it. *)
Definition lease_of (i : ConfigurationIntent) : Lease :=
  mkLease (ci_charge_point_id i) (ci_state i) (ci_key i) (ci_value i) (is_reset_queued i) (ci_reset_id i).

Definition lease_cap (i : ConfigurationIntent) : Cap :=
  mkCap (bool_decide (ci_state i = "queued")) (is_reset_queued i && bool_decide (is_Some (ci_reset_id i))) (Some (columns i))
    (ci_reset_id i) false.

Lemma take_lease_row pid now i : row_step i (take_lease pid now i).
Proof. unfold take_lease. case_bool_decide; destruct (is_reset_queued i); by split. Qed.

Lemma take_lease_tokens pid now i :
  queued_ (Some (take_lease pid now i)) = 0%nat ∧ reset_queued_ (take_lease pid now i) = 0%nat ∧
  (ci_state (take_lease pid now i) = "verified" → ci_state i = "verified").
Proof.
  unfold take_lease, queued_, reset_queued_. unfold is_reset_queued.
  destruct (bool_decide (ci_state i = "queued")) eqn:Hq, (bool_decide (ci_state i = "resetting")) eqn:Hr,
    (bool_decide (ci_outcome i ∈ [Some "ResetQueued"; Some "ChargingBlocked"])) eqn:Ho; simpl; rewrite ?Hq, ?Hr, ?Ho; done.
Qed.

Lemma lease_moves pid id reg db b db' :
  intents_ok db → lease pid id reg db = (inr b, db') →
  match b with
  | None => moves id no_cap no_cap db db'
  | Some l => ∃ i, l = lease_of i ∧ moves id no_cap (lease_cap i) db db'
  end.
Proof.
  intros [Hid _ Hp] H. assert (knows id no_cap db) as Hk by (split; done).
  unfold lease in H. rewrite !bind_gets in H.
  destruct (configuration_intents db !! id) as [row|] eqn:Hrow; [|injection H as <- <-; by apply moves_same].
  destruct (_ || _); [injection H as <- <-; by apply moves_same|].
  pose proof (Hid _ _ Hrow) as Hrid.
  assert (∀ f, configuration_intents db !! id = Some row → points_keyed (set_configuration_intents f db)) as Hset by done.
  apply bind_ok in H as (p & s1 & Hpt & H).
  assert (s1 = db ∧ ∀ c, p = Some c → charge_points db !! ci_charge_point_id row = Some c) as [-> Hc].
  { unfold try_except in Hpt. destruct (_ ≫= _) as [[e|a] s2] eqn:E.
    - apply bind_pure in E as [(e' & Hc & [= <-] & ->)|(c & Hc & E)]; [|done|auto with csms].
      destruct (is_not_found e); [by injection Hpt as <- <-|done].
    - apply bind_ok in E as (c & s3 & [Hc ->]%charger_ok & [= <- <-]). injection Hpt as <- <-. split; [done|]. by intros ? [= <-]. }
  destruct p as [point|].
  - apply bind_pure in H as [(? & _ & ? & _)|(conn & _ & H)]; [done| |auto with csms]. destruct conn; simpl in H.
    + apply bind_ok in H as ([] & s2 & [= <-] & H). injection H as <- <-. exists row.
      pose proof (Hp _ _ (Hc _ eq_refl)) as Hpid. unfold lease_of. rewrite Hpid. split; [done|].
      destruct (take_lease_tokens pid (db_now db) row) as (T1 & T2 & T3).
      eapply intent_moves_alter; [exact Hrow|done|done|apply take_lease_row| |done| | | |done].
      * intros _. split; simpl.
        -- intros f [= <-]. rewrite lookup_alter_eq, Hrow. eexists. split; [done|]. apply take_lease_row.
        -- intros r Hr. rewrite lookup_alter_eq, Hrow. eexists. split; [done|]. by rewrite (rs_reset _ _ (take_lease_row _ _ _)).
        -- rewrite andb_true_iff, bool_decide_eq_true. tauto.
        -- done.
      * rewrite T1. simpl. unfold queued_. by case_bool_decide.
      * rewrite T2. simpl. unfold reset_queued_, b2n. destruct (is_reset_queued row), (bool_decide (is_Some _)); simpl; lia.
      * auto.
    + apply bind_ok in H as ([] & s2 & [= <-] & H). case_bool_decide as Hq.
      * apply abandon_effect in H as (-> & Hp' & E); [|done]. simpl in E. rewrite Hrid, alter_alter_eq in E.
        eapply moves_quiet; [done|exact Hrow|exact E|done|done|apply Nat.le_0_l|apply Nat.le_0_l|done].
      * injection H as <- <-. eapply moves_quiet; [done|exact Hrow|reflexivity|done|done|done|done|done].
  - apply abandon_effect in H as (-> & Hp' & E); [|done]. rewrite Hrid in E.
    eapply moves_quiet; [done|exact Hrow|exact E|done|done| | |].
    + unfold queued_. simpl. destruct (bool_decide (ci_state row = "queued")); simpl; lia.
    + unfold reset_queued_, is_reset_queued. simpl. destruct (bool_decide (ci_state row = "queued")); simpl; lia.
    + simpl. by destruct (bool_decide (ci_state row = "queued")).
Qed.

Lemma dispatch_moves pid id key value old c db b db' :
  intents_ok db → knows id c db → dispatch pid id key value old db = (inr b, db') → moves id c c db db'.
Proof.
  intros [_ _ Hp] Hk H. unfold dispatch in H. rewrite bind_gets in H.
  apply bind_ok in H as (row & s1 & [Hr ->]%some_or_inr & H).
  destruct (_ || _); [injection H as _ <-; by apply moves_same|].
  apply bind_ok in H as ([] & s2 & [= <-] & H). apply bind_ok in H as ([] & s3 & Hres & H). injection H as _ <-.
  assert (frame_ (alter (set_ci_old_value (Some old)) id (configuration_intents db)) s3) as [E Hp'].
  { refine (keeps_run (frame_ _) _ _ _ _ _ _ Hres); [apply keeps_intent_result|by split]. }
  eapply moves_quiet; [done|exact Hr|exact E|done|done|done|done|done].
Qed.

(** ** The programs *)

Lemma permit_finish pid id st oc act k c :
  st ≠ "queued" → (st = "resetting" → oc ∈ ["ResetQueued"; "ChargingBlocked"] → c_reset c = true) →
  (st = "verified" → c_read c = true) → permitted id (k ()) (drop_reset c) →
  permitted id (finish_ pid id st oc act ≫= k) c.
Proof.
  intros Hq Hr Hv Hk reg db [] db' Hok Hkn H. exists (drop_reset c). split; [|exact Hk]. by eapply finish_moves.
Qed.

Lemma permit_finish_last pid id st oc act c :
  st ≠ "queued" → (st = "resetting" → oc ∈ ["ResetQueued"; "ChargingBlocked"] → c_reset c = true) →
  (st = "verified" → c_read c = true) → permitted id (finish_ pid id st oc act) c.
Proof.
  intros Hq Hr Hv reg db [] db' Hok Hkn H. exists (drop_reset c). split; [|exact I]. by eapply finish_moves.
Qed.

Lemma permit_awaiting pend id k c : (∀ b, permitted id (k b) c) → permitted id (awaiting_reset pend id ≫= k) c.
Proof.
  intros Hk. unfold awaiting_reset. destruct pend; [|apply Hk].
  intros reg db b db' [_ _ Hp] Hkn [= _ <-]. exists c. split; [by apply moves_same|apply Hk].
Qed.

(** A literal is not in a list of other literals. *)
Ltac not_listed :=
  let H := fresh in intros H; repeat (apply elem_of_cons in H as [H|H]; [discriminate H|]); by apply elem_of_nil in H.

Lemma get_outcome n : (configuration_call "GetConfiguration" n).1 ∉ ["ResetQueued"; "ChargingBlocked"].
Proof.
  unfold configuration_call. destruct n as [|kind p e| |]; try not_listed.
  destruct (negb _); [case_bool_decide; not_listed|]. rewrite bool_decide_eq_true_2 by done.
  destruct (configuration_reply p) as [[ks us]|]; [|not_listed]. destruct (_ || _); not_listed.
Qed.

Lemma read_outcome n : (read_reply n).1 ∉ ["ResetQueued"; "ChargingBlocked"].
Proof.
  unfold read_reply. pose proof (get_outcome n) as Ho. destruct (configuration_call _ n) as [oc p]; cbn [fst snd] in *.
  destruct (negb _); [done|]. destruct (configuration_reply p); [|not_listed]. destruct (existsb _ _); [not_listed|done].
Qed.

Lemma may_read id c point key : may_send id c (mkMsg point "GetConfiguration" [("key", JList (JStr <$> [key]))] None).
Proof. by split_and!. Qed.

Lemma permit_read id point key k c :
  (∀ n, permitted id (k (read_reply n)) (after_send c (mkMsg point "GetConfiguration" [("key", JList (JStr <$> [key]))] None) n)) →
  permitted id (read point [key] ≫= k) c.
Proof. intros Hk. split; [apply may_read|exact Hk]. Qed.

Lemma verify_permitted pid id point key value pend c :
  c_facts c = Some (point, key, value) → permitted id (verify pid id point key value pend) c.
Proof.
  intros Hf. unfold verify. apply permit_read. intros n. set (c1 := after_send c _ n).
  pose proof (read_outcome n) as Ho.
  destruct (read_reply n) as [oc [[parsed unknown]|]] eqn:Er; cbn [fst snd] in *.
  - destruct (entry_for key parsed) as [e|] eqn:Ee.
    + destruct (bool_decide (key ∈ unknown) || ck_readonly e) eqn:Eu.
      { apply permit_awaiting. intros b. apply permit_finish_last; destruct b; try done; intros _; not_listed. }
      destruct (bool_decide (ck_value e = Some (str_int value))) eqn:Hv.
      * apply permit_finish_last; try done. intros _. unfold c1, after_send, reads. cbn [c_read]. rewrite Hf. cbn [mg_action mg_point].
        rewrite bool_decide_eq_true_2 by done. unfold confirms. rewrite Er. cbn [snd]. rewrite Ee, Eu, Hv. apply orb_true_r.
      * apply permit_awaiting. intros b. apply permit_finish_last; destruct b, pend; try done; intros _; not_listed.
    + apply permit_awaiting. intros b. apply permit_finish_last; destruct b; try done; intros _; not_listed.
  - apply permit_awaiting. intros b. apply permit_finish_last; destruct b, pend; try case_bool_decide; done.
Qed.

Lemma after_send_facts c m n : c_facts (after_send c m n) = c_facts c.
Proof. done. Qed.

Lemma change_permitted pid id point key value old c :
  c_facts c = Some (point, key, value) → c_change c = true →
  permitted id (change_configuration pid id point key value old) c.
Proof.
  intros Hf Hc. unfold change_configuration. split.
  { split_and!; try done. intros _. split_and!; [done|done|]. by exists point, key, value. }
  intros n. destruct (configuration_call _ n) as [oc p]; cbn [fst].
  case_bool_decide; [by apply permit_finish_last|]. case_bool_decide; [by apply permit_finish_last|].
  apply permit_finish; try done. by apply verify_permitted.
Qed.

Lemma write_permitted pid id point key value c :
  c_facts c = Some (point, key, value) → c_change c = true → permitted id (write pid id point key value) c.
Proof.
  intros Hf Hc. unfold write. apply permit_read. intros n. set (c1 := after_send c _ n).
  assert (c_change c1 = true) as Hc1 by (unfold c1, after_send; simpl; by rewrite Hc).
  destruct (read_reply n) as [oc [[parsed unknown]|]]; cbn [fst snd]; [|by apply permit_finish_last].
  destruct (entry_for key parsed) as [e|]; [|by apply permit_finish_last].
  destruct (ck_readonly e), (ck_value e) as [old|]; try by apply permit_finish_last.
  intros reg db b db' Hok Hk H. exists c1. split; [by eapply dispatch_moves|].
  destruct b; [by apply change_permitted|exact I].
Qed.

Lemma reset_permitted pid id point key value rid c :
  c_facts c = Some (point, key, value) → c_reset c = true → c_rid c = Some rid → permitted id (reset pid id point rid) c.
Proof.
  intros Hf Hr Hrid. unfold reset. intros reg db b db' [_ _ Hp] Hk [= _ <-]. exists c. split; [by apply moves_same|].
  destruct b; [by apply permit_finish_last|]. split.
  { split_and!; try done. intros _. split_and!; [done|by rewrite Hrid|]. by exists point, key, value. }
  intros n. destruct (configuration_call _ n) as [oc p]; cbn [fst].
  case_bool_decide; [by apply permit_finish_last|]. case_bool_decide as Ho; [|by apply permit_finish_last].
  apply permit_finish_last; try done. intros _.
  repeat (apply elem_of_cons in Ho as [->|Ho]; [not_listed|]). by apply elem_of_nil in Ho.
Qed.

(** A worker starts with nothing and stays within what it is given. *)
Lemma process_permitted id : permitted id (process id) no_cap.
Proof.
  intros reg db pid db' [_ _ Hp] Hk [= _ <-]. exists no_cap. split; [by apply moves_same|].
  intros reg1 db1 l db2 Hok Hk1 Hl. pose proof (lease_moves _ _ _ _ _ _ Hok Hl) as Hm.
  destruct l as [l|]; [|exists no_cap; by split]. destruct Hm as (i & -> & Hm). exists (lease_cap i). split; [done|].
  cbn [Prog_bind prog_bind]. cbn [ls_state ls_point ls_key ls_value ls_reset_queued ls_reset_id lease_of].
  case_bool_decide as Hq.
  { apply write_permitted; [done|]. unfold lease_cap. simpl. by apply bool_decide_eq_true. }
  destruct (is_reset_queued i) eqn:Hr; [|by apply verify_permitted].
  destruct (ci_reset_id i) as [rid|] eqn:Hrid; [|exact I].
  eapply reset_permitted; [done| |done]. unfold lease_cap. simpl. by rewrite Hr, Hrid.
Qed.

(** ** The invariant *)

(** A charger was asked and answered with the wanted value. *)
Definition seen (f : Z * string * Z) (log : list (Msg * Net)) : Prop :=
  let '(point, key, value) := f in
  ∃ m n, (m, n) ∈ log ∧ mg_action m = "GetConfiguration" ∧ mg_point m = point ∧ confirms key value n = true.

(** Every write on the wire is the one the operators asked for. *)
Definition asked (db : Db) (m : Msg) : Prop :=
  (mg_action m = "ChangeConfiguration" → ∃ id i, mg_message_id m = Some id ∧ configuration_intents db !! id = Some i ∧
     mg_point m = ci_charge_point_id i ∧ mg_payload m = [("key", JStr (ci_key i)); ("value", JStr (str_int (ci_value i)))]) ∧
  (mg_action m = "Reset" → ∃ id i, configuration_intents db !! id = Some i ∧ mg_message_id m = ci_reset_id i ∧
     is_Some (ci_reset_id i) ∧ mg_point m = ci_charge_point_id i).

Definition held (f : Cap → bool) (id : Z) (gj : list (Job * Cap)) : nat :=
  sum_list ((λ x, if decide (jb_intent x.1 = id) then b2n (f x.2) else 0%nat) <$> gj).

Definition job_ok (db : Db) (log : list (Msg * Net)) (x : Job * Cap) : Prop :=
  permitted (jb_intent x.1) (jb_prog x.1) x.2 ∧ knows (jb_intent x.1) x.2 db ∧
  (c_read x.2 = true → ∃ f, c_facts x.2 = Some f ∧ seen f log).

Record tokens (start : Db) (db : Db) (log : list (Msg * Net)) (gj : list (Job * Cap)) : Prop := mkTokens {
  tk_ok : intents_ok db;
  tk_jobs : Forall (job_ok db log) gj;
  tk_change : ∀ id, (sent "ChangeConfiguration" id log + held c_change id gj + queued_ (configuration_intents db !! id) ≤ 1)%nat;
  tk_reset : ∀ id i r, configuration_intents db !! id = Some i → ci_reset_id i = Some r →
    (sent "Reset" r log + held c_reset id gj + reset_queued_ i ≤ 1)%nat;
  tk_asked : ∀ m n, (m, n) ∈ log → asked db m;
  tk_verified : ∀ id i, configuration_intents db !! id = Some i → ci_state i = "verified" →
    (∃ i0, configuration_intents start !! id = Some i0 ∧ ci_state i0 = "verified") ∨ seen (columns i) log
}.

Definition sound (start : Db) (s : Fleet) : Prop :=
  ∃ gj, gj.*1 = fl_jobs s ∧ tokens start (fl_db s) (fl_log s) gj.

Lemma held_cons f id x g :
  held f id (x :: g) = ((if decide (jb_intent x.1 = id) then b2n (f x.2) else 0) + held f id g)%nat.
Proof. done. Qed.

Lemma held_app f id g1 g2 : held f id (g1 ++ g2) = (held f id g1 + held f id g2)%nat.
Proof. induction g1 as [|x g1 IH]; [done|]. rewrite <- app_comm_cons, !held_cons, IH. lia. Qed.

Lemma sent_snoc a id log m n :
  sent a id (log ++ [(m, n)]) =
  (sent a id log + (if decide (mg_action m = a ∧ mg_message_id m = Some id) then 1 else 0))%nat.
Proof. unfold sent. rewrite filter_app, length_app, filter_cons. simpl. by case_decide. Qed.

Lemma sent_pos a id log : (0 < sent a id log)%nat → ∃ m n, (m, n) ∈ log ∧ mg_action m = a ∧ mg_message_id m = Some id.
Proof.
  unfold sent. intros H. destruct (filter _ log) as [|[m n] l] eqn:E; simpl in H; [lia|].
  assert ((m, n) ∈ filter (λ e : Msg * Net, mg_action e.1 = a ∧ mg_message_id e.1 = Some id) log) as Hin by (rewrite E; set_solver).
  apply list_elem_of_filter in Hin as [[??]?]. eauto 10.
Qed.

(** What a later database still says. *)
Definition later (db db' : Db) : Prop :=
  ∀ k i, configuration_intents db !! k = Some i → ∃ i', configuration_intents db' !! k = Some i' ∧ columns i' = columns i ∧
    ∀ r, ci_reset_id i = Some r → ci_reset_id i' = Some r.

Lemma knows_later id c db db' : later db db' → knows id c db → knows id c db'.
Proof.
  intros Hl [Hf Hr H3 H4]. split; [| |done|done].
  - intros f (i & Hi & <-)%Hf. destruct (Hl _ _ Hi) as (i' & Hi' & E & _). eauto.
  - intros r (i & Hi & E)%Hr. destruct (Hl _ _ Hi) as (i' & Hi' & _ & Hr'). eauto.
Qed.

Lemma asked_later db db' m : later db db' → asked db m → asked db' m.
Proof.
  intros Hl [Hc Hr]. split.
  - intros (id & i & Hm & Hi & Hp & Hy)%Hc. destruct (Hl _ _ Hi) as (i' & Hi' & [= E1 E2 E3] & _).
    exists id, i'. rewrite E1, E2, E3. done.
  - intros (id & i & Hi & Hm & [r E] & Hp)%Hr. destruct (Hl _ _ Hi) as (i' & Hi' & [= E1 _ _] & Hr').
    exists id, i'. rewrite E1, (Hr' r E), Hm, E. eauto.
Qed.

Lemma seen_app f log log' : seen f log → seen f (log ++ log').
Proof. destruct f as [[p k] v]. intros (m & n & Hin & ?). exists m, n. set_solver. Qed.

Lemma job_later db db' log x : later db db' → job_ok db log x → job_ok db' log x.
Proof. intros Hl (H1 & H2 & H3). split_and!; [done|by eapply knows_later|done]. Qed.

(** A worker's transaction, as the others see it. *)
Lemma moves_later id c c' db db' : moves id c c' db db' → later db db'.
Proof.
  intros [Ho _ _ Hr _] k i Hk. destruct (decide (k = id)) as [->|Hne].
  - rewrite Hk in Hr. destruct (configuration_intents db' !! id) as [i'|]; [|done]. destruct Hr as ([_ E1 E2] & _).
    exists i'. split_and!; [done|done|]. intros r. by rewrite E2.
  - exists i. by rewrite Ho.
Qed.

Lemma moves_before id c c' db db' k i' :
  moves id c c' db db' → configuration_intents db' !! k = Some i' →
  ∃ i, configuration_intents db !! k = Some i ∧ row_step i i'.
Proof.
  intros [Ho _ _ Hr _] Hk. destruct (decide (k = id)) as [->|Hne].
  - rewrite Hk in Hr. destruct (configuration_intents db !! id) as [i|]; [|done]. destruct Hr as (? & _). eauto.
  - rewrite Ho in Hk by done. exists i'. split; [done|apply row_step_refl].
Qed.

Lemma moves_ok id c c' db db' : intents_ok db → moves id c c' db db' → intents_ok db'.
Proof.
  intros [H1 H2 _] Hm. split; [| |by apply (mv_points _ _ _ _ _ Hm)].
  - intros k i' (i & Hi & [-> _ _])%(moves_before _ _ _ _ _ _ _ Hm). by apply H1.
  - intros k k' i i' r (j & Hj & [_ _ ->])%(moves_before _ _ _ _ _ _ _ Hm) (j' & Hj' & [_ _ ->])%(moves_before _ _ _ _ _ _ _ Hm).
    by apply H2.
Qed.

(** ** Every step keeps it *)

Lemma tokens_spawn start db log gj id :
  tokens start db log gj → tokens start db log (gj ++ [(mkJob id (process id), no_cap)]).
Proof.
  intros [H1 H2 H3 H4 H5 H6]. split; try done.
  - apply Forall_app. split; [done|]. constructor; [|constructor]. split_and!; [apply process_permitted|by split|done].
  - intros k. rewrite held_app, held_cons. simpl. destruct (decide _); specialize (H3 k); simpl; unfold held at 2; simpl; lia.
  - intros k i r Hi Hr. rewrite held_app, held_cons. simpl. destruct (decide _); specialize (H4 k i r Hi Hr); simpl; unfold held at 2; simpl; lia.
Qed.

Lemma tokens_die start db log g1 x g2 : tokens start db log (g1 ++ x :: g2) → tokens start db log (g1 ++ g2).
Proof.
  intros [H1 H2 H3 H4 H5 H6]. split; try done.
  - apply Forall_app in H2 as [? H2]. apply Forall_cons in H2 as [_ ?]. by apply Forall_app.
  - intros k. specialize (H3 k). rewrite held_app, held_cons in H3. rewrite held_app. lia.
  - intros k i r Hi Hr. specialize (H4 k i r Hi Hr). rewrite held_app, held_cons in H4. rewrite held_app. lia.
Qed.

(** A worker moves on without writing. *)
Lemma tokens_stop start db log g1 j c g2 e :
  tokens start db log (g1 ++ (j, c) :: g2) → tokens start db log (g1 ++ (mkJob (jb_intent j) (Stop (inl e)), c) :: g2).
Proof.
  intros [H1 H2 H3 H4 H5 H6]. split; try done.
  - apply Forall_app in H2 as [? H2]. apply Forall_cons in H2 as [(_ & ? & ?) ?]. apply Forall_app. split; [done|].
    by constructor.
  - intros k. specialize (H3 k). rewrite held_app, held_cons in *. done.
  - intros k i r Hi Hr. specialize (H4 k i r Hi Hr). rewrite held_app, held_cons in *. done.
Qed.

Lemma tokens_commit start db db' log g1 j c c' g2 p' :
  tokens start db log (g1 ++ (j, c) :: g2) → moves (jb_intent j) c c' db db' → permitted (jb_intent j) p' c' →
  tokens start db' log (g1 ++ (mkJob (jb_intent j) p', c') :: g2).
Proof.
  intros [H1 H2 H3 H4 H5 H6] Hm Hp'. pose proof (moves_later _ _ _ _ _ Hm) as Hl.
  apply Forall_app in H2 as [Hg1 H2]. apply Forall_cons in H2 as [(_ & Hkn & Hrd) Hg2]. simpl in *.
  pose proof (mv_row _ _ _ _ _ Hm) as Hrow. split.
  - by eapply moves_ok.
  - apply Forall_app. split; [eapply Forall_impl; [exact Hg1|]; intros x; by apply job_later|]. constructor.
    + split_and!; simpl; [done|apply (mv_knows _ _ _ _ _ Hm)|]. intros Hr. destruct (mv_read _ _ _ _ _ Hm Hr) as [Hr' ->]. auto.
    + eapply Forall_impl; [exact Hg2|]. intros x. by apply job_later.
  - intros k. specialize (H3 k). rewrite held_app, held_cons in *. cbn [fst snd jb_intent] in *.
    destruct (decide (jb_intent j = k)) as [<-|Hne]; [|by rewrite (mv_others _ _ _ _ _ Hm)].
    destruct (configuration_intents db !! jb_intent j), (configuration_intents db' !! jb_intent j); simpl in *; lia || done.
  - intros k i' r Hi' Hr. destruct (moves_before _ _ _ _ _ _ _ Hm Hi') as (i & Hi & [_ _ Er]). rewrite Er in Hr.
    specialize (H4 k i r Hi Hr). rewrite held_app, held_cons in *. cbn [fst snd jb_intent] in *.
    destruct (decide (jb_intent j = k)) as [<-|Hne].
    + rewrite Hi, Hi' in Hrow. lia.
    + rewrite (mv_others _ _ _ _ _ Hm) in Hi' by done. rewrite Hi in Hi'. injection Hi' as <-. lia.
  - intros m n Hin. eapply asked_later; [exact Hl|]. by eapply H5.
  - intros k i' Hi' Hv. destruct (moves_before _ _ _ _ _ _ _ Hm Hi') as (i & Hi & [_ Ec _]).
    destruct (decide (k = jb_intent j)) as [->|Hne].
    + rewrite Hi, Hi' in Hrow. destruct Hrow as (_ & _ & _ & Hv'). destruct (Hv' Hv) as [Hv0|Hr].
      * rewrite Ec. by eapply H6.
      * right. destruct (Hrd Hr) as (f & Hf & Hs). destruct (kn_facts _ _ _ Hkn f Hf) as (i0 & Hi0 & <-). congruence.
    + rewrite (mv_others _ _ _ _ _ Hm) in Hi' by done. by eapply H6.
Qed.

Lemma tokens_send start db log g1 j c g2 m n p' :
  tokens start db log (g1 ++ (j, c) :: g2) → may_send (jb_intent j) c m → permitted (jb_intent j) p' (after_send c m n) →
  tokens start db (log ++ [(m, n)]) (g1 ++ (mkJob (jb_intent j) p', after_send c m n) :: g2).
Proof.
  intros [H1 H2 H3 H4 H5 H6] (Mc & Mr & Mg) Hp'.
  apply Forall_app in H2 as [Hg1 H2]. apply Forall_cons in H2 as [(_ & [Kf Kr Kt Kd] & Hrd) Hg2]. simpl in *.
  assert (∀ x, job_ok db log x → job_ok db (log ++ [(m, n)]) x) as Hjob.
  { intros x (A & B & C). split_and!; [done|done|]. intros (f & Hf & Hs)%C. eauto using seen_app. }
  split; [done| | | | |].
  - apply Forall_app. split; [by eapply Forall_impl|]. constructor; [|by eapply Forall_impl].
    split_and!; simpl; [done| |].
    + split; simpl; [done|done|intros [? _]%andb_true_iff; auto|]. intros [Hr|Hr]%orb_true_iff; [auto|].
      unfold reads in Hr. destruct (c_facts c); [eauto|done].
    + intros [Hr|Hr]%orb_true_iff; [destruct (Hrd Hr) as (f & ? & ?); eauto using seen_app|].
      unfold reads in Hr. destruct (c_facts c) as [[[pt ky] v]|]; [|done]. apply andb_true_iff in Hr as [[Ha Hp]%bool_decide_eq_true Hc].
      eexists. split; [done|]. exists m, n. set_solver.
  - intros k. specialize (H3 k). rewrite sent_snoc. rewrite held_app, held_cons in *. cbn [fst snd jb_intent after_send c_change] in *.
    destruct (decide (mg_action m = "ChangeConfiguration" ∧ mg_message_id m = Some k)) as [[Ha Hk]|Hno].
    + destruct (Mc Ha) as (Hc & Hid & _). rewrite Hid in Hk. injection Hk as <-.
      rewrite decide_True in * by done. rewrite Hc, Ha in *. simpl in *. lia.
    + destruct (decide (jb_intent j = k)); [|lia]. destruct (c_change c); simpl in *; [case_bool_decide; simpl; lia|lia].
  - intros k i r Hi Hr. specialize (H4 k i r Hi Hr). rewrite sent_snoc. rewrite held_app, held_cons in *.
    cbn [fst snd jb_intent after_send c_reset] in *.
    destruct (decide (mg_action m = "Reset" ∧ mg_message_id m = Some r)) as [[Ha Hk]|Hno].
    + destruct (Mr Ha) as (Hc & Hid & _). rewrite Hid in Hk. destruct (Kr r Hk) as (i' & Hi' & Hr').
      pose proof (io_reset _ H1 _ _ _ _ _ Hi' Hi Hr' Hr) as E. rewrite decide_True in * by done. rewrite Hc, Ha in *. simpl in *. lia.
    + destruct (decide (jb_intent j = k)); [|lia]. destruct (c_reset c); simpl in *; [case_bool_decide; simpl; lia|lia].
  - intros m' n' [Hin|[= -> ->]%list_elem_of_singleton]%elem_of_app; [by eapply H5|]. split.
    + intros Ha. destruct (Mc Ha) as (_ & Hid & pt & ky & v & Hf & Hp & Hy). destruct (Kf _ Hf) as (i & Hi & [= E1 E2 E3]).
      exists (jb_intent j), i. rewrite E1, E2, E3. done.
    + intros Ha. destruct (Mr Ha) as (Hc & Hid & pt & ky & v & Hf & Hp). destruct (Kf _ Hf) as (i & Hi & [= E1 E2 E3]).
      destruct (Kt Hc) as [r Hr]. destruct (Kr r Hr) as (i' & Hi' & Er). rewrite Hi in Hi'. injection Hi' as <-.
      exists (jb_intent j), i. rewrite Er, E1, Hid, Hr. eauto.
  - intros k i Hi Hv. destruct (H6 k i Hi Hv); [by left|right; by apply seen_app].
Qed.

Lemma tokens_else start db db' log gj : tokens start db log gj → elsewhere db db' → tokens start db' log gj.
Proof.
  intros [[I1 I2 I3] H2 H3 H4 H5 H6] [E Hp].
  assert (later db db') as Hl by (intros k i Hk; exists i; by rewrite E).
  split; rewrite ?E; try done.
  - split; rewrite ?E; auto.
  - eapply Forall_impl; [exact H2|]. intros x. by apply job_later.
  - intros m n Hin. eapply asked_later; [exact Hl|]. by eapply H5.
Qed.

Definition new_intent (id point : Z) (key : string) (value actor now : Z) : ConfigurationIntent :=
  mkIntent id point key value "queued" None None actor None None None None None now now now.

Lemma submit_effect reg ev point id actor key value db r db' :
  points_keyed db → submit reg ev point id actor key value db = (inr r, db') →
  db' = db ∨ ∃ now, configuration_intents db !! id = None ∧ points_keyed db' ∧
    configuration_intents db' = <[id := new_intent id point key value actor now]> (configuration_intents db).
Proof.
  intros Hp H. unfold submit in H. apply bind_ok in H as ([] & s1 & [_ ->]%raise_if_inr & H). rewrite bind_gets in H.
  destruct (configuration_intents db !! id) as [i|] eqn:Hi.
  { left. apply bind_ok in H as ([] & s1 & [_ ->]%raise_if_inr & H). by injection H as _ <-. }
  right. rewrite bind_gets in H. apply bind_ok in H as ([] & s1 & [_ ->]%raise_if_inr & H).
  apply bind_ok in H as (c & s2 & [_ ->]%charger_ok & H). rewrite bind_gets in H.
  apply bind_ok in H as ([] & s3 & [_ ->]%raise_if_inr & H).
  apply bind_pure in H as [(? & _ & ? & _)|(conn & _ & H)]; [done| |auto with csms].
  apply bind_ok in H as ([] & s4 & [_ ->]%raise_if_inr & H). rewrite bind_gets in H.
  apply bind_ok in H as ([] & s5 & [= <-] & H). exists (db_now db). split; [done|].
  enough (frame_ (<[id := new_intent id point key value actor (db_now db)]> (configuration_intents db)) db') as [? ?] by done.
  refine (keeps_run (frame_ _) _ _ _ _ _ _ H); [|by split].
  apply keeps_bind; [apply keeps_audit; intros ? ? [??]; by split|intros; apply keeps_ret].
Qed.

Lemma tokens_submit start reg ev point id actor key value db r db' log gj :
  tokens start db log gj → submit reg ev point id actor key value db = (inr r, db') → tokens start db' log gj.
Proof.
  intros H Hs. pose proof H as [[I1 I2 I3] H2 H3 H4 H5 H6].
  apply submit_effect in Hs as [->|(now & Hn & Hp & E)]; [done| |done].
  assert (later db db') as Hl.
  { intros k i Hk. exists i. rewrite E, lookup_insert_ne by congruence. done. }
  split.
  - split; [| |done]; rewrite E.
    + intros k i [[<- <-]|[_ Hk]]%lookup_insert_Some; [done|by apply I1].
    + intros k k' i i' rr [[<- <-]|[_ Hk]]%lookup_insert_Some [[<- <-]|[_ Hk']]%lookup_insert_Some; try done. by apply I2.
  - eapply Forall_impl; [exact H2|]. intros x. by apply job_later.
  - intros k. specialize (H3 k). rewrite E. destruct (decide (k = id)) as [->|Hne].
    + rewrite lookup_insert_eq. rewrite Hn in H3. exact H3.
    + by rewrite lookup_insert_ne.
  - intros k i rr. rewrite E. intros [[<- <-]|[_ Hk]]%lookup_insert_Some; [done|by apply H4].
  - intros m n Hin. eapply asked_later; [exact Hl|]. by eapply H5.
  - intros k i. rewrite E. intros [[<- <-]|[_ Hk]]%lookup_insert_Some; [done|by apply H6].
Qed.

Lemma request_reset_effect reg ev point id rid actor db r db' :
  points_keyed db → request_reset reg ev point id rid actor db = (inr r, db') →
  db' = db ∨ ∃ i now, configuration_intents db !! id = Some i ∧ ci_reset_id i = None ∧ ci_state i = "reboot_required" ∧
    (∀ k j, configuration_intents db !! k = Some j → ci_reset_id j ≠ Some rid) ∧ points_keyed db' ∧
    configuration_intents db' = alter (queue_reset rid actor now) id (configuration_intents db).
Proof.
  intros Hp H. unfold request_reset in H. apply bind_ok in H as (c & s1 & [_ ->]%charger_ok & H). rewrite bind_gets in H.
  apply bind_ok in H as (i & s2 & [Hi ->]%some_or_inr & H). apply bind_ok in H as ([] & s3 & [_ ->]%raise_if_inr & H).
  destruct (ci_reset_id i) as [r0|] eqn:Hr; [left; by apply raise_if_inr in H as [_ ->]|]. right.
  apply bind_ok in H as ([] & s4 & [Hst ->]%raise_if_inr & H). apply negb_false_iff, bool_decide_eq_true in Hst.
  apply bind_pure in H as [(? & _ & ? & _)|(conn & _ & H)]; [done| |auto with csms].
  apply bind_ok in H as ([] & s5 & [_ ->]%raise_if_inr & H). rewrite bind_gets in H.
  apply bind_ok in H as ([] & s6 & [_ ->]%raise_if_inr & H). rewrite bind_gets in H.
  apply bind_ok in H as ([] & s7 & [Hu ->]%raise_if_inr & H). rewrite bind_gets in H.
  apply bind_ok in H as ([] & s8 & [= <-] & H). exists i, (db_now db).
  apply bool_decide_eq_false, eq_None_not_Some in Hu. rewrite select_where_None in Hu.
  assert (frame_ (alter (queue_reset rid actor (db_now db)) id (configuration_intents db)) db') as [E Hp'].
  { refine (keeps_run (frame_ _) _ _ _ _ _ _ H); [|by split].
    apply keeps_bind; [apply keeps_audit; intros ? ? [??]; by split|intros; apply keeps_ret]. }
  split_and!; try done. intros k j Hj Hc. specialize (Hu k j Hj). rewrite bool_decide_eq_true_2 in Hu by done. done.
Qed.

Lemma tokens_request_reset start reg ev point id rid actor db r db' log gj :
  tokens start db log gj → request_reset reg ev point id rid actor db = (inr r, db') → tokens start db' log gj.
Proof.
  intros H Hs. pose proof H as [[I1 I2 I3] H2 H3 H4 H5 H6].
  apply request_reset_effect in Hs as [->|(i & now & Hi & Hr0 & Hst & Hnew & Hp & E)]; [done| |done].
  assert (∀ k j', configuration_intents db' !! k = Some j' →
    (k ≠ id ∧ configuration_intents db !! k = Some j') ∨ (k = id ∧ j' = queue_reset rid actor now i)) as Hrows.
  { intros k j'. rewrite E. destruct (decide (k = id)) as [->|Hne].
    - rewrite lookup_alter_eq, Hi. intros [= <-]. by right.
    - rewrite lookup_alter_ne by done. by left. }
  assert (later db db') as Hl.
  { intros k j Hj. rewrite E. destruct (decide (k = id)) as [->|Hne].
    - rewrite lookup_alter_eq, Hj. rewrite Hj in Hi. injection Hi as <-. eexists. split_and!; [done|done|congruence].
    - exists j. by rewrite lookup_alter_ne. }
  assert (sent "Reset" rid log = 0%nat) as Hzero.
  { destruct (decide (0 < sent "Reset" rid log)%nat) as [Hpos|]; [|lia].
    apply sent_pos in Hpos as (m & n & Hin & Ha & Hm). destruct (H5 m n Hin) as [_ Hr].
    destruct (Hr Ha) as (k & j & Hj & Hmid & _). exfalso. apply (Hnew k j Hj). congruence. }
  assert (held c_reset id gj = 0%nat) as Hheld.
  { clear -H2 Hi Hr0. induction H2 as [|[j c] gj (_ & Hk & _) _ IH]; [done|]. rewrite held_cons, IH. simpl in *.
    destruct (decide (jb_intent j = id)) as [<-|]; [|done]. destruct (c_reset c) eqn:Hc; [|done]. exfalso.
    destruct (kn_reset _ _ _ Hk Hc) as [rr Hrr]. destruct (kn_rid _ _ _ Hk rr Hrr) as (i' & ? & ?). congruence. }
  split.
  - split; [| |done].
    + intros k j' [[_ Hk]|[-> ->]]%Hrows; [by apply I1|]. exact (I1 id i Hi).
    + intros k k' j j' rr [[Hk Hj]|[-> ->]]%Hrows [[Hk' Hj']|[-> ->]]%Hrows; simpl; try done.
      * by apply I2.
      * intros Ha [= <-]. exfalso. by apply (Hnew k j).
      * intros [= <-] Ha. exfalso. by apply (Hnew k' j').
  - eapply Forall_impl; [exact H2|]. intros x. by apply job_later.
  - intros k. specialize (H3 k). destruct (decide (k = id)) as [->|Hne].
    + rewrite E, lookup_alter_eq, Hi. simpl. lia.
    + by rewrite E, lookup_alter_ne.
  - intros k j' rr [[Hk Hj]|[-> ->]]%Hrows; [by apply H4|]. simpl. intros [= <-]. rewrite Hzero, Hheld. done.
  - intros m n Hin. eapply asked_later; [exact Hl|]. by eapply H5.
  - intros k j' [[Hk Hj]|[-> ->]]%Hrows; [by apply H6|]. done.
Qed.

Lemma fmap_fst_split {A B} (g : list (A * B)) l1 x l2 :
  g.*1 = l1 ++ x :: l2 → ∃ g1 c g2, g = g1 ++ (x, c) :: g2 ∧ g1.*1 = l1 ∧ g2.*1 = l2.
Proof.
  revert l1. induction g as [|[a b] g IH]; intros [|y l1]; simpl; try done; intros [= -> H].
  - exists [], b, g. done.
  - destruct (IH _ H) as (g1 & c & g2 & -> & <- & <-). by exists ((y, b) :: g1), c, g2.
Qed.

Lemma sound_step start s s' : sound start s → fleet_step s s' → sound start s'.
Proof.
  intros (gj & Hgj & H) Hs. destruct Hs as [id db log jobs|reg id p p' db db' log l1 l2 Hr|n id p p' m db log l1 l2 Hr|j db log l1 l2
    |reg ev point id actor key value r db db' log jobs Hr|reg ev point id rid actor r db db' log jobs Hr|db db' log jobs He]; simpl in *.
  - exists (gj ++ [(mkJob id (process id), no_cap)]). split; [by rewrite fmap_app, Hgj|by apply tokens_spawn].
  - apply fmap_fst_split in Hgj as (g1 & c & g2 & -> & <- & <-).
    pose proof (tk_jobs _ _ _ _ H) as Hj. apply Forall_app in Hj as [_ Hj]. apply Forall_cons in Hj as [(Hp & Hk & _) _]. simpl in *.
    destruct p as [|B m k|]; try done. injection Hr as Hr. destruct (m reg db) as [[e|b] db1] eqn:Em; injection Hr as <- <-.
    + exists (g1 ++ (mkJob id (Stop (inl e)), c) :: g2). split; [by rewrite fmap_app|]. exact (tokens_stop _ _ _ _ (mkJob id (Commit B m k)) _ _ _ H).
    + destruct (Hp reg db b db1 (tk_ok _ _ _ _ H) Hk Em) as (c' & Hm & Hp').
      exists (g1 ++ (mkJob id (k b), c') :: g2). split; [by rewrite fmap_app|].
      exact (tokens_commit _ _ _ _ _ (mkJob id (Commit B m k)) _ _ _ _ H Hm Hp').
  - apply fmap_fst_split in Hgj as (g1 & c & g2 & -> & <- & <-).
    pose proof (tk_jobs _ _ _ _ H) as Hj. apply Forall_app in Hj as [_ Hj]. apply Forall_cons in Hj as [(Hp & Hk & _) _]. simpl in *.
    destruct p as [| |m0 k]; try done. injection Hr as <- <-. destruct Hp as [Hm Hp].
    exists (g1 ++ (mkJob id (k n), after_send c m0 n) :: g2). split; [by rewrite fmap_app|].
    exact (tokens_send _ _ _ _ (mkJob id (Send m0 k)) _ _ _ _ _ H Hm (Hp n)).
  - apply fmap_fst_split in Hgj as (g1 & c & g2 & -> & <- & <-). exists (g1 ++ g2). split; [by rewrite fmap_app|].
    by eapply tokens_die.
  - exists gj. split; [done|]. exact (tokens_submit _ _ _ _ _ _ _ _ _ _ _ _ _ H Hr).
  - exists gj. split; [done|]. exact (tokens_request_reset _ _ _ _ _ _ _ _ _ _ _ _ H Hr).
  - exists gj. split; [done|]. exact (tokens_else _ _ _ _ _ H He).
Qed.

Lemma sound_start db : intents_ok db → sound db (mkFleet db [] []).
Proof.
  intros H. exists []. split; [done|]. split; simpl; try done.
  - intros id. unfold sent, held. simpl. destruct (configuration_intents db !! id); simpl; [case_bool_decide; lia|lia].
  - intros id i r _ _. unfold sent, held, reset_queued_. simpl. destruct (is_reset_queued i); lia.
  - intros m n Hin. by apply elem_of_nil in Hin.
  - intros id i Hi Hv. left. eauto.
Qed.

Lemma sound_reachable db s : intents_ok db → rtc fleet_step (mkFleet db [] []) s → sound db s.
Proof.
  intros Hok Hr. pose proof (sound_start db Hok) as Hs. revert Hs. remember (mkFleet db [] []) as s0 eqn:E. clear E.
  induction Hr as [|s0 s1 s2 H01 _ IH]; [done|]. intros Hs. apply IH. by eapply sound_step.
Qed.

(** C13. Settings are written at most once, and only as asked: in any run of
    any number of workers, operators and the rest of the server, with losses,
    late replies and deaths anywhere, at most one [ChangeConfiguration] goes out
    for an intent and at most one [Reset] for a reset request; every
    [ChangeConfiguration] carries the charger, key and value of a stored intent
    under the intent's identifier, and every [Reset] goes to the charger of the
    intent whose reset an operator confirmed. *)
Theorem configuration_written_once db s :
  intents_ok db → rtc fleet_step (mkFleet db [] []) s →
  (∀ id, (sent "ChangeConfiguration" id (fl_log s) ≤ 1)%nat) ∧
  (∀ r, (sent "Reset" r (fl_log s) ≤ 1)%nat) ∧
  (∀ m n, (m, n) ∈ fl_log s → asked (fl_db s) m).
Proof.
  intros Hok Hr. destruct (sound_reachable db s Hok Hr) as (gj & _ & [H1 H2 H3 H4 H5 H6]). split_and!; [| |done].
  - intros id. specialize (H3 id). lia.
  - intros r. destruct (decide (0 < sent "Reset" r (fl_log s))%nat) as [Hpos|]; [|lia].
    apply sent_pos in Hpos as (m & n & Hin & Ha & Hm). destruct (H5 m n Hin) as [_ Hreset].
    destruct (Hreset Ha) as (id & i & Hi & Hmid & _). specialize (H4 id i r Hi). rewrite <- Hmid in H4. specialize (H4 Hm). lia.
Qed.


(** ** A run *)

Inductive Act := ActSubmit (point id actor : Z) (key : string) (value : Z) | ActSpawn (id : Z) | ActCommit | ActSend (n : Net).

Definition evidence_ : Evidence := mkEvidence "ops.configuration.change" ["operator"].

(** One step of the first worker, or of an operator. *)
Definition act (a : Act) (s : Fleet) : option Fleet :=
  match a with
  | ActSubmit point id actor key value =>
      match submit (λ _, true) evidence_ point id actor key value (fl_db s) with
      | (inr _, db') => Some (mkFleet db' (fl_log s) (fl_jobs s))
      | _ => None
      end
  | ActSpawn id => Some (mkFleet (fl_db s) (fl_log s) (fl_jobs s ++ [mkJob id (process id)]))
  | ActCommit =>
      match fl_jobs s with
      | j :: rest =>
          match run_commit (λ _, true) (jb_prog j) (fl_db s) with
          | Some (p, db') => Some (mkFleet db' (fl_log s) (mkJob (jb_intent j) p :: rest))
          | None => None
          end
      | [] => None
      end
  | ActSend n =>
      match fl_jobs s with
      | j :: rest =>
          match run_send (jb_prog j) n with
          | Some (m, p) => Some (mkFleet (fl_db s) (fl_log s ++ [(m, n)]) (mkJob (jb_intent j) p :: rest))
          | None => None
          end
      | [] => None
      end
  end.

Definition acts (l : list Act) (s : Fleet) : option Fleet := foldl (λ o a, o ≫= act a) (Some s) l.

Lemma act_step a s s' : act a s = Some s' → fleet_step s s'.
Proof.
  destruct s as [db log jobs], a as [point id actor key value|id| |n]; simpl.
  - destruct (submit _ _ _ _ _ _ _ db) as [[e|r] db'] eqn:E; [done|]. intros [= <-]. by eapply step_submit.
  - intros [= <-]. apply step_spawn.
  - destruct jobs as [|[id p] rest]; [done|]. simpl. destruct (run_commit _ p db) as [[p' db']|] eqn:E; [|done]. intros [= <-].
    by apply (step_commit (λ _, true) id p p' db db' log [] rest).
  - destruct jobs as [|[id p] rest]; [done|]. simpl. destruct (run_send p n) as [[m p']|] eqn:E; [|done]. intros [= <-].
    by apply (step_send n id p p' m db log [] rest).
Qed.

Lemma acts_steps l s s' : acts l s = Some s' → rtc fleet_step s s'.
Proof.
  unfold acts. revert s. induction l as [|a l IH]; intros s; simpl; [by intros [= <-]|].
  destruct (act a s) as [s1|] eqn:E.
  - intros H%IH. eapply rtc_l; [by eapply act_step|done].
  - intros H. exfalso. clear -H. induction l as [|b l IHl]; [done|]. by apply IHl.
Qed.

Definition reading (v : string) : Net :=
  Reached 3 [("configurationKey", JList [JObj [("key", JStr "HeartbeatInterval"); ("readonly", JBool false); ("value", JStr v)]])] "".

(** An operator asks for a heartbeat of 120 seconds; the charger's answer to the
    write is lost, and the readback shows that the write arrived. *)
Definition run_120 : list Act :=
  [ActSubmit 40 900 1 "HeartbeatInterval" 120; ActSpawn 900; ActCommit; ActCommit; ActSend (reading "60"); ActCommit;
   ActSend Silence; ActCommit; ActSend (reading "120"); ActCommit].

Definition end_120 : Fleet := default (mkFleet demo_power_db [] []) (acts run_120 (mkFleet demo_power_db [] [])).

Lemma run_120_steps : rtc fleet_step (mkFleet demo_power_db [] []) end_120.
Proof.
  assert (match acts run_120 (mkFleet demo_power_db [] []) with Some _ => true | None => false end = true) as H
    by (vm_compute; reflexivity).
  unfold end_120. destruct (acts run_120 _) as [s|] eqn:E; [|done]. by apply (acts_steps run_120).
Qed.

Lemma demo_intents_ok : intents_ok demo_power_db.
Proof.
  assert (∀ k i, ¬ configuration_intents demo_power_db !! k = Some i) as Hn
    by (intros k i; change (configuration_intents demo_power_db) with (∅ : gmap Z ConfigurationIntent); by rewrite lookup_empty).
  split; [intros k i Hk; by apply Hn in Hk|intros k k' i i' r Hk; by apply Hn in Hk|].
  intros k c Hc. unfold demo_power_db in Hc. simpl in Hc. apply lookup_singleton_Some in Hc as [<- <-]. done.
Qed.

Lemma configuration_written_once_witness :
  sent "ChangeConfiguration" 900 (fl_log end_120) = 1%nat ∧ (sent "ChangeConfiguration" 900 (fl_log end_120) ≤ 1)%nat.
Proof.
  destruct (configuration_written_once demo_power_db end_120 demo_intents_ok run_120_steps) as (H & _ & _).
  split; [vm_compute; reflexivity|exact (H 900)].
Defined.

