(* ===== verification/Accounting.v ===== *)
(** * Accounting: reconciling energy, invoices and debits

    Models [execute_reconciliation_run] of
    [src/src/modules/accounting/service.py] with its helpers. A run reads the
    sessions of a period with their invoices and debits, prices them again and
    stores what does not agree. Energy is in micro-watt-hours, the unit of the
    columns it is read from; sums of readings are exact, as they are in the 28
    digits of the default decimal context. The SHA-256 of the input is a
    parameter. *)

From S2P Require Import Prelude Money Bands Clock Segmentation Text Store AuditTrail Wallet Pricing Invoicing MeterUnits.

(** ** Texts *)

(** The civil date of a day counted from 1 January 1970. *)
Definition civil (day : Z) : Z * Z * Z :=
  let z := day + 719468 in
  let era := z / 146097 in
  let doe := z - era * 146097 in
  let yoe := (doe - doe / 1460 + doe / 36524 - doe / 146096) / 365 in
  let doy := doe - (365 * yoe + yoe / 4 - yoe / 100) in
  let mp := (5 * doy + 2) / 153 in
  let m := if mp <? 10 then mp + 3 else mp - 9 in
  (yoe + era * 400 + (if m <=? 2 then 1 else 0), m, doy - (153 * mp + 2) / 5 + 1).

(** [n] as at least [w] digits *)
Fixpoint padded (w : nat) (n : Z) : string :=
  match w with
  | O => ""
  | S w' => padded w' (n / 10) +:+ str_int (n mod 10)
  end.

Definition date_iso (day : Z) : string :=
  let '(y, m, d) := civil day in padded 4 y +:+ "-" +:+ padded 2 m +:+ "-" +:+ padded 2 d.

(** [datetime.isoformat] of an instant in UTC *)
Definition instant_iso (t : Z) : string :=
  let us := t mod day_us in
  let s := us / second_us in
  date_iso (t / day_us) +:+ "T" +:+ padded 2 (s / 3600) +:+ ":" +:+ padded 2 (s / 60 mod 60) +:+ ":" +:+ padded 2 (s mod 60) +:+
  (if us mod second_us =? 0 then "" else "." +:+ padded 6 (us mod second_us)) +:+ "+00:00".

(** [str] of a decimal with six places *)
Definition wh_str (u : Z) : string :=
  (if u <? 0 then "-" else "") +:+ str_int (Z.abs u / 1000000) +:+ "." +:+ padded 6 (Z.abs u mod 1000000).

Definition opt_str {A} (f : A → string) (o : option A) : string := match o with Some a => f a | None => "None" end.

Fixpoint join (sep : string) (l : list string) : string :=
  match l with
  | [] => ""
  | [s] => s
  | s :: rest => s +:+ sep +:+ join sep rest
  end.

(** ** The period *)

Record RunRequest := mkRunRequest {
  rq_date_from : Z; rq_date_to : Z; rq_station_id : option Z; rq_period_type : string
}.

Section runs.
Context {dep : Deployment} (sha256 : string → string).

Definition REPORT_TIMEZONE : Zone := zoneinfo "Asia/Ho_Chi_Minh".

Definition resolve_reconciliation_bounds (date_from date_to : Z) : Z * Z :=
  (Clock.combine REPORT_TIMEZONE date_from 0, Clock.combine REPORT_TIMEZONE (date_to + 1) 0).

Definition calculate_input_hash (date_from date_to : Z) (station_id : option Z) (cutoff_at : Z) (session_ids : list string) : string :=
  sha256 ("v=1.0_" +:+ date_iso date_from +:+ "_" +:+ date_iso date_to +:+ "_" +:+ opt_str uuid_str station_id +:+ "_" +:+
    instant_iso cutoff_at +:+ "_" +:+ join "," (merge_sort string_le session_ids)).

Definition of_station (station_id : option Z) (id : Z) : bool :=
  match station_id with Some s => s =? id | None => true end.

(** ** Queries *)

(** Invoices before the period that no debit before the period pays. *)
Definition beginning_uncollected (station_id : option Z) (start_bound : Z) (db : Db) : list Invoice :=
  filter (λ i, inv_created_at i < start_bound ∧ 0 < inv_total_vnd i ∧ of_station station_id (inv_station_id i) = true ∧
    first_where (λ e, has_key charging_debit (str_int (inv_session_id i)) e && (l_created_at e <? start_bound)) (wallet_ledger db) = None)
    (rows (invoices db)).

(** A session with what was billed and debited for it. Both are unique: an
    invoice by session, a ledger row by type and reference. *)
Record AuditRow := mkAuditRow {
  ro_session : ChargingSession; ro_station : Station; ro_invoice : option Invoice;
  ro_ledger : option WalletLedger; ro_wallet : option Wallet
}.

Definition audit_row (db : Db) (c : ChargingSession) : option AuditRow :=
  cp ← charge_points db !! cs_charge_point_id c;
  st ← stations db !! cp_station_id cp;
  _ ← connectors db !! cs_connector_id c;
  let ledger := by_reference charging_debit (str_int (cs_id c)) db in
  Some (mkAuditRow c st (invoice_of_session (cs_id c) db) ledger (ledger ≫= λ e, wallets db !! l_wallet_id e)).

Definition within_period (lo hi : Z) (t : option Z) : bool :=
  match t with Some t => (lo <=? t) && (t <? hi) | None => false end.

Definition relevant (lo hi : Z) (station_id : option Z) (r : AuditRow) : bool :=
  (within_period lo hi (cs_ended_at (ro_session r)) || within_period lo hi (inv_created_at <$> ro_invoice r) ||
   within_period lo hi (l_created_at <$> ro_ledger r)) && of_station station_id (st_id (ro_station r)).

Definition audit_rows (lo hi : Z) (station_id : option Z) (db : Db) : list AuditRow :=
  filter (λ r, relevant lo hi station_id r = true)
    (omap (audit_row db) (sort_by cs_started_at (sort_by cs_id (rows (charging_sessions db))))).

Definition lines_of_invoice (invoice_id : Z) (db : Db) : list InvoiceLine :=
  sort_by il_started_at (filter (λ l, il_invoice_id l = invoice_id) (invoice_lines db)).

(** ** The tally of a run *)

Abbreviation Counts := (list (string * Z)).

Definition bump (key : string) (counts : Counts) : Counts :=
  (λ p, if bool_decide (p.1 = key) then (p.1, p.2 + 1) else p) <$> counts.

Definition count_of (key : string) (counts : Counts) : Z := default 0 (snd <$> head (filter (λ p, p.1 = key) counts)).

Record Tally := mkTally {
  ta_meter_uwh : Z; ta_billed_uwh : Z; ta_billed_vnd : Z; ta_recomputed_vnd : Z; ta_debited_vnd : Z;
  ta_counts : Counts; ta_matched : Z; ta_mismatch : Z; ta_missing : Z; ta_issues : list ReconciliationIssue
}.

(** One session while it is being checked: the tally, its own issues, whether
    data is missing. *)
Record Check := mkCheck { ch_tally : Tally; ch_issues : list ReconciliationIssue; ch_missing : bool }.

Definition on_tally (f : Tally → Tally) (c : Check) : Check := mkCheck (f (ch_tally c)) (ch_issues c) (ch_missing c).
Definition missing_data (c : Check) : Check := mkCheck (ch_tally c) (ch_issues c) true.

Definition add_meter (u : Z) (t : Tally) : Tally :=
  mkTally (ta_meter_uwh t + u) (ta_billed_uwh t) (ta_billed_vnd t) (ta_recomputed_vnd t) (ta_debited_vnd t) (ta_counts t)
    (ta_matched t) (ta_mismatch t) (ta_missing t) (ta_issues t).
Definition add_billed (u v : Z) (t : Tally) : Tally :=
  mkTally (ta_meter_uwh t) (ta_billed_uwh t + u) (ta_billed_vnd t + v) (ta_recomputed_vnd t) (ta_debited_vnd t) (ta_counts t)
    (ta_matched t) (ta_mismatch t) (ta_missing t) (ta_issues t).
Definition add_recomputed (v : Z) (t : Tally) : Tally :=
  mkTally (ta_meter_uwh t) (ta_billed_uwh t) (ta_billed_vnd t) (ta_recomputed_vnd t + v) (ta_debited_vnd t) (ta_counts t)
    (ta_matched t) (ta_mismatch t) (ta_missing t) (ta_issues t).
Definition add_debited (v : Z) (t : Tally) : Tally :=
  mkTally (ta_meter_uwh t) (ta_billed_uwh t) (ta_billed_vnd t) (ta_recomputed_vnd t) (ta_debited_vnd t + v) (ta_counts t)
    (ta_matched t) (ta_mismatch t) (ta_missing t) (ta_issues t).
Definition count_two (a b : string) (t : Tally) : Tally :=
  mkTally (ta_meter_uwh t) (ta_billed_uwh t) (ta_billed_vnd t) (ta_recomputed_vnd t) (ta_debited_vnd t)
    (bump b (bump a (ta_counts t))) (ta_matched t) (ta_mismatch t) (ta_missing t) (ta_issues t).

(** ** Issues *)

(** The amounts an issue may carry. *)
Record Amounts := mkAmounts {
  am_billed : option Z; am_recomputed : option Z; am_debited : option Z; am_difference : option Z;
  am_meter : option Z; am_billed_energy : option Z; am_energy_difference : option Z
}.
Definition no_amounts : Amounts := mkAmounts None None None None None None None.

Definition details (description : string) (evidence : list (string * Json)) : list (string * Json) :=
  [("description", JStr description); ("evidence", JObj evidence)].

Section check.
Context (run_id : Z) (r : AuditRow).

Definition sid : Z := cs_id (ro_session r).

(** The counters and the row of an issue. *)
Definition report (issue_type severity : string) (a : Amounts) (d : list (string * Json)) (c : Check) : Tx Check :=
  id ← fresh_id;
  let issue := mkIssue id run_id sid (st_id (ro_station r)) issue_type severity (am_billed a) (am_recomputed a)
    (am_debited a) (am_difference a) (am_meter a) (am_billed_energy a) (am_energy_difference a) d in
  mret (mkCheck (count_two issue_type severity (ch_tally c)) (ch_issues c ++ [issue]) (ch_missing c)).

(** [m] with the exception it raised as a value *)
Definition attempt {A} (m : Tx A) : Tx (Exn + A) := λ db, (inr (m db).1, (m db).2).

(** [except (SQLAlchemyError, AttributeError, TypeError, ValueError)] *)
Definition is_fallback (e : Exn) : bool :=
  match e with ValueError | TypeError | IntegrityError _ | DataError | OperationalError => true | _ => false end.

(** *** A. Meter readings *)

Definition meter_failure (code : string) (c : Check) : Tx Check :=
  if bool_decide (code = "invoice_meter_decreased") then
    report "meter_decreased" "critical" no_amounts
      (details "Số đo công tơ giảm bất thường giữa các mẫu đo (MeterSample)."
        [("session_id", JInt sid); ("error", JStr code)]) (missing_data c)
  else
    report "meter_discrepancy" "critical" no_amounts
      (details ("Mẫu đo công tơ xung đột hoặc không hợp lệ (" +:+ code +:+ ").")
        [("session_id", JInt sid); ("error", JStr code)]) (missing_data c).

(** The energy of the session and the readings it is priced with. *)
Definition check_meter (c : Check) : Tx (Check * option Z * option (list MeterValue)) :=
  let s := ro_session r in
  match cs_ended_at s with
  | None => mret (c, None, None)
  | Some ended =>
      match cs_meter_stop_uwh s with
      | None =>
          c ← report "meter_missing" "warning" no_amounts
            (details "Thiếu số đo đồng hồ đầu (meterStart) hoặc cuối (meterStop) từ bản tin OCPP."
              [("session_id", JInt sid); ("meter_start_wh", JStr (wh_str (cs_meter_start_uwh s))); ("meter_stop_wh", JNull)])
            (missing_data c);
          mret (c, None, None)
      | Some stop =>
          if stop <? cs_meter_start_uwh s then
            c ← report "meter_decreased" "critical" no_amounts
              (details ("Số đo đồng hồ bị giảm bất thường (Bắt đầu: " +:+ wh_str (cs_meter_start_uwh s) +:+ " Wh, Kết thúc: " +:+
                  wh_str stop +:+ " Wh).")
                [("session_id", JInt sid); ("meter_start_wh", JStr (wh_str (cs_meter_start_uwh s))); ("meter_stop_wh", JStr (wh_str stop))]) c;
            mret (c, None, None)
          else
            let used := stop - cs_meter_start_uwh s in
            let c := on_tally (add_meter used) c in
            let fallback := [mkMeter (cs_started_at s) (cs_meter_start_uwh s); mkMeter ended stop] in
            m ← attempt (_meter_values s ended);
            match m with
            | inr readings => mret (c, Some used, Some readings)
            | inl (InvalidInvoice code) => c ← meter_failure code c; mret (c, Some used, Some fallback)
            | inl e => if is_fallback e then mret (c, Some used, Some fallback) else raise e
            end
      end
  end.

(** *** B. The price again *)

(** [invoice.id if invoice else uuid4()] *)
Definition invoice_id_or_fresh : Tx Z := match ro_invoice r with Some i => mret (inv_id i) | None => fresh_id end.

Definition audit_intervals (db : Db) : list OccupationInterval :=
  if cs_billing_lifecycle_version (ro_session r) =? 1 then confirmed_intervals sid db else [].

Definition audit_end (ended : Z) (intervals : list OccupationInterval) : Z :=
  match intervals, cs_connector_released_at (ro_session r) with
  | _ :: _, Some released => Z.max ended released
  | _, _ => ended
  end.

Definition audit_timezone : Zone :=
  let tz := st_timezone (ro_station r) in zoneinfo (if bool_decide (tz = "") then "Asia/Ho_Chi_Minh" else tz).

Definition price_energy (ended bend : Z) (readings : list MeterValue) : Tx (gmap Z Tariff * Z) :=
  daily ← _daily_tariffs (ro_station r) (cs_started_at (ro_session r)) bend false;
  segments ← lift (seg_result (chia_doan (cs_started_at (ro_session r)) ended readings daily.2 audit_timezone));
  mret (daily.1, sumZ (amount_vnd <$> segments)).

Fixpoint price_intervals (versions : gmap Z Tariff) (l : list OccupationInterval) : Tx (list InvoiceLine) :=
  match l with
  | [] => mret []
  | i :: rest =>
      match oi_ended_at i with
      | Some e =>
          id ← invoice_id_or_fresh;
          x ← lift (_idle_lines (ro_session r) (ro_station r) e versions id (Some (oi_started_at i)));
          xs ← price_intervals versions rest;
          mret (x ++ xs)
      | None => price_intervals versions rest
      end
  end.

Definition price_idle (ended : Z) (versions : gmap Z Tariff) (intervals : list OccupationInterval) : Tx Z :=
  let s := ro_session r in
  lines ← (if cs_billing_lifecycle_version s =? 0 then
             match cs_idle_since s with
             | Some idle =>
                 if idle <? ended then
                   id ← invoice_id_or_fresh;
                   lift (_idle_lines s (ro_station r) ended versions id (Some idle))
                 else mret []
             | None => mret []
             end
           else price_intervals versions intervals);
  mret (sumZ (il_amount_vnd <$> lines)).

(** The energy and idle amounts, and their total when both were found. *)
Record Repriced := mkRepriced { rp_energy : Z; rp_idle : Z; rp_total : option Z }.

Definition tariff_failure (code : string) (c : Check) : Tx Check :=
  report "pricing_mismatch" "critical" no_amounts
    (details ("Thiếu hoặc không hợp lệ biểu giá hiệu lực tại trạm (" +:+ code +:+ "). Cần chuyển needs_review.")
      [("session_id", JInt sid); ("station_id", JStr (uuid_str (st_id (ro_station r)))); ("error", JStr code)]) (missing_data c).

Definition price_error (e : Exn) (energy : Z) (c : Check) : Tx (Check * Repriced) :=
  match e with
  | InvalidInvoice code => c ← tariff_failure code c; mret (c, mkRepriced energy 0 None)
  | _ => if is_fallback e then mret (c, mkRepriced energy 0 None) else raise e
  end.

Definition reprice (readings : option (list MeterValue)) (c : Check) : Tx (Check * Repriced) :=
  match cs_ended_at (ro_session r), readings with
  | Some ended, Some readings =>
      intervals ← gets audit_intervals;
      energy ← attempt (price_energy ended (audit_end ended intervals) readings);
      match energy with
      | inl e => price_error e 0 c
      | inr (versions, energy) =>
          idle ← attempt (price_idle ended versions intervals);
          match idle with
          | inl e => price_error e energy c
          | inr idle => mret (c, mkRepriced energy idle (Some (energy + idle)))
          end
      end
  | _, _ => mret (c, mkRepriced 0 0 None)
  end.

(** *** C. Invoice, ledger, price and energy *)

Definition check_no_invoice (used : option Z) (c : Check) : Tx Check :=
  let s := ro_session r in
  match cs_ended_at s with
  | None => mret c
  | Some ended =>
      if (cs_billing_lifecycle_version s =? 1) && bool_decide (cs_connector_released_at s = None) then mret c
      else
        report "missing_invoice" "critical" (mkAmounts None None None None used None used)
          (details "Phiên sạc đã kết thúc nhưng chưa có hoá đơn được tạo trong hệ thống."
            [("session_id", JInt sid); ("ended_at", JStr (instant_iso ended))]) c
  end.

(** The debit that no invoice asks for. *)
Definition unexpected_debit (description : string → string) (evidence : Z → list (string * Json)) (billed : Z)
    (c : Check) : Tx Check :=
  match ro_ledger r with
  | Some e =>
      if l_amount_vnd e =? 0 then mret c
      else
        let debited := - l_amount_vnd e in
        report "ledger_mismatch" "critical" (mkAmounts (Some billed) None (Some debited) (Some (Z.abs debited)) None None None)
          (details (description (str_int debited)) (evidence debited)) (on_tally (add_debited debited) c)
  | None => mret c
  end.

(** The reasons a debit does not match its invoice, in the order of the code. *)
Definition ledger_faults (invoice : Invoice) (e : WalletLedger) : list string :=
  let s := ro_session r in
  (if match ro_wallet r with Some w => negb (bool_decide (Some (w_driver_id w) = cs_driver_id s)) | None => true end ||
      negb (bool_decide (Some (inv_driver_id invoice) = cs_driver_id s))
   then ["Giao dịch trừ ví hoặc hoá đơn gán sai driver_id của phiên sạc."] else []) ++
  (if negb (- l_amount_vnd e =? inv_total_vnd invoice)
   then ["Số tiền trừ ví (" +:+ str_int (- l_amount_vnd e) +:+ " đ) không khớp số tiền hoá đơn (" +:+ str_int (inv_total_vnd invoice) +:+ " đ)."]
   else []) ++
  (if negb (bool_decide (l_reference_type e = "charging_session"))
   then ["Loại tham chiếu sổ cái không chuẩn: " +:+ l_reference_type e +:+ "."] else []).

Definition check_ledger (invoice : Invoice) (c : Check) : Tx Check :=
  let total := inv_total_vnd invoice in
  if total =? 0 then
    unexpected_debit (λ d, "Hoá đơn 0 đồng nhưng phát sinh giao dịch trừ ví (" +:+ d +:+ " đ) bất thường trong sổ cái.")
      (λ d, [("session_id", JInt sid); ("invoice_id", JStr (uuid_str (inv_id invoice))); ("invoice_total_vnd", JInt 0);
             ("debited_vnd", JInt d); ("ledger_id", match ro_ledger r with Some e => JInt (l_id e) | None => JNull end)]) 0 c
  else if bool_decide (cs_settlement_reason (ro_session r) = Some legacy_exempt) then
    unexpected_debit (λ d, "Phiên sạc miễn trừ dữ liệu cũ (legacy_exempt) nhưng phát sinh trừ ví (" +:+ d +:+ " đ).")
      (λ d, [("session_id", JInt sid); ("invoice_id", JStr (uuid_str (inv_id invoice))); ("debited_vnd", JInt d);
             ("settlement_reason", JStr "legacy_exempt")]) total (on_tally (count_two "legacy_exempt" "info") c)
  else
    match ro_ledger r with
    | None =>
        report "missing_ledger" "critical" (mkAmounts (Some total) None (Some 0) (Some total) None None None)
          (details "Hoá đơn có số tiền > 0 nhưng không tìm thấy dòng trừ ví (charging_debit) trong sổ cái."
            [("session_id", JInt sid); ("invoice_id", JStr (uuid_str (inv_id invoice))); ("invoice_total_vnd", JInt total)]) c
    | Some e =>
        let debited := - l_amount_vnd e in
        let c := on_tally (add_debited debited) c in
        match ledger_faults invoice e with
        | [] => mret c
        | faults =>
            report "ledger_mismatch" "critical"
              (mkAmounts (Some total) None (Some debited) (Some (Z.abs (total - debited))) None None None)
              (details (join "; " faults)
                [("session_id", JInt sid); ("invoice_id", JStr (uuid_str (inv_id invoice))); ("debited_vnd", JInt debited);
                 ("billed_vnd", JInt total); ("reference_type", JStr (l_reference_type e)); ("reference_id", JStr (l_reference_id e))]) c
        end
    end.

(** [int((e_wh * r_vnd / Decimal(1000)).quantize(Decimal(1), ROUND_HALF_UP))] *)
Definition line_price (energy_uwh rate : Z) : Exn + Z :=
  let '(c, x) := round28 (energy_uwh * rate) (-6) in
  let v := if 0 <=? x - 3 then c * 10 ^ (x - 3) else round_half_up c (10 ^ (3 - x)) in
  if 28 <? ndigits v then inl DecimalOverflow else inr v.

Fixpoint price_lines (l : list InvoiceLine) : Exn + Z :=
  match l with
  | [] => inr 0
  | x :: rest =>
      a ← match il_type x with energy_line => line_price (il_energy_uwh x) (il_rate_vnd x) | idle_line => inr (il_amount_vnd x) end;
      b ← price_lines rest;
      mret (a + b)
  end.

Definition check_price (invoice : Invoice) (lines : list InvoiceLine) (p : Repriced) (c : Check) : Tx Check :=
  let total := inv_total_vnd invoice in
  again ← match rp_total p with Some t => mret t | None => lift (price_lines lines) end;
  let c := on_tally (add_recomputed again) c in
  if total =? again then mret c
  else
    let diff := Z.abs (total - again) in
    report "pricing_mismatch" "critical" (mkAmounts (Some total) (Some again) None (Some diff) None None None)
      (details ("Số tiền hoá đơn (" +:+ str_int total +:+ " đ) lệch so với tính toán lại từ biểu giá và quy tắc làm tròn (" +:+
          str_int again +:+ " đ), chênh " +:+ str_int diff +:+ " đ.")
        [("session_id", JInt sid); ("invoice_id", JStr (uuid_str (inv_id invoice))); ("invoice_total_vnd", JInt total);
         ("recomputed_vnd", JInt again); ("recomputed_energy_vnd", JInt (rp_energy p)); ("recomputed_idle_vnd", JInt (rp_idle p));
         ("tariff_matched", JBool (bool_decide (is_Some (rp_total p))))]) c.

Definition billed_energy (lines : list InvoiceLine) : Z :=
  sumZ (il_energy_uwh <$> filter (λ l, il_type l = energy_line) lines).

(** [str] of the sum: it starts from [Decimal(0)]. *)
Definition billed_str (lines : list InvoiceLine) : string :=
  match filter (λ l, il_type l = energy_line) lines with [] => "0" | _ => wh_str (billed_energy lines) end.

(** More than a thousandth of a watt-hour. *)
Definition check_energy (lines : list InvoiceLine) (used : option Z) (c : Check) : Tx Check :=
  match used with
  | None => mret c
  | Some used =>
      let diff := Z.abs (used - billed_energy lines) in
      if diff <=? 1000 then mret c
      else
        let s := ro_session r in
        report "meter_discrepancy" "critical" (mkAmounts None None None None (Some used) (Some (billed_energy lines)) (Some diff))
          (details ("Điện năng đồng hồ (" +:+ wh_str used +:+ " Wh) lệch với tổng điện năng trên các dòng hoá đơn (" +:+ billed_str lines +:+
              " Wh), chênh lệch " +:+ wh_str diff +:+ " Wh.")
            [("session_id", JInt sid); ("meter_start_wh", JStr (wh_str (cs_meter_start_uwh s)));
             ("meter_stop_wh", JStr (opt_str wh_str (cs_meter_stop_uwh s))); ("sess_meter_wh", JStr (wh_str used));
             ("lines_billed_wh", JStr (billed_str lines)); ("wh_difference", JStr (wh_str diff))]) c
  end.

Definition check_invoice (used : option Z) (p : Repriced) (c : Check) : Tx Check :=
  match ro_invoice r with
  | None => check_no_invoice used c
  | Some invoice =>
      lines ← gets (lines_of_invoice (inv_id invoice));
      let c := on_tally (add_billed (billed_energy lines) (inv_total_vnd invoice)) c in
      c ← check_ledger invoice c;
      c ← check_price invoice lines p c;
      check_energy lines used c
  end.

(** *** The verdict *)

Definition conclude (c : Check) : Tally :=
  let t := ch_tally c in
  let clean := bool_decide (ch_issues c = []) in
  mkTally (ta_meter_uwh t) (ta_billed_uwh t) (ta_billed_vnd t) (ta_recomputed_vnd t) (ta_debited_vnd t) (ta_counts t)
    (ta_matched t + if clean then 1 else 0) (ta_mismatch t + if clean then 0 else 1)
    (ta_missing t + if ch_missing c then 1 else 0) (ta_issues t ++ ch_issues c).

Definition check_session (t : Tally) : Tx Tally :=
  '(c, used, readings) ← check_meter (mkCheck t [] false);
  '(c, p) ← reprice readings c;
  c ← check_invoice used p c;
  mret (conclude c).
End check.

(** ** The run *)

Definition initial_counts (uncollected : list Invoice) : Counts :=
  [("missing_invoice", 0); ("missing_ledger", 0); ("ledger_mismatch", 0); ("pricing_mismatch", 0); ("meter_missing", 0);
   ("meter_decreased", 0); ("meter_discrepancy", 0); ("legacy_exempt", 0);
   ("beginning_uncollected_count", Z.of_nat (length uncollected)); ("beginning_uncollected_vnd", sumZ (inv_total_vnd <$> uncollected));
   ("critical", 0); ("warning", 0); ("info", 0)].

Definition start_tally (uncollected : list Invoice) : Tally := mkTally 0 0 0 0 0 (initial_counts uncollected) 0 0 0 [].

Fixpoint check_sessions (run_id : Z) (l : list AuditRow) (t : Tally) : Tx Tally :=
  match l with
  | [] => mret t
  | r :: rest => t ← check_session run_id r t; check_sessions run_id rest t
  end.

Definition session_digest (r : AuditRow) : string :=
  let s := ro_session r in
  str_int (cs_id s) +:+ ":" +:+ wh_str (cs_meter_start_uwh s) +:+ ":" +:+ opt_str wh_str (cs_meter_stop_uwh s) +:+ ":" +:+
  opt_str str_int (inv_total_vnd <$> ro_invoice r) +:+ ":" +:+ opt_str str_int (l_amount_vnd <$> ro_ledger r).

Definition run_record (run_id : Z) (q : RunRequest) (cutoff_at : Z) (actor_id : option Z) (l : list AuditRow) (t : Tally) :
    ReconciliationRun :=
  mkRun run_id (rq_period_type q) (rq_date_from q) (rq_date_to q) (rq_station_id q) cutoff_at actor_id "completed"
    (Z.of_nat (length l)) (ta_matched t) (ta_mismatch t) (ta_missing t) (ta_meter_uwh t) (ta_billed_uwh t)
    (Z.abs (ta_meter_uwh t - ta_billed_uwh t)) (ta_billed_vnd t) (ta_recomputed_vnd t) (ta_debited_vnd t)
    (Z.abs (ta_billed_vnd t - ta_recomputed_vnd t)) (ta_counts t) "1.0"
    (calculate_input_hash (rq_date_from q) (rq_date_to q) (rq_station_id q) cutoff_at (session_digest <$> l)).

(** The constraints of the table of runs. *)
Definition save_run (run : ReconciliationRun) : Tx () :=
  raise_if (rr_date_to run <? rr_date_from run) (IntegrityError "ck_reconciliation_runs_date_range");;
  known ← gets (λ db, match rr_station_id run with Some s => bool_decide (is_Some (stations db !! s)) | None => true end &&
                      known_user db (rr_created_by run));
  raise_if (negb known) (IntegrityError "reconciliation_runs_fkey");;
  modify (λ db, set_reconciliation_runs (reconciliation_runs db ++ [run]) db).

Definition execute_reconciliation_run (q : RunRequest) (actor_id : option Z) : Tx ReconciliationRun :=
  let '(lo, hi) := resolve_reconciliation_bounds (rq_date_from q) (rq_date_to q) in
  cutoff_at ← gets db_now;
  uncollected ← gets (beginning_uncollected (rq_station_id q) lo);
  l ← gets (audit_rows lo hi (rq_station_id q));
  run_id ← fresh_id;
  t ← check_sessions run_id l (start_tally uncollected);
  let run := run_record run_id q cutoff_at actor_id l t in
  save_run run;;
  modify (λ db, set_reconciliation_issues (reconciliation_issues db ++ ta_issues t) db);;
  mret run.
End runs.
