(* ===== verification/AccountingSpec.v ===== *)
(** * AccountingSpec: what a reconciliation run tells

    A run reads and reports: it writes its own record and its issues, its
    counters are the issues it stored, and a session is called matched exactly
    when invoice, debit, price and energy agree. *)

From S2P Require Import Prelude Money Bands Clock Segmentation Text Store AuditTrail Wallet Pricing Invoicing InvoiceSpec Notifications MeterUnits Accounting.

(** ** Only the identifiers move *)

Definition only_ids (db0 db : Db) : Prop := ∃ n, db = set_next_id n db0.

Lemma only_ids_refl db : only_ids db db.
Proof. exists (next_id db). by destruct db. Qed.

Section reading.
Context {dep : Deployment} (db0 : Db).

Lemma keeps_ids_fresh : keeps (only_ids db0) fresh_id.
Proof. intros db [n ->]. by eexists. Qed.

Lemma keeps_attempt {A} I (m : Tx A) : keeps I m → keeps I (attempt m).
Proof. intros Hm db Hdb. exact (Hm db Hdb). Qed.

Lemma pure_daily_tariffs st a b : pure_tx (_daily_tariffs st a b false).
Proof. apply pure_daily_loop. Qed.
#[local] Hint Resolve pure_daily_tariffs : csms.
#[local] Hint Resolve keeps_ids_fresh keeps_attempt : csms_keeps.

Context (run_id : Z) (r : AuditRow).

Lemma keeps_ids_report ty sv a d c : keeps (only_ids db0) (report run_id r ty sv a d c).
Proof. unfold report. keeps_steps. Qed.
#[local] Hint Resolve keeps_ids_report : csms_keeps.

Lemma keeps_ids_check_meter c : keeps (only_ids db0) (check_meter run_id r c).
Proof. unfold check_meter, meter_failure. keeps_steps. Qed.

Lemma keeps_ids_invoice_id : keeps (only_ids db0) (invoice_id_or_fresh r).
Proof. unfold invoice_id_or_fresh. keeps_steps. Qed.
#[local] Hint Resolve keeps_ids_invoice_id : csms_keeps.

Lemma keeps_ids_price_intervals v l : keeps (only_ids db0) (price_intervals r v l).
Proof. induction l as [|i l IH]; simpl; keeps_steps. Qed.
#[local] Hint Resolve keeps_ids_price_intervals : csms_keeps.

Lemma keeps_ids_reprice m c : keeps (only_ids db0) (reprice run_id r m c).
Proof.
  unfold reprice, price_error, tariff_failure. keeps_steps; apply keeps_attempt; unfold price_energy, price_idle; keeps_steps.
Qed.

Lemma keeps_ids_check_invoice u p c : keeps (only_ids db0) (check_invoice run_id r u p c).
Proof. unfold check_invoice, check_no_invoice, check_ledger, unexpected_debit, check_price, check_energy. keeps_steps. Qed.

Lemma keeps_ids_check_session t : keeps (only_ids db0) (check_session run_id r t).
Proof.
  unfold check_session. apply keeps_bind; [apply keeps_ids_check_meter|intros [[c u] m]].
  apply keeps_bind; [apply keeps_ids_reprice|intros [c1 p]]. apply keeps_bind; [apply keeps_ids_check_invoice|auto with csms_keeps].
Qed.
End reading.

Lemma keeps_ids_check_sessions {dep : Deployment} db0 run_id l t : keeps (only_ids db0) (check_sessions run_id l t).
Proof. revert t. induction l as [|r l IH]; intros t; [apply keeps_ret|]. apply keeps_bind; [apply keeps_ids_check_session|auto]. Qed.

(** ** Counters *)

Definition tracked : list string :=
  ["missing_invoice"; "missing_ledger"; "ledger_mismatch"; "pricing_mismatch"; "meter_missing"; "meter_decreased";
   "meter_discrepancy"; "critical"; "warning"].

(** The issues a counter counts: those of a type or of a severity. *)
Definition issues_of (k : string) (l : list ReconciliationIssue) : Z :=
  Z.of_nat (length (filter (λ i, ri_issue_type i = k ∨ ri_severity i = k) l)).

Lemma issues_of_app k l l' : issues_of k (l ++ l') = issues_of k l + issues_of k l'.
Proof. unfold issues_of. rewrite filter_app, length_app. lia. Qed.

Lemma bump_keys k c : (bump k c).*1 = c.*1.
Proof. unfold bump. rewrite <- list_fmap_compose. apply list_fmap_ext. intros i [a b] _. unfold compose. by case_bool_decide. Qed.

Lemma count_bump k k' c : k ∈ c.*1 → count_of k (bump k' c) = count_of k c + if bool_decide (k = k') then 1 else 0.
Proof.
  induction c as [|[a b] c IH]; [by intros ?%elem_of_nil|].
  change (bump k' ((a, b) :: c)) with ((if bool_decide (a = k') then (a, b + 1) else (a, b)) :: bump k' c).
  rewrite fmap_cons. intros Hk. unfold count_of in *. rewrite !filter_cons.
  assert ((if bool_decide (a = k') then (a, b + 1) else (a, b)).1 = a) as -> by (by destruct (bool_decide (a = k'))).
  cbn [fst]. destruct (decide (a = k)) as [->|Hne].
  - destruct (bool_decide (k = k')); simpl; lia.
  - apply IH. by apply elem_of_cons in Hk as [->|?].
Qed.

(** One session's part in the tally: the issues it adds, each counted once under
    its type and once under its severity. *)
Record checked (run_id session : Z) (c c' : Check) (new : list ReconciliationIssue) : Prop := mkChecked {
  cd_issues : ch_issues c' = ch_issues c ++ new;
  cd_own : Forall (λ i, ri_run_id i = run_id ∧ ri_session_id i = session) new;
  cd_kept : ta_issues (ch_tally c') = ta_issues (ch_tally c) ∧ ta_matched (ch_tally c') = ta_matched (ch_tally c) ∧
    ta_mismatch (ch_tally c') = ta_mismatch (ch_tally c) ∧ ta_missing (ch_tally c') = ta_missing (ch_tally c);
  cd_keys : (ta_counts (ch_tally c')).*1 = (ta_counts (ch_tally c)).*1;
  cd_counts : ∀ k, k ∈ tracked → k ∈ (ta_counts (ch_tally c)).*1 →
    count_of k (ta_counts (ch_tally c')) = count_of k (ta_counts (ch_tally c)) + issues_of k new
}.

Lemma checked_refl run sid c : checked run sid c c [].
Proof. split; [by rewrite app_nil_r|done|done|done|]. intros k _ _. unfold issues_of. simpl. lia. Qed.

Lemma checked_trans run sid c1 c2 c3 n1 n2 :
  checked run sid c1 c2 n1 → checked run sid c2 c3 n2 → checked run sid c1 c3 (n1 ++ n2).
Proof.
  intros [A1 A2 (A3 & A4 & A5 & A6) A7 A8] [B1 B2 (B3 & B4 & B5 & B6) B7 B8]. split.
  - by rewrite B1, A1, app_assoc.
  - by apply Forall_app.
  - split_and!; congruence.
  - congruence.
  - intros k Hk Hc. rewrite B8, A8, issues_of_app by (done || by rewrite A7). lia.
Qed.

(** Steps that only move money and energy, or the counters of exempt sessions. *)
Lemma checked_tally run sid c f :
  (∀ t, ta_issues (f t) = ta_issues t ∧ ta_matched (f t) = ta_matched t ∧ ta_mismatch (f t) = ta_mismatch t ∧
     ta_missing (f t) = ta_missing t ∧ ta_counts (f t) = ta_counts t) → checked run sid c (on_tally f c) [].
Proof.
  intros Hf. destruct (Hf (ch_tally c)) as (H1 & H2 & H3 & H4 & H5). split; simpl; rewrite ?app_nil_r, ?H5; try done.
  intros k _ _. unfold issues_of. simpl. lia.
Qed.

Lemma checked_exempt run sid c : checked run sid c (on_tally (count_two "legacy_exempt" "info") c) [].
Proof.
  split; simpl; rewrite ?app_nil_r, ?bump_keys; try done. intros k Hk Hc.
  rewrite !count_bump by (rewrite ?bump_keys; done). unfold issues_of. simpl.
  unfold tracked in Hk. repeat (apply elem_of_cons in Hk as [->|Hk]; [reflexivity || (simpl; lia)|]). by apply elem_of_nil in Hk.
Qed.

Lemma checked_missing run sid c : checked run sid c (missing_data c) [].
Proof. split; simpl; rewrite ?app_nil_r; try done. intros k _ _. unfold issues_of. simpl. lia. Qed.

Lemma report_checked run r ty sv a d c db c' db' :
  report run r ty sv a d c db = (inr c', db') → ty ≠ sv → ∃ i, checked run (sid r) c c' [i].
Proof.
  unfold report. intros H Hne. apply bind_ok in H as (id & s1 & _ & H). injection H as <- _.
  eexists. split; simpl; [done|by constructor|done|by rewrite !bump_keys|]. intros k Hk Hc.
  rewrite !count_bump by (rewrite ?bump_keys; done). unfold issues_of. rewrite filter_cons. simpl.
  destruct (decide (ty = k ∨ sv = k)) as [Hd|Hd]; simpl.
  - destruct Hd as [<- | <-]; [rewrite (bool_decide_eq_true_2 (ty = ty)), (bool_decide_eq_false_2 (ty = sv)) by done|
      rewrite (bool_decide_eq_true_2 (sv = sv)), (bool_decide_eq_false_2 (sv = ty)) by done]; lia.
  - rewrite !bool_decide_eq_false_2 by naive_solver. lia.
Qed.

Section phases.
Context {dep : Deployment} (run : Z) (r : AuditRow).

Definition adds (c c' : Check) : Prop := ∃ new, checked run (sid r) c c' new.

Lemma adds_refl c : adds c c.
Proof. exists []. apply checked_refl. Qed.

Lemma adds_trans c1 c2 c3 : adds c1 c2 → adds c2 c3 → adds c1 c3.
Proof. intros [n1 H1] [n2 H2]. exists (n1 ++ n2). by eapply checked_trans. Qed.

Lemma adds_missing c : adds c (missing_data c).
Proof. exists []. apply checked_missing. Qed.

Lemma adds_tally f c :
  (∀ t, ta_issues (f t) = ta_issues t ∧ ta_matched (f t) = ta_matched t ∧ ta_mismatch (f t) = ta_mismatch t ∧
     ta_missing (f t) = ta_missing t ∧ ta_counts (f t) = ta_counts t) → adds c (on_tally f c).
Proof. intros Hf. exists []. by apply checked_tally. Qed.

Lemma report_adds ty sv a d c db c' db' : report run r ty sv a d c db = (inr c', db') → ty ≠ sv → adds c c'.
Proof. intros H Hne. destruct (report_checked _ _ _ _ _ _ _ _ _ _ H Hne) as [i Hi]. by exists [i]. Qed.

Lemma adds_exempt c : adds c (on_tally (count_two "legacy_exempt" "info") c).
Proof. exists []. apply checked_exempt. Qed.

Lemma check_meter_adds c db c' u m db' : check_meter run r c db = (inr (c', u, m), db') → adds c c'.
Proof.
  unfold check_meter. intros H. destruct (cs_ended_at _) as [e|]; [|injection H as <- _ _ _; apply adds_refl].
  destruct (cs_meter_stop_uwh _) as [stop|].
  2: { apply bind_ok in H as (c1 & s1 & Hr & [= <- _ _ _]). eapply adds_trans; [apply adds_missing|by eapply report_adds]. }
  destruct (stop <? _); [apply bind_ok in H as (c1 & s1 & Hr & [= <- _ _ _]); by eapply report_adds|].
  eapply adds_trans; [apply (adds_tally (add_meter (stop - cs_meter_start_uwh (ro_session r)))); done|].
  apply bind_ok in H as (x & s1 & _ & H). destruct x as [x|readings]; [|injection H as <- _ _ _; apply adds_refl].
  assert (is_fallback x = true → (mret (on_tally (add_meter (stop - cs_meter_start_uwh (ro_session r))) c,
    Some (stop - cs_meter_start_uwh (ro_session r)), Some [mkMeter (cs_started_at (ro_session r)) (cs_meter_start_uwh (ro_session r)); mkMeter e stop]) : Tx _) s1
    = (inr (c', u, m), db') → adds (on_tally (add_meter (stop - cs_meter_start_uwh (ro_session r))) c) c') as Hfb
    by (intros _ [= <- _ _ _]; apply adds_refl).
  destruct x; simpl in H; try done; try by apply Hfb.
  apply bind_ok in H as (c1 & s2 & Hr & [= <- _ _ _]). unfold meter_failure in Hr.
  eapply adds_trans; [apply adds_missing|]. case_bool_decide; by eapply report_adds.
Qed.

Lemma price_error_adds e en c db c' p db' : price_error run r e en c db = (inr (c', p), db') → adds c c'.
Proof.
  unfold price_error. intros H.
  assert ((mret (c, mkRepriced en 0 None) : Tx _) db = (inr (c', p), db') → adds c c') as Hfb by (intros [= <- _ _]; apply adds_refl).
  destruct e; simpl in H; try done; try by apply Hfb.
  apply bind_ok in H as (c1 & s1 & Hr & [= <- _ _]). eapply adds_trans; [apply adds_missing|by eapply report_adds].
Qed.

Lemma reprice_adds m c db c' p db' : reprice run r m c db = (inr (c', p), db') → adds c c'.
Proof.
  unfold reprice. intros H.
  destruct (cs_ended_at _) as [e|], m as [readings|]; try (injection H as <- _ _; apply adds_refl).
  rewrite bind_gets in H. apply bind_ok in H as (x & s1 & _ & H). destruct x as [x|[v en]]; [by eapply price_error_adds|].
  apply bind_ok in H as (y & s2 & _ & H). destruct y as [y|idle]; [by eapply price_error_adds|]. injection H as <- _ _. apply adds_refl.
Qed.

Lemma unexpected_adds f g b c db c' db' : unexpected_debit run r f g b c db = (inr c', db') → adds c c'.
Proof.
  unfold unexpected_debit. intros H. destruct (ro_ledger r) as [e|]; [|injection H as <- _; apply adds_refl].
  destruct (_ =? 0); [injection H as <- _; apply adds_refl|].
  eapply adds_trans; [apply (adds_tally (add_debited (- l_amount_vnd e))); done|by eapply report_adds].
Qed.

Lemma check_ledger_adds i c db c' db' : check_ledger run r i c db = (inr c', db') → adds c c'.
Proof.
  unfold check_ledger. intros H. destruct (_ =? 0); [by eapply unexpected_adds|].
  case_bool_decide; [eapply adds_trans; [apply adds_exempt|by eapply unexpected_adds]|].
  destruct (ro_ledger r) as [e|]; [|by eapply report_adds].
  eapply adds_trans; [apply (adds_tally (add_debited (- l_amount_vnd e))); done|].
  destruct (ledger_faults r i e); [injection H as <- _; apply adds_refl|by eapply report_adds].
Qed.

Lemma check_price_adds i lines p c db c' db' : check_price run r i lines p c db = (inr c', db') → adds c c'.
Proof.
  unfold check_price. intros H. apply bind_ok in H as (again & s1 & _ & H).
  eapply adds_trans; [apply (adds_tally (add_recomputed again)); done|].
  destruct (_ =? again); [injection H as <- _; apply adds_refl|by eapply report_adds].
Qed.

Lemma check_energy_adds lines u c db c' db' : check_energy run r lines u c db = (inr c', db') → adds c c'.
Proof.
  unfold check_energy. intros H. destruct u as [u|]; [|injection H as <- _; apply adds_refl].
  cbv zeta in H. destruct (_ <=? 1000); [injection H as <- _; apply adds_refl|by eapply report_adds].
Qed.

Lemma check_invoice_adds u p c db c' db' : check_invoice run r u p c db = (inr c', db') → adds c c'.
Proof.
  unfold check_invoice, check_no_invoice. intros H. destruct (ro_invoice r) as [i|].
  - rewrite bind_gets in H. apply bind_ok in H as (c1 & s1 & H1 & H). apply bind_ok in H as (c2 & s2 & H2 & H).
    set (lines := lines_of_invoice (inv_id i) db) in *.
    eapply adds_trans; [apply (adds_tally (add_billed (billed_energy lines) (inv_total_vnd i))); done|].
    eapply adds_trans; [by eapply check_ledger_adds|]. eapply adds_trans; [by eapply check_price_adds|by eapply check_energy_adds].
  - destruct (cs_ended_at _); [|injection H as <- _; apply adds_refl].
    destruct (_ && _); [injection H as <- _; apply adds_refl|by eapply report_adds].
Qed.

(** What checking a session does to the tally. *)
Record judged (t t' : Tally) (new : list ReconciliationIssue) : Prop := mkJudged {
  jg_issues : ta_issues t' = ta_issues t ++ new;
  jg_own : Forall (λ i, ri_run_id i = run ∧ ri_session_id i = sid r) new;
  jg_matched : ta_matched t' = ta_matched t + if bool_decide (new = []) then 1 else 0;
  jg_mismatch : ta_mismatch t' = ta_mismatch t + if bool_decide (new = []) then 0 else 1;
  jg_keys : (ta_counts t').*1 = (ta_counts t).*1;
  jg_counts : ∀ k, k ∈ tracked → k ∈ (ta_counts t).*1 → count_of k (ta_counts t') = count_of k (ta_counts t) + issues_of k new
}.

Lemma check_session_judged t db t' db' : check_session run r t db = (inr t', db') → ∃ new, judged t t' new.
Proof.
  unfold check_session. intros H. apply bind_ok in H as ([[c1 u] m] & s1 & H1 & H). apply bind_ok in H as ([c2 p] & s2 & H2 & H).
  apply bind_ok in H as (c3 & s3 & H3 & [= <- _]).
  destruct (adds_trans _ _ _ (check_meter_adds _ _ _ _ _ _ H1) (adds_trans _ _ _ (reprice_adds _ _ _ _ _ _ H2) (check_invoice_adds _ _ _ _ _ _ H3)))
    as [new [Hi Ho (K1 & K2 & K3 & K4) Hk Hc]]. simpl in *. exists new. subst.
  split; simpl; rewrite ?Hi, ?K1, ?K2, ?K3; done.
Qed.
End phases.

(** ** The run *)

Definition flagged (issues : list ReconciliationIssue) (l : list AuditRow) : list AuditRow :=
  filter (λ r, Exists (λ i, ri_session_id i = sid r) issues) l.

Lemma flagged_cons run r l new issues :
  Forall (λ i, ri_run_id i = run ∧ ri_session_id i = sid r) new → Forall (λ i, ri_run_id i = run ∧ ri_session_id i ∈ sid <$> l) issues →
  sid r ∉ sid <$> l →
  length (flagged (new ++ issues) (r :: l)) = ((if bool_decide (new = []) then 0 else 1) + length (flagged issues l))%nat.
Proof.
  intros Hn Hi Hr. unfold flagged. rewrite filter_cons.
  assert (filter (λ r0, Exists (λ i, ri_session_id i = sid r0) (new ++ issues)) l =
    filter (λ r0, Exists (λ i, ri_session_id i = sid r0) issues) l) as ->.
  { apply list_filter_ext. intros r0 Hr0. rewrite Exists_app. split; [|by right]. intros [He|He]; [|done].
    exfalso. apply Exists_exists in He as (i & Hin & E). rewrite Forall_forall in Hn. destruct (Hn i Hin) as [_ E'].
    apply Hr. rewrite <- E', E. by apply list_elem_of_fmap_2. }
  destruct new as [|i new].
  - simpl. rewrite decide_False; [done|]. intros He. apply Exists_exists in He as (i & Hin & E).
    rewrite Forall_forall in Hi. destruct (Hi i Hin) as [_ E']. apply Hr. by rewrite <- E.
  - rewrite decide_True; [done|]. apply Exists_app. left. apply Forall_cons in Hn as [[_ E] _]. by constructor.
Qed.

Section run.
Context {dep : Deployment}.

Lemma check_sessions_judged run l : NoDup (sid <$> l) → ∀ t db t' db',
  check_sessions run l t db = (inr t', db') →
  ∃ issues, ta_issues t' = ta_issues t ++ issues ∧
    Forall (λ i, ri_run_id i = run ∧ ri_session_id i ∈ sid <$> l) issues ∧
    ta_matched t' + ta_mismatch t' = ta_matched t + ta_mismatch t + Z.of_nat (length l) ∧
    ta_mismatch t' = ta_mismatch t + Z.of_nat (length (flagged issues l)) ∧
    (ta_counts t').*1 = (ta_counts t).*1 ∧
    ∀ k, k ∈ tracked → k ∈ (ta_counts t).*1 → count_of k (ta_counts t') = count_of k (ta_counts t) + issues_of k issues.
Proof.
  induction l as [|r l IH]; intros Hnd t db t' db' H; cbn [check_sessions] in H.
  { injection H as <- _. exists []. rewrite app_nil_r. simpl. split_and!; try done; try lia. intros k _ _. unfold issues_of. simpl. lia. }
  rewrite fmap_cons in Hnd. apply NoDup_cons in Hnd as [Hr Hnd]. apply bind_ok in H as (t1 & s1 & H1 & H).
  apply check_session_judged in H1 as [new [J1 J2 J3 J4 J5 J6]].
  destruct (IH Hnd _ _ _ _ H) as (issues & I1 & I2 & I3 & I4 & I5 & I6). exists (new ++ issues).
  assert (Forall (λ i, ri_run_id i = run ∧ ri_session_id i ∈ sid <$> r :: l) (new ++ issues)) as Hown.
  { apply Forall_app. split; (eapply Forall_impl; [eassumption|]); intros i [-> Hs]; (split; [done|]); rewrite fmap_cons; set_solver. }
  split_and!.
  - by rewrite I1, J1, app_assoc.
  - done.
  - rewrite I3, J3, J4. cbn [length]. case_bool_decide; lia.
  - rewrite I4, J4, (flagged_cons run) by done. case_bool_decide; lia.
  - congruence.
  - intros k Hk Hc. rewrite I6, J6, issues_of_app by (done || by rewrite J5). lia.
Qed.

Definition sessions_keyed (db : Db) : Prop := ∀ k c, charging_sessions db !! k = Some c → cs_id c = k.

Lemma audit_rows_NoDup lo hi st db : sessions_keyed db → NoDup (sid <$> audit_rows lo hi st db).
Proof.
  intros Hk. unfold audit_rows. apply NoDup_fmap_filter.
  set (l := sort_by cs_started_at (sort_by cs_id (rows (charging_sessions db)))).
  assert (NoDup (cs_id <$> l)) as Hl.
  { unfold l. rewrite !sort_by_perm. unfold rows. rewrite <- list_fmap_compose.
    assert ((cs_id ∘ snd) <$> map_to_list (charging_sessions db) = (map_to_list (charging_sessions db)).*1) as ->.
    { apply list_fmap_ext. intros i [k c] Hi%list_elem_of_lookup_2%elem_of_map_to_list. simpl. by apply Hk. }
    apply NoDup_fst_map_to_list. }
  clearbody l. induction l as [|c l IH]; [constructor|]. rewrite fmap_cons in Hl. apply NoDup_cons in Hl as [Hc Hl].
  simpl. destruct (audit_row db c) as [r|] eqn:E; [|by apply IH]. rewrite fmap_cons. constructor; [|by apply IH].
  assert (∀ c r, audit_row db c = Some r → sid r = cs_id c) as Hsid.
  { intros c0 r0 H0. unfold audit_row in H0. apply bind_Some in H0 as (cp & _ & H0). apply bind_Some in H0 as (st0 & _ & H0).
    apply bind_Some in H0 as (cn & _ & [= <-]). done. }
  rewrite (Hsid _ _ E). intros (r' & Er' & (c' & Hc' & E')%list_elem_of_omap)%list_elem_of_fmap.
  apply Hc. rewrite Er', (Hsid _ _ E'). by apply list_elem_of_fmap_2.
Qed.

Lemma save_run_ok run db db' : save_run run db = (inr (), db') →
  db' = set_reconciliation_runs (reconciliation_runs db ++ [run]) db ∧ rr_date_from run ≤ rr_date_to run.
Proof.
  unfold save_run. intros H. apply bind_ok in H as ([] & s1 & [Hd ->]%raise_if_inr & H). rewrite bind_gets in H.
  apply bind_ok in H as ([] & s2 & [_ ->]%raise_if_inr & H). injection H as <-. split; [done|]. by apply Z.ltb_ge in Hd.
Qed.
End run.

(** A reconciliation run reads and reports: when it returns, the database
    has one more run and its issues and is otherwise as before, wallets,
    invoices and tariffs included; every session of the period is counted once
    as matched or mismatched, the mismatched ones are exactly those with a
    stored issue, and each counter of the summary is the number of stored
    issues of that type or severity. *)
Theorem reconciliation_run_adds_up {dep : Deployment} sha256 q actor db run db' :
  sessions_keyed db → execute_reconciliation_run sha256 q actor db = (inr run, db') →
  let '(lo, hi) := resolve_reconciliation_bounds (rq_date_from q) (rq_date_to q) in
  let l := audit_rows lo hi (rq_station_id q) db in
  ∃ issues n,
    db' = set_reconciliation_issues (reconciliation_issues db ++ issues)
            (set_reconciliation_runs (reconciliation_runs db ++ [run]) (set_next_id n db)) ∧
    rr_total_sessions run = Z.of_nat (length l) ∧
    rr_matched_sessions run + rr_mismatch_sessions run = rr_total_sessions run ∧
    rr_mismatch_sessions run = Z.of_nat (length (flagged issues l)) ∧
    Forall (λ i, ri_run_id i = rr_id run ∧ ri_session_id i ∈ sid <$> l) issues ∧
    ∀ k, k ∈ tracked → count_of k (rr_summary_counts run) = issues_of k issues.
Proof.
  intros Hk H. unfold execute_reconciliation_run in H. destruct (resolve_reconciliation_bounds _ _) as [lo hi].
  rewrite !bind_gets in H. apply bind_ok in H as (id & s1 & [= <- <-] & H). apply bind_ok in H as (t & s2 & Ht & H).
  set (l := audit_rows lo hi (rq_station_id q) db) in *.
  assert (only_ids db s2) as [n ->].
  { refine (keeps_run (only_ids db) _ _ _ _ _ _ Ht); [apply keeps_ids_check_sessions|by eexists]. }
  destruct (check_sessions_judged _ l (audit_rows_NoDup _ _ _ _ Hk) _ _ _ _ Ht) as (issues & I1 & I2 & I3 & I4 & I5 & I6).
  apply bind_ok in H as ([] & s3 & [-> _]%save_run_ok & H). apply bind_ok in H as ([] & s4 & [= <-] & [= <- <-]).
  exists issues, n. simpl in *. rewrite I1. simpl. split_and!; try done.
  intros k Hkt. rewrite I6; [|done|].
  - enough (count_of k (initial_counts (beginning_uncollected (rq_station_id q) lo db)) = 0) as -> by lia.
    unfold tracked in Hkt. repeat (apply elem_of_cons in Hkt as [->|Hkt]; [reflexivity|]). by apply elem_of_nil in Hkt.
  - unfold tracked in Hkt. simpl. set_solver.
Qed.

(** ** When a session is matched *)

(** The debit of the session is the one its invoice calls for, on the wallet of
    its driver. *)
Definition paid (r : AuditRow) (inv : Invoice) : Prop :=
  if decide (inv_total_vnd inv = 0 ∨ cs_settlement_reason (ro_session r) = Some legacy_exempt)
  then match ro_ledger r with Some e => l_amount_vnd e = 0 | None => True end
  else ∃ e w, ro_ledger r = Some e ∧ ro_wallet r = Some w ∧ Some (w_driver_id w) = cs_driver_id (ro_session r) ∧
    Some (inv_driver_id inv) = cs_driver_id (ro_session r) ∧ - l_amount_vnd e = inv_total_vnd inv ∧
    l_reference_type e = "charging_session".

(** A check that returns, with an issue exactly when [ok] fails. *)
Definition verdict (m : Tx Check) (c : Check) (ok : Prop) (db : Db) : Prop :=
  ∃ c' db' new, m db = (inr c', db') ∧ ch_issues c' = ch_issues c ++ new ∧ (new = [] ↔ ok) ∧
    ta_matched (ch_tally c') = ta_matched (ch_tally c) ∧ ta_mismatch (ch_tally c') = ta_mismatch (ch_tally c) ∧
    ta_issues (ch_tally c') = ta_issues (ch_tally c).

Section verdicts.
Context {dep : Deployment} (run : Z) (r : AuditRow).

Lemma verdict_ok c c' db ok :
  ok → ch_issues c' = ch_issues c → ta_matched (ch_tally c') = ta_matched (ch_tally c) →
  ta_mismatch (ch_tally c') = ta_mismatch (ch_tally c) → ta_issues (ch_tally c') = ta_issues (ch_tally c) →
  verdict (mret c') c ok db.
Proof. intros. exists c', db, []. rewrite app_nil_r. split_and!; try done. Qed.

Lemma verdict_report ty sv a d c c0 db ok :
  ¬ ok → ch_issues c = ch_issues c0 → ta_matched (ch_tally c) = ta_matched (ch_tally c0) →
  ta_mismatch (ch_tally c) = ta_mismatch (ch_tally c0) → ta_issues (ch_tally c) = ta_issues (ch_tally c0) →
  verdict (report run r ty sv a d c) c0 ok db.
Proof.
  intros Hn E1 E2 E3 E4. eexists _, _, [_]. split; [reflexivity|]. simpl. rewrite E1, E2, E3, E4. split_and!; try done.
Qed.

Lemma verdict_bind m1 m2 c ok1 ok2 db :
  verdict m1 c ok1 db → (∀ c1 db1, m1 db = (inr c1, db1) → verdict (m2 c1) c1 ok2 db1) → verdict (m1 ≫= m2) c (ok1 ∧ ok2) db.
Proof.
  intros (c1 & db1 & n1 & H1 & A1 & A2 & A3 & A4 & A5) H2. destruct (H2 c1 db1 H1) as (c2 & db2 & n2 & H3 & B1 & B2 & B3 & B4 & B5).
  exists c2, db2, (n1 ++ n2). split; [by rewrite (bind_ok_step _ _ _ _ _ H1)|]. rewrite B1, A1, app_assoc.
  split; [done|]. split; [|split_and!; congruence]. rewrite app_nil. tauto.
Qed.

Lemma ledger_faults_nil inv e :
  ledger_faults r inv e = [] ↔ ∃ w, ro_wallet r = Some w ∧ Some (w_driver_id w) = cs_driver_id (ro_session r) ∧
    Some (inv_driver_id inv) = cs_driver_id (ro_session r) ∧ - l_amount_vnd e = inv_total_vnd inv ∧
    l_reference_type e = "charging_session".
Proof.
  unfold ledger_faults. rewrite !app_nil. destruct (ro_wallet r) as [w|]; simpl.
  2: { split; [by intros [? _]|]. by intros (w & ? & _). }
  destruct (bool_decide (Some (w_driver_id w) = _)) eqn:E1, (bool_decide (Some (inv_driver_id inv) = _)) eqn:E2,
    (- l_amount_vnd e =? inv_total_vnd inv) eqn:E3, (bool_decide (l_reference_type e = _)) eqn:E4; simpl;
    rewrite ?bool_decide_eq_true, ?bool_decide_eq_false, ?Z.eqb_eq, ?Z.eqb_neq in *;
    (split; [intros (? & ? & ?); try done; by exists w|intros (w' & [= <-] & ? & ? & ? & ?); done]).
Qed.

Lemma unexpected_verdict f g b c c0 db :
  ch_issues c = ch_issues c0 → ta_matched (ch_tally c) = ta_matched (ch_tally c0) →
  ta_mismatch (ch_tally c) = ta_mismatch (ch_tally c0) → ta_issues (ch_tally c) = ta_issues (ch_tally c0) →
  verdict (unexpected_debit run r f g b c) c0 (match ro_ledger r with Some e => l_amount_vnd e = 0 | None => True end) db.
Proof.
  intros. unfold unexpected_debit. destruct (ro_ledger r) as [e|]; [|by apply verdict_ok].
  destruct (Z.eqb_spec (l_amount_vnd e) 0); [by apply verdict_ok|by apply verdict_report].
Qed.

Lemma ledger_verdict inv c db : verdict (check_ledger run r inv c) c (paid r inv) db.
Proof.
  unfold check_ledger, paid. destruct (Z.eqb_spec (inv_total_vnd inv) 0) as [E|E].
  { rewrite decide_True by auto. by apply unexpected_verdict. }
  destruct (bool_decide (cs_settlement_reason _ = _)) eqn:Hl.
  { apply bool_decide_eq_true in Hl. rewrite decide_True by auto. by apply unexpected_verdict. }
  apply bool_decide_eq_false in Hl. rewrite decide_False by tauto.
  destruct (ro_ledger r) as [e|]; [|apply verdict_report; try done; by intros (e & w & ? & _)].
  pose proof (ledger_faults_nil inv e) as Hf. destruct (ledger_faults r inv e) as [|x l].
  - apply verdict_ok; try done. destruct Hf as [Hf _]. destruct (Hf eq_refl) as (w & ? & ? & ? & ? & ?). by exists e, w.
  - apply verdict_report; try done. intros (e' & w & [= <-] & ?). assert (x :: l = []) by (apply Hf; by exists w). done.
Qed.

Lemma verdict_ret {A} (a : A) (k : A → Tx Check) c ok db : verdict (k a) c ok db → verdict (mret a ≫= k) c ok db.
Proof. done. Qed.

Lemma price_verdict inv lines p t c db : rp_total p = Some t → verdict (check_price run r inv lines p c) c (inv_total_vnd inv = t) db.
Proof.
  intros Hp. unfold check_price. rewrite Hp. apply verdict_ret. cbv zeta.
  destruct (Z.eqb_spec (inv_total_vnd inv) t); [by apply verdict_ok|by apply verdict_report].
Qed.

Lemma energy_verdict lines u c db :
  verdict (check_energy run r lines (Some u) c) c (Z.abs (u - billed_energy lines) ≤ 1000) db.
Proof.
  unfold check_energy. cbv zeta. destruct (Z.leb_spec (Z.abs (u - billed_energy lines)) 1000); [by apply verdict_ok|].
  apply verdict_report; try done. lia.
Qed.

(** A finished session with an invoice, accepted readings and applicable tariffs. *)
Record regular (inv : Invoice) (e stop : Z) (readings : list MeterValue) (versions : gmap Z Tariff) (energy idle : Z) (db : Db) :
    Prop := mkRegular {
  rg_ended : cs_ended_at (ro_session r) = Some e;
  rg_stop : cs_meter_stop_uwh (ro_session r) = Some stop;
  rg_meter : cs_meter_start_uwh (ro_session r) ≤ stop;
  rg_readings : _meter_values (ro_session r) e db = (inr readings, db);
  rg_invoice : ro_invoice r = Some inv;
  rg_energy : price_energy r e (audit_end r e (audit_intervals r db)) readings db = (inr (versions, energy), db);
  rg_idle : price_idle r e versions (audit_intervals r db) db = (inr idle, db)
}.

(** What makes such a session matched. *)
Definition agrees (inv : Invoice) (stop energy idle : Z) (db : Db) : Prop :=
  paid r inv ∧ inv_total_vnd inv = energy + idle ∧
  Z.abs (stop - cs_meter_start_uwh (ro_session r) - billed_energy (lines_of_invoice (inv_id inv) db)) ≤ 1000.

Lemma check_session_regular inv e stop readings versions energy idle t db :
  regular inv e stop readings versions energy idle db →
  ∃ t' db' new, check_session run r t db = (inr t', db') ∧ (new = [] ↔ agrees inv stop energy idle db) ∧
    ta_issues t' = ta_issues t ++ new ∧ ta_matched t' = ta_matched t + (if bool_decide (new = []) then 1 else 0) ∧
    ta_mismatch t' = ta_mismatch t + (if bool_decide (new = []) then 0 else 1).
Proof.
  intros [He Hs Hm Hr Hi Hen Hid]. set (used := stop - cs_meter_start_uwh (ro_session r)).
  set (c1 := on_tally (add_meter used) (mkCheck t [] false)).
  assert (check_meter run r (mkCheck t [] false) db = (inr (c1, Some used, Some readings), db)) as Hcm.
  { unfold check_meter. rewrite He, Hs. destruct (Z.ltb_spec stop (cs_meter_start_uwh (ro_session r))); [lia|].
    cbv zeta. rewrite (bind_ok_step _ _ _ (inr readings) db) by (unfold attempt; by rewrite Hr). done. }
  assert (reprice run r (Some readings) c1 db = (inr (c1, mkRepriced energy idle (Some (energy + idle))), db)) as Hrp.
  { unfold reprice. rewrite He, bind_gets. rewrite (bind_ok_step _ _ _ (inr (versions, energy)) db) by (unfold attempt; by rewrite Hen).
    by rewrite (bind_ok_step _ _ _ (inr idle) db) by (unfold attempt; by rewrite Hid). }
  set (lines := lines_of_invoice (inv_id inv) db).
  assert (verdict (check_invoice run r (Some used) (mkRepriced energy idle (Some (energy + idle))) c1) c1
    (agrees inv stop energy idle db) db) as (c' & db' & new & Hv & V1 & V2 & V3 & V4 & V5).
  { unfold check_invoice. rewrite Hi.
    assert (verdict (c ← check_ledger run r inv (on_tally (add_billed (billed_energy lines) (inv_total_vnd inv)) c1);
      c ← check_price run r inv lines (mkRepriced energy idle (Some (energy + idle))) c; check_energy run r lines (Some used) c)
      (on_tally (add_billed (billed_energy lines) (inv_total_vnd inv)) c1) (agrees inv stop energy idle db) db) as Hall.
    { apply (verdict_bind (check_ledger run r inv _)); [apply ledger_verdict|]. intros c2 db2 _.
      apply (verdict_bind (check_price run r inv lines _ c2)); [by apply price_verdict|]. intros c3 db3 _. apply energy_verdict. }
    destruct Hall as (c' & db' & new & H & Hrest). exists c', db', new. split; [|done]. rewrite bind_gets. exact H. }
  exists (conclude c'), db', new. split.
  - unfold check_session. rewrite (bind_ok_step _ _ _ _ _ Hcm), (bind_ok_step _ _ _ _ _ Hrp), (bind_ok_step _ _ _ _ _ Hv). done.
  - split; [done|]. unfold conclude. simpl in *. rewrite V1, V3, V4, V5. done.
Qed.
End verdicts.

(** A session is matched exactly when its books agree: for a finished
    session with an invoice, accepted readings and applicable tariffs, checking
    it returns; it is counted as matched, with no issue, when the debit is
    exactly the invoice total on the wallet of the session's driver, the
    invoice is exactly the price recomputed from the tariffs, and the billed
    energy is within a thousandth of a watt-hour of the metered energy;
    otherwise it is counted as mismatched with at least one issue. *)
Theorem reconciliation_matches_iff {dep : Deployment} run r inv e stop readings versions energy idle t db :
  regular r inv e stop readings versions energy idle db →
  ∃ t' db' new, check_session run r t db = (inr t', db') ∧ ta_issues t' = ta_issues t ++ new ∧
    ((agrees r inv stop energy idle db ∧ new = [] ∧ ta_matched t' = ta_matched t + 1 ∧ ta_mismatch t' = ta_mismatch t) ∨
     (¬ agrees r inv stop energy idle db ∧ new ≠ [] ∧ ta_matched t' = ta_matched t ∧ ta_mismatch t' = ta_mismatch t + 1)).
Proof.
  intros Hreg. destruct (check_session_regular run r _ _ _ _ _ _ _ t db Hreg) as (t' & db' & new & H & Hn & Hi & Hm & Hx).
  exists t', db', new. split; [done|]. split; [done|]. rewrite Hm, Hx. case_bool_decide as Hd.
  - left. split_and!; [by apply Hn|done|lia|lia].
  - right. split_and!; [by rewrite <- Hn|done|lia|lia].
Qed.

(** ** What the code bills, the code accepts *)

(** The tables a check reads apart from the session's own rows. *)
Definition same_inputs (db db' : Db) : Prop :=
  stations db' = stations db ∧ tariffs db' = tariffs db ∧ tariff_bands db' = tariff_bands db ∧
  meter_samples db' = meter_samples db ∧ occupation_intervals db' = occupation_intervals db ∧
  invoice_lines db' = invoice_lines db.

Lemma meter_values_frame charging e db db' l :
  meter_samples db' = meter_samples db → _meter_values charging e db = (inr l, db) → _meter_values charging e db' = (inr l, db').
Proof.
  intros E H. pose proof (pure_meter_values charging e db') as Hp.
  assert ((_meter_values charging e db').1 = (_meter_values charging e db).1) as E1.
  { assert (energy_samples charging e db' = energy_samples charging e db) as Es by (unfold energy_samples; by rewrite E).
    unfold _meter_values, mbind, M_bind, gets, lift, some_or. destruct (_ && _); [|done].
    destruct (cs_meter_stop_uwh charging) as [stop|]; [|done]. simpl. rewrite Es.
    destruct (add_samples _ _); [done|]. by destruct (meter_decreased _). }
  rewrite H in E1. destruct (_meter_values charging e db') as [r d]. simpl in *. by subst.
Qed.

(** Prices after some versions were marked as used. *)
Lemma marked_same_price db db' s d :
  tariffs_ok db → marked db db' →
  match effective s d db, effective s d db' with
  | Some t, Some t' => same_price t t'
  | None, None => True
  | _, _ => False
  end.
Proof.
  intros Hok Hm. destruct (effective s d db) as [t|] eqn:E.
  - destruct (marked_effective _ _ _ _ _ Hok Hm E) as (t' & -> & ?). done.
  - destruct (effective s d db') as [t'|] eqn:E'; [|done]. apply effective_Some in E' as ([k Hk] & Hs & Hd & _).
    destruct (marked_lookup _ _ _ _ Hm Hk) as (t0 & Hk0 & (_ & E1 & E2 & _)%same_price_fields).
    rewrite effective_None in E. specialize (E k t0 Hk0 ltac:(congruence)). lia.
Qed.

Lemma occupation_fee_marked tz s db db' occ : tariffs_ok db → marked db db' → occupation_fee tz s db' occ = occupation_fee tz s db occ.
Proof.
  intros Hok Hm. destruct occ as [i e]. unfold occupation_fee.
  assert (∀ d, rate_on s db' d = rate_on s db d) as Hr.
  { intros d. unfold rate_on. pose proof (marked_same_price db db' s d Hok Hm).
    destruct (effective s d db) as [t|], (effective s d db') as [t'|]; try done. by destruct (same_price_fields t t') as (_ & _ & _ & -> & _). }
  pose proof (marked_same_price db db' s (local_date tz i) Hok Hm).
  destruct (effective _ _ db) as [t|], (effective _ _ db') as [t'|]; try done.
  destruct (same_price_fields t t') as (_ & _ & _ & _ & ->); [done|]. f_equal. apply list_fmap_ext. intros. apply Hr.
Qed.

Lemma daily_frames_marked {dep : Deployment} charging st bend db db' d1 d2 :
  tariffs_ok db → marked db db' → daily_exact charging st bend db d1 → daily_exact charging st bend db' d2 → d1.2 = d2.2.
Proof.
  intros Hok Hm H1 H2. apply map_eq. intros d. specialize (H1 d). specialize (H2 d).
  destruct (decide _); [|by destruct H1 as [_ ->], H2 as [_ ->]].
  destruct H1 as (t & r1 & Ht & _ & _ & ->), H2 as (t' & r2 & Ht' & _ & _ & ->).
  pose proof (marked_same_price db db' (st_id st) d Hok Hm) as Hp. rewrite Ht, Ht' in Hp.
  apply same_price_fields in Hp as (-> & _). unfold frames_of. by rewrite (marked_bands _ _ _ Hm).
Qed.

Lemma idle_loop_ids fuel tz v iid e : ∀ anchor count lines,
  idle_loop fuel tz v iid e anchor count = inr lines → Forall (λ l, il_invoice_id l = iid ∧ il_type l = idle_line) lines.
Proof.
  induction fuel as [|fuel IH]; intros anchor count lines; simpl; [by intros [= <-]|].
  destruct (count =? 0); [by intros [= <-]|]. intros (t & _ & H)%sum_bind_ok. apply sum_bind_ok in H as ([n a] & _ & H).
  apply sum_bind_ok in H as (rest & Hr & [= <-]). constructor; [done|by eapply IH].
Qed.

Lemma idle_lines_ids {dep : Deployment} c st e v iid i lines :
  _idle_lines c st e v iid i = inr lines → Forall (λ l, il_invoice_id l = iid ∧ il_type l = idle_line) lines.
Proof.
  unfold _idle_lines. destruct (match i with Some _ => _ | None => _ end) as [idle|]; [|by intros [= <-]].
  destruct (_ || _); [done|]. destruct (_ =? _); [by intros [= <-]|]. intros (t & _ & H)%sum_bind_ok.
  apply sum_bind_ok in H as ([n a] & _ & H). by eapply idle_loop_ids.
Qed.

Lemma interval_lines_ids {dep : Deployment} c st v iid l lines :
  interval_lines c st v iid l = inr lines → Forall (λ l, il_invoice_id l = iid ∧ il_type l = idle_line) lines.
Proof.
  revert lines. induction l as [|i l IH]; intros lines; simpl; [by intros [= <-]|]. intros (e & _ & H)%sum_bind_ok.
  apply sum_bind_ok in H as (x & Hx & H). apply sum_bind_ok in H as (xs & Hxs & [= <-]). apply Forall_app.
  split; [by eapply idle_lines_ids|by apply IH].
Qed.

Lemma energy_lines_ids iid segs lines :
  energy_lines iid segs = inr lines → Forall (λ l, il_invoice_id l = iid ∧ il_type l = energy_line) lines ∧
    sumZ (il_energy_uwh <$> lines) = sumZ (energy_consumed_uwh <$> segs).
Proof.
  revert lines. induction segs as [|g segs IH]; intros lines; simpl; [by intros [= <-]|]. intros (x & Hx & H)%sum_bind_ok.
  apply sum_bind_ok in H as (xs & Hxs & [= <-]). destruct (IH _ Hxs) as [IH1 IH2].
  apply sum_bind_ok in Hx as (tid & _ & [= <-]). split; [by constructor|]. rewrite !fmap_cons, !sumZ_cons, IH2. done.
Qed.

Lemma billed_energy_split energy idle :
  Forall (λ l, il_type l = energy_line) energy → Forall (λ l, il_type l = idle_line) idle →
  billed_energy (energy ++ idle) = sumZ (il_energy_uwh <$> energy).
Proof.
  intros He Hi. unfold billed_energy. rewrite filter_app, (list_filter_all _ energy), (list_filter_none _ idle), app_nil_r; [done| |].
  - intros l Hl. rewrite Forall_forall in Hi. rewrite (Hi l Hl). done.
  - by apply Forall_forall.
Qed.

Lemma invoice_lines_of_facts {dep : Deployment} charging st e readings daily intervals iid lines a b :
  invoice_lines_of charging st e readings daily intervals iid = inr lines → head readings = Some a → last readings = Some b →
  Forall (λ l, il_invoice_id l = iid) lines ∧ billed_energy lines = energy_uwh b - energy_uwh a.
Proof.
  unfold invoice_lines_of. intros (segs & Hs & H)%sum_bind_ok Ha Hb. rewrite Ha, Hb in H.
  destruct (sumZ (energy_consumed_uwh <$> segs) =? _) eqn:E; [|done]. apply Z.eqb_eq in E. cbn [negb] in H.
  apply sum_bind_ok in H as (energy & He & H). apply sum_bind_ok in H as (idle & Hi & [= <-]).
  apply energy_lines_ids in He as [He Hsum].
  assert (Forall (λ l, il_invoice_id l = iid ∧ il_type l = idle_line) idle) as Hid
    by (destruct (_ =? 0); [by eapply idle_lines_ids|by eapply interval_lines_ids]).
  split; [apply Forall_app; split; (eapply Forall_impl; [eassumption|]); by intros l [-> _]|].
  rewrite billed_energy_split; [by rewrite Hsum|..]; (eapply Forall_impl; [eassumption|]); by intros l [_ ->].
Qed.

Lemma billed_energy_perm l l' : l ≡ₚ l' → billed_energy l = billed_energy l'.
Proof.
  intros Hp. unfold billed_energy. by rewrite Hp.
Qed.

Section fresh.
Context {dep : Deployment} (charging : ChargingSession) (e driver : Z) (st : Station) (readings : list MeterValue)
  (intervals : list OccupationInterval) (bend o : Z) (db : Db).
Context (Hbill : billable charging e driver st readings intervals bend o db).

(** The tariff tables of a later database, as the invoice left them. *)
Context (dbm db2 : Db) (Hmark : marked db dbm).
Context (Htables : tariffs db2 = tariffs dbm ∧ tariff_bands db2 = tariff_bands dbm ∧ stations db2 = stations dbm ∧
  meter_samples db2 = meter_samples dbm ∧ occupation_intervals db2 = occupation_intervals dbm).

(** [db] with the marked tariffs agrees with [db2] on prices. *)
Lemma fresh_marked : marked db (set_tariffs (tariffs db2) db).
Proof. destruct Htables as (-> & _). rewrite <- (marked_db _ _ Hmark). done. Qed.

Lemma fresh_effective s d : effective s d db2 = effective s d (set_tariffs (tariffs db2) db).
Proof. done. Qed.

Lemma fresh_tables : tariff_bands db2 = tariff_bands db ∧ stations db2 = stations db ∧ meter_samples db2 = meter_samples db ∧
  occupation_intervals db2 = occupation_intervals db.
Proof. destruct Htables as (_ & -> & -> & -> & ->). rewrite (marked_db _ _ Hmark). done. Qed.

Lemma fresh_ok : tariffs_ok db2.
Proof.
  pose proof (marked_ok _ _ (proj1 (billable_table _ _ _ _ _ _ _ _ _ Hbill)) fresh_marked) as [H1 H2 H3 H4 H5].
  destruct fresh_tables as (E & _). split; simpl in *; try done; unfold bands_of in *; simpl in *; by rewrite E.
Qed.

Lemma fresh_fee tz s occ : occupation_fee tz s db2 occ = occupation_fee tz s db occ.
Proof.
  rewrite <- (occupation_fee_marked tz s _ _ occ (proj1 (billable_table _ _ _ _ _ _ _ _ _ Hbill)) fresh_marked). done.
Qed.

Lemma fresh_daily : ∃ daily, _daily_tariffs st (cs_started_at charging) bend false db2 = (inr daily, db2) ∧
  daily_exact charging st bend db2 daily ∧ ∀ d0, daily_exact charging st bend db d0 → d0.2 = daily.2.
Proof.
  destruct Hbill as [(cp & cn & _ & _ & _ & Hst & Hsid) _ _ Hint _ Hocc _ Hz Htar [Hok _] _].
  destruct (billed_occupation_ok _ _ _ _ _ _ Hocc) as [Hbend _]. destruct fresh_tables as (Eb & Es & _).
  destruct (daily_tariffs_days false charging st bend o db2) as (daily & db3 & Hrun & _ & Hex); [apply fresh_ok| |done|lia| |].
  - by rewrite Es, Hsid.
  - intros d Hd. destruct (Htar d Hd) as [t Ht]. pose proof (marked_same_price _ _ (st_id st) d Hok fresh_marked) as Hp.
    rewrite Ht, <- fresh_effective in Hp. destruct (effective (st_id st) d db2); [eauto|done].
  - exists daily. split; [|split; [done|]].
    + rewrite Hrun. f_equal. pose proof (pure_daily_tariffs st (cs_started_at charging) bend db2) as Hp. by rewrite Hrun in Hp.
    + intros d0 Hd0. apply (daily_frames_marked charging st bend db (set_tariffs (tariffs db2) db)); [done|apply fresh_marked|done|].
      intros d. specialize (Hex d). destruct (decide _); [|done].
      destruct Hex as (t & row & Ht & Hp & H1 & H2). exists t, row. split_and!; try done. rewrite H2. unfold frames_of, bands_of.
      simpl. by rewrite Eb.
Qed.

Context (inv : Invoice) (ledger : option WalletLedger) (wallet : option Wallet).

Definition fresh_row : AuditRow := mkAuditRow charging st (Some inv) ledger wallet.

(** The occupation the run prices is the one the invoice billed. *)
Lemma fresh_intervals : audit_intervals fresh_row db2 = (if cs_billing_lifecycle_version charging =? 1 then intervals else []) ∧
  audit_end fresh_row e (audit_intervals fresh_row db2) = bend ∧
  (cs_billing_lifecycle_version charging =? 1 = false → intervals = []).
Proof.
  pose proof (billable_occupation _ _ _ _ _ _ _ _ _ Hbill) as H. unfold billed_occupation in H.
  destruct fresh_tables as (_ & _ & _ & Eo). unfold audit_intervals, audit_end, sid. simpl.
  destruct (_ =? 1).
  - apply bind_ok in H as (rel & s1 & [Hr ->]%some_or_inr & H). rewrite bind_gets in H.
    apply bind_ok in H as ([] & s2 & [_ ->]%raise_if_inr & H). injection H as <- <-.
    assert (confirmed_intervals (cs_id charging) db2 = confirmed_intervals (cs_id charging) db) as -> by (unfold confirmed_intervals; by rewrite Eo).
    rewrite Hr. split_and!; [done| |done]. by destruct (confirmed_intervals _ db).
  - injection H as <- <-. done.
Qed.

Lemma price_intervals_lines v l d :
  (∀ i, i ∈ l → is_Some (oi_ended_at i)) → price_intervals fresh_row v l d = (interval_lines charging st v (inv_id inv) l, d).
Proof.
  induction l as [|i l IH]; intros Hl; [done|]. cbn [price_intervals interval_lines]. destruct (Hl i ltac:(set_solver)) as [x ->].
  cbn [from_option_err mbind sum_bind]. rewrite (bind_ok_step _ _ _ (inv_id inv) d) by done.
  unfold lift, mbind, M_bind. simpl. destruct (_idle_lines charging st x v (inv_id inv) _) as [err|lines]; [done|]. simpl.
  rewrite IH by set_solver. by destruct (interval_lines charging st v (inv_id inv) l).
Qed.

(** The idle amount, priced again, is the fee the invoice charged. *)
Lemma fresh_idle daily : daily_exact charging st bend db2 daily →
  price_idle fresh_row e daily.1 (audit_intervals fresh_row db2) db2 =
  (inr (sumZ (occupation_fee (zoneinfo (st_timezone st)) (st_id st) db <$> occupations charging e intervals)), db2).
Proof.
  intros Hex. destruct Hbill as [_ _ _ Hint _ Hocc Hidle Hz _ _ _].
  destruct (daily_exact_facts _ _ _ _ _ fresh_ok Hex) as (_ & Hrates & _).
  destruct (billed_occupation_ok _ _ _ _ _ _ Hocc) as [Hbend Hends].
  assert (∀ d, local_date (zoneinfo (st_timezone st)) (cs_started_at charging) ≤ d ≤
    local_date (zoneinfo (st_timezone st)) (bend - 1) → day_tariff (st_id st) d db2 daily) as Hdays.
  { intros d Hd. specialize (Hex d). by rewrite decide_True in Hex. }
  destruct fresh_intervals as (-> & _ & Hnil). unfold price_idle, occupations in *. simpl.
  destruct (cs_billing_lifecycle_version charging =? 0) eqn:Hv.
  - destruct (cs_idle_since charging) as [i|] eqn:Hi; [|done].
    destruct (Hidle (i, e) ltac:(set_solver)) as [Hi1 Hi2]; simpl in Hi1, Hi2.
    destruct (idle_lines_fee charging st o bend db2 daily Hz fresh_ok Hdays Hrates (inv_id inv) (Some i) i e) as (x & Hx & Hsum & _);
      [done|lia|lia|]. rewrite fmap_cons, sumZ_cons, Z.add_0_r, <- fresh_fee, <- Hsum.
    destruct (Z.ltb_spec i e).
    + unfold lift, mbind, M_bind. simpl. by rewrite Hx.
    + assert (x = []) as ->; [|done]. revert Hx. unfold _idle_lines. assert (i = e) as -> by lia.
      destruct (Z.ltb_spec e (cs_started_at charging)), (Z.ltb_spec e e); try lia. rewrite Z.eqb_refl. simpl. by intros [= <-].
  - assert ((if cs_billing_lifecycle_version charging =? 1 then intervals else []) = intervals) as ->
      by (destruct (_ =? 1); [done|by rewrite Hnil]).
    destruct (interval_lines_fee charging st o bend db2 daily Hz fresh_ok Hdays Hrates (inv_id inv) intervals) as (x & Hx & Hsum & _).
    { intros i Hi. destruct (Hends i Hi) as (r & Hr & Hb). exists r. split_and!; try done;
        specialize (Hidle (oi_started_at i, default 0 (oi_ended_at i)) ltac:(apply list_elem_of_fmap; by exists i));
        rewrite Hr in Hidle; simpl in Hidle; lia. }
    rewrite (bind_ok_step _ _ _ x db2).
    + rewrite Hsum. unfold mret, M_ret. do 3 f_equal. apply list_fmap_ext. intros. apply fresh_fee.
    + rewrite price_intervals_lines, Hx; [done|]. intros i Hi. destruct (Hends i Hi) as (r & -> & _). eauto.
Qed.
End fresh.

Lemma readings_head_last l a b : readings_ok l → head l = Some a → last l = Some b → energy_uwh a ≤ energy_uwh b.
Proof.
  intros Hs Ha Hb. destruct l as [|x l]; [done|]. injection Ha as ->. apply StronglySorted_inv in Hs as [_ Hs].
  destruct (decide (l = [])) as [->|Hne]; [by injection Hb as ->|].
  rewrite last_cons in Hb. destruct (last l) as [y|] eqn:El; [|by apply last_None in El]. injection Hb as ->.
  rewrite Forall_forall in Hs. assert (b ∈ l) as Hin by (apply last_Some in El as [l' ->]; set_solver).
  specialize (Hs b Hin). unfold earlier in Hs. lia.
Qed.

(** C15. What the system bills and debits, it accepts: when [_create_invoice]
    has stored the invoice of a billable session and the wallet shows the debit
    it calls for, checking the session against any later database with the same
    readings, tariffs, occupations and lines returns, counts it as matched and
    reports no issue. *)
Theorem fresh_invoice_reconciles {dep : Deployment} charging e driver st readings intervals bend o db inv db1 db2 ledger wallet run t :
  billable charging e driver st readings intervals bend o db →
  cs_ended_at charging = Some e → st_timezone st ≠ "" → (∀ l, l ∈ invoice_lines db → il_invoice_id l ≠ next_id db) →
  _create_invoice charging e db = (inr inv, db1) → same_inputs db1 db2 →
  paid (mkAuditRow charging st (Some inv) ledger wallet) inv →
  ∃ t' db3, check_session run (mkAuditRow charging st (Some inv) ledger wallet) t db2 = (inr t', db3) ∧
    ta_matched t' = ta_matched t + 1 ∧ ta_mismatch t' = ta_mismatch t ∧ ta_issues t' = ta_issues t.
Proof.
  intros Hbill He Hz Hnew Hinv (S1 & S2 & S3 & S4 & S5 & S6) Hpaid.
  destruct (create_invoice_run _ _ _ _ _ _ _ _ _ Hbill) as (energy & idle & _ & (daily & Hex & Hlines) & Hle & Hgt).
  set (total := sumZ (il_amount_vnd <$> energy ++ idle)) in *. destruct (decide (total ≤ MAX_VND)) as [Hmax|Hmax].
  2: { destruct Hgt as [d Hd]; [lia|]. congruence. }
  destruct (Hle Hmax) as (db1' & Hinv' & (dbm & Hm & E1)). rewrite Hinv in Hinv'. injection Hinv' as Hi <-.
  assert (tariffs db2 = tariffs dbm ∧ tariff_bands db2 = tariff_bands dbm ∧ stations db2 = stations dbm ∧
    meter_samples db2 = meter_samples dbm ∧ occupation_intervals db2 = occupation_intervals dbm) as Htab
    by (rewrite S1, S2, S3, S4, S5, E1; done).
  destruct (fresh_daily _ _ _ _ _ _ _ _ _ Hbill dbm db2 Hm Htab) as (daily2 & Hrun & Hex2 & Hframes).
  destruct (fresh_intervals _ _ _ _ _ _ _ _ _ Hbill dbm db2 Hm Htab inv ledger wallet) as (_ & Hend & _).
  pose proof (fresh_idle _ _ _ _ _ _ _ _ _ Hbill dbm db2 Hm Htab inv ledger wallet daily2 Hex2) as Hidle.
  destruct (invoice_lines_of_amounts _ _ _ _ _ _ _ _ Hlines) as (segs & idl & Hsegs & Hidl & Hsum).
  destruct (idle_part _ _ _ _ _ _ _ _ _ _ (next_id db) Hbill Hex) as (idl' & Hidl' & Hfee & _).
  rewrite Hidl in Hidl'. injection Hidl' as <-. rewrite (Hframes _ Hex) in Hsegs.
  pose proof (billable_readings _ _ _ _ _ _ _ _ _ Hbill) as Hread.
  destruct (meter_values_ok _ _ _ _ _ (billable_interval _ _ _ _ _ _ _ _ _ Hbill) Hread) as (stop & Hstop & Hrok & Hhead & Hlast).
  destruct (invoice_lines_of_facts _ _ _ _ _ _ _ _ _ _ Hlines Hhead Hlast) as [Hids Hbilled]. simpl in Hbilled.
  set (r := mkAuditRow charging st (Some inv) ledger wallet) in *.
  assert (billed_energy (lines_of_invoice (inv_id inv) db2) = stop - cs_meter_start_uwh charging) as Hb2.
  { rewrite <- Hbilled. apply billed_energy_perm. unfold lines_of_invoice. rewrite sort_by_perm, S6, E1. simpl.
    rewrite filter_app, (list_filter_none _ (invoice_lines db)), (list_filter_all _ (energy ++ idle)); [done| |].
    - rewrite Forall_forall in Hids. intros l Hl. rewrite (Hids l Hl), Hi. done.
    - intros l Hl. rewrite Hi. by apply Hnew. }
  assert (regular r inv e stop readings daily2.1 (sumZ (amount_vnd <$> segs)) (sumZ (il_amount_vnd <$> idl)) db2) as Hreg.
  { split; try done.
    - simpl. pose proof (readings_head_last readings _ _ Hrok Hhead Hlast) as Hle'. simpl in Hle'. done.
    - eapply meter_values_frame; [|exact Hread]. rewrite (proj1 (proj2 (proj2 (proj2 Htab)))). by rewrite (marked_db _ _ Hm).
    - unfold fresh_row in Hend. fold r in Hend. rewrite Hend. unfold price_energy. simpl. rewrite (bind_ok_step _ _ _ _ _ Hrun).
      unfold lift, audit_timezone. simpl. rewrite bool_decide_eq_false_2 by done. rewrite Hsegs. done.
    - rewrite Hfee. exact Hidle. }
  destruct (check_session_regular run r _ _ _ _ _ _ _ t db2 Hreg) as (t' & db3 & new & Hck & Hn & K1 & K2 & K3).
  assert (new = []) as ->.
  { apply Hn. split_and!; [done| |]; simpl.
    - rewrite <- Hsum. by rewrite Hi.
    - rewrite Hb2. replace (stop - cs_meter_start_uwh charging - (stop - cs_meter_start_uwh charging)) with 0 by lia. done. }
  exists t', db3. rewrite app_nil_r in K1. split_and!; try done. rewrite K3. simpl. lia.
Qed.

(** ** A bill that was never debited *)

#[local] Existing Instance demo_deployment.

Definition unpaid_db : Db := (_create_invoice bill_session (hours 16) bill_db).2.

Definition day_zero : RunRequest := mkRunRequest 0 0 None "day".

Lemma unpaid_keyed : sessions_keyed unpaid_db.
Proof.
  intros k c Hk. assert (charging_sessions unpaid_db = {[ 1 := bill_session ]}) as E by (vm_compute; reflexivity).
  rewrite E in Hk. by apply lookup_singleton_Some in Hk as [<- <-].
Qed.

Lemma reconciliation_run_adds_up_witness :
  ∃ run db', execute_reconciliation_run id day_zero (Some 1) unpaid_db = (inr run, db') ∧
    rr_matched_sessions run + rr_mismatch_sessions run = rr_total_sessions run ∧ rr_mismatch_sessions run = 1 ∧
    count_of "missing_ledger" (rr_summary_counts run) = 1.
Proof.
  destruct (execute_reconciliation_run id day_zero (Some 1) unpaid_db) as [[x|run] db'] eqn:E.
  { exfalso. assert ((execute_reconciliation_run id day_zero (Some 1) unpaid_db).1 = inl x) as H by (by rewrite E).
    vm_compute in H. discriminate H. }
  pose proof (reconciliation_run_adds_up id day_zero (Some 1) unpaid_db run db' unpaid_keyed E) as H.
  assert (match (execute_reconciliation_run id day_zero (Some 1) unpaid_db).1 with
    inr run => (rr_mismatch_sessions run, count_of "missing_ledger" (rr_summary_counts run)) = (1, 1) | inl _ => False end) as Hc
    by (vm_compute; reflexivity).
  rewrite E in Hc. injection Hc as H1 H2. exists run, db'. destruct H as (issues & n & _ & _ & H & _).
  exact (conj eq_refl (conj H (conj H1 H2))).
Defined.

Definition bill_invoice : Invoice := mkInvoice 201 1 2 30 16000 ROUNDING_RULE 0.

Definition unpaid_row : AuditRow := mkAuditRow bill_session demo_station (Some bill_invoice) None None.

Lemma unpaid_regular : ∃ versions,
  regular unpaid_row bill_invoice (hours 16) 3000000000 bill_readings versions 6000 10000 unpaid_db.
Proof.
  exists match (price_energy unpaid_row (hours 16) (audit_end unpaid_row (hours 16) (audit_intervals unpaid_row unpaid_db)) bill_readings unpaid_db).1
    with inr (v, _) => v | inl _ => ∅ end.
  split; vm_compute; try reflexivity; discriminate.
Qed.

Lemma reconciliation_matches_iff_witness :
  ∃ t' db', check_session 7 unpaid_row (start_tally []) unpaid_db = (inr t', db') ∧ ta_mismatch t' = 1.
Proof.
  destruct unpaid_regular as [versions Hreg].
  destruct (reconciliation_matches_iff 7 unpaid_row bill_invoice (hours 16) 3000000000 bill_readings versions 6000 10000
    (start_tally []) unpaid_db Hreg) as (t' & db' & new & H & _ & [(Ha & _)|(_ & _ & _ & Hm)]).
  - exfalso. destruct Ha as [Hp _]. unfold paid in Hp. rewrite decide_False in Hp by (intros [|]; discriminate).
    destruct Hp as (e & w & He & _). discriminate He.
  - exists t', db'. split; [exact H|]. rewrite Hm. reflexivity.
Defined.

Definition bill_debit : WalletLedger := mkLedger 5 10 charging_debit (-16000) 0 "charging_session" "1" None 0.

Lemma fresh_invoice_reconciles_witness :
  ∃ t' db3, check_session 7 (mkAuditRow bill_session demo_station (Some bill_invoice) (Some bill_debit) (Some (mkWallet 10 2 0 active)))
      (start_tally []) unpaid_db = (inr t', db3) ∧ ta_matched t' = 1.
Proof.
  destruct (fresh_invoice_reconciles bill_session (hours 16) 2 demo_station bill_readings [bill_interval] (hours 16 + 30 * minute_us)
    (7 * 3600000000) bill_db bill_invoice unpaid_db unpaid_db (Some bill_debit) (Some (mkWallet 10 2 0 active)) 7 (start_tally [])
    bill_billable eq_refl) as (t' & db3 & H & Hm & _).
  - discriminate.
  - intros l Hl. change (invoice_lines bill_db) with (@nil InvoiceLine) in Hl. exfalso. by apply elem_of_nil in Hl.
  - unfold unpaid_db. apply ran. vm_compute. reflexivity.
  - done.
  - unfold paid. rewrite decide_False by (intros [|]; discriminate). eexists _, _. split_and!; reflexivity.
  - exists t', db3. split; [exact H|]. rewrite Hm. reflexivity.
Defined.
