(* ===== verification/Alerts.v ===== *)
(** * Alerts: incidents of chargers and their e-mails

    Models [src/src/modules/alerts/service.py] and [alerts/worker.py]: the scan
    that opens incidents, what operators do with them, and the outbox of their
    e-mails. The advisory lock of the scan and what became of an SMTP
    conversation are arguments. The list of alerts ([alert_list]) only reads. *)

From S2P Require Import Prelude Clock Text Store AuditTrail Wallet Pricing Eligibility Occupation Monitoring MeterUnits Metering PowerSchedule PowerControl Reservations.

Definition ACTIVE_ALERT (a : OperationalAlert) : bool := bool_decide (oa_status a ∈ [alert_open; alert_acknowledged]).

Definition live (point : ChargePoint) (now : Z) : bool :=
  bool_decide (cp_status point = "online") && bool_decide (is_Some (cp_last_boot_at point)) &&
  match cp_last_seen_at point with
  | Some t => (t <=? now) && (now - t <=? seconds (2 * cp_heartbeat_interval_seconds point))
  | None => false
  end.

Section alerts.
Context {dep : Deployment}.

(** ** The scan *)

Definition insert_email (alert_id : Z) (recipient : string) (now : Z) : Tx () :=
  id ← fresh_id;
  modify (λ db, set_alert_emails (<[id := mkAlertEmail id alert_id recipient ae_pending 0 now None None None None]> (alert_emails db)) db).

(** [sorted({str(value) for value in settings.alert_email_recipients})] *)
Definition queue_email (alert_id now : Z) : Tx () :=
  for_each (sorted_roles alert_email_recipients) (λ recipient, insert_email alert_id recipient now).

(** The errors of a charger's connectors up to [now]. *)
Definition error_times (point_id now : Z) (archived_too : bool) (db : Db) : list Z :=
  filter (λ t, t ≤ now) (ce_occurred_at <$> filter (λ e,
    match connectors db !! ce_connector_id e with
    | Some cn => (cn_charge_point_id cn =? point_id) && (archived_too || bool_decide (cn_archived_at cn = None))
    | None => false
    end = true) (connector_errors db)).

Definition latest_of (l : list Z) : option Z := last (sort_by id l).

Definition error_window : Z := seconds alert_error_window_seconds.

Definition is_quiet (latest : option Z) (now : Z) : bool :=
  match latest with Some t => t <=? now - error_window | None => true end.

(** The contact the charger keeps, as the rule saw it. *)
Definition observe (point : ChargePoint) (now : Z) (s : AlertRuleState) : AlertRuleState :=
  if live point now then
    let s := if bool_decide (ar_online_since s = None)
             then set_ar_recovery_observations 0 (set_ar_online_since (Some now) s) else s in
    if bool_decide (ar_recovery_last_seen s = cp_last_seen_at point) then s
    else set_ar_recovery_last_seen (cp_last_seen_at point) (set_ar_recovery_observations (ar_recovery_observations s + 1) s)
  else set_ar_recovery_observations 0 (set_ar_recovery_last_seen None (set_ar_online_since None s)).

Definition recovered (point : ChargePoint) (now : Z) (latest : option Z) (s : AlertRuleState) : bool :=
  live point now &&
  match ar_online_since s with
  | Some since => seconds (2 * cp_heartbeat_interval_seconds point) <=? now - since
  | None => false
  end && (2 <=? ar_recovery_observations s) && is_quiet latest now.

Definition offline_late (point : ChargePoint) (now : Z) : bool :=
  negb (live point now) &&
  (seconds (2 * cp_heartbeat_interval_seconds point + alert_offline_grace_seconds) <=?
     now - match cp_last_seen_at point with Some t => t | None => cp_created_at point end).

Definition new_rule : AlertRuleState := mkRuleState true None None 0.

Definition update_alert (id : Z) (f : OperationalAlert → OperationalAlert) : Tx () :=
  modify (λ db, set_operational_alerts (alter f id (operational_alerts db)) db).

Definition put_rule (point_id : Z) (s : AlertRuleState) : Tx () :=
  modify (λ db, set_alert_rule_states (<[point_id := s]> (alert_rule_states db)) db).

Definition active_alert (point_id : Z) (db : Db) : option OperationalAlert :=
  select_where (λ a, (oa_charge_point_id a =? point_id) && ACTIVE_ALERT a) (operational_alerts db).

Definition alert_details (point : ChargePoint) (count : Z) : list (string * Json) :=
  [("error_count", JInt count); ("error_window_seconds", JInt alert_error_window_seconds);
   ("offline_grace_seconds", JInt alert_offline_grace_seconds);
   ("heartbeat_interval_seconds", JInt (cp_heartbeat_interval_seconds point))].

Definition open_alert (point : ChargePoint) (count now : Z) : Tx () :=
  id ← fresh_id;
  modify (λ db, set_operational_alerts (<[id := mkAlert id (cp_id point)
    (if offline_late point now then "offline" else "error_burst") alert_open now None None None None None None
    (alert_details point count)]> (operational_alerts db)) db);;
  queue_email id now.

(** One charger: whether an incident was opened. The rows locked at the start of
    the scan are those of the charger when its turn comes, for a turn writes
    only its own charger's rows. *)
Definition scan_point (now : Z) (point : ChargePoint) : Tx Z :=
  s ← gets (λ db, default new_rule (alert_rule_states db !! cp_id point));
  errors ← gets (error_times (cp_id point) now false);
  alert ← gets (active_alert (cp_id point));
  let s := observe point now s in
  let count := Z.of_nat (length (filter (λ t, now - error_window ≤ t) errors)) in
  let well := recovered point now (latest_of errors) s in
  let trigger := offline_late point now || (alert_error_threshold <=? count) in
  let s := if well then set_ar_armed true s else s in
  match alert with
  | Some a =>
      if well then when (bool_decide (oa_recovered_at a = None)) (update_alert (oa_id a) (set_oa_recovered_at (Some now)))
      else update_alert (oa_id a) (set_oa_recovered_at None)
  | None => mret ()
  end;;
  if trigger then
    let opens := ar_armed s && bool_decide (alert = None) in
    put_rule (cp_id point) (set_ar_armed false s);;
    when opens (open_alert point count now);;
    mret (if opens then 1 else 0)
  else put_rule (cp_id point) s;; mret 0.

Fixpoint scan_points (now : Z) (l : list ChargePoint) : Tx Z :=
  match l with
  | [] => mret 0
  | p :: rest => n ← scan_point now p; m ← scan_points now rest; mret (n + m)
  end.

Definition scanned (db : Db) (p : ChargePoint) : bool :=
  bool_decide (cp_archived_at p = None) &&
  match stations db !! cp_station_id p with
  | Some s => bool_decide (st_archived_at s = None) && negb (bool_decide (st_status s = "blocked"))
  | None => false
  end.

Definition scan_alerts (lock : bool) : Tx Z :=
  if negb lock then mret 0
  else
    now ← gets db_now;
    points ← gets (λ db, filter (λ p, scanned db p = true) (rows (charge_points db)));
    scan_points now points.

(** ** What operators do *)

Definition visible_alert (alert_id : Z) (db : Db) : option OperationalAlert :=
  a ← operational_alerts db !! alert_id;
  p ← charge_points db !! oa_charge_point_id a;
  s ← stations db !! cp_station_id p;
  if bool_decide (st_archived_at s = None) && bool_decide (cp_archived_at p = None) then Some a else None.

Definition email_ready : bool := alert_smtp_enabled && smtp_enabled.

Definition retry (now : Z) (e : AlertEmail) : AlertEmail :=
  set_ae_last_error None (set_ae_attempts 0 (set_ae_next_attempt_at now (set_ae_status ae_pending e))).

Inductive AlertAction := acknowledge | close (force : bool) (reason : string) | retry_email.

Definition action_name (a : AlertAction) : string :=
  match a with acknowledge => "alert.acknowledge" | close _ _ => "alert.close" | retry_email => "alert.retry-email" end.

Definition status_name (s : AlertStatus) : string :=
  match s with alert_open => "open" | alert_acknowledged => "acknowledged" | alert_closed => "closed" end.

(** Whether the alert was changed. *)
Definition mutate (a : OperationalAlert) (action : AlertAction) (scope : ActorScope) (evidence : Evidence) (now : Z) : Tx bool :=
  match action with
  | acknowledge =>
      raise_if (bool_decide (oa_status a = alert_closed)) (HTTPException 409);;
      if bool_decide (oa_status a = alert_acknowledged) then mret false
      else
        update_alert (oa_id a) (λ x, set_oa_acknowledged_by (Some (sc_actor_id scope))
          (set_oa_acknowledged_at (Some now) (set_oa_status alert_acknowledged x)));;
        mret true
  | close force reason =>
      raise_if (force && negb (bool_decide ("admin" ∈ ev_roles evidence))) (HTTPException 403);;
      raise_if (force && bool_decide (strip reason = "")) (HTTPException 422);;
      if bool_decide (oa_status a = alert_closed) then mret false
      else
        raise_if (negb force && bool_decide (oa_recovered_at a = None)) (HTTPException 409);;
        point ← gets (λ db, charge_points db !! oa_charge_point_id a);
        errors ← gets (error_times (oa_charge_point_id a) now true);
        raise_if (negb force && (match point with Some p => negb (live p now) | None => true end ||
                                 negb (is_quiet (latest_of errors) now))) (HTTPException 409);;
        update_alert (oa_id a) (λ x, set_oa_close_reason (Some (if bool_decide (strip reason = "") then "recovered" else strip reason))
          (set_oa_closed_by (Some (sc_actor_id scope)) (set_oa_closed_at (Some now) (set_oa_status alert_closed x))));;
        mret true
  | retry_email =>
      raise_if (negb email_ready) (HTTPException 409);;
      mails ← gets (λ db, filter (λ e, ae_alert_id e = oa_id a) (rows (alert_emails db)));
      match mails with
      | [] => queue_email (oa_id a) now;; mret true
      | _ =>
          modify (λ db, set_alert_emails ((λ e, if bool_decide (ae_alert_id e = oa_id a ∧ ae_status e = ae_failed) then retry now e else e)
            <$> alert_emails db) db);;
          mret (existsb (λ e, bool_decide (ae_status e = ae_failed)) mails)
      end
  end.

Definition mutate_alert (alert_id : Z) (action : AlertAction) (scope : ActorScope) (evidence : Evidence) : Tx () :=
  found ← gets (visible_alert alert_id);
  a ← some_or found (HTTPException 404);
  now ← gets db_now;
  changed ← mutate a action scope evidence now;
  if (changed : bool) then
    after ← gets (λ db, operational_alerts db !! oa_id a);
    let x := default a after in
    ghi_nhat_ky (Some (sc_actor_id scope)) (action_name action) "alert" (uuid_str (oa_id a))
      [("before", JStr (status_name (oa_status a))); ("after", JStr (status_name (oa_status x)));
       ("reason", match oa_close_reason x with Some s => JStr s | None => JNull end)]
      (Some (ev_permission evidence)) (Some (ev_roles evidence));;
    mret ()
  else mret ().

(** ** The outbox *)

(** What [send_smtp] puts in the message. *)
Record AlertDelivery := mkDelivery {
  ad_id : Z; ad_lease_token : Z; ad_recipient : string; ad_charger_code : string; ad_station_name : string;
  ad_kind : string; ad_opened_at : Z; ad_status : AlertStatus
}.

Definition due (now : Z) (e : AlertEmail) : bool :=
  (bool_decide (ae_status e ∈ [ae_pending; ae_retry]) && (ae_next_attempt_at e <=? now)) ||
  (bool_decide (ae_status e = ae_sending) && match ae_locked_until e with Some t => t <=? now | None => false end).

(** The e-mail with its alert, charger and station. *)
Record EmailRow := mkEmailRow { er_email : AlertEmail; er_alert : OperationalAlert; er_code : string; er_station : string }.

Definition email_row (db : Db) (e : AlertEmail) : option EmailRow :=
  a ← operational_alerts db !! ae_alert_id e;
  p ← charge_points db !! oa_charge_point_id a;
  s ← stations db !! cp_station_id p;
  Some (mkEmailRow e a (cp_code p) (st_name s)).

Definition update_email (id : Z) (f : AlertEmail → AlertEmail) : Tx () :=
  modify (λ db, set_alert_emails (alter f id (alert_emails db)) db).

Definition claim_email (now : Z) (r : EmailRow) : Tx (option AlertDelivery) :=
  let e := er_email r in
  if alert_email_max_attempts <=? ae_attempts e then
    update_email (ae_id e) (λ x, set_ae_last_error (Some "attempts_exhausted") (set_ae_status ae_failed x));; mret None
  else
    token ← fresh_id;
    update_email (ae_id e) (λ x, set_ae_locked_until (Some (now + seconds 120 + 2 * smtp_timeout_us))
      (set_ae_lease_token (Some token) (set_ae_status ae_sending (set_ae_attempts (ae_attempts x + 1) x))));;
    mret (Some (mkDelivery (ae_id e) token (ae_recipient e) (er_code r) (er_station r)
      (oa_kind (er_alert r)) (oa_opened_at (er_alert r)) (oa_status (er_alert r)))).

Fixpoint claim_all (now : Z) (l : list EmailRow) : Tx (list AlertDelivery) :=
  match l with
  | [] => mret []
  | r :: rest =>
      d ← claim_email now r;
      ds ← claim_all now rest;
      mret match d with Some d => d :: ds | None => ds end
  end.

Definition claim_emails : Tx (list AlertDelivery) :=
  if negb email_ready then mret []
  else
    now ← gets db_now;
    l ← gets (λ db, firstn 10 (omap (email_row db) (sort_by ae_next_attempt_at (sort_by ae_id
          (filter (λ e, due now e = true) (rows (alert_emails db)))))));
    claim_all now l.

Definition backoff (attempts : Z) : Z := seconds (Z.min 900 (30 * 2 ^ Z.min (attempts - 1) 5)).

Definition outcome (failed : bool) (now : Z) (e : AlertEmail) : AlertEmail :=
  let e := set_ae_lease_token None (set_ae_locked_until None e) in
  if failed then
    set_ae_next_attempt_at (now + backoff (ae_attempts e)) (set_ae_last_error (Some "smtp_unavailable")
      (set_ae_status (if alert_email_max_attempts <=? ae_attempts e then ae_failed else ae_retry) e))
  else set_ae_last_error None (set_ae_sent_at (Some now) (set_ae_status ae_sent e)).

(** After the SMTP conversation, [failed] or not. *)
Definition deliver_email (d : AlertDelivery) (failed : bool) : Tx () :=
  e ← gets (λ db, alert_emails db !! ad_id d);
  match e with
  | None => mret ()
  | Some e =>
      if negb (bool_decide (ae_lease_token e = Some (ad_lease_token d))) then mret ()
      else now ← gets db_now; update_email (ad_id d) (outcome failed now)
  end.
End alerts.
