(* ===== verification/AlertsSpec.v ===== *)
(** * AlertsSpec: one incident at a time, one incident per outage

    The tables of the alerts stay consistent under every operation, and an
    incident is not opened again before the charger was seen to recover. *)

From S2P Require Import Prelude Clock Text Store AuditTrail Wallet Pricing Eligibility Occupation Monitoring MeterUnits Metering PowerSchedule PowerControl Reservations Alerts.

(** ** Consistency *)

Record alerts_ok {dep : Deployment} (db : Db) : Prop := mkAlertsOk {
  ao_id : ∀ k a, operational_alerts db !! k = Some a → oa_id a = k ∧ k < next_id db;
  ao_one : ∀ k k' a a', operational_alerts db !! k = Some a → operational_alerts db !! k' = Some a' →
    ACTIVE_ALERT a = true → ACTIVE_ALERT a' = true → oa_charge_point_id a = oa_charge_point_id a' → k = k';
  ao_mail : ∀ k e, alert_emails db !! k = Some e → ae_id e = k ∧ k < next_id db ∧
    is_Some (operational_alerts db !! ae_alert_id e) ∧ 0 ≤ ae_attempts e ≤ alert_email_max_attempts ∧
    (ae_status e = ae_sending → is_Some (ae_lease_token e));
  ao_mail_one : ∀ k k' e e', alert_emails db !! k = Some e → alert_emails db !! k' = Some e' →
    ae_alert_id e = ae_alert_id e' → ae_recipient e = ae_recipient e' → k = k'
}.

Section keeps.
Context {dep : Deployment} (Hmax : 0 ≤ alert_email_max_attempts).

(** Operations that leave the tables alone. *)
Lemma alerts_ok_frame db db' :
  operational_alerts db' = operational_alerts db → alert_emails db' = alert_emails db → next_id db ≤ next_id db' →
  alerts_ok db → alerts_ok db'.
Proof.
  intros E1 E2 Hn [H1 H2 H3 H4]. split; rewrite ?E1, ?E2; try done.
  - intros k a Hk. destruct (H1 k a Hk). lia.
  - intros k e Hk. destruct (H3 k e Hk) as (? & ? & ? & ? & ?). split_and!; try done; lia.
Qed.

Lemma keeps_alerts_fresh : keeps alerts_ok fresh_id.
Proof. intros db H. by apply (alerts_ok_frame db); [done|done|simpl; lia|]. Qed.

Lemma keeps_alerts_put_rule p s : keeps alerts_ok (put_rule p s).
Proof. intros db H. by apply (alerts_ok_frame db). Qed.

Lemma keeps_alerts_audit a b c d e f g : keeps alerts_ok (ghi_nhat_ky a b c d e f g).
Proof. apply keeps_audit. intros row db H. by apply (alerts_ok_frame db); [done|done|simpl; lia|]. Qed.

(** An alert changes; it may be closed but not reopened. *)
Lemma alerts_ok_update id f db :
  (∀ a, operational_alerts db !! id = Some a →
    oa_id (f a) = oa_id a ∧ oa_charge_point_id (f a) = oa_charge_point_id a ∧ (ACTIVE_ALERT (f a) = true → ACTIVE_ALERT a = true)) →
  alerts_ok db → alerts_ok (set_operational_alerts (alter f id (operational_alerts db)) db).
Proof.
  intros Hf [H1 H2 H3 H4].
  assert (∀ k a', alter f id (operational_alerts db) !! k = Some a' → ∃ a, operational_alerts db !! k = Some a ∧ oa_id a' = oa_id a ∧
    oa_charge_point_id a' = oa_charge_point_id a ∧ (ACTIVE_ALERT a' = true → ACTIVE_ALERT a = true)) as Hold.
  { intros k a'. destruct (decide (k = id)) as [->|Hne].
    - rewrite lookup_alter_eq. destruct (operational_alerts db !! id) as [a|] eqn:E; [|done]. intros [= <-]. exists a. split; [done|]. by apply Hf.
    - rewrite lookup_alter_ne by done. intros Hk. by exists a'. }
  split; simpl; try done.
  - intros k a' (a & Hk & -> & _)%Hold. by apply H1.
  - intros k k' a' b' (a & Hk & _ & -> & Ha)%Hold (b & Hk' & _ & -> & Hb)%Hold Aa Ab E. eapply H2; eauto.
  - intros k e Hk. destruct (H3 k e Hk) as (? & ? & [a Ha] & ? & ?). split_and!; try done; try tauto.
    destruct (decide (ae_alert_id e = id)) as [<-|]; [rewrite lookup_alter_eq, Ha; eauto|rewrite lookup_alter_ne by done; eauto].
Qed.

(** An e-mail changes; its alert and recipient do not. *)
Definition email_step (e e' : AlertEmail) : Prop :=
  ae_id e' = ae_id e ∧ ae_alert_id e' = ae_alert_id e ∧ ae_recipient e' = ae_recipient e ∧
  (0 ≤ ae_attempts e ≤ alert_email_max_attempts → 0 ≤ ae_attempts e' ≤ alert_email_max_attempts) ∧
  (ae_status e' = ae_sending → (ae_status e = ae_sending → is_Some (ae_lease_token e)) → is_Some (ae_lease_token e')).

Lemma alerts_ok_emails db (m : gmap Z AlertEmail) :
  alerts_ok db → (∀ k e', m !! k = Some e' → ∃ e, alert_emails db !! k = Some e ∧ email_step e e') → alerts_ok (set_alert_emails m db).
Proof.
  intros [H1 H2 H3 H4] Hm. split; simpl; try done.
  - intros k e' (e & Hk & E1 & E2 & _ & E3 & E4)%Hm. destruct (H3 k e Hk) as (A & B & C & D & E). rewrite E1, E2. split_and!; try done.
    + by apply E3.
    + by apply E3.
    + auto.
  - intros k k' e1 e2 (e & Hk & _ & -> & -> & _)%Hm (e' & Hk' & _ & -> & -> & _)%Hm. by apply H4.
Qed.

Lemma email_step_refl e : email_step e e.
Proof. split_and!; try done; auto. Qed.

Lemma keeps_alerts_update_email id f :
  (∀ db e, alerts_ok db → alert_emails db !! id = Some e → email_step e (f e)) → keeps alerts_ok (update_email id f).
Proof.
  intros Hf db H. apply alerts_ok_emails; [done|]. intros k e'. destruct (decide (k = id)) as [->|Hne].
  - rewrite lookup_alter_eq. destruct (alert_emails db !! id) as [e|] eqn:E; [|done]. intros [= <-]. exists e. split; [done|]. by apply (Hf db).
  - rewrite lookup_alter_ne by done. intros Hk. exists e'. split; [done|apply email_step_refl].
Qed.

(** A new e-mail for a recipient the alert has none for. *)
Lemma insert_email_ok alert r now db db' :
  alerts_ok db → is_Some (operational_alerts db !! alert) →
  (∀ k e, alert_emails db !! k = Some e → ae_alert_id e = alert → ae_recipient e ≠ r) →
  insert_email alert r now db = (inr (), db') →
  alerts_ok db' ∧ operational_alerts db' = operational_alerts db ∧
  (∀ k e, alert_emails db' !! k = Some e → alert_emails db !! k = Some e ∨ ae_alert_id e = alert ∧ ae_recipient e = r) ∧
  (∀ k e, alert_emails db !! k = Some e → alert_emails db' !! k = Some e).
Proof.
  intros [H1 H2 H3 H4] Ha Hnew [= <-]. simpl.
  assert (alert_emails db !! next_id db = None) as Hn.
  { destruct (alert_emails db !! next_id db) as [e|] eqn:E; [|done]. destruct (H3 _ _ E) as (_ & ? & _). lia. }
  assert (∀ k e, <[next_id db := mkAlertEmail (next_id db) alert r ae_pending 0 now None None None None]> (alert_emails db) !! k = Some e →
    (k ≠ next_id db ∧ alert_emails db !! k = Some e) ∨ (k = next_id db ∧ ae_id e = k ∧ ae_alert_id e = alert ∧ ae_recipient e = r ∧ ae_attempts e = 0 ∧
      ae_status e = ae_pending)) as Hcases.
  { intros k e [[<- <-]|[Hne Hk]]%lookup_insert_Some; [by right|by left]. }
  split_and!.
  - split; simpl; try done.
    + intros k a Hk. destruct (H1 k a Hk). lia.
    + intros k e [[_ Hk]|(-> & Ei & Ea & _ & Et & Es)]%Hcases; [|rewrite Ei, Ea, Et, Es; split_and!; try done; lia].
      destruct (H3 k e Hk) as (? & ? & ? & ? & ?). split_and!; try done; try tauto. lia.
    + intros k k' e e' [[_ Hk]|(-> & _ & Ea & Er & _)]%Hcases [[_ Hk']|(-> & _ & Ea' & Er' & _)]%Hcases A B; try done.
      * by eapply H4.
      * exfalso. apply (Hnew k e Hk); congruence.
      * exfalso. apply (Hnew k' e' Hk'); congruence.
  - done.
  - intros k e [[_ Hk]|(_ & _ & ? & ? & _)]%Hcases; auto.
  - intros k e Hk. rewrite lookup_insert_ne; [done|]. intros E. congruence.
Qed.

Lemma queue_email_run alert now l : ∀ db db',
  NoDup l → alerts_ok db → is_Some (operational_alerts db !! alert) →
  (∀ k e, alert_emails db !! k = Some e → ae_alert_id e = alert → ae_recipient e ∉ l) →
  for_each l (λ r, insert_email alert r now) db = (inr (), db') → alerts_ok db' ∧ operational_alerts db' = operational_alerts db.
Proof.
  induction l as [|r l IH]; intros db db' Hnd Hok Ha Hnew H; simpl in H; [by injection H as <-|].
  apply NoDup_cons in Hnd as [Hr Hnd]. apply bind_ok in H as ([] & db1 & H1 & H).
  destruct (insert_email_ok alert r now db db1) as (Hok1 & E & Hback & _); try done.
  { intros k e Hk Hal. specialize (Hnew k e Hk Hal). set_solver. }
  destruct (IH db1 db' Hnd Hok1) as [? ?]; [by rewrite E| |done|split; [done|congruence]].
  intros k e Hk Hal. apply Hback in Hk as [Hk|[_ ->]]; [|done]. specialize (Hnew k e Hk Hal). set_solver.
Qed.

Lemma queue_email_returns alert now l db : ∃ db', for_each l (λ r, insert_email alert r now) db = (inr (), db').
Proof.
  revert db. induction l as [|r l IH]; intros db; simpl; [eauto|]. unfold mbind, M_bind. simpl. apply IH.
Qed.

Lemma recipients_NoDup : NoDup (sorted_roles alert_email_recipients).
Proof. unfold sorted_roles. rewrite merge_sort_Permutation. apply NoDup_remove_dups. Qed.

Lemma queue_email_ok alert now db db' :
  alerts_ok db → is_Some (operational_alerts db !! alert) → (∀ k e, alert_emails db !! k = Some e → ae_alert_id e ≠ alert) →
  queue_email alert now db = (inr (), db') → alerts_ok db' ∧ operational_alerts db' = operational_alerts db.
Proof.
  intros Hok Ha Hnew H. apply (queue_email_run alert now (sorted_roles alert_email_recipients) db db' recipients_NoDup Hok Ha); [|done].
  intros k e Hk Hal. by apply Hnew in Hk.
Qed.

(** *** The scan *)

Lemma open_alert_ok point count now db db' :
  alerts_ok db → active_alert (cp_id point) db = None → open_alert point count now db = (inr (), db') → alerts_ok db'.
Proof.
  intros [H1 H2 H3 H4] Hno H. apply bind_ok in H as (id & db1 & [= <- <-] & H). apply bind_ok in H as ([] & db2 & [= <-] & H).
  unfold active_alert in Hno. rewrite select_where_None in Hno.
  set (a := mkAlert (next_id db) (cp_id point) _ _ _ _ _ _ _ _ _ _) in *.
  assert (operational_alerts db !! next_id db = None) as Hn.
  { destruct (operational_alerts db !! next_id db) as [x|] eqn:E; [|done]. destruct (H1 _ _ E) as [_ ?]. lia. }
  eapply queue_email_ok; [| | |exact H].
  - split; simpl.
    + intros k x [[<- <-]|[_ Hk]]%lookup_insert_Some; [split; [done|lia]|]. destruct (H1 k x Hk). lia.
    + intros k k' x y [[<- <-]|[Hne Hk]]%lookup_insert_Some [[<- <-]|[Hne' Hk']]%lookup_insert_Some Ax Ay E; try done.
      * exfalso. specialize (Hno k' y Hk'). rewrite Ay, <- E in Hno. simpl in Hno. by rewrite Z.eqb_refl in Hno.
      * exfalso. specialize (Hno k x Hk). rewrite Ax, E in Hno. simpl in Hno. by rewrite Z.eqb_refl in Hno.
      * by eapply H2.
    + intros k e Hk. destruct (H3 k e Hk) as (? & ? & [b Hb] & ? & ?). split_and!; try done; try tauto; try lia.
      destruct (decide (ae_alert_id e = next_id db)) as [->|]; [rewrite lookup_insert_eq; eauto|rewrite lookup_insert_ne by done; eauto].
    + done.
  - simpl. rewrite lookup_insert_eq. eauto.
  - simpl. intros k e Hk E. destruct (H3 k e Hk) as (_ & _ & [b Hb] & _). rewrite E in Hb. congruence.
Qed.

Lemma keeps_alerts_recovered id now : keeps alerts_ok (update_alert id (set_oa_recovered_at now)).
Proof. intros db. apply alerts_ok_update. by intros []. Qed.

Lemma scan_point_ok now point db n db' : alerts_ok db → scan_point now point db = (inr n, db') → alerts_ok db'.
Proof.
  intros Hok H. unfold scan_point in H. rewrite !bind_gets in H. cbv zeta in H.
  set (s := observe _ _ _) in H. set (well := recovered _ _ _ _) in H.
  apply bind_ok in H as ([] & db1 & H1 & H).
  assert (alerts_ok db1 ∧ (active_alert (cp_id point) db = None → db1 = db)) as [Hok1 Hsame].
  { destruct (active_alert (cp_id point) db) as [a|]; [|injection H1 as <-; done]. split; [|done].
    refine (keeps_run alerts_ok _ _ _ _ _ Hok H1). destruct well; [apply keeps_when|]; apply keeps_alerts_recovered. }
  destruct (_ || _).
  - apply bind_ok in H as ([] & db2 & H2 & H). apply bind_ok in H as ([] & db3 & H3 & [= _ <-]).
    assert (alerts_ok db2) as Hok2 by (refine (keeps_run alerts_ok _ _ _ _ _ Hok1 H2); apply keeps_alerts_put_rule).
    destruct (ar_armed _ && bool_decide (active_alert (cp_id point) db = None)) eqn:Eo; simpl in H3; [|by injection H3 as <-].
    apply andb_true_iff in Eo as [_ Hno%bool_decide_eq_true]. eapply open_alert_ok; [exact Hok2| |exact H3].
    injection H2 as <-. rewrite (Hsame Hno). exact Hno.
  - apply bind_ok in H as ([] & db2 & H2 & [= _ <-]). refine (keeps_run alerts_ok _ _ _ _ _ Hok1 H2). apply keeps_alerts_put_rule.
Qed.

Lemma scan_points_ok now l : ∀ db n db', alerts_ok db → scan_points now l db = (inr n, db') → alerts_ok db'.
Proof.
  induction l as [|p l IH]; intros db n db' Hok H; simpl in H; [by injection H as _ <-|].
  apply bind_ok in H as (a & db1 & H1 & H). apply bind_ok in H as (b & db2 & H2 & [= _ <-]).
  eapply IH; [|exact H2]. by eapply scan_point_ok.
Qed.

Lemma scan_alerts_ok lock db n db' : alerts_ok db → scan_alerts lock db = (inr n, db') → alerts_ok db'.
Proof.
  intros Hok H. unfold scan_alerts in H. destruct lock; [|by injection H as _ <-]. cbn [negb] in H. rewrite !bind_gets in H. by eapply scan_points_ok.
Qed.

(** *** Operators and e-mails *)

Lemma mutate_ok a action scope ev now db b db' :
  alerts_ok db → operational_alerts db !! oa_id a = Some a → mutate a action scope ev now db = (inr b, db') → alerts_ok db'.
Proof.
  intros Hok Ha H. destruct action as [|force reason|]; simpl in H.
  - apply bind_ok in H as ([] & s1 & [Hc ->]%raise_if_inr & H). case_bool_decide; [by injection H as _ <-|].
    apply bind_ok in H as ([] & s2 & [= <-] & [= _ <-]). apply alerts_ok_update; [|done]. rewrite Ha. intros x [= <-]. split_and!; try done.
    intros _. unfold ACTIVE_ALERT. apply bool_decide_eq_false in Hc. by destruct (oa_status a).
  - apply bind_ok in H as ([] & s1 & [_ ->]%raise_if_inr & H). apply bind_ok in H as ([] & s2 & [_ ->]%raise_if_inr & H).
    case_bool_decide; [by injection H as _ <-|]. apply bind_ok in H as ([] & s3 & [_ ->]%raise_if_inr & H). rewrite !bind_gets in H.
    apply bind_ok in H as ([] & s4 & [_ ->]%raise_if_inr & H). apply bind_ok in H as ([] & s5 & [= <-] & [= _ <-]).
    apply alerts_ok_update; [|done]. intros x _. by split_and!.
  - apply bind_ok in H as ([] & s1 & [_ ->]%raise_if_inr & H). rewrite bind_gets in H.
    destruct (filter _ (rows (alert_emails db))) as [|x l] eqn:Ef.
    + apply bind_ok in H as ([] & s2 & H2 & [= _ <-]). eapply queue_email_ok; [done|by rewrite Ha| |exact H2].
      intros k e Hk E. assert (e ∈ filter (λ e, ae_alert_id e = oa_id a) (rows (alert_emails db))) as Hin
        by (apply list_elem_of_filter; split; [done|]; by apply elem_of_rows; eauto).
      rewrite Ef in Hin. by apply elem_of_nil in Hin.
    + apply bind_ok in H as ([] & s2 & [= <-] & [= _ <-]). apply alerts_ok_emails; [done|]. intros k e'. rewrite lookup_fmap.
      destruct (alert_emails db !! k) as [e|]; [|done]. intros [= <-]. exists e. split; [done|]. case_bool_decide; [|apply email_step_refl].
      by split_and!.
Qed.

Lemma mutate_alert_ok id action scope ev db b db' : alerts_ok db → mutate_alert id action scope ev db = (inr b, db') → alerts_ok db'.
Proof.
  intros Hok H. unfold mutate_alert in H. rewrite bind_gets in H. apply bind_ok in H as (a & s1 & [Hf ->]%some_or_inr & H).
  rewrite bind_gets in H. apply bind_ok in H as (c & s2 & H2 & H).
  assert (operational_alerts db !! oa_id a = Some a) as Ha.
  { unfold visible_alert in Hf. apply bind_Some in Hf as (x & Hx & Hf). apply bind_Some in Hf as (p & _ & Hf).
    apply bind_Some in Hf as (st & _ & Hf). destruct (_ && _); [|done]. injection Hf as ->. by rewrite (proj1 (ao_id _ Hok _ _ Hx)). }
  pose proof (mutate_ok _ _ _ _ _ _ _ _ Hok Ha H2) as Hok2. destruct c; [|by injection H as _ <-].
  rewrite bind_gets in H. apply bind_ok in H as (x & s3 & H3 & [= _ <-]).
  refine (keeps_run alerts_ok _ _ _ _ _ Hok2 H3). apply keeps_alerts_audit.
Qed.

Lemma claim_email_ok now r db d db' :
  alerts_ok db → claim_email now r db = (inr d, db') → alert_emails db !! ae_id (er_email r) = Some (er_email r) → alerts_ok db'.
Proof.
  intros Hok H He. unfold claim_email in H. cbv zeta in H. set (e := er_email r) in *.
  destruct (Z.leb_spec alert_email_max_attempts (ae_attempts e)).
  - apply bind_ok in H as ([] & s1 & [= <-] & [= _ <-]). apply alerts_ok_emails; [done|]. intros k e'.
    destruct (decide (k = ae_id e)) as [->|]; [rewrite lookup_alter_eq, He|rewrite lookup_alter_ne by done; intros Hk; exists e'; split; [done|apply email_step_refl]].
    intros [= <-]. exists e. by split_and!.
  - apply bind_ok in H as (tok & s1 & [= <- <-] & H). apply bind_ok in H as ([] & s2 & [= <-] & [= _ <-]).
    apply alerts_ok_emails; [by apply (alerts_ok_frame db); [done|done|simpl; lia|]|]. intros k e'. simpl.
    destruct (decide (k = ae_id e)) as [->|]; [rewrite lookup_alter_eq, He|rewrite lookup_alter_ne by done; intros Hk; exists e'; split; [done|apply email_step_refl]].
    intros [= <-]. exists e. split; [done|]. split_and!; simpl; try done; try lia; eauto.
Qed.

Lemma claim_email_others now r db d db' k :
  claim_email now r db = (inr d, db') → k ≠ ae_id (er_email r) → alert_emails db' !! k = alert_emails db !! k.
Proof.
  intros H Hne. unfold claim_email in H. cbv zeta in H. destruct (_ <=? _).
  - apply bind_ok in H as ([] & s1 & [= <-] & [= _ <-]). simpl. by rewrite lookup_alter_ne.
  - apply bind_ok in H as (tok & s1 & [= <- <-] & H). apply bind_ok in H as ([] & s2 & [= <-] & [= _ <-]). simpl. by rewrite lookup_alter_ne.
Qed.

Lemma claim_all_ok now l : ∀ db ds db',
  NoDup (ae_id ∘ er_email <$> l) → (∀ r, r ∈ l → alert_emails db !! ae_id (er_email r) = Some (er_email r)) → alerts_ok db →
  claim_all now l db = (inr ds, db') → alerts_ok db'.
Proof.
  induction l as [|r l IH]; intros db ds db' Hnd Hl Hok H; simpl in H; [by injection H as _ <-|].
  rewrite fmap_cons in Hnd. apply NoDup_cons in Hnd as [He Hnd].
  apply bind_ok in H as (d & s1 & H1 & H). apply bind_ok in H as (ds' & s2 & H2 & [= _ <-]).
  eapply IH; [done| | |exact H2].
  - intros x Hx. rewrite (claim_email_others _ _ _ _ _ _ H1); [apply Hl; set_solver|]. intros E. apply He.
    change (ae_id (er_email r)) with ((ae_id ∘ er_email) r) in E. rewrite <- E. by apply (list_elem_of_fmap_2 (ae_id ∘ er_email)).
  - eapply claim_email_ok; [done|exact H1|]. apply Hl. set_solver.
Qed.

Lemma email_row_email db e r : email_row db e = Some r → er_email r = e.
Proof.
  unfold email_row. intros (a & _ & H)%bind_Some. apply bind_Some in H as (p & _ & H). apply bind_Some in H as (s & _ & [= <-]). done.
Qed.

Lemma email_rows_sublist db l : er_email <$> omap (email_row db) l `sublist_of` l.
Proof.
  induction l as [|e l IH]; simpl; [done|]. destruct (email_row db e) as [r|] eqn:E; [|by apply sublist_cons].
  rewrite fmap_cons, (email_row_email _ _ _ E). by apply sublist_skip.
Qed.

Lemma claim_emails_ok db ds db' : alerts_ok db → claim_emails db = (inr ds, db') → alerts_ok db'.
Proof.
  intros Hok H. unfold claim_emails in H. destruct email_ready; [|by injection H as _ <-]. cbn [negb] in H. rewrite !bind_gets in H.
  set (l := sort_by ae_next_attempt_at _) in H.
  assert (∀ e, e ∈ l → alert_emails db !! ae_id e = Some e) as Hl.
  { intros e. unfold l. rewrite !elem_of_sort_by, list_elem_of_filter. intros [_ (k & Hk)%elem_of_rows].
    by rewrite (proj1 (ao_mail _ Hok _ _ Hk)). }
  assert (NoDup (ae_id <$> l)) as Hnd.
  { unfold l. rewrite !sort_by_perm. apply NoDup_fmap_filter. unfold rows. rewrite <- list_fmap_compose.
    assert ((ae_id ∘ snd) <$> map_to_list (alert_emails db) = (map_to_list (alert_emails db)).*1) as ->; [|apply NoDup_fst_map_to_list].
    apply list_fmap_ext. intros i [k e] Hi%list_elem_of_lookup_2%elem_of_map_to_list. apply (ao_mail _ Hok _ _ Hi). }
  eapply claim_all_ok; [| |exact Hok|exact H].
  - rewrite list_fmap_compose. eapply sublist_NoDup; [exact Hnd|]. apply fmap_sublist.
    etransitivity; [|apply (email_rows_sublist db)]. apply fmap_sublist, sublist_take.
  - intros r Hr. apply Hl. eapply elem_of_take in Hr as (i & Hr%list_elem_of_lookup_2 & _).
    apply list_elem_of_omap in Hr as (e & He & Er). by rewrite (email_row_email _ _ _ Er).
Qed.

Lemma deliver_email_ok d failed db b db' : alerts_ok db → deliver_email d failed db = (inr b, db') → alerts_ok db'.
Proof.
  intros Hok H. unfold deliver_email in H. rewrite bind_gets in H. destruct (alert_emails db !! ad_id d) as [e|] eqn:He; [|by injection H as _ <-].
  destruct (negb _); [by injection H as _ <-|]. rewrite bind_gets in H. injection H as _ <-.
  apply alerts_ok_emails; [done|]. intros k e'. destruct (decide (k = ad_id d)) as [->|].
  - rewrite lookup_alter_eq, He. intros [= <-]. exists e. split; [done|]. unfold outcome. destruct failed; [|by split_and!].
    split_and!; try done. simpl. by destruct (_ <=? _).
  - rewrite lookup_alter_ne by done. intros Hk. exists e'. split; [done|apply email_step_refl].
Qed.
End keeps.

(** ** The system: scans, operators, the outbox, and everything else *)

Definition points_by_id (db : Db) : Prop := ∀ k c, charge_points db !! k = Some c → cp_id c = k.

(** The rest of the server leaves the tables of the alerts alone. *)
Definition aside (db db' : Db) : Prop :=
  operational_alerts db' = operational_alerts db ∧ alert_emails db' = alert_emails db ∧
  alert_rule_states db' = alert_rule_states db ∧ next_id db ≤ next_id db' ∧ (points_by_id db → points_by_id db').

(** [ok] restricts the states in which a scan runs. *)
Inductive alert_step {dep : Deployment} (ok : Db → Prop) : Db → Db → Prop :=
  | step_scan lock n db db' : ok db → scan_alerts lock db = (inr n, db') → alert_step ok db db'
  | step_mutate id action scope ev b db db' : mutate_alert id action scope ev db = (inr b, db') → alert_step ok db db'
  | step_claim ds db db' : claim_emails db = (inr ds, db') → alert_step ok db db'
  | step_deliver d failed b db db' : deliver_email d failed db = (inr b, db') → alert_step ok db db'
  | step_aside db db' : aside db db' → alert_step ok db db'.

(** The charger as the scan of this state sees it. *)
Definition seen_recovered {dep : Deployment} (p : Z) (db : Db) : bool :=
  match charge_points db !! p with
  | Some point => recovered point (db_now db) (latest_of (error_times p (db_now db) false db))
                    (observe point (db_now db) (default new_rule (alert_rule_states db !! p)))
  | None => false
  end.

(** ** What the operations leave alone *)

Section quiet.
Context {dep : Deployment} (p : Z) (S : gset Z).

(** The incidents of [p] are among [S]. *)
Definition incidents_in (db : Db) : Prop :=
  ∀ k a, operational_alerts db !! k = Some a → oa_charge_point_id a = p → k ∈ S.

(** What the turn of another charger leaves alone. *)
Record same_as (db0 db : Db) : Prop := mkSameAs {
  sa_rule : alert_rule_states db !! p = alert_rule_states db0 !! p;
  sa_points : charge_points db = charge_points db0;
  sa_connectors : connectors db = connectors db0;
  sa_errors : connector_errors db = connector_errors db0;
  sa_incidents : incidents_in db0 → incidents_in db
}.

#[local] Instance same_as_refl : Reflexive same_as.
Proof. by intros db. Qed.

#[local] Instance same_as_trans : Transitive same_as.
Proof. intros a b c [A1 A2 A3 A4 A5] [B1 B2 B3 B4 B5]. split; [congruence..|auto]. Qed.

Lemma keeps_same_email db0 alert r now : keeps (same_as db0) (insert_email alert r now).
Proof. intros db H. transitivity db; [exact H|done]. Qed.

Lemma keeps_same_queue db0 alert now : keeps (same_as db0) (queue_email alert now).
Proof. unfold queue_email. apply keeps_for_each. intros r. apply keeps_same_email. Qed.

Lemma incidents_update id f db :
  (∀ a, oa_charge_point_id (f a) = oa_charge_point_id a) → incidents_in db →
  incidents_in (set_operational_alerts (alter f id (operational_alerts db)) db).
Proof.
  intros Hf H k a. simpl. destruct (decide (k = id)) as [->|]; [|rewrite lookup_alter_ne by done; apply H].
  rewrite lookup_alter_eq. destruct (operational_alerts db !! id) as [x|] eqn:E; [|done]. intros [= <-]. rewrite Hf. by apply H.
Qed.

Lemma keeps_same_update db0 id f :
  (∀ a, oa_charge_point_id (f a) = oa_charge_point_id a) → keeps (same_as db0) (update_alert id f).
Proof. intros Hf db H. transitivity db; [exact H|]. split; try done. by apply incidents_update. Qed.

Lemma keeps_same_rule db0 q s : q ≠ p → keeps (same_as db0) (put_rule q s).
Proof. intros Hne db H. transitivity db; [exact H|]. split; try done. simpl. by rewrite lookup_insert_ne. Qed.

Lemma keeps_same_open db0 point count now : cp_id point ≠ p → keeps (same_as db0) (open_alert point count now).
Proof.
  intros Hne. unfold open_alert. apply keeps_bind.
  { intros db H. transitivity db; [exact H|done]. }
  intros id. apply keeps_bind; [|intros _; apply keeps_same_queue].
  intros db H. transitivity db; [exact H|]. split; try done. intros Hin k a. simpl.
  intros [[<- <-]|[_ Hk]]%lookup_insert_Some; [done|by eapply Hin].
Qed.

Lemma scan_other now point db n db' : cp_id point ≠ p → scan_point now point db = (inr n, db') → same_as db db'.
Proof.
  intros Hne H. refine (keeps_run (same_as db) _ _ _ _ _ _ H); [|done]. unfold scan_point.
  pose proof (λ d s, keeps_same_rule d (cp_id point) s Hne). pose proof (λ d c t, keeps_same_open d point c t Hne).
  keeps_steps; apply keeps_same_update; by intros [].
Qed.

Lemma scan_others now l : ∀ db n db', (∀ q, q ∈ l → cp_id q ≠ p) → scan_points now l db = (inr n, db') → same_as db db'.
Proof.
  induction l as [|q l IH]; intros db n db' Hl H; simpl in H; [by injection H as _ <-|].
  apply bind_ok in H as (a & db1 & H1 & H). apply bind_ok in H as (b & db2 & H2 & [= _ <-]).
  transitivity db1; [eapply scan_other; [|exact H1]|eapply IH; [|exact H2]]; set_solver.
Qed.

Definition disarmed (db : Db) : Prop := ∃ s, alert_rule_states db !! p = Some s ∧ ar_armed s = false.

Lemma observe_armed point now s : ar_armed (observe point now s) = ar_armed s.
Proof. unfold observe. destruct s. simpl. by repeat case_match. Qed.

(** The charger's own turn. *)
Lemma scan_own now point db n db' :
  cp_id point = p → incidents_in db → scan_point now point db = (inr n, db') →
  disarmed db' ∨ incidents_in db'.
Proof.
  intros Ep Hin H. unfold scan_point in H. rewrite !bind_gets in H. cbv zeta in H. apply bind_ok in H as ([] & db1 & H1 & H).
  destruct (_ || _).
  - left. apply bind_ok in H as ([] & db2 & H2 & H). apply bind_ok in H as ([] & db3 & H3 & [= _ <-]).
    injection H2 as <-. rewrite Ep in H3. set (s := if recovered _ _ _ _ then _ else _) in H3.
    set (s' := set_ar_armed false s) in H3.
    assert (alert_rule_states db3 !! p = Some s') as Hs; [|by exists s'].
    refine (keeps_run (λ db, alert_rule_states db !! p = Some s') _ _ _ _ _ _ H3); [|simpl; by rewrite lookup_insert_eq].
    apply keeps_when. unfold open_alert. apply keeps_bind; [by intros ? ?|]. intros id. apply keeps_bind; [by intros ? ?|].
    intros _. unfold queue_email. apply keeps_for_each. intros r. by intros ? ?.
  - right. apply bind_ok in H as ([] & db2 & H2 & [= _ <-]). injection H2 as <-. intros k a. simpl.
    destruct (active_alert _ db) as [x|]; [|injection H1 as <-; apply Hin].
    refine (keeps_run incidents_in _ _ _ _ _ Hin H1 k a).
    destruct (recovered _ _ _ _); [apply keeps_when|]; intros db1' H1'; apply incidents_update; (try by intros []); done.
Qed.

Lemma scan_own_quiet now point db n db' :
  cp_id point = p → disarmed db → incidents_in db →
  recovered point now (latest_of (error_times p now false db)) (observe point now (default new_rule (alert_rule_states db !! p))) = false →
  scan_point now point db = (inr n, db') → disarmed db' ∧ incidents_in db'.
Proof.
  intros Ep (s & Hs & Ha) Hin Hr H. unfold scan_point in H. rewrite !bind_gets in H. cbv zeta in H. rewrite Ep, Hr, Hs in H. simpl in H.
  apply bind_ok in H as ([] & db1 & H1 & H). rewrite observe_armed, Ha in H. simpl in H.
  assert (incidents_in db1) as Hin1.
  { destruct (active_alert _ db) as [x|]; [|by injection H1 as <-]. injection H1 as <-. apply incidents_update; [by intros []|done]. }
  destruct (_ || _).
  - apply bind_ok in H as ([] & db2 & H2 & H). apply bind_ok in H as ([] & db3 & H3 & [= _ <-]). injection H2 as <-. injection H3 as <-.
    split; [|exact Hin1]. eexists. simpl. rewrite lookup_insert_eq. split; [done|]. by destruct (observe _ _ _).
  - apply bind_ok in H as ([] & db2 & H2 & [= _ <-]). injection H2 as <-. split; [|exact Hin1]. eexists. simpl. rewrite lookup_insert_eq.
    split; [done|]. by rewrite observe_armed.
Qed.

(** The turns of a scan: those before the charger's, its own, those after. *)
Lemma scan_points_app now l1 l2 db n db' :
  scan_points now (l1 ++ l2) db = (inr n, db') →
  ∃ n1 n2 db1, scan_points now l1 db = (inr n1, db1) ∧ scan_points now l2 db1 = (inr n2, db').
Proof.
  revert db n. induction l1 as [|q l1 IH]; intros db n H; simpl in H; [by exists 0, n, db|].
  apply bind_ok in H as (a & db1 & H1 & H). apply bind_ok in H as (b & db2 & H2 & [= _ <-]).
  apply IH in H2 as (n1 & n2 & db3 & H3 & H4). exists (a + n1), n2, db3. split; [|done].
  simpl. unfold mbind, M_bind. by rewrite H1, H3.
Qed.

Definition turns (db : Db) : list ChargePoint := filter (λ q, scanned db q = true) (rows (charge_points db)).

Lemma turns_split db :
  points_by_id db →
  (∀ q, q ∈ turns db → cp_id q ≠ p) ∨
  ∃ l1 q l2, turns db = l1 ++ q :: l2 ∧ charge_points db !! p = Some q ∧ cp_id q = p ∧
    (∀ x, x ∈ l1 → cp_id x ≠ p) ∧ (∀ x, x ∈ l2 → cp_id x ≠ p).
Proof.
  intros Hk. destruct (decide (p ∈ cp_id <$> turns db)) as [(q & Eq & Hq)%list_elem_of_fmap|Hno].
  - right. assert (NoDup (cp_id <$> turns db)) as Hnd.
    { unfold turns. apply NoDup_fmap_filter. unfold rows. rewrite <- list_fmap_compose.
      assert ((cp_id ∘ snd) <$> map_to_list (charge_points db) = (map_to_list (charge_points db)).*1) as ->; [|apply NoDup_fst_map_to_list].
      apply list_fmap_ext. intros i [k e] Hi%list_elem_of_lookup_2%elem_of_map_to_list. by apply Hk. }
    assert (charge_points db !! p = Some q) as Hp.
    { unfold turns in Hq. apply list_elem_of_filter in Hq as [_ (k & Hx)%elem_of_rows]. by rewrite Eq, (Hk _ _ Hx). }
    apply list_elem_of_split in Hq as (l1 & l2 & E). exists l1, q, l2. rewrite E, fmap_app, fmap_cons in Hnd.
    apply NoDup_app in Hnd as (_ & Hd & [Hn _]%NoDup_cons). split_and!; try done.
    + intros x Hx Ex. apply (Hd (cp_id x)); [by apply list_elem_of_fmap_2|]. rewrite Ex, Eq. set_solver.
    + intros x Hx Ex. apply Hn. rewrite <- Eq, <- Ex. by apply list_elem_of_fmap_2.
  - left. intros q Hq Eq. apply Hno. rewrite <- Eq. by apply list_elem_of_fmap_2.
Qed.

Lemma same_as_disarmed db db' : same_as db db' → disarmed db → disarmed db'.
Proof. intros H (s & Hs & Ha). exists s. by rewrite (sa_rule _ _ H). Qed.

Lemma scan_alerts_turns n db db' : scan_alerts true db = (inr n, db') → scan_points (db_now db) (turns db) db = (inr n, db').
Proof. intros H. unfold scan_alerts in H. cbn [negb] in H. by rewrite !bind_gets in H. Qed.

(** A scan that opens an incident disarms the rule. *)
Lemma scan_disarms n db db' :
  points_by_id db → incidents_in db → scan_alerts true db = (inr n, db') → disarmed db' ∨ incidents_in db'.
Proof.
  intros Hk Hin H%scan_alerts_turns. destruct (turns_split db Hk) as [Hno|(l1 & q & l2 & E & Hq & Eq & H1 & H2)].
  { right. eapply sa_incidents; [eapply scan_others; [exact Hno|exact H]|done]. }
  rewrite E in H. apply scan_points_app in H as (n1 & n2 & db1 & Ha & Hb). simpl in Hb.
  apply bind_ok in Hb as (x & db2 & Hb & Hc). apply bind_ok in Hc as (y & db3 & Hc & [= _ <-]).
  apply scan_others in Ha as Hs1; [|done]. apply scan_others in Hc as Hs3; [|done].
  destruct (scan_own _ _ _ _ _ Eq (sa_incidents _ _ Hs1 Hin) Hb) as [Hd|Hi]; [left; by eapply same_as_disarmed|right; by apply (sa_incidents _ _ Hs3)].
Qed.

Lemma error_times_same now db db' : same_as db db' → error_times p now false db' = error_times p now false db.
Proof. intros H. unfold error_times. by rewrite (sa_connectors _ _ H), (sa_errors _ _ H). Qed.

Lemma scan_quiet lock n db db' :
  points_by_id db → disarmed db → incidents_in db → seen_recovered p db = false → scan_alerts lock db = (inr n, db') →
  disarmed db' ∧ incidents_in db'.
Proof.
  intros Hk Hd Hin Hr H. destruct lock; [|by injection H as _ <-]. apply scan_alerts_turns in H.
  destruct (turns_split db Hk) as [Hno|(l1 & q & l2 & E & Hq & Eq & H1 & H2)].
  { apply scan_others in H; [|done]. split; [by eapply same_as_disarmed|by apply (sa_incidents _ _ H)]. }
  rewrite E in H. apply scan_points_app in H as (n1 & n2 & db1 & Ha & Hb). simpl in Hb.
  apply bind_ok in Hb as (x & db2 & Hb & Hc). apply bind_ok in Hc as (y & db3 & Hc & [= _ <-]).
  apply scan_others in Ha as Hs1; [|done]. apply scan_others in Hc as Hs3; [|done].
  unfold seen_recovered in Hr. rewrite Hq in Hr.
  edestruct (scan_own_quiet (db_now db) q db1) as [Hd2 Hi2]; [done|by eapply same_as_disarmed|by apply (sa_incidents _ _ Hs1)| |exact Hb|].
  { by rewrite (error_times_same _ _ _ Hs1), (sa_rule _ _ Hs1). }
  split; [by eapply same_as_disarmed|by apply (sa_incidents _ _ Hs3)].
Qed.

(** *** The other operations *)

Lemma mutate_same a action scope ev now db0 : keeps (same_as db0) (mutate a action scope ev now).
Proof.
  unfold mutate. pose proof (keeps_same_queue db0).
  keeps_steps; try (apply keeps_same_update; by intros []). intros db H'. transitivity db; [exact H'|done].
Qed.

Lemma mutate_alert_same id action scope ev db r db' : mutate_alert id action scope ev db = (r, db') → same_as db db'.
Proof.
  intros H. refine (keeps_run (same_as db) _ _ _ _ _ _ H); [|done]. unfold mutate_alert. pose proof (λ a b c d e, mutate_same a b c d e db).
  assert (∀ a b c d e f g, keeps (same_as db) (ghi_nhat_ky a b c d e f g))
    by (intros; apply keeps_audit; intros row x Hx; transitivity x; [exact Hx|done]).
  keeps_steps.
Qed.

Lemma keeps_same_update_email db0 id f : keeps (same_as db0) (update_email id f).
Proof. intros db H. transitivity db; [exact H|done]. Qed.

Lemma claim_all_same now l db0 : keeps (same_as db0) (claim_all now l).
Proof.
  pose proof (keeps_same_update_email db0).
  assert (keeps (same_as db0) fresh_id) by (intros db H'; transitivity db; [exact H'|done]).
  induction l as [|e l IH]; simpl; unfold claim_email; keeps_steps.
Qed.

Lemma claim_emails_same db r db' : claim_emails db = (r, db') → same_as db db'.
Proof. intros H. refine (keeps_run (same_as db) _ _ _ _ _ _ H); [|done]. unfold claim_emails. pose proof claim_all_same. keeps_steps. Qed.

Lemma deliver_email_same d failed db r db' : deliver_email d failed db = (r, db') → same_as db db'.
Proof.
  intros H. refine (keeps_run (same_as db) _ _ _ _ _ _ H); [|done]. unfold deliver_email. pose proof (keeps_same_update_email db). keeps_steps.
Qed.
End quiet.

(** ** Theorems *)

Lemma keeps_points_scan {dep : Deployment} x lock : keeps (λ db, charge_points db = x) (scan_alerts lock).
Proof.
  assert (∀ now l, keeps (λ db, charge_points db = x) (scan_points now l)) as Hl.
  { intros now l. induction l as [|q l IH]; simpl; [apply keeps_ret|]. apply keeps_bind; [|intros n; keeps_steps].
    unfold scan_point, open_alert, update_alert, put_rule, queue_email, insert_email. keeps_steps; by intros ? ?. }
  unfold scan_alerts. keeps_steps.
Qed.

(** C17. The alerts stay consistent under any interleaving of scans, operators'
    actions, e-mail claims and deliveries and the rest of the server: a charger
    has at most one incident that is not closed, an incident has at most one
    e-mail per recipient, no e-mail is tried more often than the settings allow,
    and one being sent is leased. *)
Theorem alerts_stay_consistent {dep : Deployment} db db' :
  0 ≤ alert_email_max_attempts → alerts_ok db → rtc (alert_step (λ _, True)) db db' → alerts_ok db'.
Proof.
  intros Hmax Hok Hrun. induction Hrun as [db|db db1 db' Hs _ IH]; [done|]. apply IH.
  destruct Hs as [lock n x y _ H|id action scope ev b x y H|ds x y H|d failed b x y H|x y (E1 & E2 & _ & Hn & _)].
  - by eapply scan_alerts_ok.
  - by eapply mutate_alert_ok.
  - by eapply claim_emails_ok.
  - by eapply deliver_email_ok.
  - by apply (alerts_ok_frame x).
Qed.

Section hysteresis.
Context {dep : Deployment} (p : Z).

Definition calm (S : gset Z) (db : Db) : Prop := points_by_id db ∧ disarmed p db ∧ incidents_in p S db.

Lemma same_as_calm S db db' : same_as p S db db' → calm S db → calm S db'.
Proof.
  intros H (Hk & Hd & Hi). split_and!; [|by eapply same_as_disarmed|by apply (sa_incidents _ _ _ _ H)].
  unfold points_by_id. by rewrite (sa_points _ _ _ _ H).
Qed.

Lemma calm_step S db db' : alert_step (λ db, seen_recovered p db = false) db db' → calm S db → calm S db'.
Proof.
  intros Hs Hc.
  destruct Hs as [lock n db db' Hr H|id action scope ev b db db' H|ds db db' H|d failed b db db' H|db db' (E1 & E2 & E3 & _ & Hk')].
  - destruct Hc as (Hk & Hd & Hi). destruct (scan_quiet p S lock n db db' Hk Hd Hi Hr H). split; [|done].
    unfold points_by_id. by rewrite (keeps_run _ _ _ _ _ (keeps_points_scan (charge_points db) lock) eq_refl H).
  - eapply same_as_calm; [by eapply mutate_alert_same|done].
  - eapply same_as_calm; [by eapply claim_emails_same|done].
  - eapply same_as_calm; [by eapply deliver_email_same|done].
  - destruct Hc as (Hk & Hd & Hi). split_and!; [by apply Hk'|unfold disarmed; by rewrite E3|unfold incidents_in; by rewrite E1].
Qed.
End hysteresis.

Definition incident_ids (p : Z) (db : Db) : gset Z :=
  dom (filter (λ '(_, a), oa_charge_point_id a = p) (operational_alerts db)).

Lemma elem_of_incident_ids p k db :
  k ∈ incident_ids p db ↔ ∃ a, operational_alerts db !! k = Some a ∧ oa_charge_point_id a = p.
Proof.
  unfold incident_ids. rewrite elem_of_dom. split.
  - intros [a [? ?]%map_lookup_filter_Some]. eauto.
  - intros (a & ? & ?). exists a. by apply map_lookup_filter_Some.
Qed.

(** C16. An outage is reported once: after a scan opened an incident for a charger,
    whatever operators, mail workers and the rest of the server do, and also
    when the incident is closed by force in between, no further incident of that
    charger appears until a scan sees it recovered (heartbeats for two intervals,
    two contacts, no recent error). *)
Theorem alert_not_reopened_before_recovery {dep : Deployment} p k n db0 db1 db2 :
  points_by_id db0 → scan_alerts true db0 = (inr n, db1) → k ∈ incident_ids p db1 → k ∉ incident_ids p db0 →
  rtc (alert_step (λ db, seen_recovered p db = false)) db1 db2 →
  incident_ids p db2 ⊆ incident_ids p db1.
Proof.
  intros Hk Hscan Hin Hnew Hrun.
  assert (points_by_id db1) as Hk1
    by (unfold points_by_id; by rewrite (keeps_run _ _ _ _ _ (keeps_points_scan (charge_points db0) true) eq_refl Hscan)).
  destruct (scan_disarms p (incident_ids p db0) n db0 db1) as [Hd|Hi]; try done.
  - intros k' a Ha Ep. apply elem_of_incident_ids. eauto.
  - assert (calm p (incident_ids p db1) db2) as (_ & _ & Hi).
    { assert (calm p (incident_ids p db1) db1) as Hc by (split_and!; [done..|intros k' a Ha Ep; apply elem_of_incident_ids; eauto]).
      clear -Hrun Hc. revert Hc. generalize (incident_ids p db1). intros S. induction Hrun as [|x y z Hs _ IH]; [done|]. intros Hc.
      by apply IH, (calm_step p S x y). }
    intros k' (a & Ha & Ep)%elem_of_incident_ids. by apply (Hi k' a).
  - exfalso. apply Hnew. apply elem_of_incident_ids in Hin as (a & Ha & Ep). by apply (Hi k a).
Qed.

(** *** A charger that went silent *)

Definition outage_db : Db := set_db_now (seconds 1000) demo_power_db.
Definition first_scan : Tx Z := scan_alerts (dep := demo_deployment) true.
Definition incident_db : Db := (first_scan outage_db).2.
Definition incident_id : Z := next_id outage_db.
Definition force_close : Tx () :=
  mutate_alert (dep := demo_deployment) incident_id (close true "replaced") demo_scope (mkEvidence "admin.alerts.manage" ["admin"]).
Definition closed_db : Db := (force_close incident_db).2.
Definition second_db : Db := (first_scan (set_db_now (seconds 2000) closed_db)).2.

Lemma outage_points : points_by_id outage_db.
Proof. intros k c Hc. unfold outage_db, demo_power_db in Hc. simpl in Hc. apply lookup_singleton_Some in Hc as [<- <-]. done. Qed.

Lemma outage_ok : alerts_ok (dep := demo_deployment) outage_db.
Proof.
  assert (∀ k i, ¬ operational_alerts outage_db !! k = Some i)
    by (intros k i; change (operational_alerts outage_db) with (∅ : gmap Z OperationalAlert); by rewrite lookup_empty).
  assert (∀ k i, ¬ alert_emails outage_db !! k = Some i)
    by (intros k i; change (alert_emails outage_db) with (∅ : gmap Z AlertEmail); by rewrite lookup_empty).
  split; naive_solver.
Qed.

Lemma aside_clock t db : aside db (set_db_now t db).
Proof. by split_and!. Qed.

Lemma outage_run (ok : Db → Prop) :
  ok (set_db_now (seconds 2000) closed_db) → rtc (alert_step (dep := demo_deployment) ok) incident_db second_db.
Proof.
  intros Hok. apply (rtc_l _ _ closed_db).
  { eapply (step_mutate ok incident_id (close true "replaced") demo_scope (mkEvidence "admin.alerts.manage" ["admin"]) ()).
    assert ((force_close incident_db).1 = inr ()) as E by (vm_compute; reflexivity). unfold closed_db. rewrite <- E. apply surjective_pairing. }
  apply (rtc_l _ _ (set_db_now (seconds 2000) closed_db)); [apply step_aside, aside_clock|].
  apply rtc_once. apply (step_scan ok true 0); [done|].
  assert ((first_scan (set_db_now (seconds 2000) closed_db)).1 = inr 0) as E by (vm_compute; reflexivity).
  unfold second_db. rewrite <- E. apply surjective_pairing.
Qed.

Lemma first_scan_opens : first_scan outage_db = (inr 1, incident_db).
Proof.
  assert ((first_scan outage_db).1 = inr 1) as E by (vm_compute; reflexivity). unfold incident_db. rewrite <- E. apply surjective_pairing.
Qed.

Lemma alerts_stay_consistent_witness : alerts_ok (dep := demo_deployment) second_db ∧ length (rows (operational_alerts second_db)) = 1%nat.
Proof.
  split; [|vm_compute; reflexivity]. apply (alerts_stay_consistent (dep := demo_deployment) outage_db second_db); [simpl; lia|apply outage_ok|].
  apply (rtc_l _ _ incident_db); [by apply (step_scan _ true 1), first_scan_opens|by apply outage_run].
Defined.

Lemma alert_not_reopened_before_recovery_witness : incident_ids 40 second_db ⊆ incident_ids 40 incident_db ∧ incident_ids 40 incident_db = {[ incident_id ]}.
Proof.
  split; [|vm_compute; reflexivity].
  apply (alert_not_reopened_before_recovery (dep := demo_deployment) 40 incident_id 1 outage_db incident_db second_db).
  - apply outage_points.
  - apply first_scan_opens.
  - apply elem_of_dom. vm_compute. eauto.
  - rewrite elem_of_incident_ids. intros (a & Ha & _). by vm_compute in Ha.
  - apply outage_run. vm_compute. reflexivity.
Defined.
