(* ===== verification/Transport.v ===== *)
(** * Transport: sockets, frames and calls

    Models [src/src/modules/ocpp/connection_registry.py], [ocpp/transport.py], the
    admission and receive loop of [ocpp/router.py] and the look-up of
    [ocpp/repository.py]. Connections are objects shared by the registry, the
    receive loop and every task that calls the charger: they live in one store,
    keyed by their socket, and the registry holds references. The event loop runs
    one step at a time; a call is the step that sends it and, later, the step in
    which its caller wakes. Whether the database is down and whether a send
    breaks are arguments; wall-clock latency is left out of the telemetry. *)

From S2P Require Import Prelude Clock Text Store AuditTrail Wallet Pricing Eligibility ClosureScan Occupation Monitoring MeterUnits JsonText Frames Metering PowerSchedule PowerControl Reservations Sessions Dispatcher PowerWorker Configuration.

Inductive Future := Waiting | Resolved (f : Frame) | Cancelled.

Record OcppConnection := mkConnection {
  oc_charge_point_id : Z; oc_station_id : Z; oc_charge_point_code : string; oc_station_status : string;
  oc_websocket : Z; oc_connected_at : Z; oc_boot_accepted : bool; oc_pending : gmap string Future
}.

Definition set_oc_boot_accepted (b : bool) (c : OcppConnection) : OcppConnection :=
  mkConnection (oc_charge_point_id c) (oc_station_id c) (oc_charge_point_code c) (oc_station_status c)
    (oc_websocket c) (oc_connected_at c) b (oc_pending c).
Definition set_oc_pending (p : gmap string Future) (c : OcppConnection) : OcppConnection :=
  mkConnection (oc_charge_point_id c) (oc_station_id c) (oc_charge_point_code c) (oc_station_status c)
    (oc_websocket c) (oc_connected_at c) (oc_boot_accepted c) p.

Definition can_start_session (c : OcppConnection) : bool := bool_decide (oc_station_status c = "active").

(** What a message adds to the telemetry. *)
Record Exchanged := mkExchanged { ex_is_call : bool; ex_error : bool; ex_answered : bool }.

(** The process: the database, the connections, the registry, what was written to
    which socket, the sockets closed here, the closure queue, the telemetry and
    the message in work. *)
Record Server := mkServer {
  sv_db : Db; sv_conns : gmap Z OcppConnection; sv_registry : gmap string Z; sv_sent : list (Z * string); sv_closed : gset Z;
  sv_runner : option ClosureRunner; sv_telemetry : list Exchanged; sv_exchange : Exchanged
}.

Definition on_db (v : Db) (s : Server) : Server :=
  mkServer v (sv_conns s) (sv_registry s) (sv_sent s) (sv_closed s) (sv_runner s) (sv_telemetry s) (sv_exchange s).
Definition on_conns (v : gmap Z OcppConnection) (s : Server) : Server :=
  mkServer (sv_db s) v (sv_registry s) (sv_sent s) (sv_closed s) (sv_runner s) (sv_telemetry s) (sv_exchange s).
Definition on_registry (v : gmap string Z) (s : Server) : Server :=
  mkServer (sv_db s) (sv_conns s) v (sv_sent s) (sv_closed s) (sv_runner s) (sv_telemetry s) (sv_exchange s).
Definition on_sent (v : list (Z * string)) (s : Server) : Server :=
  mkServer (sv_db s) (sv_conns s) (sv_registry s) v (sv_closed s) (sv_runner s) (sv_telemetry s) (sv_exchange s).
Definition on_closed (v : gset Z) (s : Server) : Server :=
  mkServer (sv_db s) (sv_conns s) (sv_registry s) (sv_sent s) v (sv_runner s) (sv_telemetry s) (sv_exchange s).
Definition on_runner (v : option ClosureRunner) (s : Server) : Server :=
  mkServer (sv_db s) (sv_conns s) (sv_registry s) (sv_sent s) (sv_closed s) v (sv_telemetry s) (sv_exchange s).
Definition on_telemetry (v : list Exchanged) (s : Server) : Server :=
  mkServer (sv_db s) (sv_conns s) (sv_registry s) (sv_sent s) (sv_closed s) (sv_runner s) v (sv_exchange s).
Definition on_exchange (v : Exchanged) (s : Server) : Server :=
  mkServer (sv_db s) (sv_conns s) (sv_registry s) (sv_sent s) (sv_closed s) (sv_runner s) (sv_telemetry s) v.

Abbreviation Io := (M Server Exn).

(** [async with SessionFactory() as session, session.begin()] *)
Definition transact {A} (down : bool) (m : Tx A) : Io A := λ s,
  if down then (inl OperationalError, s)
  else match m (sv_db s) with
       | (inl e, _) => (inl e, s)
       | (inr a, db) => (inr a, on_db db s)
       end.

(** Subclasses of [SQLAlchemyError]. *)
Definition is_database_error (e : Exn) : bool :=
  match e with IntegrityError _ | DataError | OperationalError => true | _ => false end.

Definition update_conn (ws : Z) (f : OcppConnection → OcppConnection) : Io () :=
  modify (λ s, on_conns (alter f ws (sv_conns s)) s).

(** ** The connection and the registry *)

Section transport.
Context {dep : Deployment} (tag_hash : string → string) (digest : string → list (string * Json) → string) (schemas : Schemas).
Context (depth : nat) (float_repr : Z → Z → string).

(** [websocket.send_text] on a socket that is closed or breaks raises. *)
Definition send (ws : Z) (broken : bool) (raw : string) : Io () :=
  closed ← gets (λ s, bool_decide (ws ∈ sv_closed s));
  raise_if (closed || broken) RuntimeError;;
  modify (λ s, on_sent (sv_sent s ++ [(ws, raw)]) s).

Definition cancel (f : Future) : Future := match f with Waiting => Cancelled | _ => f end.

Definition cancel_pending (ws : Z) : Io () := update_conn ws (λ c, set_oc_pending (cancel <$> oc_pending c) c).

(** [call] up to the wait; when the send fails, [finally] forgets the call. *)
Definition begin_call (ws : Z) (message_id action : string) (payload : list (string * Json)) (broken : bool) : Io () :=
  c ← gets (λ s, sv_conns s !! ws);
  conn ← some_or c LookupError;
  raise_if (bool_decide (is_Some (oc_pending conn !! message_id))) ValueError;;
  update_conn ws (λ c, set_oc_pending (<[message_id := Waiting]> (oc_pending c)) c);;
  try_except
    (raw ← some_or (encode_frame float_repr (call_frame message_id action payload)) TypeError;
     send ws broken raw)
    (λ e, Some (update_conn ws (λ c, set_oc_pending (delete message_id (oc_pending c)) c);; raise e)).

(** The caller wakes: with the reply, because the socket went away, or because the
    time is over; until then it waits. *)
Definition end_call (ws : Z) (message_id : string) (timed_out : bool) : Io (option Net) :=
  c ← gets (λ s, sv_conns s !! ws);
  conn ← some_or c LookupError;
  let outcome :=
    match oc_pending conn !! message_id with
    | Some (Resolved f) => Some (Reached (fr_kind f) (fr_payload f) (fr_error_code f))
    | Some Cancelled => Some Lost
    | Some Waiting => if timed_out then Some Silence else None
    | None => None
    end in
  when (bool_decide (is_Some outcome)) (update_conn ws (λ c, set_oc_pending (delete message_id (oc_pending c)) c));;
  mret outcome.

Definition replace (ws : Z) : Io () :=
  c ← gets (λ s, sv_conns s !! ws);
  conn ← some_or c LookupError;
  previous ← gets (λ s, sv_registry s !! oc_charge_point_code conn);
  modify (λ s, on_registry (<[oc_charge_point_code conn := ws]> (sv_registry s)) s);;
  match previous with
  | Some p =>
      if bool_decide (p = ws) then mret ()
      else cancel_pending p;; modify (λ s, on_closed ({[ p ]} ∪ sv_closed s) s)
  | None => mret ()
  end.

Definition remove (charge_point_code : string) (ws : Z) : Io () :=
  current ← gets (λ s, sv_registry s !! charge_point_code);
  when (bool_decide (current = Some ws))
    (cancel_pending ws;; modify (λ s, on_registry (delete charge_point_code (sv_registry s)) s)).

(** [get]: the admitted connection of a charger. *)
Definition get (charge_point_code : string) (s : Server) : option OcppConnection :=
  ws ← sv_registry s !! charge_point_code; sv_conns s !! ws.

(** ** Admission *)

Definition registered (code : string) (db : Db) (c : ChargePoint) : bool :=
  bool_decide (lower (cp_code c) = code) && bool_decide (cp_archived_at c = None) &&
  match stations db !! cp_station_id c with Some s => bool_decide (st_archived_at s = None) | None => false end.

(** [one_or_none] refuses two rows. *)
Definition get_registered_charge_point (code : string) : Tx (option (Z * Z * string)) :=
  l ← gets (λ db, filter (λ c, registered code db c = true) (rows (charge_points db)));
  match l with
  | [] => mret None
  | [c] => s ← gets (λ db, stations db !! cp_station_id c); mret (s ← s; Some (cp_id c, cp_station_id c, st_status s))
  | _ => raise LookupError
  end.

(** A new socket [ws]: whether it was accepted. *)
Definition connect_charge_point (ws : Z) (subprotocols : list string) (charge_point_code : string) (now : Z) (down : bool) : Io bool :=
  if negb (bool_decide ("ocpp1.6" ∈ subprotocols)) then mret false
  else
    let normalized_code := lower (strip charge_point_code) in
    found ← transact down (get_registered_charge_point normalized_code);
    match found with
    | None => mret false
    | Some (point, station, status) =>
        modify (λ s, on_conns (<[ws := mkConnection point station normalized_code status ws now false ∅]> (sv_conns s)) s);;
        replace ws;;
        mret true
    end.

(** [finally] of the receive loop. *)
Definition disconnect (ws : Z) : Io () :=
  c ← gets (λ s, sv_conns s !! ws);
  conn ← some_or c LookupError;
  cancel_pending ws;;
  modify (λ s, on_closed ({[ ws ]} ∪ sv_closed s) s);;
  remove (oc_charge_point_code conn) ws.

(** ** Messages *)

Definition note_exchange (f : Exchanged → Exchanged) : Io () := modify (λ s, on_exchange (f (sv_exchange s)) s).

Definition send_reply (ws : Z) (broken : bool) (f : Frame) : Io () :=
  raw ← some_or (encode_frame float_repr f) TypeError;
  send ws broken raw;;
  note_exchange (λ x, mkExchanged (ex_is_call x) (ex_error x || (fr_kind f =? 4)) (ex_answered x || ex_is_call x)).

Definition record_contact (point : Z) (down : bool) : Io () := transact down (mark_seen point None None).

Definition record_contact_or_error (ws point : Z) (down broken : bool) : Io bool :=
  try_except (record_contact point down;; mret true)
    (λ e, if is_database_error e
          then Some (send_reply ws broken (failure_frame "" "InternalError" "Unable to record contact" []);; mret false) else None).

Definition reply_frame (r : Reply) : Frame :=
  match r with
  | CallResult id payload => result_frame id payload
  | CallError id code description => failure_frame id code description []
  end.

Definition payload_field (k : string) (payload : list (string * Json)) : option Json :=
  snd <$> head (filter (λ p, p.1 = k) payload).

(** A status notification that reports an error. *)
Definition reports_error (f : Frame) : bool :=
  bool_decide (fr_action f = "StatusNotification") &&
  match payload_field "errorCode" (fr_payload f) with Some (JStr e) => negb (bool_decide (e = "NoError")) | _ => false end.

(** [future.set_result(frame)] when a call of that identifier waits. *)
Definition settle (f : Frame) (p : gmap string Future) : gmap string Future :=
  match p !! fr_message_id f with Some Waiting => <[fr_message_id f := Resolved f]> p | _ => p end.

Definition answer_call (ws point : Z) (f : Frame) (down broken : bool) : Io () :=
  c ← gets (λ s, sv_conns s !! ws);
  conn ← some_or c LookupError;
  response ← try_except
    (r ← transact down (dispatch_call tag_hash digest schemas true point (oc_boot_accepted conn)
           (mkCall (fr_message_id f) (fr_action f) (fr_payload f)));
     update_conn ws (set_oc_boot_accepted r.2);;
     mret (reply_frame r.1))
    (λ e, if is_database_error e
          then Some (mret (failure_frame (fr_message_id f) "InternalError" "Unable to process request" [])) else None);
  send_reply ws broken response;;
  match payload_field "transactionId" (fr_payload f) with
  | Some (JInt k) =>
      when (bool_decide (fr_action f = "StopTransaction") && (fr_kind response =? 3))
        (modify (λ s, on_runner (schedule_closure (sv_runner s) k).2 s))
  | _ => mret ()
  end.

Definition _handle_message (ws point : Z) (raw : string) (down broken : bool) : Io () :=
  if 65536 <? text_len raw then
    ok ← record_contact_or_error ws point down broken;
    when ok (send_reply ws broken (failure_frame "" "FormationViolation" "Frame exceeds maximum size" []))
  else
    match decode_frame depth raw with
    | inl e =>
        ok ← record_contact_or_error ws point down broken;
        when ok (send_reply ws broken (failure_frame (fe_message_id e) (fe_code e) (fe_description e) []))
    | inr f =>
        note_exchange (λ x, mkExchanged (fr_kind f =? 2) ((fr_kind f =? 4) || ((fr_kind f =? 2) && reports_error f)) (ex_answered x));;
        if fr_kind f =? 2 then answer_call ws point f down broken
        else
          ok ← record_contact_or_error ws point down broken;
          when ok (update_conn ws (λ c, set_oc_pending (settle f (oc_pending c)) c))
    end.

(** A message that is no text. *)
Definition refuse_binary (ws point : Z) (down broken : bool) : Io () :=
  record_contact point down;;
  raw ← some_or (error_frame float_repr "" "FormationViolation" "OCPP requires text frames") TypeError;
  send ws broken raw.

(** The telemetry is written whatever happens. *)
Definition handle_message (ws : Z) (raw : string) (down broken : bool) : Io () := λ s,
  match sv_conns s !! ws with
  | None => (inl LookupError, s)
  | Some conn =>
      let r := _handle_message ws (oc_charge_point_id conn) raw down broken (on_exchange (mkExchanged false false false) s) in
      (r.1, on_telemetry (sv_telemetry r.2 ++ [sv_exchange r.2]) r.2)
  end.
End transport.
