(* ===== verification/TransportSpec.v ===== *)
(** * TransportSpec: a reply wakes the call it answers

    Connects, disconnects, calls, messages and wake-ups interleave in any order.
    The log records when a call was sent, when a frame came in and with what a
    caller woke. *)

From S2P Require Import Prelude Clock Text Store AuditTrail Wallet Pricing Eligibility ClosureScan Occupation Monitoring MeterUnits JsonText Frames Metering PowerSchedule PowerControl Reservations Sessions Dispatcher DispatcherSpec PowerWorker Configuration Transport.

(** ** What the calls see of the server *)

Abbreviation View := (string * gmap string Future)%type.

Definition view (c : OcppConnection) : View := (oc_charge_point_code c, oc_pending c).

Record Abs := mkAbsSockets { ab_registry : gmap string Z; ab_closed : gset Z; ab_views : gmap Z View }.

Definition abs (s : Server) : Abs := mkAbsSockets (sv_registry s) (sv_closed s) (view <$> sv_conns s).

Definition on_pending (g : gmap string Future → gmap string Future) (v : View) : View := (v.1, g v.2).

Lemma view_alter ws f g (m : gmap Z OcppConnection) :
  (∀ c, view (f c) = on_pending g (view c)) → view <$> alter f ws m = alter (on_pending g) ws (view <$> m).
Proof.
  intros Hf. apply map_eq. intros k. rewrite lookup_fmap. destruct (decide (k = ws)) as [->|].
  - rewrite !lookup_alter_eq, lookup_fmap. destruct (m !! ws); simpl; [by rewrite Hf|done].
  - by rewrite !lookup_alter_ne, lookup_fmap.
Qed.

Lemma abs_alter ws f g s :
  (∀ c, view (f c) = on_pending g (view c)) →
  abs (on_conns (alter f ws (sv_conns s)) s) = mkAbsSockets (sv_registry s) (sv_closed s) (alter (on_pending g) ws (view <$> sv_conns s)).
Proof. intros Hf. unfold abs. simpl. by rewrite (view_alter ws f g). Qed.

Lemma alter_on_pending_id ws (m : gmap Z View) : alter (on_pending id) ws m = m.
Proof.
  apply map_eq. intros k. destruct (decide (k = ws)) as [->|]; [rewrite lookup_alter_eq|by rewrite lookup_alter_ne].
  by destruct (m !! ws) as [[? ?]|].
Qed.

Section effects.
Context {dep : Deployment} (tag_hash : string → string) (digest : string → list (string * Json) → string) (schemas : Schemas).
Context (depth : nat) (float_repr : Z → Z → string).

(** ** Steps that leave the view alone *)

Abbreviation still a := (λ s, abs s = a).

Lemma keeps_modify_abs a f : (∀ s, abs (f s) = abs s) → keeps (still a) (modify (E := Exn) f).
Proof. intros Hf s <-. apply Hf. Qed.

Lemma keeps_send a ws broken raw : keeps (still a) (send ws broken raw).
Proof. unfold send. keeps_steps. by apply keeps_modify_abs. Qed.

Lemma keeps_send_reply a ws broken f : keeps (still a) (send_reply float_repr ws broken f).
Proof. unfold send_reply, note_exchange. pose proof keeps_send. keeps_steps. by apply keeps_modify_abs. Qed.

Lemma keeps_transact {A} a down (m : Tx A) : keeps (still a) (transact down m).
Proof. intros s <-. unfold transact. destruct down; [done|]. by destruct (m (sv_db s)) as [[e|x] db]. Qed.

Lemma keeps_contact a ws point down broken : keeps (still a) (record_contact_or_error float_repr ws point down broken).
Proof.
  unfold record_contact_or_error, record_contact. apply keeps_try.
  - apply keeps_bind; [apply keeps_transact|]. intros _. apply keeps_ret.
  - intros e k. destruct (is_database_error e); [|done]. intros [= <-]. pose proof keeps_send_reply. keeps_steps.
Qed.

Lemma keeps_update_still a ws f : (∀ c, view (f c) = view c) → keeps (still a) (update_conn ws f).
Proof.
  intros Hf s <-. unfold update_conn, modify. simpl. rewrite (abs_alter ws f id).
  - by rewrite alter_on_pending_id.
  - intros c. rewrite Hf. by destruct (view c).
Qed.

Lemma keeps_answer a ws point f down broken : keeps (still a) (answer_call tag_hash digest schemas float_repr ws point f down broken).
Proof.
  unfold answer_call. apply keeps_bind; [apply keeps_gets|]. intros c. apply keeps_bind; [apply keeps_some_or|]. intros conn.
  apply keeps_bind.
  { apply keeps_try.
    - apply keeps_bind; [apply keeps_transact|]. intros r. apply keeps_bind; [by apply keeps_update_still|]. intros _. apply keeps_ret.
    - intros e k. destruct (is_database_error e); [|done]. intros [= <-]. apply keeps_ret. }
  intros response. apply keeps_bind; [apply keeps_send_reply|]. intros _. keeps_steps; by apply keeps_modify_abs.
Qed.

(** A message may resolve the call it answers, and nothing else. *)
Lemma handle_message_abs ws raw down broken s r s' :
  handle_message tag_hash digest schemas depth float_repr ws raw down broken s = (r, s') →
  abs s' = abs s ∨
  ∃ f, decode_frame depth raw = inr f ∧ fr_kind f ≠ 2 ∧
    abs s' = mkAbsSockets (sv_registry s) (sv_closed s) (alter (on_pending (settle f)) ws (view <$> sv_conns s)).
Proof.
  unfold handle_message. destruct (sv_conns s !! ws) as [conn|]; [|by intros [= _ <-]; left]. intros [= _ <-].
  set (s0 := on_exchange _ s). change (abs s) with (abs s0).
  destruct (_handle_message _ _ _ _ _ _ _ _ _ _ s0) as [r1 s1] eqn:E. simpl.
  change (abs (on_telemetry _ s1)) with (abs s1). unfold _handle_message in E.
  pose proof keeps_contact as Hc. pose proof keeps_send_reply as Hs.
  destruct (65536 <? text_len raw); [left; refine (keeps_run (still (abs s0)) _ _ _ _ _ eq_refl E); keeps_steps|].
  destruct (decode_frame depth raw) as [e|f] eqn:Ed; [left; refine (keeps_run (still (abs s0)) _ _ _ _ _ eq_refl E); keeps_steps|].
  unfold mbind, M_bind, note_exchange, modify in E. cbn -[abs] in E. set (s2 := on_exchange _ s0) in E.
  destruct (Z.eqb_spec (fr_kind f) 2).
  { left. change (abs s0) with (abs s2). refine (keeps_run (still (abs s2)) _ _ _ _ _ eq_refl E). apply keeps_answer. }
  destruct (record_contact_or_error float_repr ws (oc_charge_point_id conn) down broken s2) as [[e|ok] s3] eqn:E3.
  { injection E as _ <-. left. change (abs s0) with (abs s2). refine (keeps_run (still (abs s2)) _ _ _ _ _ eq_refl E3). apply Hc. }
  assert (abs s3 = abs s) as H3.
  { change (abs s) with (abs s2). refine (keeps_run (still (abs s2)) _ _ _ _ _ eq_refl E3). apply Hc. }
  destruct ok; injection E as _ <-; [|by left]. right. exists f. split_and!; try done.
  rewrite (abs_alter ws _ (settle f)) by done. unfold abs in H3. injection H3 as -> -> ->. done.
Qed.

(** ** Calls *)

Lemma begin_call_abs ws mid action payload broken s r s' :
  begin_call float_repr ws mid action payload broken s = (r, s') →
  match r with
  | inr _ => ∃ v, ab_views (abs s) !! ws = Some v ∧ v.2 !! mid = None ∧ ws ∉ sv_closed s ∧
      abs s' = mkAbsSockets (sv_registry s) (sv_closed s) (<[ws := (v.1, <[mid := Waiting]> v.2)]> (view <$> sv_conns s))
  | inl _ => abs s' = abs s
  end.
Proof.
  unfold begin_call. rewrite bind_gets. unfold mbind, M_bind. destruct (sv_conns s !! ws) as [c|] eqn:Ec; simpl; [|by intros [= <- <-]].
  case_bool_decide as Hp; simpl; [by intros [= <- <-]|]. apply eq_None_not_Some in Hp.
  unfold modify, try_except, update_conn. set (s1 := on_conns _ s). set (body := some_or _ _ s1). intros H.
  assert (abs s1 = mkAbsSockets (sv_registry s) (sv_closed s) (<[ws := (oc_charge_point_code c, <[mid := Waiting]> (oc_pending c))]> (view <$> sv_conns s))) as H1.
  { unfold s1. rewrite (abs_alter ws _ (<[mid := Waiting]>)) by done. f_equal. apply map_eq. intros k. destruct (decide (k = ws)) as [->|].
    - by rewrite lookup_alter_eq, lookup_insert_eq, lookup_fmap, Ec.
    - by rewrite lookup_alter_ne, lookup_insert_ne. }
  assert (∀ s2, abs s2 = abs s1 → abs (on_conns (alter (λ c, set_oc_pending (delete mid (oc_pending c)) c) ws (sv_conns s2)) s2) = abs s) as Hback.
  { intros s2 H2. rewrite (abs_alter ws _ (delete mid)) by done. rewrite H1 in H2. unfold abs in H2. injection H2 as -> -> ->.
    unfold abs. f_equal. apply map_eq. intros k. destruct (decide (k = ws)) as [->|].
    - rewrite lookup_alter_eq, lookup_insert_eq, lookup_fmap, Ec. simpl. unfold on_pending. simpl. by rewrite delete_insert_id.
    - by rewrite lookup_alter_ne, lookup_insert_ne. }
  destruct body as [[e|raw] s2] eqn:Eb; unfold body in Eb.
  { injection H as <- <-. assert (s2 = s1) as -> by (by destruct (encode_frame _ _); injection Eb as _ <-). by apply Hback. }
  assert (s2 = s1) as -> by (by destruct (encode_frame _ _); injection Eb as _ <-).
  destruct (send ws broken raw s1) as [[e|[]] s3] eqn:Es.
  - injection H as <- <-. apply Hback. refine (keeps_run (still (abs s1)) _ _ _ _ _ eq_refl Es). apply keeps_send.
  - injection H as <- <-. exists (view c). simpl. rewrite lookup_fmap, Ec. split_and!; try done.
    + unfold send in Es. rewrite bind_gets in Es. apply bind_ok in Es as ([] & s4 & [Hcl _]%raise_if_inr & _).
      apply orb_false_iff in Hcl as [Hcl%bool_decide_eq_false _]. done.
    + rewrite <- H1. refine (keeps_run (still (abs s1)) _ _ _ _ _ eq_refl Es). apply keeps_send.
Qed.

Definition outcome_of (fut : Future) (n : Net) : Prop :=
  match fut with
  | Resolved f => n = Reached (fr_kind f) (fr_payload f) (fr_error_code f)
  | Cancelled => n = Lost
  | Waiting => n = Silence
  end.

Lemma end_call_abs ws mid timed_out s o s' :
  end_call ws mid timed_out s = (inr o, s') →
  match o with
  | Some n => ∃ v fut, ab_views (abs s) !! ws = Some v ∧ v.2 !! mid = Some fut ∧ outcome_of fut n ∧
      abs s' = mkAbsSockets (sv_registry s) (sv_closed s) (<[ws := (v.1, delete mid v.2)]> (view <$> sv_conns s))
  | None => s' = s
  end.
Proof.
  unfold end_call. rewrite bind_gets. intros H. apply bind_ok in H as (conn & s1 & [Ec ->]%some_or_inr & H). cbv zeta in H.
  set (out := match oc_pending conn !! mid with Some _ => _ | None => _ end) in H.
  apply bind_ok in H as ([] & s2 & H1 & [= <- <-]). destruct out as [n|] eqn:Eo; [|by injection H1 as <-]. simpl in H1. injection H1 as <-.
  unfold out in Eo. destruct (oc_pending conn !! mid) as [fut|] eqn:Ep; [|done]. exists (view conn), fut.
  simpl. rewrite lookup_fmap, Ec. split_and!; try done; [destruct fut as [| |], timed_out; try done; by injection Eo as <-|].
  rewrite (abs_alter ws _ (delete mid)) by done. f_equal. apply map_eq. intros k. destruct (decide (k = ws)) as [->|].
  - by rewrite lookup_alter_eq, lookup_insert_eq, lookup_fmap, Ec.
  - by rewrite lookup_alter_ne, lookup_insert_ne.
Qed.

(** ** Connects and disconnects *)

Definition cancel_at (ws : Z) (m : gmap Z View) : gmap Z View := alter (on_pending (fmap cancel)) ws m.

Lemma cancel_pending_abs ws s r s' :
  cancel_pending ws s = (r, s') → r = inr () ∧ abs s' = mkAbsSockets (sv_registry s) (sv_closed s) (cancel_at ws (view <$> sv_conns s)).
Proof. intros [= <- <-]. split; [done|]. by rewrite (abs_alter ws _ (fmap cancel)). Qed.

Definition with_socket (code : string) (ws : Z) (a : Abs) : Abs :=
  match ab_registry a !! code with
  | Some p => if bool_decide (p = ws) then mkAbsSockets (<[code := ws]> (ab_registry a)) (ab_closed a) (ab_views a)
              else mkAbsSockets (<[code := ws]> (ab_registry a)) ({[ p ]} ∪ ab_closed a) (cancel_at p (ab_views a))
  | None => mkAbsSockets (<[code := ws]> (ab_registry a)) (ab_closed a) (ab_views a)
  end.

Lemma replace_abs ws c s r s' : sv_conns s !! ws = Some c → replace ws s = (r, s') → abs s' = with_socket (oc_charge_point_code c) ws (abs s).
Proof.
  intros Ec. unfold replace, with_socket. rewrite bind_gets, Ec. unfold mbind, M_bind. simpl.
  destruct (sv_registry s !! oc_charge_point_code c) as [p|]; [|by intros [= <- <-]].
  case_bool_decide; intros [= <- <-]; [done|]. unfold abs. simpl. by rewrite (view_alter p _ (fmap cancel)).
Qed.

Lemma connect_abs ws subs code now down s r s' :
  connect_charge_point ws subs code now down s = (r, s') →
  abs s' = abs s ∨ ∃ c, abs s' = with_socket c ws (mkAbsSockets (sv_registry s) (sv_closed s) (<[ws := (c, ∅)]> (view <$> sv_conns s))).
Proof.
  unfold connect_charge_point. destruct (negb _); [by intros [= _ <-]; left|]. cbv zeta. unfold mbind at 1, M_bind at 1.
  destruct (transact down _ s) as [[e|found] s1] eqn:E.
  { intros [= _ <-]. left. refine (keeps_run (still (abs s)) _ _ _ _ _ eq_refl E). apply keeps_transact. }
  assert (abs s1 = abs s) as H1 by (refine (keeps_run (still (abs s)) _ _ _ _ _ eq_refl E); apply keeps_transact).
  destruct found as [[[point station] status]|]; [|by intros [= _ <-]; left]. unfold mbind, M_bind, modify. intros H. right.
  set (s2 := on_conns _ s1) in H. destruct (replace ws s2) as [r3 s3] eqn:E3. assert (abs s' = abs s3) as -> by (by destruct r3; injection H as _ <-).
  exists (lower (strip code)). rewrite (replace_abs ws _ s2 r3 s3 (lookup_insert_eq _ _ _) E3).
  f_equal; simpl. unfold abs. simpl. rewrite fmap_insert. unfold abs in H1. by injection H1 as -> -> ->.
Qed.

Definition gone (ws : Z) (v : View) (a : Abs) : Abs :=
  mkAbsSockets (if bool_decide (ab_registry a !! v.1 = Some ws) then delete v.1 (ab_registry a) else ab_registry a)
    ({[ ws ]} ∪ ab_closed a) (cancel_at ws (ab_views a)).

Lemma cancel_at_twice ws m : cancel_at ws (cancel_at ws m) = cancel_at ws m.
Proof.
  unfold cancel_at. rewrite alter_alter_eq. apply alter_ext. intros [c p] _. unfold on_pending. simpl. f_equal.
  apply map_eq. intros k. rewrite !lookup_fmap. by destruct (p !! k) as [[]|].
Qed.

Lemma disconnect_abs ws s r s' :
  disconnect ws s = (r, s') → abs s' = abs s ∨ ∃ v, ab_views (abs s) !! ws = Some v ∧ abs s' = gone ws v (abs s).
Proof.
  unfold disconnect. rewrite bind_gets. unfold mbind at 1, M_bind at 1. destruct (sv_conns s !! ws) as [c|] eqn:Ec; simpl; [|by intros [= _ <-]; left].
  unfold mbind, M_bind, remove, gets, modify, update_conn. simpl. intros H. right. exists (view c). rewrite lookup_fmap, Ec. split; [done|].
  unfold gone. simpl. unfold mbind, M_bind in H. simpl in H.
  case_bool_decide; simpl in H; injection H as _ <-; unfold abs; simpl; rewrite ?(view_alter ws _ (fmap cancel)) by done; [|done].
  f_equal. apply cancel_at_twice.
Qed.
End effects.

(** ** The system *)

Inductive Event := Sent (ws : Z) (message_id : string) | Got (ws : Z) (f : Frame) | Woke (ws : Z) (message_id : string) (n : Net).

Section system.
Context {dep : Deployment} (tag_hash : string → string) (digest : string → list (string * Json) → string) (schemas : Schemas).
Context (depth : nat) (float_repr : Z → Z → string).

Inductive sock_step : Server → list Event → Server → Prop :=
  | sk_connect ws subs code now down r s s' :
      sv_conns s !! ws = None → ws ∉ sv_closed s → connect_charge_point ws subs code now down s = (r, s') → sock_step s [] s'
  | sk_disconnect ws r s s' : disconnect ws s = (r, s') → sock_step s [] s'
  | sk_call ws mid action payload broken r s s' :
      begin_call float_repr ws mid action payload broken s = (r, s') → sock_step s (match r with inr _ => [Sent ws mid] | inl _ => [] end) s'
  | sk_message ws raw down broken r s s' :
      handle_message tag_hash digest schemas depth float_repr ws raw down broken s = (r, s') →
      sock_step s (match decode_frame depth raw with inr f => [Got ws f] | inl _ => [] end) s'
  | sk_binary ws point down broken r s s' : refuse_binary float_repr ws point down broken s = (r, s') → sock_step s [] s'
  | sk_wake ws mid timed_out o s s' :
      end_call ws mid timed_out s = (inr o, s') → sock_step s (match o with Some n => [Woke ws mid n] | None => [] end) s'
  | sk_else s s' : sv_conns s' = sv_conns s → sv_registry s' = sv_registry s → sv_closed s' = sv_closed s → sock_step s [] s'.

Inductive sock_run (s : Server) : list Event → Server → Prop :=
  | run_nil : sock_run s [] s
  | run_snoc log s1 es s2 : sock_run s log s1 → sock_step s1 es s2 → sock_run s (log ++ es) s2.
End system.

(** ** What a log may say *)

(** The frames that may answer the call outstanding on a socket under an
    identifier; nothing is outstanding before it is sent and after it woke. *)
Definition outstanding1 (ws : Z) (mid : string) (o : option (list Frame)) (e : Event) : option (list Frame) :=
  match e with
  | Sent ws' mid' => if bool_decide (ws' = ws ∧ mid' = mid) then Some [] else o
  | Got ws' f => if bool_decide (ws' = ws ∧ fr_message_id f = mid ∧ fr_kind f ≠ 2) then (λ l, l ++ [f]) <$> o else o
  | Woke ws' mid' _ => if bool_decide (ws' = ws ∧ mid' = mid) then None else o
  end.

Definition outstanding (ws : Z) (mid : string) (log : list Event) : option (list Frame) := foldl (outstanding1 ws mid) None log.

(** What a caller may wake with. *)
Definition explains (answers : list Frame) (n : Net) : Prop :=
  match n with
  | Reached kind payload code => ∃ f, f ∈ answers ∧ kind = fr_kind f ∧ payload = fr_payload f ∧ code = fr_error_code f
  | Silence | Lost => True
  | Unreachable => False
  end.

(** Identifiers of outstanding calls are distinct on a socket; a caller wakes once,
    and with a reply only if that reply came in on its socket, under its
    identifier, after its call went out. *)
Inductive lawful : list Event → Prop :=
  | lawful_nil : lawful []
  | lawful_sent log ws mid : lawful log → outstanding ws mid log = None → lawful (log ++ [Sent ws mid])
  | lawful_got log ws f : lawful log → lawful (log ++ [Got ws f])
  | lawful_woke log ws mid n answers :
      lawful log → outstanding ws mid log = Some answers → explains answers n → lawful (log ++ [Woke ws mid n]).

Lemma outstanding_snoc ws mid log e : outstanding ws mid (log ++ [e]) = outstanding1 ws mid (outstanding ws mid log) e.
Proof. unfold outstanding. by rewrite foldl_app. Qed.

(** ** The invariant *)

Definition pend (a : Abs) (ws : Z) (mid : string) : option Future := v ← ab_views a !! ws; v.2 !! mid.

Definition future_ok (a : Abs) (ws : Z) (mid : string) (answers : list Frame) (fut : Future) : Prop :=
  match fut with
  | Waiting => ws ∉ ab_closed a
  | Cancelled => ws ∈ ab_closed a
  | Resolved f => f ∈ answers ∧ fr_message_id f = mid
  end.

Record sockets_ok (a : Abs) (log : list Event) : Prop := mkSocketsOk {
  so_registered : ∀ code ws, ab_registry a !! code = Some ws → ∃ p, ab_views a !! ws = Some (code, p);
  so_open : ∀ ws v, ab_views a !! ws = Some v → (ws ∉ ab_closed a ↔ ab_registry a !! v.1 = Some ws);
  so_call : ∀ ws mid, match pend a ws mid with
    | Some fut => ∃ answers, outstanding ws mid log = Some answers ∧ future_ok a ws mid answers fut
    | None => outstanding ws mid log = None
    end;
  so_lawful : lawful log
}.

Lemma pend_insert a ws v r c k mid :
  pend (mkAbsSockets r c (<[ws := v]> (ab_views a))) k mid = if bool_decide (k = ws) then v.2 !! mid else pend a k mid.
Proof. unfold pend. simpl. case_bool_decide; [subst; by rewrite lookup_insert_eq|by rewrite lookup_insert_ne]. Qed.

Lemma pend_alter a ws g r c k mid :
  pend (mkAbsSockets r c (alter (on_pending g) ws (ab_views a))) k mid =
  if bool_decide (k = ws) then v ← ab_views a !! ws; g v.2 !! mid else pend a k mid.
Proof.
  unfold pend. simpl. case_bool_decide; [subst; rewrite lookup_alter_eq; by destruct (ab_views a !! ws)|by rewrite lookup_alter_ne].
Qed.

(** The shape of the registry does not look at pending calls. *)
Lemma shape_alter a log ws g :
  sockets_ok a log → let a' := mkAbsSockets (ab_registry a) (ab_closed a) (alter (on_pending g) ws (ab_views a)) in
  (∀ code k, ab_registry a' !! code = Some k → ∃ p, ab_views a' !! k = Some (code, p)) ∧
  (∀ k v, ab_views a' !! k = Some v → (k ∉ ab_closed a' ↔ ab_registry a' !! v.1 = Some k)).
Proof.
  intros [H1 H2 _ _] a'. split; simpl.
  - intros code k Hk. destruct (H1 code k Hk) as [p Hp]. destruct (decide (k = ws)) as [->|].
    + rewrite lookup_alter_eq, Hp. by eexists.
    + rewrite lookup_alter_ne by done. eauto.
  - intros k v. destruct (decide (k = ws)) as [->|]; [|rewrite lookup_alter_ne by done; apply H2].
    rewrite lookup_alter_eq. destruct (ab_views a !! ws) as [w|] eqn:E; [|done]. intros [= <-]. exact (H2 ws w E).
Qed.

Lemma insert_is_alter a ws v p : ab_views a !! ws = Some v → <[ws := (v.1, p)]> (ab_views a) = alter (on_pending (λ _, p)) ws (ab_views a).
Proof.
  intros Hv. apply map_eq. intros k. destruct (decide (k = ws)) as [->|].
  - by rewrite lookup_insert_eq, lookup_alter_eq, Hv.
  - by rewrite lookup_insert_ne, lookup_alter_ne.
Qed.

Lemma ok_got a log ws f : sockets_ok a log → sockets_ok a (log ++ [Got ws f]).
Proof.
  intros [H1 H2 H3 H4]. split; try done; [|by constructor]. intros k mid. rewrite outstanding_snoc. specialize (H3 k mid). simpl.
  destruct (pend a k mid) as [fut|]; [|rewrite H3; by case_bool_decide]. destruct H3 as (l & -> & Hf). case_bool_decide; [|eauto].
  simpl. eexists. split; [done|]. destruct fut; try done. destruct Hf. split; [set_solver|done].
Qed.

Lemma ok_settle a log ws f :
  sockets_ok a log → fr_kind f ≠ 2 →
  sockets_ok (mkAbsSockets (ab_registry a) (ab_closed a) (alter (on_pending (settle f)) ws (ab_views a))) (log ++ [Got ws f]).
Proof.
  intros Hok Hk. destruct (shape_alter a log ws (settle f) Hok) as [S1 S2]. apply (ok_got a log ws f) in Hok as [_ _ H3 H4]. split; try done.
  intros k mid. rewrite pend_alter. specialize (H3 k mid). case_bool_decide as E; [subst k|done]. unfold pend in H3.
  destruct (ab_views a !! ws) as [v|]; [|done]. simpl in H3 |- *. unfold settle.
  destruct (v.2 !! fr_message_id f) as [fut|] eqn:Ef; [|done]. destruct fut; try done.
  destruct (decide (mid = fr_message_id f)) as [->|]; [|by rewrite lookup_insert_ne].
  rewrite lookup_insert_eq. rewrite Ef in H3. destruct H3 as (l & Hl & _). exists l. split; [done|]. simpl. split; [|done].
  rewrite outstanding_snoc in Hl. simpl in Hl. rewrite bool_decide_true in Hl by done. apply fmap_Some in Hl as (l' & _ & ->). set_solver.
Qed.

Lemma ok_sent a log ws v mid :
  sockets_ok a log → ab_views a !! ws = Some v → v.2 !! mid = None → ws ∉ ab_closed a →
  sockets_ok (mkAbsSockets (ab_registry a) (ab_closed a) (<[ws := (v.1, <[mid := Waiting]> v.2)]> (ab_views a))) (log ++ [Sent ws mid]).
Proof.
  intros Hok Hv Hm Hc. pose proof (shape_alter a log ws (λ _, <[mid := Waiting]> v.2) Hok) as [S1 S2].
  rewrite <- (insert_is_alter a ws v) in S1, S2 by done. destruct Hok as [_ _ H3 H4]. split; try done.
  - intros k m. rewrite pend_insert, outstanding_snoc. simpl. specialize (H3 k m). case_bool_decide as E; [subst k|rewrite bool_decide_false by (by intros [? _]); done].
    simpl. destruct (decide (m = mid)) as [->|Hne].
    + rewrite lookup_insert_eq, bool_decide_true by done. by exists [].
    + rewrite lookup_insert_ne by done. rewrite bool_decide_false by (by intros [_ ?]). unfold pend in H3. by rewrite Hv in H3.
  - apply lawful_sent; [done|]. specialize (H3 ws mid). unfold pend in H3. rewrite Hv in H3. simpl in H3. by rewrite Hm in H3.
Qed.

Lemma ok_woke a log ws v mid fut n :
  sockets_ok a log → ab_views a !! ws = Some v → v.2 !! mid = Some fut → outcome_of fut n →
  sockets_ok (mkAbsSockets (ab_registry a) (ab_closed a) (<[ws := (v.1, delete mid v.2)]> (ab_views a))) (log ++ [Woke ws mid n]).
Proof.
  intros Hok Hv Hm Hn. pose proof (shape_alter a log ws (λ _, delete mid v.2) Hok) as [S1 S2].
  rewrite <- (insert_is_alter a ws v) in S1, S2 by done. destruct Hok as [_ _ H3 H4]. split; try done.
  - intros k m. rewrite pend_insert, outstanding_snoc. simpl. specialize (H3 k m). case_bool_decide as E; [subst k|rewrite bool_decide_false by (by intros [? _]); done].
    simpl. destruct (decide (m = mid)) as [->|Hne].
    + by rewrite lookup_delete_eq, bool_decide_true.
    + rewrite lookup_delete_ne by done. rewrite bool_decide_false by (by intros [_ ?]). unfold pend in H3. by rewrite Hv in H3.
  - specialize (H3 ws mid). unfold pend in H3. rewrite Hv in H3. simpl in H3. rewrite Hm in H3. destruct H3 as (l & Hl & Hf).
    apply (lawful_woke _ _ _ _ l); [done|done|]. destruct fut; simpl in Hn; subst n; try done. destruct Hf as [Hin _]. simpl. eauto.
Qed.

(** Closing a socket cancels what waits on it. *)
Lemma call_closed a r ws log :
  (∀ k mid, match pend a k mid with
    | Some fut => ∃ answers, outstanding k mid log = Some answers ∧ future_ok a k mid answers fut
    | None => outstanding k mid log = None end) →
  ∀ k mid, match pend (mkAbsSockets r ({[ ws ]} ∪ ab_closed a) (cancel_at ws (ab_views a))) k mid with
    | Some fut => ∃ answers, outstanding k mid log = Some answers ∧
        future_ok (mkAbsSockets r ({[ ws ]} ∪ ab_closed a) (cancel_at ws (ab_views a))) k mid answers fut
    | None => outstanding k mid log = None end.
Proof.
  intros H3 k mid. unfold cancel_at at 1. rewrite pend_alter. specialize (H3 k mid). case_bool_decide as E.
  - subst k. unfold pend in H3. destruct (ab_views a !! ws) as [v|]; [|done]. simpl in H3 |- *. rewrite lookup_fmap.
    destruct (v.2 !! mid) as [fut|]; [|done]. simpl. destruct H3 as (l & Hl & Hf). exists l. split; [done|]. destruct fut; simpl in *; [set_solver|done|set_solver].
  - destruct (pend a k mid) as [fut|]; [|done]. destruct H3 as (l & Hl & Hf). exists l. split; [done|]. destruct fut; simpl in *; [set_solver|done|set_solver].
Qed.

Lemma lookup_cancel_at ws (m : gmap Z View) k v : cancel_at ws m !! k = Some v → ∃ w, m !! k = Some w ∧ w.1 = v.1.
Proof.
  unfold cancel_at. destruct (decide (k = ws)) as [->|]; [rewrite lookup_alter_eq|rewrite lookup_alter_ne by done; eauto].
  destruct (m !! ws) as [w|]; [|done]. intros [= <-]. eauto.
Qed.

Lemma cancel_at_code ws (m : gmap Z View) k code p : m !! k = Some (code, p) → ∃ p', cancel_at ws m !! k = Some (code, p').
Proof.
  unfold cancel_at. intros Hk. destruct (decide (k = ws)) as [->|]; [rewrite lookup_alter_eq, Hk; by eexists|rewrite lookup_alter_ne by done; eauto].
Qed.

Lemma ok_gone a log ws v : sockets_ok a log → ab_views a !! ws = Some v → sockets_ok (gone ws v a) log.
Proof.
  intros [H1 H2 H3 H4] Hv. unfold gone. split; try done; [| |by apply call_closed]; simpl.
  - intros code k Hk. assert (ab_registry a !! code = Some k) as Hk' by (case_bool_decide; [by apply lookup_delete_Some in Hk as [_ ?]|done]).
    destruct (H1 code k Hk') as [p Hp]. by eapply cancel_at_code.
  - intros k w (w' & Hw & Ew)%lookup_cancel_at. specialize (H2 k w' Hw). rewrite Ew in H2. destruct (decide (k = ws)) as [->|Hne].
    + rewrite Hv in Hw. injection Hw as <-. split; [set_solver|]. rewrite <- Ew. case_bool_decide; [by rewrite lookup_delete_eq|done].
    + rewrite not_elem_of_union, not_elem_of_singleton, H2. split.
      * intros [_ Hr]. case_bool_decide as E; [|done]. rewrite lookup_delete_ne; [done|]. intros E'. rewrite E' in E. congruence.
      * intros Hr. split; [done|]. case_bool_decide; [by apply lookup_delete_Some in Hr as [_ ?]|done].
Qed.

Lemma ok_connected a log code ws :
  sockets_ok a log → ab_views a !! ws = None → ws ∉ ab_closed a →
  sockets_ok (with_socket code ws (mkAbsSockets (ab_registry a) (ab_closed a) (<[ws := (code, ∅)]> (ab_views a)))) log.
Proof.
  intros [H1 H2 H3 H4] Hv Hc.
  assert (∀ k mid, match pend (mkAbsSockets (ab_registry a) (ab_closed a) (<[ws := (code, ∅)]> (ab_views a))) k mid with
    | Some fut => ∃ answers, outstanding k mid log = Some answers ∧ future_ok a k mid answers fut
    | None => outstanding k mid log = None end) as H3'.
  { intros k mid. rewrite pend_insert. specialize (H3 k mid). case_bool_decide; [|done]. subst k. simpl. rewrite lookup_empty. unfold pend in H3. by rewrite Hv in H3. }
  unfold with_socket. simpl. destruct (ab_registry a !! code) as [p|] eqn:Er.
  - destruct (H1 code p Er) as [pp Hp]. rewrite bool_decide_false by (intros ->; congruence).
    split; try done; [| |exact (call_closed (mkAbsSockets (ab_registry a) (ab_closed a) (<[ws := (code, ∅)]> (ab_views a))) _ p log H3')]; simpl.
    + intros c k. rewrite lookup_insert_Some. intros [[<- <-]|[Hne Hk]].
      * eapply cancel_at_code. by apply lookup_insert_eq.
      * destruct (H1 c k Hk) as [q Hq]. eapply cancel_at_code. rewrite lookup_insert_ne by (intros ->; congruence). done.
    + intros k w (w' & Hw & <-)%lookup_cancel_at. apply lookup_insert_Some in Hw as [[<- <-]|[Hne Hw]]; simpl.
      * rewrite lookup_insert_eq. split; [done|]. intros _. apply not_elem_of_union. split; [|done]. rewrite not_elem_of_singleton. intros ->. congruence.
      * specialize (H2 k w' Hw). rewrite not_elem_of_union, not_elem_of_singleton, H2. destruct (decide (w'.1 = code)) as [E|E].
        -- rewrite E, lookup_insert_eq, Er. split; [intros [? [= ?]]; congruence|]. intros [= ?]. congruence.
        -- rewrite lookup_insert_ne by done. split; [by intros [_ ?]|]. intros Hk. split; [|done]. intros ->. rewrite Hp in Hw. injection Hw as <-. done.
  - split; try done; simpl.
    + intros c k. rewrite lookup_insert_Some. intros [[<- <-]|[Hne Hk]]; [rewrite lookup_insert_eq; by eexists|].
      destruct (H1 c k Hk) as [q Hq]. rewrite lookup_insert_ne by (intros ->; congruence). eauto.
    + intros k w Hw. apply lookup_insert_Some in Hw as [[<- <-]|[Hne Hw]]; [simpl; by rewrite lookup_insert_eq|].
      specialize (H2 k w Hw). rewrite H2. destruct (decide (w.1 = code)) as [->|E]; [rewrite lookup_insert_eq, Er; split; congruence|by rewrite lookup_insert_ne].
Qed.

(** ** Theorems *)

Section runs.
Context {dep : Deployment} (tag_hash : string → string) (digest : string → list (string * Json) → string) (schemas : Schemas).
Context (depth : nat) (float_repr : Z → Z → string).

Abbreviation step := (sock_step tag_hash digest schemas depth float_repr).
Abbreviation run := (sock_run tag_hash digest schemas depth float_repr).

Lemma abs_eta s : mkAbsSockets (sv_registry s) (sv_closed s) (view <$> sv_conns s) = abs s.
Proof. done. Qed.

Lemma sockets_step s es s' log : sockets_ok (abs s) log → step s es s' → sockets_ok (abs s') (log ++ es).
Proof.
  intros Hok Hs. destruct Hs as [ws subs code now down r s s' Hn Hc H|ws r s s' H|ws mid action payload broken r s s' H|
    ws raw down broken r s s' H|ws point down broken r s s' H|ws mid timed_out o s s' H|s s' E1 E2 E3]; rewrite ?app_nil_r.
  - apply connect_abs in H as [->|[c ->]]; [done|]. apply (ok_connected (abs s)); [done| |done]. simpl. by rewrite lookup_fmap, Hn.
  - apply disconnect_abs in H as [->|(v & Hv & ->)]; [done|]. by apply ok_gone.
  - apply begin_call_abs in H. destruct r as [e|[]]; rewrite ?app_nil_r; [by rewrite H|].
    destruct H as (v & Hv & Hm & Hc & ->). by apply (ok_sent (abs s)).
  - apply handle_message_abs in H as [->|(f & Hf & Hk & ->)].
    + destruct (decode_frame depth raw); [by rewrite app_nil_r|by apply ok_got].
    + rewrite Hf. by apply (ok_settle (abs s)).
  - assert (abs s' = abs s) as ->; [|done]. refine (keeps_run (λ x, abs x = abs s) _ _ _ _ _ eq_refl H). unfold refuse_binary, record_contact.
    pose proof @keeps_send. keeps_steps. apply keeps_transact.
  - apply end_call_abs in H. destruct o as [n|]; rewrite ?app_nil_r; [|by subst]. destruct H as (v & fut & Hv & Hm & Hn & ->).
    by eapply (ok_woke (abs s)).
  - unfold abs in *. by rewrite E1, E2, E3.
Qed.

(** C18. However connects, replacements, disconnects, calls, messages and wake-ups
    interleave, calls and replies match: no two outstanding calls on a socket
    share an identifier, every caller wakes at most once, with a reply only if
    that reply came in on its socket under its identifier after its call was
    sent; a charger's registered socket is its only open one; and no caller waits
    on a socket that was replaced or closed. *)
Theorem transport_calls_matched s log s' :
  sv_conns s = ∅ → sv_registry s = ∅ → run s log s' →
  lawful log ∧
  ∀ ws c, sv_conns s' !! ws = Some c →
    (ws ∉ sv_closed s' ↔ sv_registry s' !! oc_charge_point_code c = Some ws) ∧
    ∀ mid, (is_Some (oc_pending c !! mid) ↔ is_Some (outstanding ws mid log)) ∧
      (oc_pending c !! mid = Some Waiting → ws ∉ sv_closed s') ∧ (oc_pending c !! mid = Some Cancelled → ws ∈ sv_closed s').
Proof.
  intros E1 E2 Hrun. assert (sockets_ok (abs s') log) as [_ H2 H3 H4].
  { induction Hrun as [|log s1 es s2 _ IH Hs]; [|by eapply sockets_step].
    unfold abs. rewrite E1, E2. split; simpl.
    - intros code ws. by rewrite lookup_empty.
    - intros ws v. by rewrite fmap_empty, lookup_empty.
    - intros ws mid. unfold pend. simpl. by rewrite fmap_empty, lookup_empty.
    - constructor. }
  split; [done|]. intros ws c Hc. split.
  - apply (H2 ws (view c)). simpl. by rewrite lookup_fmap, Hc.
  - intros mid. specialize (H3 ws mid). unfold pend in H3. simpl in H3. rewrite lookup_fmap, Hc in H3. simpl in H3.
    destruct (oc_pending c !! mid) as [fut|]; [|rewrite H3; split_and!; [split; by intros []|done|done]].
    destruct H3 as (l & -> & Hf). split_and!; [done|by intros [= ->]|by intros [= ->]].
Qed.
End runs.

(** *** A reply, and a socket that is replaced *)

Definition sk0 : Server := mkServer demo_power_db ∅ ∅ [] ∅ None [] (mkExchanged false false false).
Definition no_repr (m e : Z) : string := "0.0".
Definition demo_reply : Frame := result_frame "m1" [("status", JStr "Accepted")].
Definition demo_raw : string := default "" (encode_frame no_repr demo_reply).

Definition demo_connect (ws : Z) : Io bool := connect_charge_point ws ["ocpp1.6"] " CP-40 " 0 false.
Definition demo_call (ws : Z) (mid : string) : Io () := begin_call no_repr ws mid "GetConfiguration" [] false.
Definition demo_receive (ws : Z) : Io () :=
  handle_message (dep := demo_deployment) (λ s, s) (λ _ _, "") demo_schemas 990 no_repr ws demo_raw false false.

Definition sk1 : Server := (demo_connect 1 sk0).2.
Definition sk2 : Server := (demo_call 1 "m1" sk1).2.
Definition sk3 : Server := (demo_receive 1 sk2).2.
Definition sk4 : Server := (demo_call 1 "m2" sk3).2.
Definition sk5 : Server := (demo_connect 2 sk4).2.
Definition sk6 : Server := (end_call 1 "m1" false sk5).2.
Definition sk7 : Server := (end_call 1 "m2" false sk6).2.

Definition demo_log : list Event :=
  [Sent 1 "m1"; Got 1 demo_reply; Sent 1 "m2"; Woke 1 "m1" (Reached 3 [("status", JStr "Accepted")] ""); Woke 1 "m2" Lost].

Lemma pair_of {A B} (x : A * B) a : x.1 = a → x = (a, x.2).
Proof. intros <-. apply surjective_pairing. Qed.

Lemma demo_run : sock_run (dep := demo_deployment) (λ s, s) (λ _ _, "") demo_schemas 990 no_repr sk0 demo_log sk7.
Proof.
  set (st := sock_step (dep := demo_deployment) (λ s, s) (λ _ _, "") demo_schemas 990 no_repr).
  assert (st sk0 [] sk1) as T1.
  { refine (sk_connect _ _ _ _ _ 1 ["ocpp1.6"] " CP-40 " 0 false (inr true) _ _ _ _ _); [done|done|]. apply pair_of. vm_compute. reflexivity. }
  assert (st sk1 [Sent 1 "m1"] sk2) as T2.
  { refine (sk_call _ _ _ _ _ 1 "m1" "GetConfiguration" [] false (inr ()) _ _ _). apply pair_of. vm_compute. reflexivity. }
  assert (st sk2 [Got 1 demo_reply] sk3) as T3.
  { assert (decode_frame 990 demo_raw = inr demo_reply) as E by (vm_compute; reflexivity).
    pose proof (sk_message (dep := demo_deployment) (λ s, s) (λ _ _, "") demo_schemas 990 no_repr 1 demo_raw false false (demo_receive 1 sk2).1 sk2 sk3 (surjective_pairing _)) as T.
    by rewrite E in T. }
  assert (st sk3 [Sent 1 "m2"] sk4) as T4.
  { refine (sk_call _ _ _ _ _ 1 "m2" "GetConfiguration" [] false (inr ()) _ _ _). apply pair_of. vm_compute. reflexivity. }
  assert (st sk4 [] sk5) as T5.
  { refine (sk_connect _ _ _ _ _ 2 ["ocpp1.6"] " CP-40 " 0 false (inr true) _ _ _ _ _); [vm_compute; reflexivity|apply (bool_decide_eq_false_1 (2 ∈ sv_closed sk4)); vm_compute; reflexivity|]. exact (pair_of (demo_connect 2 sk4) (inr true) ltac:(vm_compute; reflexivity)). }
  assert (st sk5 [Woke 1 "m1" (Reached 3 [("status", JStr "Accepted")] "")] sk6) as T6.
  { refine (sk_wake _ _ _ _ _ 1 "m1" false (Some _) _ _ _). apply pair_of. vm_compute. reflexivity. }
  assert (st sk6 [Woke 1 "m2" Lost] sk7) as T7.
  { refine (sk_wake _ _ _ _ _ 1 "m2" false (Some _) _ _ _). apply pair_of. vm_compute. reflexivity. }
  exact (run_snoc _ _ _ _ _ _ _ _ _ _ (run_snoc _ _ _ _ _ _ _ _ _ _ (run_snoc _ _ _ _ _ _ _ _ _ _ (run_snoc _ _ _ _ _ _ _ _ _ _
    (run_snoc _ _ _ _ _ _ _ _ _ _ (run_snoc _ _ _ _ _ _ _ _ _ _ (run_snoc _ _ _ _ _ _ _ _ _ _ (run_nil _ _ _ _ _ _) T1) T2) T3) T4) T5) T6) T7).
Qed.

Lemma transport_calls_matched_witness : lawful demo_log ∧ sv_registry sk7 !! "cp-40" = Some 2 ∧ bool_decide (1 ∈ sv_closed sk7) = true.
Proof.
  split; [|vm_compute; done].
  apply (transport_calls_matched (dep := demo_deployment) (λ s, s) (λ _ _, "") demo_schemas 990 no_repr sk0 demo_log sk7); [done|done|apply demo_run].
Defined.
